(* ===== verification/_CoqProject ===== *)
-Q . S2P
Prelude.v
Bytes.v
Spinlock.v
Sched.v
Dll.v
Bio.v
BioSpec.v
Ide.v
Bootmain.v
BufLayer.v
Ondisk.v
Log.v
LogSpec.v
LogCrash.v
LogOps.v
LogThms.v
Txn.v
CString.v
Fs.v
Dir.v
FsAlloc.v
FsMap.v
FsFile.v
FsRw.v
Mkfs.v
Boot.v
FsThms.v
Icache.v
DirThms.v
Kalloc.v
Vm.v
VmSpec.v
VmThms.v
Kvm.v
Mp.v
Acpi.v
Pipe.v
File.v
Proc.v
Syscall.v
Exec.v
Sysfile.v
Trap.v
Apic.v
Main.v
Kbd.v
Console.v
ConsoleThms.v
Frame.v
FrameFs.v
FrameKer.v
FrameCon.v
ProcThms.v
SchedInv.v
WaitThms.v
FdRefs.v
Kernel.v
Grep.v
Umalloc.v
Sh.v
ShThms.v
ShRun.v
Libfs.v
Opfs.v
LibfsThms.v
User.v
