(* ===== verification/Prelude.v ===== *)
(** * A verification library for the xv6-memfs kernel

    The repository is a port of the teaching kernel xv6 to x86-64, built with
    the file system image in memory, together with the host tools that make
    and inspect such images and with the user programs.  This library
    translates the C code into Rocq functions and proves what it does.

    ** How the code is translated

    A function that changes state is a function of the monad [M S A] below: it
    takes the state [S] and returns a value and a new state, or stops.  It
    stops where the code panics, where it gives up the CPU ([Switch]), where
    it spins on a lock of another CPU ([Spin]), and where C defines nothing
    ([Undef]: a null pointer, an index outside an array).  A thread that
    sleeps is therefore cut at the sleep; a function with the suffix [_resume]
    is what the thread does when it runs again, and theorems about several
    threads are about sequences of such pieces in any order.  Machine integers
    are [Z] with explicit wrap-around ([u8] ... [u64], [i16], [i32]), memory and
    disk blocks are lists of bytes, pointers into a table are indices and null
    is [None].

    A loop over a range is a recursion over the list of its values.  Any other
    loop is [loopM] with a number of turns as fuel, and running out of fuel is
    the stop [NoFuel], which no theorem about a result admits: the theorems say
    that the code returns.  The fuel is always computed from the input by a
    bound on the turns: the length of a string or of the rest of a transfer
    (each turn consumes a byte at least), the number of entries of a table, the
    number of headers on the free list, three times the length of a command
    line, the bytes of a table of the firmware.  A loop that waits for a device
    has no such bound: its fuel is a parameter [polls], and the theorems assume
    that the device answers within that many reads.

    Devices, the firmware and the linker are parameters.  The disk controller
    is a class with the laws of its data sheet (Ide.v), the registers of the
    interrupt controllers answer by a function of all accesses so far (Apic.v),
    the tables of the firmware are bytes in memory (Mp.v, Acpi.v).  User
    programs are trees of system calls, or functions from the results of the
    system calls to the bytes written.

    ** The parts of the program and the files that model them

    Foundations.  Prelude.v has the monad, its rules and tactics; Bytes.v byte
    strings and little-endian words; CString.v kernel/string.c and the string
    functions of ulib/ulib.c.

    Locks and processes.  Spinlock.v is kernel/spinlock.c on a set of CPUs.
    Sched.v is the process table with [sched], [yield], [sleep], [wakeup] and
    [kill] of kernel/proc.c, Proc.v the rest of it: [allocproc], [userinit],
    [growproc], [fork], [exit], [wait] and the scheduler loop, cut at the
    context switch.

    Disk and log.  Bio.v is kernel/bio.c over the memory disk of
    kernel/memide.c, with the circular list of Dll.v; the disk keeps the
    sequence of writes, so that a crash can be put between any two.
    BioSpec.v gives its abstract state and invariant, and BufLayer.v the
    interface (a class of operations and a class of laws) that its clients are
    proved against.  Log.v is kernel/log.c over that interface; LogSpec.v,
    LogCrash.v and LogOps.v are its invariant and the disks a crash can leave,
    and Txn.v the interface it offers in turn.  Ide.v is kernel/ide.c, the
    driver of a real disk that kernel/memide.c replaces in the build.

    File system.  Ondisk.v is the format of include/fs.h.  Fs.v and Dir.v are
    kernel/fs.c over the transaction interface.  FsAlloc.v, FsMap.v, FsFile.v
    and FsRw.v are the theory of the block bitmap, of the blocks of a file, and
    of reading and writing; Icache.v that of the inode cache.  File.v is
    kernel/file.c with [pipealloc], Pipe.v the rest of kernel/pipe.c.  Mkfs.v is
    tools/mkfs.c, Libfs.v and Opfs.v are tools/libfs.c and tools/opfs.c.

    Memory.  Kalloc.v is kernel/kalloc.c with the free list inside the free
    pages, Vm.v the functions on address spaces of kernel/vm.c and
    kernel/vm64.c with page tables in that memory, VmSpec.v their invariant.
    Kvm.v is the part of kernel/vm64.c that makes the kernel's address map and
    the descriptor tables, read back by a model of the processor.

    Start-up.  Bootmain.v is the boot loader kernel/bootmain.c, Mp.v
    kernel/mp.c, Acpi.v kernel/acpi.c, Apic.v kernel/lapic.c, kernel/ioapic.c,
    kernel/picirq.c, kernel/timer.c and [startothers], and Main.v composes
    them in the order of kernel/main.c, with the set-up of kernel/uart.c.

    System calls.  Syscall.v fetches arguments through the page table of the
    process (kernel/syscall.c), Exec.v is kernel/exec.c, Sysfile.v
    kernel/sysfile.c, and Trap.v kernel/sysproc.c, the dispatch of
    kernel/syscall.c and kernel/trap.c.

    Devices.  Kbd.v is kernel/kbd.c with its tables; Console.v is
    kernel/console.c and kernel/uart.c.

    User programs.  Grep.v is user/grep.c, Sh.v the parser of user/sh.c, ShRun.v
    the rest of it and user/init.c as trees of system calls with the processes
    they lead to, Umalloc.v ulib/umalloc.c, User.v ulib/printf.c and the small
    programs wc, cat, ls, echo and chmod.

    ** What is proved

    Crashes (LogThms.v): the disk after a crash at any point of a commit, and
    after any number of interrupted recoveries, recovers to all or none of the
    transaction.

    Files (FsThms.v, Icache.v, DirThms.v): [writei] and [readi] implement the
    byte sequence of a file and do not touch other files; [balloc] and [bfree]
    implement a set of blocks; the inode cache has one entry per inode;
    [dirlink] and [dirlookup] implement a map from names to numbers, and
    [skipelem] enumerates the components of a path.  The theorems are stated
    over any transaction layer, and run on the image that mkfs makes
    (Boot.v).  LibfsThms.v shows that the host tool and the kernel agree on
    what a file of an image contains.

    Processes (ProcThms.v, WaitThms.v, SchedInv.v): the effect of [exit] and
    [wait] on every slot, and the invariant, over all interleavings of any
    number of CPUs, that a process runs on at most one of them.

    Memory (Kalloc.v, VmThms.v, Kvm.v): no history of the allocator hands out a
    page twice; [allocuvm], [copyout] and [copyuvm] do to the memory a process
    sees what they should and nothing else; the processor finds the kernel, the
    devices and the interrupt handlers where the code put them, and user code
    cannot.

    Start-up (Bootmain.v, Mp.v, Acpi.v, Apic.v, Main.v): the boot loader leaves
    the image where its header asks for it; the tables of the firmware are read
    back; [main] starts every other processor on a stack of its own and gives
    no page out twice; interrupts are routed to the right vectors.

    Disk (Ide.v): in all interleavings the driver serves its queue in order,
    each request with the effect of the memory disk, and the queue drains.

    Pipes (Pipe.v): in all interleavings a pipe is a queue, and nobody sleeps
    who could go on.

    Console (Kbd.v, ConsoleThms.v): the line buffer is a queue of lines and a
    line being edited; the display stays inside its memory.

    The kernel as a whole (Frame.v, FrameFs.v, FrameKer.v, FrameCon.v, FdRefs.v,
    Kernel.v): every system call and interrupt, on every path on which it
    returns, leaves the locks and the interrupt state as they were, and the
    reference count of every open file equal to the number of descriptors that
    name it.  The frame lemmas are proved bottom-up against the interfaces of
    the layers, with a hint database and a tactic that follow the code.

    User programs (Grep.v, ShThms.v, ShRun.v, Umalloc.v, User.v): the matcher
    decides the language of its patterns; the shell's parser always answers,
    reads back every command that can be written down, and does not damage its
    strings; the processes the shell makes of a line are those the command
    means, with the right files, and a pipeline ends; [malloc] and [free] keep
    the heap tiled by blocks and return; [printf] prints numerals, wc counts.

    ** What is not modelled

    - Assembly (boot, trap entry, context switch, system call stubs): the
      switch of stacks is represented by cutting functions at it.
    - kernel/cpuid.c, which executes one instruction and prints its results,
      the debugging code ([procdump], [getcallerpcs]), and messages.
    - The parts of kernel/vm.c and of the headers that are compiled only for
      32 bits.
    - The remaining user programs, each of which makes a system call per
      argument, and the user tests.
    - [userinit] and the initialisers of tables in [main_boot]: they act on
      state of other components and are modelled there.
    - The hardware below the C code: code runs as if memory were sequentially
      consistent, and a piece of code between two points where it can be
      interrupted is one step. *)

From Stdlib Require Import ZArith Lia.
From Stdlib Require Import FunctionalExtensionality.
From stdpp Require Export base numbers strings gmap fin_maps functions list_numbers list.

#[global] Open Scope Z_scope.
#[export] Set Warnings "-clear-no-such-hyp".

Create HintDb xv6.
Create Rewrite HintDb xv6.

(** ** Machine integers

    A [w]-bit unsigned C value is a [Z] in [[0, 2^w)]; arithmetic wraps by
    taking the remainder.  [i32] and [i16] reinterpret as two's complement. *)

Definition wrap (w x : Z) : Z := x mod 2 ^ w.
Abbreviation u8 := (wrap 8).
Abbreviation u16 := (wrap 16).
Abbreviation u32 := (wrap 32).
Abbreviation u64 := (wrap 64).

Definition swrap (w x : Z) : Z := (x + 2 ^ (w - 1)) mod 2 ^ w - 2 ^ (w - 1).
Abbreviation i8 := (swrap 8).
Abbreviation i16 := (swrap 16).
Abbreviation i32 := (swrap 32).

Lemma wrap_small w x : 0 ≤ x < 2 ^ w → wrap w x = x.
Proof. intros. unfold wrap. by rewrite Z.mod_small. Qed.

Lemma wrap_range w x : 0 ≤ w → 0 ≤ wrap w x < 2 ^ w.
Proof. intros. unfold wrap. apply Z.mod_pos_bound. lia. Qed.

Lemma swrap_small w x : 0 < w → - 2 ^ (w - 1) ≤ x < 2 ^ (w - 1) → swrap w x = x.
Proof.
  intros Hw Hx. unfold swrap.
  assert (2 ^ w = 2 * 2 ^ (w - 1)) as Hp.
  { rewrite <- Z.pow_succ_r by lia. f_equal. lia. }
  rewrite Z.mod_small by lia. lia.
Qed.

Lemma swrap_range w x : 0 < w → - 2 ^ (w - 1) ≤ swrap w x < 2 ^ (w - 1).
Proof.
  intros Hw. unfold swrap.
  assert (2 ^ w = 2 * 2 ^ (w - 1)) as Hp.
  { rewrite <- Z.pow_succ_r by lia. f_equal. lia. }
  pose proof (Z.mod_pos_bound (x + 2 ^ (w - 1)) (2 ^ w)). lia.
Qed.

(** Flag words: the code tests [f & m], sets with [f |= m] and clears with
    [f &= ~m], where [m] is one bit. *)

Definition has (f m : Z) : bool := negb (Z.land f m =? 0).
Definition setf (f m : Z) : Z := Z.lor f m.
Definition clrf (f m : Z) : Z := Z.land f (Z.lnot m).

Lemma has_testbit f k : 0 ≤ k → has f (2 ^ k) = Z.testbit f k.
Proof.
  intros Hk. unfold has.
  destruct (Z.testbit f k) eqn:E.
  - apply negb_true_iff, Z.eqb_neq. intros H0.
    assert (Z.testbit (Z.land f (2 ^ k)) k = false) as Hf
      by (rewrite H0; apply Z.bits_0).
    rewrite Z.land_spec, E, Z.pow2_bits_true in Hf by lia. discriminate.
  - apply negb_false_iff, Z.eqb_eq. apply Z.bits_inj'. intros n Hn.
    rewrite Z.land_spec, Z.bits_0, Z.pow2_bits_eqb by lia.
    destruct (Z.eqb_spec k n) as [->|]; [by rewrite E | by rewrite andb_false_r].
Qed.

Lemma has_setf f j k : 0 ≤ j → 0 ≤ k →
  has (setf f (2 ^ j)) (2 ^ k) = (j =? k) || has f (2 ^ k).
Proof.
  intros. rewrite !has_testbit by lia. unfold setf.
  rewrite Z.lor_spec, Z.pow2_bits_eqb by lia. apply orb_comm.
Qed.

Lemma has_clrf f j k : 0 ≤ j → 0 ≤ k →
  has (clrf f (2 ^ j)) (2 ^ k) = negb (j =? k) && has f (2 ^ k).
Proof.
  intros. rewrite !has_testbit by lia. unfold clrf.
  rewrite Z.land_spec, Z.lnot_spec, Z.pow2_bits_eqb by lia. apply andb_comm.
Qed.

(** Words put together from fields that do not overlap. *)
Lemma land_disjoint a b k : 0 ≤ k → a mod 2 ^ k = 0 → 0 ≤ b < 2 ^ k → Z.land a b = 0.
Proof.
  intros Hk Ha Hb. apply Z.bits_inj'. intros n Hn. rewrite Z.land_spec, Z.bits_0.
  destruct (decide (n < k)).
  - by rewrite <- (Z.mod_pow2_bits_low a k n), Ha, Z.bits_0 by lia.
  - rewrite <- (Z.mod_small b (2 ^ k)) by lia. by rewrite (Z.mod_pow2_bits_high b k n), andb_false_r by lia.
Qed.

Lemma lor_add a b k : 0 ≤ k → a mod 2 ^ k = 0 → 0 ≤ b < 2 ^ k → Z.lor a b = a + b.
Proof.
  intros Hk Ha Hb. pose proof (land_disjoint a b k Hk Ha Hb) as E.
  by rewrite Z.add_nocarry_lxor, Z.lxor_lor.
Qed.

(** The first element of a list that a search finds. *)
Lemma head_filter_first {A} (P : A → Prop) `{∀ x, Decision (P x)} l1 x l2 :
  Forall (λ y, ¬ P y) l1 → P x → head (filter P (l1 ++ x :: l2)) = Some x.
Proof.
  intros Hn Hx. induction Hn as [|y l1 Hy _ IH]; cbn [app]; [by rewrite filter_cons_True|by rewrite filter_cons_False].
Qed.

(** ** Stateful code with exits

    Kernel code that runs in one thread is a function from a state to a
    result.  It returns a value, or stops: [Panic] is a call of [panic()];
    [Switch] is the [swtch] to the scheduler inside [sched()], after which
    another thread runs; [Spin l] is [acquire] of a lock another CPU holds; [Undef]
    is behaviour C does not define (an access outside an array, a null
    pointer); [NoFuel] marks a loop whose bound was exhausted. *)

Definition chan : Type := string * Z.
Definition lockid : Type := string * Z.

Inductive stop : Type :=
  | Panic (msg : string)
  | Switch
  | Spin (l : lockid)
  | Undef
  | NoFuel.

Inductive res (S A : Type) : Type :=
  | Ok (a : A) (s : S)
  | Stop (e : stop) (s : S).
Arguments Ok {S A} a s.
Arguments Stop {S A} e s.

Definition M (S A : Type) : Type := S → res S A.

Definition ret {S A} (a : A) : M S A := λ s, Ok a s.
Definition bind {S A B} (m : M S A) (k : A → M S B) : M S B := λ s,
  match m s with
  | Ok a s' => k a s'
  | Stop e s' => Stop e s'
  end.

Declare Scope xv6_scope.
#[global] Open Scope xv6_scope.
Notation "x ← y ; z" := (bind y (λ x, z))
  (at level 20, y at level 100, z at level 200, only parsing) : xv6_scope.
Notation "' x ← y ; z" := (bind y (λ x, z))
  (at level 20, x pattern, y at level 100, z at level 200, only parsing) : xv6_scope.
Notation "x ;;; y" := (bind x (λ _, y))
  (at level 100, y at level 200, right associativity, only parsing) : xv6_scope.

Definition get {S} : M S S := λ s, Ok s s.
Definition gets {S A} (f : S → A) : M S A := λ s, Ok (f s) s.
Definition modify {S} (f : S → S) : M S unit := λ s, Ok tt (f s).
Definition put {S} (s : S) : M S unit := λ _, Ok tt s.
Definition halt {S A} (e : stop) : M S A := λ s, Stop e s.
Definition panic {S A} (msg : string) : M S A := halt (Panic msg).

(** A null pointer or an index outside an array has no defined value. *)
Definition need {S A} (o : option A) : M S A :=
  match o with Some a => ret a | None => halt Undef end.

Definition whenM {S} (b : bool) (m : M S unit) : M S unit :=
  if b then m else ret tt.

(** The state of an inner layer is a field of the outer layer's state. *)
Definition lift {S T A} (g : T → S) (p : S → T → T) (m : M S A) : M T A :=
  λ t, match m (g t) with
       | Ok a s => Ok a (p s t)
       | Stop e s => Stop e (p s t)
       end.

(** [for]-style loops over a list of values of the loop variable, with an
    early [return] or [break] carrying a value. *)
Fixpoint for_each {S X R} (l : list X) (body : X → M S (option R)) : M S (option R) :=
  match l with
  | [] => ret None
  | x :: l' =>
      r ← body x;
      match r with
      | Some v => ret (Some v)
      | None => for_each l' body
      end
  end.

(** Loops without an early exit. *)
Fixpoint for_all {S X} (l : list X) (body : X → M S unit) : M S unit :=
  match l with
  | [] => ret tt
  | x :: l' => body x ;;; for_all l' body
  end.

(** Loops whose bound is not a list: [inl] goes round again with new values
    of the loop variables, [inr] leaves with a result. *)
Fixpoint loopM {S X R} (fuel : nat) (body : X → M S (X + R)) (x : X) : M S R :=
  match fuel with
  | O => halt NoFuel
  | Datatypes.S n =>
      r ← body x;
      match r with
      | inl x' => loopM n body x'
      | inr v => ret v
      end
  end.

(** ** Weakest preconditions *)

Definition wp {S A} (m : M S A) (Q : A → S → Prop) (E : stop → S → Prop) (s : S) : Prop :=
  match m s with
  | Ok a s' => Q a s'
  | Stop e s' => E e s'
  end.

Section wp_rules.
Context {S : Type}.
Implicit Types (s : S) (E : stop → S → Prop).

Lemma wp_ret {A} (a : A) (Q : A → S → Prop) E s : Q a s → wp (ret a) Q E s.
Proof. done. Qed.

Lemma wp_bind {A B} (m : M S A) (k : A → M S B) (Q : B → S → Prop) E s :
  wp m (λ a s', wp (k a) Q E s') E s → wp (bind m k) Q E s.
Proof. unfold wp, bind. by destruct (m s). Qed.

Lemma wp_mono {A} (m : M S A) (Q Q' : A → S → Prop) (E E' : stop → S → Prop) s :
  wp m Q E s → (∀ a s', Q a s' → Q' a s') → (∀ e s', E e s' → E' e s') →
  wp m Q' E' s.
Proof. unfold wp. destruct (m s); eauto. Qed.

Lemma wp_ok {A} (m : M S A) a s s' (Q : A → S → Prop) E :
  m s = Ok a s' → Q a s' → wp m Q E s.
Proof. unfold wp. by intros ->. Qed.

Lemma wp_run {A} (m : M S A) (Q : A → S → Prop) E s :
  wp m Q E s → (∃ a s', m s = Ok a s' ∧ Q a s') ∨ (∃ e s', m s = Stop e s' ∧ E e s').
Proof. unfold wp. destruct (m s); eauto 10. Qed.

(** A body that keeps [I] for every element leaves [I] at the end, or exits
    early with [Q]. *)
Lemma wp_for_each {X R} (body : X → M S (option R)) (I : list X → S → Prop)
    (Q : R → S → Prop) E l s :
  I l s →
  (∀ x l' s, I (x :: l') s →
     wp (body x) (λ r s', match r with Some v => Q v s' | None => I l' s' end) E s) →
  wp (for_each l body)
     (λ r s', match r with Some v => Q v s' | None => I [] s' end) E s.
Proof.
  intros HI Hb. revert s HI. induction l as [|x l IH]; intros s HI; simpl; [done|].
  apply wp_bind. eapply wp_mono; [by apply Hb| |done].
  intros [v|] s' H'; simpl in *; [done|by apply IH].
Qed.

Lemma wp_for_all {X} (body : X → M S unit) (I : list X → S → Prop) E l s :
  I l s →
  (∀ x l' s, I (x :: l') s → wp (body x) (λ _ s', I l' s') E s) →
  wp (for_all l body) (λ _ s', I [] s') E s.
Proof.
  intros HI Hb. revert s HI. induction l as [|x l IH]; intros s HI; simpl; [done|].
  apply wp_bind. eapply wp_mono; [by apply Hb| |done]. intros; by apply IH.
Qed.
End wp_rules.

(** Rewriting a bind whose first part is known to return. *)
Lemma bind_ok {S A B} (m : M S A) (k : A → M S B) s a s' :
  m s = Ok a s' → (bind m k) s = k a s'.
Proof. unfold bind. by intros ->. Qed.

Lemma bind_stop {S A B} (m : M S A) (k : A → M S B) s e s' :
  m s = Stop e s' → (bind m k) s = Stop e s'.
Proof. unfold bind. by intros ->. Qed.

Lemma bind_inv {S A B} (m : M S A) (k : A → M S B) s b s' :
  (bind m k) s = Ok b s' → ∃ a s1, m s = Ok a s1 ∧ k a s1 = Ok b s'.
Proof. unfold bind. destruct (m s); [eauto|done]. Qed.

Lemma bind_bind {S A B C} (m : M S A) (k : A → M S B) (k' : B → M S C) s :
  bind (bind m k) k' s = bind m (λ x, bind (k x) k') s.
Proof. unfold bind. by destruct (m s). Qed.

Lemma lift_ok {S T A} (g : T → S) (p : S → T → T) (m : M S A) t a s :
  m (g t) = Ok a s → lift g p m t = Ok a (p s t).
Proof. unfold lift. by intros ->. Qed.

Lemma lift_stop {S T A} (g : T → S) (p : S → T → T) (m : M S A) t e s :
  m (g t) = Stop e s → lift g p m t = Stop e (p s t).
Proof. unfold lift. by intros ->. Qed.

(** The state and the value a run ends with. *)
Definition after {S A} (m : M S A) (s : S) : S := match m s with Ok _ s' => s' | Stop _ s' => s' end.
Definition result {S A} (m : M S A) (s : S) : option A := match m s with Ok a _ => Some a | Stop _ _ => None end.

Lemma after_ok {S A} (m : M S A) s a s' : m s = Ok a s' → after m s = s'.
Proof. unfold after. by intros ->. Qed.

(** [step H] runs the first statement of the goal with the equation [H]. *)
Ltac step H := first [ rewrite (bind_ok _ _ _ _ _ H) | rewrite (bind_stop _ _ _ _ _ H) ].

(** [go] runs the statements that reduce by computation. *)
Ltac go := cbv beta iota delta [bind ret get gets modify put halt panic need whenM].

(** [run E] runs a lifted statement with the equation [E] of the layer below. *)
Ltac run E := erewrite bind_ok; [|apply lift_ok; exact E].

(** Total functions as stores: [inserts] simplifies lookups, [fn_eq] proves
    the equality of stores built by updates. *)
Ltac inserts := repeat first
  [rewrite fn_lookup_insert | rewrite fn_lookup_insert_ne by congruence].
Ltac fn_eq :=
  let x := fresh "x" in
  extensionality x; unfold insert, fn_insert; repeat case_decide; subst;
  try congruence; auto.

Lemma fn_insert_same `{EqDecision K} {V} (f : K → V) k v : <[k:=v]> f k = v.
Proof. apply fn_lookup_insert. Qed.

Lemma fn_insert_id `{EqDecision K} {V} (f : K → V) k v : f k = v → <[k:=v]> f = f.
Proof.
  intros <-. extensionality x. destruct (decide (k = x)) as [->|Hne].
  - by rewrite fn_lookup_insert.
  - by rewrite fn_lookup_insert_ne.
Qed.

Lemma fn_insert_insert `{EqDecision K} {V} (f : K → V) k v w :
  <[k:=v]> (<[k:=w]> f) = <[k:=v]> f.
Proof.
  extensionality x. destruct (decide (k = x)) as [->|Hne].
  - by rewrite !fn_lookup_insert.
  - by rewrite !fn_lookup_insert_ne.
Qed.

Lemma list_alter_insert {A} (f : A → A) i (l : list A) x :
  l !! i = Some x → alter f i l = <[i := f x]> l.
Proof.
  intros H. rewrite list_insert_alter. apply list_alter_ext; [|done].
  intros y Hy. by rewrite H in Hy; simplify_eq.
Qed.
