(* ===== verification/Bytes.v ===== *)
(** * Byte strings

    Memory and disk blocks are lists of bytes, each a [Z] in [[0, 256)].
    [slice] and [splice] read and overwrite a range, the effect of a
    [memmove] out of and into a buffer; [le_bytes] and [le_val] are the
    little-endian layout of the x86 integers the kernel stores in blocks. *)

From S2P Require Import Prelude.

Definition is_byte (b : Z) : Prop := 0 ≤ b < 256.
Abbreviation bytes := (Forall is_byte).

Definition slice {A} (off n : nat) (l : list A) : list A := take n (drop off l).
Definition splice {A} (off : nat) (new l : list A) : list A :=
  take off l ++ new ++ drop (off + length new) l.

Section slices.
Context {A : Type}.
Implicit Types (l new : list A).

Lemma slice_length off n l : (off + n ≤ length l)%nat → length (slice off n l) = n.
Proof. intros. unfold slice. rewrite length_take, length_drop. lia. Qed.

Lemma splice_length off new l :
  (off + length new ≤ length l)%nat → length (splice off new l) = length l.
Proof. intros. unfold splice. rewrite !length_app, length_take, length_drop. lia. Qed.

Lemma lookup_splice off new l i :
  (off + length new ≤ length l)%nat →
  splice off new l !! i =
    if bool_decide (off ≤ i < off + length new)%nat then new !! (i - off)%nat else l !! i.
Proof.
  intros Hl. unfold splice. case_bool_decide as Hi.
  - rewrite lookup_app_r; rewrite length_take_le by lia; [|lia].
    rewrite lookup_app_l by lia. done.
  - destruct (decide (i < off)%nat).
    + rewrite lookup_app_l; [|rewrite length_take_le; lia]. rewrite lookup_take_lt; [done|lia].
    + rewrite lookup_app_r; rewrite length_take_le by lia; [|lia].
      rewrite lookup_app_r by lia. rewrite lookup_drop. f_equal. lia.
Qed.

Lemma lookup_slice off n l i :
  slice off n l !! i = if bool_decide (i < n)%nat then l !! (off + i)%nat else None.
Proof.
  unfold slice. case_bool_decide.
  - rewrite lookup_take_lt by done. apply lookup_drop.
  - apply lookup_take_ge. lia.
Qed.

Lemma slice_splice_same off new l :
  (off + length new ≤ length l)%nat → slice off (length new) (splice off new l) = new.
Proof.
  intros. apply list_eq. intros i. rewrite lookup_slice, lookup_splice by done.
  repeat case_bool_decide; try lia.
  - f_equal. lia.
  - symmetry. apply lookup_ge_None. lia.
Qed.

Lemma slice_splice_other off new l off' n :
  (off + length new ≤ length l)%nat →
  (off' + n ≤ off ∨ off + length new ≤ off')%nat →
  slice off' n (splice off new l) = slice off' n l.
Proof.
  intros. apply list_eq. intros i. rewrite !lookup_slice.
  case_bool_decide; [|done]. rewrite lookup_splice by done.
  case_bool_decide; [lia|done].
Qed.

Lemma splice_splice off new new' l :
  length new = length new' → (off + length new ≤ length l)%nat →
  splice off new (splice off new' l) = splice off new l.
Proof.
  intros He Hl. apply list_eq. intros i.
  rewrite !lookup_splice; rewrite ?splice_length; try lia.
  repeat case_bool_decide; try lia; done.
Qed.

Lemma splice_all new l : length new = length l → splice 0 new l = new.
Proof.
  intros H. unfold splice. rewrite H. simpl. rewrite drop_all. by rewrite app_nil_r.
Qed.

Lemma splice_slice_id off n l : (off + n ≤ length l)%nat → splice off (slice off n l) l = l.
Proof.
  intros. apply list_eq. intros i. rewrite lookup_splice; rewrite slice_length; try lia.
  case_bool_decide; [|done]. rewrite lookup_slice. rewrite bool_decide_true by lia.
  f_equal. lia.
Qed.

Lemma slice_all l : slice 0 (length l) l = l.
Proof. unfold slice. rewrite drop_0. by rewrite take_ge. Qed.

Lemma slice_app_split off n m l :
  slice off (n + m) l = slice off n l ++ slice (off + n) m l.
Proof.
  unfold slice. rewrite <- (take_drop n (take (n + m) (drop off l))).
  rewrite take_take. replace (n `min` (n + m))%nat with n by lia.
  rewrite <- (drop_drop l n off). rewrite skipn_firstn_comm.
  replace (n + m - n)%nat with m by lia. done.
Qed.

Lemma Forall_splice (P : A → Prop) off new l :
  Forall P new → Forall P l → Forall P (splice off new l).
Proof.
  intros. unfold splice. rewrite !Forall_app. split_and!; auto using Forall_take, Forall_drop.
Qed.

Lemma Forall_slice (P : A → Prop) off n l : Forall P l → Forall P (slice off n l).
Proof. intros. unfold slice. auto using Forall_take, Forall_drop. Qed.
End slices.

(** ** Little-endian integers *)

Fixpoint le_bytes (n : nat) (x : Z) : list Z :=
  match n with
  | O => []
  | S n' => x mod 256 :: le_bytes n' (x / 256)
  end.

Fixpoint le_val (l : list Z) : Z :=
  match l with
  | [] => 0
  | b :: l' => b + 256 * le_val l'
  end.

Lemma le_bytes_length n x : length (le_bytes n x) = n.
Proof. revert x. induction n; intros; simpl; auto. Qed.

Lemma le_bytes_bytes n x : bytes (le_bytes n x).
Proof.
  revert x. induction n; intros; simpl; constructor; auto.
  unfold is_byte. apply Z.mod_pos_bound. lia.
Qed.

Lemma le_val_bytes n x : le_val (le_bytes n x) = x mod 2 ^ (8 * Z.of_nat n).
Proof.
  revert x. induction n as [|n IH]; intros x.
  - simpl. by rewrite Z.mod_1_r.
  - cbn [le_bytes le_val]. rewrite IH.
    replace (8 * Z.of_nat (S n)) with (8 + 8 * Z.of_nat n) by lia.
    rewrite Z.pow_add_r by lia. change (2 ^ 8) with 256.
    rewrite Z.rem_mul_r; [lia| |]; lia.
Qed.

Lemma le_val_range l : bytes l → 0 ≤ le_val l < 2 ^ (8 * Z.of_nat (length l)).
Proof.
  induction 1 as [|b l Hb Hl IH]; [done|]. cbn [le_val length].
  replace (8 * Z.of_nat (S (length l))) with (8 + 8 * Z.of_nat (length l)) by lia.
  rewrite Z.pow_add_r by lia. change (2 ^ 8) with 256. unfold is_byte in Hb. lia.
Qed.

Lemma le_bytes_val l : bytes l → le_bytes (length l) (le_val l) = l.
Proof.
  induction 1 as [|b l Hb Hl IH]; [done|]. cbn [le_val length le_bytes].
  unfold is_byte in Hb. f_equal.
  - rewrite (Z.mul_comm 256), Z.mod_add by lia. apply Z.mod_small. lia.
  - rewrite (Z.mul_comm 256), Z.div_add, Z.div_small by lia. simpl. done.
Qed.

Lemma le_val_zeros n : le_val (replicate n 0) = 0.
Proof. induction n; simpl; lia. Qed.

(** Reading and writing an integer field of a structure at a byte offset.
    The value read is an unsigned 16- or 32-bit integer. *)
Definition get16 (off : nat) (l : list Z) : Z := u16 (le_val (slice off 2 l)).
Definition get32 (off : nat) (l : list Z) : Z := u32 (le_val (slice off 4 l)).
Definition put16 (off : nat) (x : Z) (l : list Z) : list Z := splice off (le_bytes 2 x) l.
Definition put32 (off : nat) (x : Z) (l : list Z) : list Z := splice off (le_bytes 4 x) l.

Lemma wrap_wrap w x : wrap w (wrap w x) = wrap w x.
Proof. unfold wrap. by rewrite Zmod_mod. Qed.

Section fields.
Implicit Types (l : list Z).

Lemma get16_range off l : 0 ≤ get16 off l < 2 ^ 16.
Proof. by apply wrap_range. Qed.
Lemma get32_range off l : 0 ≤ get32 off l < 2 ^ 32.
Proof. by apply wrap_range. Qed.

Lemma get16_at l l1 x l2 off : l = l1 ++ le_bytes 2 x ++ l2 → length l1 = off → get16 off l = u16 x.
Proof.
  intros -> <-. unfold get16, slice. rewrite drop_app_length.
  change 2%nat with (length (le_bytes 2 x)) at 1. rewrite take_app_length, le_val_bytes.
  apply wrap_wrap.
Qed.

Lemma get32_at l l1 x l2 off : l = l1 ++ le_bytes 4 x ++ l2 → length l1 = off → get32 off l = u32 x.
Proof.
  intros -> <-. unfold get32, slice. rewrite drop_app_length.
  change 4%nat with (length (le_bytes 4 x)) at 1. rewrite take_app_length, le_val_bytes.
  apply wrap_wrap.
Qed.

Lemma get16_put16 off x l : (off + 2 ≤ length l)%nat → get16 off (put16 off x l) = u16 x.
Proof. intros. eapply get16_at; [done|]. rewrite length_take. lia. Qed.

Lemma get32_put32 off x l : (off + 4 ≤ length l)%nat → get32 off (put32 off x l) = u32 x.
Proof. intros. eapply get32_at; [done|]. rewrite length_take. lia. Qed.

Lemma put32_length off x l : (off + 4 ≤ length l)%nat → length (put32 off x l) = length l.
Proof. intros. unfold put32. apply splice_length. by rewrite le_bytes_length. Qed.

Lemma put16_length off x l : (off + 2 ≤ length l)%nat → length (put16 off x l) = length l.
Proof. intros. unfold put16. apply splice_length. by rewrite le_bytes_length. Qed.

Lemma get32_splice_other off new l off' :
  (off + length new ≤ length l)%nat →
  (off' + 4 ≤ off ∨ off + length new ≤ off')%nat →
  get32 off' (splice off new l) = get32 off' l.
Proof. intros. unfold get32. by rewrite slice_splice_other. Qed.

Lemma get16_splice_other off new l off' :
  (off + length new ≤ length l)%nat →
  (off' + 2 ≤ off ∨ off + length new ≤ off')%nat →
  get16 off' (splice off new l) = get16 off' l.
Proof. intros. unfold get16. by rewrite slice_splice_other. Qed.

Lemma get32_put32_other off off' x l :
  (off + 4 ≤ length l)%nat → (off' + 4 ≤ off ∨ off + 4 ≤ off')%nat →
  get32 off' (put32 off x l) = get32 off' l.
Proof. intros. unfold put32. apply get32_splice_other; by rewrite le_bytes_length. Qed.

Lemma bytes_put32 off x l : bytes l → bytes (put32 off x l).
Proof. intros. apply Forall_splice; auto using le_bytes_bytes. Qed.

Lemma bytes_put16 off x l : bytes l → bytes (put16 off x l).
Proof. intros. apply Forall_splice; auto using le_bytes_bytes. Qed.
End fields.

#[export] Hint Resolve le_bytes_bytes bytes_put32 bytes_put16 : xv6.
#[export] Hint Rewrite le_bytes_length : xv6.
#[global] Arguments get16 : simpl never.
#[global] Arguments get32 : simpl never.
#[global] Arguments put16 : simpl never.
#[global] Arguments put32 : simpl never.
#[global] Arguments slice : simpl never.
#[global] Arguments splice : simpl never.
