(* ===== verification/Spinlock.v ===== *)
(** * Spin locks and interrupt masking (kernel/spinlock.c)

    The state is the set of CPUs, each with its interrupt flag, the depth
    of [pushcli] nesting and the saved flag, and the locks.  [cur] is the CPU
    that executes the code.  The call-stack snapshots kept for debugging
    ([pcs]) and the lock names are not part of the state. *)

From S2P Require Import Prelude.
From Stdlib Require Import FunctionalExtensionality.

Record spinlock := mkLock { lk_locked : Z; lk_cpu : option nat }.

Record cpu := mkCpu {
  c_if : bool;              (* FL_IF of %eflags *)
  c_ncli : Z;               (* depth of pushcli nesting *)
  c_intena : bool;          (* were interrupts enabled before pushcli? *)
  c_proc : option nat       (* the currently-running process *)
}.

Record smp := mkSmp {
  cur : nat;
  cpus : list cpu;
  locks : lockid → spinlock
}.

Definition free_lock : spinlock := mkLock 0 None.

Definition set_cpu (f : cpu → cpu) (s : smp) : smp :=
  mkSmp (cur s) (alter f (cur s) (cpus s)) (locks s).
Definition set_lock (l : lockid) (k : spinlock) (s : smp) : smp :=
  mkSmp (cur s) (cpus s) (<[l := k]> (locks s)).

Definition mycpu : M smp cpu := s ← get; need (cpus s !! cur s).

(** The instructions [cli], [sti] and [readeflags() & FL_IF]. *)
Definition cli : M smp unit :=
  modify (set_cpu (λ c, mkCpu false (c_ncli c) (c_intena c) (c_proc c))).
Definition sti : M smp unit :=
  modify (set_cpu (λ c, mkCpu true (c_ncli c) (c_intena c) (c_proc c))).
Definition read_if : M smp bool := c ← mycpu; ret (c_if c).

Definition initlock (l : lockid) : M smp unit := modify (set_lock l free_lock).

Definition holding (l : lockid) : M smp bool :=
  s ← get;
  ret (negb (lk_locked (locks s l) =? 0) && bool_decide (lk_cpu (locks s l) = Some (cur s))).

Definition pushcli : M smp unit :=
  eflags ← read_if;
  cli ;;;
  c ← mycpu;
  modify (set_cpu (λ c, mkCpu (c_if c) (c_ncli c + 1) (c_intena c) (c_proc c))) ;;;
  whenM (c_ncli c =? 0)
    (modify (set_cpu (λ c, mkCpu (c_if c) (c_ncli c) eflags (c_proc c)))).

Definition popcli : M smp unit :=
  i ← read_if;
  if (i : bool) then panic "popcli - interruptible" else
  modify (set_cpu (λ c, mkCpu (c_if c) (c_ncli c - 1) (c_intena c) (c_proc c))) ;;;
  c ← mycpu;
  if c_ncli c <? 0 then panic "popcli" else
  whenM ((c_ncli c =? 0) && c_intena c) sti.

(** [xchg(&lk->locked, v)] returns the old value. *)
Definition xchg (l : lockid) (v : Z) : M smp Z :=
  s ← get;
  modify (set_lock l (mkLock v (lk_cpu (locks s l)))) ;;;
  ret (lk_locked (locks s l)).

(** [while(xchg(&lk->locked, 1) != 0);] ends at once when the lock is free
    and otherwise spins until its holder, on another CPU, releases it. *)
Definition acquire (l : lockid) : M smp unit :=
  pushcli ;;;
  h ← holding l;
  if (h : bool) then panic "acquire" else
  old ← xchg l 1;
  if negb (old =? 0) then halt (Spin l) else
  s ← get;
  modify (set_lock l (mkLock (lk_locked (locks s l)) (Some (cur s)))).

Definition release (l : lockid) : M smp unit :=
  h ← holding l;
  if negb h then panic "release" else
  s ← get;
  modify (set_lock l (mkLock (lk_locked (locks s l)) None)) ;;;
  _ ← xchg l 0; popcli.

(** ** Balanced critical sections *)

(** The discipline [pushcli]/[popcli] maintain for a CPU. *)
Definition cpu_bal (c : cpu) : Prop :=
  0 ≤ c_ncli c ∧ (c_ncli c = 0 → c_intena c = c_if c) ∧ (0 < c_ncli c → c_if c = false).

Definition bal (s : smp) : Prop := ∃ c, cpus s !! cur s = Some c ∧ cpu_bal c.

Definition held (s : smp) (l : lockid) : bool :=
  negb (lk_locked (locks s l) =? 0) && bool_decide (lk_cpu (locks s l) = Some (cur s)).

Definition enter_cpu (c : cpu) : cpu :=
  mkCpu false (c_ncli c + 1) (if c_ncli c =? 0 then c_if c else c_intena c) (c_proc c).

(** The state just after [acquire l]. *)
Definition locked (l : lockid) (s : smp) : smp :=
  mkSmp (cur s) (alter enter_cpu (cur s) (cpus s)) (<[l := mkLock 1 (Some (cur s))]> (locks s)).

Lemma pushcli_ok s c : cpus s !! cur s = Some c →
  pushcli s = Ok tt (set_cpu enter_cpu s).
Proof.
  intros Hc. unfold pushcli, read_if, mycpu, cli, set_cpu, enter_cpu. go. rewrite Hc. cbn.
  rewrite list_lookup_alter_eq, Hc. cbn.
  destruct (c_ncli c =? 0) eqn:E; cbn; do 2 f_equal; rewrite !list_alter_alter_eq;
    apply list_alter_ext; try done; intros c' Hc'; rewrite Hc in Hc'; simplify_eq;
    unfold compose; cbn; by rewrite E.
Qed.

Lemma acquire_ok l s : bal s → locks s l = free_lock → acquire l s = Ok tt (locked l s).
Proof.
  intros (c & Hc & _) Hl. unfold acquire. step (pushcli_ok s c Hc).
  unfold holding, xchg. go. cbn. rewrite !Hl. cbn.
  rewrite Hl. cbn. rewrite fn_insert_same. cbn.
  unfold locked, set_lock. cbn. by rewrite fn_insert_insert.
Qed.

Lemma popcli_ok s c : cpus s !! cur s = Some c → cpu_bal c →
  popcli (set_cpu enter_cpu s) = Ok tt s.
Proof.
  intros Hc (Hn & H0 & Hp). destruct s as [cu cs lk]; cbn in *.
  unfold popcli, read_if, mycpu, set_cpu. go. cbn.
  rewrite !(list_alter_insert _ _ _ _ Hc).
  assert (cu < length cs)%nat by eauto using lookup_lt_Some.
  rewrite list_lookup_insert_eq by done. cbn.
  erewrite list_alter_insert by (by apply list_lookup_insert_eq).
  rewrite list_insert_insert_eq, list_lookup_insert_eq by done. cbn.
  destruct (Z.ltb_spec (c_ncli c + 1 - 1) 0); [lia|].
  replace (c_ncli c + 1 - 1) with (c_ncli c) by lia.
  destruct c as [i n e p]; cbn in *.
  destruct (Z.eqb_spec n 0) as [E|E]; cbn.
  - destruct i; cbn.
    + unfold sti, set_cpu, modify. cbn.
      erewrite list_alter_insert by (by apply list_lookup_insert_eq). cbn.
      rewrite list_insert_insert_eq, list_insert_id; [done|]. by rewrite Hc, (H0 E).
    + rewrite list_insert_id; [done|]. by rewrite Hc, (H0 E).
  - rewrite list_insert_id; [done|]. rewrite Hc, Hp by lia. done.
Qed.

Lemma release_ok l s : bal s → locks s l = free_lock → release l (locked l s) = Ok tt s.
Proof.
  intros (c & Hc & Hb) Hl. unfold release, holding. go. cbn.
  rewrite fn_insert_same. cbn. rewrite bool_decide_true by done. cbn.
  unfold xchg. go. cbn. rewrite !fn_insert_same. cbn. unfold set_lock. cbn.
  rewrite !fn_insert_insert, (fn_insert_id _ _ _ Hl).
  exact (popcli_ok s c Hc Hb).
Qed.

(** Acquiring a free lock and releasing it leaves the locks, the interrupt
    flag and the nesting depth of every CPU as they were. *)
Theorem lock_round_trip l s : bal s → locks s l = free_lock →
  (acquire l ;;; release l) s = Ok tt s.
Proof. intros Hb Hl. step (acquire_ok l s Hb Hl). by apply release_ok. Qed.

Lemma lock_round_trip_witness :
  let s := mkSmp 0 [mkCpu true 0 true None] (λ _, free_lock) in
  (acquire ("bcache", 0) ;;; release ("bcache", 0)) s = Ok tt s.
Proof.
  intros s. apply lock_round_trip; [|done].
  eexists. split; [done|]. unfold cpu_bal. cbn. split_and!; lia || done.
Defined.

(** Releasing the outer of two locks first, as [sleep] does. *)
Lemma release_outer l p s : l ≠ p → bal s → locks s l = free_lock →
  release l (locked p (locked l s)) = Ok tt (locked p s).
Proof.
  intros Hne (c & Hc & Hb) Hl.
  assert (cpus (locked p s) !! cur s = Some (enter_cpu c)) as Hc'.
  { cbn. by rewrite list_lookup_alter_eq, Hc. }
  assert (cpu_bal (enter_cpu c)) as Hb'.
  { destruct Hb as (? & _). unfold cpu_bal, enter_cpu; cbn. split_and!; [lia|lia|done]. }
  unfold release, holding. go. cbn.
  rewrite fn_lookup_insert_ne, fn_insert_same by done. cbn. rewrite bool_decide_true by done. cbn.
  unfold xchg. go. cbn. rewrite !fn_insert_same. cbn. unfold set_lock. cbn.
  rewrite !fn_insert_insert.
  rewrite <- (popcli_ok (locked p s) (enter_cpu c) Hc' Hb'). f_equal. unfold set_cpu, locked. cbn.
  f_equal. unfold free_lock in Hl. extensionality x. unfold insert, fn_insert.
  repeat case_decide; subst; congruence.
Qed.
