(* ===== verification/Sched.v ===== *)
(** * The process table, sleep and wakeup (kernel/proc.c, include/proc.h)

    [mach] adds the process table to the CPUs and locks.  A process slot is
    an index of [ptable.proc]; [None] is the null pointer.  The thread that
    executes is the process [c_proc] of the current CPU.  [sched] ends in
    [swtch], so a thread that calls [sleep] or [yield] stops with [Switch];
    [sleep_resume] and [yield_resume] are the rest of the call, run when the
    scheduler switches back. *)

From S2P Require Import Prelude Spinlock.

Definition NPROC : nat := 64.
Definition NOFILE : nat := 16.

Inductive procstate := UNUSED | EMBRYO | SLEEPING | RUNNABLE | RUNNING | ZOMBIE.

#[export] Instance procstate_eq_dec : EqDecision procstate.
Proof. solve_decision. Defined.

(** The saved user registers (X64 layout); [eax] is %rax, [eip] %rip, [esp] %rsp. *)
Record trapframe := mkTf {
  tf_eax : Z; tf_rbx : Z; tf_rcx : Z; tf_rdx : Z; tf_rbp : Z; tf_rsi : Z; tf_rdi : Z;
  tf_r8 : Z; tf_r9 : Z; tf_r10 : Z; tf_r11 : Z; tf_r12 : Z; tf_r13 : Z; tf_r14 : Z; tf_r15 : Z;
  tf_trapno : Z; tf_err : Z; tf_eip : Z; tf_cs : Z; tf_eflags : Z; tf_esp : Z; tf_ds : Z
}.

(** [p_kstack] and [p_pgdir] are addresses; the trap frame and the context
    live on the kernel stack in the code and are fields here. *)
Record proc := mkProc {
  p_sz : Z;
  p_pgdir : Z;
  p_kstack : Z;
  p_state : procstate;
  p_pid : Z;
  p_parent : option nat;
  p_tf : trapframe;
  p_chan : option chan;
  p_killed : bool;
  p_ofile : list (option nat);
  p_cwd : option nat;
  p_name : list Z
}.

Definition zero_tf : trapframe :=
  mkTf 0 0 0 0 0 0 0 0 0 0 0 0 0 0 0 0 0 0 0 0 0 0.
Definition zero_proc : proc :=
  mkProc 0 0 0 UNUSED 0 None zero_tf None false (replicate NOFILE None) None (replicate 16 0).

Definition with_state (x : procstate) (p : proc) : proc :=
  mkProc (p_sz p) (p_pgdir p) (p_kstack p) x (p_pid p) (p_parent p) (p_tf p) (p_chan p)
    (p_killed p) (p_ofile p) (p_cwd p) (p_name p).
Definition with_chan (x : option chan) (p : proc) : proc :=
  mkProc (p_sz p) (p_pgdir p) (p_kstack p) (p_state p) (p_pid p) (p_parent p) (p_tf p) x
    (p_killed p) (p_ofile p) (p_cwd p) (p_name p).
Definition with_killed (x : bool) (p : proc) : proc :=
  mkProc (p_sz p) (p_pgdir p) (p_kstack p) (p_state p) (p_pid p) (p_parent p) (p_tf p) (p_chan p)
    x (p_ofile p) (p_cwd p) (p_name p).
Definition with_parent (x : option nat) (p : proc) : proc :=
  mkProc (p_sz p) (p_pgdir p) (p_kstack p) (p_state p) (p_pid p) x (p_tf p) (p_chan p)
    (p_killed p) (p_ofile p) (p_cwd p) (p_name p).
Definition with_pid (x : Z) (p : proc) : proc :=
  mkProc (p_sz p) (p_pgdir p) (p_kstack p) (p_state p) x (p_parent p) (p_tf p) (p_chan p)
    (p_killed p) (p_ofile p) (p_cwd p) (p_name p).
Definition with_kstack (x : Z) (p : proc) : proc :=
  mkProc (p_sz p) (p_pgdir p) x (p_state p) (p_pid p) (p_parent p) (p_tf p) (p_chan p)
    (p_killed p) (p_ofile p) (p_cwd p) (p_name p).
Definition with_pgdir (x : Z) (p : proc) : proc :=
  mkProc (p_sz p) x (p_kstack p) (p_state p) (p_pid p) (p_parent p) (p_tf p) (p_chan p)
    (p_killed p) (p_ofile p) (p_cwd p) (p_name p).
Definition with_sz (x : Z) (p : proc) : proc :=
  mkProc x (p_pgdir p) (p_kstack p) (p_state p) (p_pid p) (p_parent p) (p_tf p) (p_chan p)
    (p_killed p) (p_ofile p) (p_cwd p) (p_name p).
Definition with_tf (x : trapframe) (p : proc) : proc :=
  mkProc (p_sz p) (p_pgdir p) (p_kstack p) (p_state p) (p_pid p) (p_parent p) x (p_chan p)
    (p_killed p) (p_ofile p) (p_cwd p) (p_name p).
Definition with_ofile (x : list (option nat)) (p : proc) : proc :=
  mkProc (p_sz p) (p_pgdir p) (p_kstack p) (p_state p) (p_pid p) (p_parent p) (p_tf p) (p_chan p)
    (p_killed p) x (p_cwd p) (p_name p).
Definition with_cwd (x : option nat) (p : proc) : proc :=
  mkProc (p_sz p) (p_pgdir p) (p_kstack p) (p_state p) (p_pid p) (p_parent p) (p_tf p) (p_chan p)
    (p_killed p) (p_ofile p) x (p_name p).
Definition with_name (x : list Z) (p : proc) : proc :=
  mkProc (p_sz p) (p_pgdir p) (p_kstack p) (p_state p) (p_pid p) (p_parent p) (p_tf p) (p_chan p)
    (p_killed p) (p_ofile p) (p_cwd p) x.

Record mach := mkMach {
  m_smp : smp;
  ptable : list proc;
  nextpid : Z;
  initproc : option nat
}.

Definition set_smp (x : smp) (m : mach) : mach := mkMach x (ptable m) (nextpid m) (initproc m).
Definition set_ptable (x : list proc) (m : mach) : mach :=
  mkMach (m_smp m) x (nextpid m) (initproc m).

Abbreviation smpM := (lift m_smp set_smp).

Definition L_ptable : lockid := ("ptable", 0).

Definition myproc : M mach (option nat) := c ← smpM mycpu; ret (c_proc c).
Definition curproc : M mach nat := o ← myproc; need o.
Definition getproc (i : nat) : M mach proc := m ← get; need (ptable m !! i).
Definition setproc (i : nat) (f : proc → proc) : M mach unit :=
  m ← get; put (set_ptable (alter f i (ptable m)) m).

Definition pinit : M mach unit := smpM (initlock L_ptable).

(** [wakeup1]: every process sleeping on [c] becomes runnable. *)
Definition wake (c : chan) (p : proc) : proc :=
  if bool_decide (p_state p = SLEEPING) && bool_decide (p_chan p = Some c)
  then with_state RUNNABLE p else p.

Definition wakeup1 (c : chan) : M mach unit :=
  for_all (seq 0 NPROC) (λ i, p ← getproc i; setproc i (λ _, wake c p)).

Definition wakeup (c : chan) : M mach unit :=
  smpM (acquire L_ptable) ;;; wakeup1 c ;;; smpM (release L_ptable).

(** Up to [swtch]; the saved [intena] is returned to [sched_resume]. *)
Definition sched : M mach unit :=
  h ← smpM (holding L_ptable);
  if negb h then panic "sched ptable.lock" else
  c ← smpM mycpu;
  if negb (c_ncli c =? 1) then panic "sched locks" else
  i ← curproc;
  p ← getproc i;
  if bool_decide (p_state p = RUNNING) then panic "sched running" else
  if c_if c then panic "sched interruptible" else
  halt Switch.

Definition sched_resume (intena : bool) : M mach unit :=
  smpM (modify (set_cpu (λ c, mkCpu (c_if c) (c_ncli c) intena (c_proc c)))).

Definition yield : M mach unit :=
  smpM (acquire L_ptable) ;;;
  i ← curproc;
  setproc i (with_state RUNNABLE) ;;;
  sched.

Definition yield_resume (intena : bool) : M mach unit :=
  sched_resume intena ;;; smpM (release L_ptable).

Definition sleep (c : chan) (lk : lockid) : M mach unit :=
  o ← myproc;
  match o with
  | None => panic "sleep"
  | Some i =>
      (if decide (lk = L_ptable) then ret tt
       else smpM (acquire L_ptable) ;;; smpM (release lk)) ;;;
      setproc i (with_chan (Some c)) ;;;
      setproc i (with_state SLEEPING) ;;;
      sched
  end.

Definition sleep_resume (intena : bool) (lk : lockid) : M mach unit :=
  sched_resume intena ;;;
  i ← curproc;
  setproc i (with_chan None) ;;;
  if decide (lk = L_ptable) then ret tt
  else smpM (release L_ptable) ;;; smpM (acquire lk).

(** [kill] marks the first process with that pid. *)
Definition kill_body (pid : Z) (i : nat) : M mach (option Z) :=
  p ← getproc i;
  if p_pid p =? pid then
    setproc i (with_killed true) ;;;
    whenM (bool_decide (p_state p = SLEEPING)) (setproc i (with_state RUNNABLE)) ;;;
    smpM (release L_ptable) ;;;
    ret (Some 0)
  else ret None.

Definition kill (pid : Z) : M mach Z :=
  smpM (acquire L_ptable) ;;;
  r ← for_each (seq 0 NPROC) (kill_body pid);
  match r with
  | Some v => ret v
  | None => smpM (release L_ptable) ;;; ret (-1)
  end.

(** ** Exact behaviour of the table operations *)

Lemma set_ptable_ptable m l l' : set_ptable l (set_ptable l' m) = set_ptable l m.
Proof. done. Qed.

Lemma table_loop (f : proc → proc) n a m :
  (a + n)%nat = length (ptable m) →
  for_all (seq a n) (λ i, p ← getproc i; setproc i (λ _, f p)) m =
  Ok tt (set_ptable (take a (ptable m) ++ (f <$> drop a (ptable m))) m).
Proof.
  revert a m. induction n as [|n IH]; intros a m Hl; cbn [seq for_all].
  - rewrite drop_ge by lia. rewrite app_nil_r, take_ge by lia. by destruct m.
  - destruct (lookup_lt_is_Some_2 (ptable m) a) as [p Hp]; [lia|].
    assert ((p0 ← getproc a; setproc a (λ _, f p0)) m =
            Ok tt (set_ptable (<[a := f p]> (ptable m)) m)) as Hb.
    { unfold getproc, setproc. go. rewrite Hp. by rewrite (list_alter_insert _ _ _ _ Hp). }
    step Hb. rewrite IH by (cbn; rewrite length_insert; lia).
    rewrite set_ptable_ptable. do 2 f_equal. cbn [ptable set_ptable].
    rewrite (take_S_r _ _ (f p)) by (rewrite list_lookup_insert_eq; [done|lia]).
    rewrite take_insert_ge, drop_insert_lt by lia.
    rewrite (drop_S _ p a) by done. rewrite <- app_assoc. done.
Qed.

(** A machine in which the executing thread can enter a critical section. *)
Definition mok (m : mach) : Prop := bal (m_smp m) ∧ length (ptable m) = NPROC.
Definition lfree (l : lockid) (m : mach) : Prop := locks (m_smp m) l = free_lock.
Definition mlocked (l : lockid) (m : mach) : mach := set_smp (locked l (m_smp m)) m.

Lemma lock_ok l m : mok m → lfree l m → smpM (acquire l) m = Ok tt (mlocked l m).
Proof. intros [Hb _] Hf. unfold mlocked. apply lift_ok. by apply acquire_ok. Qed.

(** Any change of the process table made under a lock stays. *)
Lemma unlock_ok l m pt : mok m → lfree l m →
  smpM (release l) (set_ptable pt (mlocked l m)) = Ok tt (set_ptable pt m).
Proof.
  intros [Hb _] Hf. erewrite lift_ok; [|by apply release_ok]. by destruct m.
Qed.

Lemma unlock_ok' l m : mok m → lfree l m → smpM (release l) (mlocked l m) = Ok tt m.
Proof. intros. pose proof (unlock_ok l m (ptable m)) as H1. by destruct m; apply H1. Qed.

Lemma bal_locked l s : bal s → bal (locked l s).
Proof.
  intros (c & Hc & Hn & _ & _). exists (enter_cpu c). split.
  - cbn. rewrite list_lookup_alter_eq, Hc. done.
  - unfold cpu_bal, enter_cpu; cbn. split_and!; [lia| lia | done].
Qed.

Lemma mok_mlocked l m : mok m → mok (mlocked l m).
Proof. intros [Hb Hl]. split; [by apply bal_locked | done]. Qed.

Lemma lfree_mlocked l l' m : l ≠ l' → lfree l' m → lfree l' (mlocked l m).
Proof. unfold lfree, mlocked. cbn. intros. by rewrite fn_lookup_insert_ne. Qed.

Lemma wakeup_ok c m : mok m → lfree L_ptable m →
  wakeup c m = Ok tt (set_ptable (wake c <$> ptable m) m).
Proof.
  intros Hm Hf. unfold wakeup. step (lock_ok _ _ Hm Hf). unfold wakeup1.
  assert (0 + NPROC = length (ptable (mlocked L_ptable m)))%nat as Hl by (symmetry; apply Hm).
  step (table_loop (wake c) NPROC 0 _ Hl). by apply (unlock_ok L_ptable m).
Qed.

Lemma mok_set_ptable m f : mok m → mok (set_ptable (f <$> ptable m) m).
Proof. intros [Hb Hl]. split; [done|]. cbn. by rewrite length_fmap. Qed.

(** Two machines whose locks agree; only sleeping processes may differ. *)
Definition msim (m m' : mach) : Prop :=
  m_smp m = m_smp m' ∧ length (ptable m) = length (ptable m').

#[export] Instance msim_equiv : Equivalence msim.
Proof.
  split; unfold msim; [done|intros ?? []; by split|].
  intros ??? [] []; split; congruence.
Qed.

#[export] Instance mok_proper : Proper (msim ==> iff) mok.
Proof. intros m m' [H1 H2]. unfold mok. by rewrite H1, H2. Qed.
#[export] Instance lfree_proper l : Proper (msim ==> iff) (lfree l).
Proof. intros m m' [H1 H2]. unfold lfree. by rewrite H1. Qed.

Lemma msim_wake c m : msim m (set_ptable (wake c <$> ptable m) m).
Proof. split; [done|]. cbn. by rewrite length_fmap. Qed.

#[export] Hint Resolve msim_wake mok_set_ptable mok_mlocked : xv6.

(** ** Sleeping *)

(** The executing thread is process [i], and holds no lock. *)
Definition running (m : mach) (i : nat) (p : proc) : Prop :=
  mok m ∧ ptable m !! i = Some p ∧
  ∃ c, cpus (m_smp m) !! cur (m_smp m) = Some c ∧ c_proc c = Some i ∧ c_ncli c = 0.

Lemma myproc_ok m i p : running m i p → myproc m = Ok (Some i) m.
Proof.
  intros (_ & _ & c & Hc & Hp & _). unfold myproc, mycpu. go. unfold lift. cbn. rewrite Hc, Hp.
  by destruct m.
Qed.

Lemma myproc_locked l m i p : running m i p → myproc (mlocked l m) = Ok (Some i) (mlocked l m).
Proof.
  intros (_ & _ & c & Hc & Hp & _). unfold myproc, mycpu. go. unfold lift. cbn.
  rewrite list_lookup_alter_eq, Hc. cbn. rewrite Hp. by destruct m.
Qed.

Definition put_to_sleep (c : chan) (i : nat) (p : proc) (m : mach) : mach :=
  set_ptable (<[i := with_state SLEEPING (with_chan (Some c) p)]> (ptable m)) m.

Lemma holding_locked l m : smpM (holding l) (mlocked l m) = Ok true (mlocked l m).
Proof.
  unfold holding, lift. go. cbn. rewrite fn_insert_same. cbn. by rewrite bool_decide_true.
Qed.

Lemma mycpu_locked l m c : cpus (m_smp m) !! cur (m_smp m) = Some c →
  smpM mycpu (mlocked l m) = Ok (enter_cpu c) (mlocked l m).
Proof. intros Hc. unfold mycpu, lift. go. cbn. by rewrite list_lookup_alter_eq, Hc. Qed.

Lemma sched_ok m i p : running m i p → p_state p ≠ RUNNING →
  sched (mlocked L_ptable m) = Stop Switch (mlocked L_ptable m).
Proof.
  intros Hrun Hs. pose proof Hrun as (_ & Hp & c & Hc & Hcp & Hn).
  unfold sched. step (holding_locked L_ptable m). cbn [negb]. step (mycpu_locked L_ptable m c Hc).
  cbn [enter_cpu c_ncli c_if]. rewrite Hn. change (0 + 1 =? 1) with true. cbn [negb].
  unfold curproc. erewrite bind_ok.
  2:{ erewrite bind_ok; [|by eapply myproc_locked]. done. }
  erewrite bind_ok; [|by unfold getproc; go; cbn; rewrite Hp].
  by rewrite bool_decide_false.
Qed.

(** [sleep] gives up [lk] only after it holds [ptable.lock], and hands the
    CPU over with the process marked asleep on the channel: a [wakeup] by a
    thread that takes [lk] later finds it. *)
Lemma sleep_ok m i p c lk : running m i p → lfree lk m → lfree L_ptable m → lk ≠ L_ptable →
  sleep c lk (mlocked lk m) = Stop Switch (put_to_sleep c i p (mlocked L_ptable m)).
Proof.
  intros Hrun Hlk Hpt Hne. pose proof Hrun as (Hm & Hp & cp & Hc & Hcp & Hn).
  unfold sleep. step (myproc_locked lk m i p Hrun). rewrite decide_False by done.
  erewrite bind_ok.
  2:{ erewrite bind_ok; [|apply lock_ok; [by apply mok_mlocked|by apply lfree_mlocked]].
      apply lift_ok. cbn. apply release_outer; [done|apply Hm|done]. }
  erewrite bind_ok; [|reflexivity]. erewrite bind_ok; [|reflexivity].
  cbn [set_ptable ptable set_smp mlocked].
  rewrite (list_alter_insert _ _ _ _ Hp).
  erewrite list_alter_insert by (apply list_lookup_insert_eq; eauto using lookup_lt_Some).
  rewrite list_insert_insert_eq.
  pose proof (sched_ok (put_to_sleep c i p m) i (with_state SLEEPING (with_chan (Some c) p))) as E.
  unfold put_to_sleep, mlocked, set_smp, set_ptable in *. cbn in *. apply E; [|done].
  split_and!; [|by cbn; apply list_lookup_insert_eq; eauto using lookup_lt_Some|by exists cp].
  destruct Hm. split; [done|]. cbn. by rewrite length_insert.
Qed.

(** When the scheduler runs the process again, [sleep] returns with [lk]
    held and no channel. *)
Lemma sleep_resume_ok m i p e lk : running m i p → lfree lk m → lfree L_ptable m → lk ≠ L_ptable →
  (∀ c, cpus (m_smp m) !! cur (m_smp m) = Some c → c_if c = e) →
  sleep_resume e lk (mlocked L_ptable m) =
  Ok tt (mlocked lk (set_ptable (<[i := with_chan None p]> (ptable m)) m)).
Proof.
  intros Hrun Hlk Hpt Hne He. pose proof Hrun as (Hm & Hp & cp & Hc & Hcp & Hn).
  assert (mlocked L_ptable m = set_smp (set_cpu (λ c, mkCpu (c_if c) (c_ncli c) e (c_proc c))
    (m_smp (mlocked L_ptable m))) (mlocked L_ptable m)) as Esame.
  { unfold mlocked, set_smp. cbn. f_equal. unfold set_cpu, locked. cbn. f_equal.
    rewrite list_alter_alter_eq. apply list_alter_ext; [|done].
    intros c Hc'. rewrite Hc in Hc'. injection Hc' as <-. unfold compose, enter_cpu. cbn.
    rewrite Hn. cbn. by rewrite (He cp Hc). }
  unfold sleep_resume, sched_resume. erewrite bind_ok; [|by apply lift_ok].
  rewrite <- Esame. unfold curproc. erewrite bind_ok.
  2:{ erewrite bind_ok; [|by eapply myproc_locked]. done. }
  erewrite bind_ok; [|reflexivity]. rewrite decide_False by done.
  cbn [ptable mlocked set_smp]. rewrite (list_alter_insert _ _ _ _ Hp).
  erewrite bind_ok; [|by apply unlock_ok].
  apply lock_ok; [|done]. destruct Hm. split; [done|]. cbn. by rewrite length_insert.
Qed.

(** ** kill *)

Definition kill_proc (p : proc) : proc :=
  let p := with_killed true p in
  if bool_decide (p_state p = SLEEPING) then with_state RUNNABLE p else p.

(** The table and result of [kill]: the first process with the pid. *)
Fixpoint kill_table (pid : Z) (l : list proc) : option (list proc) :=
  match l with
  | [] => None
  | p :: l' => if p_pid p =? pid then Some (kill_proc p :: l')
               else match kill_table pid l' with Some t => Some (p :: t) | None => None end
  end.

Lemma kill_loop pid m k n pt : mok m → lfree L_ptable m → (k + n)%nat = length pt →
  for_each (seq k n) (kill_body pid) (set_ptable pt (mlocked L_ptable m)) =
  match kill_table pid (drop k pt) with
  | Some t => Ok (Some 0) (set_ptable (take k pt ++ t) m)
  | None => Ok None (set_ptable pt (mlocked L_ptable m))
  end.
Proof.
  intros Hm Hf. revert k. induction n as [|n IH]; intros k Hk; cbn [seq for_each].
  - by rewrite drop_ge by lia.
  - destruct (lookup_lt_is_Some_2 pt k) as [p Hp]; [lia|].
    rewrite (drop_S _ p k Hp). cbn [kill_table].
    set (st := set_ptable pt (mlocked L_ptable m)).
    assert (getproc k st = Ok p st) as Eg by (unfold getproc; go; cbn; by rewrite Hp).
    destruct (p_pid p =? pid) eqn:Ep.
    + assert (kill_body pid k st = Ok (Some 0) (set_ptable (<[k := kill_proc p]> pt) m)) as E.
      { unfold kill_body. step Eg. rewrite Ep. unfold setproc. go.
        cbn [ptable set_ptable st]. rewrite (list_alter_insert _ _ _ _ Hp).
        unfold kill_proc. cbn [p_state with_killed]. case_bool_decide.
        - cbn [ptable set_ptable st].
          erewrite list_alter_insert by (apply list_lookup_insert_eq; lia).
          rewrite list_insert_insert_eq. pose proof (unlock_ok L_ptable m
            (<[k:=with_state RUNNABLE (with_killed true p)]> pt) Hm Hf) as U.
          unfold set_ptable in *. cbn in *. by rewrite U.
        - pose proof (unlock_ok L_ptable m (<[k:=with_killed true p]> pt) Hm Hf) as U.
          unfold set_ptable in *. cbn in *. by rewrite U. }
      step E. rewrite insert_take_drop by lia. done.
    + assert (kill_body pid k st = Ok None st) as E by (unfold kill_body; step Eg; by rewrite Ep).
      step E. rewrite IH by lia. destruct (kill_table pid (drop (S k) pt)) eqn:Et; [|done].
      rewrite (take_S_r _ _ p Hp), <- app_assoc. done.
Qed.

Lemma kill_ok pid m : mok m → lfree L_ptable m →
  kill pid m = match kill_table pid (ptable m) with
               | Some t => Ok 0 (set_ptable t m)
               | None => Ok (-1) m
               end.
Proof.
  intros Hm Hf. unfold kill. step (lock_ok _ _ Hm Hf).
  assert (0 + NPROC = length (ptable m))%nat as Hl by (symmetry; apply Hm).
  pose proof (kill_loop pid m 0 NPROC (ptable m) Hm Hf Hl) as E.
  change (set_ptable (ptable m) (mlocked L_ptable m)) with (mlocked L_ptable m) in E.
  rewrite drop_0 in E. destruct (kill_table pid (ptable m)) as [t|].
  - by step E.
  - step E. by step (unlock_ok' L_ptable m Hm Hf).
Qed.
