(* ===== verification/Dll.v ===== *)
(** * Circular doubly linked lists

    The buffer cache threads its buffers on a circular list through [prev]
    and [next] pointers with a distinguished head.  [links nx pv x l] says
    that following [nx] from [x] visits [l] and that each element's [pv]
    points back; the whole ring is [links nx pv h (l ++ [h])].  [unlink] and
    [push_front] are the two pointer updates the code makes. *)

From S2P Require Import Prelude.

Section dll.
Implicit Types (nx pv : nat → nat) (l : list nat).

Fixpoint links nx pv (x : nat) l : Prop :=
  match l with
  | [] => True
  | y :: l' => nx x = y ∧ pv y = x ∧ links nx pv y l'
  end.

Definition ring nx pv (h : nat) l : Prop :=
  NoDup (h :: l) ∧ links nx pv h (l ++ [h]).

Definition lastof (x : nat) l : nat := default x (last l).

Lemma lastof_cons x y l : lastof x (y :: l) = lastof y l.
Proof. unfold lastof. rewrite last_cons. by destruct (last l). Qed.

Lemma lastof_app x l1 y l2 : lastof x (l1 ++ y :: l2) = lastof y l2.
Proof.
  revert x. induction l1 as [|z l1 IH]; intros x; cbn [app]; rewrite lastof_cons; auto.
Qed.

Lemma lastof_in x l : lastof x l = x ∨ lastof x l ∈ l.
Proof.
  unfold lastof. destruct (last l) eqn:E; [|by left]. right. by apply last_Some_elem_of.
Qed.

Lemma links_app nx pv x l1 l2 :
  links nx pv x (l1 ++ l2) ↔ links nx pv x l1 ∧ links nx pv (lastof x l1) l2.
Proof.
  revert x. induction l1 as [|y l1 IH]; intros x.
  - cbn. tauto.
  - cbn [app links]. rewrite IH, lastof_cons. tauto.
Qed.

Lemma links_pv nx pv x l k v : k ∉ l → links nx pv x l → links nx (<[k:=v]> pv) x l.
Proof.
  revert x. induction l as [|y l IH]; intros x Hk; [done|]. cbn [links].
  rewrite not_elem_of_cons in Hk. intros (? & ? & ?). split_and!; [done| |].
  - rewrite fn_lookup_insert_ne; [done|naive_solver].
  - apply IH; naive_solver.
Qed.

(** The last element's [next] does not matter. *)
Lemma links_nx nx pv x l k v :
  (∀ y l' z, x :: l = l' ++ y :: z → z ≠ [] → y ≠ k) →
  links nx pv x l → links (<[k:=v]> nx) pv x l.
Proof.
  revert x. induction l as [|y l IH]; intros x Hk; [done|]. cbn [links].
  intros (? & ? & ?). split_and!; [|done|].
  - rewrite fn_lookup_insert_ne; [done|]. intros ->. by apply (Hk x [] (y :: l)).
  - apply IH; [|done]. intros z l' r Heq. apply (Hk z (x :: l') r). cbn. by rewrite Heq.
Qed.

Lemma links_nx_notin nx pv x l k v :
  k ∉ x :: l → links nx pv x l → links (<[k:=v]> nx) pv x l.
Proof.
  intros Hk. apply links_nx. intros y l' z Heq _ ->. apply Hk. rewrite Heq. set_solver.
Qed.

Lemma links_nx_last nx pv x l v :
  NoDup (x :: l) → links nx pv x l → links (<[lastof x l:=v]> nx) pv x l.
Proof.
  intros Hnd. apply links_nx. intros y l' z Heq Hz ->.
  destruct (exists_last Hz) as (z' & w & ->).
  assert (lastof x l = w) as Hw.
  { rewrite <- (lastof_cons x x l), Heq, lastof_app. apply lastof_app. }
  rewrite Heq, Hw in Hnd. apply NoDup_app in Hnd as (_ & _ & Hnd).
  rewrite NoDup_cons in Hnd. set_solver.
Qed.

Lemma links_nx_snoc nx pv x l z k v :
  k ∉ x :: l → links nx pv x (l ++ [z]) → links (<[k:=v]> nx) pv x (l ++ [z]).
Proof.
  intros Hk. apply links_nx. intros y l' r Heq Hr ->. apply Hk.
  destruct (exists_last Hr) as (r' & w & ->).
  replace (l' ++ k :: r' ++ [w]) with ((l' ++ k :: r') ++ [w]) in Heq
    by (by rewrite <- app_assoc).
  change (x :: l ++ [z]) with ((x :: l) ++ [z]) in Heq.
  apply app_inj_tail in Heq as [Heq _]. rewrite Heq. set_solver.
Qed.

Lemma links_nx_in nx pv x l z y : y ∈ x :: l → links nx pv x (l ++ [z]) → nx y ∈ l ++ [z].
Proof.
  revert x. induction l as [|w l IH]; intros x Hy; cbn [app links].
  - intros (<- & _). apply list_elem_of_singleton in Hy. subst. by left.
  - intros (<- & _ & Hl). apply elem_of_cons in Hy as [->|Hy]; [by left|].
    right. by eapply IH.
Qed.

Lemma links_pv_in nx pv x l y : y ∈ l → links nx pv x l → pv y ∈ x :: l.
Proof.
  revert x. induction l as [|w l IH]; intros x Hy; cbn [links].
  - by apply not_elem_of_nil in Hy.
  - intros (_ & Hp & Hl). apply elem_of_cons in Hy as [->|Hy]; [rewrite Hp; by left|].
    right. by apply IH.
Qed.

Lemma ring_in nx pv h l y : ring nx pv h l → y ∈ h :: l → nx y ∈ h :: l ∧ pv y ∈ h :: l.
Proof.
  intros [_ Hl] Hy. split.
  - pose proof (links_nx_in _ _ _ _ _ _ Hy Hl) as Hi.
    rewrite elem_of_app, list_elem_of_singleton in Hi. rewrite elem_of_cons. tauto.
  - assert (y ∈ l ++ [h]) as Hy'
      by (rewrite elem_of_app, list_elem_of_singleton; rewrite elem_of_cons in Hy; tauto).
    pose proof (links_pv_in _ _ _ _ _ Hy' Hl) as Hi.
    rewrite elem_of_cons, elem_of_app, list_elem_of_singleton in Hi.
    rewrite elem_of_cons. tauto.
Qed.

(** [b->next->prev = b->prev; b->prev->next = b->next]. *)
Definition unlink nx pv (b : nat) : (nat → nat) * (nat → nat) :=
  let pv1 := <[nx b := pv b]> pv in
  (<[pv1 b := nx b]> nx, pv1).

(** [b->next = h->next; b->prev = h; h->next->prev = b; h->next = b]. *)
Definition push_front nx pv (h b : nat) : (nat → nat) * (nat → nat) :=
  let nx1 := <[b := nx h]> nx in
  let pv1 := <[b := h]> pv in
  (<[h := b]> nx1, <[nx1 h := b]> pv1).

Lemma ring_split_nodup h l1 b l2 : NoDup (h :: l1 ++ b :: l2) →
  (h ∉ l1) ∧ h ≠ b ∧ (h ∉ l2) ∧ NoDup l1 ∧ NoDup l2 ∧ (b ∉ l1) ∧ (b ∉ l2) ∧
  (∀ x, x ∈ l1 → x ∉ l2).
Proof.
  rewrite NoDup_cons, NoDup_app, NoDup_cons.
  intros (Hh & H1 & Hd & Hb & H2).
  rewrite elem_of_app, elem_of_cons in Hh.
  split_and!; try done; try (intros ?; apply Hh; tauto).
  - intros Hb1. apply (Hd b Hb1). rewrite elem_of_cons. tauto.
  - intros x Hx Hx2. apply (Hd x Hx). rewrite elem_of_cons. tauto.
Qed.

Lemma unlink_ring nx pv h l1 b l2 :
  ring nx pv h (l1 ++ b :: l2) →
  let '(nx', pv') := unlink nx pv b in
  ring nx' pv' h (l1 ++ l2).
Proof.
  intros [Hnd Hl]. unfold unlink, ring.
  destruct (ring_split_nodup _ _ _ _ Hnd) as (Hh1 & Hhb & Hh2 & N1 & N2 & Hb1 & Hb2 & Hd).
  clear Hnd. rewrite <- app_assoc in Hl. apply links_app in Hl as [H1 H2].
  cbn [app links] in H2. destruct H2 as (Hnp & Hpb & H2).
  set (p := lastof h l1) in *.
  assert (p ∉ b :: l2) as Hp.
  { rewrite elem_of_cons. destruct (lastof_in h l1) as [Hp|Hp]; fold p in Hp.
    - rewrite Hp. tauto.
    - intros [->|?]; [done|]. by apply (Hd p). }
  assert (NoDup (h :: l1)) as Hnd1 by (by apply NoDup_cons).
  split; [|revert H2; destruct l2 as [|n l2]].
  - apply NoDup_cons. rewrite elem_of_app, NoDup_app. tauto.
  - cbn [app links]. intros (Hnb & Hph & _). rewrite Hnb, Hpb.
    rewrite fn_lookup_insert_ne, Hpb by done. apply links_app. split.
    { rewrite app_nil_r. apply links_pv; [done|]. by apply links_nx_last. }
    rewrite app_nil_r. fold p. cbn [links]. by rewrite !fn_lookup_insert.
  - rewrite <- app_assoc. cbn [app links]. intros (Hnb & Hpn & H2). rewrite Hnb, Hpb.
    rewrite fn_lookup_insert_ne, Hpb by set_solver. apply links_app. split.
    { apply links_pv; [set_solver|]. by apply links_nx_last. }
    fold p. cbn [links]. rewrite !fn_lookup_insert. split_and!; [done..|].
    apply NoDup_cons in N2 as [Hn2 _].
    apply links_pv; [set_solver|]. apply links_nx_snoc; [set_solver|done].
Qed.

Lemma push_ring nx pv h b l :
  b ∉ h :: l → ring nx pv h l →
  let '(nx', pv') := push_front nx pv h b in
  ring nx' pv' h (b :: l).
Proof.
  intros Hb [Hnd Hl]. rewrite not_elem_of_cons in Hb. destruct Hb as [Hbh Hbl].
  unfold push_front, ring. rewrite (fn_lookup_insert_ne nx b h) by done.
  destruct (l ++ [h]) as [|n r] eqn:Er; [by destruct l|].
  cbn [links] in Hl. destruct Hl as (Hn & Hpn & Hr). rewrite Hn.
  assert (n ≠ b ∧ n ∉ r) as [Hnb Hnr].
  { rewrite NoDup_cons in Hnd. destruct l as [|? l]; cbn in Er; simplify_eq; [set_solver|].
    rewrite NoDup_cons in Hnd. set_solver. }
  split.
  { rewrite !NoDup_cons. rewrite NoDup_cons in Hnd. set_solver. }
  cbn [app links]. rewrite Er. cbn [links].
  rewrite fn_lookup_insert. rewrite (fn_lookup_insert_ne _ n b) by done.
  rewrite fn_lookup_insert. rewrite (fn_lookup_insert_ne _ h b) by done.
  rewrite !fn_lookup_insert. split_and!; [done..|].
  apply links_pv; [done|]. apply links_pv.
  { destruct l; cbn in Er; simplify_eq; set_solver. }
  destruct l as [|n' l]; cbn in Er; simplify_eq; [done|].
  rewrite NoDup_cons in Hnd.
  apply links_nx_snoc; [set_solver|]. apply links_nx_notin; [set_solver|done].
Qed.

(** Following [next] from the head visits the list, [prev] its reverse. *)
Fixpoint chain (nxt : nat → nat) (h : nat) (x : nat) l : Prop :=
  match l with
  | [] => x = h
  | y :: l' => x = y ∧ y ≠ h ∧ chain nxt h (nxt y) l'
  end.

Lemma links_chain nx pv h x l :
  h ∉ l → links nx pv x (l ++ [h]) → chain nx h (nx x) l.
Proof.
  revert x. induction l as [|y l IH]; intros x Hh; cbn.
  - by intros (-> & _).
  - intros (Hx & _ & Hl). split_and!; [done|set_solver|]. apply IH; [set_solver|done].
Qed.

Lemma links_chain_rev nx pv h x l tl :
  h ∉ l → links nx pv x l → chain pv h x tl →
  chain pv h (lastof x l) (reverse l ++ tl).
Proof.
  revert x tl. induction l as [|y l IH]; intros x tl Hh; [done|].
  cbn [links]. intros (_ & Hy & Hl) Hc. rewrite lastof_cons, reverse_cons, <- app_assoc.
  apply IH; [set_solver|done|]. cbn. split_and!; [done|set_solver|]. by rewrite Hy.
Qed.

Lemma ring_chain nx pv h l : ring nx pv h l →
  chain nx h (nx h) l ∧ chain pv h (pv h) (reverse l).
Proof.
  intros [Hnd Hl]. apply NoDup_cons in Hnd as [Hh _]. split; [by eapply links_chain|].
  apply links_app in Hl as [H1 H2]. cbn in H2. destruct H2 as (_ & Hp & _).
  rewrite Hp. rewrite <- (app_nil_r (reverse l)). eapply links_chain_rev; try done.
Qed.
End dll.
