(* ===== verification/Bio.v ===== *)
(** * The disk and the buffer cache (kernel/memide.c, kernel/bio.c, include/buf.h)

    [bufs] holds the [NBUF] buffers of [bcache.buf] followed by
    [bcache.head]; a [struct buf*] is an index, [HEAD] the address of the
    list head.  The disk is the in-memory image of memide.c, one block per
    block number; [dtrace] is a history variable that records the disk
    writes in order, so that a crash between two writes can be described.

    The kernel is modelled as built with MEMFS, so [iderw] completes before
    it returns. *)

From S2P Require Import Prelude Bytes Spinlock Sched Dll.

Definition BSIZE : nat := 512.
Definition NBUF : nat := 30.
Definition HEAD : nat := NBUF.
Definition ROOTDEV : Z := 1.

Definition B_BUSY : Z := 1.
Definition B_VALID : Z := 2.
Definition B_DIRTY : Z := 4.

Abbreviation block := (list Z).
Definition zero_block : block := replicate BSIZE 0.

Record buf := mkBuf {
  b_flags : Z;
  b_dev : Z;
  b_blockno : Z;
  b_prev : nat;
  b_next : nat;
  b_data : block
}.

Definition set_flags (x : Z) (b : buf) : buf :=
  mkBuf x (b_dev b) (b_blockno b) (b_prev b) (b_next b) (b_data b).
Definition set_dev (x : Z) (b : buf) : buf :=
  mkBuf (b_flags b) x (b_blockno b) (b_prev b) (b_next b) (b_data b).
Definition set_blockno (x : Z) (b : buf) : buf :=
  mkBuf (b_flags b) (b_dev b) x (b_prev b) (b_next b) (b_data b).
Definition set_prev (x : nat) (b : buf) : buf :=
  mkBuf (b_flags b) (b_dev b) (b_blockno b) x (b_next b) (b_data b).
Definition set_next (x : nat) (b : buf) : buf :=
  mkBuf (b_flags b) (b_dev b) (b_blockno b) (b_prev b) x (b_data b).
Definition set_data (x : block) (b : buf) : buf :=
  mkBuf (b_flags b) (b_dev b) (b_blockno b) (b_prev b) (b_next b) x.

Record bio := mkBio {
  bio_m : mach;
  bufs : list buf;
  memdisk : gmap Z block;
  disksize : Z;
  dtrace : list (Z * block)
}.

Definition set_m (x : mach) (s : bio) : bio :=
  mkBio x (bufs s) (memdisk s) (disksize s) (dtrace s).
Definition set_bufs (x : list buf) (s : bio) : bio :=
  mkBio (bio_m s) x (memdisk s) (disksize s) (dtrace s).

Abbreviation bioM := (lift bio_m set_m).
Definition L_bcache : lockid := ("bcache", 0).
Definition buf_chan (b : nat) : chan := ("buf", Z.of_nat b).

Definition getbuf (b : nat) : M bio buf := s ← get; need (bufs s !! b).
Definition upd (b : nat) (f : buf → buf) : M bio unit :=
  s ← get;
  match bufs s !! b with
  | Some _ => put (set_bufs (alter f b (bufs s)) s)
  | None => halt Undef
  end.

(** ** memide.c *)

Definition dread (d : gmap Z block) (bn : Z) : block := default zero_block (d !! bn).

Definition ideinit (img : gmap Z block) (size : Z) : M bio unit :=
  modify (λ s, mkBio (bio_m s) (bufs s) img (u32 size / Z.of_nat BSIZE) (dtrace s)).

(** The fake disk raises no interrupts. *)
Definition ideintr : M bio unit := ret tt.

Definition iderw (b : nat) : M bio unit :=
  bf ← getbuf b;
  if negb (has (b_flags bf) B_BUSY) then panic "iderw: buf not busy" else
  if Z.land (b_flags bf) (Z.lor B_VALID B_DIRTY) =? B_VALID then panic "iderw: nothing to do" else
  if negb (b_dev bf =? 1) then panic "iderw: request not for disk 1" else
  s ← get;
  if disksize s <=? b_blockno bf then panic "iderw: block out of range" else
  (if has (b_flags bf) B_DIRTY then
     upd b (set_flags (clrf (b_flags bf) B_DIRTY)) ;;;
     modify (λ s, mkBio (bio_m s) (bufs s) (<[b_blockno bf := b_data bf]> (memdisk s))
                    (disksize s) (dtrace s ++ [(b_blockno bf, b_data bf)]))
   else upd b (set_data (dread (memdisk s) (b_blockno bf)))) ;;;
  bf' ← getbuf b;
  upd b (set_flags (setf (b_flags bf') B_VALID)).

(** ** bio.c *)

(** [b->dev = -1] in an unsigned field. *)
Definition NODEV : Z := 2 ^ 32 - 1.

(** [b->next = head.next; b->prev = &head; head.next->prev = b; head.next = b]. *)
Definition link_front (b : nat) : M bio unit :=
  hd ← getbuf HEAD;
  upd b (set_next (b_next hd)) ;;;
  upd b (set_prev HEAD) ;;;
  hd ← getbuf HEAD;
  upd (b_next hd) (set_prev b) ;;;
  upd HEAD (set_next b).

(** [b->next->prev = b->prev; b->prev->next = b->next]. *)
Definition unlink_buf (b : nat) : M bio unit :=
  bf ← getbuf b;
  upd (b_next bf) (set_prev (b_prev bf)) ;;;
  bf ← getbuf b;
  upd (b_prev bf) (set_next (b_next bf)).

Definition binit : M bio unit :=
  bioM (smpM (initlock L_bcache)) ;;;
  upd HEAD (set_prev HEAD) ;;;
  upd HEAD (set_next HEAD) ;;;
  for_all (seq 0 NBUF) (λ b, upd b (set_dev NODEV) ;;; link_front b).

(** [for(b = from; b != &head; b = nxt(b)) if(p(b)) ...]: the first match. *)
Definition scan_step (nxt : buf → nat) (p : buf → bool) (b : nat) : M bio (nat + option nat) :=
  if (b =? HEAD)%nat then ret (inr None) else
  bf ← getbuf b;
  if p bf then ret (inr (Some b)) else ret (inl (nxt bf)).

Definition scan (nxt : buf → nat) (p : buf → bool) (from : nat) : M bio (option nat) :=
  loopM (S NBUF) (scan_step nxt p) from.

Definition is_block (dev blockno : Z) (bf : buf) : bool :=
  (b_dev bf =? dev) && (b_blockno bf =? blockno).
Definition recyclable (bf : buf) : bool :=
  negb (has (b_flags bf) B_BUSY) && negb (has (b_flags bf) B_DIRTY).

(** From the label [loop:], with [bcache.lock] held.  A thread that sleeps on
    a busy buffer comes back to this point. *)
Definition bget_loop (dev blockno : Z) : M bio nat :=
  hd ← getbuf HEAD;
  r ← scan b_next (is_block dev blockno) (b_next hd);
  match r with
  | Some b =>
      bf ← getbuf b;
      if negb (has (b_flags bf) B_BUSY) then
        upd b (set_flags (setf (b_flags bf) B_BUSY)) ;;;
        bioM (smpM (release L_bcache)) ;;;
        ret b
      else
        bioM (sleep (buf_chan b) L_bcache) ;;; halt Switch
  | None =>
      r ← scan b_prev recyclable (b_prev hd);
      match r with
      | Some b =>
          upd b (set_dev dev) ;;;
          upd b (set_blockno blockno) ;;;
          upd b (set_flags B_BUSY) ;;;
          bioM (smpM (release L_bcache)) ;;;
          ret b
      | None => panic "bget: no buffers"
      end
  end.

Definition bget (dev blockno : Z) : M bio nat :=
  bioM (smpM (acquire L_bcache)) ;;; bget_loop dev blockno.

(** The rest of [bget] after [sleep] returns: [goto loop]. *)
Definition bget_resume (intena : bool) (dev blockno : Z) : M bio nat :=
  bioM (sleep_resume intena L_bcache) ;;; bget_loop dev blockno.

Definition bread (dev blockno : Z) : M bio nat :=
  b ← bget dev blockno;
  bf ← getbuf b;
  whenM (negb (has (b_flags bf) B_VALID)) (iderw b) ;;;
  ret b.

Definition bwrite (b : nat) : M bio unit :=
  bf ← getbuf b;
  if negb (has (b_flags bf) B_BUSY) then panic "bwrite" else
  upd b (set_flags (setf (b_flags bf) B_DIRTY)) ;;;
  iderw b.

Definition brelse (b : nat) : M bio unit :=
  bf ← getbuf b;
  if negb (has (b_flags bf) B_BUSY) then panic "brelse" else
  bioM (smpM (acquire L_bcache)) ;;;
  unlink_buf b ;;;
  link_front b ;;;
  bf ← getbuf b;
  upd b (set_flags (clrf (b_flags bf) B_BUSY)) ;;;
  bioM (wakeup (buf_chan b)) ;;;
  bioM (smpM (release L_bcache)).

(** Access to [b->data], [b->blockno] and the flag [log_write] sets. *)
Definition bdata (b : nat) : M bio block := bf ← getbuf b; ret (b_data bf).
Definition bset (b : nat) (d : block) : M bio unit := upd b (set_data d).
Definition bblockno (b : nat) : M bio Z := bf ← getbuf b; ret (b_blockno bf).
Definition bdirty (b : nat) : M bio unit :=
  bf ← getbuf b; upd b (set_flags (setf (b_flags bf) B_DIRTY)).
