(* ===== verification/BioSpec.v ===== *)
(** * What the buffer cache promises

    [bview] is the abstract state of the cache: the contents a reader of a
    block sees, the contents of the disk, which handles are held and for
    which block, which blocks are pinned by [B_DIRTY], how many buffers can
    still be recycled, and the disk writes so far.  [binv] is the invariant
    of the concrete state (the ring of buffers is intact, no block is cached
    twice, a clean idle buffer equals its disk block), and the lemmas below
    say how each operation of bio.c acts on the view. *)

From S2P Require Import Prelude Bytes Spinlock Sched Dll Bio.
From Stdlib Require Import FunctionalExtensionality.

Record bview := mkView {
  v_mem : Z → block;
  v_disk : Z → block;
  v_busy : nat → option Z;
  v_pin : Z → bool;
  v_avail : nat;
  v_trace : list (Z * block)
}.

Definition body (bs : list buf) : list buf := take NBUF bs.

Definition mem_of (bs : list buf) (d : gmap Z block) (bn : Z) : block :=
  match list_find (λ bf, is_block ROOTDEV bn bf = true) (body bs) with
  | Some (_, bf) => b_data bf
  | None => dread d bn
  end.

Definition busy_of (bs : list buf) (h : nat) : option Z :=
  match body bs !! h with
  | Some bf => if has (b_flags bf) B_BUSY then Some (b_blockno bf) else None
  | None => None
  end.

Definition pin_of (bs : list buf) (bn : Z) : bool :=
  existsb (λ bf, is_block ROOTDEV bn bf && has (b_flags bf) B_DIRTY) (body bs).

Definition avail_of (bs : list buf) : nat :=
  length (List.filter recyclable (body bs)).

Definition abs (s : bio) : bview :=
  mkView (mem_of (bufs s) (memdisk s)) (dread (memdisk s)) (busy_of (bufs s))
    (pin_of (bufs s)) (avail_of (bufs s)) (dtrace s).

Definition nxf (bs : list buf) (x : nat) : nat := from_option b_next 0%nat (bs !! x).
Definition pvf (bs : list buf) (x : nat) : nat := from_option b_prev 0%nat (bs !! x).

(** A buffer between operations is unused or holds a valid block; when it is
    neither held nor dirty it agrees with the disk. *)
Definition buf_ok (d : gmap Z block) (n : Z) (bf : buf) : Prop :=
  length (b_data bf) = BSIZE ∧
  ((b_flags bf = 0 ∧ b_dev bf = NODEV) ∨
   (has (b_flags bf) B_VALID = true ∧ b_dev bf = ROOTDEV ∧ 0 ≤ b_blockno bf < n ∧
    (has (b_flags bf) B_BUSY = true ∨ has (b_flags bf) B_DIRTY = true ∨
     b_data bf = dread d (b_blockno bf)))).

Definition ring_ok (bs : list buf) : Prop :=
  length bs = S NBUF ∧
  ∃ order, ring (nxf bs) (pvf bs) HEAD order ∧ order ≡ₚ seq 0 NBUF.

Definition unique (bs : list buf) : Prop :=
  ∀ i j bf bf', body bs !! i = Some bf → body bs !! j = Some bf' →
    b_dev bf = ROOTDEV → b_dev bf' = ROOTDEV → b_blockno bf = b_blockno bf' → i = j.

Definition binv (s : bio) : Prop :=
  ring_ok (bufs s) ∧
  Forall (buf_ok (memdisk s) (disksize s)) (body (bufs s)) ∧
  unique (bufs s) ∧
  (∀ bn, length (dread (memdisk s) bn) = BSIZE).

(** The machine part: locks usable and neither of the two locks held. *)
Definition bquiet (s : bio) : Prop :=
  mok (bio_m s) ∧ lfree L_bcache (bio_m s) ∧ lfree L_ptable (bio_m s).

(** ** Scanning the ring *)

Fixpoint first_of (p : buf → bool) (bs : list buf) (l : list nat) : option nat :=
  match l with
  | [] => None
  | i :: l' => if from_option p false (bs !! i) then Some i else first_of p bs l'
  end.

Lemma first_of_Some p bs l i : first_of p bs l = Some i →
  i ∈ l ∧ ∃ bf, bs !! i = Some bf ∧ p bf = true.
Proof.
  induction l as [|j l IH]; cbn; [done|].
  destruct (bs !! j) as [bf|] eqn:Hj; cbn.
  - destruct (p bf) eqn:Hp; [|set_solver]. intros; simplify_eq. set_solver.
  - set_solver.
Qed.

Lemma first_of_None p bs l i bf : first_of p bs l = None →
  i ∈ l → bs !! i = Some bf → p bf = false.
Proof.
  induction l as [|j l IH]; cbn; [set_solver|].
  intros Hf Hi Hb. apply elem_of_cons in Hi as [->|Hi].
  - rewrite Hb in Hf. cbn in Hf. by destruct (p bf).
  - apply IH; try done. destruct (bs !! j); cbn in Hf; [|done]. by destruct (p b).
Qed.

Lemma loop_scan (nxt : buf → nat) p n x l s :
  chain (λ i, from_option nxt 0%nat (bufs s !! i)) HEAD x l →
  (∀ i, i ∈ l → is_Some (bufs s !! i)) → (length l < n)%nat →
  loopM n (scan_step nxt p) x s =
  Ok (first_of p (bufs s) l) s.
Proof.
  revert n x. induction l as [|y l IH]; intros n x Hc Hs Hn; cbn in Hc;
    (destruct n as [|n]; [cbn in Hn; lia|]); cbn [loopM]; unfold scan_step at 1.
  - subst x. rewrite Nat.eqb_refl. done.
  - destruct Hc as (-> & Hy & Hc).
    destruct (Nat.eqb_spec y HEAD); [done|].
    destruct (Hs y) as [bf Hbf]; [set_solver|].
    unfold getbuf, bind, get, need. rewrite Hbf. unfold ret.
    cbn [first_of]. rewrite Hbf. cbn. destruct (p bf) eqn:Hp; cbn; [done|].
    rewrite Hbf in Hc. cbn in Hc. apply IH; [done| |cbn in Hn; lia]. set_solver.
Qed.

Section ring.
Implicit Types (bs : list buf).

Lemma order_length order : order ≡ₚ seq 0 NBUF → length order = NBUF.
Proof. intros H. rewrite H. apply length_seq. Qed.

Lemma order_elem order i : order ≡ₚ seq 0 NBUF → i ∈ order ↔ (i < NBUF)%nat.
Proof. intros H. rewrite H, elem_of_seq. lia. Qed.

(** Scanning forward or backward meets every buffer. *)
Lemma scan_next s p : ring_ok (bufs s) →
  ∃ r, scan b_next p (nxf (bufs s) HEAD) s = Ok r s ∧
    match r with
    | Some i => (i < NBUF)%nat ∧ ∃ bf, bufs s !! i = Some bf ∧ p bf = true
    | None => ∀ i bf, (i < NBUF)%nat → bufs s !! i = Some bf → p bf = false
    end.
Proof.
  intros (Hl & order & Hr & Ho). destruct (ring_chain _ _ _ _ Hr) as [Hc _].
  exists (first_of p (bufs s) order). split.
  - apply loop_scan; [exact Hc| |].
    + intros i Hi. apply lookup_lt_is_Some. rewrite (order_elem _ _ Ho) in Hi. lia.
    + rewrite (order_length _ Ho). lia.
  - destruct (first_of p (bufs s) order) as [i|] eqn:E.
    + apply first_of_Some in E as [Hi Hb]. by rewrite (order_elem _ _ Ho) in Hi.
    + intros i bf Hi Hb. eapply first_of_None; try done. by rewrite (order_elem _ _ Ho).
Qed.

Lemma scan_prev s p : ring_ok (bufs s) →
  ∃ r, scan b_prev p (pvf (bufs s) HEAD) s = Ok r s ∧
    match r with
    | Some i => (i < NBUF)%nat ∧ ∃ bf, bufs s !! i = Some bf ∧ p bf = true
    | None => ∀ i bf, (i < NBUF)%nat → bufs s !! i = Some bf → p bf = false
    end.
Proof.
  intros (Hl & order & Hr & Ho). destruct (ring_chain _ _ _ _ Hr) as [_ Hc].
  exists (first_of p (bufs s) (reverse order)). split.
  - apply loop_scan; [exact Hc| |].
    + intros i Hi. apply lookup_lt_is_Some.
      rewrite elem_of_reverse, (order_elem _ _ Ho) in Hi. lia.
    + rewrite length_reverse, (order_length _ Ho). lia.
  - destruct (first_of p (bufs s) (reverse order)) as [i|] eqn:E.
    + apply first_of_Some in E as [Hi Hb]. by rewrite elem_of_reverse, (order_elem _ _ Ho) in Hi.
    + intros i bf Hi Hb. eapply first_of_None; try done.
      by rewrite elem_of_reverse, (order_elem _ _ Ho).
Qed.

(** Pointer stores. *)
Lemma nxf_insert bs b x : (b < length bs)%nat →
  nxf (<[b:=x]> bs) = <[b:=b_next x]> (nxf bs).
Proof.
  intros Hb. extensionality i. unfold nxf. destruct (decide (b = i)) as [->|Hne].
  - by rewrite list_lookup_insert_eq, fn_lookup_insert.
  - by rewrite list_lookup_insert_ne, fn_lookup_insert_ne.
Qed.

Lemma pvf_insert bs b x : (b < length bs)%nat →
  pvf (<[b:=x]> bs) = <[b:=b_prev x]> (pvf bs).
Proof.
  intros Hb. extensionality i. unfold pvf. destruct (decide (b = i)) as [->|Hne].
  - by rewrite list_lookup_insert_eq, fn_lookup_insert.
  - by rewrite list_lookup_insert_ne, fn_lookup_insert_ne.
Qed.

(** Replacing a buffer without touching its links. *)
Lemma ring_ok_replace bs b bf x :
  bs !! b = Some bf → b_next x = b_next bf → b_prev x = b_prev bf →
  ring_ok bs → ring_ok (<[b:=x]> bs).
Proof.
  intros Hb Hn Hp (Hl & order & Hr & Ho). split; [by rewrite length_insert|].
  exists order. split; [|done].
  assert (b < length bs)%nat by eauto using lookup_lt_Some.
  rewrite nxf_insert, pvf_insert by done.
  rewrite !fn_insert_id; [done| |]; unfold nxf, pvf; rewrite Hb; cbn; congruence.
Qed.
End ring.

(** ** The view after replacing one buffer *)

Section replace.
Implicit Types (bs : list buf) (d : gmap Z block) (bf x : buf).

Lemma body_lookup bs i bf : body bs !! i = Some bf ↔ (i < NBUF)%nat ∧ bs !! i = Some bf.
Proof. unfold body. rewrite lookup_take_Some. tauto. Qed.

Lemma body_insert bs b x : (b < NBUF)%nat → body (<[b:=x]> bs) = <[b:=x]> (body bs).
Proof. intros. unfold body. by rewrite take_insert_lt. Qed.

Lemma is_block_spec dev bn bf :
  is_block dev bn bf = true ↔ b_dev bf = dev ∧ b_blockno bf = bn.
Proof. unfold is_block. rewrite andb_true_iff, !Z.eqb_eq. done. Qed.

Lemma mem_of_cases bs d bn :
  (∃ i bf, body bs !! i = Some bf ∧ b_dev bf = ROOTDEV ∧ b_blockno bf = bn ∧
     mem_of bs d bn = b_data bf) ∨
  ((∀ i bf, body bs !! i = Some bf → ¬ (b_dev bf = ROOTDEV ∧ b_blockno bf = bn)) ∧
     mem_of bs d bn = dread d bn).
Proof.
  unfold mem_of. destruct (list_find _ (body bs)) as [[i bf]|] eqn:E.
  - apply list_find_Some in E as (Hi & Hp & _). apply is_block_spec in Hp.
    left. exists i, bf. naive_solver.
  - right. split; [|done]. apply list_find_None in E. rewrite Forall_lookup in E.
    intros i bf Hi Hk. apply (E i bf Hi). by apply is_block_spec.
Qed.

Lemma mem_of_lookup bs d i bf : unique bs → body bs !! i = Some bf → b_dev bf = ROOTDEV →
  mem_of bs d (b_blockno bf) = b_data bf.
Proof.
  intros Hu Hi Hd. destruct (mem_of_cases bs d (b_blockno bf)) as [(j & bf' & Hj & Hd' & Hb & ->)|[Hn _]].
  - assert (i = j) as <- by (by eapply Hu). by rewrite Hi in Hj; simplify_eq.
  - exfalso. eapply Hn; eauto.
Qed.

Lemma mem_of_none bs d bn :
  (∀ i bf, body bs !! i = Some bf → ¬ (b_dev bf = ROOTDEV ∧ b_blockno bf = bn)) →
  mem_of bs d bn = dread d bn.
Proof.
  intros Hn. destruct (mem_of_cases bs d bn) as [(j & bf' & Hj & Hd' & Hb & _)|[_ ->]]; [|done].
  exfalso. by eapply Hn.
Qed.

Lemma body_insert_lookup bs b x i y : (b < NBUF)%nat → (b < length bs)%nat →
  body (<[b:=x]> bs) !! i = Some y ↔ (i = b ∧ y = x) ∨ (i ≠ b ∧ body bs !! i = Some y).
Proof.
  intros Hn Hl. rewrite body_insert by done. destruct (decide (i = b)) as [->|Hne].
  - rewrite list_lookup_insert_eq; [|unfold body; rewrite length_take; lia]. naive_solver.
  - rewrite list_lookup_insert_ne by done. naive_solver.
Qed.

Lemma unique_same_key bs b bf x :
  bs !! b = Some bf → (b < NBUF)%nat → b_dev x = b_dev bf → b_blockno x = b_blockno bf →
  unique bs → unique (<[b:=x]> bs).
Proof.
  intros Hb Hn Hd Hk Hu i j bi bj Hi Hj Di Dj Hij.
  assert (b < length bs)%nat as Hl by eauto using lookup_lt_Some.
  assert (body bs !! b = Some bf) as Hbb by (by apply body_lookup).
  apply body_insert_lookup in Hi, Hj; try done.
  destruct Hi as [[-> ->]|[? Hi]], Hj as [[-> ->]|[? Hj]]; [done| | |by eapply (Hu i j)].
  - eapply (Hu b j bf bj); congruence.
  - eapply (Hu i b bi bf); congruence.
Qed.

Lemma unique_recycle bs b bf x :
  bs !! b = Some bf → (b < NBUF)%nat → unique bs →
  (∀ i bf, body bs !! i = Some bf → ¬ (b_dev bf = ROOTDEV ∧ b_blockno bf = b_blockno x)) →
  unique (<[b:=x]> bs).
Proof.
  intros Hb Hn Hu Hnc i j bi bj Hi Hj Di Dj Hij.
  assert (b < length bs)%nat as Hl by eauto using lookup_lt_Some.
  apply body_insert_lookup in Hi, Hj; try done.
  destruct Hi as [[-> ->]|[? Hi]], Hj as [[-> ->]|[? Hj]]; [done| | |by eapply (Hu i j)].
  - exfalso. by eapply (Hnc j).
  - exfalso. by eapply (Hnc i).
Qed.

Lemma mem_of_same_key bs d b bf x :
  unique bs → bs !! b = Some bf → (b < NBUF)%nat →
  b_dev x = b_dev bf → b_blockno x = b_blockno bf → b_dev bf = ROOTDEV →
  mem_of (<[b:=x]> bs) d = <[b_blockno bf := b_data x]> (mem_of bs d).
Proof.
  intros Hu Hb Hn Hd Hk Hr. extensionality bn.
  assert (b < length bs)%nat as Hl by eauto using lookup_lt_Some.
  pose proof (unique_same_key bs b bf x Hb Hn Hd Hk Hu) as Hu'.
  destruct (decide (b_blockno bf = bn)) as [<-|Hne].
  - rewrite fn_lookup_insert. rewrite <- Hk. apply (mem_of_lookup _ _ b x Hu'); [|congruence].
    apply body_insert_lookup; auto.
  - rewrite fn_lookup_insert_ne by done.
    destruct (mem_of_cases bs d bn) as [(i & bi & Hi & Di & Ki & ->)|[Hnone ->]].
    + rewrite <- Ki. apply (mem_of_lookup _ _ i bi Hu'); [|done].
      apply body_insert_lookup; try done. right. split; [|done].
      intros ->. apply body_lookup in Hi as [_ Hi]. congruence.
    + apply mem_of_none. intros i bi Hi. apply body_insert_lookup in Hi; try done.
      destruct Hi as [[-> ->]|[_ Hi]]; [|by eapply Hnone]. rewrite Hk. naive_solver.
Qed.

Lemma mem_of_recycle bs d b bf x :
  unique bs → bs !! b = Some bf → (b < NBUF)%nat →
  (b_dev bf = ROOTDEV → b_data bf = dread d (b_blockno bf)) →
  b_dev x = ROOTDEV → b_data x = dread d (b_blockno x) →
  (∀ i bf, body bs !! i = Some bf → ¬ (b_dev bf = ROOTDEV ∧ b_blockno bf = b_blockno x)) →
  mem_of (<[b:=x]> bs) d = mem_of bs d.
Proof.
  intros Hu Hb Hn Hc Hd Hx Hnc. extensionality bn.
  assert (b < length bs)%nat as Hl by eauto using lookup_lt_Some.
  pose proof (unique_recycle bs b bf x Hb Hn Hu Hnc) as Hu'.
  destruct (decide (b_blockno x = bn)) as [<-|Hne].
  - rewrite (mem_of_lookup _ _ b x Hu'); [|by apply body_insert_lookup; auto|done].
    by rewrite (mem_of_none bs).
  - destruct (mem_of_cases bs d bn) as [(i & bi & Hi & Di & Ki & Hm)|[Hnone ->]].
    + rewrite Hm. destruct (decide (i = b)) as [->|Hib].
      * apply body_lookup in Hi as [_ Hi]. rewrite Hb in Hi; simplify_eq.
        rewrite Hc by done. apply mem_of_none. intros i bi' Hi.
        apply body_insert_lookup in Hi; try done.
        destruct Hi as [[-> ->]|[Hib Hi]]; [naive_solver|]. intros [Di' Ki'].
        apply Hib. eapply (Hu i b bi' bi); try done. by apply body_lookup.
      * rewrite <- Ki. apply (mem_of_lookup _ _ i bi Hu'); [|done].
        apply body_insert_lookup; auto.
    + apply mem_of_none. intros i bi Hi. apply body_insert_lookup in Hi; try done.
      destruct Hi as [[-> ->]|[_ Hi]]; [naive_solver|by eapply Hnone].
Qed.

Lemma mem_of_disk bs d bn v i bf :
  unique bs → body bs !! i = Some bf → b_dev bf = ROOTDEV → b_blockno bf = bn →
  mem_of bs (<[bn:=v]> d) = mem_of bs d.
Proof.
  intros Hu Hi Hd Hb. extensionality k. unfold mem_of.
  destruct (list_find _ (body bs)) as [[j bj]|] eqn:E; [done|].
  unfold dread. rewrite lookup_insert_ne; [done|]. intros <-.
  apply list_find_None in E. rewrite Forall_lookup in E.
  apply (E i bf Hi). by apply is_block_spec.
Qed.

Lemma busy_of_insert bs b x : (b < NBUF)%nat → (b < length bs)%nat →
  busy_of (<[b:=x]> bs) =
  <[b := if has (b_flags x) B_BUSY then Some (b_blockno x) else None]> (busy_of bs).
Proof.
  intros Hn Hl. extensionality h. unfold busy_of. rewrite body_insert by done.
  destruct (decide (b = h)) as [<-|Hne].
  - rewrite list_lookup_insert_eq, fn_lookup_insert; [done|].
    unfold body. rewrite length_take. lia.
  - by rewrite list_lookup_insert_ne, fn_lookup_insert_ne by done.
Qed.

Lemma pin_of_true bs bn : pin_of bs bn = true ↔
  ∃ i bf, body bs !! i = Some bf ∧ b_dev bf = ROOTDEV ∧ b_blockno bf = bn ∧
    has (b_flags bf) B_DIRTY = true.
Proof.
  unfold pin_of. rewrite existsb_exists. split.
  - intros (bf & Hin & Hb). apply list_elem_of_In, list_elem_of_lookup in Hin as [i Hi].
    apply andb_true_iff in Hb as [Hk Hd]. apply is_block_spec in Hk. naive_solver.
  - intros (i & bf & Hi & Hd & Hk & Hf). exists bf. split.
    + apply list_elem_of_In, list_elem_of_lookup. eauto.
    + rewrite Hf, andb_true_r. by apply is_block_spec.
Qed.

Lemma pin_of_lookup bs i bf : unique bs → body bs !! i = Some bf → b_dev bf = ROOTDEV →
  pin_of bs (b_blockno bf) = has (b_flags bf) B_DIRTY.
Proof.
  intros Hu Hi Hd. apply eq_true_iff_eq. rewrite pin_of_true. split.
  - intros (j & bf' & Hj & Hd' & Hk & Hf). assert (i = j) as <- by (by eapply Hu).
    by rewrite Hi in Hj; simplify_eq.
  - naive_solver.
Qed.

Lemma pin_of_same_key bs b bf x :
  unique bs → bs !! b = Some bf → (b < NBUF)%nat →
  b_dev x = b_dev bf → b_blockno x = b_blockno bf → b_dev bf = ROOTDEV →
  pin_of (<[b:=x]> bs) = <[b_blockno bf := has (b_flags x) B_DIRTY]> (pin_of bs).
Proof.
  intros Hu Hb Hn Hd Hk Hr. extensionality bn.
  assert (b < length bs)%nat as Hl by eauto using lookup_lt_Some.
  pose proof (unique_same_key bs b bf x Hb Hn Hd Hk Hu) as Hu'.
  destruct (decide (b_blockno bf = bn)) as [<-|Hne].
  - rewrite fn_lookup_insert. rewrite <- Hk. apply (pin_of_lookup _ b x Hu'); [|congruence].
    apply body_insert_lookup; auto.
  - rewrite fn_lookup_insert_ne by done. apply eq_true_iff_eq. rewrite !pin_of_true.
    split; intros (i & bi & Hi & Di & Ki & Fi); exists i, bi.
    + apply body_insert_lookup in Hi; try done.
      destruct Hi as [[-> ->]|[_ Hi]]; [congruence|done].
    + split_and!; try done. apply body_insert_lookup; try done. right. split; [|done].
      intros ->. apply body_lookup in Hi as [_ Hi]. congruence.
Qed.

Lemma pin_of_recycle bs b bf x :
  bs !! b = Some bf → (b < NBUF)%nat →
  has (b_flags bf) B_DIRTY = false → has (b_flags x) B_DIRTY = false →
  pin_of (<[b:=x]> bs) = pin_of bs.
Proof.
  intros Hb Hn Hf Hx. extensionality bn.
  assert (b < length bs)%nat as Hl by eauto using lookup_lt_Some.
  apply eq_true_iff_eq. rewrite !pin_of_true.
  split; intros (i & bi & Hi & Di & Ki & Fi); exists i, bi.
  - apply body_insert_lookup in Hi; try done.
    destruct Hi as [[-> ->]|[_ Hi]]; [congruence|done].
  - split_and!; try done. apply body_insert_lookup; try done. right. split; [|done].
    intros ->. apply body_lookup in Hi as [_ Hi]. congruence.
Qed.

Definition one (b : bool) : nat := if b then 1%nat else 0%nat.

Lemma filter_insert (f : buf → bool) (l : list buf) b bf x : l !! b = Some bf →
  (length (List.filter f (<[b:=x]> l)) + one (f bf) =
   length (List.filter f l) + one (f x))%nat.
Proof.
  revert b. induction l as [|y l IH]; intros [|b] Hb; cbn in Hb; simplify_eq.
  - cbn. unfold one. destruct (f x), (f bf); cbn; lia.
  - specialize (IH b Hb). change (<[S b:=x]> (y :: l)) with (y :: <[b:=x]> l).
    cbn [List.filter]. destruct (f y); cbn [length]; lia.
Qed.

Lemma avail_of_insert bs b bf x : bs !! b = Some bf → (b < NBUF)%nat →
  (avail_of (<[b:=x]> bs) + one (recyclable bf) = avail_of bs + one (recyclable x))%nat.
Proof.
  intros Hb Hn. unfold avail_of. rewrite body_insert by done. apply filter_insert.
  by apply body_lookup.
Qed.

Lemma avail_of_pos bs i bf : body bs !! i = Some bf → recyclable bf = true →
  (0 < avail_of bs)%nat.
Proof.
  intros Hi Hr. unfold avail_of.
  assert (bf ∈ List.filter recyclable (body bs)) as Hin.
  { apply list_elem_of_In, filter_In. split; [|done].
    apply list_elem_of_In, list_elem_of_lookup. eauto. }
  destruct (List.filter recyclable (body bs)); [by apply not_elem_of_nil in Hin|cbn; lia].
Qed.

Lemma avail_of_exists bs : (0 < avail_of bs)%nat →
  ∃ i bf, body bs !! i = Some bf ∧ recyclable bf = true.
Proof.
  unfold avail_of. destruct (List.filter recyclable (body bs)) as [|bf l] eqn:E; [cbn; lia|].
  intros _. assert (In bf (List.filter recyclable (body bs))) as Hin by (rewrite E; by left).
  apply filter_In in Hin as [Hin Hr]. apply list_elem_of_In, list_elem_of_lookup in Hin as [i Hi].
  eauto.
Qed.
End replace.

(** ** Flag words *)

Lemma flags_low f m : 0 ≤ m < 8 → Z.land f m = Z.land (f mod 8) m.
Proof.
  intros Hm. change 8 with (2 ^ 3). rewrite <- Z.land_ones by lia.
  rewrite <- Z.land_assoc. f_equal. rewrite Z.land_comm, Z.land_ones by lia.
  symmetry. apply Z.mod_small. lia.
Qed.

Lemma rw_test f :
  (Z.land f (Z.lor B_VALID B_DIRTY) =? B_VALID) = has f B_VALID && negb (has f B_DIRTY).
Proof.
  unfold has. change (Z.lor B_VALID B_DIRTY) with 6. unfold B_VALID, B_DIRTY.
  rewrite (flags_low f 6), (flags_low f 2), (flags_low f 4) by lia.
  pose proof (Z.mod_pos_bound f 8 ltac:(lia)) as Hr.
  assert (f mod 8 = 0 ∨ f mod 8 = 1 ∨ f mod 8 = 2 ∨ f mod 8 = 3 ∨
          f mod 8 = 4 ∨ f mod 8 = 5 ∨ f mod 8 = 6 ∨ f mod 8 = 7) as H by lia.
  by destruct H as [->|[->|[->|[->|[->|[->|[->| ->]]]]]]].
Qed.

Lemma has_set_busy f : has (setf f B_BUSY) B_BUSY = true ∧
  has (setf f B_BUSY) B_VALID = has f B_VALID ∧ has (setf f B_BUSY) B_DIRTY = has f B_DIRTY.
Proof. split_and!; [apply (has_setf f 0 0)|apply (has_setf f 0 1)|apply (has_setf f 0 2)]; lia. Qed.

Lemma has_set_valid f : has (setf f B_VALID) B_VALID = true ∧
  has (setf f B_VALID) B_BUSY = has f B_BUSY ∧ has (setf f B_VALID) B_DIRTY = has f B_DIRTY.
Proof. split_and!; [apply (has_setf f 1 1)|apply (has_setf f 1 0)|apply (has_setf f 1 2)]; lia. Qed.

Lemma has_set_dirty f : has (setf f B_DIRTY) B_DIRTY = true ∧
  has (setf f B_DIRTY) B_BUSY = has f B_BUSY ∧ has (setf f B_DIRTY) B_VALID = has f B_VALID.
Proof. split_and!; [apply (has_setf f 2 2)|apply (has_setf f 2 0)|apply (has_setf f 2 1)]; lia. Qed.

Lemma has_clr_dirty f : has (clrf f B_DIRTY) B_DIRTY = false ∧
  has (clrf f B_DIRTY) B_BUSY = has f B_BUSY ∧ has (clrf f B_DIRTY) B_VALID = has f B_VALID.
Proof. split_and!; [apply (has_clrf f 2 2)|apply (has_clrf f 2 0)|apply (has_clrf f 2 1)]; lia. Qed.

Lemma has_clr_busy f : has (clrf f B_BUSY) B_BUSY = false ∧
  has (clrf f B_BUSY) B_DIRTY = has f B_DIRTY ∧ has (clrf f B_BUSY) B_VALID = has f B_VALID.
Proof. split_and!; [apply (has_clrf f 0 0)|apply (has_clrf f 0 2)|apply (has_clrf f 0 1)]; lia. Qed.

(** ** Exact results of the operations *)

Lemma getbuf_ok s b bf : bufs s !! b = Some bf → getbuf b s = Ok bf s.
Proof. intros H. unfold getbuf. go. by rewrite H. Qed.

Lemma upd_ok s b bf f : bufs s !! b = Some bf →
  upd b f s = Ok tt (set_bufs (<[b := f bf]> (bufs s)) s).
Proof. intros H. unfold upd. go. rewrite H. by rewrite (list_alter_insert _ _ _ _ H). Qed.

Lemma lookup_set_bufs s b x bf : bufs s !! b = Some bf →
  bufs (set_bufs (<[b := x]> (bufs s)) s) !! b = Some x.
Proof. intros H. cbn. apply list_lookup_insert_eq. eauto using lookup_lt_Some. Qed.

Lemma iderw_read s b bf :
  bufs s !! b = Some bf → has (b_flags bf) B_BUSY = true →
  has (b_flags bf) B_VALID = false → has (b_flags bf) B_DIRTY = false →
  b_dev bf = ROOTDEV → b_blockno bf < disksize s →
  iderw b s = Ok tt (set_bufs (<[b := set_flags (setf (b_flags bf) B_VALID)
                         (set_data (dread (memdisk s) (b_blockno bf)) bf)]> (bufs s)) s).
Proof.
  intros Hb Hbusy Hv Hd Hdev Hn. unfold iderw. step (getbuf_ok s b bf Hb).
  rewrite Hbusy, rw_test, Hv, Hdev. change (ROOTDEV =? 1) with true. cbn [negb andb].
  rewrite (bind_ok get _ s s s eq_refl).
  destruct (Z.leb_spec (disksize s) (b_blockno bf)); [lia|]. rewrite Hd.
  step (upd_ok s b bf (set_data (dread (memdisk s) (b_blockno bf))) Hb).
  pose proof (lookup_set_bufs s b (set_data (dread (memdisk s) (b_blockno bf)) bf) bf Hb) as Hb'.
  step (getbuf_ok _ b _ Hb').
  rewrite (upd_ok _ b _ _ Hb'). cbn. by rewrite list_insert_insert_eq.
Qed.

Lemma iderw_write s b bf :
  bufs s !! b = Some bf → has (b_flags bf) B_BUSY = true → has (b_flags bf) B_DIRTY = true →
  b_dev bf = ROOTDEV → b_blockno bf < disksize s →
  iderw b s = Ok tt (mkBio (bio_m s)
    (<[b := set_flags (setf (clrf (b_flags bf) B_DIRTY) B_VALID) bf]> (bufs s))
    (<[b_blockno bf := b_data bf]> (memdisk s)) (disksize s)
    (dtrace s ++ [(b_blockno bf, b_data bf)])).
Proof.
  intros Hb Hbusy Hd Hdev Hn. unfold iderw. step (getbuf_ok s b bf Hb).
  rewrite Hbusy, rw_test, Hd, Hdev, andb_false_r. change (ROOTDEV =? 1) with true. cbn [negb].
  rewrite (bind_ok get _ s s s eq_refl).
  destruct (Z.leb_spec (disksize s) (b_blockno bf)); [lia|].
  rewrite (bind_ok _ _ s tt (mkBio (bio_m s)
    (<[b := set_flags (clrf (b_flags bf) B_DIRTY) bf]> (bufs s))
    (<[b_blockno bf := b_data bf]> (memdisk s)) (disksize s)
    (dtrace s ++ [(b_blockno bf, b_data bf)]))).
  2:{ by step (upd_ok s b bf (set_flags (clrf (b_flags bf) B_DIRTY)) Hb). }
  assert (<[b := set_flags (clrf (b_flags bf) B_DIRTY) bf]> (bufs s) !! b =
          Some (set_flags (clrf (b_flags bf) B_DIRTY) bf)) as Hb'
    by (apply list_lookup_insert_eq; eauto using lookup_lt_Some).
  erewrite bind_ok; [|by apply getbuf_ok].
  erewrite upd_ok by done. cbn. unfold set_bufs. cbn. by rewrite list_insert_insert_eq.
Qed.

Lemma bio_acquire s : bquiet s →
  bioM (smpM (acquire L_bcache)) s = Ok tt (set_m (mlocked L_bcache (bio_m s)) s).
Proof. intros (Hm & Hl & _). apply lift_ok. by apply lock_ok. Qed.

Lemma bio_release m t : mok m → lfree L_bcache m → bio_m t = mlocked L_bcache m →
  bioM (smpM (release L_bcache)) t = Ok tt (set_m m t).
Proof. intros Hm Hl Ht. apply lift_ok. rewrite Ht. by apply unlock_ok'. Qed.

Lemma binv_replace s b bf x :
  binv s → bufs s !! b = Some bf → (b < NBUF)%nat →
  b_next x = b_next bf → b_prev x = b_prev bf →
  buf_ok (memdisk s) (disksize s) x → unique (<[b:=x]> (bufs s)) →
  binv (set_bufs (<[b:=x]> (bufs s)) s).
Proof.
  intros (Hr & Hf & _ & Hd) Hb Hn Hx Hp Hok Hu. unfold binv. cbn. split_and!; try done.
  - by eapply ring_ok_replace.
  - rewrite body_insert by done. by apply Forall_insert.
Qed.

Ltac vcbn := cbn [v_mem v_disk v_busy v_pin v_avail v_trace bufs memdisk disksize dtrace
  bio_m set_bufs set_m b_flags b_dev b_blockno b_prev b_next b_data
  set_flags set_dev set_blockno set_prev set_next set_data].

(** The view after [bread] of block [bn] returned handle [h]. *)
Definition open_view (h : nat) (bn : Z) (v : bview) : bview :=
  mkView (v_mem v) (v_disk v) (<[h := Some bn]> (v_busy v)) (v_pin v)
    (if v_pin v bn then v_avail v else pred (v_avail v)) (v_trace v).

Lemma bget_hit s bn b bf : binv s → bquiet s →
  bufs s !! b = Some bf → (b < NBUF)%nat → b_dev bf = ROOTDEV → b_blockno bf = bn →
  has (b_flags bf) B_BUSY = false →
  let x := set_flags (setf (b_flags bf) B_BUSY) bf in
  binv (set_bufs (<[b := x]> (bufs s)) s) ∧
  abs (set_bufs (<[b := x]> (bufs s)) s) = open_view b bn (abs s) ∧
  has (b_flags x) B_VALID = true.
Proof.
  intros Hi Hq Hb Hn Hdev Hk Hbusy x. pose proof Hi as (Hr & Hf & Hu & Hd).
  assert (body (bufs s) !! b = Some bf) as Hbb by (by apply body_lookup).
  destruct (has_set_busy (b_flags bf)) as (HB & HV & HD).
  assert (buf_ok (memdisk s) (disksize s) bf) as Hok by (by eapply Forall_lookup_1).
  destruct Hok as (Hlen & [[_ Hno]|(Hv & _ & Hrange & Hc)]); [by rewrite Hdev in Hno|].
  assert (b < length (bufs s))%nat as Hl by eauto using lookup_lt_Some.
  split_and!.
  - apply (binv_replace s b bf); try done.
    + split; [done|]. right. cbn. rewrite HV, HB. auto.
    + by eapply unique_same_key.
  - unfold abs, open_view, x. vcbn.
    rewrite (mem_of_same_key _ _ b bf), (busy_of_insert _ b), (pin_of_same_key _ b bf) by done.
    vcbn. rewrite HB, HD.
    rewrite (fn_insert_id (mem_of _ _)) by (rewrite (mem_of_lookup _ _ b bf); done).
    rewrite (fn_insert_id (pin_of _)) by (rewrite (pin_of_lookup _ b bf); done).
    rewrite <- Hk, (pin_of_lookup _ b bf) by done. f_equal.
    pose proof (avail_of_insert (bufs s) b bf x Hb Hn) as Ha.
    unfold recyclable, x in Ha. cbn [b_flags set_flags] in Ha. rewrite HB, HD, Hbusy in Ha.
    destruct (has (b_flags bf) B_DIRTY) eqn:E; cbn [negb andb one] in Ha; lia.
  - cbn. by rewrite HV.
Qed.

Lemma bread_miss s bn b bf : binv s → 0 ≤ bn < disksize s →
  bufs s !! b = Some bf → (b < NBUF)%nat → recyclable bf = true →
  (∀ i bf, body (bufs s) !! i = Some bf → ¬ (b_dev bf = ROOTDEV ∧ b_blockno bf = bn)) →
  let x := mkBuf (setf B_BUSY B_VALID) ROOTDEV bn (b_prev bf) (b_next bf) (dread (memdisk s) bn) in
  binv (set_bufs (<[b := x]> (bufs s)) s) ∧
  abs (set_bufs (<[b := x]> (bufs s)) s) = open_view b bn (abs s).
Proof.
  intros Hi Hbn Hb Hn Hrec Hnc x. pose proof Hi as (Hr & Hf & Hu & Hd).
  assert (body (bufs s) !! b = Some bf) as Hbb by (by apply body_lookup).
  assert (buf_ok (memdisk s) (disksize s) bf) as Hok by (by eapply Forall_lookup_1).
  apply andb_true_iff in Hrec as [Hbusy Hdirty]. rewrite negb_true_iff in Hbusy, Hdirty.
  assert (b < length (bufs s))%nat as Hl by eauto using lookup_lt_Some.
  assert (unique (<[b:=x]> (bufs s))) as Hu' by (by eapply unique_recycle).
  split.
  - apply (binv_replace s b bf); try done. split; [apply Hd|]. right. auto.
  - unfold abs, open_view. vcbn. f_equal.
    + apply (mem_of_recycle _ _ b bf); try done.
      intros Hroot. destruct Hok as (_ & [[_ Hno]|(_ & _ & _ & [Hx|[Hx|Hx]])]);
        [by rewrite Hroot in Hno|congruence|congruence|done].
    + by apply busy_of_insert.
    + by apply (pin_of_recycle _ b bf).
    + pose proof (avail_of_insert (bufs s) b bf x Hb Hn) as Ha.
      unfold recyclable in Ha. rewrite Hbusy, Hdirty in Ha.
      change (has (b_flags x) B_BUSY) with true in Ha. cbn [negb andb one] in Ha.
      destruct (pin_of (bufs s) bn) eqn:E; [|lia]. exfalso.
      apply pin_of_true in E as (i & bi & Hbi & Di & Ki & _). by eapply Hnc.
Qed.

(** The buffer [bget] chose to recycle, before its contents are read. *)
Definition claimed (bn : Z) (bf : buf) : buf :=
  mkBuf B_BUSY ROOTDEV bn (b_prev bf) (b_next bf) (b_data bf).

Definition uncached (s : bio) (bn : Z) : Prop :=
  ∀ i bf, body (bufs s) !! i = Some bf → ¬ (b_dev bf = ROOTDEV ∧ b_blockno bf = bn).

(** [bget] returns the buffer of a cached block, or claims a recyclable one. *)
Lemma bget_ok s bn :
  binv s → bquiet s → (∀ h, busy_of (bufs s) h ≠ Some bn) →
  pin_of (bufs s) bn = true ∨ (0 < avail_of (bufs s))%nat →
  ∃ h bf, bufs s !! h = Some bf ∧ (h < NBUF)%nat ∧ busy_of (bufs s) h = None ∧
    ((b_dev bf = ROOTDEV ∧ b_blockno bf = bn ∧ has (b_flags bf) B_BUSY = false ∧
      bget ROOTDEV bn s =
        Ok h (set_bufs (<[h := set_flags (setf (b_flags bf) B_BUSY) bf]> (bufs s)) s)) ∨
     (recyclable bf = true ∧ uncached s bn ∧
      bget ROOTDEV bn s = Ok h (set_bufs (<[h := claimed bn bf]> (bufs s)) s))).
Proof.
  intros (Hr & Hf & Hu & Hd) Hq Hnb Hav. pose proof Hq as (Hm & Hlk & Hpt).
  set (s1 := set_m (mlocked L_bcache (bio_m s)) s).
  destruct (lookup_lt_is_Some_2 (bufs s) HEAD) as [hd Hhd]; [rewrite (proj1 Hr); unfold HEAD; lia|].
  unfold bget. step (bio_acquire s Hq). unfold bget_loop. fold s1.
  step (getbuf_ok s1 HEAD hd Hhd).
  replace (b_next hd) with (nxf (bufs s1) HEAD) by (unfold nxf; cbn; by rewrite Hhd).
  destruct (scan_next s1 (is_block ROOTDEV bn) Hr) as (r & Hs1 & Hr1). step Hs1.
  destruct r as [b|].
  - destruct Hr1 as (Hbn & bf & Hb & Hk). apply is_block_spec in Hk as [Hdev Hk].
    assert (body (bufs s) !! b = Some bf) as Hbb by (by apply body_lookup).
    assert (has (b_flags bf) B_BUSY = false) as Hbusy.
    { destruct (has (b_flags bf) B_BUSY) eqn:E; [|done]. exfalso. apply (Hnb b).
      unfold busy_of. by rewrite Hbb, E, Hk. }
    exists b, bf. split_and!; [done..|by unfold busy_of; rewrite Hbb, Hbusy|].
    left. split_and!; try done.
    step (getbuf_ok s1 b bf Hb). rewrite Hbusy. cbn [negb].
    step (upd_ok s1 b bf (set_flags (setf (b_flags bf) B_BUSY)) Hb).
    erewrite bind_ok; [|by apply bio_release]. by destruct s.
  - assert (uncached s bn) as Hnc.
    { intros i bf [Hlt Hbf]%body_lookup Hk. apply is_block_spec in Hk.
      specialize (Hr1 i bf Hlt Hbf). congruence. }
    replace (b_prev hd) with (pvf (bufs s1) HEAD) by (unfold pvf; cbn; by rewrite Hhd).
    destruct (scan_prev s1 recyclable Hr) as (r2 & Hs2 & Hr2). step Hs2.
    destruct r2 as [b|].
    + destruct Hr2 as (Hbn & bf & Hb & Hrec).
      assert (body (bufs s) !! b = Some bf) as Hbb by (by apply body_lookup).
      assert (b < length (bufs s1))%nat as Hl by eauto using lookup_lt_Some.
      exists b, bf. split_and!; try done.
      { unfold busy_of. rewrite Hbb. apply andb_true_iff in Hrec as [Hbusy _].
        rewrite negb_true_iff in Hbusy. by rewrite Hbusy. }
      right. split_and!; try done. step (upd_ok s1 b bf (set_dev ROOTDEV) Hb).
      erewrite bind_ok; [|by apply upd_ok; vcbn; apply list_lookup_insert_eq].
      erewrite bind_ok; [|apply upd_ok; vcbn; apply list_lookup_insert_eq; by rewrite length_insert].
      erewrite bind_ok; [|by apply bio_release]. vcbn. rewrite !list_insert_insert_eq.
      by destruct s.
    + exfalso. destruct Hav as [Hp|Hav].
      * apply pin_of_true in Hp as (i & bi & Hbi & Di & Ki & _). by eapply Hnc.
      * apply avail_of_exists in Hav as (i & bi & [Hlt Hbi]%body_lookup & Hrec).
        specialize (Hr2 i bi Hlt Hbi). congruence.
Qed.

(** Reading a block that is not held returns a handle on its current
    contents and changes nothing else of the view. *)
Lemma bread_ok s bn :
  binv s → bquiet s → 0 ≤ bn < disksize s →
  (∀ h, busy_of (bufs s) h ≠ Some bn) →
  pin_of (bufs s) bn = true ∨ (0 < avail_of (bufs s))%nat →
  ∃ h s', bread ROOTDEV bn s = Ok h s' ∧ binv s' ∧ bio_m s' = bio_m s ∧
    disksize s' = disksize s ∧ busy_of (bufs s) h = None ∧
    abs s' = open_view h bn (abs s).
Proof.
  intros Hi Hq Hbn Hnb Hav.
  destruct (bget_ok s bn Hi Hq Hnb Hav)
    as (h & bf & Hb & Hh & Hfree & [(Hdev & Hk & Hbusy & Hget)|(Hrec & Hnc & Hget)]);
    unfold bread; step Hget; erewrite bind_ok by (by eapply getbuf_ok, lookup_set_bufs).
  - destruct (bget_hit s bn h bf Hi Hq Hb Hh Hdev Hk Hbusy) as (H1 & H2 & Hv).
    rewrite Hv. eexists _, _. split; [done|]. done.
  - cbn [b_flags claimed]. change (has B_BUSY B_VALID) with false. cbn [negb whenM].
    erewrite bind_ok by (eapply iderw_read; [by eapply lookup_set_bufs|done..|cbn; lia]).
    eexists _, _. split; [done|]. vcbn. rewrite list_insert_insert_eq.
    destruct (bread_miss s bn h bf Hi Hbn Hb Hh Hrec Hnc) as [H1 H2]. done.
Qed.

(** ** Moving a buffer to the front of the ring *)

Definition strip (bf : buf) : Z * Z * Z * block :=
  (b_flags bf, b_dev bf, b_blockno bf, b_data bf).

(** The same buffers up to the links. *)
Definition same_bufs (bs bs' : list buf) : Prop :=
  length bs = length bs' ∧ (∀ i, strip <$> bs !! i = strip <$> bs' !! i).

#[export] Instance same_bufs_equiv : Equivalence same_bufs.
Proof.
  split.
  - done.
  - intros x y [H1 H2]. by split.
  - intros x y z [H1 H2] [H3 H4]. split; [congruence|]. intros i. by rewrite H2.
Qed.

Definition same_buf (x y : buf) : Prop := strip x = strip y.

Lemma same_body bs bs' : same_bufs bs bs' → Forall2 same_buf (body bs) (body bs').
Proof.
  intros [Hl H]. apply Forall2_same_length_lookup. unfold body. split.
  - rewrite !length_take. lia.
  - intros i x y [Hx _]%lookup_take_Some [Hy _]%lookup_take_Some.
    specialize (H i). rewrite Hx, Hy in H. cbn in H. unfold same_buf. congruence.
Qed.

Section same.
Context (bs bs' : list buf) (Hs : same_bufs bs bs').

Lemma mem_of_same d : mem_of bs d = mem_of bs' d.
Proof.
  extensionality bn. unfold mem_of. induction (same_body _ _ Hs) as [|x y l l' Hxy _ IH]; [done|].
  cbn. unfold same_buf, strip in Hxy. injection Hxy as Hfl Hdv Hbk Hda.
  unfold is_block in *. rewrite Hdv, Hbk. destruct (decide _); [done|].
  destruct (list_find _ l) as [[]|], (list_find _ l') as [[]|]; done.
Qed.

Lemma busy_of_same : busy_of bs = busy_of bs'.
Proof.
  extensionality h. unfold busy_of. pose proof (same_body _ _ Hs) as H.
  rewrite Forall2_lookup in H. destruct (H h) as [x y Hxy|]; [|done].
  injection Hxy as -> _ -> _. done.
Qed.

Lemma pin_of_same : pin_of bs = pin_of bs'.
Proof.
  extensionality bn. unfold pin_of. induction (same_body _ _ Hs) as [|x y l l' Hxy _ IH]; [done|].
  cbn. rewrite IH. unfold same_buf, strip in Hxy. injection Hxy as Hfl Hdv Hbk _.
  unfold is_block. by rewrite Hfl, Hdv, Hbk.
Qed.

Lemma avail_of_same : avail_of bs = avail_of bs'.
Proof.
  unfold avail_of. induction (same_body _ _ Hs) as [|x y l l' Hxy _ IH]; [done|].
  cbn [List.filter]. injection Hxy as Hfl _ _ _.
  replace (recyclable x) with (recyclable y) by (unfold recyclable; by rewrite Hfl).
  destruct (recyclable y); cbn [length]; by rewrite IH.
Qed.

Lemma body_same i b : body bs' !! i = Some b → ∃ b', body bs !! i = Some b' ∧ same_buf b' b.
Proof. intros Hb. by eapply Forall2_lookup_r; [apply same_body|]. Qed.

Lemma unique_same : unique bs → unique bs'.
Proof.
  intros Hu i j bi bj (bi' & Hi & Si)%body_same (bj' & Hj & Sj)%body_same Di Dj Hk.
  injection Si as _ Si1 Si2 _. injection Sj as _ Sj1 Sj2 _. eapply (Hu i j); eauto; congruence.
Qed.

Lemma Forall_same d n : Forall (buf_ok d n) (body bs) → Forall (buf_ok d n) (body bs').
Proof.
  rewrite !Forall_lookup. intros Hf i b (b' & Hb & Sb)%body_same.
  injection Sb as E1 E2 E3 E4. specialize (Hf i b' Hb). unfold buf_ok in *.
  by rewrite E1, E2, E3, E4 in Hf.
Qed.
End same.

(** The concrete state with other links. *)
Definition linked (s s' : bio) (nx pv : nat → nat) : Prop :=
  s' = set_bufs (bufs s') s ∧ same_bufs (bufs s) (bufs s') ∧
  nxf (bufs s') = nx ∧ pvf (bufs s') = pv.

Lemma linked_trans s s1 s2 nx1 pv1 nx2 pv2 :
  linked s s1 nx1 pv1 → linked s1 s2 nx2 pv2 → linked s s2 nx2 pv2.
Proof.
  intros (E1 & S1 & _ & _) (E2 & S2 & N2 & P2). split_and!; try done.
  - rewrite E2. vcbn. rewrite E1. by destruct s.
  - by etrans.
Qed.

Lemma upd_link s k f v (fd : (nat → buf → buf)) :
  (fd = set_next ∧ f = (<[k:=v]> (nxf (bufs s)), pvf (bufs s)) ∨
   fd = set_prev ∧ f = (nxf (bufs s), <[k:=v]> (pvf (bufs s)))) →
  (k < length (bufs s))%nat →
  ∃ s', upd k (fd v) s = Ok tt s' ∧ linked s s' f.1 f.2.
Proof.
  intros Hf Hk. destruct (lookup_lt_is_Some_2 _ _ Hk) as [bf Hb].
  eexists. split; [by eapply upd_ok|]. unfold linked. vcbn. split_and!; [done| | |].
  - split; [by rewrite length_insert|]. intros i. destruct (decide (k = i)) as [<-|Hne].
    + rewrite list_lookup_insert_eq, Hb by done. by destruct Hf as [[-> _]|[-> _]].
    + by rewrite list_lookup_insert_ne.
  - rewrite nxf_insert by done. destruct Hf as [[-> ->]|[-> ->]]; [done|].
    cbn. apply fn_insert_id. unfold nxf. by rewrite Hb.
  - rewrite pvf_insert by done. destruct Hf as [[-> ->]|[-> ->]]; [|done].
    cbn. apply fn_insert_id. unfold pvf. by rewrite Hb.
Qed.

Lemma upd_next s k v : (k < length (bufs s))%nat →
  ∃ s', upd k (set_next v) s = Ok tt s' ∧
    linked s s' (<[k:=v]> (nxf (bufs s))) (pvf (bufs s)).
Proof. intros. eapply (upd_link s k (_, _) v set_next); [by left|done]. Qed.

Lemma upd_prev s k v : (k < length (bufs s))%nat →
  ∃ s', upd k (set_prev v) s = Ok tt s' ∧
    linked s s' (nxf (bufs s)) (<[k:=v]> (pvf (bufs s))).
Proof. intros. eapply (upd_link s k (_, _) v set_prev); [by right|done]. Qed.

Lemma getbuf_links s k : (k < length (bufs s))%nat →
  ∃ bf, getbuf k s = Ok bf s ∧ b_next bf = nxf (bufs s) k ∧ b_prev bf = pvf (bufs s) k.
Proof.
  intros Hk. destruct (lookup_lt_is_Some_2 _ _ Hk) as [bf Hb]. exists bf.
  unfold nxf, pvf. rewrite Hb. split; [by apply getbuf_ok|done].
Qed.

Lemma linked_length s s' nx pv : linked s s' nx pv → length (bufs s') = length (bufs s).
Proof. by intros (_ & [-> _] & _). Qed.

(** Both pointer updates stay inside the ring. *)
Definition order_ok (bs : list buf) (order : list nat) : Prop :=
  length bs = S NBUF ∧ ring (nxf bs) (pvf bs) HEAD order ∧ (∀ i, i ∈ order → (i < NBUF)%nat).

Lemma order_ok_in bs order x : order_ok bs order → x ∈ HEAD :: order →
  (nxf bs x < length bs)%nat ∧ (pvf bs x < length bs)%nat.
Proof.
  intros (Hl & Hr & Ho) Hx. destruct (ring_in _ _ _ _ _ Hr Hx) as [Hn Hp].
  rewrite Hl. rewrite elem_of_cons in Hn, Hp. unfold HEAD in *.
  split; [destruct Hn as [->|Hn]|destruct Hp as [->|Hp]]; try lia;
    [specialize (Ho _ Hn)|specialize (Ho _ Hp)]; lia.
Qed.

Lemma unlink_buf_ok s b l1 l2 : order_ok (bufs s) (l1 ++ b :: l2) →
  ∃ s', unlink_buf b s = Ok tt s' ∧ s' = set_bufs (bufs s') s ∧
    same_bufs (bufs s) (bufs s') ∧ order_ok (bufs s') (l1 ++ l2).
Proof.
  intros Ho. pose proof Ho as (Hl & Hr & Hlt).
  assert (b < NBUF)%nat as Hb by (apply Hlt; set_solver).
  destruct (order_ok_in _ _ b Ho) as [Hn Hp]; [set_solver|].
  pose proof (unlink_ring _ _ _ _ _ _ Hr) as Hr'. unfold unlink in Hr'.
  unfold unlink_buf.
  destruct (getbuf_links s b) as (bf & G1 & N1 & P1); [lia|]. step G1. rewrite N1, P1.
  destruct (upd_prev s (nxf (bufs s) b) (pvf (bufs s) b)) as (s1 & U1 & L1); [done|]. step U1.
  destruct (getbuf_links s1 b) as (bf1 & G2 & N2 & P2); [rewrite (linked_length _ _ _ _ L1); lia|].
  step G2. rewrite N2, P2. pose proof L1 as (_ & _ & Nx & Pv). rewrite Nx, Pv.
  set (k := <[nxf (bufs s) b:=pvf (bufs s) b]> (pvf (bufs s)) b) in *.
  assert (k < length (bufs s))%nat as Hk.
  { unfold k. destruct (decide (nxf (bufs s) b = b)) as [E|E].
    - rewrite E, fn_lookup_insert. lia.
    - by rewrite fn_lookup_insert_ne. }
  destruct (upd_next s1 k (nxf (bufs s) b)) as (s2 & U2 & L2);
    [by rewrite (linked_length _ _ _ _ L1)|].
  exists s2. rewrite Nx, Pv in L2. destruct (linked_trans _ _ _ _ _ _ _ L1 L2) as (E & Sm & Nx2 & Pv2).
  split_and!; try done. split_and!.
  - by rewrite <- (proj1 Sm).
  - by rewrite Nx2, Pv2.
  - intros i Hi. apply Hlt. set_solver.
Qed.

Lemma link_front_ok s b l : order_ok (bufs s) l → (b ∉ l) → (b < NBUF)%nat →
  ∃ s', link_front b s = Ok tt s' ∧ s' = set_bufs (bufs s') s ∧
    same_bufs (bufs s) (bufs s') ∧ order_ok (bufs s') (b :: l).
Proof.
  intros Ho Hbl Hb. pose proof Ho as (Hl & Hr & Hlt).
  assert (b ≠ HEAD) as HbH by (unfold HEAD; lia).
  destruct (order_ok_in _ _ HEAD Ho) as [Hn _]; [set_solver|].
  assert (b ∉ HEAD :: l) as Hnin by set_solver.
  pose proof (push_ring _ _ _ _ _ Hnin Hr) as Hr'. unfold push_front in Hr'.
  unfold link_front.
  destruct (getbuf_links s HEAD) as (hd & G1 & N1 & _); [unfold HEAD; lia|]. step G1. rewrite N1.
  destruct (upd_next s b (nxf (bufs s) HEAD)) as (s1 & U1 & L1); [lia|]. step U1.
  pose proof L1 as (_ & [Len1 _] & Nx1 & Pv1).
  destruct (upd_prev s1 b HEAD) as (s2 & U2 & L2); [lia|]. step U2.
  pose proof L2 as (_ & [Len2 _] & Nx2 & Pv2).
  destruct (getbuf_links s2 HEAD) as (hd2 & G2 & N2 & _); [unfold HEAD in *; lia|]. step G2.
  rewrite N2, Nx2, Nx1. rewrite Nx1 in Nx2. rewrite Pv1 in Pv2.
  assert (<[b:=nxf (bufs s) HEAD]> (nxf (bufs s)) HEAD = nxf (bufs s) HEAD) as Hh
    by (by rewrite fn_lookup_insert_ne).
  rewrite Hh in *.
  destruct (upd_prev s2 (nxf (bufs s) HEAD) b) as (s3 & U3 & L3); [lia|]. step U3.
  pose proof L3 as (_ & [Len3 _] & Nx3 & Pv3).
  destruct (upd_next s3 HEAD b) as (s4 & U4 & L4); [unfold HEAD in *; lia|].
  exists s4. rewrite Nx3, Pv3, Nx2, Pv2 in L4.
  pose proof (linked_trans _ _ _ _ _ _ _ L1
    (linked_trans _ _ _ _ _ _ _ L2 (linked_trans _ _ _ _ _ _ _ L3 L4))) as (E & Sm & NxE & PvE).
  split_and!; try done. split_and!.
  - by rewrite <- (proj1 Sm).
  - by rewrite NxE, PvE.
  - intros i [->|Hi]%elem_of_cons; [done|by apply Hlt].
Qed.

(** ** Operations on a held buffer *)

Lemma busy_inv s h bn : binv s → busy_of (bufs s) h = Some bn →
  ∃ bf, bufs s !! h = Some bf ∧ (h < NBUF)%nat ∧ body (bufs s) !! h = Some bf ∧
    has (b_flags bf) B_BUSY = true ∧ has (b_flags bf) B_VALID = true ∧
    b_dev bf = ROOTDEV ∧ b_blockno bf = bn ∧ 0 ≤ bn < disksize s ∧ length (b_data bf) = BSIZE.
Proof.
  intros (_ & Hf & _ & _) Hb. unfold busy_of in Hb.
  destruct (body (bufs s) !! h) as [bf|] eqn:E; [|done].
  destruct (has (b_flags bf) B_BUSY) eqn:Hbusy; [|done]. simplify_eq.
  destruct (Forall_lookup_1 _ _ _ _ Hf E) as (Hlen & [[H0 _]|(Hv & Hd & Hr & _)]).
  - by rewrite H0 in Hbusy.
  - exists bf. pose proof E as [? ?]%body_lookup. split_and!; try done; lia.
Qed.

Lemma bdata_ok s h bn : binv s → busy_of (bufs s) h = Some bn →
  bdata h s = Ok (v_mem (abs s) bn) s.
Proof.
  intros Hi Hb. destruct (busy_inv s h bn Hi Hb) as (bf & Hbf & _ & Hbb & _ & _ & Hd & <- & _).
  unfold bdata. step (getbuf_ok s h bf Hbf). cbn.
  rewrite (mem_of_lookup _ _ h bf) by (try done; apply Hi). done.
Qed.

Lemma bblockno_ok s h bn : binv s → busy_of (bufs s) h = Some bn → bblockno h s = Ok bn s.
Proof.
  intros Hi Hb. destruct (busy_inv s h bn Hi Hb) as (bf & Hbf & _ & _ & _ & _ & _ & <- & _).
  unfold bblockno. by step (getbuf_ok s h bf Hbf).
Qed.

Lemma bset_ok s h bn d : binv s → busy_of (bufs s) h = Some bn → length d = BSIZE →
  ∃ s', bset h d s = Ok tt s' ∧ binv s' ∧ bio_m s' = bio_m s ∧ disksize s' = disksize s ∧
    abs s' = mkView (<[bn := d]> (v_mem (abs s))) (v_disk (abs s)) (v_busy (abs s))
               (v_pin (abs s)) (v_avail (abs s)) (v_trace (abs s)).
Proof.
  intros Hi Hb Hlen. pose proof Hi as (Hr & Hf & Hu & Hdk).
  destruct (busy_inv s h bn Hi Hb) as (bf & Hbf & Hh & Hbb & HB & HV & Hd & Hk & Hrg & _).
  assert (h < length (bufs s))%nat by eauto using lookup_lt_Some.
  eexists. split; [by eapply upd_ok|]. split_and!; try done.
  - apply (binv_replace s h bf); try done; [|by eapply unique_same_key].
    split; [done|]. right. cbn. subst bn. auto.
  - unfold abs. vcbn.
    rewrite (mem_of_same_key _ _ h bf), (busy_of_insert _ h), (pin_of_same_key _ h bf) by done.
    vcbn. rewrite HB, Hk, (fn_insert_id (busy_of _)) by done.
    rewrite <- Hk, (fn_insert_id (pin_of _)) by (by apply (pin_of_lookup _ h bf)). f_equal.
    pose proof (avail_of_insert (bufs s) h bf (set_data d bf) Hbf Hh) as Ha.
    unfold recyclable in Ha. cbn [b_flags set_data] in Ha. lia.
Qed.

Lemma bdirty_ok s h bn : binv s → busy_of (bufs s) h = Some bn →
  ∃ s', bdirty h s = Ok tt s' ∧ binv s' ∧ bio_m s' = bio_m s ∧ disksize s' = disksize s ∧
    abs s' = mkView (v_mem (abs s)) (v_disk (abs s)) (v_busy (abs s))
               (<[bn := true]> (v_pin (abs s))) (v_avail (abs s)) (v_trace (abs s)).
Proof.
  intros Hi Hb. pose proof Hi as (Hr & Hf & Hu & Hdk).
  destruct (busy_inv s h bn Hi Hb) as (bf & Hbf & Hh & Hbb & HB & HV & Hd & Hk & Hrg & Hlen).
  assert (h < length (bufs s))%nat by eauto using lookup_lt_Some.
  destruct (has_set_dirty (b_flags bf)) as (SD & SB & SV).
  unfold bdirty. step (getbuf_ok s h bf Hbf).
  eexists. split; [by eapply upd_ok|]. split_and!; try done.
  - apply (binv_replace s h bf); try done; [|by eapply unique_same_key].
    split; [done|]. right. cbn. rewrite SV, SB. subst bn. auto.
  - unfold abs. vcbn.
    rewrite (mem_of_same_key _ _ h bf), (busy_of_insert _ h), (pin_of_same_key _ h bf) by done.
    vcbn. rewrite SB, SD, HB, Hk, (fn_insert_id (busy_of _)) by done.
    rewrite (fn_insert_id (mem_of _ _)) by (rewrite <- Hk; by apply (mem_of_lookup _ _ h bf)).
    f_equal.
    pose proof (avail_of_insert (bufs s) h bf (set_flags (setf (b_flags bf) B_DIRTY) bf) Hbf Hh) as Ha.
    unfold recyclable in Ha. cbn [b_flags set_flags] in Ha. rewrite SB, HB in Ha. cbn [negb andb one] in Ha. lia.
Qed.

(** [bwrite] makes the disk block equal to the buffer. *)
Definition write_view (bn : Z) (v : bview) : bview :=
  mkView (v_mem v) (<[bn := v_mem v bn]> (v_disk v)) (v_busy v)
    (<[bn := false]> (v_pin v)) (v_avail v) (v_trace v ++ [(bn, v_mem v bn)]).

Lemma dread_insert d bn x : dread (<[bn:=x]> d) = <[bn:=x]> (dread d).
Proof.
  extensionality k. unfold dread. destruct (decide (bn = k)) as [->|Hne].
  - by rewrite lookup_insert_eq, fn_lookup_insert.
  - by rewrite lookup_insert_ne, fn_lookup_insert_ne.
Qed.

Lemma buf_ok_disk bs d n bn x : unique bs → Forall (buf_ok d n) (body bs) →
  (∃ i bf, body bs !! i = Some bf ∧ b_dev bf = ROOTDEV ∧ b_blockno bf = bn ∧
     has (b_flags bf) B_BUSY = true) →
  Forall (buf_ok (<[bn:=x]> d) n) (body bs).
Proof.
  intros Hu Hf (i & bf & Hi & Hd & Hk & HB). rewrite Forall_lookup in *.
  intros j bj Hj. destruct (Hf j bj Hj) as (Hlen & Hc). split; [done|].
  destruct Hc as [Hc|(HV & Hdj & Hr & Hc)]; [by left|]. right. split_and!; try done; try lia.
  destruct Hc as [Hc|[Hc|Hc]]; auto.
  destruct (decide (b_blockno bj = bn)) as [E|E].
  - left. assert (i = j) as <- by (eapply Hu; eauto; congruence). by rewrite Hi in Hj; simplify_eq.
  - right; right. rewrite dread_insert, fn_lookup_insert_ne by done. done.
Qed.

Lemma bwrite_ok s h bn : binv s → busy_of (bufs s) h = Some bn →
  ∃ s', bwrite h s = Ok tt s' ∧ binv s' ∧ bio_m s' = bio_m s ∧ disksize s' = disksize s ∧
    abs s' = write_view bn (abs s).
Proof.
  intros Hi Hb. pose proof Hi as (Hr & Hf & Hu & Hdk).
  destruct (busy_inv s h bn Hi Hb) as (bf & Hbf & Hh & Hbb & HB & HV & Hd & Hk & Hrg & Hlen).
  assert (h < length (bufs s))%nat by eauto using lookup_lt_Some.
  destruct (has_set_dirty (b_flags bf)) as (SD & SB & SV).
  set (fl := setf (clrf (setf (b_flags bf) B_DIRTY) B_DIRTY) B_VALID).
  assert (has fl B_BUSY = true ∧ has fl B_VALID = true ∧ has fl B_DIRTY = false) as (FB & FV & FD).
  { unfold fl. destruct (has_clr_dirty (setf (b_flags bf) B_DIRTY)) as (C1 & C2 & C3).
    destruct (has_set_valid (clrf (setf (b_flags bf) B_DIRTY) B_DIRTY)) as (V1 & V2 & V3).
    rewrite V1, V2, V3, C1, C2, SB. done. }
  unfold bwrite. step (getbuf_ok s h bf Hbf). rewrite HB. cbn [negb].
  step (upd_ok s h bf (set_flags (setf (b_flags bf) B_DIRTY)) Hbf).
  rewrite (iderw_write _ h (set_flags (setf (b_flags bf) B_DIRTY) bf));
    [|by apply list_lookup_insert_eq|by vcbn; rewrite SB|done|done|vcbn; lia].
  vcbn. rewrite list_insert_insert_eq. fold fl. rewrite Hk.
  set (x := set_flags fl (set_flags (setf (b_flags bf) B_DIRTY) bf)).
  assert (unique (<[h:=x]> (bufs s))) as Hu' by (by eapply unique_same_key).
  assert (body (<[h:=x]> (bufs s)) !! h = Some x) as Hx by (apply body_insert_lookup; auto).
  assert (v_mem (abs s) bn = b_data bf) as Hm by (rewrite <- Hk; by apply (mem_of_lookup _ _ h bf)).
  eexists. split; [done|]. split_and!; try done.
  - unfold binv. vcbn. split_and!; try done.
    + by eapply ring_ok_replace.
    + apply buf_ok_disk; [done| |by exists h, x].
      rewrite body_insert by done. apply Forall_insert; [done|].
      split; [done|]. right. subst bn. auto.
    + intros k. rewrite dread_insert. destruct (decide (bn = k)) as [->|Hne].
      * by rewrite fn_lookup_insert.
      * by rewrite fn_lookup_insert_ne.
  - unfold abs, write_view. vcbn. cbn [abs v_mem] in Hm. rewrite Hm.
    rewrite (mem_of_disk _ _ bn _ h x) by done.
    rewrite (mem_of_same_key _ _ h bf), (busy_of_insert _ h), (pin_of_same_key _ h bf) by done.
    unfold x at 2 3 4. vcbn. rewrite FB, FD, dread_insert, Hk.
    rewrite (fn_insert_id (busy_of _)), (fn_insert_id (mem_of _ _)) by done. f_equal.
    pose proof (avail_of_insert (bufs s) h bf x Hbf Hh) as Ha.
    assert (recyclable x = false) as Rx by (unfold recyclable, x; vcbn; by rewrite FB).
    assert (recyclable bf = false) as Rb by (unfold recyclable; by rewrite HB).
    rewrite Rx, Rb in Ha. lia.
Qed.

(** [brelse] moves the buffer to the front of the ring, whatever its place. *)
Lemma move_front s h : ring_ok (bufs s) → (h < NBUF)%nat →
  ∃ s1 s2, unlink_buf h s = Ok tt s1 ∧ link_front h s1 = Ok tt s2 ∧
    s2 = set_bufs (bufs s2) s ∧ same_bufs (bufs s) (bufs s2) ∧ ring_ok (bufs s2).
Proof.
  intros (Hlen & order & Hring & Hperm) Hh.
  assert (h ∈ order) as (l1 & l2 & ->)%list_elem_of_split
    by (rewrite Hperm; apply elem_of_seq; lia).
  assert (NoDup (l1 ++ h :: l2)) as Hnd by (rewrite Hperm; apply NoDup_seq).
  assert (h ∉ l1 ++ l2) as Hnot.
  { apply NoDup_app in Hnd as (_ & H1 & [H2 _]%NoDup_cons).
    rewrite elem_of_app. intros [H|H]; [|done]. apply (H1 h H). by left. }
  destruct (unlink_buf_ok s h l1 l2) as (s1 & E1 & F1 & S1 & O1).
  { split_and!; try done. intros x Hx. rewrite Hperm in Hx. apply elem_of_seq in Hx. lia. }
  destruct (link_front_ok s1 h (l1 ++ l2)) as (s2 & E2 & F2 & S2 & O2); try done.
  exists s1, s2. split_and!; try done.
  - rewrite F2, F1. done.
  - by etrans.
  - destruct O2 as (L2 & R2 & _). split; [done|]. exists (h :: l1 ++ l2). split; [done|].
    rewrite <- Hperm. apply Permutation_middle.
Qed.

(** The view after [brelse] of handle [h] on block [bn]. *)
Definition close_view (h : nat) (bn : Z) (v : bview) : bview :=
  mkView (v_mem v) (v_disk v) (<[h := None]> (v_busy v)) (v_pin v)
    (if v_pin v bn then v_avail v else S (v_avail v)) (v_trace v).

Lemma clear_busy_ok s h bf : binv s → bufs s !! h = Some bf → (h < NBUF)%nat →
  has (b_flags bf) B_BUSY = true → has (b_flags bf) B_VALID = true → b_dev bf = ROOTDEV →
  has (b_flags bf) B_DIRTY = true ∨ b_data bf = dread (memdisk s) (b_blockno bf) →
  let s' := set_bufs (<[h := set_flags (clrf (b_flags bf) B_BUSY) bf]> (bufs s)) s in
  binv s' ∧ abs s' = close_view h (b_blockno bf) (abs s).
Proof.
  intros Hi Hbf Hh HB HV Hd Hc s'. pose proof Hi as (Hr & Hf & Hu & Hdk).
  assert (body (bufs s) !! h = Some bf) as Hbb by (by apply body_lookup).
  assert (h < length (bufs s))%nat by eauto using lookup_lt_Some.
  destruct (Forall_lookup_1 _ _ _ _ Hf Hbb) as (Hlen & [[H0 _]|(_ & _ & Hrg & _)]);
    [by rewrite H0 in HB|].
  destruct (has_clr_busy (b_flags bf)) as (CB & CD & CV). unfold s'. split.
  - apply (binv_replace s h bf); try done; [|by eapply unique_same_key].
    split; [done|]. right. vcbn. rewrite CV, CD. auto.
  - unfold abs, close_view. vcbn.
    rewrite (mem_of_same_key _ _ h bf), (busy_of_insert _ h), (pin_of_same_key _ h bf) by done.
    vcbn. rewrite CB, CD.
    rewrite (fn_insert_id (mem_of _ _)) by (by apply (mem_of_lookup _ _ h bf)).
    rewrite (fn_insert_id (pin_of _)) by (by apply (pin_of_lookup _ h bf)).
    rewrite (pin_of_lookup _ h bf) by done. f_equal.
    pose proof (avail_of_insert (bufs s) h bf (set_flags (clrf (b_flags bf) B_BUSY) bf) Hbf Hh) as Ha.
    unfold recyclable in Ha. cbn [b_flags set_flags] in Ha. rewrite CB, CD, HB in Ha.
    destruct (has (b_flags bf) B_DIRTY); cbn [negb andb one] in Ha; lia.
Qed.

Lemma same_binv s s' : binv s → same_bufs (bufs s) (bufs s') → ring_ok (bufs s') →
  memdisk s' = memdisk s → disksize s' = disksize s → dtrace s' = dtrace s →
  binv s' ∧ abs s' = abs s.
Proof.
  intros (_ & Hf & Hu & Hdk) Hs Hr Ed En Et. unfold binv, abs. rewrite Ed, En, Et. split.
  - split_and!; try done; [by eapply Forall_same|by eapply unique_same].
  - f_equal; symmetry; [by apply mem_of_same|by apply busy_of_same|by apply pin_of_same
      |by apply avail_of_same].
Qed.

Lemma brelse_ok s h bn : binv s → bquiet s → busy_of (bufs s) h = Some bn →
  v_pin (abs s) bn = true ∨ v_mem (abs s) bn = v_disk (abs s) bn →
  ∃ s', brelse h s = Ok tt s' ∧ binv s' ∧
    bio_m s' = set_ptable (wake (buf_chan h) <$> ptable (bio_m s)) (bio_m s) ∧
    disksize s' = disksize s ∧ abs s' = close_view h bn (abs s).
Proof.
  intros Hi Hq Hb Hc. pose proof Hq as (Hm & Hl & Hp).
  destruct (busy_inv s h bn Hi Hb) as (bf & Hbf & Hh & Hbb & HB & HV & Hd & Hk & Hrg & Hlen).
  unfold brelse. step (getbuf_ok s h bf Hbf). rewrite HB. cbn [negb].
  step (bio_acquire s Hq). set (s0 := set_m _ s).
  destruct (move_front s0 h) as (s1 & s2 & E1 & E2 & F2 & S2 & R2); [apply Hi|done|].
  step E1. step E2.
  assert (∃ bf2, bufs s2 !! h = Some bf2 ∧ strip bf = strip bf2) as (bf2 & Hbf2 & Hst).
  { destruct S2 as [_ S2]. specialize (S2 h). unfold s0 in S2. cbn [bufs set_m] in S2.
    rewrite Hbf in S2. cbn in S2. destruct (bufs s2 !! h) as [b2|]; [|done].
    exists b2. cbn in S2. split; congruence. }
  injection Hst as Hfl Hdv Hbk Hdt.
  destruct (same_binv s s2) as [Hi2 Ha2]; try done; try (by rewrite F2).
  step (getbuf_ok s2 h bf2 Hbf2). step (upd_ok s2 h bf2 (set_flags (clrf (b_flags bf2) B_BUSY)) Hbf2).
  destruct (clear_busy_ok s2 h bf2) as [Hi3 Ha3]; try done; try congruence.
  { rewrite <- Hfl, <- Hdt, <- Hbk. destruct Hc as [Hc|Hc].
    - left. change (pin_of (bufs s) bn = true) in Hc. rewrite <- Hk in Hc. by rewrite (pin_of_lookup _ h bf) in Hc by (done || apply Hi).
    - right. change (mem_of (bufs s) (memdisk s) bn = dread (memdisk s) bn) in Hc. rewrite <- Hk, (mem_of_lookup _ _ h bf) in Hc by (done || apply Hi).
      rewrite Hc. by rewrite F2. }
  set (s3 := set_bufs _ s2) in *.
  assert (bio_m s3 = mlocked L_bcache (bio_m s)) as Hm3 by (unfold s3; rewrite F2; done).
  erewrite bind_ok.
  2:{ apply lift_ok. rewrite Hm3. apply wakeup_ok; [by apply mok_mlocked|by apply lfree_mlocked]. }
  erewrite lift_ok.
  2:{ cbn [bio_m set_m]. by apply unlock_ok. }
  eexists. split; [done|]. split_and!.
  - exact Hi3.
  - done.
  - unfold s3. by rewrite F2.
  - rewrite <- Ha2, <- Hk, Hbk. exact Ha3.
Qed.

(** ** Boot *)

(** The buffers as the loader leaves them: zeroed memory. *)
Definition boot_bufs : list buf := replicate (S NBUF) (mkBuf 0 0 0 0 0 zero_block).

(** The buffers below [k] are initialised and threaded on the ring. *)
Definition binit_upto (k : nat) (bs : list buf) : Prop :=
  (∃ l, order_ok bs l ∧ l ≡ₚ seq 0 k) ∧
  (∀ i bf, bs !! i = Some bf → b_flags bf = 0 ∧ length (b_data bf) = BSIZE ∧
     ((i < k)%nat → b_dev bf = NODEV)).

Lemma same_lookup bs bs' i bf : same_bufs bs bs' → bs' !! i = Some bf →
  ∃ bf', bs !! i = Some bf' ∧ same_buf bf' bf.
Proof.
  intros [_ H] Hi. specialize (H i). rewrite Hi in H.
  destruct (bs !! i) as [b|]; [|done]. exists b. split; [done|]. unfold same_buf. cbn in H. congruence.
Qed.

Lemma order_ok_set_dev bs b bf l : bs !! b = Some bf → order_ok bs l →
  order_ok (<[b := set_dev NODEV bf]> bs) l.
Proof.
  intros Hb (Hl & Hr & Hlt). split_and!; [by rewrite length_insert| |done].
  assert (b < length bs)%nat by eauto using lookup_lt_Some.
  rewrite nxf_insert, pvf_insert by done.
  rewrite !fn_insert_id; [done| |]; unfold nxf, pvf; by rewrite Hb.
Qed.

Lemma binit_step s k : (k < NBUF)%nat → binit_upto k (bufs s) →
  ∃ s', (upd k (set_dev NODEV) ;;; link_front k) s = Ok tt s' ∧
    s' = set_bufs (bufs s') s ∧ binit_upto (S k) (bufs s').
Proof.
  intros Hk ((l & Ho & Hp) & Hbs). pose proof Ho as (Hlen & _ & _).
  destruct (lookup_lt_is_Some_2 (bufs s) k) as [bf Hbf]; [lia|].
  step (upd_ok s k bf (set_dev NODEV) Hbf). set (s1 := set_bufs _ s).
  destruct (link_front_ok s1 k l) as (s2 & E & F & Sm & O); try done.
  { by apply order_ok_set_dev. }
  { rewrite Hp, elem_of_seq. lia. }
  exists s2. split_and!; [done|by rewrite F|]. split.
  - exists (k :: l). split; [done|]. rewrite Hp, seq_S. cbn. apply Permutation_cons_append.
  - intros i bi Hi. destruct (same_lookup _ _ i bi Sm Hi) as (b' & Hb' & Hsame).
    injection Hsame as Ef Ed _ Edata. rewrite <- Ef, <- Ed, <- Edata. unfold s1 in Hb'. cbn in Hb'.
    destruct (decide (i = k)) as [->|Hne].
    + rewrite list_lookup_insert_eq in Hb' by lia. simplify_eq. cbn.
      destruct (Hbs k bf Hbf) as (? & ? & _). done.
    + rewrite list_lookup_insert_ne in Hb' by done. destruct (Hbs i b' Hb') as (? & ? & Hd).
      split_and!; try done. intros. apply Hd. lia.
Qed.

Lemma binit_loop n k s : (k + n)%nat = NBUF → binit_upto k (bufs s) →
  ∃ s', for_all (seq k n) (λ b, upd b (set_dev NODEV) ;;; link_front b) s = Ok tt s' ∧
    s' = set_bufs (bufs s') s ∧ binit_upto NBUF (bufs s').
Proof.
  revert k s. induction n as [|n IH]; intros k s Hn Hu.
  - exists s. replace NBUF with k by lia. split_and!; [done|by destruct s|done].
  - cbn [seq for_all]. destruct (binit_step s k) as (s1 & E1 & F1 & U1); [lia|done|]. step E1.
    destruct (IH (S k) s1) as (s2 & E2 & F2 & U2); [lia|done|].
    exists s2. split_and!; [done|by rewrite F2, F1|done].
Qed.

Lemma none_of_body bs bf i : binit_upto NBUF bs → body bs !! i = Some bf →
  b_flags bf = 0 ∧ b_dev bf = NODEV ∧ length (b_data bf) = BSIZE.
Proof. intros (_ & H) [Hlt Hi]%body_lookup. destruct (H i bf Hi) as (? & ? & Hd). auto. Qed.

Lemma empty_view s : binit_upto NBUF (bufs s) →
  (∀ bn, length (dread (memdisk s) bn) = BSIZE) →
  binv s ∧ abs s = mkView (dread (memdisk s)) (dread (memdisk s)) (λ _, None) (λ _, false)
                     NBUF (dtrace s).
Proof.
  intros Hu Hd. pose proof Hu as ((l & (Hlen & Hr & _) & Hp) & _).
  assert (∀ i bf, body (bufs s) !! i = Some bf →
    b_flags bf = 0 ∧ b_dev bf = NODEV ∧ length (b_data bf) = BSIZE) as Hall
    by (intros; by eapply none_of_body).
  split.
  - split_and!; try done; [split; [done|by exists l]| |].
    + apply Forall_lookup. intros i bf (? & ? & ?)%Hall. split; auto.
    + intros i j bf bf' (_ & E & _)%Hall _ E'. by rewrite E in E'.
  - unfold abs. f_equal.
    + extensionality bn. apply mem_of_none. intros i bf (_ & E & _)%Hall. rewrite E. by intros [? _].
    + extensionality h. unfold busy_of. destruct (body (bufs s) !! h) eqn:E; [|done].
      apply Hall in E as (-> & _). done.
    + extensionality bn. destruct (pin_of (bufs s) bn) eqn:E; [|done].
      apply pin_of_true in E as (i & bi & (_ & Hx & _)%Hall & Di & _). by rewrite Hx in Di.
    + unfold avail_of. rewrite (List.forallb_filter_id recyclable).
      { unfold body. rewrite length_take, Hlen. lia. }
      apply forallb_forall. intros bf [i Hi]%list_elem_of_In%list_elem_of_lookup_1.
      apply Hall in Hi as (E & _). unfold recyclable. by rewrite E.
Qed.

(** [binit] on zeroed memory builds the ring with every buffer free. *)
Lemma binit_ok s : bufs s = boot_bufs → (∀ bn, length (dread (memdisk s) bn) = BSIZE) →
  ∃ s', binit s = Ok tt s' ∧ binv s' ∧ bio_m s' = set_smp (set_lock L_bcache free_lock (m_smp (bio_m s))) (bio_m s) ∧
    disksize s' = disksize s ∧
    abs s' = mkView (dread (memdisk s)) (dread (memdisk s)) (λ _, None) (λ _, false) NBUF (dtrace s).
Proof.
  intros Hb Hd. unfold binit. unfold initlock.
  erewrite bind_ok; [|by apply lift_ok, lift_ok].
  erewrite bind_ok; [|by apply upd_ok; vcbn; rewrite Hb].
  erewrite bind_ok; [|by apply upd_ok; vcbn; rewrite Hb]. vcbn.
  match goal with |- context [for_all _ _ ?st] => set (s0 := st) end.
  destruct (binit_loop NBUF 0 s0) as (s1 & E & F & U); [done| |].
  { split.
    - exists []. split; [|done]. unfold s0. vcbn. rewrite Hb. split_and!; [done| |set_solver].
      split; [apply NoDup_singleton|]. done.
    - intros i bf Hi. split_and!; [| |lia].
      + unfold s0 in Hi. vcbn. rewrite Hb in Hi. cbn [bufs set_bufs] in Hi.
        rewrite list_insert_insert_eq in Hi. apply list_lookup_insert_Some in Hi as [(_ & <- & _)|(_ & Hi)]; [done|].
        apply lookup_replicate in Hi as [-> _]. done.
      + unfold s0 in Hi. vcbn. rewrite Hb in Hi. cbn [bufs set_bufs] in Hi.
        rewrite list_insert_insert_eq in Hi. apply list_lookup_insert_Some in Hi as [(_ & <- & _)|(_ & Hi)]; [done|].
        apply lookup_replicate in Hi as [-> _]. done. }
  exists s1. destruct (empty_view s1 U) as [Hi Ha]; [by rewrite F|].
  split_and!; try done; try (by rewrite F). rewrite Ha. by rewrite F.
Qed.
