(* ===== verification/Ide.v ===== *)
(** * The IDE disk driver (kernel/ide.c)

    A kernel built without MEMFS links ide.c in place of memide.c.  The state
    adds to the machine and the buffers the queue of requests, threaded through
    [qnext], and the controller.  The controller is hardware: the class [Ata]
    has its port operations, and [AtaLaws] what the driver relies on, in terms
    of the registers that address a sector, of the last command and of the
    sectors of the two drives.  [idewait] spins until the drive is ready;
    [polls] bounds the number of reads of the status register that takes.
    A call that sleeps stops with [Switch] and [iderw_resume] is the rest of it.

    The driver is shown to be a queue of requests each of which has, when it is
    served, the effect of [iderw] of memide.c. *)

From S2P Require Import Prelude Bytes Spinlock Sched Dll Bio BioSpec.
From Stdlib Require Import FunctionalExtensionality.

Module Ide.

Definition SECTOR_SIZE : Z := 512.
Definition IDE_BSY : Z := 0x80.
Definition IDE_DRDY : Z := 0x40.
Definition IDE_DF : Z := 0x20.
Definition IDE_ERR : Z := 0x01.
Definition IDE_CMD_READ : Z := 0x20.
Definition IDE_CMD_WRITE : Z := 0x30.
Definition FSSIZE : Z := 1000.

(** Reading and writing the ports of the controller; [insl] and [outsl] move
    32-bit words, as bytes. *)
Class Ata (D : Type) := {
  inb : Z → D → Z * D;
  outb : Z → Z → D → D;
  insl : Z → nat → D → list Z * D;
  outsl : Z → list Z → D → D
}.

Record ide (D : Type) := mkIde {
  id_m : mach;
  id_bufs : list buf;
  idequeue : option nat;
  qnext : nat → option nat;
  havedisk1 : bool;
  id_dev : D
}.
Arguments mkIde {D}.
Arguments id_m {D}.
Arguments id_bufs {D}.
Arguments idequeue {D}.
Arguments qnext {D}.
Arguments havedisk1 {D}.
Arguments id_dev {D}.

Definition L_ide : lockid := ("ide", 0).

Section code.
Context {D : Type} `{Ata D} (polls : nat).

Definition set_idm (x : mach) (s : ide D) : ide D :=
  mkIde x (id_bufs s) (idequeue s) (qnext s) (havedisk1 s) (id_dev s).
Definition set_ibufs (x : list buf) (s : ide D) : ide D :=
  mkIde (id_m s) x (idequeue s) (qnext s) (havedisk1 s) (id_dev s).
Definition set_queue (x : option nat) (s : ide D) : ide D :=
  mkIde (id_m s) (id_bufs s) x (qnext s) (havedisk1 s) (id_dev s).
Definition set_qnext (b : nat) (x : option nat) (s : ide D) : ide D :=
  mkIde (id_m s) (id_bufs s) (idequeue s) (<[b := x]> (qnext s)) (havedisk1 s) (id_dev s).
Definition set_have (x : bool) (s : ide D) : ide D :=
  mkIde (id_m s) (id_bufs s) (idequeue s) (qnext s) x (id_dev s).
Definition set_dev (x : D) (s : ide D) : ide D :=
  mkIde (id_m s) (id_bufs s) (idequeue s) (qnext s) (havedisk1 s) x.

Abbreviation idM := (lift id_m set_idm).

Definition ibuf (b : nat) : M (ide D) buf := s ← get; need (id_bufs s !! b).
Definition iupd (b : nat) (f : buf → buf) : M (ide D) unit :=
  s ← get;
  match id_bufs s !! b with
  | Some _ => put (set_ibufs (alter f b (id_bufs s)) s)
  | None => halt Undef
  end.

Definition pin (port : Z) : M (ide D) Z :=
  s ← get; let '(v, d) := inb port (id_dev s) in put (set_dev d s) ;;; ret v.
Definition pout (port v : Z) : M (ide D) unit := modify (λ s, set_dev (outb port v (id_dev s)) s).

Definition poll (_ : unit) : M (ide D) (unit + Z) :=
  r ← pin 0x1f7;
  if Z.land r (Z.lor IDE_BSY IDE_DRDY) =? IDE_DRDY then ret (inr r) else ret (inl tt).

Definition idewait (checkerr : bool) : M (ide D) Z :=
  r ← loopM polls poll tt;
  if checkerr && negb (Z.land r (Z.lor IDE_DF IDE_ERR) =? 0) then ret (-1) else ret 0.

(** Routing the interrupt ([picenable], [ioapicenable]) is left out. *)
Definition ideinit : M (ide D) unit :=
  idM (smpM (initlock L_ide)) ;;;
  idewait false ;;;
  pout 0x1f6 (Z.lor 0xe0 (Z.shiftl 1 4)) ;;;
  for_each (seq 0 1000) (λ _,
    r ← pin 0x1f7;
    if negb (r =? 0) then modify (set_have true) ;;; ret (Some tt) else ret None) ;;;
  pout 0x1f6 (Z.lor 0xe0 (Z.shiftl 0 4)).

Definition idestart (o : option nat) : M (ide D) unit :=
  match o with
  | None => panic "idestart"
  | Some b =>
      bf ← ibuf b;
      if FSSIZE <=? b_blockno bf then panic "incorrect blockno" else
      let sector_per_block := Z.of_nat BSIZE / SECTOR_SIZE in
      let sector := i32 (b_blockno bf * sector_per_block) in
      if 7 <? sector_per_block then panic "idestart" else
      idewait false ;;;
      pout 0x3f6 0 ;;;
      pout 0x1f2 sector_per_block ;;;
      pout 0x1f3 (Z.land sector 0xff) ;;;
      pout 0x1f4 (Z.land (Z.shiftr sector 8) 0xff) ;;;
      pout 0x1f5 (Z.land (Z.shiftr sector 16) 0xff) ;;;
      pout 0x1f6 (Z.lor (Z.lor 0xe0 (Z.shiftl (Z.land (b_dev bf) 1) 4)) (Z.land (Z.shiftr sector 24) 0x0f)) ;;;
      if has (b_flags bf) B_DIRTY then
        pout 0x1f7 IDE_CMD_WRITE ;;;
        modify (λ s, set_dev (outsl 0x1f0 (b_data bf) (id_dev s)) s)
      else pout 0x1f7 IDE_CMD_READ
  end.

Definition ideintr : M (ide D) unit :=
  idM (smpM (acquire L_ide)) ;;;
  s ← get;
  match idequeue s with
  | None => idM (smpM (release L_ide))
  | Some b =>
      modify (set_queue (qnext s b)) ;;;
      bf ← ibuf b;
      (if negb (has (b_flags bf) B_DIRTY) then
         r ← idewait true;
         whenM (0 <=? r) (
           s ← get;
           let '(l, d) := insl 0x1f0 (BSIZE / 4)%nat (id_dev s) in
           put (set_dev d s) ;;;
           iupd b (set_data l))
       else ret tt) ;;;
      iupd b (λ bf, set_flags (setf (b_flags bf) B_VALID) bf) ;;;
      iupd b (λ bf, set_flags (clrf (b_flags bf) B_DIRTY) bf) ;;;
      idM (wakeup (buf_chan b)) ;;;
      s ← get;
      whenM (bool_decide (idequeue s ≠ None)) (idestart (idequeue s)) ;;;
      idM (smpM (release L_ide))
  end.

(** A [struct buf **]: the queue or the [qnext] of a buffer. *)
Definition deref (pp : option nat) : M (ide D) (option nat) :=
  s ← get; ret (match pp with None => idequeue s | Some c => qnext s c end).
Definition last_link : M (ide D) (option nat) :=
  loopM (S NBUF) (λ pp, v ← deref pp; match v with None => ret (inr pp) | Some c => ret (inl (Some c)) end) None.

(** The [while] loop with [idelock] held; a turn that sleeps does not return. *)
Definition iderw_wait (b : nat) : M (ide D) unit :=
  loopM 1 (λ _ : unit,
    bf ← ibuf b;
    if negb (Z.land (b_flags bf) (Z.lor B_VALID B_DIRTY) =? B_VALID)
    then idM (sleep (buf_chan b) L_ide) ;;; ret (inl tt)
    else ret (inr tt)) tt ;;;
  idM (smpM (release L_ide)).

Definition iderw (b : nat) : M (ide D) unit :=
  bf ← ibuf b;
  if negb (has (b_flags bf) B_BUSY) then panic "iderw: buf not busy" else
  if Z.land (b_flags bf) (Z.lor B_VALID B_DIRTY) =? B_VALID then panic "iderw: nothing to do" else
  s ← get;
  if negb (b_dev bf =? 0) && negb (havedisk1 s) then panic "iderw: ide disk 1 not present" else
  idM (smpM (acquire L_ide)) ;;;
  modify (set_qnext b None) ;;;
  pp ← last_link;
  modify (match pp with None => set_queue (Some b) | Some c => set_qnext c (Some b) end) ;;;
  s ← get;
  whenM (bool_decide (idequeue s = Some b)) (idestart (Some b)) ;;;
  iderw_wait b.

Definition iderw_resume (intena : bool) (b : nat) : M (ide D) unit :=
  idM (sleep_resume intena L_ide) ;;; iderw_wait b.
End code.

(** ** What the driver relies on *)

(** The sector and the drive that the registers address. *)
Definition lba (r : Z → Z) : Z :=
  r 0x1f3 + 2 ^ 8 * r 0x1f4 + 2 ^ 16 * r 0x1f5 + 2 ^ 24 * Z.land (r 0x1f6) 0x0f.
Definition drive (r : Z → Z) : Z := Z.land (Z.shiftr (r 0x1f6) 4) 1.

(** Within [n] reads of the status register the drive is ready, without an error. *)
Fixpoint ready {D} `{Ata D} (n : nat) (d : D) : Prop :=
  match n with
  | O => False
  | S k => let '(r, d') := inb 0x1f7 d in
      if Z.land r (Z.lor IDE_BSY IDE_DRDY) =? IDE_DRDY then Z.land r (Z.lor IDE_DF IDE_ERR) = 0 else ready k d'
  end.

(** The documented behaviour of a controller in programmed I/O mode, for
    commands of one sector and drives that do not fail. *)
Class AtaLaws (D : Type) `{Ata D} (polls : nat) := {
  regs : D → Z → Z;
  command : D → option Z;
  sectors : D → Z → Z → list Z;
  ata_ready d : ready polls d;
  ata_inb p d : regs (inb p d).2 = regs d ∧ command (inb p d).2 = command d ∧ sectors (inb p d).2 = sectors d;
  ata_control v d : regs (outb 0x3f6 v d) = regs d ∧ sectors (outb 0x3f6 v d) = sectors d;
  ata_reg p v d : 0x1f2 ≤ p ≤ 0x1f6 →
    regs (outb p v d) = <[p := v]> (regs d) ∧ sectors (outb p v d) = sectors d;
  ata_command c d : regs (outb 0x1f7 c d) = regs d ∧ command (outb 0x1f7 c d) = Some c ∧
    sectors (outb 0x1f7 c d) = sectors d;
  ata_outsl l d : command d = Some IDE_CMD_WRITE → regs d 0x1f2 = 1 → length l = Z.to_nat SECTOR_SIZE →
    sectors (outsl 0x1f0 l d) =
      <[drive (regs d) := <[lba (regs d) := l]> (sectors d (drive (regs d)))]> (sectors d);
  ata_insl d : command d = Some IDE_CMD_READ → regs d 0x1f2 = 1 →
    (insl 0x1f0 128%nat d).1 = sectors d (drive (regs d)) (lba (regs d)) ∧
    sectors (insl 0x1f0 128%nat d).2 = sectors d
}.

Section spec.
Context {D : Type} `{Ata D} (polls : nat) `{!AtaLaws D polls}.
Implicit Types (s : ide D) (d : D) (t : bio) (q : list nat).
Abbreviation idM := (lift id_m set_idm).

(** ** The controller *)

Definition same d d' : Prop := regs d' = regs d ∧ command d' = command d ∧ sectors d' = sectors d.

Lemma same_refl d : same d d.
Proof. done. Qed.

Lemma poll_run n d s : ready n d →
  ∃ r d', loopM n poll tt (set_dev d s) = Ok r (set_dev d' s) ∧ same d d' ∧ Z.land r (Z.lor IDE_DF IDE_ERR) = 0.
Proof.
  revert d. induction n as [|n IH]; intros d Hr; [done|]. cbn [ready] in Hr. cbn [loopM].
  pose proof (ata_inb 0x1f7 d) as Hs. destruct (inb 0x1f7 d) as [r d1] eqn:E. cbn [snd] in Hs.
  assert (poll tt (set_dev d s) = Ok (if Z.land r (Z.lor IDE_BSY IDE_DRDY) =? IDE_DRDY then inr r else inl tt)
    (set_dev d1 s)) as Ep.
  { unfold poll, pin. go. cbn [id_dev set_dev]. rewrite E. by destruct (_ =? _). }
  step Ep. destruct (_ =? _); [by exists r, d1|].
  destruct (IH d1 Hr) as (r' & d2 & E2 & (S1 & S2 & S3) & Hz). destruct Hs as (T1 & T2 & T3).
  exists r', d2. split; [done|]. split; [|done]. unfold same. by rewrite S1, S2, S3.
Qed.

Lemma idewait_run e s : ∃ d, idewait polls e s = Ok 0 (set_dev d s) ∧ same (id_dev s) d.
Proof.
  destruct (poll_run polls (id_dev s) s (ata_ready _)) as (r & d & E & Hs & Hz). exists d. split; [|done].
  unfold idewait. assert (set_dev (id_dev s) s = s) as Es by (by destruct s). rewrite Es in E. step E.
  rewrite Hz. cbn. by rewrite andb_false_r.
Qed.

(** A request that waits for the disk. *)
Definition todo (bf : buf) : Prop :=
  has (b_flags bf) B_BUSY = true ∧ Z.land (b_flags bf) (Z.lor B_VALID B_DIRTY) ≠ B_VALID ∧
  b_dev bf = 1 ∧ 0 ≤ b_blockno bf < FSSIZE ∧ length (b_data bf) = BSIZE.

Definition idle d (md : gmap Z block) : Prop := ∀ n, 0 ≤ n < FSSIZE → sectors d 1 n = dread md n.

(** The controller works on the request [bf]; the data of a write is on the disk. *)
Definition started d (bf : buf) (md : gmap Z block) : Prop :=
  (∀ n, 0 ≤ n < FSSIZE →
     sectors d 1 n = if has (b_flags bf) B_DIRTY && (n =? b_blockno bf) then b_data bf else dread md n) ∧
  (has (b_flags bf) B_DIRTY = false →
     command d = Some IDE_CMD_READ ∧ regs d 0x1f2 = 1 ∧ drive (regs d) = 1 ∧ lba (regs d) = b_blockno bf).

Lemma pout_run p v s : pout p v s = Ok tt (set_dev (outb p v (id_dev s)) s).
Proof. done. Qed.

(** The registers [idestart] has written for sector [n] of drive 1. *)
Definition addressed d d' (n : Z) : Prop :=
  regs d' 0x1f2 = 1 ∧ lba (regs d') = n ∧ drive (regs d') = 1 ∧ sectors d' = sectors d.

Lemma address_bytes (r : Z → Z) (n : Z) : 0 ≤ n < FSSIZE →
  r 0x1f3 = Z.land n 0xff → r 0x1f4 = Z.land (Z.shiftr n 8) 0xff → r 0x1f5 = Z.land (Z.shiftr n 16) 0xff →
  r 0x1f6 = Z.lor (Z.lor 0xe0 (Z.shiftl (Z.land 1 1) 4)) (Z.land (Z.shiftr n 24) 0x0f) →
  lba r = n ∧ drive r = 1.
Proof.
  intros Hn H3 H4 H5 H6. unfold FSSIZE in Hn. unfold lba, drive. rewrite H3, H4, H5, H6.
  change 0xff with (Z.ones 8). change 0x0f with (Z.ones 4). rewrite !Z.land_ones, !Z.shiftr_div_pow2 by lia.
  rewrite (Z.div_small n (2 ^ 24)), (Z.div_small n (2 ^ 16)) by lia. rewrite (Z.mod_small (n / 2 ^ 8)).
  - change (0 mod 2 ^ 4) with 0. change (0 mod 2 ^ 8) with 0. pose proof (Z.div_mod n (2 ^ 8)). split; [|done].
    change (Z.lor (Z.lor 224 (Z.shiftl (Z.land 1 1) 4)) 0 mod 2 ^ 4) with 0. lia.
  - split; [apply Z.div_pos; lia|apply Z.div_lt_upper_bound; lia].
Qed.

Definition address (dev sector : Z) (d : D) : D :=
  outb 0x1f6 (Z.lor (Z.lor 0xe0 (Z.shiftl (Z.land dev 1) 4)) (Z.land (Z.shiftr sector 24) 0x0f))
    (outb 0x1f5 (Z.land (Z.shiftr sector 16) 0xff) (outb 0x1f4 (Z.land (Z.shiftr sector 8) 0xff)
      (outb 0x1f3 (Z.land sector 0xff) (outb 0x1f2 1 (outb 0x3f6 0 d))))).

Lemma address_run d n : 0 ≤ n < FSSIZE → addressed d (address 1 n d) n.
Proof.
  intros Hn. unfold addressed, address.
  repeat match goal with
    | |- context [regs (outb ?p ?v ?x)] =>
        let R := fresh in first [destruct (ata_reg p v x ltac:(lia)) as [R ?] | destruct (ata_control v x) as [R ?]]; rewrite R
    end.
  split; [by inserts|]. split; [|split]; [| |congruence].
  all: apply (address_bytes _ n Hn); by inserts.
Qed.

Lemma idestart_run s b bf md : id_bufs s !! b = Some bf → todo bf → idle (id_dev s) md →
  ∃ d, idestart polls (Some b) s = Ok tt (set_dev d s) ∧ started d bf md.
Proof.
  intros Hb (_ & _ & Hdev & Hn & Hl) Hi. unfold idestart.
  assert (ibuf b s = Ok bf s) as Eb by (unfold ibuf; go; by rewrite Hb). step Eb.
  rewrite (proj2 (Z.leb_gt _ _)) by lia. change (Z.of_nat BSIZE / SECTOR_SIZE) with 1. cbn [Z.ltb Z.compare].
  rewrite Z.mul_1_r, swrap_small by (unfold FSSIZE in Hn; lia). destruct (idewait_run false s) as (d0 & E0 & S0). change (7 <? 1) with false. cbn iota. step E0.
  rewrite !(bind_ok _ _ _ _ _ (pout_run _ _ _)). cbn [id_dev set_dev].
  fold (address (b_dev bf) (b_blockno bf) d0). rewrite Hdev.
  destruct (address_run d0 (b_blockno bf) Hn) as (R2 & RL & RD & RS). set (d1 := address 1 (b_blockno bf) d0) in *.
  destruct S0 as (_ & _ & S0). destruct (ata_command IDE_CMD_READ d1) as (C1 & C2 & C3).
  destruct (ata_command IDE_CMD_WRITE d1) as (W1 & W2 & W3).
  destruct (has (b_flags bf) B_DIRTY) eqn:Ed.
  - eexists. split; [reflexivity|]. cbn [id_dev set_dev]. split; [|by rewrite Ed]. intros n Hn'. rewrite Ed. cbn [andb].
    rewrite ata_outsl; [|done|by rewrite W1|done]. rewrite W1, RD, RL, fn_lookup_insert, W3, RS, S0.
    destruct (Z.eqb_spec n (b_blockno bf)) as [->|Hne]; [by rewrite fn_lookup_insert|].
    rewrite fn_lookup_insert_ne by done. by apply Hi.
  - eexists. split; [reflexivity|]. cbn [id_dev set_dev]. split; [|by rewrite C1].
    intros n Hn'. rewrite Ed. cbn [andb]. rewrite C3, RS, S0. by apply Hi.
Qed.

(** ** The queue *)

Fixpoint chain (nx : nat → option nat) (o : option nat) q : Prop :=
  match q with
  | [] => o = None
  | b :: q' => o = Some b ∧ chain nx (nx b) q'
  end.

Lemma chain_ext nx nx' o q : (∀ b, b ∈ q → nx' b = nx b) → chain nx o q → chain nx' o q.
Proof.
  revert o. induction q as [|b q IH]; intros o He Hc; [done|]. destruct Hc as [-> Hc]. split; [done|].
  rewrite He by set_solver. apply IH; [set_solver|done].
Qed.

(** The pointer to the end of the queue, and the queue with a request appended there. *)
Definition end_of (pp : option nat) q : option nat := match last q with Some c => Some c | None => pp end.

Lemma chain_snoc nx o q b : chain nx o q → b ∉ q → NoDup q →
  let nx' := match end_of None q with None => <[b := None]> nx | Some c => <[c := Some b]> (<[b := None]> nx) end in
  chain nx' (match end_of None q with None => Some b | Some _ => o end) (q ++ [b]).
Proof.
  intros Hc Hb Hd. destruct q as [|c q _] using rev_ind.
  { cbn. split; [done|]. by rewrite fn_lookup_insert. }
  unfold end_of. rewrite last_snoc. revert o Hc. apply NoDup_app in Hd as (Hd1 & Hd2 & _).
  induction q as [|a q IH]; intros o Hc.
  - destruct Hc as [-> Hc]. cbn in *. split; [done|]. rewrite fn_lookup_insert. split; [done|].
    rewrite fn_lookup_insert_ne, fn_lookup_insert by set_solver. done.
  - destruct Hc as [-> Hc]. split; [done|].
    rewrite !fn_lookup_insert_ne by (intros ->; set_solver).
    apply NoDup_cons in Hd1 as [_ Hd1]. apply IH; [set_solver|done|set_solver|done].
Qed.

Lemma last_link_run fuel s pp q : chain (qnext s) (match pp with None => idequeue s | Some c => qnext s c end) q →
  (length q < fuel)%nat →
  loopM fuel (λ pp, v ← deref pp; match v with None => ret (inr pp) | Some c => ret (inl (Some c)) end) pp s =
    Ok (end_of pp q) s.
Proof.
  revert fuel pp. induction q as [|b q IH]; intros [|fuel] pp Hc Hf; cbn [length] in Hf; try lia; cbn [chain] in Hc; cbn [loopM].
  - rewrite (bind_ok _ _ s (inr pp) s); [done|]. unfold deref. go. by rewrite Hc.
  - destruct Hc as [E Hc]. rewrite (bind_ok _ _ s (inl (Some b)) s).
    + rewrite (IH fuel (Some b)) by (done || lia). unfold end_of. destruct q as [|c q]; [done|].
      change (b :: c :: q) with ([b] ++ c :: q). rewrite last_app. by destruct (last (c :: q)) eqn:El; [|apply last_None in El].
    + unfold deref. go. by rewrite E.
Qed.

(** ** The simulation *)

Definition requested s (b : nat) : Prop := ∃ bf, id_bufs s !! b = Some bf ∧ todo bf.
Definition working s q (md : gmap Z block) : Prop :=
  match q with
  | [] => idle (id_dev s) md
  | b :: _ => ∃ bf, id_bufs s !! b = Some bf ∧ started (id_dev s) bf md
  end.

(** The driver [s] with the requests [q] stands for the memory disk [t]. *)
Definition sim s q t : Prop :=
  chain (qnext s) (idequeue s) q ∧ NoDup q ∧ Forall (requested s) q ∧ working s q (memdisk t) ∧
  length (id_bufs s) = S NBUF ∧ bufs t = id_bufs s ∧ disksize t = FSSIZE ∧ havedisk1 s = true.

Definition can_lock s : Prop := mok (id_m s) ∧ lfree L_ide (id_m s) ∧ lfree L_ptable (id_m s).
Definition ilocked s : ide D := set_idm (mlocked L_ide (id_m s)) s.

Lemma L_ide_ne : L_ide ≠ L_ptable.
Proof. done. Qed.

Lemma acquire_ide s : can_lock s → idM (smpM (acquire L_ide)) s = Ok tt (ilocked s).
Proof. intros (Hm & Hl & _). erewrite lift_ok; [|by apply lock_ok]. done. Qed.

Lemma release_ide s : can_lock s → idM (smpM (release L_ide)) (ilocked s) = Ok tt s.
Proof. intros (Hm & Hl & _). erewrite lift_ok; [|by apply unlock_ok']. by destruct s as [[] ?]. Qed.

Definition iwoken (c : chan) s : ide D := set_idm (set_ptable (wake c <$> ptable (id_m s)) (id_m s)) s.

Lemma wakeup_ide c s : can_lock s → idM (wakeup c) (ilocked s) = Ok tt (ilocked (iwoken c s)).
Proof.
  intros (Hm & Hl & Hp). erewrite lift_ok; [|apply wakeup_ok; [by apply mok_mlocked|by apply lfree_mlocked]]. done.
Qed.

Lemma can_lock_woken c s : can_lock s → can_lock (iwoken c s).
Proof. intros (Hm & Hl & Hp). split; [by apply mok_set_ptable|done]. Qed.

Lemma iupd_run s b bf f : id_bufs s !! b = Some bf → iupd b f s = Ok tt (set_ibufs (<[b := f bf]> (id_bufs s)) s).
Proof. intros Hb. unfold iupd. go. rewrite Hb. by rewrite (list_alter_insert _ _ _ _ Hb). Qed.

Lemma ibuf_run s b bf : id_bufs s !! b = Some bf → ibuf b s = Ok bf s.
Proof. intros Hb. unfold ibuf. go. by rewrite Hb. Qed.

(** ** Serving a request *)

(** The data of a request when it is finished, and the disk then. *)
Definition done_data (bf : buf) (md : gmap Z block) : block :=
  if has (b_flags bf) B_DIRTY then b_data bf else dread md (b_blockno bf).
Definition done_disk (bf : buf) (md : gmap Z block) : gmap Z block :=
  if has (b_flags bf) B_DIRTY then <[b_blockno bf := b_data bf]> md else md.
Definition done_buf (bf : buf) (md : gmap Z block) : buf :=
  set_flags (setf (clrf (b_flags bf) B_DIRTY) B_VALID) (set_data (done_data bf md) bf).

Lemma fetch_run s b bf md : id_bufs s !! b = Some bf → 0 ≤ b_blockno bf < FSSIZE → started (id_dev s) bf md →
  ∃ d, (if negb (has (b_flags bf) B_DIRTY) then
         r ← idewait polls true;
         whenM (0 <=? r) (
           s ← get;
           let '(l, d) := insl 0x1f0 (BSIZE / 4)%nat (id_dev s) in
           put (set_dev d s) ;;;
           iupd b (set_data l))
       else ret tt) s = Ok tt (set_dev d (set_ibufs (<[b := set_data (done_data bf md) bf]> (id_bufs s)) s)) ∧
    idle d (done_disk bf md).
Proof.
  intros Hb Hn (Hs & Hr). unfold done_data, done_disk. destruct (has (b_flags bf) B_DIRTY) eqn:Ed; cbn [negb andb] in *.
  - exists (id_dev s). split.
    + assert (set_data (b_data bf) bf = bf) as -> by (by destruct bf). rewrite (list_insert_id _ _ _ Hb). by destruct s.
    + intros n Hn'. rewrite Hs by done. unfold dread.
      destruct (Z.eqb_spec n (b_blockno bf)) as [->|Hne]; [by rewrite lookup_insert_eq|by rewrite lookup_insert_ne].
  - destruct (Hr eq_refl) as (C & R2 & RD & RL). destruct (idewait_run true s) as (d0 & E0 & (S1 & S2 & S3)).
    step E0. cbn [Z.leb Z.compare whenM]. rewrite (bind_ok get _ _ _ _ eq_refl). cbn [id_dev set_dev].
    change (BSIZE / 4)%nat with 128%nat. destruct (ata_insl d0) as [I1 I2]; [congruence|congruence|].
    destruct (insl 0x1f0 128 d0) as [l d1]. cbn [fst snd] in *. exists d1. split.
    + erewrite bind_ok by done. rewrite (iupd_run _ b bf) by done. cbn. subst l. rewrite S1, S3, RD, RL, Hs by done. done.
    + intros n Hn'. rewrite I2, S3. by apply Hs.
Qed.

Lemma flags_done f : clrf (setf f B_VALID) B_DIRTY = setf (clrf f B_DIRTY) B_VALID.
Proof.
  unfold clrf, setf. rewrite Z.land_lor_distr_l. f_equal.
Qed.

Lemma memide_run t b bf : bufs t !! b = Some bf → todo bf → disksize t = FSSIZE →
  ∃ t', Bio.iderw b t = Ok tt t' ∧ bufs t' = <[b := done_buf bf (memdisk t)]> (bufs t) ∧
    memdisk t' = done_disk bf (memdisk t) ∧ disksize t' = FSSIZE.
Proof.
  intros Hb (Hbusy & Hf & Hdev & Hn & _) Hd. unfold done_buf, done_data, done_disk.
  assert (has (b_flags bf) B_VALID && negb (has (b_flags bf) B_DIRTY) = false) as Hv.
  { rewrite <- rw_test. by apply Z.eqb_neq. }
  destruct (has (b_flags bf) B_DIRTY) eqn:Ed.
  - eexists. split; [apply iderw_write; [exact Hb|done|done|done|lia]|]. cbn. by destruct bf.
  - assert (clrf (b_flags bf) B_DIRTY = b_flags bf) as Ec.
    { unfold clrf. apply Z.bits_inj'. intros n Hn'. rewrite Z.land_spec, Z.lnot_spec by done.
      change B_DIRTY with (2 ^ 2). rewrite Z.pow2_bits_eqb by lia.
      destruct (Z.eqb_spec 2 n) as [<-|]; cbn [negb]; [|apply andb_true_r].
      rewrite <- has_testbit by lia. change (2 ^ 2) with B_DIRTY. by rewrite Ed. }
    rewrite Ec. eexists. split; [apply iderw_read; [exact Hb|done|by rewrite andb_true_r in Hv|done|done|lia]|].
    cbn. by destruct t.
Qed.

Lemma chain_head s b q : chain (qnext s) (idequeue s) (b :: q) → idequeue s = Some b ∧ chain (qnext s) (qnext s b) q.
Proof. by intros [? ?]. Qed.

(** The next request is given to the controller. *)
Lemma next_run s q md : chain (qnext s) (idequeue s) q → Forall (requested s) q → idle (id_dev s) md →
  ∃ d, (∀ k : M (ide D) unit,
      (s ← get; whenM (bool_decide (idequeue s ≠ None)) (idestart polls (idequeue s)) ;;; k) s = k (set_dev d s)) ∧
    working (set_dev d s) q md.
Proof.
  intros Hc Hq Hi. destruct q as [|b q].
  - cbn in Hc. exists (id_dev s). split; [|done]. intros k. rewrite (bind_ok get _ _ _ _ eq_refl), Hc. by destruct s.
  - destruct Hc as [E _]. apply Forall_cons in Hq as [(bf & Hb & Ht) _].
    destruct (idestart_run s b bf md Hb Ht Hi) as (d & Es & Hs). exists d. split; [|by exists bf].
    intros k. rewrite (bind_ok get _ _ _ _ eq_refl), E. cbn [whenM bool_decide]. by step Es.
Qed.

Lemma requested_other s b bf q : b ∉ q → Forall (requested s) q →
  Forall (λ c, ∃ cf, <[b := bf]> (id_bufs s) !! c = Some cf ∧ todo cf) q.
Proof.
  intros Hb Hq. apply Forall_forall. intros c Hc. rewrite Forall_forall in Hq.
  destruct (Hq c Hc) as (cf & Hl & Ht). exists cf. by rewrite list_lookup_insert_ne by set_solver.
Qed.

(** An interrupt serves the first request as memide.c does. *)
Lemma ideintr_run s b q t : can_lock s → sim s (b :: q) t →
  ∃ s' t', ideintr polls s = Ok tt s' ∧ Bio.iderw b t = Ok tt t' ∧ sim s' q t' ∧
    id_m s' = set_ptable (wake (buf_chan b) <$> ptable (id_m s)) (id_m s).
Proof.
  intros Hl (Hc & Hd & Hq & (bf & Hb & Hst) & Hlen & Hbt & Hds & Hh).
  apply Forall_cons in Hq as [(bf' & Hb' & Ht) Hq]. rewrite Hb in Hb'. injection Hb' as <-.
  apply NoDup_cons in Hd as [Hbq Hd]. destruct (chain_head s b q Hc) as [Eq Hc'].
  destruct (memide_run t b bf) as (t' & Et & Tb & Tm & Td); [by rewrite Hbt|done|done|].
  set (md := memdisk t) in *. set (bs := <[b := done_buf bf md]> (id_bufs s)).
  destruct (fetch_run (set_queue (qnext s b) (ilocked s)) b bf md) as (d & Ef & Hi); [done|apply Ht|done|].
  set (s0 := mkIde (id_m s) bs (qnext s b) (qnext s) (havedisk1 s) d). set (s1 := iwoken (buf_chan b) s0).
  destruct (next_run (ilocked s1) q (done_disk bf md)) as (d' & En & Hw); [done|by apply requested_other|done|].
  exists (set_dev d' s1), t'. split; [|split; [done|split; [|done]]].
  - unfold ideintr. step (acquire_ide s Hl). rewrite (bind_ok get _ _ _ _ eq_refl).
    change (idequeue (ilocked s)) with (idequeue s). rewrite Eq.
    erewrite bind_ok by reflexivity. change (qnext (ilocked s) b) with (qnext s b).
    step (ibuf_run (set_queue (qnext s b) (ilocked s)) b bf Hb). step Ef.
    assert (b < length (id_bufs s))%nat as Hlt by (by eapply lookup_lt_Some).
    erewrite bind_ok by (apply iupd_run; cbn; by apply list_lookup_insert_eq).
    erewrite bind_ok by (apply iupd_run; cbn; apply list_lookup_insert_eq; by rewrite length_insert).
    cbn [id_bufs set_ibufs set_dev set_queue ilocked set_idm b_flags set_flags]. rewrite !list_insert_insert_eq.
    cbn [id_m idequeue qnext havedisk1 id_dev]. rewrite flags_done.
    erewrite bind_ok by (exact (wakeup_ide (buf_chan b) s0 Hl)). fold s1.
    rewrite En. exact (release_ide (set_dev d' s1) (can_lock_woken _ _ Hl)).
  - split; [done|]. split; [done|]. split; [by apply requested_other|]. rewrite Tm. split; [done|].
    split; [by cbn; unfold bs; rewrite length_insert|]. split; [by rewrite Tb, Hbt|]. split; [done|done].
Qed.

(** ** Making a request *)

(** Process [j] executes and holds no lock. *)
Definition may_run s (j : nat) (p : proc) : Prop :=
  running (id_m s) j p ∧ lfree L_ide (id_m s) ∧ lfree L_ptable (id_m s).
Definition iasleep (b j : nat) (p : proc) s : ide D :=
  set_idm (put_to_sleep (buf_chan b) j p (mlocked L_ptable (id_m s))) s.

Lemma may_lock s j p : may_run s j p → can_lock s.
Proof. by intros ((? & _) & ? & ?). Qed.

Lemma wait_run s b bf j p : may_run s j p → id_bufs s !! b = Some bf →
  iderw_wait b (ilocked s) =
    if Z.land (b_flags bf) (Z.lor B_VALID B_DIRTY) =? B_VALID then Ok tt s else Stop Switch (iasleep b j p s).
Proof.
  intros Hr Hb. pose proof Hr as (Hrun & Hl & Hp). unfold iderw_wait. cbn [loopM].
  destruct (_ =? _) eqn:Ef.
  - erewrite bind_ok.
    2:{ erewrite bind_ok by (erewrite bind_ok by (apply ibuf_run; exact Hb); rewrite Ef; reflexivity). reflexivity. }
    exact (release_ide s (may_lock s j p Hr)).
  - apply bind_stop. apply bind_stop. erewrite bind_ok by (apply ibuf_run; exact Hb). rewrite Ef. cbn [negb].
    apply bind_stop. erewrite lift_stop; [|apply sleep_ok; [exact Hrun|exact Hl|exact Hp|apply L_ide_ne]]. done.
Qed.

(** The queue with the request [b] at its end, before the controller is told. *)
Definition appended b q s : ide D :=
  match end_of None q with
  | None => set_queue (Some b) (set_qnext b None s)
  | Some c => set_qnext c (Some b) (set_qnext b None s)
  end.

Lemma appended_chain b q s : chain (qnext s) (idequeue s) q → b ∉ q → NoDup q →
  chain (qnext (appended b q s)) (idequeue (appended b q s)) (q ++ [b]).
Proof.
  intros Hc Hb Hd. pose proof (chain_snoc (qnext s) (idequeue s) q b Hc Hb Hd) as Ha. unfold appended.
  destruct (end_of None q); exact Ha.
Qed.

Lemma append_run s q b (k : M (ide D) unit) : chain (qnext s) (idequeue s) q → b ∉ q → (length q < S NBUF)%nat →
  (modify (set_qnext b None) ;;;
   pp ← last_link;
   modify (match pp with None => set_queue (Some b) | Some c => set_qnext c (Some b) end) ;;; k) s =
  k (appended b q s).
Proof.
  intros Hc Hb Hl. erewrite bind_ok by reflexivity. erewrite bind_ok.
  2:{ unfold last_link. apply (last_link_run _ _ None q); [|done]. cbn [qnext idequeue set_qnext].
      apply (chain_ext (qnext s)); [|done]. intros c Hc'. rewrite fn_lookup_insert_ne; [done|]. by intros ->. }
  unfold appended. destruct (end_of None q); reflexivity.
Qed.

Lemma sim_length s q t b : sim s q t → b ∉ q → (b < S NBUF)%nat → (length q < S NBUF)%nat.
Proof.
  intros (_ & Hd & Hq & _ & Hl & _) Hb Hlt. assert (b :: q ⊆ seq 0 (S NBUF)) as Hs.
  { intros c [->|Hc]%elem_of_cons; [apply elem_of_seq; lia|]. rewrite Forall_forall in Hq.
    destruct (Hq c Hc) as (cf & Hcf & _). apply lookup_lt_Some in Hcf. apply elem_of_seq. lia. }
  assert (NoDup (b :: q)) as Hd' by (by apply NoDup_cons).
  pose proof (submseteq_length _ _ (NoDup_submseteq _ _ Hd' Hs)) as Hn. rewrite length_seq in Hn. cbn [length] in Hn. lia.
Qed.

Lemma appended_bufs b q s : id_bufs (appended b q s) = id_bufs s.
Proof. unfold appended. by destruct (end_of None q). Qed.

Lemma may_run_appended b q s j p d : may_run s j p → may_run (set_dev d (appended b q s)) j p.
Proof. unfold appended. by destruct (end_of None q). Qed.

(** The controller is told of a request that is alone. *)
Lemma start_new s q t b bf : sim s q t → b ∉ q → NoDup q → id_bufs s !! b = Some bf → todo bf →
  ∃ d, (whenM (bool_decide (idequeue (appended b q (ilocked s)) = Some b)) (idestart polls (Some b)) ;;;
        iderw_wait b) (appended b q (ilocked s)) = iderw_wait b (ilocked (set_dev d (appended b q s))) ∧
    working (set_dev d (appended b q s)) (q ++ [b]) (memdisk t).
Proof.
  intros (Hc & _ & _ & Hw & _) Hb Hd Hbf Ht. destruct q as [|c q].
  - unfold appended. cbn [end_of last]. cbn [idequeue set_queue]. rewrite bool_decide_true by done. cbn [whenM].
    destruct (idestart_run (appended b [] (ilocked s)) b bf (memdisk t)) as (d & E & Hs); [done|done|done|].
    exists d. split; [by step E|]. by exists bf.
  - destruct Hc as [Eq Hc]. exists (id_dev s).
    assert (idequeue (appended b (c :: q) (ilocked s)) = Some c) as E.
    { rewrite <- Eq. unfold appended, end_of. by destruct (last (c :: q)) eqn:El; [|apply last_None in El]. }
    rewrite E, bool_decide_false by (intros [= ->]; set_solver). cbn [whenM]. split.
    + unfold appended. by destruct (end_of None (c :: q)).
    + destruct Hw as (cf & Hcf & Hs). exists cf. cbn. by rewrite appended_bufs.
Qed.

Lemma NoDup_snoc q (b : nat) : NoDup q → b ∉ q → NoDup (q ++ [b]).
Proof. intros Hd Hb. apply NoDup_app. split; [done|]. split; [set_solver|apply NoDup_singleton]. Qed.

(** A new request waits at the end of the queue. *)
Lemma iderw_run s q t b bf j p : may_run s j p → sim s q t → b ∉ q → id_bufs s !! b = Some bf → todo bf →
  ∃ s', iderw polls b s = Stop Switch s' ∧ sim s' (q ++ [b]) t.
Proof.
  intros Hr Hs Hbq Hb Ht. pose proof Hs as (Hc & Hd & Hq & Hw & Hlen & Hbt & Hds & Hh). pose proof Ht as (Hbusy & Hf & Hdev & _).
  pose proof (may_lock s j p Hr) as Hl. assert (b < S NBUF)%nat as Hlt by (rewrite <- Hlen; by eapply lookup_lt_Some).
  assert ((Z.land (b_flags bf) (Z.lor B_VALID B_DIRTY) =? B_VALID) = false) as Hfb by (by apply Z.eqb_neq).
  assert (∃ d, iderw polls b s = iderw_wait b (ilocked (set_dev d (appended b q s))) ∧
    working (set_dev d (appended b q s)) (q ++ [b]) (memdisk t)) as (d & E & Hw').
  { unfold iderw. step (ibuf_run s b bf Hb). rewrite Hbusy, Hfb. cbn [negb]. rewrite (bind_ok get _ _ _ _ eq_refl), Hh, andb_false_r.
    step (acquire_ide s Hl). rewrite (append_run (ilocked s) q b _ Hc Hbq (sim_length s q t b Hs Hbq Hlt)).
    rewrite (bind_ok get _ _ _ _ eq_refl). by apply (start_new s q t b bf). }
  exists (iasleep b j p (set_dev d (appended b q s))). split.
  - rewrite E, (wait_run _ b bf j p); [by rewrite Hfb|by apply may_run_appended|cbn; by rewrite appended_bufs].
  - split; [by apply appended_chain|]. split; [by apply NoDup_snoc|].
    assert (∀ c, requested s c → requested (iasleep b j p (set_dev d (appended b q s))) c) as Hreq.
    { intros c (cf & Hcf & Htc). exists cf. split; [|done]. cbn. by rewrite appended_bufs. }
    split; [apply Forall_app; split; [by eapply Forall_impl|apply Forall_singleton, Hreq; by exists bf]|].
    split; [exact Hw'|]. cbn. rewrite appended_bufs. split; [done|]. split; [done|]. split; [done|].
    unfold appended. by destruct (end_of None q).
Qed.

(** ** Histories *)

(** A process is switched back to inside [sleep], with [ptable.lock] held. *)
Definition resumed s : ide D := set_idm (mlocked L_ptable (id_m s)) s.
Definition saved_if s (e : bool) : Prop :=
  ∀ c, cpus (m_smp (id_m s)) !! cur (m_smp (id_m s)) = Some c → c_if c = e.
Definition ends_in (r : res (ide D) unit) s : Prop := r = Ok tt s ∨ r = Stop Switch s.

Inductive event :=
  | Queued (b : nat)          (* a request was made *)
  | Served (b : nat)          (* an interrupt finished a request *)
  | Changed (l : list buf).   (* other code left the buffers as [l] *)

(** A piece of code runs from [s] to [s'].  A buffer is handed to [iderw] by
    the one process that holds it busy, so it is not in the queue already, and
    it is for a block of the disk of the file system; other code leaves the
    driver and the buffers in its queue alone. *)
Inductive turn : ide D → event → ide D → Prop :=
  | turn_rw s b bf j p s' : may_run s j p → id_bufs s !! b = Some bf →
      b_dev bf = ROOTDEV → 0 ≤ b_blockno bf < FSSIZE → length (b_data bf) = BSIZE →
      (∀ q, chain (qnext s) (idequeue s) q → b ∉ q) →
      ends_in (iderw polls b s) s' → turn s (Queued b) s'
  | turn_resume s b bf j p e s' : may_run s j p → saved_if s e → id_bufs s !! b = Some bf →
      ends_in (iderw_resume e b (resumed s)) s' → turn s (Changed (id_bufs s)) s'
  | turn_intr s b s' : can_lock s → idequeue s = Some b → ideintr polls s = Ok tt s' → turn s (Served b) s'
  | turn_spurious s s' : can_lock s → idequeue s = None → ideintr polls s = Ok tt s' → turn s (Changed (id_bufs s)) s'
  | turn_other s s' : idequeue s' = idequeue s → qnext s' = qnext s → havedisk1 s' = havedisk1 s →
      id_dev s' = id_dev s → length (id_bufs s') = length (id_bufs s) →
      (∀ q b, chain (qnext s) (idequeue s) q → b ∈ q → id_bufs s' !! b = id_bufs s !! b) →
      turn s (Changed (id_bufs s')) s'.

Inductive history : ide D → list event → ide D → Prop :=
  | history_nil s : history s [] s
  | history_turn s1 e s2 es s3 : turn s1 e s2 → history s2 es s3 → history s1 (e :: es) s3.

(** The same events on the memory disk, where a request is served at once. *)
Inductive mem_run : bio → list event → bio → Prop :=
  | mem_nil t : mem_run t [] t
  | mem_queued t b es t' : mem_run t es t' → mem_run t (Queued b :: es) t'
  | mem_served t b t1 es t' : Bio.iderw b t = Ok tt t1 → mem_run t1 es t' → mem_run t (Served b :: es) t'
  | mem_changed t l es t' : mem_run (set_bufs l t) es t' → mem_run t (Changed l :: es) t'.

Definition queued (es : list event) : list nat := omap (λ e, match e with Queued b => Some b | _ => None end) es.
Definition served (es : list event) : list nat := omap (λ e, match e with Served b => Some b | _ => None end) es.

Lemma mem_run_app t es t1 es' t2 : mem_run t es t1 → mem_run t1 es' t2 → mem_run t (es ++ es') t2.
Proof. induction 1; intros; cbn; eauto using mem_queued, mem_served, mem_changed. Qed.

Lemma sim_mach s q t m : sim s q t → sim (set_idm m s) q t.
Proof. done. Qed.

Lemma sim_bufs s q t l : sim s q t → length l = length (id_bufs s) →
  (∀ b, b ∈ q → l !! b = id_bufs s !! b) → sim (set_ibufs l s) q (set_bufs l t).
Proof.
  intros (Hc & Hd & Hq & Hw & Hlen & Hbt & Hds & Hh) Hl He. split; [done|]. split; [done|]. split.
  { apply Forall_forall. intros b Hb. rewrite Forall_forall in Hq. destruct (Hq b Hb) as (bf & Hbf & Ht).
    exists bf. cbn. by rewrite He. }
  split; [|split; [cbn; lia|done]]. destruct q as [|b q]; [done|]. destruct Hw as (bf & Hbf & Hs).
  exists bf. cbn. rewrite He by set_solver. done.
Qed.

Lemma sim_quiet s q t : sim s q t → sim s q (set_bufs (id_bufs s) t).
Proof. intros Hs. pose proof (sim_bufs s q t (id_bufs s) Hs eq_refl (λ _ _, eq_refl)). by destruct s. Qed.

Lemma resume_run s b bf j p e : may_run s j p → saved_if s e → id_bufs s !! b = Some bf →
  ∃ m, iderw_resume e b (resumed s) = Ok tt (set_idm m s) ∨ iderw_resume e b (resumed s) = Stop Switch (set_idm m s).
Proof.
  intros ((Hm & Hi & c & Hc) & Hl & Hp) He Hb. unfold iderw_resume.
  set (s1 := set_idm (set_ptable (<[j := with_chan None p]> (ptable (id_m s))) (id_m s)) s).
  assert (idM (sleep_resume e L_ide) (resumed s) = Ok tt (ilocked s1)) as E.
  { erewrite lift_ok; [|apply (sleep_resume_ok (id_m s) j p); [by split; [|split; [|exists c]]|exact Hl|exact Hp|apply L_ide_ne|exact He]].
    done. }
  step E. assert (may_run s1 j (with_chan None p)) as Hr.
  { split; [|done]. split; [|split; [|by exists c]].
    - destruct Hm. split; [done|]. cbn. by rewrite length_insert.
    - cbn. apply list_lookup_insert_eq. eauto using lookup_lt_Some. }
  rewrite (wait_run s1 b bf j _ Hr Hb). destruct (_ =? _).
  - exists (id_m s1). by left.
  - eexists. by right.
Qed.

Lemma spurious_run s : can_lock s → idequeue s = None → ideintr polls s = Ok tt s.
Proof.
  intros Hl E. unfold ideintr. step (acquire_ide s Hl). rewrite (bind_ok get _ _ _ _ eq_refl).
  change (idequeue (ilocked s)) with (idequeue s). rewrite E. exact (release_ide s Hl).
Qed.

(** A buffer that [iderw] accepts is a request. *)
Lemma accepted s b bf s' : id_bufs s !! b = Some bf → b_dev bf = ROOTDEV → 0 ≤ b_blockno bf < FSSIZE →
  length (b_data bf) = BSIZE → ends_in (iderw polls b s) s' → todo bf.
Proof.
  intros Hb Hd Hn Hl He. unfold iderw in He. rewrite (bind_ok _ _ _ _ _ (ibuf_run s b bf Hb)) in He.
  destruct (has (b_flags bf) B_BUSY) eqn:E1; cbn [negb] in He; [|by destruct He].
  destruct (Z.land (b_flags bf) _ =? _) eqn:E2; [by destruct He|]. split; [done|]. split; [by apply Z.eqb_neq|done].
Qed.

Lemma sim_turn s e s' q t : turn s e s' → sim s q t →
  ∃ q' t', mem_run t [e] t' ∧ sim s' q' t' ∧ q ++ queued [e] = served [e] ++ q'.
Proof.
  intros Ht Hs. pose proof Hs as (Hc & _). destruct Ht as
    [s b bf j p s' Hr Hb Hd Hn Hl Hq He|s b bf j p e s' Hr Hi Hb He|s b s' Hl Eq He|s s' Hl Eq He|s s' E1 E2 E3 E4 El Hq].
  - destruct (iderw_run s q t b bf j p Hr Hs (Hq q Hc) Hb (accepted s b bf s' Hb Hd Hn Hl He)) as (s1 & E & Hs1).
    destruct He as [He|He]; [congruence|]. rewrite E in He. injection He as <-.
    exists (q ++ [b]), t. split; [apply mem_queued, mem_nil|done].
  - destruct (resume_run s b bf j p e Hr Hi Hb) as (m & Em). exists q, (set_bufs (id_bufs s) t).
    split; [apply mem_changed, mem_nil|]. split; [|by rewrite app_nil_r].
    assert (s' = set_idm m s) as -> by (destruct Em as [Em|Em], He as [He|He]; congruence).
    by apply sim_mach, sim_quiet.
  - destruct q as [|b' q]; [cbn in Hc; congruence|]. destruct (chain_head s b' q Hc) as [Eq' _].
    rewrite Eq in Eq'. injection Eq' as <-. destruct (ideintr_run s b q t Hl Hs) as (s1 & t1 & E & Et & Hs1 & _).
    rewrite He in E. injection E as ->. exists q, t1. split; [eapply mem_served; [done|apply mem_nil]|].
    split; [done|]. by rewrite app_nil_r.
  - rewrite (spurious_run s Hl Eq) in He. injection He as <-. exists q, (set_bufs (id_bufs s) t).
    split; [apply mem_changed, mem_nil|]. split; [|by rewrite app_nil_r].
    by apply sim_quiet.
  - exists q, (set_bufs (id_bufs s') t). split; [apply mem_changed, mem_nil|]. split; [|by rewrite app_nil_r].
    assert (s' = set_idm (id_m s') (set_ibufs (id_bufs s') s)) as -> by (destruct s, s'; cbn in *; by subst).
    apply sim_mach. cbn [id_bufs set_idm set_ibufs]. apply sim_bufs; [done|done|]. intros b Hb. by apply (Hq q).
Qed.

(** C8: the interrupt-driven driver is a memory disk with a queue.  In every
    sequence of calls of [iderw], interrupts (spurious ones included) and steps
    of other code, the requests are served in the order in which they were
    made, and the disk and the buffers are those that [iderw] of memide.c
    leaves when it is run for each request at the moment it is served. *)
Theorem ide_refines s es s' q t : history s es s' → sim s q t →
  ∃ q' t', mem_run t es t' ∧ sim s' q' t' ∧ q ++ queued es = served es ++ q'.
Proof.
  intros Hh. revert q t. induction Hh as [s|s1 e s2 es s3 Ht Hh IH]; intros q t Hs.
  - exists q, t. split; [apply mem_nil|]. split; [done|]. by rewrite app_nil_r.
  - destruct (sim_turn s1 e s2 q t Ht Hs) as (q1 & t1 & M1 & S1 & E1).
    destruct (IH q1 t1 S1) as (q2 & t2 & M2 & S2 & E2). exists q2, t2.
    split; [by apply (mem_run_app t [e] t1)|]. split; [done|].
    change (e :: es) with ([e] ++ es). unfold queued, served in *. rewrite !omap_app, app_assoc, E1, <- !app_assoc. by rewrite E2.
Qed.

Lemma wake_runnable c (l : list proc) j p : l !! j = Some p → p_state p = SLEEPING → p_chan p = Some c →
  ∃ p', (wake c <$> l) !! j = Some p' ∧ p_state p' = RUNNABLE.
Proof.
  intros Hj Hs Hc. rewrite list_lookup_fmap, Hj. eexists. split; [done|]. unfold wake.
  by rewrite !bool_decide_true.
Qed.

Lemma wake_runnable_id c (l : list proc) j p : l !! j = Some p → p_state p = RUNNABLE → (wake c <$> l) !! j = Some p.
Proof. intros Hj Hs. rewrite list_lookup_fmap, Hj. cbn. unfold wake. by rewrite bool_decide_false by congruence. Qed.

Lemma wake_other c c' (l : list proc) j p : l !! j = Some p → p_chan p = Some c' → c ≠ c' → (wake c <$> l) !! j = Some p.
Proof.
  intros Hj Hc Hne. rewrite list_lookup_fmap, Hj. cbn. unfold wake.
  by rewrite (bool_decide_false (p_chan p = _)), andb_false_r by congruence.
Qed.

(** C22: no request is left behind: after as many interrupts as the queue is
    long the queue is empty, the requests have had the effect of [iderw] of
    memide.c in their order, and every process that slept on one of their
    buffers can run. *)
Theorem ide_drains s q t : can_lock s → sim s q t →
  ∃ s' t', for_all q (λ _, ideintr polls) s = Ok tt s' ∧ for_all q Bio.iderw t = Ok tt t' ∧ sim s' [] t' ∧
    ∀ b j p, b ∈ q → ptable (id_m s) !! j = Some p → p_state p = SLEEPING → p_chan p = Some (buf_chan b) →
      ∃ p', ptable (id_m s') !! j = Some p' ∧ p_state p' = RUNNABLE.
Proof.
  intros Hl Hs.
  enough (∃ s' t', for_all q (λ _, ideintr polls) s = Ok tt s' ∧ for_all q Bio.iderw t = Ok tt t' ∧ sim s' [] t' ∧
    ∀ j p, ptable (id_m s) !! j = Some p →
      (p_state p = RUNNABLE → ptable (id_m s') !! j = Some p) ∧
      (∀ b, b ∈ q → p_state p = SLEEPING → p_chan p = Some (buf_chan b) →
        ∃ p', ptable (id_m s') !! j = Some p' ∧ p_state p' = RUNNABLE)) as (s' & t' & E1 & E2 & Hs' & Hw).
  { exists s', t'. split; [done|]. split; [done|]. split; [done|]. intros b j p Hb Hj. exact (proj2 (Hw j p Hj) b Hb). }
  revert s t Hl Hs. induction q as [|b q IH]; intros s t Hl Hs.
  { exists s, t. split; [done|]. split; [done|]. split; [done|]. intros j p Hj. split; [done|set_solver]. }
  destruct (ideintr_run s b q t Hl Hs) as (s1 & t1 & E & Et & Hs1 & Em).
  destruct (IH s1 t1) as (s2 & t2 & E2 & Et2 & Hs2 & Hw); [|done|].
  { destruct Hl as (Hm & Hi & Hp). unfold can_lock. rewrite Em. split; [by apply mok_set_ptable|done]. }
  exists s2, t2. cbn [for_all]. split; [by step E|]. split; [by step Et|]. split; [done|]. rewrite Em in Hw. cbn [ptable set_ptable] in Hw.
  intros j p Hj. split.
  - intros Hr. by apply (Hw j p); [apply wake_runnable_id|].
  - intros b' Hb' Hsl Hch. destruct (decide (b' = b)) as [->|Hne].
    + destruct (wake_runnable (buf_chan b) _ j p Hj Hsl Hch) as (p' & Hp' & Hr'). exists p'.
      split; [by apply (Hw j p' Hp')|done].
    + assert (buf_chan b ≠ buf_chan b') as Hne' by (intros [= E']; lia).
      apply (proj2 (Hw j p (wake_other _ _ _ _ _ Hj Hch Hne')) b'); [set_solver|done|done].
Qed.
End spec.

(** ** A controller *)

Record pio := mkPio { pio_regs : Z → Z; pio_cmd : option Z; pio_sectors : Z → Z → list Z }.

#[export] Instance pio_ata : Ata pio := {
  inb p d := (if p =? 0x1f7 then IDE_DRDY else pio_regs d p, d);
  outb p v d :=
    if p =? 0x1f7 then mkPio (pio_regs d) (Some v) (pio_sectors d)
    else if p =? 0x3f6 then d
    else mkPio (<[p := v]> (pio_regs d)) (pio_cmd d) (pio_sectors d);
  insl _ _ d := (pio_sectors d (drive (pio_regs d)) (lba (pio_regs d)), d);
  outsl _ l d :=
    let u := drive (pio_regs d) in
    mkPio (pio_regs d) (pio_cmd d) (<[u := <[lba (pio_regs d) := l]> (pio_sectors d u)]> (pio_sectors d))
}.

#[export] Instance pio_laws : AtaLaws pio 1.
Proof.
  refine {| regs := pio_regs; command := pio_cmd; sectors := pio_sectors |}; try done.
  intros p v d Hp. cbn. rewrite (proj2 (Z.eqb_neq p _)), (proj2 (Z.eqb_neq p _)) by lia. done.
Defined.

Definition ex_dev : pio := mkPio (λ _, 0) None (λ _ _, zero_block).
(** Buffer 2 holds the new contents of block 5. *)
Definition ex_buf : buf := mkBuf (Z.lor B_BUSY B_DIRTY) 1 5 0 0 (replicate BSIZE 7).
Definition ex_bufs : list buf := <[2%nat := ex_buf]> (replicate (S NBUF) (mkBuf 0 0 0 0 0 zero_block)).
Definition ex_mach : mach :=
  mkMach (mkSmp 0 [mkCpu true 0 true (Some 0%nat)] (λ _, free_lock))
    (with_state RUNNING zero_proc :: replicate 63 zero_proc) 1 None.
Definition ex_ide : ide pio := mkIde ex_mach ex_bufs None (λ _, None) true ex_dev.
Definition ex_bio : bio := mkBio ex_mach ex_bufs ∅ FSSIZE [].

Lemma ex_sim : sim 1 ex_ide [] ex_bio.
Proof.
  split; [done|]. split; [apply NoDup_nil_2|]. split; [apply Forall_nil_2|]. split; [|done].
  intros n _. unfold dread. change (memdisk ex_bio) with (∅ : gmap Z block). by rewrite lookup_empty.
Qed.

Lemma ex_todo : todo ex_buf.
Proof. split; [done|]. split; [done|]. split; [done|]. split; [cbn; unfold FSSIZE; lia|]. apply length_replicate. Qed.

Lemma ex_lock m : can_lock (set_idm ex_mach (m : ide pio)).
Proof.
  split; [|done]. split; [|done]. eexists. split; [done|]. unfold cpu_bal. cbn. split_and!; lia || done.
Qed.

Lemma ex_run : may_run ex_ide 0 (with_state RUNNING zero_proc).
Proof. split; [|done]. split; [apply (ex_lock ex_ide)|]. split; [done|]. by eexists. Qed.

(** A write is queued, the scheduler takes over, and the interrupt comes. *)
Lemma ide_refines_witness : ∃ es s' t', history 1 ex_ide es s' ∧ served es = [2%nat] ∧ mem_run ex_bio es t' ∧
  ∃ q, sim 1 s' q t'.
Proof.
  destruct (iderw_run 1 ex_ide [] ex_bio 2 ex_buf 0 _ ex_run ex_sim ltac:(apply not_elem_of_nil) eq_refl ex_todo) as (s1 & E1 & S1).
  set (s2 := set_idm ex_mach s1). destruct (ideintr_run 1 s2 2 [] ex_bio (ex_lock s1) S1) as (s3 & t3 & E3 & _).
  assert (history 1 ex_ide [Queued 2; Changed (id_bufs s2); Served 2] s3) as Hh.
  { apply (history_turn _ _ _ s1).
    - apply (turn_rw 1 ex_ide 2 ex_buf 0 (with_state RUNNING zero_proc)); [exact ex_run|done|done|apply ex_todo|apply ex_todo| |by right].
      intros [|b q] Hq; [apply not_elem_of_nil|]. destruct Hq as [Hq _]. discriminate Hq.
    - apply (history_turn _ _ _ s2); [by apply turn_other|]. apply (history_turn _ _ _ s3); [|apply history_nil].
      apply turn_intr; [apply ex_lock| |exact E3]. destruct S1 as ([Hq _] & _). exact Hq. }
  destruct (ide_refines 1 ex_ide _ s3 [] ex_bio Hh ex_sim) as (q & t' & Hm & Hs & _).
  exists [Queued 2; Changed (id_bufs s2); Served 2], s3, t'. split; [exact Hh|]. split; [reflexivity|]. split; [exact Hm|].
  exists q. exact Hs.
Defined.

Lemma ide_drains_witness : ∃ s s' t', for_all [2%nat] (λ _, ideintr 1) s = Ok tt s' ∧ for_all [2%nat] Bio.iderw ex_bio = Ok tt t' ∧ sim 1 s' [] t'.
Proof.
  destruct (iderw_run 1 ex_ide [] ex_bio 2 ex_buf 0 _ ex_run ex_sim ltac:(apply not_elem_of_nil) eq_refl ex_todo) as (s1 & E1 & S1).
  destruct (ide_drains 1 (set_idm ex_mach s1) [2%nat] ex_bio (ex_lock s1) S1) as (s' & t' & E & Et & Hs & _).
  exists (set_idm ex_mach s1), s', t'. split; [exact E|]. split; [exact Et|exact Hs].
Defined.
End Ide.
