(* ===== verification/Bootmain.v ===== *)
(** * The boot loader (kernel/bootmain.c)

    The loader runs in 32-bit mode on physical memory, a function from
    addresses to bytes, and reads the disk through the controller of Ide.v,
    whose ports are a parameter.  [bootmain] returns the address it jumps to,
    or [None] where the code returns to bootasm.S. *)

From S2P Require Import Prelude Bytes Ide.
From Stdlib Require Import FunctionalExtensionality.

Module Bootmain.
Import Ide.

Definition SECTSIZE : Z := 512.
Definition MAGIC : Z := 0x1BADB002.
Definition SCRATCH : Z := 0x10000.

Record bst (D : Type) := mkBst { bs_dev : D; bs_mem : Z → Z }.
Arguments mkBst {D}.
Arguments bs_dev {D}.
Arguments bs_mem {D}.

(** Stores at [dst] and on; addresses wrap around. *)
Definition store (dst : Z) (l : list Z) (m : Z → Z) : Z → Z :=
  λ a, default (m a) (l !! Z.to_nat (u32 (a - dst))).

(** A 32-bit word of memory. *)
Definition ld32 (m : Z → Z) (a : Z) : Z := le_val ((λ i, m (u32 (a + i))) <$> [0; 1; 2; 3]).

(** The fields of a [struct mbheader] at [a]. *)
Definition flags (m : Z → Z) (a : Z) : Z := ld32 m (a + 4).
Definition header_addr (m : Z → Z) (a : Z) : Z := ld32 m (a + 12).
Definition load_addr (m : Z → Z) (a : Z) : Z := ld32 m (a + 16).
Definition load_end_addr (m : Z → Z) (a : Z) : Z := ld32 m (a + 20).
Definition bss_end_addr (m : Z → Z) (a : Z) : Z := ld32 m (a + 24).
Definition entry_addr (m : Z → Z) (a : Z) : Z := ld32 m (a + 28).

Section code.
Context {D : Type} `{Ata D} (polls : nat).

Definition bin (port : Z) : M (bst D) Z :=
  s ← get; let '(v, d) := inb port (bs_dev s) in put (mkBst d (bs_mem s)) ;;; ret v.
Definition bout (port v : Z) : M (bst D) unit :=
  modify (λ s, mkBst (outb port (u8 v) (bs_dev s)) (bs_mem s)).

Definition disk_turn (_ : unit) : M (bst D) (unit + unit) :=
  r ← bin 0x1F7;
  ret (if Z.land r 0xC0 =? 0x40 then inr tt else inl tt).
Definition waitdisk : M (bst D) unit := loopM polls disk_turn tt.

Definition readsect (dst offset : Z) : M (bst D) unit :=
  waitdisk ;;;
  bout 0x1F2 1 ;;;
  bout 0x1F3 offset ;;;
  bout 0x1F4 (Z.shiftr offset 8) ;;;
  bout 0x1F5 (Z.shiftr offset 16) ;;;
  bout 0x1F6 (Z.lor (Z.shiftr offset 24) 0xE0) ;;;
  bout 0x1F7 0x20 ;;;
  waitdisk ;;;
  s ← get;
  let '(l, d) := insl 0x1F0 (Z.to_nat (SECTSIZE / 4)) (bs_dev s) in
  put (mkBst d (store dst l (bs_mem s))).

Definition seg_turn (epa : Z) (st : Z * Z) : M (bst D) (Z * Z + unit) :=
  let '(pa, offset) := st in
  if pa <? epa then
    readsect pa offset ;;;
    ret (inl (u32 (pa + SECTSIZE), u32 (offset + 1)))
  else ret (inr tt).

(** A turn brings [pa] closer to [epa]. *)
Definition readseg (pa count offset : Z) : M (bst D) unit :=
  let epa := u32 (pa + count) in
  let pa := u32 (pa - offset mod SECTSIZE) in
  let offset := u32 (offset / SECTSIZE + 1) in
  loopM (S (Z.to_nat (epa - pa))) (seg_turn epa) (pa, offset).

(** The number of the word where the multiboot header starts. *)
Definition is_header (m : Z → Z) (n : nat) : bool :=
  let x := λ k, ld32 m (SCRATCH + 4 * Z.of_nat k) in
  (x n =? MAGIC) && (u32 (x n + x (S n) + x (S (S n))) =? 0).
Definition find_header (m : Z → Z) : option nat := head (filter (λ n, is_header m n = true) (seq 0 2048)).

(** From the label [found_it] on. *)
Definition found_it (n : nat) : M (bst D) (option Z) :=
  s ← get;
  let m := bs_mem s in
  let hdr := SCRATCH + 4 * Z.of_nat n in
  if Z.land (flags m hdr) 0x10000 =? 0 then ret None else
  if load_addr m hdr >? header_addr m hdr then ret None else
  if load_end_addr m hdr <? load_addr m hdr then ret None else
  readseg (load_addr m hdr) (load_end_addr m hdr - load_addr m hdr)
    (u32 (4 * Z.of_nat n - (header_addr m hdr - load_addr m hdr))) ;;;
  s ← get;
  let m := bs_mem s in
  whenM (bss_end_addr m hdr >? load_end_addr m hdr)
    (put (mkBst (bs_dev s) (store (load_end_addr m hdr)
       (replicate (Z.to_nat (bss_end_addr m hdr - load_end_addr m hdr)) 0) m))) ;;;
  s ← get;
  ret (Some (entry_addr (bs_mem s) hdr)).

Definition bootmain : M (bst D) (option Z) :=
  readseg SCRATCH 8192 0 ;;;
  s ← get;
  match find_header (bs_mem s) with
  | Some n => found_it n
  | None => ret None
  end.
End code.

(** ** Reading the disk *)

Section spec.
Context {D : Type} `{Ata D} (polls : nat) `{!AtaLaws D polls}.
Implicit Types (s : bst D) (d : D).

Definition disk_ok d : Prop := ∀ n, length (sectors d 0 n) = 512%nat.

(** The bytes of the disk from sector 1 on. *)
Definition kimage d (i : Z) : Z := nth (Z.to_nat (i mod 512)) (sectors d 0 (i / 512 + 1)) 0.

Lemma wait_loop n s : ready n (bs_dev s) →
  ∃ d, loopM n disk_turn tt s = Ok tt (mkBst d (bs_mem s)) ∧ same polls (bs_dev s) d.
Proof.
  revert s. induction n as [|n IH]; intros [d m] Hr; [done|].
  cbn [ready bs_dev] in Hr. cbn [loopM]. pose proof (ata_inb (polls := polls) 0x1f7 d) as Hs.
  destruct (inb 0x1f7 d) as [r d1] eqn:E. cbn [snd] in Hs.
  rewrite (bind_ok _ _ _ (if Z.land r 0xC0 =? 0x40 then inr tt else inl tt) (mkBst d1 m)).
  2:{ unfold disk_turn, bin. go. cbn [bs_dev]. by rewrite E. }
  change (Z.lor IDE_BSY IDE_DRDY) with 0xC0 in Hr. change IDE_DRDY with 0x40 in Hr. destruct (_ =? _).
  - by exists d1.
  - destruct (IH (mkBst d1 m) Hr) as (d2 & E2 & S1 & S2 & S3). exists d2. split; [done|].
    cbn in *. destruct Hs as (T1 & T2 & T3). unfold same. by rewrite S1, S2, S3.
Qed.

Lemma waitdisk_run s : ∃ d, waitdisk polls s = Ok tt (mkBst d (bs_mem s)) ∧ same polls (bs_dev s) d.
Proof. apply wait_loop, ata_ready. Qed.

Lemma bout_run p v s : bout p v s = Ok tt (mkBst (outb p (u8 v) (bs_dev s)) (bs_mem s)).
Proof. done. Qed.

Lemma address_sector (r : Z → Z) (n : Z) : 0 ≤ n < 2 ^ 28 →
  r 0x1f3 = u8 n → r 0x1f4 = u8 (Z.shiftr n 8) → r 0x1f5 = u8 (Z.shiftr n 16) →
  r 0x1f6 = u8 (Z.lor (Z.shiftr n 24) 0xE0) → lba r = n ∧ drive r = 0.
Proof.
  intros Hn H3 H4 H5 H6. rewrite Z.shiftr_div_pow2 in H4, H5, H6 by lia.
  assert (0 ≤ n / 2 ^ 24 < 16) as Hh by (split; [apply Z.div_pos; lia|apply Z.div_lt_upper_bound; lia]).
  assert (r 0x1f6 = n / 2 ^ 24 + 14 * 2 ^ 4) as E6.
  { rewrite H6, Z.lor_comm, (lor_add _ _ 4) by (done || lia). rewrite wrap_small; lia. }
  unfold lba, drive. rewrite H3, H4, H5, E6. change 0x0f with (Z.ones 4). rewrite (Z.land_ones _ 4) by lia.
  rewrite Z.shiftr_div_pow2, Z.mod_add, Z.div_add by lia.
  rewrite (Z.div_small (n / 2 ^ 24)), (Z.mod_small (n / 2 ^ 24)) by lia. split; [|done].
  unfold wrap. pose proof (Z.div_mod n (2 ^ 8)) as D1. pose proof (Z.div_mod (n / 2 ^ 8) (2 ^ 8)) as D2.
  pose proof (Z.div_mod (n / 2 ^ 16) (2 ^ 8)) as D3. rewrite !Z.div_div in D2, D3 by lia.
  change (2 ^ 8 * 2 ^ 8) with (2 ^ 16) in *. change (2 ^ 16 * 2 ^ 8) with (2 ^ 24) in *. lia.
Qed.

(** The controller after the command block of a sector. *)
Definition issued (n : Z) d : D :=
  outb 0x1F7 (u8 0x20) (outb 0x1F6 (u8 (Z.lor (Z.shiftr n 24) 0xE0)) (outb 0x1F5 (u8 (Z.shiftr n 16))
    (outb 0x1F4 (u8 (Z.shiftr n 8)) (outb 0x1F3 (u8 n) (outb 0x1F2 (u8 1) d))))).

Lemma issued_spec n d : 0 ≤ n < 2 ^ 28 →
  regs (issued n d) 0x1f2 = 1 ∧ lba (regs (issued n d)) = n ∧ drive (regs (issued n d)) = 0 ∧
  command (issued n d) = Some IDE_CMD_READ ∧ sectors (issued n d) = sectors d.
Proof.
  intros Hn. unfold issued. destruct (ata_command (u8 0x20) (outb 0x1F6 (u8 (Z.lor (Z.shiftr n 24) 0xE0))
    (outb 0x1F5 (u8 (Z.shiftr n 16)) (outb 0x1F4 (u8 (Z.shiftr n 8)) (outb 0x1F3 (u8 n) (outb 0x1F2 (u8 1) d))))))
    as (R & C & S).
  rewrite C, S, R, !(λ p v d H, proj1 (ata_reg p v d H)), !(λ p v d H, proj2 (ata_reg p v d H)) by lia.
  split; [|edestruct address_sector as [-> ->]; [exact Hn|..|done]].
  all: repeat (rewrite fn_lookup_insert_ne by done); by rewrite fn_lookup_insert.
Qed.

Lemma readsect_run dst off s : 0 ≤ off < 2 ^ 28 →
  ∃ d, readsect polls dst off s = Ok tt (mkBst d (store dst (sectors (bs_dev s) 0 off) (bs_mem s))) ∧
    sectors d = sectors (bs_dev s).
Proof.
  intros Ho. unfold readsect. destruct (waitdisk_run s) as (d0 & E0 & _ & _ & S0). step E0.
  rewrite !(bind_ok _ _ _ _ _ (bout_run _ _ _)). cbn [bs_dev bs_mem]. fold (issued off d0).
  destruct (issued_spec off d0 Ho) as (C1 & L1 & D1 & K1 & S1).
  destruct (waitdisk_run (mkBst (issued off d0) (bs_mem s))) as (d2 & E2 & R2 & K2 & S2).
  cbn [bs_dev bs_mem] in *. step E2. go. cbn [bs_dev bs_mem].
  destruct (ata_insl d2) as [A B]; [by rewrite K2|by rewrite R2|].
  change (Z.to_nat (SECTSIZE / 4)) with 128%nat. destruct (insl _ _ _) as [l d3]. cbn [fst snd] in *.
  exists d3. subst l. by rewrite R2, L1, D1, B, S2, S1, S0.
Qed.

Lemma store_at dst (l : list Z) m a : 0 ≤ dst → dst + Z.of_nat (length l) ≤ 2 ^ 32 → 0 ≤ a < 2 ^ 32 →
  store dst l m a = if (dst <=? a) && (a <? dst + Z.of_nat (length l)) then nth (Z.to_nat (a - dst)) l 0 else m a.
Proof.
  intros Hd Hl Ha. unfold store. destruct (Z.leb_spec dst a); cbn [andb].
  - rewrite wrap_small by lia. destruct (Z.ltb_spec a (dst + Z.of_nat (length l))).
    + rewrite nth_lookup. by destruct (lookup_lt_is_Some_2 l (Z.to_nat (a - dst))) as [v ->]; [lia|].
    + by rewrite lookup_ge_None_2 by lia.
  - unfold wrap. rewrite <- (Z.mod_add _ 1) by lia. rewrite Z.mod_small by lia.
    by rewrite lookup_ge_None_2 by lia.
Qed.

(** What [k] sectors from number [o] on leave in memory. *)
Definition loaded (p : Z) (k : nat) (o : Z) d (m m' : Z → Z) : Prop :=
  ∀ a, 0 ≤ a < 2 ^ 32 →
    m' a = if (p <=? a) && (a <? p + 512 * Z.of_nat k) then kimage d (512 * (o - 1) + (a - p)) else m a.

Lemma seg_loop k f epa p o s :
  disk_ok (bs_dev s) → 0 ≤ p → epa ≤ p + 512 * Z.of_nat k → (k = 0%nat ∨ p + 512 * (Z.of_nat k - 1) < epa) →
  p + 512 * Z.of_nat k < 2 ^ 32 → 1 ≤ o → o + Z.of_nat k < 2 ^ 28 → (k < f)%nat →
  ∃ s', loopM f (seg_turn polls epa) (p, o) s = Ok tt s' ∧ sectors (bs_dev s') = sectors (bs_dev s) ∧
    loaded p k o (bs_dev s) (bs_mem s) (bs_mem s').
Proof.
  revert f p o s. induction k as [|k IH]; intros f p o s Hd Hp He Hk Hb Ho Hs Hf; (destruct f as [|f]; [lia|]);
    cbn [loopM]; unfold seg_turn at 1.
  - rewrite (proj2 (Z.ltb_ge p epa)) by lia. go. exists s. split; [done|]. split; [done|]. intros a Ha.
    by destruct (Z.leb_spec p a), (Z.ltb_spec a (p + 512 * Z.of_nat 0)); try lia.
  - rewrite (proj2 (Z.ltb_lt p epa)) by lia. destruct (readsect_run p o s) as (d & E & Sd); [lia|].
    erewrite (bind_ok _ _ s) by (by step E). cbn beta iota. rewrite !wrap_small by (unfold SECTSIZE; lia).
    unfold SECTSIZE.
    edestruct (IH f (p + 512) (o + 1)) as (s' & E' & S' & L').
    9:{ rewrite E'. exists s'. split; [done|]. cbn [bs_dev] in S'. split; [congruence|]. intros a Ha.
        rewrite L' by done. cbn [bs_dev bs_mem]. rewrite store_at, Hd by (rewrite ?Hd; lia).
        unfold kimage. rewrite Sd.
        destruct (Z.leb_spec (p + 512) a), (Z.leb_spec p a), (Z.ltb_spec a (p + 512 + 512 * Z.of_nat k)),
          (Z.ltb_spec a (p + 512 * Z.of_nat (S k))), (Z.ltb_spec a (p + Z.of_nat 512)); cbn [andb]; try lia; try done.
        - repeat (f_equal; try lia).
        - rewrite Z.mul_comm, Z.add_comm, Z.mod_add, Z.div_add, Z.mod_small, Z.div_small by lia.
          repeat (f_equal; try lia). }
    all: cbn [bs_dev]; try lia. intros n. by rewrite Sd.
Qed.

(** [readseg] loads [count] bytes from [off] on, and changes less than a sector on either side. *)
Lemma readseg_run pa count off s :
  disk_ok (bs_dev s) → 0 ≤ off < 2 ^ 32 → off mod 512 ≤ pa → 0 ≤ count → pa + count ≤ 2 ^ 32 - 512 →
  ∃ s', readseg polls pa count off s = Ok tt s' ∧ sectors (bs_dev s') = sectors (bs_dev s) ∧
    (∀ a, pa ≤ a < pa + count → bs_mem s' a = kimage (bs_dev s) (off + (a - pa))) ∧
    (∀ a, 0 ≤ a < 2 ^ 32 → a < pa - off mod 512 ∨ pa + count + 511 ≤ a → bs_mem s' a = bs_mem s a).
Proof.
  intros Hd Ho Hp Hc Hb. unfold readseg, SECTSIZE. pose proof (Z.mod_pos_bound off 512).
  pose proof (Z.div_mod off 512). assert (0 ≤ off / 512 < 2 ^ 23) by lia.
  rewrite !wrap_small by lia. set (p := pa - off mod 512).
  set (k := Z.to_nat ((pa + count - p + 511) / 512)).
  assert (Z.of_nat k = (pa + count - p + 511) / 512) as Ek by (unfold k; rewrite Z2Nat.id; [done|apply Z.div_pos; lia]).
  pose proof (Z.div_mod (pa + count - p + 511) 512). pose proof (Z.mod_pos_bound (pa + count - p + 511) 512).
  assert (k = 0%nat ∨ 1 ≤ Z.of_nat k) by lia.
  destruct (seg_loop k (S (Z.to_nat (pa + count - p))) (pa + count) p (off / 512 + 1) s) as (s' & E & S' & L); try lia.
  { done. }
  exists s'. split; [exact E|]. split; [done|]. split.
  - intros a Ha. rewrite L by lia. rewrite (proj2 (Z.leb_le p a)), (proj2 (Z.ltb_lt a _)) by lia.
    cbn [andb]. f_equal. lia.
  - intros a Ha Hs. rewrite L by lia. destruct (Z.leb_spec p a), (Z.ltb_spec a (p + 512 * Z.of_nat k)); try done. lia.
Qed.

(** ** The kernel in memory *)

(** The word of the image at byte [i], and the test of the search for the header. *)
Definition word d (i : Z) : Z := le_val ((λ j, kimage d (i + j)) <$> [0; 1; 2; 3]).
Definition header_at d (k : nat) : bool :=
  let x := λ j, word d (4 * Z.of_nat j) in (x k =? MAGIC) && (u32 (x k + x (S k) + x (S (S k))) =? 0).

(** A kernel whose multiboot header is the word [n] of the disk image, which
    is to run in the memory from [la] to [be] with the image up to [le]. *)
Record bootable d (n : nat) (ha la le be : Z) : Prop := mkBootable {
  bo_disk : disk_ok d;
  bo_room : 4 * Z.of_nat n + 32 ≤ 8192;
  bo_found : header_at d n = true;
  bo_first k : (k < n)%nat → header_at d k = false;
  bo_flags : Z.land (word d (4 * Z.of_nat n + 4)) 0x10000 ≠ 0;
  bo_ha : word d (4 * Z.of_nat n + 12) = ha;
  bo_la : word d (4 * Z.of_nat n + 16) = la;
  bo_le : word d (4 * Z.of_nat n + 20) = le;
  bo_be : word d (4 * Z.of_nat n + 24) = be;
  bo_header : la ≤ ha ≤ la + 4 * Z.of_nat n;
  bo_load : SCRATCH + 8192 + 512 ≤ la ≤ le;
  bo_end : le ≤ 2 ^ 32 - 512;
  bo_bss : be ≤ 2 ^ 32
}.

Definition in_scratch d (m : Z → Z) : Prop := ∀ i, 0 ≤ i < 8192 → m (SCRATCH + i) = kimage d i.

Lemma in_scratch_word d m i : in_scratch d m → 0 ≤ i → i + 4 ≤ 8192 → ld32 m (SCRATCH + i) = word d i.
Proof.
  intros Hm Hi Hj. unfold ld32, word. f_equal. apply list_fmap_ext. intros k j Hk.
  assert (0 ≤ j < 4) by (do 4 (destruct k as [|k]; [injection Hk as <-; lia|]); done).
  rewrite wrap_small by (unfold SCRATCH; lia). rewrite <- Z.add_assoc. apply Hm. lia.
Qed.

Lemma is_header_image d m k : in_scratch d m → 4 * Z.of_nat k + 12 ≤ 8192 → is_header m k = header_at d k.
Proof.
  intros Hm Hk. unfold is_header, header_at. by rewrite !(in_scratch_word d) by (done || lia).
Qed.

Lemma find_header_image d m n : in_scratch d m → 4 * Z.of_nat n + 32 ≤ 8192 → header_at d n = true →
  (∀ k, (k < n)%nat → header_at d k = false) → find_header m = Some n.
Proof.
  intros Hm Hn Hh Hb. unfold find_header. replace 2048%nat with (n + S (2047 - n))%nat by lia.
  rewrite seq_app. apply head_filter_first; [|by rewrite (is_header_image d) by (done || lia)].
  apply Forall_forall. intros k Hk%elem_of_seq. rewrite (is_header_image d) by (done || lia). rewrite Hb; [done|lia].
Qed.

Lemma fields_image d m n : in_scratch d m → 4 * Z.of_nat n + 32 ≤ 8192 →
  let hdr := SCRATCH + 4 * Z.of_nat n in
  flags m hdr = word d (4 * Z.of_nat n + 4) ∧ header_addr m hdr = word d (4 * Z.of_nat n + 12) ∧
  load_addr m hdr = word d (4 * Z.of_nat n + 16) ∧ load_end_addr m hdr = word d (4 * Z.of_nat n + 20) ∧
  bss_end_addr m hdr = word d (4 * Z.of_nat n + 24) ∧ entry_addr m hdr = word d (4 * Z.of_nat n + 28).
Proof.
  intros Hm Hn. cbn zeta. unfold flags, header_addr, load_addr, load_end_addr, bss_end_addr, entry_addr.
  by rewrite <- !Z.add_assoc, !(in_scratch_word d) by (done || lia).
Qed.

(** Zeroing the memory behind the image. *)
Lemma bss_at le be m a : 0 ≤ le → be ≤ 2 ^ 32 → 0 ≤ a < 2 ^ 32 →
  store le (replicate (Z.to_nat (be - le)) 0) m a = if (le <=? a) && (a <? be) then 0 else m a.
Proof.
  intros Hl Hb Ha. destruct (Z.leb_spec le be).
  - rewrite store_at by (rewrite ?length_replicate; lia). rewrite length_replicate.
    replace (le + Z.of_nat (Z.to_nat (be - le))) with be by lia.
    destruct (_ && _); [|done]. rewrite nth_lookup. destruct (_ !! _) eqn:E; [|done].
    by apply lookup_replicate in E as [-> _].
  - replace (Z.to_nat (be - le)) with 0%nat by lia. cbn [replicate]. unfold store. rewrite lookup_nil. cbn.
    by destruct (Z.leb_spec le a), (Z.ltb_spec a be); try lia.
Qed.

Lemma bss_run s le be : 0 ≤ le → be ≤ 2 ^ 32 →
  ∃ s', whenM (be >? le) (put (mkBst (bs_dev s) (store le (replicate (Z.to_nat (be - le)) 0) (bs_mem s)))) s = Ok tt s' ∧
    ∀ a, 0 ≤ a < 2 ^ 32 → bs_mem s' a = if (le <=? a) && (a <? be) then 0 else bs_mem s a.
Proof.
  intros Hl Hb. destruct (be >? le) eqn:E.
  - eexists. split; [reflexivity|]. intros a Ha. by apply bss_at.
  - exists s. split; [done|]. intros a Ha. apply Z.gtb_ltb in E || rewrite Z.gtb_ltb in E. apply Z.ltb_ge in E.
    by destruct (Z.leb_spec le a), (Z.ltb_spec a be); try lia.
Qed.

Lemma found_run s d n ha la le be : bootable d n ha la le be → sectors (bs_dev s) = sectors d →
  in_scratch d (bs_mem s) →
  ∃ s', found_it polls n s = Ok (Some (word d (4 * Z.of_nat n + 28))) s' ∧
    (∀ a, la ≤ a < le → bs_mem s' a = kimage d (4 * Z.of_nat n - (ha - la) + (a - la))) ∧
    (∀ a, le ≤ a < be → bs_mem s' a = 0).
Proof.
  intros [] Es M1. unfold found_it. rewrite (bind_ok get _ s s s eq_refl). cbn beta zeta. destruct (fields_image d (bs_mem s) n M1) as (-> & -> & -> & -> & _); [done|].
  rewrite bo_ha0, bo_la0, bo_le0. unfold SCRATCH in bo_load0.
  rewrite (proj2 (Z.eqb_neq _ _) bo_flags0), (proj2 (Z.ltb_ge _ _)), Z.gtb_ltb, (proj2 (Z.ltb_ge _ _)) by lia.
  rewrite (wrap_small 32 (_ - _)) by lia. set (off := 4 * Z.of_nat n - (ha - la)).
  pose proof (Z.mod_pos_bound off 512).
  destruct (readseg_run la (le - la) off s) as (s1 & E1 & _ & L1 & F1); try (subst off; lia).
  { intros i. by rewrite Es. }
  assert (in_scratch d (bs_mem s1)) as M2.
  { intros i Hi. unfold SCRATCH. rewrite F1 by lia. by apply M1. }
  rewrite (bind_ok _ _ _ _ _ E1), (bind_ok get _ s1 s1 s1 eq_refl). cbn beta zeta. destruct (fields_image d (bs_mem s1) n M2) as (_ & _ & _ & -> & -> & En); [done|].
  rewrite bo_le0, bo_be0. unfold kimage in L1. rewrite Es in L1. fold (kimage d) in L1.
  destruct (bss_run s1 le be) as (s2 & E2 & Z2); [lia|done|]. rewrite (bind_ok _ _ _ _ _ E2).
  rewrite (bind_ok get _ s2 s2 s2 eq_refl). exists s2.
  assert (in_scratch d (bs_mem s2)) as M3.
  { intros i Hi. unfold SCRATCH. rewrite Z2, (proj2 (Z.leb_gt _ _)) by lia. by apply M2. }
  destruct (fields_image d (bs_mem s2) n M3) as (_ & _ & _ & _ & _ & ->); [done|]. split; [done|]. split; intros a Ha.
  - rewrite Z2, (proj2 (Z.leb_gt _ _)) by lia. apply L1. lia.
  - by rewrite Z2, (proj2 (Z.leb_le _ _)), (proj2 (Z.ltb_lt _ _)) by lia.
Qed.

(** C36: on a disk with a kernel the boot loader returns to the entry point of
    the multiboot header; the memory from the load address to the end of the
    load holds the bytes of the disk image that the header names, and the
    memory from there to the end of the bss is zero. *)
Theorem boot_loads s n ha la le be : bootable (bs_dev s) n ha la le be →
  ∃ s', bootmain polls s = Ok (Some (word (bs_dev s) (4 * Z.of_nat n + 28))) s' ∧
    (∀ a, la ≤ a < le → bs_mem s' a = kimage (bs_dev s) (4 * Z.of_nat n - (ha - la) + (a - la))) ∧
    (∀ a, le ≤ a < be → bs_mem s' a = 0).
Proof.
  intros B. unfold bootmain, SCRATCH. pose proof (bo_disk _ _ _ _ _ _ B) as Hd.
  destruct (readseg_run 0x10000 8192 0 s) as (s1 & E1 & S1 & L1 & _); try done. rewrite (bind_ok _ _ _ _ _ E1).
  rewrite (bind_ok get _ s1 s1 s1 eq_refl).
  assert (in_scratch (bs_dev s) (bs_mem s1)) as M1.
  { intros i Hi. unfold SCRATCH. rewrite L1 by lia. f_equal. lia. }
  rewrite (find_header_image _ _ n M1) by apply B. by apply found_run.
Qed.
End spec.

(** A disk with a kernel of 600 bytes, whose header is its second word. *)
Definition ex_words : list Z :=
  [0; MAGIC; 0x10000; 2 ^ 32 - MAGIC - 0x10000; 0x100004; 0x100000; 0x100258; 0x1002BC; 0x100020].
Definition ex_sectors (u n : Z) : list Z :=
  if n =? 1 then (ex_words ≫= le_bytes 4) ++ replicate 476 9 else replicate 512 7.
Definition ex_boot : bst pio := mkBst (mkPio (λ _, 0) None ex_sectors) (λ _, 0xCC).

Lemma boot_loads_witness :
  bootable 1 (bs_dev ex_boot) 1 0x100004 0x100000 0x100258 0x1002BC ∧
  ∃ s', bootmain 1 ex_boot = Ok (Some 0x100020) s' ∧ bs_mem s' 0x100257 = 7 ∧ bs_mem s' 0x100258 = 0.
Proof.
  assert (bootable 1 (bs_dev ex_boot) 1 0x100004 0x100000 0x100258 0x1002BC) as B.
  { split.
    1:{ intros n. cbn [sectors pio_laws]. cbn. unfold ex_sectors. by destruct (n =? 1). }
    3:{ intros k Hk. replace k with 0%nat by lia. by vm_compute. }
    all: by vm_compute. }
  split; [exact B|]. destruct (boot_loads 1 ex_boot _ _ _ _ _ B) as (s' & E & L & Z0). exists s'.
  split; [rewrite E; f_equal; by vm_compute|].
  split; [etrans; [apply L; split; [done|reflexivity]|by vm_compute]|apply Z0; split; [done|reflexivity]].
Defined.
End Bootmain.
