(* ===== verification/BufLayer.v ===== *)
(** * The interface of the buffer cache

    log.c and fs.c use the buffer cache only through [bread], [bwrite],
    [brelse] and the fields of the buffer they hold.  [BufOps] names these
    operations over an arbitrary state, [BufLaws] states what they promise
    in terms of the view [bview]; the instances at the end are bio.c itself.
    The clients are proved against the classes. *)

From S2P Require Import Prelude Bytes Spinlock Sched Dll Bio BioSpec.
From Stdlib Require Import FunctionalExtensionality.

Class BufOps (S : Type) := {
  bmach : S → mach;
  set_bmach : mach → S → S;
  op_bread : Z → Z → M S nat;
  op_bwrite : nat → M S unit;
  op_brelse : nat → M S unit;
  op_data : nat → M S block;
  op_set : nat → block → M S unit;
  op_blockno : nat → M S Z;
  op_dirty : nat → M S unit
}.

(** The view after an assignment to [b->data] and after setting [B_DIRTY]. *)
Definition set_view (bn : Z) (d : block) (v : bview) : bview :=
  mkView (<[bn := d]> (v_mem v)) (v_disk v) (v_busy v) (v_pin v) (v_avail v) (v_trace v).
Definition pin_view (bn : Z) (v : bview) : bview :=
  mkView (v_mem v) (v_disk v) (v_busy v) (<[bn := true]> (v_pin v)) (v_avail v) (v_trace v).

(** A handle may be given back when its changes are pinned or on disk. *)
Definition clean (v : bview) (bn : Z) : Prop := v_pin v bn = true ∨ v_mem v bn = v_disk v bn.

(** A buffer for [bn] can be found. *)
Definition room (v : bview) (bn : Z) : Prop := v_pin v bn = true ∨ (0 < v_avail v)%nat.

Definition unheld (v : bview) (bn : Z) : Prop := ∀ h, v_busy v h ≠ Some bn.

Class BufLaws (S : Type) `{BufOps S} := {
  view : S → bview;
  binvS : S → Prop;
  nblocks : S → Z;

  get_set_mach s m : bmach (set_bmach m s) = m;
  set_set_mach s m m' : set_bmach m (set_bmach m' s) = set_bmach m s;
  set_get_mach s : set_bmach (bmach s) s = s;
  view_set_mach s m : view (set_bmach m s) = view s;
  binv_set_mach s m : binvS s → binvS (set_bmach m s);
  nblocks_set_mach s m : nblocks (set_bmach m s) = nblocks s;

  nblocks_small s : binvS s → nblocks s < 2 ^ 31;
  mem_length s bn : binvS s → length (v_mem (view s) bn) = BSIZE;
  busy_once s h h' bn : binvS s →
    v_busy (view s) h = Some bn → v_busy (view s) h' = Some bn → h = h';
  idle_clean s bn : binvS s → unheld (view s) bn → clean (view s) bn;
  busy_range s h bn : binvS s → v_busy (view s) h = Some bn → 0 ≤ bn < nblocks s;

  law_bread s bn : binvS s → mok (bmach s) → lfree L_bcache (bmach s) →
    lfree L_ptable (bmach s) → 0 ≤ bn < nblocks s → unheld (view s) bn → room (view s) bn →
    ∃ h s', op_bread ROOTDEV bn s = Ok h s' ∧ binvS s' ∧ msim (bmach s) (bmach s') ∧
      nblocks s' = nblocks s ∧ v_busy (view s) h = None ∧ view s' = open_view h bn (view s);
  law_brelse s h bn : binvS s → mok (bmach s) → lfree L_bcache (bmach s) →
    lfree L_ptable (bmach s) → v_busy (view s) h = Some bn → clean (view s) bn →
    ∃ s', op_brelse h s = Ok tt s' ∧ binvS s' ∧ msim (bmach s) (bmach s') ∧
      nblocks s' = nblocks s ∧ view s' = close_view h bn (view s);
  law_bwrite s h bn : binvS s → v_busy (view s) h = Some bn →
    ∃ s', op_bwrite h s = Ok tt s' ∧ binvS s' ∧ bmach s' = bmach s ∧
      nblocks s' = nblocks s ∧ view s' = write_view bn (view s);
  law_data s h bn : binvS s → v_busy (view s) h = Some bn →
    op_data h s = Ok (v_mem (view s) bn) s;
  law_blockno s h bn : binvS s → v_busy (view s) h = Some bn → op_blockno h s = Ok bn s;
  law_set s h bn d : binvS s → v_busy (view s) h = Some bn → length d = BSIZE →
    ∃ s', op_set h d s = Ok tt s' ∧ binvS s' ∧ bmach s' = bmach s ∧
      nblocks s' = nblocks s ∧ view s' = set_view bn d (view s);
  law_dirty s h bn : binvS s → v_busy (view s) h = Some bn →
    ∃ s', op_dirty h s = Ok tt s' ∧ binvS s' ∧ bmach s' = bmach s ∧
      nblocks s' = nblocks s ∧ view s' = pin_view bn (view s)
}.

(** ** bio.c implements the interface *)

#[export] Instance bio_ops : BufOps bio := {|
  bmach := bio_m;
  set_bmach := set_m;
  op_bread := bread;
  op_bwrite := bwrite;
  op_brelse := brelse;
  op_data := bdata;
  op_set := bset;
  op_blockno := bblockno;
  op_dirty := bdirty
|}.

(** Block numbers fit an [int]: the disk has [(uint)size / 512] blocks. *)
Definition binv' (s : bio) : Prop := binv s ∧ disksize s < 2 ^ 31.

Lemma bio_mem_length s bn : binv s → length (v_mem (abs s) bn) = BSIZE.
Proof.
  intros (_ & Hf & Hu & Hd). cbn [abs v_mem].
  destruct (mem_of_cases (bufs s) (memdisk s) bn) as [(i & bf & Hi & _ & _ & ->)|[_ ->]]; [|done].
  by destruct (Forall_lookup_1 _ _ _ _ Hf Hi).
Qed.

Lemma bio_busy_once s h h' bn : binv s →
  v_busy (abs s) h = Some bn → v_busy (abs s) h' = Some bn → h = h'.
Proof.
  intros Hi H1 H2.
  destruct (busy_inv s h bn Hi H1) as (b1 & _ & _ & B1 & _ & _ & D1 & K1 & _).
  destruct (busy_inv s h' bn Hi H2) as (b2 & _ & _ & B2 & _ & _ & D2 & K2 & _).
  destruct Hi as (_ & _ & Hu & _). eapply Hu; eauto. congruence.
Qed.

Lemma bio_idle_clean s bn : binv s → unheld (abs s) bn → clean (abs s) bn.
Proof.
  intros Hi Hu. pose proof Hi as (_ & Hf & Huq & _). unfold clean, unheld in *. cbn [abs v_pin v_mem v_disk v_busy] in *.
  destruct (mem_of_cases (bufs s) (memdisk s) bn) as [(i & bf & Hb & Hd & Hk & E)|[_ E]]; [|by right].
  destruct (Forall_lookup_1 _ _ _ _ Hf Hb) as (_ & [[_ Hno]|(_ & _ & _ & [Hx|[Hx|Hx]])]).
  - by rewrite Hd in Hno.
  - exfalso. apply (Hu i). unfold busy_of. by rewrite Hb, Hx, Hk.
  - left. by rewrite <- Hk, (pin_of_lookup _ i bf).
  - right. by rewrite E, Hx, Hk.
Qed.

#[export] Program Instance bio_laws : BufLaws bio := {|
  view := abs;
  binvS := binv';
  nblocks := disksize
|}.
Next Obligation. by intros. Qed.
Next Obligation. by intros. Qed.
Next Obligation. by intros []. Qed.
Next Obligation. by intros. Qed.
Next Obligation. by intros s m [H ?]. Qed.
Next Obligation. by intros. Qed.
Next Obligation. by intros s [_ ?]. Qed.
Next Obligation. intros s bn [H _]. by apply bio_mem_length. Qed.
Next Obligation. intros s h h' bn [H _]. by apply bio_busy_once. Qed.
Next Obligation. intros s bn [H _]. by apply bio_idle_clean. Qed.
Next Obligation.
  intros s h bn [H _] Hb. by destruct (busy_inv s h bn H Hb) as (? & _ & _ & _ & _ & _ & _ & _ & ? & _).
Qed.
Next Obligation.
  intros s bn [Hi Hn] Hm Hl Hp Hr Hu Hroom.
  destruct (bread_ok s bn) as (h & s' & E & Hi' & Hm' & Hn' & Hf & Ha); try done.
  exists h, s'. cbn. split_and!; try done; [split; [done|lia]|by rewrite Hm'].
Qed.
Next Obligation.
  intros s h bn [Hi Hn] Hm Hl Hp Hb Hc.
  destruct (brelse_ok s h bn) as (s' & E & Hi' & Hm' & Hn' & Ha); try done.
  exists s'. cbn. rewrite Hm'. split_and!; try done; [split; [done|lia]|apply msim_wake].
Qed.
Next Obligation.
  intros s h bn [Hi Hn] Hb. destruct (bwrite_ok s h bn) as (s' & E & Hi' & Hm' & Hn' & Ha); try done.
  exists s'. cbn. split_and!; try done. split; [done|lia].
Qed.
Next Obligation. intros s h bn [Hi _] Hb. by apply bdata_ok. Qed.
Next Obligation. intros s h bn [Hi _] Hb. by apply bblockno_ok. Qed.
Next Obligation.
  intros s h bn d [Hi Hn] Hb Hd.
  destruct (bset_ok s h bn d) as (s' & E & Hi' & Hm' & Hn' & Ha); try done.
  exists s'. cbn. split_and!; try done. split; [done|lia].
Qed.
Next Obligation.
  intros s h bn [Hi Hn] Hb.
  destruct (bdirty_ok s h bn) as (s' & E & Hi' & Hm' & Hn' & Ha); try done.
  exists s'. cbn. split_and!; try done. split; [done|lia].
Qed.

(** ** Using the interface *)

Section client.
Context {S : Type} `{BufLaws S}.
Implicit Types (s : S) (v : bview).

(** The cache is consistent and the thread may enter its critical section. *)
Definition ready s : Prop :=
  binvS s ∧ mok (bmach s) ∧ lfree L_bcache (bmach s) ∧ lfree L_ptable (bmach s).

(** [s'] is a ready state with view [v] on the same machine as [s]. *)
Definition goes s s' v : Prop :=
  ready s' ∧ msim (bmach s) (bmach s') ∧ nblocks s' = nblocks s ∧ view s' = v.

Lemma goes_trans s s1 s2 v v' : goes s s1 v → goes s1 s2 v' → goes s s2 v'.
Proof.
  intros (_ & M1 & N1 & _) (R & M2 & N2 & V2). split_and!; try done; [by etrans|congruence].
Qed.

Lemma goes_refl s : ready s → goes s s (view s).
Proof. intros. by split_and!. Qed.

Lemma ready_same s s' : ready s → binvS s' → msim (bmach s) (bmach s') → ready s'.
Proof. intros (_ & ? & ? & ?) Hi Hm. unfold ready. by rewrite <- Hm. Qed.

Lemma goes_intro s s' v : ready s → binvS s' → msim (bmach s) (bmach s') →
  nblocks s' = nblocks s → view s' = v → goes s s' v.
Proof. intros. split; [by eapply ready_same|done]. Qed.

Lemma goes_same_mach s s' v : ready s → binvS s' → bmach s' = bmach s →
  nblocks s' = nblocks s → view s' = v → goes s s' v.
Proof. intros ? ? Hm ? ?. apply goes_intro; try done. by rewrite Hm. Qed.

Lemma run_bread s bn : ready s → 0 ≤ bn < nblocks s → unheld (view s) bn → room (view s) bn →
  ∃ h s', op_bread ROOTDEV bn s = Ok h s' ∧ v_busy (view s) h = None ∧
    goes s s' (open_view h bn (view s)).
Proof.
  intros Hr Hn Hu Hroom. pose proof Hr as (Hi & Hm & Hl & Hp).
  destruct (law_bread s bn) as (h & s' & E & Hi' & Hm' & Hn' & Hb & Hv); try done.
  exists h, s'. split_and!; try done. by apply goes_intro.
Qed.

Lemma run_brelse s h bn : ready s → v_busy (view s) h = Some bn → clean (view s) bn →
  ∃ s', op_brelse h s = Ok tt s' ∧ goes s s' (close_view h bn (view s)).
Proof.
  intros Hr Hb Hc. pose proof Hr as (Hi & Hm & Hl & Hp).
  destruct (law_brelse s h bn) as (s' & E & Hi' & Hm' & Hn' & Hv); try done.
  exists s'. split; [done|]. by apply goes_intro.
Qed.

Lemma run_bwrite s h bn : ready s → v_busy (view s) h = Some bn →
  ∃ s', op_bwrite h s = Ok tt s' ∧ goes s s' (write_view bn (view s)).
Proof.
  intros Hr Hb. destruct (law_bwrite s h bn) as (s' & E & Hi' & Hm' & Hn' & Hv); try done.
  { apply Hr. }
  exists s'. split; [done|]. by apply goes_same_mach.
Qed.

Lemma run_set s h bn d : ready s → v_busy (view s) h = Some bn → length d = BSIZE →
  ∃ s', op_set h d s = Ok tt s' ∧ goes s s' (set_view bn d (view s)).
Proof.
  intros Hr Hb Hd. destruct (law_set s h bn d) as (s' & E & Hi' & Hm' & Hn' & Hv); try done.
  { apply Hr. }
  exists s'. split; [done|]. by apply goes_same_mach.
Qed.

Lemma run_dirty s h bn : ready s → v_busy (view s) h = Some bn →
  ∃ s', op_dirty h s = Ok tt s' ∧ goes s s' (pin_view bn (view s)).
Proof.
  intros Hr Hb. destruct (law_dirty s h bn) as (s' & E & Hi' & Hm' & Hn' & Hv); try done.
  { apply Hr. }
  exists s'. split; [done|]. by apply goes_same_mach.
Qed.

Lemma run_data s h bn : ready s → v_busy (view s) h = Some bn →
  op_data h s = Ok (v_mem (view s) bn) s.
Proof. intros Hr Hb. apply law_data; [apply Hr|done]. Qed.

Lemma run_blockno s h bn : ready s → v_busy (view s) h = Some bn → op_blockno h s = Ok bn s.
Proof. intros Hr Hb. apply law_blockno; [apply Hr|done]. Qed.
End client.
