(* ===== verification/Ondisk.v ===== *)
(** * The on-disk format (include/fs.h)

    Structures of the file system image with the layout the compiler gives
    them: little-endian fields at fixed byte offsets. *)

From S2P Require Import Prelude Bytes Bio.

Definition ROOTINO : Z := 1.
Definition NDIRECT : nat := 10.
Definition NINDIRECT : nat := 128.
Definition MAXFILE : nat := 138.
(** [MAXFILE*BSIZE], the largest file in bytes. *)
Definition MAXBYTES : Z := 70656.
Definition DIRSIZ : nat := 14.
Definition T_DIR : Z := 1.
Definition T_FILE : Z := 2.
Definition T_DEV : Z := 3.

Record superblock := mkSb { sb_size : Z; sb_nblocks : Z; sb_ninodes : Z; sb_nlog : Z }.

Definition sb_dec (l : list Z) : superblock :=
  mkSb (get32 0 l) (get32 4 l) (get32 8 l) (get32 12 l).
Definition sb_enc (sb : superblock) : list Z :=
  le_bytes 4 (sb_size sb) ++ le_bytes 4 (sb_nblocks sb) ++ le_bytes 4 (sb_ninodes sb) ++
  le_bytes 4 (sb_nlog sb).

Record dinode := mkDinode {
  di_type : Z; di_major : Z; di_minor : Z; di_nlink : Z; di_ownerid : Z; di_groupid : Z;
  di_mode : Z; di_size : Z; di_addrs : list Z
}.

Definition DINODE : nat := 64.
Definition IPB : Z := 8.
Definition IBLOCK (i : Z) : Z := i / IPB + 2.
Definition BPB : Z := 4096.
Definition BBLOCK (b ninodes : Z) : Z := b / BPB + ninodes / IPB + 3.

(** A [short] field is read as a signed 16-bit integer. *)
Definition getS (off : nat) (l : list Z) : Z := i16 (get16 off l).

Definition dinode_dec (l : list Z) : dinode :=
  mkDinode (getS 0 l) (getS 2 l) (getS 4 l) (getS 6 l) (getS 8 l) (getS 10 l)
    (get32 12 l) (get32 16 l) ((λ i, get32 (20 + 4 * i) l) <$> seq 0 (S NDIRECT)).

Definition dinode_enc (d : dinode) : list Z :=
  le_bytes 2 (di_type d) ++ le_bytes 2 (di_major d) ++ le_bytes 2 (di_minor d) ++
  le_bytes 2 (di_nlink d) ++ le_bytes 2 (di_ownerid d) ++ le_bytes 2 (di_groupid d) ++
  le_bytes 4 (di_mode d) ++ le_bytes 4 (di_size d) ++ (di_addrs d ≫= le_bytes 4).

Record dirent := mkDirent { de_inum : Z; de_name : list Z }.

Definition DIRENT : nat := 16.
Definition dirent_dec (l : list Z) : dirent := mkDirent (get16 0 l) (slice 2 DIRSIZ l).
Definition dirent_enc (de : dirent) : list Z := le_bytes 2 (de_inum de) ++ de_name de.

(** The disk inode [inum] inside its block. *)
Definition dip_off (inum : Z) : nat := DINODE * Z.to_nat (inum mod IPB).
Definition get_dinode (inum : Z) (d : block) : dinode := dinode_dec (slice (dip_off inum) DINODE d).
Definition put_dinode (inum : Z) (di : dinode) (d : block) : block :=
  splice (dip_off inum) (dinode_enc di) d.

Definition zero_dinode : dinode := mkDinode 0 0 0 0 0 0 0 0 (replicate (S NDIRECT) 0).
Definition typed_dinode (ty : Z) : dinode := mkDinode ty 0 0 0 0 0 0 0 (replicate (S NDIRECT) 0).

(** ** Round trips *)

(** Reads the field [x] that follows [pre]. *)
Ltac field32 pre x := erewrite (get32_at _ pre x); [|by rewrite <- ?app_assoc|done].

Definition sb_wf (sb : superblock) : Prop :=
  0 ≤ sb_size sb < 2 ^ 32 ∧ 0 ≤ sb_nblocks sb < 2 ^ 32 ∧ 0 ≤ sb_ninodes sb < 2 ^ 32 ∧
  0 ≤ sb_nlog sb < 2 ^ 32.

Lemma sb_enc_length sb : length (sb_enc sb) = 16%nat.
Proof. unfold sb_enc. by rewrite !length_app, !le_bytes_length. Qed.

Lemma sb_dec_enc sb rest : sb_wf sb → sb_dec (sb_enc sb ++ rest) = sb.
Proof.
  intros (? & ? & ? & ?). unfold sb_dec, sb_enc.
  field32 (@nil Z) (sb_size sb).
  field32 (le_bytes 4 (sb_size sb)) (sb_nblocks sb).
  field32 (le_bytes 4 (sb_size sb) ++ le_bytes 4 (sb_nblocks sb)) (sb_ninodes sb).
  field32 (le_bytes 4 (sb_size sb) ++ le_bytes 4 (sb_nblocks sb) ++
    le_bytes 4 (sb_ninodes sb)) (sb_nlog sb).
  rewrite !wrap_small by done. by destruct sb.
Qed.

Definition short (x : Z) : Prop := - 2 ^ 15 ≤ x < 2 ^ 15.

Definition dinode_wf (d : dinode) : Prop :=
  short (di_type d) ∧ short (di_major d) ∧ short (di_minor d) ∧ short (di_nlink d) ∧
  short (di_ownerid d) ∧ short (di_groupid d) ∧
  0 ≤ di_mode d < 2 ^ 32 ∧ 0 ≤ di_size d < 2 ^ 32 ∧
  length (di_addrs d) = S NDIRECT ∧ Forall (λ a, 0 ≤ a < 2 ^ 32) (di_addrs d).

Lemma i16_u16 x : short x → i16 (u16 x) = x.
Proof.
  unfold short. intros Hx. unfold swrap, wrap. rewrite Zplus_mod_idemp_l.
  change (2 ^ (16 - 1)) with (2 ^ 15). rewrite Z.mod_small by lia. lia.
Qed.

Lemma getS_at l l1 x l2 off : l = l1 ++ le_bytes 2 x ++ l2 → length l1 = off →
  short x → getS off l = x.
Proof. intros H1 H2 H3. unfold getS. by rewrite (get16_at _ _ _ _ _ H1 H2), i16_u16. Qed.

Ltac fieldS pre x := eapply (getS_at _ pre x); [by rewrite <- ?app_assoc|done|done].

Lemma words_length l : length (l ≫= le_bytes 4) = (4 * length l)%nat.
Proof. induction l as [|x l IH]; [done|]. cbn [mbind list_bind]. rewrite length_app, le_bytes_length, IH. cbn. lia. Qed.

Lemma words_get pre l rest i x : l !! i = Some x → 0 ≤ x < 2 ^ 32 →
  get32 (length pre + 4 * i) (pre ++ (l ≫= le_bytes 4) ++ rest) = x.
Proof.
  intros Hi Hx. rewrite <- (take_drop_middle l i x Hi), bind_app. cbn [mbind list_bind].
  rewrite (get32_at _ (pre ++ (take i l ≫= le_bytes 4)) x ((drop (S i) l ≫= le_bytes 4) ++ rest)).
  - by apply wrap_small.
  - by rewrite <- !app_assoc.
  - rewrite length_app, words_length, length_take.
    apply lookup_lt_Some in Hi. lia.
Qed.

Lemma dinode_dec_enc d rest : dinode_wf d → dinode_dec (dinode_enc d ++ rest) = d.
Proof.
  intros (H1 & H2 & H3 & H4 & H5 & H6 & H7 & H8 & Hl & Ha).
  destruct d as [ty mj mi nl ow gr mo sz ad]. cbn in *. unfold dinode_dec, dinode_enc. cbn [di_type
    di_major di_minor di_nlink di_ownerid di_groupid di_mode di_size di_addrs].
  f_equal.
  - fieldS (@nil Z) ty.
  - fieldS (le_bytes 2 ty) mj.
  - fieldS (le_bytes 2 ty ++ le_bytes 2 mj) mi.
  - fieldS (le_bytes 2 ty ++ le_bytes 2 mj ++ le_bytes 2 mi) nl.
  - fieldS (le_bytes 2 ty ++ le_bytes 2 mj ++ le_bytes 2 mi ++ le_bytes 2 nl) ow.
  - fieldS (le_bytes 2 ty ++ le_bytes 2 mj ++ le_bytes 2 mi ++ le_bytes 2 nl ++ le_bytes 2 ow) gr.
  - field32 (le_bytes 2 ty ++ le_bytes 2 mj ++ le_bytes 2 mi ++ le_bytes 2 nl ++
      le_bytes 2 ow ++ le_bytes 2 gr) mo. by apply wrap_small.
  - field32 (le_bytes 2 ty ++ le_bytes 2 mj ++ le_bytes 2 mi ++ le_bytes 2 nl ++
      le_bytes 2 ow ++ le_bytes 2 gr ++ le_bytes 4 mo) sz. by apply wrap_small.
  - apply list_eq_same_length with (S NDIRECT); [done|by rewrite length_fmap, length_seq|].
    intros i x y Hi Hx Hy.
    assert (x = get32 (20 + 4 * i) (dinode_enc (mkDinode ty mj mi nl ow gr mo sz ad) ++ rest)) as ->.
    { rewrite list_lookup_fmap, lookup_seq_lt in Hx by done. by apply (inj Some) in Hx. }
    rewrite Forall_lookup in Ha. specialize (Ha i y Hy).
    pose proof (words_get (le_bytes 2 ty ++ le_bytes 2 mj ++ le_bytes 2 mi ++ le_bytes 2 nl ++
      le_bytes 2 ow ++ le_bytes 2 gr ++ le_bytes 4 mo ++ le_bytes 4 sz) ad rest i y Hy Ha) as H.
    rewrite <- !app_assoc in H. unfold dinode_enc. rewrite <- !app_assoc. exact H.
Qed.

Lemma dirent_dec_enc de rest : 0 ≤ de_inum de < 2 ^ 16 → length (de_name de) = DIRSIZ →
  dirent_dec (dirent_enc de ++ rest) = de.
Proof.
  intros Hi Hn. unfold dirent_dec, dirent_enc.
  erewrite (get16_at _ [] (de_inum de)); [|by rewrite <- ?app_assoc|done].
  rewrite wrap_small by done. unfold slice. rewrite <- app_assoc.
  change 2%nat with (length (le_bytes 2 (de_inum de))) at 1.
  rewrite drop_app_length, <- Hn, take_app_length. by destruct de.
Qed.

#[export] Hint Rewrite sb_enc_length : xv6.
