(* ===== verification/Log.v ===== *)
(** * The write-ahead log (kernel/log.c)

    The log is written against the buffer interface, so its state is the
    state [S] of the cache together with [struct log].  A thread that sleeps
    in [begin_op] stops with [Switch]; [begin_op_resume] is what it does when
    it runs again. *)

From S2P Require Import Prelude Bytes Spinlock Sched Bio BioSpec BufLayer Ondisk.

Definition MAXOPBLOCKS : Z := 10.
Definition LOGSIZE : nat := 30.

Record log (S : Type) := mkLog {
  l_buf : S;
  l_start : Z;
  l_size : Z;
  l_outstanding : Z;        (* how many FS sys calls are executing *)
  l_committing : bool;      (* in commit(), please wait *)
  l_dev : Z;
  lh_n : Z;                 (* struct logheader *)
  lh_block : list Z
}.
Arguments mkLog {S}.
Arguments l_buf {S}.
Arguments l_start {S}.
Arguments l_size {S}.
Arguments l_outstanding {S}.
Arguments l_committing {S}.
Arguments l_dev {S}.
Arguments lh_n {S}.
Arguments lh_block {S}.

Definition L_log : lockid := ("log", 0).
Definition log_chan : chan := ("log", 0).

Section code.
Context {S : Type} `{BufOps S}.

Definition set_buf (x : S) (l : log S) : log S :=
  mkLog x (l_start l) (l_size l) (l_outstanding l) (l_committing l) (l_dev l) (lh_n l) (lh_block l).
Definition set_lh (n : Z) (b : list Z) (l : log S) : log S :=
  mkLog (l_buf l) (l_start l) (l_size l) (l_outstanding l) (l_committing l) (l_dev l) n b.
Definition set_out (o : Z) (c : bool) (l : log S) : log S :=
  mkLog (l_buf l) (l_start l) (l_size l) o c (l_dev l) (lh_n l) (lh_block l).

Abbreviation bufM := (lift l_buf set_buf).
Definition machM {A} (m : M mach A) : M (log S) A := bufM (lift bmach set_bmach m).

(** Read the super block (kernel/fs.c). *)
Definition readsb (dev : Z) : M S superblock :=
  bp ← op_bread dev 1;
  d ← op_data bp;
  op_brelse bp ;;;
  ret (sb_dec d).

(** [log.lh.block[i]]. *)
Definition lh_get (i : nat) : M (log S) Z := l ← get; need (lh_block l !! i).
Definition lh_put (i : nat) (x : Z) : M (log S) unit :=
  l ← get;
  if (i <? LOGSIZE)%nat then put (set_lh (lh_n l) (<[i := x]> (lh_block l)) l) else halt Undef.

(** Iterations of [for(tail = 0; tail < log.lh.n; tail++)]. *)
Definition tails (l : log S) : list nat := seq 0 (Z.to_nat (lh_n l)).

Definition install_one (tail : nat) : M (log S) unit :=
  l ← get;
  lbuf ← bufM (op_bread (l_dev l) (u32 (l_start l + Z.of_nat tail + 1)));
  b ← lh_get tail;
  dbuf ← bufM (op_bread (l_dev l) (u32 b));
  d ← bufM (op_data lbuf);
  bufM (op_set dbuf d) ;;;
  bufM (op_bwrite dbuf) ;;;
  bufM (op_brelse lbuf) ;;;
  bufM (op_brelse dbuf).

Definition install_trans : M (log S) unit :=
  l ← get; for_all (tails l) install_one.

Definition read_entry (d : block) (i : nat) : M (log S) unit :=
  lh_put i (i32 (get32 (4 + 4 * i) d)).

Definition read_head : M (log S) unit :=
  l ← get;
  buf ← bufM (op_bread (l_dev l) (u32 (l_start l)));
  d ← bufM (op_data buf);
  modify (λ l, set_lh (i32 (get32 0 d)) (lh_block l) l) ;;;
  l ← get;
  for_all (tails l) (read_entry d) ;;;
  bufM (op_brelse buf).

Definition write_entry (buf : nat) (i : nat) : M (log S) unit :=
  b ← lh_get i;
  d ← bufM (op_data buf);
  bufM (op_set buf (put32 (4 + 4 * i) b d)).

Definition write_head : M (log S) unit :=
  l ← get;
  buf ← bufM (op_bread (l_dev l) (u32 (l_start l)));
  d ← bufM (op_data buf);
  bufM (op_set buf (put32 0 (lh_n l) d)) ;;;
  for_all (tails l) (write_entry buf) ;;;
  bufM (op_bwrite buf) ;;;
  bufM (op_brelse buf).

Definition clear_lh : M (log S) unit := modify (λ l, set_lh 0 (lh_block l) l).

Definition recover_from_log : M (log S) unit :=
  read_head ;;;
  install_trans ;;;
  clear_lh ;;;
  write_head.

Definition initlog : M (log S) unit :=
  if (BSIZE <=? 4 + 4 * LOGSIZE)%nat then panic "initlog: too big logheader" else
  machM (smpM (initlock L_log)) ;;;
  sb ← bufM (readsb ROOTDEV);
  modify (λ l, mkLog (l_buf l) (i32 (sb_size sb - sb_nlog sb)) (i32 (sb_nlog sb))
                 (l_outstanding l) (l_committing l) ROOTDEV (lh_n l) (lh_block l)) ;;;
  recover_from_log.

(** One turn of [while(1)], with [log.lock] held. *)
Definition begin_op_turn : M (log S) unit :=
  l ← get;
  if l_committing l then machM (sleep log_chan L_log) ;;; halt Switch
  else if Z.of_nat LOGSIZE <? lh_n l + (l_outstanding l + 1) * MAXOPBLOCKS
  then machM (sleep log_chan L_log) ;;; halt Switch
  else
    put (set_out (l_outstanding l + 1) (l_committing l) l) ;;;
    machM (smpM (release L_log)).

Definition begin_op : M (log S) unit := machM (smpM (acquire L_log)) ;;; begin_op_turn.
Definition begin_op_resume (intena : bool) : M (log S) unit :=
  machM (sleep_resume intena L_log) ;;; begin_op_turn.

Definition write_log_one (tail : nat) : M (log S) unit :=
  l ← get;
  to ← bufM (op_bread (l_dev l) (u32 (l_start l + Z.of_nat tail + 1)));
  b ← lh_get tail;
  from ← bufM (op_bread (l_dev l) (u32 b));
  d ← bufM (op_data from);
  bufM (op_set to d) ;;;
  bufM (op_bwrite to) ;;;
  bufM (op_brelse from) ;;;
  bufM (op_brelse to).

Definition write_log : M (log S) unit :=
  l ← get; for_all (tails l) write_log_one.

Definition commit : M (log S) unit :=
  l ← get;
  whenM (0 <? lh_n l) (
    write_log ;;;
    write_head ;;;
    install_trans ;;;
    clear_lh ;;;
    write_head).

Definition end_op : M (log S) unit :=
  machM (smpM (acquire L_log)) ;;;
  modify (λ l, set_out (l_outstanding l - 1) (l_committing l) l) ;;;
  l ← get;
  if l_committing l then panic "log.committing" else
  do_commit ← (if l_outstanding l =? 0
               then put (set_out (l_outstanding l) true l) ;;; ret true
               else machM (wakeup log_chan) ;;; ret false);
  machM (smpM (release L_log)) ;;;
  whenM do_commit (
    commit ;;;
    machM (smpM (acquire L_log)) ;;;
    modify (λ l, set_out (l_outstanding l) false l) ;;;
    machM (wakeup log_chan) ;;;
    machM (smpM (release L_log))).

(** The index at which the search of [log_write] stops; a stored [int] is
    compared with the unsigned block number. *)
Definition find_slot (n : nat) (blocks : list Z) (bn : Z) : nat :=
  match list_find (λ x, u32 x = bn) (take n blocks) with
  | Some (i, _) => i
  | None => n
  end.

Definition log_write (b : nat) : M (log S) unit :=
  l ← get;
  if (Z.of_nat LOGSIZE <=? lh_n l) || (l_size l - 1 <=? lh_n l)
  then panic "too big a transaction" else
  if l_outstanding l <? 1 then panic "log_write outside of trans" else
  machM (smpM (acquire L_log)) ;;;
  bn ← bufM (op_blockno b);
  let i := find_slot (Z.to_nat (lh_n l)) (lh_block l) bn in
  lh_put i (i32 bn) ;;;
  whenM (Z.of_nat i =? lh_n l) (modify (λ l, set_lh (lh_n l + 1) (lh_block l) l)) ;;;
  bufM (op_dirty b) ;;;
  machM (smpM (release L_log)).
End code.

Abbreviation bufM := (lift l_buf set_buf).
