(* ===== verification/LogSpec.v ===== *)
(** * What the log promises

    The section is proved against the buffer interface [BufLaws].  A crash
    keeps the disk blocks and loses everything else, so a crash during an
    operation leaves the disk with some prefix of the operation's writes
    ([v_trace]).  [committed] is the content of the file system a disk stands
    for: the blocks of a committed transaction are taken from the log. *)

From S2P Require Import Prelude Bytes Spinlock Sched Bio BioSpec BufLayer Ondisk Log.
From Stdlib Require Import FunctionalExtensionality.

(** ** Copying one block *)

Definition copy_view (src dst : Z) (v : bview) : bview :=
  mkView (<[dst := v_mem v src]> (v_mem v)) (<[dst := v_mem v src]> (v_disk v)) (v_busy v)
    (<[dst := false]> (v_pin v)) (if v_pin v dst then S (v_avail v) else v_avail v)
    (v_trace v ++ [(dst, v_mem v src)]).

(** [a] is read first and [b] second. *)
Definition copy_pre (v : bview) (a b : Z) : Prop :=
  a ≠ b ∧ unheld v a ∧ unheld v b ∧ v_pin v a = false ∧ (0 < v_avail v)%nat ∧
  (v_pin v b = true ∨ (1 < v_avail v)%nat).


Section copy.
Context {S : Type} `{BufLaws S}.
Implicit Types (s : S) (l : log S) (v : bview).

(** Two blocks held at once. *)
Lemma read_two s a b : ready s → 0 ≤ a < nblocks s → 0 ≤ b < nblocks s →
  copy_pre (view s) a b →
  ∃ ha hb s1 s2, op_bread ROOTDEV a s = Ok ha s1 ∧ op_bread ROOTDEV b s1 = Ok hb s2 ∧
    ha ≠ hb ∧ v_busy (view s) ha = None ∧ v_busy (view s) hb = None ∧
    goes s s2 (open_view hb b (open_view ha a (view s))).
Proof.
  intros Hr Ha Hb (Hab & Ua & Ub & Pa & A0 & A1).
  destruct (run_bread s a) as (ha & s1 & E1 & F1 & G1); try done; [by right|].
  pose proof G1 as (R1 & M1 & N1 & V1).
  destruct (run_bread s1 b) as (hb & s2 & E2 & F2 & G2); try done.
  - by rewrite N1.
  - intros h. rewrite V1. cbn. destruct (decide (h = ha)) as [->|Hne]; inserts; [congruence|done].
  - unfold room. rewrite V1. cbn. rewrite Pa. destruct A1; [by left|right; lia].
  - rewrite V1 in F2, G2. cbn in F2.
    assert (ha ≠ hb) as Hne. { intros ->. by rewrite fn_lookup_insert in F2. }
    rewrite fn_lookup_insert_ne in F2 by done.
    exists ha, hb, s1, s2. split_and!; try done. by eapply goes_trans.
Qed.

(** The data of [src] goes to the held block [dst], which is written to
    disk, and both are released. *)
Lemma copy_tail v src dst hs hd : src ≠ dst → hs ≠ hd →
  v_busy v hs = None → v_busy v hd = None → (v_pin v src = true ∨ v_pin v dst = true ∨ 1 < v_avail v)%nat →
  (0 < v_avail v)%nat →
  close_view hd dst (close_view hs src (write_view dst (set_view dst (v_mem v src)
    (open_view hd dst (open_view hs src v))))) = copy_view src dst v ∧
  close_view hd dst (close_view hs src (write_view dst (set_view dst (v_mem v src)
    (open_view hs src (open_view hd dst v))))) = copy_view src dst v.
Proof.
  intros Hsd Hh Fs Fd Ha A0. unfold close_view, write_view, set_view, open_view, copy_view. vcbn.
  inserts. split; f_equal; try fn_eq;
    destruct (v_pin v src), (v_pin v dst); lia || (destruct Ha as [?|[?|?]]; congruence || lia).
Qed.

Lemma copy_run s2 v src dst hs hd : ready s2 → src ≠ dst → hs ≠ hd → clean v src →
  v_mem (view s2) = v_mem v → v_disk (view s2) = v_disk v → v_pin (view s2) = v_pin v →
  v_busy (view s2) hs = Some src → v_busy (view s2) hd = Some dst →
  ∃ s3 s4 s5 s6, op_set hd (v_mem v src) s2 = Ok tt s3 ∧ op_bwrite hd s3 = Ok tt s4 ∧
    op_brelse hs s4 = Ok tt s5 ∧ op_brelse hd s5 = Ok tt s6 ∧
    goes s2 s6 (close_view hd dst (close_view hs src (write_view dst
      (set_view dst (v_mem v src) (view s2))))).
Proof.
  intros R2 Hsd Hh Hc Em Ed Ep Bs Bd.
  assert (length (v_mem v src) = BSIZE) as Hlen by (rewrite <- Em; apply mem_length, R2).
  destruct (run_set s2 hd dst (v_mem v src)) as (s3 & E3 & G3); try done.
  pose proof G3 as (R3 & _ & _ & V3).
  destruct (run_bwrite s3 hd dst) as (s4 & E4 & G4); [done|by rewrite V3|].
  pose proof G4 as (R4 & _ & _ & V4). rewrite V3 in V4.
  destruct (run_brelse s4 hs src) as (s5 & E5 & G5); [done|by rewrite V4| |].
  { unfold clean. rewrite V4. cbn. inserts. rewrite Em, Ed, Ep. exact Hc. }
  pose proof G5 as (R5 & _ & _ & V5). rewrite V4 in V5.
  destruct (run_brelse s5 hd dst) as (s6 & E6 & G6); [done|rewrite V5; cbn; by inserts| |].
  { right. rewrite V5. cbn. by inserts. }
  exists s3, s4, s5, s6. split_and!; try done.
  rewrite V5 in G6. by eapply goes_trans, goes_trans, goes_trans.
Qed.

Lemma install_one_ok l i a b x : ready (l_buf l) → l_dev l = ROOTDEV →
  lh_block l !! i = Some x → u32 x = b → u32 (l_start l + Z.of_nat i + 1) = a →
  0 ≤ a < nblocks (l_buf l) → 0 ≤ b < nblocks (l_buf l) → copy_pre (view (l_buf l)) a b →
  ∃ s', install_one i l = Ok tt (set_buf s' l) ∧
    goes (l_buf l) s' (copy_view a b (view (l_buf l))).
Proof.
  intros Hr Hdev Hx Hb Ha Ra Rb Hpre. pose proof Hpre as (Hab & Ua & Ub & Pa & A0 & A1).
  destruct (read_two (l_buf l) a b) as (ha & hb & s1 & s2 & E1 & E2 & Hne & Fa & Fb & G2); try done.
  pose proof G2 as (R2 & _ & _ & V2).
  destruct (copy_run s2 (view (l_buf l)) a b ha hb) as (s3 & s4 & s5 & s6 & E3 & E4 & E5 & E6 & G6);
    try done; try (by rewrite V2); try (rewrite V2; cbn; by inserts).
  { apply idle_clean; [apply Hr|done]. }
  exists s6. split.
  - unfold install_one. step (eq_refl : get l = Ok l l). rewrite Ha, Hdev. run E1.
    erewrite bind_ok; [|by unfold lh_get; go; cbn; rewrite Hx]. rewrite Hb. run E2.
    erewrite bind_ok; [|apply lift_ok, (run_data s2 ha a R2); rewrite V2; cbn; by inserts].
    rewrite V2. cbn [open_view v_mem]. run E3. run E4. run E5. erewrite lift_ok; [|exact E6]. done.
  - rewrite V2 in G6. rewrite (proj1 (copy_tail _ a b ha hb Hab Hne Fa Fb ltac:(tauto) A0)) in G6.
    by eapply goes_trans.
Qed.

Lemma write_log_one_ok l i a b x : ready (l_buf l) → l_dev l = ROOTDEV →
  lh_block l !! i = Some x → u32 x = b → u32 (l_start l + Z.of_nat i + 1) = a →
  0 ≤ a < nblocks (l_buf l) → 0 ≤ b < nblocks (l_buf l) → copy_pre (view (l_buf l)) a b →
  ∃ s', write_log_one i l = Ok tt (set_buf s' l) ∧
    goes (l_buf l) s' (copy_view b a (view (l_buf l))).
Proof.
  intros Hr Hdev Hx Hb Ha Ra Rb Hpre. pose proof Hpre as (Hab & Ua & Ub & Pa & A0 & A1).
  destruct (read_two (l_buf l) a b) as (ha & hb & s1 & s2 & E1 & E2 & Hne & Fa & Fb & G2); try done.
  pose proof G2 as (R2 & _ & _ & V2).
  destruct (copy_run s2 (view (l_buf l)) b a hb ha) as (s3 & s4 & s5 & s6 & E3 & E4 & E5 & E6 & G6);
    try done; try (by rewrite V2); try (rewrite V2; cbn; by inserts).
  { apply idle_clean; [apply Hr|done]. }
  exists s6. split.
  - unfold write_log_one. step (eq_refl : get l = Ok l l). rewrite Ha, Hdev. run E1.
    erewrite bind_ok; [|by unfold lh_get; go; cbn; rewrite Hx]. rewrite Hb. run E2.
    erewrite bind_ok; [|apply lift_ok, (run_data s2 hb b R2); rewrite V2; cbn; by inserts].
    rewrite V2. cbn [open_view v_mem]. run E3. run E4. run E5. erewrite lift_ok; [|exact E6]. done.
  - rewrite V2 in G6. assert (hb ≠ ha) as Hne' by done. assert (b ≠ a) as Hba by done.
    rewrite (proj2 (copy_tail _ b a hb ha Hba Hne' Fb Fa ltac:(tauto) A0)) in G6.
    by eapply goes_trans.
Qed.
End copy.

(** ** Copying the blocks of a transaction *)

Definition replay (w : list (Z * block)) (d : Z → block) : Z → block :=
  foldl (λ d x, <[x.1 := x.2]> d) d w.

Definition copies (ps : list (Z * Z)) (v : bview) : bview :=
  foldl (λ v p, copy_view p.1 p.2 v) v ps.

(** The log block and the home block of each entry, from log block [a] on. *)
Fixpoint log_pairs (a : Z) (bs : list Z) : list (Z * Z) :=
  match bs with
  | [] => []
  | x :: bs' => (a, x) :: log_pairs (a + 1) bs'
  end.

Definition flip_pairs (ps : list (Z * Z)) : list (Z * Z) := (λ p, (p.2, p.1)) <$> ps.

(** The blocks of a transaction and their log blocks are free to be copied. *)
Definition span (v : bview) (start nb a : Z) (bs : list Z) : Prop :=
  0 ≤ start < a ∧ a + Z.of_nat (length bs) ≤ nb < 2 ^ 31 ∧
  NoDup bs ∧ Forall (λ x, 0 ≤ x < start) bs ∧ (∀ x, x ∈ bs → unheld v x) ∧
  (∀ y, a ≤ y < a + Z.of_nat (length bs) → unheld v y ∧ v_pin v y = false) ∧
  (0 < v_avail v)%nat ∧ ((∀ x, x ∈ bs → v_pin v x = true) ∨ (1 < v_avail v)%nat).

Lemma span_pre v start nb a x bs : span v start nb a (x :: bs) →
  copy_pre v a x ∧ 0 ≤ a < nb ∧ 0 ≤ x < nb.
Proof.
  intros (Hs & Hn & Hnd & Hf & Hu & Hl & A0 & A1). cbn [length] in *.
  apply Forall_cons in Hf as [Hx Hf]. destruct (Hl a) as [Ua Pa]; [lia|].
  split; [|lia]. split_and!; try done; [lia|apply Hu; by left|].
  destruct A1 as [A1|A1]; [left; apply A1; by left|by right].
Qed.

Lemma span_install v start nb a x bs : span v start nb a (x :: bs) →
  span (copy_view a x v) start nb (a + 1) bs.
Proof.
  intros (Hs & Hn & Hnd & Hf & Hu & Hl & A0 & A1). cbn [length] in *.
  apply Forall_cons in Hf as [Hx Hf]. apply NoDup_cons in Hnd as [Hnx Hnd].
  split_and!; try done; try lia.
  - intros y Hy. cbn. apply Hu. by right.
  - intros y Hy. destruct (Hl y) as [Uy Py]; [lia|]. split; [done|]. cbn.
    by rewrite fn_lookup_insert_ne by lia.
  - cbn. destruct (v_pin v x); lia.
  - destruct A1 as [A1|A1]; [|right; cbn; destruct (v_pin v x); lia].
    left. intros y Hy. cbn. rewrite fn_lookup_insert_ne; [apply A1; by right|]. by intros ->.
Qed.

Lemma span_write v start nb a x bs : span v start nb a (x :: bs) →
  span (copy_view x a v) start nb (a + 1) bs.
Proof.
  intros Hsp. pose proof (span_pre _ _ _ _ _ _ Hsp) as ((_ & _ & _ & Pa & _) & _).
  destruct Hsp as (Hs & Hn & Hnd & Hf & Hu & Hl & A0 & A1). cbn [length] in *.
  apply Forall_cons in Hf as [Hx Hf]. apply NoDup_cons in Hnd as [Hnx Hnd].
  rewrite Forall_forall in Hf.
  split_and!; try done; try lia; cbn; rewrite ?Pa; try done.
  - by apply Forall_forall.
  - intros y Hy. apply Hu. by right.
  - intros y Hy. destruct (Hl y) as [Uy Py]; [lia|]. split; [done|]. cbn.
    by rewrite fn_lookup_insert_ne by lia.
  - destruct A1 as [A1|A1]; [|by right].
    left. intros y Hy. specialize (Hf y Hy). cbn in Hf.
    rewrite fn_lookup_insert_ne by lia. apply A1. by right.
Qed.

Section loops.
Context {S : Type} `{BufLaws S}.
Implicit Types (s : S) (l : log S) (v : bview).

(** [bs] is the part of [log.lh.block] from index [k] on. *)
Definition entries l (k : nat) (bs : list Z) : Prop :=
  ∀ j x, bs !! j = Some x → lh_block l !! (k + j)%nat = Some x.

Lemma entries_cons l k x bs : entries l k (x :: bs) →
  lh_block l !! k = Some x ∧ entries l (Datatypes.S k) bs.
Proof.
  intros He. split.
  - rewrite <- (He 0%nat x); [f_equal; lia|done].
  - intros j y Hj. rewrite <- (He (Datatypes.S j) y); [f_equal; lia|done].
Qed.

Lemma copy_loop (body : nat → M (log S) unit) (mk : Z * Z → Z * Z) bs k l a :
  (∀ v start nb a x bs, span v start nb a (x :: bs) →
     span (copy_view (mk (a, x)).1 (mk (a, x)).2 v) start nb (a + 1) bs) →
  (∀ l i a b x, ready (l_buf l) → l_dev l = ROOTDEV →
     lh_block l !! i = Some x → u32 x = b → u32 (l_start l + Z.of_nat i + 1) = a →
     0 ≤ a < nblocks (l_buf l) → 0 ≤ b < nblocks (l_buf l) → copy_pre (view (l_buf l)) a b →
     ∃ s', body i l = Ok tt (set_buf s' l) ∧
       goes (l_buf l) s' (copy_view (mk (a, b)).1 (mk (a, b)).2 (view (l_buf l)))) →
  ready (l_buf l) → l_dev l = ROOTDEV → entries l k bs → a = l_start l + Z.of_nat k + 1 →
  span (view (l_buf l)) (l_start l) (nblocks (l_buf l)) a bs →
  ∃ s', for_all (seq k (length bs)) body l = Ok tt (set_buf s' l) ∧
    goes (l_buf l) s' (copies (mk <$> log_pairs a bs) (view (l_buf l))).
Proof.
  intros Hspan Hbody. revert k l a. induction bs as [|x bs IH]; intros k l a Hr Hd He Ha Hsp.
  - exists (l_buf l). cbn. split; [by destruct l|by apply goes_refl].
  - destruct (span_pre _ _ _ _ _ _ Hsp) as (Hpre & Ra & Rx).
    apply entries_cons in He as [Hk He]. cbn [length seq for_all].
    pose proof (nblocks_small (l_buf l) (proj1 Hr)) as Hnb.
    destruct (Hbody l k a x x) as (s1 & E1 & G1); try done.
    { apply wrap_small. lia. } { subst a. apply wrap_small. lia. }
    step E1. pose proof G1 as (R1 & M1 & N1 & V1).
    destruct (IH (Datatypes.S k) (set_buf s1 l) (a + 1)) as (s2 & E2 & G2); try done.
    { cbn. lia. }
    { cbn [l_buf set_buf l_start]. rewrite V1, N1. by apply Hspan. }
    exists s2. split; [done|]. cbn [l_buf set_buf] in G2. rewrite V1 in G2.
    cbn [log_pairs fmap list_fmap copies foldl]. by eapply goes_trans.
Qed.

Lemma tails_entries l (bs : list Z) : lh_n l = Z.of_nat (length bs) → tails l = seq 0 (length bs).
Proof. intros E. unfold tails. by rewrite E, Nat2Z.id. Qed.

Lemma install_trans_ok l bs : ready (l_buf l) → l_dev l = ROOTDEV → entries l 0 bs →
  lh_n l = Z.of_nat (length bs) →
  span (view (l_buf l)) (l_start l) (nblocks (l_buf l)) (l_start l + 1) bs →
  ∃ s', install_trans l = Ok tt (set_buf s' l) ∧
    goes (l_buf l) s' (copies (log_pairs (l_start l + 1) bs) (view (l_buf l))).
Proof.
  intros Hr Hd He Hn Hsp. unfold install_trans. step (eq_refl : get l = Ok l l).
  rewrite (tails_entries l bs Hn).
  destruct (copy_loop install_one id bs 0 l (l_start l + 1)) as (s' & E & G); try done.
  - apply span_install.
  - apply install_one_ok.
  - lia.
  - exists s'. split; [done|]. by rewrite list_fmap_id in G.
Qed.

Lemma write_log_ok l bs : ready (l_buf l) → l_dev l = ROOTDEV → entries l 0 bs →
  lh_n l = Z.of_nat (length bs) →
  span (view (l_buf l)) (l_start l) (nblocks (l_buf l)) (l_start l + 1) bs →
  ∃ s', write_log l = Ok tt (set_buf s' l) ∧
    goes (l_buf l) s' (copies (flip_pairs (log_pairs (l_start l + 1) bs)) (view (l_buf l))).
Proof.
  intros Hr Hd He Hn Hsp. unfold write_log. step (eq_refl : get l = Ok l l).
  rewrite (tails_entries l bs Hn).
  destruct (copy_loop write_log_one (λ p, (p.2, p.1)) bs 0 l (l_start l + 1)) as (s' & E & G); try done.
  - apply span_write.
  - apply write_log_one_ok.
  - lia.
  - exists s'. by split.
Qed.
End loops.

(** ** The header block *)

Fixpoint hdr_fill (k : nat) (bs : list Z) (d : block) : block :=
  match bs with
  | [] => d
  | x :: bs' => hdr_fill (S k) bs' (put32 (4 + 4 * k) x d)
  end.
Definition hdr_put (bs : list Z) (d : block) : block :=
  hdr_fill 0 bs (put32 0 (Z.of_nat (length bs)) d).

(** The number of entries and the entries a header block holds. *)
Definition hdr_n (d : block) : Z := i32 (get32 0 d).
Definition hdr_entry (d : block) (i : nat) : Z := i32 (get32 (4 + 4 * i) d).
Definition hdr_blocks (d : block) : list Z := hdr_entry d <$> seq 0 (Z.to_nat (hdr_n d)).

Definition fits (k : nat) (bs : list Z) (d : block) : Prop :=
  (4 + 4 * (k + length bs) ≤ length d)%nat.

Lemma hdr_fill_length k bs d : fits k bs d → length (hdr_fill k bs d) = length d.
Proof.
  revert k d. induction bs as [|x bs IH]; intros k d Hf; [done|]. unfold fits in *. cbn [length hdr_fill] in *.
  rewrite IH; rewrite put32_length; lia.
Qed.

Lemma hdr_fill_below k bs d off : fits k bs d → (off + 4 ≤ 4 + 4 * k)%nat →
  get32 off (hdr_fill k bs d) = get32 off d.
Proof.
  revert k d. induction bs as [|x bs IH]; intros k d Hf Hoff; [done|]. unfold fits in *. cbn [length hdr_fill] in *.
  rewrite IH; [|rewrite put32_length; lia|lia].
  apply get32_put32_other; [lia|]. left. lia.
Qed.

Lemma hdr_fill_entry k bs d j x : fits k bs d → bs !! j = Some x →
  get32 (4 + 4 * (k + j)) (hdr_fill k bs d) = u32 x.
Proof.
  revert k d j. induction bs as [|y bs IH]; intros k d j Hf Hj; [done|]. unfold fits in *. cbn [length hdr_fill] in *.
  destruct j as [|j]; cbn in Hj; simplify_eq.
  - rewrite hdr_fill_below; [|unfold fits; rewrite put32_length; lia|lia].
    rewrite Nat.add_0_r. apply get32_put32. lia.
  - replace (k + S j)%nat with (S k + j)%nat by lia. apply IH; [|done]. rewrite put32_length; lia.
Qed.

Lemma i32_u32 x : 0 ≤ x < 2 ^ 31 → i32 (u32 x) = x.
Proof. intros. rewrite wrap_small by lia. apply swrap_small; lia. Qed.

Lemma hdr_put_length bs d : (4 + 4 * length bs ≤ length d)%nat → length (hdr_put bs d) = length d.
Proof.
  intros. unfold hdr_put. rewrite hdr_fill_length; [|unfold fits]; rewrite put32_length; lia.
Qed.

Lemma hdr_n_put bs d : (4 + 4 * length bs ≤ length d)%nat → Z.of_nat (length bs) < 2 ^ 31 →
  hdr_n (hdr_put bs d) = Z.of_nat (length bs).
Proof.
  intros Hf Hn. unfold hdr_n, hdr_put.
  rewrite hdr_fill_below; [|unfold fits; rewrite put32_length; lia|lia].
  rewrite get32_put32 by lia. apply i32_u32. lia.
Qed.

Lemma hdr_blocks_put bs d : (4 + 4 * length bs ≤ length d)%nat → Z.of_nat (length bs) < 2 ^ 31 →
  Forall (λ x, 0 ≤ x < 2 ^ 31) bs → hdr_blocks (hdr_put bs d) = bs.
Proof.
  intros Hf Hn Hb. unfold hdr_blocks. rewrite hdr_n_put, Nat2Z.id by done.
  apply list_eq_same_length with (length bs); [done|by rewrite length_fmap, length_seq|].
  intros i x y Hi Hx Hy. rewrite list_lookup_fmap, lookup_seq_lt in Hx by done.
  apply (inj Some) in Hx as <-. unfold hdr_entry, hdr_put.
  rewrite (hdr_fill_entry 0 bs _ i y); [|unfold fits; rewrite put32_length; lia|done].
  apply i32_u32. rewrite Forall_lookup in Hb. eauto.
Qed.

(** The view after the header block was replaced by [d]. *)
Definition head_view (start : Z) (d : block) (v : bview) : bview :=
  mkView (<[start := d]> (v_mem v)) (<[start := d]> (v_disk v)) (v_busy v) (v_pin v) (v_avail v)
    (v_trace v ++ [(start, d)]).

Section header.
Context {S : Type} `{BufLaws S}.
Implicit Types (s : S) (l : log S) (v : bview).

Lemma write_entries_ok l h start k bs : ready (l_buf l) → v_busy (view (l_buf l)) h = Some start →
  entries l k bs → fits k bs (v_mem (view (l_buf l)) start) →
  ∃ s', for_all (seq k (length bs)) (write_entry h) l = Ok tt (set_buf s' l) ∧
    goes (l_buf l) s' (set_view start (hdr_fill k bs (v_mem (view (l_buf l)) start)) (view (l_buf l))).
Proof.
  revert k l. induction bs as [|x bs IH]; intros k l Hr Hb He Hf.
  - exists (l_buf l). cbn. split; [by destruct l|]. destruct (goes_refl (l_buf l) Hr) as (? & ? & ? & _).
    split_and!; try done. unfold set_view. rewrite fn_insert_id by done. by destruct (view (l_buf l)).
  - apply entries_cons in He as [Hk He]. cbn [length seq for_all].
    set (d := v_mem (view (l_buf l)) start) in *.
    assert (length d = BSIZE) as Hd by (apply mem_length, Hr).
    assert (4 + 4 * k + 4 ≤ length d)%nat by (unfold fits in Hf; cbn [length] in Hf; lia).
    destruct (run_set (l_buf l) h start (put32 (4 + 4 * k) x d)) as (s1 & E1 & G1); try done.
    { rewrite put32_length; lia. }
    pose proof G1 as (R1 & M1 & N1 & V1).
    assert (write_entry h k l = Ok tt (set_buf s1 l)) as E.
    { unfold write_entry. erewrite bind_ok; [|by unfold lh_get; go; rewrite Hk].
      run (run_data (l_buf l) h start Hr Hb). fold d. by erewrite lift_ok. }
    step E. destruct (IH (Datatypes.S k) (set_buf s1 l)) as (s2 & E2 & G2); try done.
    { cbn. by rewrite V1. }
    { cbn [l_buf set_buf]. rewrite V1. cbn. rewrite fn_insert_same. unfold fits in *.
      rewrite put32_length by lia. cbn [length] in Hf. lia. }
    exists s2. split; [done|]. cbn [l_buf set_buf] in G2. rewrite V1 in G2. cbn [hdr_fill].
    eapply goes_trans; [done|]. unfold set_view in *. cbn in G2.
    by rewrite fn_insert_same, fn_insert_insert in G2.
Qed.

Definition head_pre l : Prop :=
  ready (l_buf l) ∧ l_dev l = ROOTDEV ∧ 0 ≤ l_start l < nblocks (l_buf l) ∧
  unheld (view (l_buf l)) (l_start l) ∧ v_pin (view (l_buf l)) (l_start l) = false ∧
  (0 < v_avail (view (l_buf l)))%nat.

Lemma start_u32 l : head_pre l → u32 (l_start l) = l_start l.
Proof.
  intros ((Hi & _) & _ & Hs & _). pose proof (nblocks_small _ Hi). apply wrap_small. lia.
Qed.

Lemma write_head_ok l bs : head_pre l → entries l 0 bs → lh_n l = Z.of_nat (length bs) →
  (length bs ≤ LOGSIZE)%nat →
  ∃ s', write_head l = Ok tt (set_buf s' l) ∧
    goes (l_buf l) s' (head_view (l_start l) (hdr_put bs (v_mem (view (l_buf l)) (l_start l)))
      (view (l_buf l))).
Proof.
  intros Hp He Hn Hlen. pose proof Hp as (Hr & Hd & Hs & Hu & Hpin & Hav).
  set (v := view (l_buf l)) in *. set (st := l_start l) in *.
  assert (length (v_mem v st) = BSIZE) as HB by (apply mem_length, Hr).
  unfold BSIZE, LOGSIZE in *.
  unfold write_head. step (eq_refl : get l = Ok l l). rewrite (start_u32 l Hp), Hd. fold st.
  destruct (run_bread (l_buf l) st) as (h & s1 & E1 & F1 & G1); try done; [by right|]. run E1.
  pose proof G1 as (R1 & M1 & N1 & V1).
  assert (v_busy (view s1) h = Some st) as B1 by (rewrite V1; cbn; by inserts).
  run (run_data s1 h st R1 B1). rewrite V1. cbn [open_view v_mem]. fold v.
  destruct (run_set s1 h st (put32 0 (lh_n l) (v_mem v st))) as (s2 & E2 & G2); try done.
  { rewrite put32_length by lia. done. }
  run E2. pose proof G2 as (R2 & M2 & N2 & V2). rewrite V1 in V2.
  rewrite (tails_entries l bs Hn).
  destruct (write_entries_ok (set_buf s2 l) h st 0 bs) as (s3 & E3 & G3); try done.
  { cbn [l_buf set_buf]. rewrite V2. cbn. by inserts. }
  { cbn [l_buf set_buf]. rewrite V2. cbn. inserts. unfold fits. rewrite put32_length by lia. lia. }
  step E3. cbn [l_buf set_buf] in G3. pose proof G3 as (R3 & M3 & N3 & V3). rewrite V2 in V3.
  destruct (run_bwrite s3 h st) as (s4 & E4 & G4); [done|rewrite V3; cbn; by inserts|].
  run E4. pose proof G4 as (R4 & M4 & N4 & V4). rewrite V3 in V4.
  destruct (run_brelse s4 h st) as (s5 & E5 & G5); [done|rewrite V4; cbn; by inserts| |].
  { right. rewrite V4. cbn. by inserts. }
  erewrite lift_ok; [|exact E5]. exists s5. split; [done|].
  rewrite V4 in G5. eapply goes_trans, goes_trans, goes_trans, goes_trans; try done.
  destruct G5 as (R5 & M5 & N5 & V5). split_and!; try done. rewrite V5, Hn.
  unfold close_view, write_view, set_view, open_view, head_view, hdr_put. cbn. inserts. fold v.
  fold v in F1. f_equal; try fn_eq. rewrite Hpin. lia.
Qed.
End header.

(** ** Replaying writes *)

Lemma replay_cons k x w d : replay ((k, x) :: w) d = replay w (<[k := x]> d).
Proof. done. Qed.

Lemma replay_app w1 w2 d : replay (w1 ++ w2) d = replay w2 (replay w1 d).
Proof. unfold replay. by rewrite foldl_app. Qed.

Lemma replay_notin w d bn : bn ∉ w.*1 → replay w d bn = d bn.
Proof.
  revert d. induction w as [|[k x] w IH]; intros d Hn; [done|]. cbn in Hn.
  apply not_elem_of_cons in Hn as [Hk Hn]. rewrite replay_cons, IH by done.
  by rewrite fn_lookup_insert_ne.
Qed.

Lemma replay_in w d bn x : NoDup w.*1 → (bn, x) ∈ w → replay w d bn = x.
Proof.
  revert d. induction w as [|[k y] w IH]; intros d Hnd Hin; [by apply elem_of_nil in Hin|].
  cbn in Hnd. apply NoDup_cons in Hnd as [Hk Hnd]. apply elem_of_cons in Hin as [E|Hin]; rewrite replay_cons.
  - simplify_eq. rewrite replay_notin by done. apply fn_lookup_insert.
  - by apply IH.
Qed.

Lemma replay_insert w d bn x : bn ∉ w.*1 → replay w (<[bn := x]> d) = <[bn := x]> (replay w d).
Proof.
  revert d. induction w as [|[k y] w IH]; intros d Hn; [done|]. cbn in Hn.
  apply not_elem_of_cons in Hn as [Hk Hn]. rewrite !replay_cons, <- IH by done. f_equal. fn_eq.
Qed.

Definition pins (ds : list Z) (p : Z → bool) : Z → bool := foldl (λ p d, <[d := false]> p) p ds.
Fixpoint gain (ds : list Z) (p : Z → bool) : nat :=
  match ds with
  | [] => 0
  | d :: ds' => (if p d then 1 else 0) + gain ds' (<[d := false]> p)
  end.

Definition copy_writes (ps : list (Z * Z)) (m : Z → block) : list (Z * block) :=
  (λ p, (p.2, m p.1)) <$> ps.

Lemma copies_view ps v : (∀ p q, p ∈ ps → q ∈ ps → p.1 ≠ q.2) →
  copies ps v = mkView (replay (copy_writes ps (v_mem v)) (v_mem v))
    (replay (copy_writes ps (v_mem v)) (v_disk v)) (v_busy v) (pins ps.*2 (v_pin v))
    (v_avail v + gain ps.*2 (v_pin v)) (v_trace v ++ copy_writes ps (v_mem v)).
Proof.
  revert v. induction ps as [|p ps IH]; intros v Hd.
  - destruct v. cbn. by rewrite Nat.add_0_r, app_nil_r.
  - cbn [copies foldl]. fold (copies ps (copy_view p.1 p.2 v)).
    rewrite IH by (intros; apply Hd; by right).
    assert (copy_writes ps (v_mem (copy_view p.1 p.2 v)) = copy_writes ps (v_mem v)) as ->.
    { apply list_fmap_ext. intros i q Hq%list_elem_of_lookup_2. cbn. f_equal.
      apply fn_lookup_insert_ne. intros E. apply (Hd q p); [by right|by left|done]. }
    cbn. f_equal; [destruct (v_pin v p.2); lia|]. by rewrite <- app_assoc.
Qed.

Lemma pins_false ds p : (∀ d, d ∈ ds → p d = false) → pins ds p = p.
Proof.
  revert p. induction ds as [|d ds IH]; intros p Hp; [done|]. cbn.
  rewrite fn_insert_id by (apply Hp; by left). apply IH. intros; apply Hp; by right.
Qed.

Lemma gain_false ds p : (∀ d, d ∈ ds → p d = false) → gain ds p = 0%nat.
Proof.
  revert p. induction ds as [|d ds IH]; intros p Hp; [done|]. cbn [gain].
  rewrite (Hp d) by (by left). rewrite fn_insert_id by (apply Hp; by left).
  apply IH. intros; apply Hp; by right.
Qed.

Lemma gain_true ds p : NoDup ds → (∀ d, d ∈ ds → p d = true) → gain ds p = length ds.
Proof.
  revert p. induction ds as [|d ds IH]; intros p Hnd Hp; [done|].
  apply NoDup_cons in Hnd as [Hd Hnd]. cbn [gain length]. rewrite (Hp d) by (by left). rewrite IH; [done|done|].
  intros x Hx. rewrite fn_lookup_insert_ne by (by intros ->). apply Hp. by right.
Qed.

Lemma pins_spec ds p bn : pins ds p bn = p bn && negb (bool_decide (bn ∈ ds)).
Proof.
  revert p. induction ds as [|d ds IH]; intros p.
  - rewrite bool_decide_false by apply not_elem_of_nil. by rewrite andb_true_r.
  - change (pins (d :: ds) p) with (pins ds (<[d := false]> p)). rewrite IH. destruct (decide (d = bn)) as [->|Hne].
    + rewrite fn_lookup_insert. rewrite (bool_decide_true (bn ∈ bn :: ds)) by (by left).
      by rewrite andb_false_r.
    + rewrite fn_lookup_insert_ne by done. do 2 f_equal. apply bool_decide_ext.
      rewrite elem_of_cons. naive_solver.
Qed.

(** ** Entries of the log *)

Lemma log_pairs_lookup a bs i : log_pairs a bs !! i = (λ x, (a + Z.of_nat i, x)) <$> bs !! i.
Proof.
  revert a i. induction bs as [|x bs IH]; intros a i; [done|]. destruct i as [|i]; cbn.
  - by rewrite Z.add_0_r.
  - rewrite IH. destruct (bs !! i); cbn; [|done]. do 2 f_equal. lia.
Qed.

Lemma log_pairs_in a bs p : p ∈ log_pairs a bs →
  a ≤ p.1 < a + Z.of_nat (length bs) ∧ p.2 ∈ bs.
Proof.
  intros [i Hi]%list_elem_of_lookup. rewrite log_pairs_lookup in Hi.
  destruct (bs !! i) as [x|] eqn:E; [|done]. cbn in Hi. simplify_eq. cbn.
  pose proof (lookup_lt_Some _ _ _ E). split; [lia|]. by eapply list_elem_of_lookup_2.
Qed.

Lemma log_pairs_snd a bs : (log_pairs a bs).*2 = bs.
Proof. revert a. induction bs as [|x bs IH]; intros a; [done|]. cbn. by rewrite IH. Qed.

Lemma log_pairs_fst a bs : (log_pairs a bs).*1 = seqZ a (Z.of_nat (length bs)).
Proof.
  revert a. induction bs as [|x bs IH]; intros a; [done|]. cbn [log_pairs fmap list_fmap length].
  rewrite IH, (seqZ_cons a) by lia. rewrite Nat2Z.inj_succ, Z.pred_succ. by rewrite Z.add_1_r.
Qed.
