(* ===== verification/LogCrash.v ===== *)
(** * Crash safety of the log

    The disk writes of [commit] and of [recover_from_log] as lists, and what
    a disk stands for after any prefix of them. *)

From S2P Require Import Prelude Bytes Spinlock Sched Bio BioSpec BufLayer Ondisk Log LogSpec.
From Stdlib Require Import FunctionalExtensionality.

(** The contents of the file system a disk stands for: a block named in the
    header is found in the log. *)
Definition committed (start : Z) (d : Z → block) (bn : Z) : block :=
  match list_find (λ x, x = bn) (hdr_blocks (d start)) with
  | Some (i, _) => d (start + 1 + Z.of_nat i)
  | None => d bn
  end.

Definition log_writes (start : Z) (bs : list Z) (m : Z → block) : list (Z * block) :=
  (λ p, (p.1, m p.2)) <$> log_pairs (start + 1) bs.
Definition home_writes (bs : list Z) (m : Z → block) : list (Z * block) :=
  (λ x, (x, m x)) <$> bs.
Definition commit_writes (start : Z) (bs : list Z) (m : Z → block) : list (Z * block) :=
  let h := hdr_put bs (m start) in
  log_writes start bs m ++ (start, h) :: home_writes bs m ++ [(start, hdr_put [] h)].

(** A list of home blocks a header can hold. *)
Definition txn (start : Z) (bs : list Z) : Prop :=
  0 ≤ start < 2 ^ 31 ∧ NoDup bs ∧ Forall (λ x, 0 ≤ x < start) bs ∧ (length bs ≤ LOGSIZE)%nat.

Section committed.
Implicit Types (start bn : Z) (d m : Z → block) (bs : list Z).

Lemma committed_hit start d bs i bn : hdr_blocks (d start) = bs → NoDup bs →
  bs !! i = Some bn → committed start d bn = d (start + 1 + Z.of_nat i).
Proof.
  intros Eb Hnd Hi. unfold committed. rewrite Eb.
  destruct (list_find _ bs) as [[j x]|] eqn:E.
  - apply list_find_Some in E as (Hj & -> & _). by rewrite (NoDup_lookup _ _ _ _ Hnd Hi Hj).
  - rewrite list_find_None, Forall_lookup in E. by destruct (E i bn Hi).
Qed.

Lemma committed_miss start d bn : bn ∉ hdr_blocks (d start) → committed start d bn = d bn.
Proof.
  intros Hn. unfold committed. destruct (list_find _ _) as [[j x]|] eqn:E; [|done].
  apply list_find_Some in E as (Hj & -> & _). by apply list_elem_of_lookup_2 in Hj.
Qed.

Lemma committed_empty start d bn : hdr_n (d start) = 0 → committed start d bn = d bn.
Proof. intros E. apply committed_miss. unfold hdr_blocks. rewrite E. apply not_elem_of_nil. Qed.

Lemma log_writes_keys start bs m : (log_writes start bs m).*1 = seqZ (start + 1) (Z.of_nat (length bs)).
Proof. unfold log_writes. rewrite <- list_fmap_compose. rewrite <- log_pairs_fst. done. Qed.

Lemma home_writes_keys bs m : (home_writes bs m).*1 = bs.
Proof. unfold home_writes. rewrite <- list_fmap_compose. apply list_fmap_id. Qed.

Lemma log_writes_in start bs m i x : bs !! i = Some x →
  (start + 1 + Z.of_nat i, m x) ∈ log_writes start bs m.
Proof.
  intros Hi. apply list_elem_of_fmap. exists (start + 1 + Z.of_nat i, x). split; [done|].
  apply list_elem_of_lookup_2 with i. by rewrite log_pairs_lookup, Hi.
Qed.

Lemma home_writes_in bs m x : x ∈ bs → (x, m x) ∈ home_writes bs m.
Proof. intros. apply list_elem_of_fmap. eauto. Qed.

Lemma txn_range start bs x : txn start bs → x ∈ bs → 0 ≤ x < start.
Proof. intros (_ & _ & Hf & _) Hx. rewrite Forall_forall in Hf. by apply Hf. Qed.

Lemma txn_int start bs : txn start bs → Forall (λ x, 0 ≤ x < 2 ^ 31) bs.
Proof. intros (Hs & _ & Hf & _). eapply Forall_impl; [exact Hf|]. cbn. lia. Qed.

Lemma hdr_fits bs (b : block) : (length bs ≤ LOGSIZE)%nat → length b = BSIZE →
  (4 + 4 * length bs ≤ length b)%nat.
Proof. unfold LOGSIZE, BSIZE. lia. Qed.

Lemma hdr_put_blocks start bs (b : block) : txn start bs → length b = BSIZE →
  hdr_n (hdr_put bs b) = Z.of_nat (length bs) ∧ hdr_blocks (hdr_put bs b) = bs ∧
  length (hdr_put bs b) = BSIZE.
Proof.
  intros Ht Hb. pose proof Ht as (_ & _ & _ & Hl). pose proof (hdr_fits bs b Hl Hb).
  assert (Z.of_nat (length bs) < 2 ^ 31) by (unfold LOGSIZE in Hl; lia).
  split_and!; [by apply hdr_n_put|apply hdr_blocks_put; eauto using txn_int|].
  by rewrite hdr_put_length.
Qed.

Lemma txn_nil start bs : txn start bs → txn start [].
Proof. intros (? & _). split_and!; [lia..|by apply NoDup_nil|done|cbn; lia]. Qed.

Lemma take_notin (w : list (Z * block)) k bn : bn ∉ w.*1 → bn ∉ (take k w).*1.
Proof. intros Hn Hin. apply Hn. rewrite fmap_take in Hin. by eapply elem_of_take in Hin as (? & ? & _); eapply list_elem_of_lookup_2. Qed.

Lemma not_log_key start bs m bn : bn ≤ start → bn ∉ (log_writes start bs m).*1.
Proof. intros Hb. rewrite log_writes_keys, elem_of_seqZ. lia. Qed.

(** Before the header is written the old contents stand. *)
Lemma crash_before start bs d m k bn : hdr_n (d start) = 0 → bn < start →
  committed start (replay (take k (log_writes start bs m)) d) bn = d bn.
Proof.
  intros H0 Hb.
  rewrite committed_empty; rewrite replay_notin; try done; apply take_notin, not_log_key; lia.
Qed.

(** The disk a transaction leads to. *)
Definition txn_disk bs m d (bn : Z) : block := if decide (bn ∈ bs) then m bn else d bn.

(** From the header write to the last home write the log stands for the new
    contents. *)
Lemma crash_after start bs d m k bn : txn start bs → length (m start) = BSIZE → bn < start →
  committed start (replay (log_writes start bs m ++ (start, hdr_put bs (m start)) ::
    take k (home_writes bs m)) d) bn = txn_disk bs m d bn.
Proof.
  intros Ht Hl Hb. destruct (hdr_put_blocks start bs (m start) Ht Hl) as (_ & Hblk & _).
  rewrite replay_app, replay_cons.
  set (d1 := replay (log_writes start bs m) d). set (w := take k (home_writes bs m)).
  assert (∀ y, y ∉ bs → y ∉ w.*1) as Hw.
  { intros y Hy. apply take_notin. by rewrite home_writes_keys. }
  assert (replay w (<[start:=hdr_put bs (m start)]> d1) start = hdr_put bs (m start)) as Hhead.
  { rewrite replay_notin; [apply fn_lookup_insert|]. apply Hw. intros Hx.
    pose proof (txn_range _ _ _ Ht Hx). lia. }
  unfold txn_disk. destruct (decide (bn ∈ bs)) as [Hin|Hnin].
  - apply list_elem_of_lookup in Hin as [i Hi].
    rewrite (committed_hit _ _ bs i); [|by rewrite Hhead|apply Ht|done].
    rewrite replay_notin. 2:{ apply Hw. intros Hx. pose proof (txn_range _ _ _ Ht Hx). lia. }
    rewrite fn_lookup_insert_ne by lia. unfold d1.
    apply replay_in; [|by apply log_writes_in]. rewrite log_writes_keys. apply NoDup_seqZ.
  - rewrite committed_miss by (by rewrite Hhead, Hblk).
    rewrite replay_notin by auto. rewrite fn_lookup_insert_ne by lia.
    unfold d1. rewrite replay_notin; [done|]. apply not_log_key. lia.
Qed.

(** After the whole commit the home blocks hold the new contents. *)
Lemma crash_done start bs d m bn : txn start bs → length (m start) = BSIZE → bn < start →
  hdr_n (replay (commit_writes start bs m) d start) = 0 ∧
  replay (commit_writes start bs m) d bn = txn_disk bs m d bn.
Proof.
  intros Ht Hl Hb. unfold commit_writes. destruct (hdr_put_blocks start bs (m start) Ht Hl) as (_ & _ & Hl').
  rewrite replay_app, replay_cons, replay_app, replay_cons. split.
  - cbn [replay foldl]. rewrite fn_lookup_insert.
    by destruct (hdr_put_blocks start [] _ (txn_nil _ _ Ht) Hl') as (-> & _).
  - cbn [replay foldl]. rewrite fn_lookup_insert_ne by lia. fold (replay (home_writes bs m)).
    unfold txn_disk. destruct (decide (bn ∈ bs)) as [Hin|Hnin].
    + apply replay_in; [rewrite home_writes_keys; apply Ht|by apply home_writes_in].
    + rewrite replay_notin by (by rewrite home_writes_keys).
      rewrite fn_lookup_insert_ne by lia. rewrite replay_notin; [done|]. apply not_log_key. lia.
Qed.

(** A crash after any number [k] of the writes of a commit. *)
Lemma commit_crash start bs d m k bn : txn start bs → length (m start) = BSIZE →
  hdr_n (d start) = 0 → bn < start →
  committed start (replay (take k (commit_writes start bs m)) d) bn =
  if decide (k ≤ length bs)%nat then d bn else txn_disk bs m d bn.
Proof.
  intros Ht Hl H0 Hb. unfold commit_writes.
  assert (length (log_writes start bs m) = length bs) as Hlw.
  { transitivity (length (log_writes start bs m).*1); [by rewrite length_fmap|].
    rewrite log_writes_keys, length_seqZ. lia. }
  case_decide as Hk.
  - rewrite take_app_le by lia. by apply crash_before.
  - rewrite take_app_ge by lia. rewrite Hlw.
    destruct (k - length bs)%nat as [|k'] eqn:Ek; [lia|]. cbn [take].
    destruct (decide (k' ≤ length bs)%nat) as [Hk'|Hk'].
    + rewrite take_app_le; [|by unfold home_writes; rewrite length_fmap]. by apply crash_after.
    + rewrite take_ge; [|rewrite length_app; unfold home_writes; rewrite length_fmap; cbn; lia].
      destruct (crash_done start bs d m bn Ht Hl Hb) as [E1 E2].
      rewrite committed_empty; [exact E2|exact E1].
Qed.
End committed.

(** ** The writes of [commit] *)

Definition commit_view (start : Z) (bs : list Z) (v : bview) : bview :=
  let w := commit_writes start bs (v_mem v) in
  mkView (replay w (v_mem v)) (replay w (v_disk v)) (v_busy v) (pins bs (v_pin v))
    (v_avail v + length bs) (v_trace v ++ w).

(** A transaction that can be committed: its blocks are pinned, and neither
    they nor the log blocks are held. *)
Definition commit_pre (v : bview) (start nb : Z) (bs : list Z) : Prop :=
  txn start bs ∧ start + 1 + Z.of_nat (length bs) ≤ nb < 2 ^ 31 ∧
  (∀ x, x ∈ bs → unheld v x ∧ v_pin v x = true) ∧
  (∀ y, start ≤ y < start + 1 + Z.of_nat (length bs) → unheld v y ∧ v_pin v y = false) ∧
  (0 < v_avail v)%nat.

Section views.
Implicit Types (v : bview) (start : Z) (bs : list Z).

Lemma pairs_apart start bs p q : txn start bs → p ∈ log_pairs (start + 1) bs →
  q ∈ log_pairs (start + 1) bs → p.1 ≠ q.2.
Proof.
  intros Ht [Hp _]%log_pairs_in [_ Hq]%log_pairs_in. pose proof (txn_range _ _ _ Ht Hq). lia.
Qed.

Lemma write_log_view start nb bs v : commit_pre v start nb bs →
  copies (flip_pairs (log_pairs (start + 1) bs)) v =
  mkView (replay (log_writes start bs (v_mem v)) (v_mem v))
    (replay (log_writes start bs (v_mem v)) (v_disk v)) (v_busy v) (v_pin v) (v_avail v)
    (v_trace v ++ log_writes start bs (v_mem v)).
Proof.
  intros (Ht & _ & _ & Hl & _).
  assert ((flip_pairs (log_pairs (start + 1) bs)).*2 = seqZ (start + 1) (Z.of_nat (length bs))) as E2.
  { unfold flip_pairs. rewrite <- list_fmap_compose, <- log_pairs_fst. done. }
  assert (∀ d, d ∈ seqZ (start + 1) (Z.of_nat (length bs)) → v_pin v d = false) as Hp.
  { intros d Hd. rewrite elem_of_seqZ in Hd. apply Hl. lia. }
  rewrite copies_view.
  - rewrite E2, pins_false, gain_false, Nat.add_0_r by done.
    assert (copy_writes (flip_pairs (log_pairs (start + 1) bs)) (v_mem v) =
            log_writes start bs (v_mem v)) as ->; [|done].
    unfold copy_writes, flip_pairs. by rewrite <- list_fmap_compose.
  - intros p q [p' [-> Hp']]%list_elem_of_fmap [q' [-> Hq']]%list_elem_of_fmap. cbn.
    apply not_eq_sym. by eapply pairs_apart.
Qed.

Lemma home_copy start bs m m' : txn start bs →
  (∀ i x, bs !! i = Some x → m (start + 1 + Z.of_nat i) = m' x) →
  copy_writes (log_pairs (start + 1) bs) m = home_writes bs m'.
Proof.
  intros Ht Hm. apply list_eq. intros i. unfold copy_writes, home_writes.
  rewrite !list_lookup_fmap, log_pairs_lookup. destruct (bs !! i) as [x|] eqn:E; [|done].
  cbn. by rewrite (Hm i x E).
Qed.

Lemma log_write_mem start bs m d i x : txn start bs → bs !! i = Some x →
  replay (log_writes start bs m) d (start + 1 + Z.of_nat i) = m x.
Proof.
  intros Ht Hi. apply replay_in; [|by apply log_writes_in]. rewrite log_writes_keys. apply NoDup_seqZ.
Qed.

Lemma span_intro v start nb bs : txn start bs → start + 1 + Z.of_nat (length bs) ≤ nb < 2 ^ 31 →
  (∀ x, x ∈ bs → unheld v x) →
  (∀ y, start ≤ y < start + 1 + Z.of_nat (length bs) → unheld v y ∧ v_pin v y = false) →
  (0 < v_avail v)%nat → ((∀ x, x ∈ bs → v_pin v x = true) ∨ (1 < v_avail v)%nat) →
  span v start nb (start + 1) bs.
Proof.
  intros Ht Hn Hu Hl Ha Hp. pose proof Ht as (? & ? & ? & ?).
  split_and!; try done; try lia. intros y Hy. apply Hl. lia.
Qed.

Lemma commit_view_eq start nb bs v : commit_pre v start nb bs → length (v_mem v start) = BSIZE →
  let v1 := copies (flip_pairs (log_pairs (start + 1) bs)) v in
  let v2 := head_view start (hdr_put bs (v_mem v1 start)) v1 in
  let v3 := copies (log_pairs (start + 1) bs) v2 in
  head_view start (hdr_put [] (v_mem v3 start)) v3 = commit_view start bs v.
Proof.
  intros Hp Hlen. pose proof Hp as (Ht & Hn & Hb & Hl & Ha). cbn zeta.
  rewrite (write_log_view start nb) by done. cbn [v_mem].
  rewrite (replay_notin _ _ start) by (apply not_log_key; lia).
  set (h := hdr_put bs (v_mem v start)). set (w := log_writes start bs (v_mem v)).
  rewrite copies_view by (intros; by eapply pairs_apart). cbn [head_view v_mem v_disk v_busy v_pin v_avail v_trace].
  rewrite (home_copy _ _ _ (v_mem v) Ht).
  2:{ intros i x Hi. rewrite fn_lookup_insert_ne by lia. by apply log_write_mem. }
  rewrite log_pairs_snd. rewrite (replay_notin _ _ start).
  2:{ rewrite home_writes_keys. intros Hx. pose proof (txn_range _ _ _ Ht Hx). lia. }
  rewrite fn_lookup_insert. unfold head_view, commit_view, commit_writes. fold h w.
  cbn [v_mem v_disk v_busy v_pin v_avail v_trace].
  rewrite !replay_app, !replay_cons, !replay_app. f_equal.
  - rewrite gain_true; [done|apply Ht|]. intros x Hx. by apply Hb.
  - rewrite <- !app_assoc. done.
Qed.
End views.

Section run.
Context {S : Type} `{BufLaws S}.
Implicit Types (s : S) (l : log S) (v : bview).

Lemma head_pre_intro l (bs : list Z) : ready (l_buf l) → l_dev l = ROOTDEV → 0 ≤ l_start l →
  l_start l + 1 + Z.of_nat (length bs) ≤ nblocks (l_buf l) →
  unheld (view (l_buf l)) (l_start l) ∧ v_pin (view (l_buf l)) (l_start l) = false →
  (0 < v_avail (view (l_buf l)))%nat → head_pre l.
Proof. intros ? ? ? ? [? ?] ?. split_and!; try done; lia. Qed.

Lemma commit_run l bs : ready (l_buf l) → l_dev l = ROOTDEV → entries l 0 bs →
  lh_n l = Z.of_nat (length bs) → (0 < length bs)%nat →
  commit_pre (view (l_buf l)) (l_start l) (nblocks (l_buf l)) bs →
  ∃ s', commit l = Ok tt (set_lh 0 (lh_block l) (set_buf s' l)) ∧
    goes (l_buf l) s' (commit_view (l_start l) bs (view (l_buf l))).
Proof.
  intros Hr Hd He Hn Hpos Hp. pose proof Hp as (Ht & Hnb & Hb & Hl & Ha).
  set (v := view (l_buf l)) in *. set (st := l_start l) in *. pose proof Ht as (Hst & _ & _ & Hlen).
  assert (length (v_mem v st) = BSIZE) as HB by (apply mem_length, Hr).
  assert (unheld v st ∧ v_pin v st = false) as Hhd by (apply Hl; lia).
  unfold commit. step (eq_refl : get l = Ok l l). rewrite Hn.
  destruct (Z.ltb_spec 0 (Z.of_nat (length bs))); [|lia]. cbn [whenM].
  destruct (write_log_ok l bs) as (s1 & E1 & G1); try done.
  { apply span_intro; try done; [intros; by apply Hb|left; intros; by apply Hb]. }
  step E1. fold st v in G1. pose proof G1 as (R1 & M1 & N1 & V1).
  assert (v_busy (view s1) = v_busy v ∧ v_pin (view s1) = v_pin v ∧ v_avail (view s1) = v_avail v)
    as (B1 & P1 & A1) by (rewrite V1, (write_log_view st _ bs v Hp); done).
  destruct (write_head_ok (set_buf s1 l) bs) as (s2 & E2 & G2); try done.
  { apply (head_pre_intro _ bs); cbn [set_buf l_buf l_dev l_start]; try done; fold st; [lia|by rewrite N1; lia| |by rewrite A1].
    unfold unheld. by rewrite B1, P1. }
  step E2. cbn [l_buf set_buf l_start] in G2. pose proof G2 as (R2 & M2 & N2 & V2). fold st v in V1, V2, G2.
  destruct (install_trans_ok (set_buf s2 (set_buf s1 l)) bs) as (s3 & E3 & G3); try done.
  { cbn [set_buf l_buf l_start]. fold st. rewrite N2, N1, V2.
    apply span_intro; cbn [head_view v_avail v_pin]; unfold unheld; cbn [head_view v_busy];
      rewrite ?B1, ?P1, ?A1; try done; [intros; by apply Hb|left; intros; by apply Hb]. }
  step E3. cbn [l_buf set_buf l_start] in G3. pose proof G3 as (R3 & M3 & N3 & V3). fold st in G3, V3.
  erewrite bind_ok; [|reflexivity].
  destruct (write_head_ok (set_lh 0 (lh_block l) (set_buf s3 l)) []) as (s4 & E4 & G4).
  { apply (head_pre_intro _ []); cbn [set_buf l_buf l_dev l_start set_lh length]; try done; fold st;
      [lia|by rewrite N3, N2, N1; lia| |].
    - unfold unheld. rewrite V3, copies_view by (intros; by eapply pairs_apart).
      cbn [v_busy v_pin]. rewrite V2. cbn [head_view v_busy v_pin].
      rewrite B1, P1, log_pairs_snd, pins_spec. split; [apply Hhd|]. by rewrite (proj2 Hhd).
    - rewrite V3, copies_view by (intros; by eapply pairs_apart). cbn [v_avail]. rewrite V2.
      cbn [head_view v_avail]. lia. }
  { done. } { done. } { cbn; lia. }
  exists s4. split; [exact E4|]. cbn [set_lh set_buf l_buf l_start] in G4. fold st in G4.
  eapply goes_trans; [exact G1|]. eapply goes_trans; [exact G2|].
  eapply goes_trans; [exact G3|]. rewrite V3, V2, V1 in G4.
  rewrite (commit_view_eq st (nblocks (l_buf l)) bs v Hp HB) in G4. exact G4.
Qed.
End run.

(** ** Recovery *)

(** The writes of [recover_from_log] on a disk [d]. *)
Definition recover_writes (start : Z) (d : Z → block) : list (Z * block) :=
  copy_writes (log_pairs (start + 1) (hdr_blocks (d start))) d ++
  [(start, hdr_put [] (d start))].

Definition write_view_all (w : list (Z * block)) (v : bview) : bview :=
  mkView (replay w (v_mem v)) (replay w (v_disk v)) (v_busy v) (v_pin v) (v_avail v) (v_trace v ++ w).

(** What is on the disk of a machine that crashed: a header written by
    [write_head], over home blocks below the log. *)
Definition disk_ok (start nb : Z) (d : Z → block) : Prop :=
  0 ≤ hdr_n (d start) ∧ txn start (hdr_blocks (d start)) ∧
  start + 1 + Z.of_nat (length (hdr_blocks (d start))) ≤ nb < 2 ^ 31.

(** The cache just after boot: nothing is held and every block is as on disk. *)
Definition fresh (v : bview) : Prop :=
  (∀ h, v_busy v h = None) ∧ (∀ bn, v_pin v bn = false) ∧ (∀ bn, v_mem v bn = v_disk v bn) ∧
  (1 < v_avail v)%nat.

Lemma hdr_blocks_length d : 0 ≤ hdr_n d → hdr_n d = Z.of_nat (length (hdr_blocks d)).
Proof. intros. unfold hdr_blocks. rewrite length_fmap, length_seq. lia. Qed.

Lemma recover_key start d k : txn start (hdr_blocks (d start)) →
  k ∉ hdr_blocks (d start) → k ∉ (copy_writes (log_pairs (start + 1) (hdr_blocks (d start))) d).*1.
Proof.
  intros Ht Hk. unfold copy_writes. rewrite <- list_fmap_compose.
  change (k ∉ (log_pairs (start + 1) (hdr_blocks (d start))).*2). by rewrite log_pairs_snd.
Qed.

Lemma recover_copy start d i x : txn start (hdr_blocks (d start)) →
  hdr_blocks (d start) !! i = Some x →
  (x, d (start + 1 + Z.of_nat i)) ∈ copy_writes (log_pairs (start + 1) (hdr_blocks (d start))) d.
Proof.
  intros Ht Hi. apply list_elem_of_fmap. exists (start + 1 + Z.of_nat i, x). split; [done|].
  apply list_elem_of_lookup_2 with i. by rewrite log_pairs_lookup, Hi.
Qed.

(** Recovery installs the committed contents and empties the log. *)
Lemma recover_disk start d bn : txn start (hdr_blocks (d start)) → length (d start) = BSIZE →
  bn < start → replay (recover_writes start d) d bn = committed start d bn.
Proof.
  intros Ht Hl Hb. unfold recover_writes. rewrite replay_app, replay_cons. cbn [replay foldl].
  rewrite fn_lookup_insert_ne by lia. fold (replay (copy_writes (log_pairs (start + 1) (hdr_blocks (d start))) d) d).
  destruct (decide (bn ∈ hdr_blocks (d start))) as [[i Hi]%list_elem_of_lookup|Hn].
  - rewrite (committed_hit start d _ i bn eq_refl) by (done || apply Ht).
    apply replay_in; [|by apply recover_copy]. unfold copy_writes. rewrite <- list_fmap_compose.
    change (NoDup (log_pairs (start + 1) (hdr_blocks (d start))).*2). rewrite log_pairs_snd. apply Ht.
  - rewrite committed_miss by done. apply replay_notin. by apply recover_key.
Qed.

Lemma recover_empty start d : txn start (hdr_blocks (d start)) → length (d start) = BSIZE →
  hdr_n (replay (recover_writes start d) d start) = 0.
Proof.
  intros Ht Hl. unfold recover_writes. rewrite replay_app, replay_cons. cbn [replay foldl].
  rewrite fn_lookup_insert. by destruct (hdr_put_blocks start [] _ (txn_nil _ _ Ht) Hl) as (-> & _).
Qed.

(** A crash during recovery changes nothing the disk stands for. *)
Lemma recover_crash start d k bn : txn start (hdr_blocks (d start)) → length (d start) = BSIZE →
  bn < start → committed start (replay (take k (recover_writes start d)) d) bn = committed start d bn.
Proof.
  intros Ht Hl Hb. unfold recover_writes.
  set (bs := hdr_blocks (d start)) in *. set (w := copy_writes (log_pairs (start + 1) bs) d).
  destruct (decide (k ≤ length w)%nat) as [Hk|Hk].
  - rewrite take_app_le by lia. set (d' := replay (take k w) d).
    assert (∀ y, y ∉ bs → d' y = d y) as Hd'.
    { intros y Hy. apply replay_notin, take_notin. by apply recover_key. }
    assert (∀ y, start ≤ y → d' y = d y) as Hlog.
    { intros y Hy. apply Hd'. intros Hx. pose proof (txn_range _ _ _ Ht Hx). lia. }
    destruct (decide (bn ∈ bs)) as [[i Hi]%list_elem_of_lookup|Hn].
    + rewrite (committed_hit start d' bs i bn) by (done || (by rewrite Hlog by lia) || apply Ht).
      rewrite (committed_hit start d bs i bn eq_refl) by (done || apply Ht).
      apply Hlog. lia.
    + rewrite !committed_miss; rewrite ?Hlog by lia; try done. by apply Hd'.
  - rewrite take_ge by (rewrite length_app; cbn; lia).
    rewrite committed_empty by (by apply recover_empty). by apply recover_disk.
Qed.

Section recover.
Context {S : Type} `{BufLaws S}.
Implicit Types (s : S) (l : log S) (v : bview).

Lemma read_entries d n k m l : (k + m ≤ LOGSIZE)%nat → length (lh_block l) = LOGSIZE → lh_n l = n →
  for_all (seq k m) (read_entry d) l =
  Ok tt (set_lh n (take k (lh_block l) ++ (hdr_entry d <$> seq k m) ++ drop (k + m) (lh_block l)) l).
Proof.
  revert k l. induction m as [|m IH]; intros k l Hk Hl Hn; cbn [seq for_all].
  - rewrite Nat.add_0_r. cbn. rewrite take_drop. by destruct l; cbn in *; subst.
  - assert (read_entry d k l = Ok tt (set_lh n (<[k := hdr_entry d k]> (lh_block l)) l)) as E.
    { unfold read_entry, lh_put. go. rewrite (proj2 (Nat.ltb_lt k LOGSIZE)) by lia. by rewrite Hn. }
    step E. rewrite IH by (cbn; rewrite ?length_insert; lia || done). unfold set_lh. cbn.
    rewrite (take_S_r _ _ (hdr_entry d k)) by (apply list_lookup_insert_eq; lia).
    rewrite take_insert_ge, drop_insert_lt by lia. rewrite <- app_assoc.
    by replace (Datatypes.S (k + m)) with (k + Datatypes.S m)%nat by lia.
Qed.

Lemma read_head_ok l (d := v_mem (view (l_buf l)) (l_start l)) : head_pre l →
  length (lh_block l) = LOGSIZE → 0 ≤ hdr_n d → (length (hdr_blocks d) ≤ LOGSIZE)%nat →
  ∃ s', read_head l =
      Ok tt (set_lh (hdr_n d) (hdr_blocks d ++ drop (length (hdr_blocks d)) (lh_block l)) (set_buf s' l)) ∧
    goes (l_buf l) s' (view (l_buf l)).
Proof.
  intros Hp Hl Hn0 Hn. pose proof Hp as (Hr & Hd & Hs & Hu & Hpin & Hav).
  set (v := view (l_buf l)) in *. set (st := l_start l) in *.
  unfold read_head. step (eq_refl : get l = Ok l l). rewrite (start_u32 l Hp), Hd. fold st.
  destruct (run_bread (l_buf l) st) as (h & s1 & E1 & F1 & G1); try done; [by right|]. run E1.
  pose proof G1 as (R1 & M1 & N1 & V1). fold v in V1, F1.
  assert (v_busy (view s1) h = Some st) as B1 by (rewrite V1; cbn; by inserts).
  run (run_data s1 h st R1 B1). rewrite V1. cbn [open_view v_mem]. fold d.
  erewrite bind_ok; [|reflexivity]. erewrite bind_ok; [|reflexivity].
  unfold tails at 1. cbn [lh_n set_lh set_buf]. change (i32 (get32 0 d)) with (hdr_n d).
  assert (Z.to_nat (hdr_n d) = length (hdr_blocks d)) as En by (unfold hdr_blocks; by rewrite length_fmap, length_seq).
  erewrite bind_ok; [|apply (read_entries d (hdr_n d)); [rewrite En; lia|done|done]].
  destruct (run_brelse s1 h st) as (s2 & E2 & G2); [done|done| |].
  { destruct (idle_clean (l_buf l) st (proj1 Hr) Hu) as [Hx|Hx].
    - left. rewrite V1. cbn. exact Hx.
    - right. rewrite V1. cbn. exact Hx. }
  erewrite lift_ok; [|exact E2]. exists s2. split.
  - unfold hdr_blocks, set_lh, set_buf. cbn. rewrite length_fmap, length_seq. done.
  - eapply goes_trans; [done|]. destruct G2 as (R2 & M2 & N2 & V2). split_and!; try done.
    rewrite V2, V1. unfold close_view, open_view. vcbn. rewrite Hpin. destruct v as [? ? ? ? av ?].
    cbn in *. f_equal; [fn_eq|lia].
Qed.

(** [recover_from_log] on a freshly booted cache. *)
Lemma recover_run l (v := view (l_buf l)) (st := l_start l) : ready (l_buf l) → l_dev l = ROOTDEV →
  length (lh_block l) = LOGSIZE → fresh v → disk_ok st (nblocks (l_buf l)) (v_disk v) →
  ∃ s' b', recover_from_log l = Ok tt (set_lh 0 b' (set_buf s' l)) ∧ length b' = LOGSIZE ∧
    goes (l_buf l) s' (write_view_all (recover_writes st (v_disk v)) v).
Proof.
  intros Hr Hd Hl (Hb & Hpin & Hmem & Hav) (Hn0 & Ht & Hnb).
  assert (v_mem v = v_disk v) as Em by (extensionality x; apply Hmem).
  set (bs := hdr_blocks (v_disk v st)) in *.
  assert (∀ x, unheld v x) as Hu by (intros x h; by rewrite Hb).
  assert (hdr_n (v_disk v st) = Z.of_nat (length bs)) as Hn by (by apply hdr_blocks_length).
  assert (length (v_mem v st) = BSIZE) as HB by (apply mem_length, Hr).
  assert (head_pre l) as Hhp by (apply (head_pre_intro l bs); fold v st; try done; destruct Ht; lia).
  destruct (read_head_ok l) as (s1 & E1 & G1); try done; fold v st; rewrite ?Em; try done;
    [apply Ht|]. fold v st in E1, G1. rewrite Em in E1. fold bs in E1.
  set (b1 := bs ++ drop (length bs) (lh_block l)) in *.
  assert (length b1 = LOGSIZE) as Hb1.
  { unfold b1. rewrite length_app, length_drop. destruct Ht as (_ & _ & _ & ?). lia. }
  unfold recover_from_log. step E1. pose proof G1 as (R1 & M1 & N1 & V1).
  destruct (install_trans_ok (set_lh (hdr_n (v_disk v st)) b1 (set_buf s1 l)) bs) as (s2 & E2 & G2);
    cbn [set_lh set_buf l_buf l_start lh_n lh_block]; try done.
  { intros j x Hj. cbn. unfold b1. by apply lookup_app_l_Some. }
  { fold st. rewrite N1, V1. apply span_intro; try done; [lia|by right]. }
  step E2. cbn [set_lh set_buf l_buf l_start] in G2. rewrite V1 in G2. fold st in G2.
  pose proof G2 as (R2 & M2 & N2 & V2).
  rewrite copies_view in V2 by (intros; by eapply pairs_apart).
  rewrite log_pairs_snd, pins_false, gain_false, Nat.add_0_r in V2 by done.
  erewrite bind_ok; [|reflexivity].
  destruct (write_head_ok (set_lh 0 b1 (set_buf s2 l)) []) as (s3 & E3 & G3).
  { apply (head_pre_intro _ []); cbn [set_buf l_buf l_dev l_start set_lh length]; try done; fold st;
      [destruct Ht; lia|rewrite N2, N1; lia| |rewrite V2; cbn [v_avail]; lia].
    rewrite V2. split; [apply Hu|apply Hpin]. }
  { done. } { done. } { cbn; lia. }
  exists s3, b1. split_and!; [exact E3|done|]. cbn [set_lh set_buf l_buf l_start] in G3. fold st in G3.
  eapply goes_trans; [exact G1|]. eapply goes_trans; [exact G2|]. rewrite V2 in G3.
  destruct G3 as (R3 & M3 & N3 & V3). split_and!; try done. rewrite V3.
  unfold head_view, write_view_all, recover_writes. cbn [v_mem v_disk v_busy v_pin v_avail v_trace].
  rewrite !replay_app, Em, app_assoc. fold bs. rewrite (replay_notin _ _ st); [done|].
  apply recover_key; [done|]. intros Hx. pose proof (txn_range _ _ _ Ht Hx). lia.
Qed.
End recover.

Lemma recover_prefix_ok start nb d k : disk_ok start nb d → length (d start) = BSIZE →
  disk_ok start nb (replay (take k (recover_writes start d)) d).
Proof.
  intros (Hz & Ht & Hnb) Hl. unfold recover_writes.
  set (w := copy_writes (log_pairs (start + 1) (hdr_blocks (d start))) d).
  destruct (decide (k ≤ length w)%nat) as [Hk|Hk].
  - rewrite take_app_le by lia. unfold disk_ok.
    assert (replay (take k w) d start = d start) as ->; [|done].
    apply replay_notin, take_notin, recover_key; [done|]. intros Hx.
    pose proof (txn_range _ _ _ Ht Hx). lia.
  - rewrite take_ge by (rewrite length_app; cbn; lia). unfold disk_ok.
    pose proof (recover_empty start d Ht Hl) as E. unfold recover_writes in E. fold w in E.
    rewrite E. assert (hdr_blocks (replay (w ++ [(start, hdr_put [] (d start))]) d start) = []) as ->.
    { unfold hdr_blocks. by rewrite E. }
    split_and!; [done|by eapply txn_nil|cbn; lia|lia].
Qed.
