(* ===== verification/LogOps.v ===== *)
(** * Transactions

    The invariant of the log between operations and the effect of
    [log_write], [begin_op] and [end_op] on it, and the crash theorems. *)

From S2P Require Import Prelude Bytes Spinlock Sched Bio BioSpec BufLayer Ondisk Log LogSpec LogCrash.
From Stdlib Require Import FunctionalExtensionality.

Section inv.
Context {S : Type} `{BufLaws S}.
Implicit Types (s : S) (l : log S).

(** The blocks of the current transaction. *)
Definition logged l : list Z := take (Z.to_nat (lh_n l)) (lh_block l).

(** How many more calls of [log_write] cannot panic. *)
Definition log_room l : nat := Z.to_nat (Z.min (Z.of_nat LOGSIZE) (l_size l - 1) - lh_n l).

Definition linv l : Prop :=
  ready (l_buf l) ∧ lfree L_log (bmach (l_buf l)) ∧ l_dev l = ROOTDEV ∧
  (2 ≤ l_start l ∧ 1 ≤ l_size l ∧ l_start l + l_size l ≤ nblocks (l_buf l)) ∧
  length (lh_block l) = LOGSIZE ∧
  (0 ≤ lh_n l ≤ Z.of_nat LOGSIZE ∧ lh_n l ≤ l_size l - 1) ∧
  NoDup (logged l) ∧ Forall (λ x, 0 ≤ x < l_start l) (logged l) ∧
  (∀ bn, v_pin (view (l_buf l)) bn = true ↔ bn ∈ logged l) ∧
  hdr_n (v_disk (view (l_buf l)) (l_start l)) = 0.

Lemma logged_length l : linv l → length (logged l) = Z.to_nat (lh_n l).
Proof. intros (_ & _ & _ & _ & Hl & Hn & _). unfold logged. rewrite length_take. lia. Qed.

Lemma linv_txn l : linv l → txn (l_start l) (logged l) ∧
  l_start l + 1 + Z.of_nat (length (logged l)) ≤ nblocks (l_buf l) < 2 ^ 31.
Proof.
  intros Hi. pose proof (logged_length l Hi) as E.
  pose proof Hi as (Hr & _ & _ & Hg & Hl & Hn & Hnd & Hf & _).
  pose proof (nblocks_small (l_buf l) (proj1 Hr)). unfold txn. rewrite E. split_and!; try done; lia.
Qed.

Lemma entries_logged l : entries l 0 (logged l).
Proof. intros j x Hj. unfold logged in Hj. by apply lookup_take_Some in Hj as [? _]. Qed.

(** The locks of the machine under the cache. *)
Lemma machM_ok {A} (m : M mach A) l a m' : m (bmach (l_buf l)) = Ok a m' →
  machM m l = Ok a (set_buf (set_bmach m' (l_buf l)) l).
Proof. intros E. unfold machM. erewrite lift_ok; [done|]. by erewrite lift_ok. Qed.

Lemma ready_set_mach s m : ready s → msim (bmach s) m → ready (set_bmach m s).
Proof.
  intros (Hi & Hm & Hb & Hp) Hs. unfold ready. rewrite get_set_mach.
  split_and!; [by apply binv_set_mach|by rewrite <- Hs..].
Qed.

(** ** log_write *)

Definition add_block (bn : Z) (bs : list Z) : list Z :=
  if decide (bn ∈ bs) then bs else bs ++ [bn].

Lemma find_slot_spec l bn : linv l → 0 ≤ bn < 2 ^ 31 →
  let i := find_slot (Z.to_nat (lh_n l)) (lh_block l) bn in
  ((bn ∈ logged l) ∧ logged l !! i = Some bn ∧ (i < Z.to_nat (lh_n l))%nat) ∨
  ((bn ∉ logged l) ∧ i = Z.to_nat (lh_n l)).
Proof.
  intros Hi Hbn. pose proof Hi as (_ & _ & _ & Hg & Hl & Hn & Hnd & Hf & _).
  destruct (linv_txn l Hi) as [Ht _]. unfold find_slot. fold (logged l).
  assert (∀ x, x ∈ logged l → u32 x = x) as Hu.
  { intros x Hx. pose proof (txn_range _ _ _ Ht Hx). destruct Ht as [? _]. apply wrap_small. lia. }
  destruct (list_find _ (logged l)) as [[i x]|] eqn:E.
  - apply list_find_Some in E as (Hx & Hxb & _). left.
    rewrite (Hu x) in Hxb by (by eapply list_elem_of_lookup_2). subst x.
    split_and!; [by eapply list_elem_of_lookup_2|done|]. apply lookup_lt_Some in Hx.
    by rewrite logged_length in Hx.
  - right. split; [|done]. apply list_find_None in E. rewrite Forall_forall in E.
    intros Hin. apply (E bn Hin). by apply Hu.
Qed.

(** The log after [log_write]: the block is in the transaction and pinned. *)
Definition log_write_state l (bn : Z) s' : log S :=
  let i := find_slot (Z.to_nat (lh_n l)) (lh_block l) bn in
  set_lh (if decide (bn ∈ logged l) then lh_n l else lh_n l + 1) (<[i := bn]> (lh_block l))
    (set_buf s' l).

Lemma logged_write l bn s' : linv l → 0 ≤ bn < 2 ^ 31 → lh_n l < Z.of_nat LOGSIZE →
  logged (log_write_state l bn s') = add_block bn (logged l).
Proof.
  intros Hi Hbn Hn. pose proof Hi as (_ & _ & _ & _ & Hl & Hn' & _).
  unfold log_write_state, logged at 1, add_block. cbn [lh_n lh_block set_lh].
  destruct (find_slot_spec l bn Hi Hbn) as [(Hin & Hi' & Hlt)|[Hnin Hi']].
  - rewrite decide_True by done. rewrite decide_True by done.
    rewrite list_insert_id; [done|]. unfold logged in Hi'. by apply lookup_take_Some in Hi' as [? _].
  - rewrite !decide_False by done. rewrite Hi'. rewrite Z2Nat.inj_add by lia.
    change (Z.to_nat 1) with 1%nat. rewrite Nat.add_1_r.
    rewrite (take_S_r _ _ bn) by (apply list_lookup_insert_eq; lia).
    by rewrite take_insert_ge by lia.
Qed.

Lemma NoDup_add_block bn bs : NoDup bs → NoDup (add_block bn bs).
Proof.
  intros Hnd. unfold add_block. case_decide; [done|]. apply NoDup_app.
  split_and!; [done| |apply NoDup_singleton]. intros x Hx Hs.
  apply list_elem_of_singleton in Hs. by subst.
Qed.

Lemma elem_of_add_block x bn bs : x ∈ add_block bn bs ↔ x = bn ∨ x ∈ bs.
Proof. unfold add_block. case_decide; rewrite ?elem_of_app, ?list_elem_of_singleton; naive_solver. Qed.

Lemma log_write_ok l h bn : linv l → v_busy (view (l_buf l)) h = Some bn → bn < l_start l →
  1 ≤ l_outstanding l → (0 < log_room l)%nat →
  ∃ s', log_write h l = Ok tt (log_write_state l bn s') ∧ linv (log_write_state l bn s') ∧
    goes (l_buf l) s' (pin_view bn (view (l_buf l))).
Proof.
  intros Hi Hb Hbn Ho Hroom. pose proof Hi as (Hr & Hlk & Hd & Hg & Hl & Hn & Hnd & Hf & Hp & Hh).
  unfold log_room in Hroom. unfold LOGSIZE in *.
  assert (0 ≤ bn < 2 ^ 31) as Hbr.
  { pose proof (busy_range _ _ _ (proj1 Hr) Hb). pose proof (nblocks_small _ (proj1 Hr)). lia. }
  unfold log_write. step (eq_refl : get l = Ok l l).
  rewrite (proj2 (Z.leb_gt _ _)) by (unfold LOGSIZE; lia). rewrite (proj2 (Z.leb_gt _ _)) by lia.
  cbn [orb]. rewrite (proj2 (Z.ltb_ge _ _)) by lia.
  set (m := bmach (l_buf l)).
  assert (mok m) as Hm by apply Hr.
  step (machM_ok _ l _ _ (lock_ok L_log m Hm Hlk)).
  set (s1 := set_bmach (mlocked L_log m) (l_buf l)).
  assert (binvS s1) as Hi1 by (apply binv_set_mach, Hr).
  assert (view s1 = view (l_buf l)) as V1 by apply view_set_mach.
  run (law_blockno s1 h bn Hi1 ltac:(by rewrite V1)).
  set (i := find_slot _ _ _). pose proof (find_slot_spec l bn Hi Hbr) as Hslot. fold i in Hslot.
  assert (i < LOGSIZE)%nat as Hlt.
  { destruct Hslot as [(_ & _ & ?)|[_ E]]; unfold LOGSIZE; lia. }
  erewrite bind_ok; [|by unfold lh_put; go; rewrite (proj2 (Nat.ltb_lt _ _) Hlt)].
  cbn [set_buf lh_n lh_block].
  assert (i32 bn = bn) as -> by (apply swrap_small; lia).
  set (l2 := set_lh (if decide (bn ∈ logged l) then lh_n l else lh_n l + 1) (<[i:=bn]> (lh_block l)) (set_buf s1 l)).
  erewrite (bind_ok _ _ _ tt l2).
  2:{ unfold l2. destruct Hslot as [(Hin & _ & ?)|[Hnin E]].
      - rewrite decide_True by done. rewrite (proj2 (Z.eqb_neq _ _)) by lia. done.
      - rewrite decide_False by done. rewrite (proj2 (Z.eqb_eq _ _)) by lia. done. }
  destruct (law_dirty s1 h bn Hi1) as (s2 & E2 & Hi2 & Hm2 & Hn2 & V2); [by rewrite V1|].
  erewrite bind_ok; [|apply lift_ok; exact E2]. set (l3 := set_buf s2 l2).
  assert (bmach s2 = mlocked L_log m) as Hm3 by (rewrite Hm2; apply get_set_mach).
  erewrite machM_ok; [|cbn [l3 set_buf l_buf]; rewrite Hm3; by apply unlock_ok'].
  cbn [l_buf set_buf l3]. exists (set_bmach m s2).
  assert (view (set_bmach m s2) = pin_view bn (view (l_buf l))) as V3 by (rewrite view_set_mach; congruence).
  assert (goes (l_buf l) (set_bmach m s2) (pin_view bn (view (l_buf l)))) as G.
  { apply goes_same_mach; try done; [by apply binv_set_mach|apply get_set_mach|].
    rewrite nblocks_set_mach, Hn2. unfold s1. by rewrite nblocks_set_mach. }
  split_and!; [done| |done].
  pose proof (logged_write l bn (set_bmach m s2) Hi Hbr ltac:(unfold LOGSIZE; lia)) as Elog.
  unfold linv. rewrite Elog. unfold log_write_state.
  cbn [l_buf l_dev l_start l_size lh_block lh_n set_lh set_buf]. unfold LOGSIZE in *.
  destruct G as (Rg & Mg & Ng & Vg). rewrite Vg, Ng. cbn [pin_view v_pin v_disk].
  split_and!; try done; try lia.
  - by rewrite get_set_mach.
  - by rewrite length_insert.
  - case_decide; lia.
  - case_decide; lia.
  - case_decide; lia.
  - by apply NoDup_add_block.
  - rewrite Forall_forall in *. intros x [->|Hx]%elem_of_add_block; [lia|by apply Hf].
  - intros x. rewrite elem_of_add_block, <- Hp. destruct (decide (bn = x)) as [->|Hne].
    + rewrite fn_lookup_insert. tauto.
    + rewrite fn_lookup_insert_ne by done. naive_solver.
Qed.

(** ** commit *)

(** No system call is inside a block of the transaction or of the log. *)
Definition idle l : Prop :=
  (∀ x, x ∈ logged l → unheld (view (l_buf l)) x) ∧
  (∀ y, l_start l ≤ y < l_start l + l_size l → unheld (view (l_buf l)) y) ∧
  (0 < v_avail (view (l_buf l)))%nat.

(** The disk writes a commit makes. *)
Definition txn_writes l : list (Z * block) :=
  if decide (logged l = []) then [] else commit_writes (l_start l) (logged l) (v_mem (view (l_buf l))).

Definition done_view l : bview :=
  let v := view (l_buf l) in
  mkView (replay (txn_writes l) (v_mem v)) (replay (txn_writes l) (v_disk v)) (v_busy v)
    (λ _, false) (v_avail v + length (logged l)) (v_trace v ++ txn_writes l).

Lemma linv_commit_pre l : linv l → idle l →
  commit_pre (view (l_buf l)) (l_start l) (nblocks (l_buf l)) (logged l).
Proof.
  intros Hi (Hu & Hlog & Ha). destruct (linv_txn l Hi) as [Ht Hn].
  pose proof Hi as (_ & _ & _ & Hg & _ & Hnn & _ & _ & Hp & _). rewrite logged_length in Hn by done.
  split_and!; try done; [rewrite logged_length by done; lia|lia| |].
  - intros x Hx. split; [by apply Hu|by apply Hp].
  - intros y Hy. rewrite logged_length in Hy by done. split; [apply Hlog; lia|].
    destruct (v_pin (view (l_buf l)) y) eqn:E; [|done]. apply Hp in E.
    pose proof (txn_range _ _ _ Ht E). lia.
Qed.

Lemma done_pins l : linv l → pins (logged l) (v_pin (view (l_buf l))) = (λ _, false).
Proof.
  intros (_ & _ & _ & _ & _ & _ & _ & _ & Hp & _). extensionality bn. rewrite pins_spec.
  destruct (v_pin (view (l_buf l)) bn) eqn:E; [|done]. by rewrite bool_decide_true by (by apply Hp).
Qed.

Lemma done_head l : linv l → idle l →
  hdr_n (v_disk (done_view l) (l_start l)) = 0.
Proof.
  intros Hi Hq. pose proof Hi as (Hr & _ & _ & _ & _ & _ & _ & _ & _ & Hh). cbn.
  unfold txn_writes. case_decide as E; [done|].
  destruct (linv_txn l Hi) as [Ht _]. pose proof (mem_length (l_buf l) (l_start l) (proj1 Hr)) as Hl.
  apply (crash_done _ _ _ _ (l_start l - 1) Ht Hl). lia.
Qed.

Lemma linv_done l s' : linv l → idle l → goes (l_buf l) s' (done_view l) →
  linv (set_lh 0 (lh_block l) (set_buf s' l)).
Proof.
  intros Hi Hq (R & Ms & N & V). pose proof (done_head l Hi Hq) as Hhd.
  pose proof Hi as (Hr & Hlk & Hd & Hg & Hl & Hn & _). unfold linv.
  cbn [l_buf l_dev l_start l_size lh_block lh_n set_lh set_buf]. rewrite V, N.
  split_and!; try done; try lia.
  - by rewrite <- Ms.
  - apply NoDup_nil_2.
  - intros bn. cbn. split; [done|]. intros Hx. by apply elem_of_nil in Hx.
Qed.

Lemma commit_ok l : linv l → idle l →
  ∃ s', commit l = Ok tt (set_lh 0 (lh_block l) (set_buf s' l)) ∧ goes (l_buf l) s' (done_view l).
Proof.
  intros Hi Hq. pose proof (logged_length l Hi) as Hlen. pose proof (done_pins l Hi) as Hpins.
  pose proof Hi as (Hr & _ & Hd & _ & _ & Hn & _).
  unfold done_view, txn_writes. case_decide as E.
  - rewrite E in *. cbn in Hlen, Hpins. exists (l_buf l). split.
    + unfold commit. step (eq_refl : get l = Ok l l).
      rewrite (proj2 (Z.ltb_ge 0 (lh_n l))) by lia.
      replace 0 with (lh_n l) by lia. by destruct l.
    + destruct (goes_refl (l_buf l) Hr) as (R & Ms & N & _). split_and!; try done.
      cbn. rewrite <- Hpins, app_nil_r, Nat.add_0_r. by destruct (view (l_buf l)).
  - destruct (commit_run l (logged l)) as (s' & E' & G); try done.
    + apply entries_logged.
    + rewrite Hlen. lia.
    + destruct (logged l); [done|cbn; lia].
    + by apply linv_commit_pre.
    + exists s'. split; [done|]. unfold commit_view in G. by rewrite Hpins in G.
Qed.

(** ** begin_op and end_op *)

Definition begin_room l : Prop :=
  l_committing l = false ∧ lh_n l + (l_outstanding l + 1) * MAXOPBLOCKS ≤ Z.of_nat LOGSIZE.

Lemma begin_op_ok l : mok (bmach (l_buf l)) → lfree L_log (bmach (l_buf l)) → begin_room l →
  begin_op l = Ok tt (set_out (l_outstanding l + 1) false l).
Proof.
  intros Hm Hlk [Hc Hn]. unfold begin_op. step (machM_ok _ l _ _ (lock_ok L_log _ Hm Hlk)).
  unfold begin_op_turn. erewrite bind_ok; [|reflexivity]. cbn [l_committing set_buf]. rewrite Hc.
  cbn [lh_n set_buf l_outstanding]. rewrite (proj2 (Z.ltb_ge _ _)) by lia.
  erewrite bind_ok; [|reflexivity].
  erewrite machM_ok; [|cbn [set_out set_buf l_buf]; rewrite get_set_mach; by apply unlock_ok'].
  unfold set_out, set_buf. cbn. by rewrite set_set_mach, set_get_mach.
Qed.

(** When the log may run out of space, or is committing, the caller sleeps on
    the log and has released [log.lock]; nothing else of the log changes. *)
Lemma begin_op_waits l i p : running (bmach (l_buf l)) i p → lfree L_log (bmach (l_buf l)) →
  lfree L_ptable (bmach (l_buf l)) → ¬ begin_room l →
  begin_op l = Stop Switch (set_buf (set_bmach
    (put_to_sleep log_chan i p (mlocked L_ptable (bmach (l_buf l)))) (l_buf l)) l).
Proof.
  intros Hrun Hlk Hpt Hn. unfold begin_op.
  step (machM_ok _ l _ _ (lock_ok L_log _ (proj1 Hrun) Hlk)).
  unfold begin_op_turn. erewrite bind_ok; [|reflexivity]. cbn [l_committing set_buf lh_n l_outstanding].
  assert (∀ {A} (k : M (log S) A), (machM (sleep log_chan L_log) ;;; k)
    (set_buf (set_bmach (mlocked L_log (bmach (l_buf l))) (l_buf l)) l) =
    Stop Switch (set_buf (set_bmach (put_to_sleep log_chan i p (mlocked L_ptable (bmach (l_buf l))))
      (l_buf l)) l)) as E.
  { intros A k. apply bind_stop. unfold machM. erewrite lift_stop.
    2:{ cbn [l_buf set_buf]. erewrite lift_stop; [reflexivity|]. rewrite get_set_mach.
        by apply sleep_ok. }
    by rewrite set_set_mach. }
  destruct (l_committing l) eqn:Ec; [apply E|].
  destruct (Z.ltb_spec (Z.of_nat LOGSIZE) (lh_n l + (l_outstanding l + 1) * MAXOPBLOCKS)); [apply E|].
  exfalso. apply Hn. split; [done|lia].
Qed.

(** [end_op] of an operation that is not the last only wakes the waiters. *)
Lemma end_op_more l : linv l → l_committing l = false → l_outstanding l ≠ 1 →
  ∃ s', end_op l = Ok tt (set_out (l_outstanding l - 1) false (set_buf s' l)) ∧
    goes (l_buf l) s' (view (l_buf l)).
Proof.
  intros Hi Hc Ho. pose proof Hi as (Hr & Hlk & _). pose proof Hr as (Hb & Hm & _ & Hpt).
  set (m := bmach (l_buf l)) in *. unfold end_op.
  step (machM_ok _ l _ _ (lock_ok L_log m Hm Hlk)).
  erewrite bind_ok; [|reflexivity]. erewrite bind_ok; [|reflexivity].
  cbn [l_committing set_out set_buf l_outstanding]. rewrite Hc.
  rewrite (proj2 (Z.eqb_neq _ _)) by lia.
  erewrite bind_ok.
  2:{ erewrite bind_ok; [reflexivity|]. apply machM_ok. cbn [l_buf set_buf set_out].
      rewrite get_set_mach. apply wakeup_ok; [by apply mok_mlocked|by apply lfree_mlocked]. }
  erewrite bind_ok.
  2:{ apply machM_ok. cbn [l_buf set_buf set_out]. rewrite get_set_mach. by apply unlock_ok. }
  cbn [l_buf set_buf set_out whenM]. rewrite !set_set_mach.
  exists (set_bmach (set_ptable (wake log_chan <$> ptable m) m) (l_buf l)).
  split; [reflexivity|]. apply goes_intro; try done.
  - by apply binv_set_mach.
  - rewrite get_set_mach. apply msim_wake.
  - apply nblocks_set_mach.
  - apply view_set_mach.
Qed.

(** [end_op] of the last operation commits. *)
Lemma end_op_last l : linv l → idle l → l_committing l = false → l_outstanding l = 1 →
  ∃ s', end_op l = Ok tt (set_out 0 false (set_lh 0 (lh_block l) (set_buf s' l))) ∧
    goes (l_buf l) s' (done_view l).
Proof.
  intros Hi Hq Hc Ho. pose proof Hi as (Hr & Hlk & _). pose proof Hr as (Hb & Hm & _ & Hpt).
  set (m := bmach (l_buf l)) in *. unfold end_op.
  step (machM_ok _ l _ _ (lock_ok L_log m Hm Hlk)).
  erewrite bind_ok; [|reflexivity]. erewrite bind_ok; [|reflexivity].
  cbn [l_committing set_out set_buf l_outstanding]. rewrite Hc, Ho. change (1 - 1 =? 0) with true.
  erewrite bind_ok; [|reflexivity].
  erewrite bind_ok.
  2:{ apply machM_ok. cbn [l_buf set_buf set_out]. rewrite get_set_mach. by apply unlock_ok'. }
  cbn [l_buf set_buf set_out whenM l_start l_size l_outstanding l_committing l_dev lh_n lh_block].
  rewrite set_set_mach. unfold m. rewrite set_get_mach.
  match goal with |- context [bind commit _ ?x] => set (l1 := x) end.
  destruct (commit_ok l1) as (s1 & E1 & G1); [exact Hi|exact Hq|]. change (l_buf l1) with (l_buf l) in G1.
  step E1. pose proof G1 as (R1 & M1 & N1 & V1). change (done_view l1) with (done_view l) in *.
  assert (mok (bmach s1)) as Hm1 by apply R1.
  assert (lfree L_log (bmach s1)) as Hlk1 by (by rewrite <- M1).
  step (machM_ok _ (set_lh 0 (lh_block l1) (set_buf s1 l1)) _ _ (lock_ok L_log _ Hm1 Hlk1)).
  erewrite bind_ok; [|reflexivity].
  erewrite bind_ok.
  2:{ apply machM_ok. cbn [l_buf set_buf set_out set_lh]. rewrite get_set_mach.
      apply wakeup_ok; [by apply mok_mlocked|apply lfree_mlocked; [done|apply R1]]. }
  erewrite machM_ok.
  2:{ cbn [l_buf set_buf set_out set_lh]. rewrite get_set_mach. by apply unlock_ok. }
  cbn [l_buf set_buf set_out set_lh]. rewrite !set_set_mach.
  exists (set_bmach (set_ptable (wake log_chan <$> ptable (bmach s1)) (bmach s1)) s1).
  split; [reflexivity|]. eapply goes_trans; [exact G1|]. apply goes_intro; try done.
  - apply binv_set_mach, R1.
  - rewrite get_set_mach. apply msim_wake.
  - apply nblocks_set_mach.
  - by rewrite view_set_mach.
Qed.
End inv.
