(* ===== verification/LogThms.v ===== *)
(** * All-or-nothing transactions

    The theorems about crashes: whatever prefix of the disk writes of a
    commit or of a recovery reached the disk, running [recover_from_log] on
    the rebooted machine restores either all or none of the transaction.
    The end of the file runs the theorems on bio.c over a small disk. *)

From S2P Require Import Prelude Bytes Spinlock Sched Bio BioSpec BufLayer Ondisk Log LogSpec LogCrash LogOps.
From Stdlib Require Import FunctionalExtensionality.

Section thms.
Context {S : Type} `{BufLaws S}.
Implicit Types (l r : log S) (s : S).

(** The machine after a crash and a reboot: the disk [d] of the crash, an
    empty cache, and the log geometry read again from the super block. *)
Definition rebooted (l r : log S) (d : Z → block) : Prop :=
  ready (l_buf r) ∧ l_dev r = ROOTDEV ∧ l_start r = l_start l ∧
  nblocks (l_buf r) = nblocks (l_buf l) ∧ length (lh_block r) = LOGSIZE ∧
  fresh (view (l_buf r)) ∧ v_disk (view (l_buf r)) = d.

Definition disk_of l : Z → block := v_disk (view (l_buf l)).

Lemma crash_head start bs d m k : txn start bs → length (m start) = BSIZE →
  let d' := replay (take k (commit_writes start bs m)) d in
  d' start = d start ∨ d' start = hdr_put bs (m start) ∨ d' start = hdr_put [] (hdr_put bs (m start)).
Proof.
  intros Ht Hl. cbn zeta. unfold commit_writes.
  assert (start ∉ (home_writes bs m).*1) as Hn.
  { rewrite home_writes_keys. intros Hx. pose proof (txn_range _ _ _ Ht Hx). lia. }
  destruct (decide (k ≤ length (log_writes start bs m))%nat).
  { left. rewrite take_app_le by lia. apply replay_notin, take_notin, not_log_key. lia. }
  right. rewrite take_app_ge by lia. destruct (k - _)%nat as [|k'] eqn:E; [lia|].
  cbn [take]. rewrite replay_app, replay_cons.
  destruct (decide (k' ≤ length (home_writes bs m))%nat).
  - left. rewrite take_app_le by lia. rewrite replay_notin by (by apply take_notin).
    apply fn_lookup_insert.
  - right. rewrite take_ge by (rewrite length_app; cbn; lia).
    rewrite replay_app, replay_cons. cbn [replay foldl]. apply fn_lookup_insert.
Qed.

Lemma hdr_zero_blocks b : hdr_n b = 0 → hdr_blocks b = [].
Proof. intros E. unfold hdr_blocks. by rewrite E. Qed.

Lemma crash_disk_ok start nb bs d m k : txn start bs → length (m start) = BSIZE →
  hdr_n (d start) = 0 → start + 1 + Z.of_nat (length bs) ≤ nb < 2 ^ 31 →
  disk_ok start nb (replay (take k (commit_writes start bs m)) d).
Proof.
  intros Ht Hl Hz Hnb. destruct (hdr_put_blocks start bs (m start) Ht Hl) as (E1 & E2 & E3).
  destruct (hdr_put_blocks start [] _ (txn_nil _ _ Ht) E3) as (F1 & F2 & _).
  unfold disk_ok. pose proof (txn_nil _ _ Ht).
  destruct (crash_head start bs d m k Ht Hl) as [->|[->| ->]].
  - rewrite Hz, hdr_zero_blocks by done. split_and!; try done; cbn; lia.
  - rewrite E1, E2. split_and!; try done; lia.
  - rewrite F1, F2. split_and!; try done; cbn; lia.
Qed.

(** The disk a crash inside a commit leaves. *)
Lemma txn_crash_ok l k : linv l →
  disk_ok (l_start l) (nblocks (l_buf l)) (replay (take k (txn_writes l)) (disk_of l)) ∧
  ∀ bn, bn < l_start l →
    committed (l_start l) (replay (take k (txn_writes l)) (disk_of l)) bn =
    if decide (k ≤ length (logged l))%nat then disk_of l bn
    else txn_disk (logged l) (v_mem (view (l_buf l))) (disk_of l) bn.
Proof.
  intros Hi. destruct (linv_txn l Hi) as [Ht Hnb].
  pose proof Hi as (Hr & _ & _ & _ & _ & _ & _ & _ & _ & Hz). fold (disk_of l) in Hz.
  pose proof (mem_length (l_buf l) (l_start l) (proj1 Hr)) as Hl.
  unfold txn_writes. case_decide as E.
  - rewrite take_nil. cbn [replay foldl]. split.
    + unfold disk_ok. rewrite Hz, hdr_zero_blocks by done. rewrite E in Hnb. cbn in *.
      split_and!; try done; try lia. by eapply txn_nil.
    + intros bn Hb. rewrite committed_empty by done. unfold txn_disk. rewrite E.
      case_decide; [done|]. by rewrite decide_False by apply not_elem_of_nil.
  - split; [by apply crash_disk_ok|]. intros bn Hb. by apply commit_crash.
Qed.

(** Recovery of a rebooted machine installs what the disk stands for. *)
Lemma recover_rebooted l r d : rebooted l r d → disk_ok (l_start l) (nblocks (l_buf l)) d →
  ∃ r', recover_from_log r = Ok tt r' ∧ lh_n r' = 0 ∧
    disk_of r' = replay (recover_writes (l_start l) d) d ∧
    hdr_n (disk_of r' (l_start l)) = 0 ∧
    ∀ bn, bn < l_start l → disk_of r' bn = committed (l_start l) d bn.
Proof.
  intros (Hr & Hd & Es & En & Hb & Hf & Ed) Hok. rewrite <- Es, <- En, <- Ed in *.
  pose proof Hok as (_ & Ht & _). pose proof Hf as (_ & _ & Hmem & _).
  assert (length (v_disk (view (l_buf r)) (l_start r)) = BSIZE) as Hl
    by (rewrite <- Hmem; apply mem_length, Hr).
  destruct (recover_run r) as (s' & b' & E & _ & G); try done.
  exists (set_lh 0 b' (set_buf s' r)). destruct G as (_ & _ & _ & V).
  unfold disk_of. cbn [l_buf set_lh set_buf]. rewrite V. cbn [write_view_all v_disk].
  split_and!; try done.
  - by apply recover_empty.
  - intros bn Hbn. by apply recover_disk.
Qed.

(** ** Booting *)

Lemma readsb_ok s : ready s → fresh (view s) → 1 < nblocks s →
  ∃ s', readsb ROOTDEV s = Ok (sb_dec (v_disk (view s) 1)) s' ∧ goes s s' (view s).
Proof.
  intros Hr (Hb & Hp & Hm & Ha) Hn. assert (unheld (view s) 1) as Hu by (intros h; by rewrite Hb).
  destruct (run_bread s 1) as (h & s1 & E1 & F1 & G1); try done; [right; lia|].
  pose proof G1 as (R1 & M1 & N1 & V1).
  assert (v_busy (view s1) h = Some 1) as B1 by (rewrite V1; cbn; apply fn_lookup_insert).
  destruct (run_brelse s1 h 1) as (s2 & E2 & G2); try done.
  { right. rewrite V1. cbn. apply Hm. }
  exists s2. split.
  - unfold readsb. step E1. step (run_data s1 h 1 R1 B1). step E2. rewrite V1. cbn. by rewrite Hm.
  - pose proof (goes_trans _ _ _ _ _ G1 G2) as (R & Ms & N & V). split_and!; try done. rewrite V, V1.
    unfold close_view, open_view. destruct (view s) as [mm dd bb pp aa tr]. cbn in *. rewrite Hp.
    f_equal; [fn_eq|lia].
Qed.

Lemma initlock_ready s : ready s → let m := set_smp (set_lock L_log free_lock (m_smp (bmach s))) (bmach s) in
  ready (set_bmach m s) ∧ lfree L_log m.
Proof.
  intros (Hi & [(c & Hc & Hb) Hl] & Hbc & Hpt) m. split.
  - unfold ready. rewrite get_set_mach. split_and!; [by apply binv_set_mach| | |].
    + split; [by exists c|done].
    + unfold lfree, m. cbn. by rewrite fn_lookup_insert_ne.
    + unfold lfree, m. cbn. by rewrite fn_lookup_insert_ne.
  - unfold lfree, m. cbn. apply fn_lookup_insert.
Qed.

Lemma linv_empty l : ready (l_buf l) → lfree L_log (bmach (l_buf l)) → l_dev l = ROOTDEV →
  2 ≤ l_start l → 1 ≤ l_size l → l_start l + l_size l ≤ nblocks (l_buf l) →
  length (lh_block l) = LOGSIZE → lh_n l = 0 → (∀ bn, v_pin (view (l_buf l)) bn = false) →
  hdr_n (disk_of l (l_start l)) = 0 → linv l.
Proof.
  intros Hr Hf Hd Hs Hz Hnb Hl Hn Hp Hh. unfold linv, logged. rewrite Hn. cbn [Z.to_nat take].
  split_and!; try done; try lia.
  - apply NoDup_nil_2.
  - intros bn. rewrite Hp. split; [done|]. by intros ?%not_elem_of_nil.
Qed.

(** [initlog] reads the geometry of the log from the super block and
    recovers, and leaves an empty log. *)
Lemma initlog_ok l (d := disk_of l) (sb := sb_dec (d 1)) (st := sb_size sb - sb_nlog sb) :
  ready (l_buf l) → fresh (view (l_buf l)) → length (lh_block l) = LOGSIZE →
  l_outstanding l = 0 → l_committing l = false →
  2 ≤ st → 1 ≤ sb_nlog sb → sb_size sb ≤ nblocks (l_buf l) → disk_ok st (nblocks (l_buf l)) d →
  ∃ l', initlog l = Ok tt l' ∧ linv l' ∧ l_start l' = st ∧ l_size l' = sb_nlog sb ∧ lh_n l' = 0 ∧
    l_outstanding l' = 0 ∧ l_committing l' = false ∧ nblocks (l_buf l') = nblocks (l_buf l) ∧
    msim (set_smp (set_lock L_log free_lock (m_smp (bmach (l_buf l)))) (bmach (l_buf l))) (bmach (l_buf l')) ∧
    view (l_buf l') = write_view_all (recover_writes st d) (view (l_buf l)) ∧
    hdr_n (disk_of l' st) = 0 ∧ ∀ bn, bn < st → disk_of l' bn = committed st d bn.
Proof.
  intros Hr Hf Hl Ho Hc Hst Hnl Hsz Hok. unfold initlog.
  pose proof (nblocks_small _ (proj1 Hr)) as Hsm.
  destruct (initlock_ready (l_buf l) Hr) as [Hr0 Hf0]. cbn zeta in Hr0, Hf0.
  set (m0 := set_smp (set_lock L_log free_lock (m_smp (bmach (l_buf l)))) (bmach (l_buf l))) in *.
  set (s0 := set_bmach m0 (l_buf l)) in *.
  assert ((smpM (initlock L_log)) (bmach (l_buf l)) = Ok tt m0) as E0 by done.
  change (BSIZE <=? 4 + 4 * LOGSIZE)%nat with false. cbn iota. step (machM_ok _ l _ _ E0).
  assert (view s0 = view (l_buf l)) as V0 by apply view_set_mach.
  assert (nblocks s0 = nblocks (l_buf l)) as N0 by apply nblocks_set_mach.
  destruct (readsb_ok s0) as (s1 & E1 & G1); rewrite ?V0, ?N0; try done; [lia|].
  erewrite bind_ok; [|apply lift_ok; exact E1]. rewrite V0. fold (disk_of l). fold d. fold sb.
  erewrite bind_ok; [|reflexivity]. cbn [l_buf l_outstanding l_committing lh_n lh_block set_buf].
  pose proof G1 as (R1 & M1 & N1 & V1). rewrite V0 in V1.
  assert (i32 (sb_size sb - sb_nlog sb) = st) as -> by (apply swrap_small; fold st; lia).
  assert (i32 (sb_nlog sb) = sb_nlog sb) as -> by (apply swrap_small; lia).
  set (l1 := mkLog s1 st (sb_nlog sb) (l_outstanding l) (l_committing l) ROOTDEV (lh_n l) (lh_block l)).
  destruct (recover_run l1) as (s2 & b' & E2 & Hb' & (R2 & M2 & N2 & V2)); cbn [l1 l_buf l_dev lh_block l_start]; try done.
  { by rewrite V1. } { by rewrite N1, N0, V1. }
  rewrite E2. eexists. split; [done|]. cbn [l1 l_buf l_start] in *. rewrite V1 in V2.
  assert (length (d st) = BSIZE) as Hlen.
  { unfold d, disk_of. destruct Hf as (_ & _ & <- & _). apply mem_length, Hr. }
  pose proof Hok as (Hz & Ht & _). fold (disk_of l) in V2. fold d in V2.
  assert (hdr_n (v_disk (view s2) st) = 0) as Hh.
  { rewrite V2. cbn. fold (disk_of l). fold d. by apply recover_empty. }
  assert (msim m0 (bmach s2)) as Hms.
  { rewrite <- M2, <- M1. unfold s0. by rewrite get_set_mach. }
  split.
  { apply linv_empty; cbn [l_buf l_start l_size l_dev lh_n lh_block set_lh set_buf l1]; try done; try lia.
    - unfold lfree. destruct Hms as [<- _]. exact Hf0.
    - rewrite V2. cbn. apply Hf. }
  unfold disk_of. cbn. split_and!; try done; [congruence|].
  intros bn Hbn. rewrite V2. cbn. fold (disk_of l). fold d. by apply recover_disk.
Qed.

(** C1: a transaction is atomic.  The last [end_op] of a transaction commits
    it, and if the machine crashes after any number [k] of the disk writes of
    the commit and reboots, [recover_from_log] runs to its end and leaves
    every block below the log with its contents before the transaction, or
    every one with its contents after it; when all writes were done, with its
    contents after it. *)
Theorem end_op_crash_atomic l : linv l → idle l → l_committing l = false → l_outstanding l = 1 →
  ∃ l', end_op l = Ok tt l' ∧ disk_of l' = replay (txn_writes l) (disk_of l) ∧
    v_trace (view (l_buf l')) = v_trace (view (l_buf l)) ++ txn_writes l ∧
    ∀ k r, rebooted l r (replay (take k (txn_writes l)) (disk_of l)) →
    ∃ r', recover_from_log r = Ok tt r' ∧
      ((∀ bn, 0 ≤ bn < l_start l → disk_of r' bn = disk_of l bn) ∨
       (∀ bn, 0 ≤ bn < l_start l →
          disk_of r' bn = txn_disk (logged l) (v_mem (view (l_buf l))) (disk_of l) bn)) ∧
      ((length (txn_writes l) ≤ k)%nat → ∀ bn, 0 ≤ bn < l_start l →
          disk_of r' bn = txn_disk (logged l) (v_mem (view (l_buf l))) (disk_of l) bn).
Proof.
  intros Hi Hq Hc Ho. destruct (end_op_last l Hi Hq Hc Ho) as (s' & E & (_ & _ & _ & V)).
  eexists. split; [exact E|]. unfold disk_of at 1. cbn [l_buf set_out set_lh set_buf]. rewrite V.
  split_and!; try done. intros k r Hreb. destruct (txn_crash_ok l k Hi) as [Hok Hcom].
  destruct (recover_rebooted l r _ Hreb Hok) as (r' & Er & _ & _ & _ & Hd).
  exists r'. split; [done|]. split.
  - destruct (decide (k ≤ length (logged l))%nat) as [Hk|Hk].
    + left. intros bn Hb. rewrite Hd, Hcom by lia. done.
    + right. intros bn Hb. rewrite Hd, Hcom by lia. done.
  - intros Hk bn Hb. rewrite Hd, Hcom by lia. case_decide as Hk'; [|done].
    unfold txn_disk, txn_writes in *. case_decide as Hnil.
    + rewrite Hnil. by rewrite decide_False by apply not_elem_of_nil.
    + exfalso. unfold commit_writes, log_writes, home_writes in Hk.
      rewrite length_app in Hk. cbn in Hk. rewrite length_app, !length_fmap in Hk. cbn in Hk. lia.
Qed.

End thms.
