(* ===== verification/Txn.v ===== *)
(** * The transaction interface

    fs.c reads blocks with [bread], changes the data of a block it holds and
    declares the change with [log_write] between [begin_op] and [end_op].
    [TxnOps] and [TxnLaws] are this interface; the instance at the end is
    log.c over any buffer cache.  [tmod] summarises a piece of file-system
    code: how it changed the contents of the blocks and how many blocks it
    logged. *)

From S2P Require Import Prelude Bytes Spinlock Sched Bio BioSpec BufLayer Ondisk Log LogSpec LogCrash LogOps.
From Stdlib Require Import FunctionalExtensionality.

Class TxnOps (T : Type) := {
  tmach : T → mach;
  set_tmach : mach → T → T;
  t_bread : Z → Z → M T nat;
  t_brelse : nat → M T unit;
  t_data : nat → M T block;
  t_set : nat → block → M T unit;
  t_log_write : nat → M T unit;
  t_begin_op : M T unit;
  t_end_op : M T unit
}.

(** The machine part of a state in which the code may run. *)
Definition tmok (m : mach) : Prop :=
  mok m ∧ lfree L_log m ∧ lfree L_bcache m ∧ lfree L_ptable m.

#[export] Instance tmok_proper : Proper (msim ==> iff) tmok.
Proof. intros m m' Hm. unfold tmok. by rewrite Hm. Qed.

Class TxnLaws (T : Type) `{TxnOps T} := {
  tview : T → bview;
  tinv : T → Prop;
  tlimit : T → Z;           (* blocks below it belong to the file system *)
  troom : T → nat;          (* calls of log_write that cannot panic *)
  ttxn : T → Prop;          (* inside begin_op/end_op *)

  tget_set t m : tmach (set_tmach m t) = m;
  tset_set t m m' : set_tmach m (set_tmach m' t) = set_tmach m t;
  tset_get t : set_tmach (tmach t) t = t;
  tview_set t m : tview (set_tmach m t) = tview t;
  tinv_set t m : tinv t → tinv (set_tmach m t);
  tlimit_set t m : tlimit (set_tmach m t) = tlimit t;
  troom_set t m : troom (set_tmach m t) = troom t;
  ttxn_set t m : ttxn (set_tmach m t) ↔ ttxn t;

  tlimit_small t : tinv t → tlimit t < 2 ^ 31;
  tmem_length t bn : tinv t → length (v_mem (tview t) bn) = BSIZE;
  tidle_clean t bn : tinv t → unheld (tview t) bn → clean (tview t) bn;

  law_tbread t bn : tinv t → tmok (tmach t) → 0 ≤ bn < tlimit t →
    unheld (tview t) bn → room (tview t) bn →
    ∃ h t', t_bread ROOTDEV bn t = Ok h t' ∧ v_busy (tview t) h = None ∧ tinv t' ∧
      msim (tmach t) (tmach t') ∧ tlimit t' = tlimit t ∧ troom t' = troom t ∧ (ttxn t' ↔ ttxn t) ∧
      tview t' = open_view h bn (tview t);
  law_tbrelse t h bn : tinv t → tmok (tmach t) → v_busy (tview t) h = Some bn → clean (tview t) bn →
    ∃ t', t_brelse h t = Ok tt t' ∧ tinv t' ∧
      msim (tmach t) (tmach t') ∧ tlimit t' = tlimit t ∧ troom t' = troom t ∧ (ttxn t' ↔ ttxn t) ∧
      tview t' = close_view h bn (tview t);
  law_tdata t h bn : tinv t → v_busy (tview t) h = Some bn → t_data h t = Ok (v_mem (tview t) bn) t;
  law_tset t h bn d : tinv t → v_busy (tview t) h = Some bn → length d = BSIZE →
    ∃ t', t_set h d t = Ok tt t' ∧ tinv t' ∧
      msim (tmach t) (tmach t') ∧ tlimit t' = tlimit t ∧ troom t' = troom t ∧ (ttxn t' ↔ ttxn t) ∧
      tview t' = set_view bn d (tview t);
  law_tlog_write t h bn : tinv t → tmok (tmach t) → ttxn t → v_busy (tview t) h = Some bn →
    bn < tlimit t → (0 < troom t)%nat →
    ∃ t', t_log_write h t = Ok tt t' ∧ tinv t' ∧
      msim (tmach t) (tmach t') ∧ tlimit t' = tlimit t ∧ (troom t ≤ troom t' + 1)%nat ∧
      (ttxn t' ↔ ttxn t) ∧ tview t' = pin_view bn (tview t)
}.

(** ** log.c implements the interface *)

Section instance.
Context {S : Type} `{BufLaws S}.
Implicit Types (l : log S).

#[export] Instance log_ops : TxnOps (log S) := {|
  tmach := λ l, bmach (l_buf l);
  set_tmach := λ m l, set_buf (set_bmach m (l_buf l)) l;
  t_bread := λ dev bn, bufM (op_bread dev bn);
  t_brelse := λ h, bufM (op_brelse h);
  t_data := λ h, bufM (op_data h);
  t_set := λ h d, bufM (op_set h d);
  t_log_write := log_write;
  t_begin_op := begin_op;
  t_end_op := end_op
|}.

(** The part of [linv] that does not speak of the machine. *)
Definition ldata l : Prop :=
  binvS (l_buf l) ∧ l_dev l = ROOTDEV ∧
  (2 ≤ l_start l ∧ 1 ≤ l_size l ∧ l_start l + l_size l ≤ nblocks (l_buf l)) ∧
  length (lh_block l) = LOGSIZE ∧
  (0 ≤ lh_n l ≤ Z.of_nat LOGSIZE ∧ lh_n l ≤ l_size l - 1) ∧
  NoDup (logged l) ∧ Forall (λ x, 0 ≤ x < l_start l) (logged l) ∧
  (∀ bn, v_pin (view (l_buf l)) bn = true ↔ bn ∈ logged l) ∧
  hdr_n (v_disk (view (l_buf l)) (l_start l)) = 0.

Lemma linv_split l : linv l ↔ ldata l ∧ tmok (bmach (l_buf l)).
Proof. unfold linv, ldata, ready, tmok. tauto. Qed.

Lemma ldata_buf l s' : ldata l → binvS s' → nblocks s' = nblocks (l_buf l) →
  v_pin (view s') = v_pin (view (l_buf l)) → v_disk (view s') = v_disk (view (l_buf l)) →
  ldata (set_buf s' l).
Proof.
  intros Hl Hi Hn Hp Hd. unfold ldata. cbn [l_buf set_buf l_dev l_start l_size lh_block lh_n].
  rewrite Hn, Hp, Hd. split; [done|]. apply Hl.
Qed.

Lemma ready_intro l : ldata l → tmok (bmach (l_buf l)) → ready (l_buf l).
Proof. intros (Hb & _) (? & ? & ? & ?). by split_and!. Qed.

#[export] Program Instance log_laws : TxnLaws (log S) := {|
  tview := λ l, view (l_buf l);
  tinv := ldata;
  tlimit := l_start;
  troom := log_room;
  ttxn := λ l, 1 ≤ l_outstanding l
|}.
Next Obligation. intros. apply get_set_mach. Qed.
Next Obligation. intros. cbn. unfold set_buf. cbn. by rewrite set_set_mach. Qed.
Next Obligation. intros []. cbn. unfold set_buf. cbn. by rewrite set_get_mach. Qed.
Next Obligation. intros. apply view_set_mach. Qed.
Next Obligation.
  intros t m Hl. apply ldata_buf; rewrite ?view_set_mach; try done.
  - apply binv_set_mach, Hl.
  - apply nblocks_set_mach.
Qed.
Next Obligation. done. Qed.
Next Obligation. done. Qed.
Next Obligation. done. Qed.
Next Obligation. intros t (Hb & _ & Hg & _). pose proof (nblocks_small _ Hb). lia. Qed.
Next Obligation. intros t bn (Hb & _). by apply mem_length. Qed.
Next Obligation. intros t bn (Hb & _). by apply idle_clean. Qed.
Next Obligation.
  intros t bn Hl Hm Hbn Hu Hroom. pose proof Hl as (Hb & _ & Hg & _).
  destruct (run_bread (l_buf t) bn) as (h & s' & E & Hf & (R & Ms & N & V)); try done.
  { by apply ready_intro. } { lia. }
  exists h, (set_buf s' t). split_and!; try done; [by apply lift_ok|].
  apply ldata_buf; try done; [apply R|by rewrite V..].
Qed.
Next Obligation.
  intros t h bn Hl Hm Hbusy Hc. pose proof Hl as (Hb & _ & Hg & _).
  destruct (run_brelse (l_buf t) h bn) as (s' & E & (R & Ms & N & V)); try done.
  { by apply ready_intro. }
  exists (set_buf s' t). split_and!; try done; [by apply lift_ok|].
  apply ldata_buf; try done; [apply R|by rewrite V..].
Qed.
Next Obligation.
  intros t h bn Hl Hbusy. cbn. erewrite lift_ok; [|apply law_data; [apply Hl|done]]. by destruct t.
Qed.
Next Obligation.
  intros t h bn d Hl Hbusy Hd. destruct (law_set (l_buf t) h bn d) as (s' & E & Hi & Hm & N & V); try done.
  { apply Hl. }
  exists (set_buf s' t). split_and!; try done; [by apply lift_ok| |cbn; by rewrite Hm].
  apply ldata_buf; try done; by rewrite V.
Qed.
Next Obligation.
  intros t h bn Hl Hm Ht Hbusy Hlim Hroom.
  destruct (log_write_ok t h bn) as (s' & E & Hi & (R & Ms & N & V)); try done.
  { by apply linv_split. }
  exists (log_write_state t bn s'). split_and!; try done.
  - by apply linv_split.
  - unfold log_room, log_write_state. cbn. case_decide; lia.
Qed.
End instance.

(** ** Using the interface *)

Section client.
Context {T : Type} `{TxnLaws T}.
Implicit Types (t : T) (m : Z → block).

Definition tready t : Prop := tinv t ∧ tmok (tmach t).

(** [t'] is a ready state with view [v], after at most [r] calls of
    [log_write] on new blocks. *)
Definition tgoes t t' (v : bview) (r : nat) : Prop :=
  tready t' ∧ msim (tmach t) (tmach t') ∧ tlimit t' = tlimit t ∧ (ttxn t' ↔ ttxn t) ∧
  tview t' = v ∧ (troom t ≤ troom t' + r)%nat.

Lemma tgoes_intro t t' v r : tready t → tinv t' → msim (tmach t) (tmach t') →
  tlimit t' = tlimit t → (ttxn t' ↔ ttxn t) → tview t' = v → (troom t ≤ troom t' + r)%nat →
  tgoes t t' v r.
Proof.
  intros [_ Hm] Hi Hs Hl Ht Hv Hr. split_and!; try done. split; [done|]. by rewrite <- Hs.
Qed.

Lemma run_tbread t bn : tready t → 0 ≤ bn < tlimit t → unheld (tview t) bn → room (tview t) bn →
  ∃ h t', t_bread ROOTDEV bn t = Ok h t' ∧ v_busy (tview t) h = None ∧
    tgoes t t' (open_view h bn (tview t)) 0.
Proof.
  intros [Hi Hm] Hb Hu Hr.
  destruct (law_tbread t bn) as (h & t' & E & Hf & Hi' & Hs & Hl & Hro & Ht & Hv); try done.
  exists h, t'. split_and!; try done. apply tgoes_intro; try done. lia.
Qed.

Lemma run_tbrelse t h bn : tready t → v_busy (tview t) h = Some bn → clean (tview t) bn →
  ∃ t', t_brelse h t = Ok tt t' ∧ tgoes t t' (close_view h bn (tview t)) 0.
Proof.
  intros [Hi Hm] Hb Hc.
  destruct (law_tbrelse t h bn) as (t' & E & Hi' & Hs & Hl & Hro & Ht & Hv); try done.
  exists t'. split; try done. apply tgoes_intro; try done. lia.
Qed.

Lemma run_tset t h bn d : tready t → v_busy (tview t) h = Some bn → length d = BSIZE →
  ∃ t', t_set h d t = Ok tt t' ∧ tgoes t t' (set_view bn d (tview t)) 0.
Proof.
  intros [Hi Hm] Hb Hd.
  destruct (law_tset t h bn d) as (t' & E & Hi' & Hs & Hl & Hro & Ht & Hv); try done.
  exists t'. split; try done. apply tgoes_intro; try done. lia.
Qed.

Lemma run_tlog_write t h bn : tready t → ttxn t → v_busy (tview t) h = Some bn → bn < tlimit t →
  (0 < troom t)%nat → ∃ t', t_log_write h t = Ok tt t' ∧ tgoes t t' (pin_view bn (tview t)) 1.
Proof.
  intros [Hi Hm] Ht Hb Hd Hr.
  destruct (law_tlog_write t h bn) as (t' & E & Hi' & Hs & Hl & Hro & Ht' & Hv); try done.
  exists t'. split; try done. by apply tgoes_intro.
Qed.

Lemma run_tdata t h bn : tready t → v_busy (tview t) h = Some bn →
  t_data h t = Ok (v_mem (tview t) bn) t.
Proof. intros [Hi _] Hb. by apply law_tdata. Qed.

(** The code from [t] to [t'] released what it held; blocks now read as [m],
    and at most [k] more blocks are in the transaction. *)
Definition tmod t t' m (k : nat) : Prop :=
  tready t' ∧ msim (tmach t) (tmach t') ∧ tlimit t' = tlimit t ∧ (ttxn t' ↔ ttxn t) ∧
  v_mem (tview t') = m ∧ v_disk (tview t') = v_disk (tview t) ∧
  v_trace (tview t') = v_trace (tview t) ∧ v_busy (tview t') = v_busy (tview t) ∧
  (∀ bn, v_pin (tview t) bn = true → v_pin (tview t') bn = true) ∧
  (troom t ≤ troom t' + k)%nat ∧ (v_avail (tview t) ≤ v_avail (tview t') + k)%nat.

(** There is room to log [k] more blocks, with two buffers to spare. *)
Definition budget t (k : nat) : Prop := (k < troom t)%nat ∧ (k + 2 ≤ v_avail (tview t))%nat.

Lemma tmod_refl t : tready t → tmod t t (v_mem (tview t)) 0.
Proof. intros. split_and!; try done; lia. Qed.

Lemma tmod_trans t t1 t2 m1 m2 k1 k2 : tmod t t1 m1 k1 → tmod t1 t2 m2 k2 →
  tmod t t2 m2 (k1 + k2).
Proof.
  intros (R1 & S1 & L1 & X1 & M1 & D1 & W1 & B1 & P1 & Q1 & A1)
         (R2 & S2 & L2 & X2 & M2 & D2 & W2 & B2 & P2 & Q2 & A2).
  split_and!; try done; try congruence; try lia.
  - by etrans.
  - by rewrite X2.
  - auto.
Qed.

Lemma tmod_weaken t t' m k k' : tmod t t' m k → (k ≤ k')%nat → tmod t t' m k'.
Proof. intros (? & ? & ? & ? & ? & ? & ? & ? & ? & ? & ?) Hk. split_and!; try done; lia. Qed.

Lemma budget_weaken t k k' : budget t k → (k' ≤ k)%nat → budget t k'.
Proof. unfold budget. lia. Qed.

Lemma budget_tmod t t' m k j : budget t (k + j) → tmod t t' m k → budget t' j.
Proof. unfold budget. intros Hb (_ & _ & _ & _ & _ & _ & _ & _ & _ & ? & ?). lia. Qed.

(** Looking at a block and giving it back changes nothing. *)
Lemma close_open_view v h bn : v_busy v h = None → room v bn →
  close_view h bn (open_view h bn v) = v.
Proof.
  intros Hh Hr. unfold close_view, open_view, room in *. destruct v as [mm dd bb pp aa tt']. cbn in *.
  f_equal; [fn_eq|]. destruct (pp bn); [done|]. destruct Hr; [done|]. lia.
Qed.

Lemma peek_block t bn : tready t → 0 ≤ bn < tlimit t → unheld (tview t) bn → room (tview t) bn →
  ∃ h t1 t2, t_bread ROOTDEV bn t = Ok h t1 ∧ t_data h t1 = Ok (v_mem (tview t) bn) t1 ∧
    t_brelse h t1 = Ok tt t2 ∧ tview t2 = tview t ∧ tmod t t2 (v_mem (tview t)) 0 ∧
    tview t1 = open_view h bn (tview t).
Proof.
  intros Hr Hb Hu Hro.
  destruct (run_tbread t bn) as (h & t1 & E1 & F1 & (R1 & S1 & L1 & X1 & V1 & Q1)); try done.
  assert (v_busy (tview t1) h = Some bn) as B1 by (rewrite V1; cbn; apply fn_lookup_insert).
  destruct (run_tbrelse t1 h bn) as (t2 & E2 & (R2 & S2 & L2 & X2 & V2 & Q2)); try done.
  { destruct (tidle_clean t bn (proj1 Hr) Hu); [left|right]; by rewrite V1. }
  rewrite V1, close_open_view in V2 by done.
  exists h, t1, t2. split_and!; try done.
  - rewrite (run_tdata t1 h bn R1 B1). by rewrite V1.
  - split_and!; try done; rewrite ?V2; try done; try lia; [by etrans|by rewrite X2].
Qed.

(** Replacing the contents of a held block inside a transaction. *)
Definition update_view (h : nat) (bn : Z) (d : block) (v : bview) : bview :=
  close_view h bn (pin_view bn (set_view bn d v)).

Lemma update_block t t1 h bn d : tready t1 → ttxn t1 → tview t1 = open_view h bn (tview t) →
  v_busy (tview t) h = None → msim (tmach t) (tmach t1) → tlimit t1 = tlimit t →
  (ttxn t1 ↔ ttxn t) → (troom t ≤ troom t1)%nat →
  bn < tlimit t → (0 < troom t1)%nat → (0 < v_avail (tview t))%nat → length d = BSIZE →
  ∃ t2 t3 t4, t_set h d t1 = Ok tt t2 ∧ t_log_write h t2 = Ok tt t3 ∧ t_brelse h t3 = Ok tt t4 ∧
    tmod t t4 (<[bn := d]> (v_mem (tview t))) 1 ∧ v_pin (tview t4) bn = true.
Proof.
  intros R1 X1 V1 F1 S1 L1 Xi Qi Hlim Hro Hav Hd.
  assert (v_busy (tview t1) h = Some bn) as B1 by (rewrite V1; cbn; apply fn_lookup_insert).
  destruct (run_tset t1 h bn d) as (t2 & E2 & (R2 & S2 & L2 & X2 & V2 & Q2)); try done.
  destruct (run_tlog_write t2 h bn) as (t3 & E3 & (R3 & S3 & L3 & X3 & V3 & Q3)); try done.
  { by apply X2. } { by rewrite V2. } { lia. } { lia. }
  destruct (run_tbrelse t3 h bn) as (t4 & E4 & (R4 & S4 & L4 & X4 & V4 & Q4)); try done.
  { by rewrite V3, V2. } { left. rewrite V3. cbn. apply fn_lookup_insert. }
  rewrite V3, V2, V1 in V4.
  exists t2, t3, t4. split_and!; try done.
  - split_and!; try done; rewrite ?V4; cbn; try done.
    + by rewrite S1, S2, S3.
    + congruence.
    + by rewrite X4, X3, X2.
    + fn_eq.
    + intros x Hx. unfold insert, fn_insert. by case_decide.
    + lia.
    + rewrite fn_insert_same. destruct (v_pin (tview t) bn); lia.
  - rewrite V4. cbn. apply fn_insert_same.
Qed.
End client.

#[export] Hint Resolve tmod_refl : xv6.
