(* ===== verification/CString.v ===== *)
(** * Memory and string routines (kernel/string.c, ulib/ulib.c)

    Memory is a list of bytes and a pointer an offset into it.  A string
    argument is the list of bytes that starts at the pointer; its contents
    end at the first zero byte, and reading the byte just past the list gives
    the terminator. *)

From S2P Require Import Prelude Bytes.

Definition peek (m : list Z) (i : nat) : Z := nth i m 0.
Definition poke (m : list Z) (i : nat) (x : Z) : list Z := <[i := x]> m.

(** ** kernel/string.c *)

(** [rep stosb] and [rep stosl]. *)
Fixpoint stosb (d : nat) (c : Z) (cnt : nat) (m : list Z) : list Z :=
  match cnt with
  | O => m
  | S k => stosb (d + 1) c k (poke m d (u8 c))
  end.
Fixpoint stosl (d : nat) (w : Z) (cnt : nat) (m : list Z) : list Z :=
  match cnt with
  | O => m
  | S k => stosl (d + 4) w k (put32 d w m)
  end.

Definition memset (d : nat) (c : Z) (n : nat) (m : list Z) : list Z :=
  if (d mod 4 =? 0)%nat && (n mod 4 =? 0)%nat then
    let c := Z.land c 255 in
    stosl d (Z.lor (Z.lor (Z.lor (Z.shiftl c 24) (Z.shiftl c 16)) (Z.shiftl c 8)) c) (n / 4) m
  else stosb d c n m.

Fixpoint memcmp (v1 v2 : list Z) (n : nat) : Z :=
  match n with
  | O => 0
  | S k => if negb (peek v1 0 =? peek v2 0) then peek v1 0 - peek v2 0
           else memcmp (tail v1) (tail v2) k
  end.

(** [while(n-- > 0) *d++ = *s++] and [while(n-- > 0) *--d = *--s]. *)
Fixpoint copy_up (d s n : nat) (m : list Z) : list Z :=
  match n with
  | O => m
  | S k => copy_up (d + 1) (s + 1) k (poke m d (peek m s))
  end.
Fixpoint copy_down (d s n : nat) (m : list Z) : list Z :=
  match n with
  | O => m
  | S k => copy_down d s k (poke m (d + k) (peek m (s + k)))
  end.

Definition memmove (d s n : nat) (m : list Z) : list Z :=
  if (s <? d)%nat && (d <? s + n)%nat then copy_down d s n m else copy_up d s n m.

Definition memcpy (d s n : nat) (m : list Z) : list Z := memmove d s n m.

Fixpoint strncmp (p q : list Z) (n : nat) : Z :=
  match n with
  | O => 0
  | S k => if negb (peek p 0 =? 0) && (peek p 0 =? peek q 0)
           then strncmp (tail p) (tail q) k
           else peek p 0 - peek q 0
  end.

(** The [n] bytes written at [s]. *)
Fixpoint strncpy (t : list Z) (n : nat) : list Z :=
  match n with
  | O => []
  | S k => if peek t 0 =? 0 then replicate (S k) 0 else peek t 0 :: strncpy (tail t) k
  end.

(** The bytes written at [s] by [safestrcpy(s, t, n)]. *)
Fixpoint safestrcpy_loop (t : list Z) (n : nat) : list Z :=
  match n with
  | O => [0]
  | S k => if peek t 0 =? 0 then [0] ++ [0] else peek t 0 :: safestrcpy_loop (tail t) k
  end.
Definition safestrcpy (t : list Z) (n : Z) : list Z :=
  if n <=? 0 then [] else safestrcpy_loop t (Z.to_nat (n - 1)).

Fixpoint strlen (s : list Z) : nat :=
  match s with
  | [] => 0
  | c :: s' => if c =? 0 then 0 else S (strlen s')
  end.

(** ** ulib/ulib.c *)

Fixpoint strcmp (p q : list Z) : Z :=
  match p with
  | [] => 0 - peek q 0
  | a :: p' => if negb (a =? 0) && (a =? peek q 0) then strcmp p' (tail q) else a - peek q 0
  end.

Fixpoint strcpy (t : list Z) : list Z :=
  match t with
  | [] => [0]
  | c :: t' => if c =? 0 then [0] else c :: strcpy t'
  end.

(** The offset of the first [c], if the string has one. *)
Fixpoint strchr (s : list Z) (c : Z) : option nat :=
  match s with
  | [] => None
  | x :: s' => if x =? 0 then None else if x =? c then Some O
               else match strchr s' c with Some i => Some (S i) | None => None end
  end.

Definition digit (c : Z) : bool := (48 <=? c) && (c <=? 57).

Fixpoint atoi_loop (s : list Z) (n : Z) : Z :=
  match s with
  | [] => n
  | c :: s' => if digit c then atoi_loop s' (i32 (n * 10 + c - 48)) else n
  end.
Definition atoi (s : list Z) : Z := atoi_loop s 0.

Definition umemset (d : nat) (c : Z) (n : nat) (m : list Z) : list Z := stosb d c n m.

(** The user library copies upwards only. *)
Definition umemmove (d s n : nat) (m : list Z) : list Z := copy_up d s n m.

(** [gets]: bytes come from [read(0, &c, 1)], here a stream that ends at end
    of file or error.  The result is the text stored, without the final NUL,
    and the rest of the stream. *)
Fixpoint gets_loop (room : nat) (inp : list Z) : list Z * list Z :=
  match room with
  | O => ([], inp)
  | S k => match inp with
           | [] => ([], [])
           | c :: inp' => if (c =? 10) || (c =? 13) then ([c], inp')
                          else let '(l, r) := gets_loop k inp' in (c :: l, r)
           end
  end.
Definition gets (max : Z) (inp : list Z) : list Z * list Z := gets_loop (Z.to_nat (max - 1)) inp.

(** ** Contents of a string *)

Fixpoint cstr (s : list Z) : list Z :=
  match s with
  | [] => []
  | c :: s' => if c =? 0 then [] else c :: cstr s'
  end.

(** ** Copying *)

Lemma peek_lookup m i x : m !! i = Some x → peek m i = x.
Proof. intros H. unfold peek. by rewrite nth_lookup, H. Qed.

Lemma splice_nil {A} (d : nat) (m : list A) : splice d [] m = m.
Proof. unfold splice. cbn [length app]. by rewrite Nat.add_0_r, take_drop. Qed.

Lemma splice_snoc_first {A} (d : nat) (x : A) l m : (d + 1 + length l ≤ length m)%nat →
  splice (d + 1) l (<[d := x]> m) = splice d (x :: l) m.
Proof.
  intros Hl. apply list_eq. intros i. rewrite !lookup_splice by (rewrite ?length_insert; cbn; lia).
  destruct (decide (i = d)) as [->|Hne].
  - rewrite bool_decide_false by lia. rewrite bool_decide_true by (cbn; lia).
    rewrite list_lookup_insert_eq by lia. by rewrite Nat.sub_diag.
  - rewrite list_lookup_insert_ne by done. cbn [length].
    destruct (decide (d + 1 ≤ i < d + 1 + length l)%nat).
    + rewrite !bool_decide_true by lia. replace (i - d)%nat with (S (i - (d + 1))) by lia. done.
    + by rewrite !bool_decide_false by lia.
Qed.

Lemma splice_snoc_last {A} (d : nat) (x : A) l m : (d + length l + 1 ≤ length m)%nat →
  splice d l (<[(d + length l)%nat := x]> m) = splice d (l ++ [x]) m.
Proof.
  intros Hl. apply list_eq. intros i.
  rewrite !lookup_splice by (rewrite ?length_insert, ?length_app; cbn; lia). rewrite length_app. cbn [length].
  destruct (decide (i = d + length l)%nat) as [->|Hne].
  - rewrite bool_decide_false by lia. rewrite bool_decide_true by lia.
    rewrite list_lookup_insert_eq by lia. rewrite lookup_app_r by lia.
    by replace (d + length l - d - length l)%nat with 0%nat by lia.
  - rewrite list_lookup_insert_ne by done.
    destruct (decide (d ≤ i < d + length l)%nat).
    + rewrite !bool_decide_true by lia. by rewrite lookup_app_l by lia.
    + by rewrite !bool_decide_false by lia.
Qed.

Lemma slice_S {A} (s n : nat) (m : list A) x : m !! s = Some x →
  slice s (S n) m = x :: slice (s + 1) n m.
Proof.
  intros H. unfold slice. rewrite (drop_S _ _ _ H), Nat.add_1_r. done.
Qed.

Lemma slice_S_r {A} (s n : nat) (m : list A) x : m !! (s + n)%nat = Some x →
  slice s (S n) m = slice s n m ++ [x].
Proof. intros H. unfold slice. apply take_S_r. by rewrite lookup_drop. Qed.

Lemma slice_insert_out {A} (s n i : nat) (m : list A) x : (i < s ∨ s + n ≤ i)%nat →
  slice s n (<[i := x]> m) = slice s n m.
Proof.
  intros Hi. apply list_eq. intros j. rewrite !lookup_slice. case_bool_decide; [|done].
  apply list_lookup_insert_ne. lia.
Qed.

(** Copying upwards is right unless the destination starts inside the source. *)
Lemma copy_up_ok d s n m : (d + n ≤ length m)%nat → (s + n ≤ length m)%nat →
  (d ≤ s ∨ s + n ≤ d)%nat → copy_up d s n m = splice d (slice s n m) m.
Proof.
  revert d s m. induction n as [|n IH]; intros d s m Hd Hs Ho; cbn [copy_up].
  - symmetry. apply splice_nil.
  - destruct (lookup_lt_is_Some_2 m s) as [x Hx]; [lia|]. rewrite (peek_lookup _ _ _ Hx). unfold poke.
    rewrite IH by (rewrite ?length_insert; lia). rewrite (slice_S s n m x Hx).
    assert (slice (s + 1) n (<[d:=x]> m) = slice (s + 1) n m) as -> by (apply slice_insert_out; lia).
    apply splice_snoc_first. rewrite slice_length; lia.
Qed.

(** Copying downwards is right when the destination is above the source. *)
Lemma copy_down_ok d s n m : (d + n ≤ length m)%nat → (s + n ≤ length m)%nat →
  (s ≤ d)%nat → copy_down d s n m = splice d (slice s n m) m.
Proof.
  revert m. induction n as [|n IH]; intros m Hd Hs Ho; cbn [copy_down].
  - symmetry. apply splice_nil.
  - destruct (lookup_lt_is_Some_2 m (s + n)%nat) as [x Hx]; [lia|].
    rewrite (peek_lookup _ _ _ Hx). unfold poke. rewrite IH by (rewrite ?length_insert; lia).
    rewrite (slice_S_r s n m x Hx).
    assert (slice s n (<[(d + n)%nat:=x]> m) = slice s n m) as -> by (apply slice_insert_out; lia).
    rewrite <- (splice_snoc_last d x (slice s n m) m); rewrite slice_length; try lia. done.
Qed.

Lemma memmove_ok d s n m : (d + n ≤ length m)%nat → (s + n ≤ length m)%nat →
  memmove d s n m = splice d (slice s n m) m.
Proof.
  intros Hd Hs. unfold memmove.
  destruct (Nat.ltb_spec s d), (Nat.ltb_spec d (s + n)); cbn [andb].
  - apply copy_down_ok; lia.
  - apply copy_up_ok; lia.
  - apply copy_up_ok; lia.
  - apply copy_up_ok; lia.
Qed.

(** ** memset *)

Lemma stosb_ok d c n m : (d + n ≤ length m)%nat → stosb d c n m = splice d (replicate n (u8 c)) m.
Proof.
  revert d m. induction n as [|n IH]; intros d m Hd; cbn [stosb].
  - symmetry. apply splice_nil.
  - rewrite IH by (unfold poke; rewrite length_insert; lia). unfold poke. cbn [replicate].
    apply splice_snoc_first. rewrite length_replicate. lia.
Qed.

Definition word_of (c : Z) : Z :=
  Z.lor (Z.lor (Z.lor (Z.shiftl c 24) (Z.shiftl c 16)) (Z.shiftl c 8)) c.

Lemma word_bytes_all :
  forallb (λ c, bool_decide (le_bytes 4 (word_of c) = replicate 4 c)) (seqZ 0 256) = true.
Proof. vm_compute. reflexivity. Qed.

Lemma word_bytes c : 0 ≤ c < 256 → le_bytes 4 (word_of c) = replicate 4 c.
Proof.
  intros Hc. pose proof word_bytes_all as H. rewrite forallb_forall in H.
  specialize (H c). apply bool_decide_eq_true in H; [done|].
  apply list_elem_of_In, elem_of_seqZ. lia.
Qed.

Lemma stosl_ok d w c n m : le_bytes 4 w = replicate 4 c → (d + 4 * n ≤ length m)%nat →
  stosl d w n m = splice d (replicate (4 * n) c) m.
Proof.
  intros Hw. revert d m. induction n as [|n IH]; intros d m Hd; cbn [stosl].
  - symmetry. apply splice_nil.
  - rewrite IH by (rewrite put32_length; lia). unfold put32. rewrite Hw.
    apply list_eq. intros i.
    rewrite !lookup_splice by (rewrite ?splice_length, ?length_replicate; rewrite ?length_replicate; lia).
    rewrite !length_replicate.
    destruct (decide (d ≤ i < d + 4 * S n)%nat).
    + rewrite (bool_decide_true (d ≤ i < d + 4 * S n)%nat) by lia.
      rewrite (lookup_replicate_2 (4 * S n)) by lia. case_bool_decide.
      * by rewrite lookup_replicate_2 by lia.
      * rewrite bool_decide_true by lia. by rewrite lookup_replicate_2 by lia.
    + by rewrite !bool_decide_false by lia.
Qed.

Lemma memset_ok d c n m : (d + n ≤ length m)%nat →
  memset d c n m = splice d (replicate n (u8 c)) m.
Proof.
  intros Hd. unfold memset. destruct (Nat.eqb_spec (d mod 4) 0), (Nat.eqb_spec (n mod 4) 0);
    cbn [andb]; try (by apply stosb_ok).
  assert (Z.land c 255 = u8 c) as Hc by (apply (Z.land_ones c 8); lia).
  rewrite Hc. fold (word_of (u8 c)). pose proof (Nat.div_mod_eq n 4).
  rewrite (stosl_ok _ _ (u8 c)); [|apply word_bytes; by apply wrap_range|lia].
  by replace (4 * (n / 4))%nat with n by lia.
Qed.

(** ** Strings *)

Lemma strncmp_eq p q n : strncmp p q n = 0 ↔ take n (cstr p) = take n (cstr q).
Proof.
  revert p q. induction n as [|n IH]; intros p q; [done|]. cbn [strncmp].
  destruct p as [|a p], q as [|b q]; cbn.
  - done.
  - destruct (Z.eqb_spec b 0); [subst; done|]. split; [lia|done].
  - destruct (Z.eqb_spec a 0); cbn [negb andb].
    + subst. done.
    + split; [lia|done].
  - destruct (Z.eqb_spec a 0) as [Ha|Ha]; cbn [negb andb].
    + subst. destruct (Z.eqb_spec b 0) as [Hb|Hb]; [subst; done|]. split; [lia|done].
    + destruct (Z.eqb_spec a b) as [->|Hab].
      * destruct (Z.eqb_spec b 0); [done|]. cbn [take]. rewrite IH. split; [by intros ->|by intros [=]].
      * destruct (Z.eqb_spec b 0) as [Hb|Hb]; cbn [take]; split; try lia; try done; by intros [=].
Qed.

Lemma strcmp_eq p q : strcmp p q = 0 ↔ cstr p = cstr q.
Proof.
  revert q. induction p as [|a p IH]; intros q; cbn.
  - destruct q as [|b q]; cbn; [done|]. destruct (Z.eqb_spec b 0); [subst; done|]. split; [lia|done].
  - destruct (Z.eqb_spec a 0) as [Ha|Ha]; cbn [negb andb].
    + subst. destruct q as [|b q]; cbn; [done|].
      destruct (Z.eqb_spec b 0); [subst; done|]. split; [lia|done].
    + destruct q as [|b q]; cbn.
      * destruct (Z.eqb_spec a 0); [done|]. split; [lia|done].
      * destruct (Z.eqb_spec a b) as [->|Hab].
        -- destruct (Z.eqb_spec b 0); [done|]. rewrite IH. split; [by intros ->|by intros [=]].
        -- destruct (Z.eqb_spec b 0); split; try lia; try done; by intros [=].
Qed.

Lemma cstr_cons_nz c s : c ≠ 0 → cstr (c :: s) = c :: cstr s.
Proof. intros. cbn. by rewrite (proj2 (Z.eqb_neq _ _)). Qed.

Lemma strncpy_spec t n : strncpy t n = take n (cstr t) ++ replicate (n - length (cstr t)) 0.
Proof.
  revert t. induction n as [|n IH]; intros t; [done|]. cbn [strncpy]. destruct t as [|c t].
  - done.
  - cbn [peek nth tail]. destruct (Z.eqb_spec c 0) as [->|Hc]; [done|].
    rewrite cstr_cons_nz by done. cbn [take length]. by rewrite IH.
Qed.

Lemma strncpy_length t n : length (strncpy t n) = n.
Proof.
  rewrite strncpy_spec, length_app, length_take, length_replicate. lia.
Qed.

Lemma cstr_nz s : Forall (λ c, c ≠ 0) (cstr s).
Proof.
  induction s as [|c s IH]; cbn; [done|]. destruct (Z.eqb_spec c 0); [done|]. by constructor.
Qed.

Lemma cstr_app_nz l r : Forall (λ c, c ≠ 0) l → cstr (l ++ r) = l ++ cstr r.
Proof.
  induction 1 as [|c l Hc _ IH]; [done|]. cbn [app]. rewrite cstr_cons_nz by done. by rewrite IH.
Qed.

Lemma cstr_zeros n : cstr (replicate n 0) = [].
Proof. by destruct n. Qed.

(** A name that went through [strncpy] compares equal to itself. *)
Lemma cstr_strncpy t n : cstr (strncpy t n) = take n (cstr t).
Proof.
  rewrite strncpy_spec, cstr_app_nz, cstr_zeros, app_nil_r; [done|].
  apply Forall_take, cstr_nz.
Qed.

Lemma safestrcpy_spec t k :
  cstr (safestrcpy_loop t k) = take k (cstr t) ∧ (length (safestrcpy_loop t k) ≤ S k)%nat ∧
  safestrcpy_loop t k !! (Nat.min k (length (cstr t))) = Some 0.
Proof.
  revert t. induction k as [|k IH]; intros t; [done|]. cbn [safestrcpy_loop].
  destruct t as [|c t]; cbn [peek nth tail].
  - cbn. split_and!; [done|lia|done].
  - destruct (Z.eqb_spec c 0) as [->|Hc]; [cbn; split_and!; [done|lia|done]|].
    destruct (IH t) as (E1 & E2 & E3). rewrite !cstr_cons_nz by done. cbn [take length].
    split_and!; [by rewrite E1|lia|]. cbn. exact E3.
Qed.

Lemma strlen_spec s : strlen s = length (cstr s).
Proof. induction s as [|c s IH]; cbn; [done|]. destruct (c =? 0); cbn; by rewrite ?IH. Qed.

Lemma strcpy_spec t : strcpy t = cstr t ++ [0].
Proof. induction t as [|c t IH]; cbn; [done|]. destruct (c =? 0); cbn; by rewrite ?IH. Qed.

Lemma strchr_spec s c i : strchr s c = Some i ↔
  cstr s !! i = Some c ∧ (∀ j, (j < i)%nat → cstr s !! j ≠ Some c).
Proof.
  revert i. induction s as [|x s IH]; intros i; cbn; [split; [done|by intros [? _]]|].
  destruct (Z.eqb_spec x 0) as [Hx|Hx]; [split; [done|by intros [? _]]|].
  destruct (Z.eqb_spec x c) as [->|Hxc].
  - split.
    + intros [= <-]. split; [done|lia].
    + intros [H1 H2]. destruct i as [|i]; [done|]. exfalso. by apply (H2 0%nat); [lia|].
  - destruct (strchr s c) as [k|] eqn:E.
    + split.
      * intros [= <-]. destruct (proj1 (IH k) eq_refl) as [E1 E2].
        split; [done|]. intros [|j] Hj; cbn; [congruence|]. apply E2. lia.
      * intros [H1 H2]. destruct i as [|i]; [cbn in H1; congruence|]. do 2 f_equal.
        assert (Some k = Some i) as [=]; [|done]. apply IH. split; [done|].
        intros j Hj. apply (H2 (S j)). lia.
    + split; [done|]. intros [H1 H2]. destruct i as [|i]; [cbn in H1; congruence|].
      assert (None = Some i) as [=]. apply IH. split; [done|]. intros j Hj. apply (H2 (S j)). lia.
Qed.
