(* ===== verification/Fs.v ===== *)
(** * The file system (kernel/fs.c, include/file.h)

    The code is written over the transaction interface.  An inode pointer is
    an index of [icache.inode].  Data that the code copies out of a file is
    returned as a list of bytes, data copied in is a list argument; lengths
    and offsets are unsigned 32-bit.  The device switch [devsw] is a class,
    filled in by the console. *)

From S2P Require Import Prelude Bytes Spinlock Sched Bio BufLayer Ondisk Log Txn CString.

Definition NINODE : nat := 50.
Definition NDEV : Z := 10.
Definition I_BUSY : Z := 1.
Definition I_VALID : Z := 2.

Record inode := mkInode {
  i_dev : Z; i_inum : Z; i_ref : Z; i_flags : Z;
  i_type : Z; i_major : Z; i_minor : Z; i_nlink : Z; i_ownerid : Z; i_groupid : Z;
  i_mode : Z; i_size : Z; i_addrs : list Z
}.

Definition zero_inode : inode := mkInode 0 0 0 0 0 0 0 0 0 0 0 0 (replicate (S NDIRECT) 0).

Definition i_set_ref (x : Z) (i : inode) : inode :=
  mkInode (i_dev i) (i_inum i) x (i_flags i) (i_type i) (i_major i) (i_minor i) (i_nlink i)
    (i_ownerid i) (i_groupid i) (i_mode i) (i_size i) (i_addrs i).
Definition i_set_flags (x : Z) (i : inode) : inode :=
  mkInode (i_dev i) (i_inum i) (i_ref i) x (i_type i) (i_major i) (i_minor i) (i_nlink i)
    (i_ownerid i) (i_groupid i) (i_mode i) (i_size i) (i_addrs i).
Definition i_set_type (x : Z) (i : inode) : inode :=
  mkInode (i_dev i) (i_inum i) (i_ref i) (i_flags i) x (i_major i) (i_minor i) (i_nlink i)
    (i_ownerid i) (i_groupid i) (i_mode i) (i_size i) (i_addrs i).
Definition i_set_nlink (x : Z) (i : inode) : inode :=
  mkInode (i_dev i) (i_inum i) (i_ref i) (i_flags i) (i_type i) (i_major i) (i_minor i) x
    (i_ownerid i) (i_groupid i) (i_mode i) (i_size i) (i_addrs i).
Definition i_set_mode (x : Z) (i : inode) : inode :=
  mkInode (i_dev i) (i_inum i) (i_ref i) (i_flags i) (i_type i) (i_major i) (i_minor i) (i_nlink i)
    (i_ownerid i) (i_groupid i) x (i_size i) (i_addrs i).
Definition i_set_size (x : Z) (i : inode) : inode :=
  mkInode (i_dev i) (i_inum i) (i_ref i) (i_flags i) (i_type i) (i_major i) (i_minor i) (i_nlink i)
    (i_ownerid i) (i_groupid i) (i_mode i) x (i_addrs i).
Definition i_set_addrs (x : list Z) (i : inode) : inode :=
  mkInode (i_dev i) (i_inum i) (i_ref i) (i_flags i) (i_type i) (i_major i) (i_minor i) (i_nlink i)
    (i_ownerid i) (i_groupid i) (i_mode i) (i_size i) x.
(** Fields copied from the disk inode, and into it. *)
Definition i_load (d : dinode) (i : inode) : inode :=
  mkInode (i_dev i) (i_inum i) (i_ref i) (i_flags i) (di_type d) (di_major d) (di_minor d)
    (di_nlink d) (di_ownerid d) (di_groupid d) (di_mode d) (di_size d) (di_addrs d).
Definition i_store (i : inode) (d : dinode) : dinode :=
  mkDinode (i_type i) (i_major i) (i_minor i) (i_nlink i) (di_ownerid d) (di_groupid d)
    (i_mode i) (i_size i) (i_addrs i).

Record fs (T : Type) := mkFs { f_t : T; icache : list inode }.
Arguments mkFs {T}.
Arguments f_t {T}.
Arguments icache {T}.

Definition L_icache : lockid := ("icache", 0).
Definition inode_chan (i : nat) : chan := ("inode", Z.of_nat i).

(** [devsw[major].read] and [.write]; [None] is a null function pointer. *)
Class DevSw (T : Type) := {
  dev_read : Z → option (nat → Z → M (fs T) (Z * list Z));
  dev_write : Z → option (nat → list Z → Z → M (fs T) Z)
}.

(** The bitmap bit [bi] of a block. *)
Definition bit (d : block) (bi : Z) : bool := has (peek d (Z.to_nat (bi / 8))) (2 ^ (bi mod 8)).
Definition bit_on (d : block) (bi : Z) : block :=
  poke d (Z.to_nat (bi / 8)) (setf (peek d (Z.to_nat (bi / 8))) (2 ^ (bi mod 8))).
Definition bit_off (d : block) (bi : Z) : block :=
  poke d (Z.to_nat (bi / 8)) (clrf (peek d (Z.to_nat (bi / 8))) (2 ^ (bi mod 8))).

(** [for(bi = 0; bi < BPB && b + bi < sb.size; bi++)] up to the first clear bit. *)
Fixpoint free_bit (fuel : nat) (bi b size : Z) (d : block) : option Z :=
  match fuel with
  | O => None
  | S k => if b + bi <? size then
             if bit d bi then free_bit k (bi + 1) b size d else Some bi
           else None
  end.

Record stat := mkStat {
  st_dev : Z; st_ino : Z; st_type : Z; st_nlink : Z; st_size : Z; st_ownerid : Z; st_groupid : Z;
  st_mode : Z
}.

Section code.
Context {T : Type} `{TxnOps T} `{DevSw T}.

Definition set_ft (x : T) (s : fs T) : fs T := mkFs x (icache s).
Definition set_icache (x : list inode) (s : fs T) : fs T := mkFs (f_t s) x.

Abbreviation tM := (lift f_t set_ft).
Definition fmachM {A} (m : M mach A) : M (fs T) A := tM (lift tmach set_tmach m).

Definition inode_of (i : nat) : M (fs T) inode := s ← get; need (icache s !! i).
Definition set_inode (i : nat) (f : inode → inode) : M (fs T) unit :=
  s ← get;
  match icache s !! i with
  | Some _ => put (set_icache (alter f i (icache s)) s)
  | None => halt Undef
  end.

(** ** Blocks *)

Definition treadsb (dev : Z) : M T superblock :=
  bp ← t_bread dev 1;
  d ← t_data bp;
  t_brelse bp ;;;
  ret (sb_dec d).

Definition bzero (dev bno : Z) : M T unit :=
  bp ← t_bread dev bno;
  t_set bp (replicate BSIZE 0) ;;;
  t_log_write bp ;;;
  t_brelse bp.

Definition balloc_group (dev : Z) (sb : superblock) (b : Z) : M T (option Z) :=
  bp ← t_bread dev (BBLOCK b (sb_ninodes sb));
  d ← t_data bp;
  match free_bit (Z.to_nat BPB) 0 b (sb_size sb) d with
  | Some bi =>
      t_set bp (bit_on d bi) ;;;
      t_log_write bp ;;;
      t_brelse bp ;;;
      bzero dev (b + bi) ;;;
      ret (Some (b + bi))
  | None => t_brelse bp ;;; ret None
  end.

(** The values [0, BPB, ...] below [sb.size]. *)
Definition groups (size : Z) : list Z :=
  (λ k, BPB * Z.of_nat k) <$> seq 0 (Z.to_nat ((size + BPB - 1) / BPB)).

Definition balloc (dev : Z) : M T Z :=
  sb ← treadsb dev;
  r ← for_each (groups (sb_size sb)) (balloc_group dev sb);
  match r with
  | Some b => ret b
  | None => panic "balloc: out of blocks"
  end.

Definition bfree (dev b : Z) : M T unit :=
  sb ← treadsb dev;
  bp ← t_bread dev (BBLOCK b (sb_ninodes sb));
  d ← t_data bp;
  if negb (bit d (b mod BPB)) then panic "freeing free block" else
  t_set bp (bit_off d (b mod BPB)) ;;;
  t_log_write bp ;;;
  t_brelse bp.

(** ** Inodes *)

Definition iinit : M (fs T) unit := fmachM (smpM (initlock L_icache)).

(** The cached entry, and the first empty slot met before it. *)
Fixpoint iget_scan (dev inum : Z) (l : list inode) (i : nat) (empty : option nat) : (nat + option nat) :=
  match l with
  | [] => inr empty
  | ip :: l' =>
      if (0 <? i_ref ip) && (i_dev ip =? dev) && (i_inum ip =? inum) then inl i
      else iget_scan dev inum l' (S i)
             (if bool_decide (empty = None) && (i_ref ip =? 0) then Some i else empty)
  end.

Definition iget (dev inum : Z) : M (fs T) nat :=
  fmachM (smpM (acquire L_icache)) ;;;
  s ← get;
  match iget_scan dev inum (icache s) 0 None with
  | inl i =>
      set_inode i (λ ip, i_set_ref (i_ref ip + 1) ip) ;;;
      fmachM (smpM (release L_icache)) ;;;
      ret i
  | inr None => panic "iget: no inodes"
  | inr (Some i) =>
      set_inode i (λ ip, mkInode dev inum 1 0 (i_type ip) (i_major ip) (i_minor ip) (i_nlink ip)
                           (i_ownerid ip) (i_groupid ip) (i_mode ip) (i_size ip) (i_addrs ip)) ;;;
      fmachM (smpM (release L_icache)) ;;;
      ret i
  end.

Definition ialloc_try (dev ty inum : Z) : M (fs T) (option nat) :=
  bp ← tM (t_bread dev (IBLOCK inum));
  d ← tM (t_data bp);
  if di_type (get_dinode inum d) =? 0 then
    tM (t_set bp (put_dinode inum (typed_dinode ty) d)) ;;;
    tM (t_log_write bp) ;;;
    tM (t_brelse bp) ;;;
    ip ← iget dev inum;
    ret (Some ip)
  else tM (t_brelse bp) ;;; ret None.

Definition ialloc (dev ty : Z) : M (fs T) nat :=
  sb ← tM (treadsb dev);
  r ← for_each (seqZ 1 (sb_ninodes sb - 1)) (ialloc_try dev ty);
  match r with
  | Some ip => ret ip
  | None => panic "ialloc: no inodes"
  end.

Definition iupdate (i : nat) : M (fs T) unit :=
  ip ← inode_of i;
  bp ← tM (t_bread (i_dev ip) (IBLOCK (i_inum ip)));
  d ← tM (t_data bp);
  tM (t_set bp (put_dinode (i_inum ip) (i_store ip (get_dinode (i_inum ip) d)) d)) ;;;
  tM (t_log_write bp) ;;;
  tM (t_brelse bp).

Definition idup (i : nat) : M (fs T) nat :=
  fmachM (smpM (acquire L_icache)) ;;;
  set_inode i (λ ip, i_set_ref (i_ref ip + 1) ip) ;;;
  fmachM (smpM (release L_icache)) ;;;
  ret i.

(** From the test of [while(ip->flags & I_BUSY)], with [icache.lock] held. *)
Definition ilock_turn (i : nat) : M (fs T) unit :=
  ip ← inode_of i;
  if has (i_flags ip) I_BUSY then fmachM (sleep (inode_chan i) L_icache) ;;; halt Switch else
  set_inode i (i_set_flags (setf (i_flags ip) I_BUSY)) ;;;
  fmachM (smpM (release L_icache)) ;;;
  ip ← inode_of i;
  if negb (has (i_flags ip) I_VALID) then
    bp ← tM (t_bread (i_dev ip) (IBLOCK (i_inum ip)));
    d ← tM (t_data bp);
    set_inode i (i_load (get_dinode (i_inum ip) d)) ;;;
    tM (t_brelse bp) ;;;
    ip ← inode_of i;
    set_inode i (i_set_flags (setf (i_flags ip) I_VALID)) ;;;
    if i_type ip =? 0 then panic "ilock: no type" else ret tt
  else ret tt.

Definition ilock (i : nat) : M (fs T) unit :=
  ip ← inode_of i;
  if i_ref ip <? 1 then panic "ilock" else
  fmachM (smpM (acquire L_icache)) ;;;
  ilock_turn i.

Definition ilock_resume (intena : bool) (i : nat) : M (fs T) unit :=
  fmachM (sleep_resume intena L_icache) ;;; ilock_turn i.

Definition iunlock (i : nat) : M (fs T) unit :=
  ip ← inode_of i;
  if negb (has (i_flags ip) I_BUSY) || (i_ref ip <? 1) then panic "iunlock" else
  fmachM (smpM (acquire L_icache)) ;;;
  set_inode i (λ ip, i_set_flags (clrf (i_flags ip) I_BUSY) ip) ;;;
  fmachM (wakeup (inode_chan i)) ;;;
  fmachM (smpM (release L_icache)).

(** ** Inode content *)

Definition set_addr (i : nat) (k : nat) (a : Z) : M (fs T) unit :=
  set_inode i (λ ip, i_set_addrs (<[k := a]> (i_addrs ip)) ip).

(** [if((addr = ip->addrs[k]) == 0) ip->addrs[k] = addr = balloc(ip->dev)]. *)
Definition addr_or_alloc (i : nat) (k : nat) : M (fs T) Z :=
  ip ← inode_of i;
  addr ← need (i_addrs ip !! k);
  if addr =? 0 then
    addr ← tM (balloc (i_dev ip));
    set_addr i k addr ;;;
    ret addr
  else ret addr.

Definition bmap (i : nat) (bn : Z) : M (fs T) Z :=
  if bn <? Z.of_nat NDIRECT then addr_or_alloc i (Z.to_nat bn)
  else
    let bn := bn - Z.of_nat NDIRECT in
    if bn <? Z.of_nat NINDIRECT then
      addr ← addr_or_alloc i NDIRECT;
      ip ← inode_of i;
      bp ← tM (t_bread (i_dev ip) addr);
      d ← tM (t_data bp);
      let a := get32 (4 * Z.to_nat bn) d in
      r ← (if a =? 0 then
             a ← tM (balloc (i_dev ip));
             d ← tM (t_data bp);
             tM (t_set bp (put32 (4 * Z.to_nat bn) a d)) ;;;
             tM (t_log_write bp) ;;;
             ret a
           else ret a);
      tM (t_brelse bp) ;;;
      ret r
    else panic "bmap: out of range".

Definition trunc_direct (i : nat) (k : nat) : M (fs T) unit :=
  ip ← inode_of i;
  a ← need (i_addrs ip !! k);
  whenM (negb (a =? 0)) (tM (bfree (i_dev ip) a) ;;; set_addr i k 0).

Definition trunc_entry (dev : Z) (bp : nat) (j : nat) : M (fs T) unit :=
  d ← tM (t_data bp);
  let a := get32 (4 * j) d in
  whenM (negb (a =? 0)) (tM (bfree dev a)).

Definition itrunc (i : nat) : M (fs T) unit :=
  for_all (seq 0 NDIRECT) (trunc_direct i) ;;;
  ip ← inode_of i;
  a ← need (i_addrs ip !! NDIRECT);
  whenM (negb (a =? 0)) (
    bp ← tM (t_bread (i_dev ip) a);
    for_all (seq 0 NINDIRECT) (trunc_entry (i_dev ip) bp) ;;;
    tM (t_brelse bp) ;;;
    tM (bfree (i_dev ip) a) ;;;
    set_addr i NDIRECT 0) ;;;
  set_inode i (i_set_size 0) ;;;
  iupdate i.

Definition iput (i : nat) : M (fs T) unit :=
  fmachM (smpM (acquire L_icache)) ;;;
  ip ← inode_of i;
  whenM ((i_ref ip =? 1) && has (i_flags ip) I_VALID && (i_nlink ip =? 0)) (
    if has (i_flags ip) I_BUSY then panic "iput busy" else
    set_inode i (i_set_flags (setf (i_flags ip) I_BUSY)) ;;;
    fmachM (smpM (release L_icache)) ;;;
    itrunc i ;;;
    set_inode i (i_set_type 0) ;;;
    iupdate i ;;;
    fmachM (smpM (acquire L_icache)) ;;;
    set_inode i (i_set_flags 0) ;;;
    fmachM (wakeup (inode_chan i))) ;;;
  set_inode i (λ ip, i_set_ref (i_ref ip - 1) ip) ;;;
  fmachM (smpM (release L_icache)).

Definition iunlockput (i : nat) : M (fs T) unit := iunlock i ;;; iput i.

Definition stati (i : nat) : M (fs T) stat :=
  ip ← inode_of i;
  ret (mkStat (i_dev ip) (i_inum ip) (i_type ip) (i_nlink ip) (i_size ip) (i_ownerid ip)
         (i_groupid ip) (i_mode ip)).

(** One iteration of the copy loops; [tot] bytes are done. *)
Definition read_step (i : nat) (n : Z) (st : Z * Z * list Z)
    : M (fs T) (Z * Z * list Z + list Z) :=
  let '(tot, off, acc) := st in
  if n <=? tot then ret (inr acc) else
  addr ← bmap i (off / Z.of_nat BSIZE);
  ip ← inode_of i;
  bp ← tM (t_bread (i_dev ip) addr);
  let m := Z.min (n - tot) (Z.of_nat BSIZE - off mod Z.of_nat BSIZE) in
  d ← tM (t_data bp);
  tM (t_brelse bp) ;;;
  ret (inl (tot + m, off + m,
            acc ++ slice (Z.to_nat (off mod Z.of_nat BSIZE)) (Z.to_nat m) d)).

Definition readi (i : nat) (off n : Z) : M (fs T) (Z * list Z) :=
  ip ← inode_of i;
  if i_type ip =? T_DEV then
    if (i_major ip <? 0) || (NDEV <=? i_major ip) then ret (-1, []) else
    match dev_read (i_major ip) with
    | None => ret (-1, [])
    | Some f => f i n
    end
  else
  if (i_size ip <? off) || (u32 (off + n) <? off) then ret (-1, []) else
  let n := if i_size ip <? off + n then i_size ip - off else n in
  data ← loopM (S (Z.to_nat n)) (read_step i n) (0, off, []);
  ret (n, data).

Definition write_step (i : nat) (src : list Z) (n : Z) (st : Z * Z) : M (fs T) (Z * Z + Z) :=
  let '(tot, off) := st in
  if n <=? tot then ret (inr off) else
  addr ← bmap i (off / Z.of_nat BSIZE);
  ip ← inode_of i;
  bp ← tM (t_bread (i_dev ip) addr);
  let m := Z.min (n - tot) (Z.of_nat BSIZE - off mod Z.of_nat BSIZE) in
  d ← tM (t_data bp);
  tM (t_set bp (splice (Z.to_nat (off mod Z.of_nat BSIZE)) (slice (Z.to_nat tot) (Z.to_nat m) src) d)) ;;;
  tM (t_log_write bp) ;;;
  tM (t_brelse bp) ;;;
  ret (inl (tot + m, off + m)).

Definition writei (i : nat) (src : list Z) (off n : Z) : M (fs T) Z :=
  ip ← inode_of i;
  if i_type ip =? T_DEV then
    if (i_major ip <? 0) || (NDEV <=? i_major ip) then ret (-1) else
    match dev_write (i_major ip) with
    | None => ret (-1)
    | Some f => f i src n
    end
  else
  if (i_size ip <? off) || (u32 (off + n) <? off) then ret (-1) else
  if MAXBYTES <? off + n then ret (-1) else
  off' ← loopM (S (Z.to_nat n)) (write_step i src n) (0, off);
  ip ← inode_of i;
  whenM ((0 <? n) && (i_size ip <? off')) (
    set_inode i (i_set_size off') ;;;
    iupdate i) ;;;
  ret n.
End code.

Abbreviation tM := (lift f_t set_ft).
