(* ===== verification/Dir.v ===== *)
(** * Directories and paths (kernel/fs.c)

    A path is the list of its bytes without the terminating NUL; the name
    buffer of [DIRSIZ] bytes is passed in and returned, as the code fills it
    in place. *)

From S2P Require Import Prelude Bytes Spinlock Sched Bio BufLayer Ondisk Log Txn CString Fs.

Definition SLASH : Z := 47.

Definition namecmp (s t : list Z) : Z := strncmp s t DIRSIZ.

Fixpoint skip_slash (p : list Z) : list Z :=
  match p with
  | [] => []
  | c :: p' => if c =? SLASH then skip_slash p' else p
  end.

(** The length of the element at the start of the path: up to a slash or the end. *)
Fixpoint elem_len (p : list Z) : nat :=
  match p with
  | [] => 0
  | c :: p' => if (c =? SLASH) || (c =? 0) then 0 else S (elem_len p')
  end.

Definition skipelem (path name : list Z) : option (list Z * list Z) :=
  let s := skip_slash path in
  if peek s 0 =? 0 then None else
  let len := elem_len s in
  let name' := if (DIRSIZ <=? len)%nat then splice 0 (take DIRSIZ s) name
               else splice 0 (take len s ++ [0]) name in
  Some (skip_slash (drop len s), name').

Section code.
Context {T : Type} `{TxnOps T} `{DevSw T}.

Definition DE : Z := Z.of_nat DIRENT.

(** One turn of the search loop; [inr] ends it with an offset and i-number. *)
Definition lookup_step (dp : nat) (name : list Z) (off : Z) : M (fs T) (Z + option (Z * Z)) :=
  ip ← inode_of dp;
  if i_size ip <=? off then ret (inr None) else
  r ← readi dp off DE;
  if negb (r.1 =? DE) then panic "dirlink read" else
  let de := dirent_dec r.2 in
  if de_inum de =? 0 then ret (inl (u32 (off + DE))) else
  if namecmp name (de_name de) =? 0 then ret (inr (Some (off, de_inum de)))
  else ret (inl (u32 (off + DE))).

(** The number of entries bounds the loop. *)
Definition dir_fuel (size : Z) : nat := S (S (Z.to_nat (size / DE))).

(** Returns the inode and the offset stored through [poff]. *)
Definition dirlookup (dp : nat) (name : list Z) : M (fs T) (option (nat * Z)) :=
  ip ← inode_of dp;
  if negb (i_type ip =? T_DIR) then panic "dirlookup not DIR" else
  r ← loopM (dir_fuel (i_size ip)) (lookup_step dp name) 0;
  match r with
  | None => ret None
  | Some (off, inum) =>
      ip ← inode_of dp;
      i ← iget (i_dev ip) inum;
      ret (Some (i, off))
  end.

Definition empty_step (dp : nat) (off : Z) : M (fs T) (Z + Z) :=
  ip ← inode_of dp;
  if i_size ip <=? u32 off then ret (inr off) else
  r ← readi dp (u32 off) DE;
  if negb (r.1 =? DE) then panic "dirlink read" else
  if de_inum (dirent_dec r.2) =? 0 then ret (inr off) else ret (inl (off + DE)).

Definition dirlink (dp : nat) (name : list Z) (inum : Z) : M (fs T) Z :=
  r ← dirlookup dp name;
  match r with
  | Some (i, _) => iput i ;;; ret (-1)
  | None =>
      ip ← inode_of dp;
      off ← loopM (dir_fuel (i_size ip)) (empty_step dp) 0;
      let de := mkDirent (u16 inum) (strncpy name DIRSIZ) in
      n ← writei dp (dirent_enc de) (u32 off) DE;
      if negb (n =? DE) then panic "dirlink" else ret 0
  end.

(** One element of the path; [inr] ends the walk. *)
Definition namex_step (nameiparent : bool) (st : list Z * list Z * nat)
    : M (fs T) (list Z * list Z * nat + option nat * list Z) :=
  let '(path, name, i) := st in
  match skipelem path name with
  | None =>
      if nameiparent then iput i ;;; ret (inr (None, name)) else ret (inr (Some i, name))
  | Some (path, name) =>
      ilock i ;;;
      ip ← inode_of i;
      if negb (i_type ip =? T_DIR) then iunlockput i ;;; ret (inr (None, name)) else
      if nameiparent && (peek path 0 =? 0) then iunlock i ;;; ret (inr (Some i, name)) else
      r ← dirlookup i name;
      match r with
      | None => iunlockput i ;;; ret (inr (None, name))
      | Some (next, _) => iunlockput i ;;; ret (inl (path, name, next))
      end
  end.

Definition namex (path : list Z) (nameiparent : bool) (name : list Z)
    : M (fs T) (option nat * list Z) :=
  i ← (if peek path 0 =? SLASH then iget ROOTDEV ROOTINO
       else
         i ← fmachM curproc;
         p ← fmachM (getproc i);
         cwd ← need (p_cwd p);
         idup cwd);
  loopM (S (length path)) (namex_step nameiparent) (path, name, i).

(** The local [char name[DIRSIZ]] is written before it is read. *)
Definition namei (path : list Z) : M (fs T) (option nat) :=
  r ← namex path false (replicate DIRSIZ 0);
  ret (r.1).

Definition nameiparent (path : list Z) (name : list Z) : M (fs T) (option nat * list Z) :=
  namex path true name.
End code.
