(* ===== verification/FsAlloc.v ===== *)
(** * The block allocator of fs.c

    [used] is the allocation state the bitmap blocks stand for.  [balloc]
    returns the first free block, marked and zeroed; [bfree] clears the mark.
    Both are proved against the transaction interface. *)

From S2P Require Import Prelude Bytes Spinlock Sched Bio BioSpec BufLayer Ondisk Log Txn CString Fs.
From Stdlib Require Import FunctionalExtensionality.

(** ** Bits of a block *)

Section bits.
Implicit Types (d : block) (bi bj : Z).

Lemma peek_poke_same d i x : (i < length d)%nat → peek (poke d i x) i = x.
Proof. intros. unfold peek, poke. by rewrite nth_lookup, list_lookup_insert_eq. Qed.
Lemma peek_poke_other d i j x : i ≠ j → peek (poke d i x) j = peek d j.
Proof. intros. unfold peek, poke. by rewrite !nth_lookup, list_lookup_insert_ne. Qed.

Lemma byte_index bi d : 0 ≤ bi < BPB → length d = BSIZE → (Z.to_nat (bi / 8) < length d)%nat.
Proof. unfold BPB, BSIZE. intros. assert (bi / 8 < 512) by (apply Z.div_lt_upper_bound; lia).
  assert (0 ≤ bi / 8) by (apply Z.div_pos; lia). lia. Qed.

Lemma bit_eq bi bj : bi / 8 = bj / 8 → bi mod 8 = bj mod 8 → bi = bj.
Proof. intros H1 H2. rewrite (Z.div_mod bi 8), (Z.div_mod bj 8) by lia. by rewrite H1, H2. Qed.

Lemma bit_bit_on d bi bj : length d = BSIZE → 0 ≤ bi < BPB → 0 ≤ bj < BPB →
  bit (bit_on d bi) bj = (bi =? bj) || bit d bj.
Proof.
  intros Hd Hi Hj. unfold bit, bit_on. pose proof (byte_index bi d Hi Hd).
  assert (0 ≤ bi / 8) by (apply Z.div_pos; lia). assert (0 ≤ bj / 8) by (apply Z.div_pos; lia).
  pose proof (Z.mod_pos_bound bi 8). pose proof (Z.mod_pos_bound bj 8).
  destruct (decide (bi / 8 = bj / 8)) as [E|E].
  - rewrite <- E, peek_poke_same by done. rewrite has_setf by lia.
    f_equal. destruct (Z.eqb_spec bi bj) as [->|Hne]; [by rewrite Z.eqb_refl|].
    apply Z.eqb_neq. intros E'. by apply Hne, bit_eq.
  - rewrite peek_poke_other by lia. destruct (Z.eqb_spec bi bj) as [->|]; done.
Qed.

Lemma bit_bit_off d bi bj : length d = BSIZE → 0 ≤ bi < BPB → 0 ≤ bj < BPB →
  bit (bit_off d bi) bj = negb (bi =? bj) && bit d bj.
Proof.
  intros Hd Hi Hj. unfold bit, bit_off. pose proof (byte_index bi d Hi Hd).
  assert (0 ≤ bi / 8) by (apply Z.div_pos; lia). assert (0 ≤ bj / 8) by (apply Z.div_pos; lia).
  pose proof (Z.mod_pos_bound bi 8). pose proof (Z.mod_pos_bound bj 8).
  destruct (decide (bi / 8 = bj / 8)) as [E|E].
  - rewrite <- E, peek_poke_same by done. rewrite has_clrf by lia.
    do 2 f_equal. destruct (Z.eqb_spec bi bj) as [->|Hne]; [by rewrite Z.eqb_refl|].
    apply Z.eqb_neq. intros E'. by apply Hne, bit_eq.
  - rewrite peek_poke_other by lia. destruct (Z.eqb_spec bi bj) as [->|]; done.
Qed.

Lemma bit_on_length d bi : length (bit_on d bi) = length d.
Proof. apply length_insert. Qed.
Lemma bit_off_length d bi : length (bit_off d bi) = length d.
Proof. apply length_insert. Qed.

Lemma free_bit_some fuel bi b size d r : free_bit fuel bi b size d = Some r →
  bi ≤ r < bi + Z.of_nat fuel ∧ b + r < size ∧ bit d r = false ∧ ∀ j, bi ≤ j < r → bit d j = true.
Proof.
  revert bi. induction fuel as [|k IH]; intros bi E; [done|]. cbn [free_bit] in E.
  destruct (Z.ltb_spec (b + bi) size); [|done]. destruct (bit d bi) eqn:Eb.
  - apply IH in E as (H1 & H2 & H3 & H4). split_and!; try done; try lia.
    intros j Hj. destruct (decide (j = bi)) as [->|]; [done|]. apply H4. lia.
  - simplify_eq. split_and!; try done; try lia.
Qed.

Lemma free_bit_none fuel bi b size d : free_bit fuel bi b size d = None →
  ∀ j, bi ≤ j < bi + Z.of_nat fuel → b + j < size → bit d j = true.
Proof.
  revert bi. induction fuel as [|k IH]; intros bi E j Hj Hs; [lia|]. cbn [free_bit] in E.
  destruct (Z.ltb_spec (b + bi) size); [|lia]. destruct (bit d bi) eqn:Eb; [|done].
  destruct (decide (j = bi)) as [->|]; [done|]. apply (IH _ E); lia.
Qed.
End bits.

(** ** The allocation state *)

Definition used (m : Z → block) (sb : superblock) (b : Z) : bool :=
  bit (m (BBLOCK b (sb_ninodes sb))) (b mod BPB).

(** The first block after the bitmap. *)
Definition dstart (sb : superblock) : Z := BBLOCK (sb_size sb - 1) (sb_ninodes sb) + 1.

(** A formatted disk of which the blocks below [limit] are the file system's. *)
Definition geo (m : Z → block) (limit : Z) (sb : superblock) : Prop :=
  sb_dec (m 1) = sb ∧ 0 ≤ sb_ninodes sb ∧ 0 < sb_size sb ∧ dstart sb ≤ limit ≤ sb_size sb ∧
  (∀ b, 0 ≤ b < dstart sb → used m sb b = true).

Section geometry.
Implicit Types (m : Z → block) (sb : superblock).

Lemma BBLOCK_range b sb : 0 ≤ sb_ninodes sb → 0 ≤ b < sb_size sb →
  3 ≤ BBLOCK b (sb_ninodes sb) < dstart sb.
Proof.
  intros Hn Hb. unfold dstart, BBLOCK, BPB, IPB.
  pose proof (Z.div_pos (sb_ninodes sb) 8). pose proof (Z.div_pos b 4096).
  pose proof (Z.div_le_mono b (sb_size sb - 1) 4096). lia.
Qed.

Lemma BBLOCK_split k bi n : 0 ≤ bi < BPB → BBLOCK (BPB * k + bi) n = BBLOCK (BPB * k) n ∧
  (BPB * k + bi) mod BPB = bi.
Proof.
  intros Hbi. unfold BBLOCK, BPB in *.
  rewrite (Z.mul_comm 4096 k), Z.div_add_l, Z.div_mul by lia. rewrite (Z.div_small bi) by lia.
  split; [lia|]. rewrite Z.add_comm, Z.mod_add by lia. apply Z.mod_small. lia.
Qed.

Lemma geo_used_data m limit sb b : geo m limit sb → 0 ≤ b → used m sb b = false → dstart sb ≤ b.
Proof.
  intros (_ & _ & _ & _ & Hm) Hb Hu. destruct (decide (b < dstart sb)); [|lia].
  rewrite Hm in Hu by lia. done.
Qed.

(** Marking or clearing one bit. *)
Definition mark (m : Z → block) (sb : superblock) (b : Z) (on : bool) : Z → block :=
  let bb := BBLOCK b (sb_ninodes sb) in
  <[bb := (if on then bit_on else bit_off) (m bb) (b mod BPB)]> m.

Lemma used_mark m sb b on b' : (∀ x, length (m x) = BSIZE) → 0 ≤ b → 0 ≤ b' →
  used (mark m sb b on) sb b' = if b =? b' then on else used m sb b'.
Proof.
  intros Hl Hb Hb'. unfold used, mark.
  pose proof (Z.mod_pos_bound b BPB). pose proof (Z.mod_pos_bound b' BPB). unfold BPB in *.
  destruct (decide (BBLOCK b (sb_ninodes sb) = BBLOCK b' (sb_ninodes sb))) as [E|E].
  - rewrite <- E, fn_lookup_insert. unfold BBLOCK, BPB in E.
    destruct on; [rewrite bit_bit_on|rewrite bit_bit_off]; try done; try (unfold BPB; lia).
    + destruct (Z.eqb_spec b b') as [->|Hne]; [by rewrite Z.eqb_refl|].
      rewrite (proj2 (Z.eqb_neq _ _)); [done|]. intros E'. apply Hne.
      rewrite (Z.div_mod b 4096), (Z.div_mod b' 4096) by lia. lia.
    + destruct (Z.eqb_spec b b') as [->|Hne]; [by rewrite Z.eqb_refl|].
      rewrite (proj2 (Z.eqb_neq _ _)); [done|]. intros E'. apply Hne.
      rewrite (Z.div_mod b 4096), (Z.div_mod b' 4096) by lia. lia.
  - rewrite fn_lookup_insert_ne by done. destruct (Z.eqb_spec b b') as [->|]; done.
Qed.

Lemma used_data m sb b b' x : dstart sb ≤ b → 0 ≤ sb_ninodes sb → 0 ≤ b' < sb_size sb →
  used (<[b := x]> m) sb b' = used m sb b'.
Proof.
  intros Hb Hn Hb'. unfold used. pose proof (BBLOCK_range b' sb Hn Hb').
  by rewrite fn_lookup_insert_ne by lia.
Qed.
End geometry.

(** ** The operations *)

Section run.
Context {T : Type} `{TxnLaws T}.
Implicit Types (t : T) (sb : superblock).

Abbreviation mem t := (v_mem (tview t)).

(** Buffers other code holds while the allocator runs are of data blocks in use. *)
Definition held_data t sb : Prop :=
  ∀ h bn, v_busy (tview t) h = Some bn → dstart sb ≤ bn ∧ used (mem t) sb bn = true.

Lemma held_meta t sb bn : held_data t sb → bn < dstart sb → unheld (tview t) bn.
Proof. intros Hh Hb h E. apply Hh in E as [? _]. lia. Qed.

Lemma held_free t sb bn : held_data t sb → used (mem t) sb bn = false → unheld (tview t) bn.
Proof. intros Hh Hu h E. apply Hh in E as [_ ?]. congruence. Qed.

Lemma dstart_pos m limit sb : geo m limit sb → 3 < dstart sb ≤ limit.
Proof.
  intros (_ & Hn & Hs & Hd & _). pose proof (BBLOCK_range (sb_size sb - 1) sb Hn). lia.
Qed.

Lemma treadsb_ok t sb : tready t → geo (mem t) (tlimit t) sb → unheld (tview t) 1 →
  (0 < v_avail (tview t))%nat →
  ∃ t', treadsb ROOTDEV t = Ok sb t' ∧ tview t' = tview t ∧ tmod t t' (mem t) 0.
Proof.
  intros Hr Hg Hu Ha. pose proof (dstart_pos _ _ _ Hg). pose proof Hg as (Hsb & _).
  destruct (peek_block t 1) as (h & t1 & t2 & E1 & E2 & E3 & V2 & Hm & _); try done; [lia|by right|].
  exists t2. unfold treadsb. step E1. step E2. step E3. by rewrite Hsb.
Qed.

Lemma bzero_ok t b : tready t → ttxn t → 0 ≤ b < tlimit t → unheld (tview t) b →
  (0 < troom t)%nat → (0 < v_avail (tview t))%nat →
  ∃ t', bzero ROOTDEV b t = Ok tt t' ∧ tmod t t' (<[b := zero_block]> (mem t)) 1.
Proof.
  intros Hr Hx Hb Hu Hro Ha. unfold bzero.
  destruct (run_tbread t b) as (h & t1 & E1 & F1 & (R1 & S1 & L1 & X1 & V1 & Q1)); try done; [by right|].
  step E1. destruct (update_block t t1 h b (replicate BSIZE 0)) as (t2 & t3 & t4 & E2 & E3 & E4 & Hm & _);
    try done; try lia; [by apply X1|].
  step E2. step E3. exists t4. done.
Qed.

Definition alloc_mem (m : Z → block) sb (b : Z) : Z → block :=
  <[b := zero_block]> (mark m sb b true).

(** One bitmap block with a free bit. *)
Lemma balloc_group_some t sb k bi : tready t → ttxn t → geo (mem t) (tlimit t) sb → held_data t sb →
  budget t 2 → 0 ≤ k → free_bit (Z.to_nat BPB) 0 (BPB * k) (sb_size sb)
    (mem t (BBLOCK (BPB * k) (sb_ninodes sb))) = Some bi → BPB * k + bi < tlimit t →
  ∃ t', balloc_group ROOTDEV sb (BPB * k) t = Ok (Some (BPB * k + bi)) t' ∧
    tmod t t' (alloc_mem (mem t) sb (BPB * k + bi)) 2.
Proof.
  intros Hr Hx Hg Hh [Hb1 Hb2] Hk Hf Hlim. pose proof (dstart_pos _ _ _ Hg) as Hds.
  pose proof Hg as (_ & Hn & Hs & Hd & _).
  destruct (free_bit_some _ _ _ _ _ _ Hf) as (Hbi & Hsz & Hbit & _).
  rewrite Z2Nat.id in Hbi by (unfold BPB; lia).
  destruct (BBLOCK_split k bi (sb_ninodes sb)) as [EB EM]; [lia|].
  assert (0 ≤ BPB * k) by (unfold BPB; lia).
  set (bb := BBLOCK (BPB * k) (sb_ninodes sb)) in *. set (b := BPB * k + bi) in *.
  assert (3 ≤ bb < dstart sb) as Hbb by (rewrite <- EB; apply BBLOCK_range; lia).
  assert (used (mem t) sb b = false) as Hu by (unfold used; by rewrite EB, EM).
  pose proof (geo_used_data _ _ _ b Hg ltac:(lia) Hu).
  unfold balloc_group. fold bb.
  destruct (run_tbread t bb) as (h & t1 & E1 & F1 & (R1 & S1 & L1 & X1 & V1 & Q1)); try done;
    [lia|eapply held_meta; [done|lia]|right; lia|].
  assert (v_busy (tview t1) h = Some bb) as B1 by (rewrite V1; cbn; apply fn_lookup_insert).
  step E1. step (run_tdata t1 h bb R1 B1). rewrite V1. cbn [open_view v_mem]. rewrite Hf.
  destruct (update_block t t1 h bb (bit_on (mem t bb) bi)) as (t2 & t3 & t4 & E2 & E3 & E4 & Hm & _);
    try done; try lia; [by apply X1|rewrite bit_on_length; apply tmem_length, Hr|].
  step E2. step E3. step E4. fold b.
  pose proof Hm as (R4 & S4 & L4 & X4 & M4 & _ & _ & B4 & _ & Q4 & A4).
  destruct (bzero_ok t4 b) as (t5 & E5 & Hm5); try done.
  { by apply X4. } { rewrite L4. lia. }
  { intros h' E'. rewrite B4 in E'. eapply held_free; eauto. } { lia. } { lia. }
  step E5. exists t5. split; [done|]. rewrite M4 in Hm5.
  unfold alloc_mem, mark. rewrite EB, EM. by eapply (tmod_trans t t4 t5 _ _ 1 1).
Qed.

(** A full bitmap block. *)
Lemma balloc_group_none t sb k : tready t → geo (mem t) (tlimit t) sb → held_data t sb →
  (0 < v_avail (tview t))%nat → 0 ≤ k → BPB * k < sb_size sb →
  free_bit (Z.to_nat BPB) 0 (BPB * k) (sb_size sb)
    (mem t (BBLOCK (BPB * k) (sb_ninodes sb))) = None →
  ∃ t', balloc_group ROOTDEV sb (BPB * k) t = Ok None t' ∧ tview t' = tview t ∧ tmod t t' (mem t) 0.
Proof.
  intros Hr Hg Hh Ha Hk Hsz Hf. pose proof (dstart_pos _ _ _ Hg). pose proof Hg as (_ & Hn & Hs & Hd & _).
  assert (0 ≤ BPB * k) by (unfold BPB; lia).
  pose proof (BBLOCK_range (BPB * k) sb Hn ltac:(lia)) as Hbb. unfold balloc_group.
  destruct (peek_block t (BBLOCK (BPB * k) (sb_ninodes sb))) as (h & t1 & t2 & E1 & E2 & E3 & V2 & Hm & _);
    try done; [lia|eapply held_meta; [done|lia]|by right|].
  step E1. step E2. rewrite Hf. step E3. by exists t2.
Qed.

Lemma balloc_loop t sb n k b0 : tready t → ttxn t → geo (mem t) (tlimit t) sb → held_data t sb →
  budget t 2 → BPB * Z.of_nat k ≤ b0 < tlimit t → used (mem t) sb b0 = false →
  (∀ b, 0 ≤ b < BPB * Z.of_nat k → used (mem t) sb b = true) →
  sb_size sb ≤ BPB * Z.of_nat (k + n) →
  ∃ b t', for_each ((λ k, BPB * Z.of_nat k) <$> seq k n) (balloc_group ROOTDEV sb) t = Ok (Some b) t' ∧
    used (mem t) sb b = false ∧ 0 ≤ b ≤ b0 ∧ (∀ b', 0 ≤ b' < b → used (mem t) sb b' = true) ∧
    tmod t t' (alloc_mem (mem t) sb b) 2.
Proof.
  revert t k. induction n as [|n IH]; intros t k Hr Hx Hg Hh Hb Hb0 Hu Hall Hsz;
    pose proof Hg as (_ & Hn & Hs & Hd & _).
  { exfalso. rewrite Nat.add_0_r in Hsz. lia. }
  cbn [seq fmap list_fmap for_each].
  assert (∀ j, 0 ≤ j < BPB → used (mem t) sb (BPB * Z.of_nat k + j) =
    bit (mem t (BBLOCK (BPB * Z.of_nat k) (sb_ninodes sb))) j) as Hbits.
  { intros j Hj. unfold used. by destruct (BBLOCK_split (Z.of_nat k) j (sb_ninodes sb) Hj) as [-> ->]. }
  destruct (free_bit (Z.to_nat BPB) 0 (BPB * Z.of_nat k) (sb_size sb)
    (mem t (BBLOCK (BPB * Z.of_nat k) (sb_ninodes sb)))) as [bi|] eqn:Ef.
  - destruct (free_bit_some _ _ _ _ _ _ Ef) as (Hbi & Hlt & Hbit & Hbefore).
    rewrite Z2Nat.id in Hbi by (unfold BPB; lia).
    assert (BPB * Z.of_nat k + bi ≤ b0) as Hle.
    { destruct (decide (BPB * Z.of_nat k + bi ≤ b0)); [done|]. exfalso.
      replace b0 with (BPB * Z.of_nat k + (b0 - BPB * Z.of_nat k)) in Hu by lia.
      rewrite Hbits, Hbefore in Hu by lia. done. }
    destruct (balloc_group_some t sb (Z.of_nat k) bi) as (t' & E & Hm); try done; try lia.
    step E. exists (BPB * Z.of_nat k + bi), t'. split_and!; try done; try (unfold BPB in *; lia).
    + by rewrite Hbits by lia.
    + intros b' Hb'. destruct (decide (b' < BPB * Z.of_nat k)); [apply Hall; lia|].
      replace b' with (BPB * Z.of_nat k + (b' - BPB * Z.of_nat k)) by lia.
      rewrite Hbits by lia. apply Hbefore. lia.
  - destruct (balloc_group_none t sb (Z.of_nat k)) as (t1 & E & V1 & Hm); try done; try lia.
    { destruct Hb. lia. }
    step E. pose proof Hm as (R1 & S1 & L1 & X1 & _ & _ & _ & _ & _ & Q1 & A1).
    assert (∀ j, 0 ≤ j < BPB → BPB * Z.of_nat k + j < sb_size sb →
      used (mem t) sb (BPB * Z.of_nat k + j) = true) as Hfull.
    { intros j Hj Hjs. rewrite Hbits by done. eapply free_bit_none; [exact Ef| |done].
      rewrite Z2Nat.id by (unfold BPB; lia). lia. }
    destruct (IH t1 (Datatypes.S k)) as (b & t' & E' & Hub & Hbr & Hall' & Hm'); rewrite ?V1, ?L1; try done.
    + by apply X1.
    + intros h bn. rewrite V1. apply Hh.
    + unfold budget in *. rewrite V1. lia.
    + destruct (decide (b0 < BPB * Z.of_nat (Datatypes.S k))); [|lia]. exfalso.
      replace b0 with (BPB * Z.of_nat k + (b0 - BPB * Z.of_nat k)) in Hu by lia.
      rewrite Hfull in Hu by lia. done.
    + intros b Hbk. destruct (decide (b < BPB * Z.of_nat k)); [apply Hall; lia|].
      destruct (decide (b < sb_size sb)).
      * replace b with (BPB * Z.of_nat k + (b - BPB * Z.of_nat k)) by lia. apply Hfull; lia.
      * exfalso. assert (b0 < BPB * Z.of_nat (Datatypes.S k)) by lia.
        replace b0 with (BPB * Z.of_nat k + (b0 - BPB * Z.of_nat k)) in Hu by lia.
        rewrite Hfull in Hu by lia. done.
    + by replace (Datatypes.S k + n)%nat with (k + Datatypes.S n)%nat by lia.
    + rewrite V1 in *. exists b, t'. split_and!; try done; try lia.
      by eapply (tmod_trans t t1 t' _ _ 0 2).
Qed.

Lemma groups_cover size : 0 < size →
  size ≤ BPB * Z.of_nat (0 + Z.to_nat ((size + BPB - 1) / BPB)).
Proof.
  intros Hs. unfold BPB. rewrite Nat.add_0_l, Z2Nat.id by (apply Z.div_pos; lia).
  pose proof (Z.div_mod (size + 4096 - 1) 4096). pose proof (Z.mod_pos_bound (size + 4096 - 1) 4096). lia.
Qed.

(** [balloc] returns the first free block, marked in use and zeroed. *)
Lemma balloc_ok t sb b0 : tready t → ttxn t → geo (mem t) (tlimit t) sb → held_data t sb →
  budget t 2 → 0 ≤ b0 < tlimit t → used (mem t) sb b0 = false →
  ∃ b t', balloc ROOTDEV t = Ok b t' ∧
    used (mem t) sb b = false ∧ dstart sb ≤ b ≤ b0 ∧ (∀ b', 0 ≤ b' < b → used (mem t) sb b' = true) ∧
    tmod t t' (alloc_mem (mem t) sb b) 2.
Proof.
  intros Hr Hx Hg Hh Hb Hb0 Hu. pose proof (dstart_pos _ _ _ Hg). pose proof Hg as (_ & Hn & Hs & _).
  destruct (treadsb_ok t sb) as (t1 & E1 & V1 & Hm1); try done.
  { eapply held_meta; [done|lia]. } { destruct Hb. lia. }
  unfold balloc. step E1. pose proof Hm1 as (R1 & S1 & L1 & X1 & _ & _ & _ & _ & _ & Q1 & A1).
  unfold groups.
  destruct (balloc_loop t1 sb (Z.to_nat ((sb_size sb + BPB - 1) / BPB)) 0 b0)
    as (b & t2 & E2 & Hu2 & Hb2 & Hall & Hm2); rewrite ?V1, ?L1; try done.
  - by apply X1.
  - intros h bn. rewrite V1. apply Hh.
  - unfold budget in *. rewrite V1. lia.
  - lia.
  - by apply groups_cover.
  - rewrite V1 in *. step E2. exists b, t2. split_and!; try done; try lia.
    + by eapply (geo_used_data _ _ _ b Hg); [lia|].
    + by eapply (tmod_trans t t1 t2 _ _ 0 2).
Qed.

(** [bfree] clears the mark of a block in use. *)
Lemma bfree_ok t sb b : tready t → ttxn t → geo (mem t) (tlimit t) sb →
  (∀ bn, bn < dstart sb → unheld (tview t) bn) → budget t 1 → 0 ≤ b < sb_size sb →
  used (mem t) sb b = true →
  ∃ t', bfree ROOTDEV b t = Ok tt t' ∧ tmod t t' (mark (mem t) sb b false) 1.
Proof.
  intros Hr Hx Hg Hh [Hb1 Hb2] Hb Hu. pose proof (dstart_pos _ _ _ Hg). pose proof Hg as (_ & Hn & Hs & _).
  destruct (treadsb_ok t sb) as (t1 & E1 & V1 & Hm1); try done; [apply Hh; lia|lia|].
  unfold bfree. step E1. pose proof Hm1 as (R1 & S1 & L1 & X1 & _ & _ & _ & _ & _ & Q1 & A1).
  set (bb := BBLOCK b (sb_ninodes sb)). pose proof (BBLOCK_range b sb Hn Hb) as Hbb. fold bb in Hbb.
  destruct (run_tbread t1 bb) as (h & t2 & E2 & F2 & (R2 & S2 & L2 & X2 & V2 & Q2)); try done;
    rewrite ?V1; [rewrite L1; lia|apply Hh; lia|right; lia|].
  step E2. assert (v_busy (tview t2) h = Some bb) as B2 by (rewrite V2; cbn; apply fn_lookup_insert).
  step (run_tdata t2 h bb R2 B2). rewrite V2. cbn [open_view v_mem]. rewrite V1.
  unfold used in Hu. fold bb in Hu. rewrite Hu. cbn [negb].
  destruct (update_block t1 t2 h bb (bit_off (mem t bb) (b mod BPB))) as (t3 & t4 & t5 & E3 & E4 & E5 & Hm & _);
    try done; try lia.
  { by apply X2, X1. } { rewrite bit_off_length. apply tmem_length, Hr. }
  step E3. step E4. exists t5. split; [done|]. rewrite V1 in Hm.
  by eapply (tmod_trans t t1 t5 _ _ 0 1).
Qed.

(** Freeing a free block panics. *)
Lemma bfree_panics t sb b : tready t → geo (mem t) (tlimit t) sb →
  (∀ bn, bn < dstart sb → unheld (tview t) bn) → (0 < v_avail (tview t))%nat → 0 ≤ b < sb_size sb →
  used (mem t) sb b = false → ∃ t', bfree ROOTDEV b t = Stop (Panic "freeing free block") t'.
Proof.
  intros Hr Hg Hh Ha Hb Hu. pose proof (dstart_pos _ _ _ Hg). pose proof Hg as (_ & Hn & Hs & _).
  destruct (treadsb_ok t sb) as (t1 & E1 & V1 & Hm1); try done; [apply Hh; lia|].
  unfold bfree. step E1. pose proof Hm1 as (R1 & S1 & L1 & X1 & _ & _ & _ & _ & _ & Q1 & A1).
  set (bb := BBLOCK b (sb_ninodes sb)). pose proof (BBLOCK_range b sb Hn Hb) as Hbb. fold bb in Hbb.
  destruct (run_tbread t1 bb) as (h & t2 & E2 & F2 & (R2 & S2 & L2 & X2 & V2 & Q2)); try done;
    rewrite ?V1; [rewrite L1; lia|apply Hh; lia|by right|].
  step E2. assert (v_busy (tview t2) h = Some bb) as B2 by (rewrite V2; cbn; apply fn_lookup_insert).
  step (run_tdata t2 h bb R2 B2). rewrite V2. cbn [open_view v_mem]. rewrite V1.
  unfold used in Hu. fold bb in Hu. rewrite Hu. cbn [negb]. by eexists.
Qed.
End run.

(** ** Keeping the disk formatted *)

Section keep.
Implicit Types (m : Z → block) (sb : superblock).

Definition nfree m sb (limit : Z) : nat :=
  length (filter (λ b, used m sb b = false) (seqZ 0 limit)).

(** [m'] came from [m] by allocating blocks and changing free blocks and
    blocks of [P]. *)
Definition frame m m' sb (P : Z → Prop) : Prop :=
  (∀ b, 0 ≤ b < sb_size sb → dstart sb ≤ b → used m sb b = true → ¬ P b → m' b = m b) ∧
  (∀ b, 0 ≤ b < sb_size sb → used m sb b = true → used m' sb b = true) ∧
  (∀ b, b < BBLOCK 0 (sb_ninodes sb) → m' b = m b).

Lemma frame_refl m sb P : frame m m sb P.
Proof. done. Qed.

Lemma frame_mono m m' sb (P Q : Z → Prop) : frame m m' sb P → (∀ b, P b → Q b) → frame m m' sb Q.
Proof. intros (H1 & H2 & H3) HPQ. split_and!; try done. intros b Hb Hd Hu HQ. apply H1; auto. Qed.

Lemma frame_trans m m1 m2 sb (P Q : Z → Prop) : frame m m1 sb P → frame m1 m2 sb Q →
  (∀ b, used m sb b = true → Q b → P b) → frame m m2 sb P.
Proof.
  intros (A1 & A2 & A3) (B1 & B2 & B3) HQ. split_and!.
  - intros b Hb Hd Hu HP. rewrite B1; auto.
  - auto.
  - intros b Hb. rewrite B3 by done. auto.
Qed.

Lemma BBLOCK_ge b n : 0 ≤ b → BBLOCK 0 n ≤ BBLOCK b n.
Proof. intros. unfold BBLOCK, BPB. pose proof (Z.div_pos b 4096). rewrite Z.div_0_l by lia. lia. Qed.

Lemma used_alloc m limit sb b b' : geo m limit sb → (∀ x, length (m x) = BSIZE) →
  dstart sb ≤ b < limit → 0 ≤ b' < sb_size sb →
  used (alloc_mem m sb b) sb b' = (b =? b') || used m sb b'.
Proof.
  intros Hg Hl Hb Hb'. pose proof (dstart_pos _ _ _ Hg). pose proof Hg as (_ & Hn & _ & Hd & _).
  unfold alloc_mem. rewrite used_data, used_mark by (done || lia). by destruct (b =? b').
Qed.

Lemma geo_same m m' limit sb : geo m limit sb → m' 1 = m 1 →
  (∀ b, 0 ≤ b < sb_size sb → used m sb b = true → used m' sb b = true) → geo m' limit sb.
Proof.
  intros Hg E1 Hu. pose proof (dstart_pos _ _ _ Hg). pose proof Hg as (H1 & Hn & Hs & Hd & Hm).
  split_and!; try done; try lia; [by rewrite E1|]. intros b Hb. apply Hu; [lia|]. by apply Hm.
Qed.

Lemma BBLOCK0_gt1 sb : 0 ≤ sb_ninodes sb → 3 ≤ BBLOCK 0 (sb_ninodes sb).
Proof. intros. unfold BBLOCK, BPB, IPB. pose proof (Z.div_pos (sb_ninodes sb) 8). rewrite Z.div_0_l by lia. lia. Qed.

Lemma frame_geo m m' limit sb P : geo m limit sb → frame m m' sb P → geo m' limit sb.
Proof.
  intros Hg (_ & Hu & Hlow). eapply geo_same; [done| |done]. apply Hlow.
  pose proof Hg as (_ & Hn & _). pose proof (BBLOCK0_gt1 sb Hn). lia.
Qed.

Lemma frame_alloc m limit sb b : geo m limit sb → (∀ x, length (m x) = BSIZE) →
  dstart sb ≤ b < limit → used m sb b = false → frame m (alloc_mem m sb b) sb (λ _, False).
Proof.
  intros Hg Hl Hb Hu. pose proof (dstart_pos _ _ _ Hg). pose proof Hg as (_ & Hn & Hs & Hd & _).
  pose proof (BBLOCK_range b sb Hn ltac:(lia)) as Hbb. split_and!.
  - intros x Hx Hdx Hux _. unfold alloc_mem, mark.
    rewrite !fn_lookup_insert_ne; [done|lia|congruence].
  - intros x Hx Hux. rewrite (used_alloc m limit) by (done || lia). by rewrite Hux, orb_true_r.
  - intros x Hx. unfold alloc_mem, mark. pose proof (BBLOCK_ge b (sb_ninodes sb) ltac:(lia)).
    rewrite !fn_lookup_insert_ne; [done|lia|lia].
Qed.

(** Changing a data block of [P] is framed. *)
Lemma frame_data m limit sb b x (P : Z → Prop) : geo m limit sb → dstart sb ≤ b → P b →
  frame m (<[b := x]> m) sb P.
Proof.
  intros Hg Hb HP. pose proof (dstart_pos _ _ _ Hg). pose proof Hg as (_ & Hn & Hs & Hd & _).
  pose proof (BBLOCK_range 0 sb Hn ltac:(lia)). split_and!.
  - intros y Hy Hdy Huy HPy. apply fn_lookup_insert_ne. by intros <-.
  - intros y Hy Huy. by rewrite used_data by (done || lia).
  - intros y Hy. apply fn_lookup_insert_ne. lia.
Qed.

Lemma alloc_length m sb b : (∀ x, length (m x) = BSIZE) → ∀ x, length (alloc_mem m sb b x) = BSIZE.
Proof.
  intros Hl x. unfold alloc_mem, mark, insert, fn_insert. repeat case_decide; subst; try done.
  by rewrite bit_on_length.
Qed.

Lemma nfree_pos m sb limit : (0 < nfree m sb limit)%nat → ∃ b, 0 ≤ b < limit ∧ used m sb b = false.
Proof.
  unfold nfree. intros Hn.
  destruct (filter (λ b, used m sb b = false) (seqZ 0 limit)) as [|b l] eqn:E; [cbn in Hn; lia|].
  exists b. assert (b ∈ filter (λ b, used m sb b = false) (seqZ 0 limit)) as Hin by (rewrite E; by left).
  apply list_elem_of_filter in Hin as [Hu Hb%elem_of_seqZ]. split; [lia|done].
Qed.

Lemma filter_ext_in (P Q : Z → Prop) `{∀ x, Decision (P x)} `{∀ x, Decision (Q x)} (l : list Z) :
  (∀ x, x ∈ l → P x ↔ Q x) → filter P l = filter Q l.
Proof.
  induction l as [|x l IH]; intros Hpq; [done|]. rewrite !filter_cons.
  rewrite IH by (intros; apply Hpq; by right). pose proof (Hpq x ltac:(by left)).
  destruct (decide (P x)), (decide (Q x)); tauto.
Qed.

Lemma filter_remove (P Q : Z → Prop) `{∀ x, Decision (P x)} `{∀ x, Decision (Q x)} b (l : list Z) : NoDup l →
  (∀ x, x ∈ l → Q x ↔ P x ∧ x ≠ b) → (length (filter P l) ≤ S (length (filter Q l)))%nat.
Proof.
  induction l as [|x l IH]; intros Hnd Hpq; [cbn; lia|]. apply NoDup_cons in Hnd as [Hx Hnd].
  assert (length (filter P l) ≤ S (length (filter Q l)))%nat as IH' by (apply IH; [done|]; intros; apply Hpq; by right).
  rewrite !filter_cons. pose proof (Hpq x ltac:(by left)) as Hqx.
  destruct (decide (P x)) as [HP|HP], (decide (Q x)) as [HQ|HQ]; cbn [length]; try lia; try tauto.
  assert (x = b) as -> by (destruct (decide (x = b)); [done|tauto]).
  rewrite (filter_ext_in P Q); [lia|]. intros y Hy. rewrite (Hpq y) by (by right).
  split; [|naive_solver]. intros. split; [done|]. by intros ->.
Qed.

Lemma nfree_alloc m limit sb b : geo m limit sb → (∀ x, length (m x) = BSIZE) →
  dstart sb ≤ b < limit → (nfree m sb limit ≤ S (nfree (alloc_mem m sb b) sb limit))%nat.
Proof.
  intros Hg Hl Hb. pose proof Hg as (_ & _ & _ & Hd & _). unfold nfree.
  apply (filter_remove _ _ b); [apply NoDup_seqZ|].
  intros x Hx%elem_of_seqZ. rewrite (used_alloc m limit) by (done || lia).
  destruct (Z.eqb_spec b x) as [->|Hne]; cbn; [naive_solver|]. split; [by split|naive_solver].
Qed.
End keep.
