(* ===== verification/FsMap.v ===== *)
(** * The blocks of a file

    [baddr] is the address of the [n]th block of an inode, through the direct
    pointers or the indirect block; [fwf] says the pointers are to distinct
    data blocks in use.  The three ways [bmap] extends the map are shown to
    keep [fwf] and the contents of the file. *)

From S2P Require Import Prelude Bytes Spinlock Sched Bio BioSpec BufLayer Ondisk Log Txn CString Fs FsAlloc.
From Stdlib Require Import FunctionalExtensionality.

Section filemap.
Context (sb : superblock) (limit : Z).
Implicit Types (m : Z → block) (ad : list Z) (n : nat) (b : Z).

Definition addr_at ad n : Z := default 0 (ad !! n).

Definition baddr m ad n : Z :=
  if (n <? NDIRECT)%nat then addr_at ad n
  else if addr_at ad NDIRECT =? 0 then 0
  else get32 (4 * (n - NDIRECT)) (m (addr_at ad NDIRECT)).

(** A data block in use. *)
Definition dblk m b : Prop := dstart sb ≤ b < limit ∧ used m sb b = true.

Definition fwf m ad : Prop :=
  length ad = S NDIRECT ∧
  (∀ n, (n < MAXFILE)%nat → baddr m ad n ≠ 0 → dblk m (baddr m ad n)) ∧
  (addr_at ad NDIRECT ≠ 0 → dblk m (addr_at ad NDIRECT)) ∧
  (∀ n n', (n < MAXFILE)%nat → (n' < MAXFILE)%nat → baddr m ad n ≠ 0 →
     baddr m ad n = baddr m ad n' → n = n') ∧
  (∀ n, (n < MAXFILE)%nat → baddr m ad n ≠ 0 → baddr m ad n ≠ addr_at ad NDIRECT).

(** The contents of the [n]th block; a hole reads as zeros. *)
Definition fblock m ad n : block :=
  if baddr m ad n =? 0 then zero_block else m (baddr m ad n).

Definition blocks_ok m : Prop := ∀ x, length (m x) = BSIZE.

(** The file seen through [m'] and [ad'] is the one seen through [m] and [ad],
    with more of it allocated. *)
Definition ext m ad m' ad' : Prop :=
  fwf m' ad' ∧ geo m' limit sb ∧ blocks_ok m' ∧
  (∀ n, (n < MAXFILE)%nat → fblock m' ad' n = fblock m ad n) ∧
  (∀ n, (n < MAXFILE)%nat → baddr m ad n ≠ 0 → baddr m' ad' n = baddr m ad n) ∧
  (addr_at ad NDIRECT ≠ 0 → addr_at ad' NDIRECT = addr_at ad NDIRECT) ∧
  frame m m' sb (λ b, b = addr_at ad NDIRECT ∧ b ≠ 0) ∧
  (∀ b, b = addr_at ad' NDIRECT → b ≠ 0 → used m sb b = true → b = addr_at ad NDIRECT) ∧
  (∀ n, (n < MAXFILE)%nat → baddr m ad n = 0 → baddr m' ad' n ≠ 0 →
     used m sb (baddr m' ad' n) = false).

(** The blocks that hold the file. *)
Definition owned m ad b : Prop :=
  b ≠ 0 ∧ (b = addr_at ad NDIRECT ∨ ∃ n, (n < MAXFILE)%nat ∧ b = baddr m ad n).

Lemma addr_at_insert ad n b k : (n < length ad)%nat →
  addr_at (<[n := b]> ad) k = if decide (n = k) then b else addr_at ad k.
Proof.
  intros Hn. unfold addr_at. case_decide as E.
  - subst. by rewrite list_lookup_insert_eq.
  - by rewrite list_lookup_insert_ne.
Qed.

Lemma ext_refl m ad : fwf m ad → geo m limit sb → blocks_ok m → ext m ad m ad.
Proof. intros. by split_and!. Qed.

Lemma ext_trans m ad m1 ad1 m2 ad2 : ext m ad m1 ad1 → ext m1 ad1 m2 ad2 → ext m ad m2 ad2.
Proof.
  intros (A1 & A2 & A3 & A4 & A5 & A6 & A7 & A8 & A9) (B1 & B2 & B3 & B4 & B5 & B6 & B7 & B8 & B9).
  split_and!; try done.
  - intros n Hn. rewrite B4 by done. by apply A4.
  - intros n Hn Hz. rewrite B5 by (done || by rewrite A5). by apply A5.
  - intros Hz. rewrite B6 by (by rewrite A6). by apply A6.
  - eapply frame_trans; [done..|]. cbn. intros b Hu [-> Hz]. split; [|done]. by apply A8.
  - intros b -> Hz Hu. pose proof A7 as (_ & Hmon & _).
    destruct (decide (addr_at ad1 NDIRECT = 0)) as [E|E].
    + exfalso. destruct B1 as (_ & _ & Hd & _). destruct (Hd Hz) as [Hr Hu2].
      assert (0 ≤ addr_at ad2 NDIRECT < sb_size sb) as Hrange.
      { pose proof (dstart_pos _ _ _ A2). destruct A2 as (_ & _ & _ & ? & _). lia. }
      pose proof (B8 _ eq_refl Hz (Hmon _ Hrange Hu)). congruence.
    + rewrite B6 in * by done. by apply A8.
  - intros n Hn E0 E2. destruct (decide (baddr m1 ad1 n = 0)) as [E1|E1].
    + pose proof (B9 n Hn E1 E2) as Hu. destruct (used m sb (baddr m2 ad2 n)) eqn:Eu; [|done].
      destruct B1 as (_ & Hd & _). destruct (Hd n Hn E2) as [Hr _]. pose proof A7 as (_ & Hmon & _).
      pose proof (dstart_pos _ _ _ A2). destruct A2 as (_ & _ & _ & ? & _).
      assert (0 ≤ baddr m2 ad2 n < sb_size sb) as Hrg by lia.
      by rewrite (Hmon _ Hrg Eu) in Hu.
    + rewrite B5 by done. by apply A9.
Qed.

(** A block of the extended file that was in use before was one of the file's. *)
Lemma owned_ext m ad m' ad' b : ext m ad m' ad' → owned m' ad' b → used m sb b = true → owned m ad b.
Proof.
  intros (_ & _ & _ & _ & A5 & A6 & _ & A8 & A9) (Hz & Ho) Hu. split; [done|].
  destruct Ho as [Ho|(n & Hn & Ho)]; [left; by apply A8|]. right. exists n. split; [done|].
  destruct (decide (baddr m ad n = 0)) as [E|E].
  - rewrite Ho, (A9 n Hn E) in Hu; [done|]. by rewrite <- Ho.
  - by rewrite Ho, A5.
Qed.

Lemma frame_owned m ad m' ad' : ext m ad m' ad' → frame m m' sb (owned m ad).
Proof. intros (_ & _ & _ & _ & _ & _ & Hf & _). eapply frame_mono; [exact Hf|]. intros b [-> ?]. split; auto. Qed.

(** A free block is none of the file's. *)
Lemma fresh_not_file m ad b n : fwf m ad → used m sb b = false → (n < MAXFILE)%nat →
  baddr m ad n ≠ 0 → baddr m ad n ≠ b.
Proof. intros (_ & Hd & _) Hu Hn Hz E. destruct (Hd n Hn Hz) as [_ Hx]. congruence. Qed.

Lemma fresh_not_ind m ad b : fwf m ad → used m sb b = false → addr_at ad NDIRECT ≠ 0 →
  addr_at ad NDIRECT ≠ b.
Proof. intros (_ & _ & Hd & _) Hu Hz E. destruct (Hd Hz) as [_ Hx]. congruence. Qed.

(** Allocation leaves data blocks in use alone. *)
Lemma alloc_keeps m b x : geo m limit sb → blocks_ok m → dstart sb ≤ b < limit →
  used m sb b = false → dblk m x → alloc_mem m sb b x = m x.
Proof.
  intros Hg Hl Hb Hu [Hx Hux]. pose proof Hg as (_ & _ & _ & Hd & _).
  pose proof (dstart_pos _ _ _ Hg).
  destruct (frame_alloc m limit sb b Hg Hl Hb Hu) as (H1 & _). apply H1; try done; lia.
Qed.

(** One new block [b] at position [n], everything else as before. *)
Definition grown m ad m' ad' n b : Prop :=
  length ad' = length ad ∧ blocks_ok m' ∧
  (∀ k, baddr m' ad' k = if decide (k = n) then b else baddr m ad k) ∧
  addr_at ad' NDIRECT = addr_at ad NDIRECT ∧
  (∀ x, dblk m x → x ≠ addr_at ad NDIRECT → m' x = m x) ∧ m' b = zero_block ∧
  (∀ x, 0 ≤ x < sb_size sb → used m' sb x = (b =? x) || used m sb x) ∧
  frame m m' sb (λ x, x = addr_at ad NDIRECT ∧ x ≠ 0).

Lemma grown_ext m ad m' ad' n b : geo m limit sb → fwf m ad → blocks_ok m →
  dstart sb ≤ b < limit → used m sb b = false → (n < MAXFILE)%nat → baddr m ad n = 0 →
  grown m ad m' ad' n b → ext m ad m' ad'.
Proof.
  intros Hg Hf Hl Hb Hu Hn Hz (Elen & Hl' & Eb & Ei & Em & Ezero & Eu & Hfr).
  pose proof (dstart_pos _ _ _ Hg). pose proof Hg as (_ & _ & _ & Hd & _).
  pose proof Hf as (Flen & F1 & F2 & F3 & F4).
  assert (∀ x, dblk m x → dblk m' x) as Hmono.
  { intros x [Hx Hux]. split; [done|]. rewrite Eu by lia. by rewrite Hux, orb_true_r. }
  assert (dblk m' b) as Hdb by (split; [done|]; rewrite Eu by lia; by rewrite Z.eqb_refl).
  assert (∀ k, (k < MAXFILE)%nat → baddr m ad k ≠ 0 → baddr m ad k ≠ b) as Hne.
  { intros. by apply fresh_not_file. }
  split_and!; try done.
  - split_and!; [congruence| | | |]; rewrite ?Ei.
    + intros k Hk. rewrite Eb. case_decide; [done|]. intros. by apply Hmono, F1.
    + intros Hi. by apply Hmono, F2.
    + intros k k' Hk Hk'. rewrite !Eb. do 2 case_decide; subst; intros Hx E; try done.
      * destruct (decide (baddr m ad k' = 0)); [lia|]. by destruct (Hne k').
      * by destruct (Hne k).
      * by apply F3.
    + intros k Hk. rewrite Eb. case_decide; [|by apply F4]. intros _ E.
      destruct (decide (addr_at ad NDIRECT = 0)); [lia|]. by apply (fresh_not_ind m ad b).
  - by eapply frame_geo.
  - intros k Hk. unfold fblock. rewrite Eb. case_decide as E.
    + subst k. rewrite Hz, (proj2 (Z.eqb_neq b 0)) by lia. done.
    + destruct (Z.eqb_spec (baddr m ad k) 0); [done|]. apply Em; [by apply F1|by apply F4].
  - intros k Hk Hkz. rewrite Eb. case_decide; [by subst|done].
  - intros x -> _ _. by rewrite Ei.
  - intros k Hk Hkz. rewrite Eb. case_decide; [by intros _|done].
Qed.

(** Direct pointer [n]. *)
Lemma grown_direct m ad n b : geo m limit sb → fwf m ad → blocks_ok m → dstart sb ≤ b < limit →
  used m sb b = false → (n < NDIRECT)%nat → grown m ad (alloc_mem m sb b) (<[n := b]> ad) n b.
Proof.
  intros Hg Hf Hl Hb Hu Hn. pose proof Hf as (Flen & F1 & F2 & F3 & F4). unfold NDIRECT in *.
  assert (addr_at (<[n:=b]> ad) 10 = addr_at ad 10) as Ei.
  { rewrite addr_at_insert by lia. by rewrite decide_False by lia. }
  split_and!; try done.
  - by rewrite length_insert.
  - by intros ?; apply alloc_length.
  - intros k. unfold baddr, NDIRECT. rewrite Ei. destruct (Nat.ltb_spec k 10).
    + rewrite addr_at_insert by lia. destruct (decide (n = k)), (decide (k = n)); congruence.
    + rewrite decide_False by lia. destruct (Z.eqb_spec (addr_at ad 10) 0); [done|].
      rewrite alloc_keeps; [done..|]. by apply F2.
  - intros x Hx _. by apply alloc_keeps.
  - unfold alloc_mem. apply fn_lookup_insert.
  - intros x Hx. by apply (used_alloc m limit).
  - eapply frame_mono; [by eapply (frame_alloc m limit)|done].
Qed.

(** Entry [n] of the indirect block. *)
Lemma grown_indirect m ad n b : geo m limit sb → fwf m ad → blocks_ok m → dstart sb ≤ b < limit →
  used m sb b = false → b < 2 ^ 32 → (NDIRECT ≤ n < MAXFILE)%nat → addr_at ad NDIRECT ≠ 0 →
  let a := addr_at ad NDIRECT in
  let m1 := alloc_mem m sb b in
  grown m ad (<[a := put32 (4 * (n - NDIRECT)) b (m1 a)]> m1) ad n b.
Proof.
  intros Hg Hf Hl Hb Hu Hb32 Hn Hi a m1. pose proof Hf as (Flen & F1 & F2 & F3 & F4).
  pose proof (dstart_pos _ _ _ Hg) as Hds. pose proof Hg as (_ & Hni & _ & Hd & _).
  destruct (F2 Hi) as [Ha Hua]. fold a in Ha, Hua.
  assert (a ≠ b) as Hab by (by apply (fresh_not_ind m ad b)).
  assert (m1 a = m a) as Ema by (by apply alloc_keeps).
  assert (length (m1 a) = BSIZE) as Hla by (rewrite Ema; apply Hl).
  unfold MAXFILE, NDIRECT, BSIZE in *.
  assert (blocks_ok m1) as Hl1 by (by intros ?; apply alloc_length).
  split_and!; try done.
  - intros x. unfold insert, fn_insert. case_decide; [|apply Hl1]. rewrite put32_length; [done|unfold BSIZE; lia].
  - intros k. unfold baddr, NDIRECT. fold a. destruct (Nat.ltb_spec k 10).
    + rewrite decide_False by lia. done.
    + rewrite (proj2 (Z.eqb_neq a 0)) by done. rewrite fn_lookup_insert.
      case_decide as E.
      * subst k. rewrite get32_put32 by lia. apply wrap_small. lia.
      * destruct (decide (k < 138)%nat).
        -- rewrite get32_put32_other by lia. by rewrite Ema.
        -- unfold put32. rewrite <- Ema. unfold get32.
           assert (slice (4 * (k - 10)) 4 (m1 a) = []) as ->.
           { unfold slice. rewrite drop_ge by lia. done. }
           assert (slice (4 * (k - 10)) 4 (splice (4 * (n - 10)) (le_bytes 4 b) (m1 a)) = []) as ->; [|done].
           unfold slice. rewrite drop_ge; [done|]. rewrite splice_length; rewrite ?le_bytes_length; lia.
  - intros x Hx Hxa. rewrite fn_lookup_insert_ne by done. by apply alloc_keeps.
  - rewrite fn_lookup_insert_ne by done. unfold m1, alloc_mem. apply fn_lookup_insert.
  - intros x Hx. rewrite used_data by (done || lia). by apply (used_alloc m limit).
  - assert (frame m m1 sb (λ _, False)) as Hfa by (by eapply (frame_alloc m limit)).
    apply (frame_trans m m1 _ sb _ (λ x, x = a ∧ x ≠ 0)); [|apply (frame_data m1 limit)|done].
    + by eapply frame_mono.
    + by eapply frame_geo.
    + lia.
    + done.
Qed.

(** A fresh, empty indirect block. *)
Lemma baddr_new_indirect m ad b k : length ad = S NDIRECT → b ≠ 0 → addr_at ad NDIRECT = 0 →
  baddr (alloc_mem m sb b) (<[NDIRECT := b]> ad) k = baddr m ad k.
Proof.
  intros Flen Hb0 Hi. unfold baddr.
  assert (NDIRECT < length ad)%nat as Hlt by (rewrite Flen; lia).
  rewrite (addr_at_insert _ _ _ NDIRECT), decide_True, Hi by done.
  destruct (Nat.ltb_spec k NDIRECT) as [Hk|Hk].
  { rewrite addr_at_insert by done. by rewrite decide_False by lia. }
  rewrite (proj2 (Z.eqb_neq b 0)) by done. rewrite Z.eqb_refl. unfold alloc_mem.
  rewrite fn_lookup_insert. unfold get32, slice, zero_block.
  rewrite drop_replicate, take_replicate, le_val_zeros. done.
Qed.

Lemma ext_new_indirect m ad b : geo m limit sb → fwf m ad → blocks_ok m → dstart sb ≤ b < limit →
  used m sb b = false → addr_at ad NDIRECT = 0 →
  ext m ad (alloc_mem m sb b) (<[NDIRECT := b]> ad).
Proof.
  intros Hg Hf Hl Hb Hu Hi. pose proof Hf as (Flen & F1 & F2 & F3 & F4).
  pose proof (dstart_pos _ _ _ Hg) as Hds. pose proof Hg as (_ & Hni & _ & Hd & _).
  set (m1 := alloc_mem m sb b). set (ad1 := <[NDIRECT := b]> ad).
  assert (addr_at ad1 NDIRECT = b) as Ei.
  { unfold ad1. rewrite addr_at_insert by (unfold NDIRECT in *; lia). by rewrite decide_True. }
  assert (∀ k, baddr m1 ad1 k = baddr m ad k) as Eb by (intros; apply baddr_new_indirect; done || lia).
  assert (∀ x, dblk m x → dblk m1 x) as Hmono.
  { intros x [Hx Hux]. split; [done|]. unfold m1. rewrite (used_alloc m limit) by (done || lia).
    by rewrite Hux, orb_true_r. }
  assert (frame m m1 sb (λ x, x = addr_at ad NDIRECT ∧ x ≠ 0)) as Hfr.
  { eapply frame_mono; [by eapply (frame_alloc m limit)|done]. }
  split_and!; try done.
  - split_and!.
    + unfold ad1. by rewrite length_insert.
    + intros k Hk. rewrite Eb. intros. by apply Hmono, F1.
    + intros _. rewrite Ei. split; [done|]. unfold m1. rewrite (used_alloc m limit) by (done || lia).
      by rewrite Z.eqb_refl.
    + intros k k' Hk Hk'. rewrite !Eb. by apply F3.
    + intros k Hk. rewrite Eb, Ei. intros. by apply fresh_not_file.
  - by eapply frame_geo.
  - by intros ?; apply alloc_length.
  - intros k Hk. unfold fblock. rewrite Eb. destruct (Z.eqb_spec (baddr m ad k) 0); [done|].
    apply alloc_keeps; try done. by apply F1.
  - rewrite Ei. intros x -> _ Hx. congruence.
  - intros k Hk Hkz. rewrite Eb. done.
Qed.
End filemap.
