(* ===== verification/FsFile.v ===== *)
(** * Reading and writing files

    [bmap] finds or allocates a block of the file, and [readi] and [writei]
    are shown to read and overwrite ranges of the byte sequence [fbytes] the
    inode stands for. *)

From S2P Require Import Prelude Bytes Spinlock Sched Bio BioSpec BufLayer Ondisk Log Txn CString Fs FsAlloc FsMap.
From Stdlib Require Import FunctionalExtensionality.

Section run.
Context {T : Type} `{TxnLaws T} `{DevSw T}.
Implicit Types (s : fs T) (t : T) (ip : inode) (ad : list Z).

Abbreviation mem s := (v_mem (tview (f_t s))).
Abbreviation limit s := (tlimit (f_t s)).

Definition quiet t : Prop := ∀ h, v_busy (tview t) h = None.

(** A ready file system on a formatted disk, no buffer held. *)
Definition fsok s sb : Prop :=
  tready (f_t s) ∧ geo (mem s) (limit s) sb ∧ quiet (f_t s) ∧ sb_size sb < 2 ^ 32.

Lemma inode_of_ok s i ip : icache s !! i = Some ip → inode_of i s = Ok ip s.
Proof. intros E. unfold inode_of. go. by rewrite E. Qed.

Lemma set_inode_ok s i ip f : icache s !! i = Some ip →
  set_inode i f s = Ok tt (set_icache (<[i := f ip]> (icache s)) s).
Proof. intros E. unfold set_inode. go. rewrite E. by rewrite (list_alter_insert _ _ _ _ E). Qed.

Lemma quiet_unheld t bn : quiet t → unheld (tview t) bn.
Proof. intros Hq h E. by rewrite Hq in E. Qed.

Lemma quiet_held t sb : quiet t → held_data t sb.
Proof. intros Hq h bn E. by rewrite Hq in E. Qed.

Lemma fs_blocks_ok s sb : fsok s sb → blocks_ok (mem s).
Proof. intros ([Hi _] & _) x. by apply tmem_length. Qed.

Lemma tmod_quiet t t' m k : quiet t → tmod t t' m k → quiet t'.
Proof. intros Hq (_ & _ & _ & _ & _ & _ & _ & B & _) h. by rewrite B. Qed.

(** ** bmap *)

Definition with_addrs s i ip ad : list inode := <[i := i_set_addrs ad ip]> (icache s).

Lemma with_addrs_id s i ip : icache s !! i = Some ip → with_addrs s i ip (i_addrs ip) = icache s.
Proof. intros E. unfold with_addrs. apply list_insert_id. rewrite E. by destruct ip. Qed.

Lemma addr_lookup ad k : (k < length ad)%nat → ad !! k = Some (addr_at ad k).
Proof. intros Hk. unfold addr_at. by destruct (lookup_lt_is_Some_2 ad k Hk) as [x ->]. Qed.

Lemma addr_hit s i ip k : icache s !! i = Some ip → (k < length (i_addrs ip))%nat →
  addr_at (i_addrs ip) k ≠ 0 → addr_or_alloc i k s = Ok (addr_at (i_addrs ip) k) s.
Proof.
  intros Hip Hk Hz. unfold addr_or_alloc. step (inode_of_ok s i ip Hip).
  rewrite (addr_lookup _ _ Hk). erewrite bind_ok; [|reflexivity].
  by rewrite (proj2 (Z.eqb_neq _ 0)).
Qed.

Lemma addr_miss s i ip k b t' : icache s !! i = Some ip → (k < length (i_addrs ip))%nat →
  i_dev ip = ROOTDEV → addr_at (i_addrs ip) k = 0 → balloc ROOTDEV (f_t s) = Ok b t' →
  addr_or_alloc i k s = Ok b (mkFs t' (with_addrs s i ip (<[k := b]> (i_addrs ip)))).
Proof.
  intros Hip Hk Hd Hz Eb. unfold addr_or_alloc. step (inode_of_ok s i ip Hip).
  rewrite (addr_lookup _ _ Hk). erewrite bind_ok; [|reflexivity]. rewrite Hz. cbn [Z.eqb]. rewrite Hd.
  erewrite bind_ok; [|by apply lift_ok]. unfold set_addr.
  erewrite bind_ok; [|by apply set_inode_ok]. done.
Qed.

(** A block that is mapped is found without changing anything. *)
Lemma bmap_hit s sb i ip n : fsok s sb → icache s !! i = Some ip → i_dev ip = ROOTDEV →
  fwf sb (limit s) (mem s) (i_addrs ip) → (n < MAXFILE)%nat → baddr (mem s) (i_addrs ip) n ≠ 0 →
  (0 < v_avail (tview (f_t s)))%nat →
  ∃ t', bmap i (Z.of_nat n) s = Ok (baddr (mem s) (i_addrs ip) n) (set_ft t' s) ∧
    tview t' = tview (f_t s) ∧ tmod (f_t s) t' (mem s) 0.
Proof.
  intros (Hr & Hg & Hq & _) Hip Hd Hf Hn Hz Ha. pose proof Hf as (Hlen & _ & Hind & _).
  set (ad := i_addrs ip) in *. unfold bmap.
  unfold baddr in *. unfold NDIRECT, NINDIRECT, MAXFILE in *. destruct (Nat.ltb_spec n 10) as [Hlt|Hge].
  - rewrite (proj2 (Z.ltb_lt _ _)) by lia. rewrite Nat2Z.id.
    exists (f_t s). split; [|split; [done|by apply tmod_refl]].
    assert (set_ft (f_t s) s = s) as -> by (by destruct s). apply addr_hit; try done. fold ad. lia.
  - rewrite (proj2 (Z.ltb_ge _ _)) by lia. rewrite (proj2 (Z.ltb_lt _ _)) by lia.
    destruct (Z.eqb_spec (addr_at ad 10) 0) as [|Hi]; [done|].
    step (addr_hit s i ip 10 Hip ltac:(fold ad; lia) Hi). fold ad.
    step (inode_of_ok s i ip Hip). rewrite Hd.
    destruct (Hind Hi) as [Hr1 _]. pose proof (dstart_pos _ _ _ Hg).
    destruct (peek_block (f_t s) (addr_at ad 10)) as (h & t1 & t2 & E1 & E2 & E3 & V2 & Hm & _); try done.
    { lia. } { by apply quiet_unheld. } { by right. }
    erewrite bind_ok; [|apply lift_ok; exact E1]. erewrite bind_ok; [|apply lift_ok; exact E2].
    replace (Z.to_nat (Z.of_nat n - Z.of_nat 10)) with (n - 10)%nat by lia.
    rewrite (proj2 (Z.eqb_neq _ 0)) by done. erewrite bind_ok; [|reflexivity].
    erewrite bind_ok; [|apply lift_ok; exact E3]. exists t2. by destruct s.
Qed.

Lemma balloc_fs t sb : tready t → ttxn t → geo (v_mem (tview t)) (tlimit t) sb → held_data t sb →
  budget t 2 → (0 < nfree (v_mem (tview t)) sb (tlimit t))%nat →
  ∃ b t', balloc ROOTDEV t = Ok b t' ∧ dstart sb ≤ b < tlimit t ∧
    used (v_mem (tview t)) sb b = false ∧ tmod t t' (alloc_mem (v_mem (tview t)) sb b) 2.
Proof.
  intros Hr Hx Hg Hh Hb Hn. destruct (nfree_pos _ _ _ Hn) as (b0 & Hb0 & Hu).
  destruct (balloc_ok t sb b0) as (b & t' & E & Hub & Hbr & _ & Hm); try done.
  exists b, t'. split_and!; try done; lia.
Qed.

(** The state after [bmap], with the file extended. *)
Definition bmapped s sb i ip n (a : Z) s' ad' : Prop :=
  icache s' = with_addrs s i ip ad' ∧ tmod (f_t s) (f_t s') (mem s') 5 ∧
  ext sb (limit s) (mem s) (i_addrs ip) (mem s') ad' ∧ a = baddr (mem s') ad' n ∧ a ≠ 0 ∧
  (nfree (mem s) sb (limit s) ≤ nfree (mem s') sb (limit s) + 2)%nat.

Lemma bmap_direct s sb i ip n : fsok s sb → ttxn (f_t s) → icache s !! i = Some ip →
  i_dev ip = ROOTDEV → fwf sb (limit s) (mem s) (i_addrs ip) → (n < NDIRECT)%nat →
  baddr (mem s) (i_addrs ip) n = 0 → budget (f_t s) 6 →
  (1 < nfree (mem s) sb (limit s))%nat →
  ∃ a s' ad', bmap i (Z.of_nat n) s = Ok a s' ∧ bmapped s sb i ip n a s' ad'.
Proof.
  intros Hok Hx Hip Hd Hf Hn Hz Hb Hnf. pose proof Hok as (Hr & Hg & Hq & _).
  pose proof (fs_blocks_ok s sb Hok) as Hl. pose proof Hf as (Hlen & _).
  destruct (balloc_fs (f_t s) sb) as (b & t1 & E1 & Hbr & Hu & Hm1); try done.
  { by apply quiet_held. } { eapply budget_weaken; [done|lia]. } { lia. }
  pose proof (dstart_pos _ _ _ Hg).
  set (ad := i_addrs ip) in *.
  assert (addr_at ad n = 0) as Ha.
  { unfold baddr in Hz. by rewrite (proj2 (Nat.ltb_lt _ _) Hn) in Hz. }
  pose proof Hm1 as (R1 & S1 & L1 & X1 & M1 & _).
  exists b, (mkFs t1 (with_addrs s i ip (<[n := b]> ad))), (<[n := b]> ad). split.
  { unfold bmap. rewrite (proj2 (Z.ltb_lt _ _)) by lia. rewrite Nat2Z.id.
    eapply addr_miss; try done. fold ad. unfold NDIRECT in *. lia. }
  pose proof (grown_direct sb (limit s) (mem s) ad n b Hg Hf Hl Hbr Hu Hn) as Hgr.
  assert (ext sb (limit s) (mem s) ad (alloc_mem (mem s) sb b) (<[n := b]> ad)) as He.
  { eapply grown_ext; try done. unfold MAXFILE, NDIRECT in *. lia. }
  split_and!; cbn [f_t icache]; rewrite ?M1; try done.
  - eapply tmod_weaken; [exact Hm1|lia].
  - destruct Hgr as (_ & _ & Eb & _). rewrite Eb. by rewrite decide_True.
  - lia.
  - pose proof (nfree_alloc (mem s) (limit s) sb b Hg Hl Hbr). lia.
Qed.

(** The entry of an indirect block that exists. *)
Lemma bmap_entry s sb i ip n : fsok s sb → ttxn (f_t s) → icache s !! i = Some ip →
  i_dev ip = ROOTDEV → fwf sb (limit s) (mem s) (i_addrs ip) → (NDIRECT ≤ n < MAXFILE)%nat →
  addr_at (i_addrs ip) NDIRECT ≠ 0 → baddr (mem s) (i_addrs ip) n = 0 → budget (f_t s) 4 →
  (0 < nfree (mem s) sb (limit s))%nat →
  ∃ a t', bmap i (Z.of_nat n) s = Ok a (set_ft t' s) ∧ tmod (f_t s) t' (v_mem (tview t')) 3 ∧
    ext sb (limit s) (mem s) (i_addrs ip) (v_mem (tview t')) (i_addrs ip) ∧
    a = baddr (v_mem (tview t')) (i_addrs ip) n ∧ a ≠ 0 ∧
    (nfree (mem s) sb (limit s) ≤ nfree (v_mem (tview t')) sb (limit s) + 1)%nat.
Proof.
  intros Hok Hx Hip Hd Hf Hn Hi Hz Hb Hnf. pose proof Hok as (Hr & Hg & Hq & H32).
  pose proof (fs_blocks_ok s sb Hok) as Hl. pose proof Hf as (Hlen & _ & Hind & _).
  set (ad := i_addrs ip) in *. set (ind := addr_at ad NDIRECT) in *.
  pose proof (dstart_pos _ _ _ Hg) as Hds. pose proof Hg as (_ & _ & _ & Hdl & _).
  destruct (Hind Hi) as [Hir Hiu]. destruct Hb as [Hb1 Hb2].
  destruct (run_tbread (f_t s) ind) as (h & t1 & E1 & F1 & (R1 & S1 & L1 & X1 & V1 & Q1)); try done.
  { lia. } { by apply quiet_unheld. } { right. lia. }
  assert (mem (set_ft t1 s) = mem s) as M1 by (cbn; by rewrite V1).
  assert (v_busy (tview t1) h = Some ind) as B1 by (rewrite V1; cbn; apply fn_lookup_insert).
  assert (v_avail (tview (f_t s)) ≤ v_avail (tview t1) + 1)%nat as A1.
  { rewrite V1. cbn. destruct (v_pin (tview (f_t s)) ind); lia. }
  destruct (balloc_fs t1 sb) as (b & t2 & E2 & Hbr & Hu & Hm2); try done; cbn in M1; rewrite ?M1, ?L1 in *; try done.
  { by apply X1. }
  { intros h' bn E. rewrite V1 in E. cbn in E. destruct (decide (h' = h)) as [->|Hne].
    - rewrite fn_lookup_insert in E. simplify_eq. rewrite M1. split; [lia|done].
    - rewrite fn_lookup_insert_ne in E by done. by rewrite Hq in E. }
  { unfold budget. lia. }
  pose proof Hm2 as (R2 & S2 & L2 & X2 & M2 & D2 & W2 & B2 & P2 & Q2 & A2).
  set (m1 := alloc_mem (mem s) sb b) in *. set (off := (4 * (n - NDIRECT))%nat).
  assert (length (m1 ind) = BSIZE) as Hli by (by apply alloc_length).
  assert (v_busy (tview t2) h = Some ind) as B2' by (by rewrite B2).
  destruct (run_tset t2 h ind (put32 off b (m1 ind))) as (t3 & E3 & (R3 & S3 & L3 & X3 & V3 & Q3)); try done.
  { rewrite put32_length; [done|]. unfold off, NDIRECT, MAXFILE, BSIZE in *. lia. }
  destruct (run_tlog_write t3 h ind) as (t4 & E4 & (R4 & S4 & L4 & X4 & V4 & Q4)); try done.
  { by apply X3, X2, X1. } { by rewrite V3. } { lia. } { lia. }
  destruct (run_tbrelse t4 h ind) as (t5 & E5 & (R5 & S5 & L5 & X5 & V5 & Q5)); try done.
  { by rewrite V4, V3. } { left. rewrite V4. cbn. apply fn_insert_same. }
  pose proof (grown_indirect sb (limit s) (mem s) ad n b Hg Hf Hl Hbr Hu ltac:(lia) Hn Hi) as Hgr.
  fold m1 ind off in Hgr.
  assert (v_mem (tview t5) = <[ind := put32 off b (m1 ind)]> m1) as M5.
  { rewrite V5, V4, V3. cbn. by rewrite M2. }
  assert (ext sb (limit s) (mem s) ad (v_mem (tview t5)) ad) as He.
  { rewrite M5. eapply grown_ext; try done. lia. }
  exists b, t5. rewrite M5 in *. split_and!; try done.
  - unfold bmap. unfold NDIRECT, NINDIRECT, MAXFILE in *.
    rewrite (proj2 (Z.ltb_ge _ _)) by lia. rewrite (proj2 (Z.ltb_lt _ _)) by lia.
    step (addr_hit s i ip 10 Hip ltac:(fold ad; lia) Hi). step (inode_of_ok s i ip Hip). rewrite Hd.
    fold ad ind. erewrite bind_ok; [|apply lift_ok; exact E1].
    erewrite bind_ok; [|apply lift_ok; exact (run_tdata t1 h ind R1 B1)].
    replace (Z.to_nat (Z.of_nat n - Z.of_nat 10)) with (n - 10)%nat by lia.
    rewrite M1. fold off.
    assert (get32 off (mem s ind) = 0) as ->.
    { unfold baddr, NDIRECT in Hz. rewrite (proj2 (Nat.ltb_ge _ _)) in Hz by lia.
      fold ind in Hz. by rewrite (proj2 (Z.eqb_neq ind 0)) in Hz. }
    cbn [Z.eqb]. erewrite bind_ok.
    2:{ erewrite bind_ok; [|apply lift_ok; exact E2].
        erewrite bind_ok; [|apply lift_ok; exact (run_tdata t2 h ind R2 B2')]. rewrite M2.
        erewrite bind_ok; [|apply lift_ok; exact E3]. erewrite bind_ok; [|apply lift_ok; exact E4].
        reflexivity. }
    erewrite bind_ok; [|apply lift_ok; exact E5]. done.
  - split_and!; try done.
    + by rewrite S1, S2, S3, S4.
    + congruence.
    + by rewrite X5, X4, X3, X2.
    + rewrite V5, V4, V3. cbn. by rewrite D2, V1.
    + rewrite V5, V4, V3. cbn. by rewrite W2, V1.
    + rewrite V5, V4, V3. cbn. rewrite B2, V1. cbn. fn_eq.
    + intros x Hp. rewrite V5, V4, V3. cbn. unfold insert, fn_insert. case_decide; [done|].
      apply P2. by rewrite V1.
    + lia.
    + rewrite V5, V4, V3. cbn. rewrite fn_insert_same. lia.
  - destruct Hgr as (_ & _ & Eb & _). rewrite Eb. by rewrite decide_True.
  - lia.
  - pose proof (nfree_alloc (mem s) (limit s) sb b Hg Hl Hbr) as Hnf'. fold m1 in Hnf'.
    assert (nfree (<[ind:=put32 off b (m1 ind)]> m1) sb (limit s) = nfree m1 sb (limit s)) as ->; [|lia].
    unfold nfree. f_equal. apply filter_ext_in. intros x Hxr%elem_of_seqZ.
    pose proof Hg as (_ & ? & _). by rewrite used_data by (done || lia).
Qed.

Lemma budget_le t k : budget t k → (0 < v_avail (tview t))%nat.
Proof. unfold budget. lia. Qed.

Lemma fsok_step s sb s' m k P : fsok s sb → tmod (f_t s) (f_t s') m k → frame (mem s) m sb P →
  fsok s' sb.
Proof.
  intros (Hr & Hg & Hq & H32) Hm Hfr. pose proof Hm as (R & _ & L & _ & M' & _).
  split_and!; try done; [|by eapply tmod_quiet]. rewrite M', L. by eapply frame_geo.
Qed.

(** The indirect block itself has to be allocated first. *)
Lemma bmap_indirect s sb i ip n : fsok s sb → ttxn (f_t s) → icache s !! i = Some ip →
  i_dev ip = ROOTDEV → fwf sb (limit s) (mem s) (i_addrs ip) → (NDIRECT ≤ n < MAXFILE)%nat →
  addr_at (i_addrs ip) NDIRECT = 0 → budget (f_t s) 6 →
  (1 < nfree (mem s) sb (limit s))%nat →
  ∃ a s' ad', bmap i (Z.of_nat n) s = Ok a s' ∧ bmapped s sb i ip n a s' ad'.
Proof.
  intros Hok Hx Hip Hd Hf Hn Hi Hb Hnf. pose proof Hok as (Hr & Hg & Hq & H32).
  pose proof (fs_blocks_ok s sb Hok) as Hl. pose proof Hf as (Hlen & _).
  set (ad := i_addrs ip) in *. pose proof (dstart_pos _ _ _ Hg).
  destruct (balloc_fs (f_t s) sb) as (b & t1 & E1 & Hbr & Hu & Hm1); try done.
  { by apply quiet_held. } { eapply budget_weaken; [done|lia]. } { lia. }
  pose proof Hm1 as (R1 & S1 & L1 & X1 & M1 & _).
  set (ad1 := <[NDIRECT := b]> ad). set (ip1 := i_set_addrs ad1 ip).
  set (s1 := mkFs t1 (with_addrs s i ip ad1)).
  assert (addr_or_alloc i NDIRECT s = Ok b s1) as Ea.
  { apply addr_miss; try done. fold ad. unfold NDIRECT in *. lia. }
  assert (ext sb (limit s) (mem s) ad (mem s1) ad1) as He1.
  { cbn [s1 f_t]. rewrite M1. by apply ext_new_indirect. }
  pose proof He1 as (F1 & G1 & _ & _ & _ & _ & Fr1 & _).
  assert (icache s1 !! i = Some ip1) as Hip1.
  { cbn. unfold with_addrs. apply list_lookup_insert_eq. eauto using lookup_lt_Some. }
  assert (addr_at ad1 NDIRECT = b) as Hi1.
  { unfold ad1. rewrite addr_at_insert by (unfold NDIRECT in *; lia). by rewrite decide_True. }
  assert (bmap i (Z.of_nat n) s = bmap i (Z.of_nat n) s1) as Eq.
  { unfold bmap. unfold NDIRECT, NINDIRECT, MAXFILE in *.
    rewrite (proj2 (Z.ltb_ge _ _)) by lia. rewrite (proj2 (Z.ltb_lt _ _)) by lia.
    step Ea. symmetry. erewrite bind_ok; [reflexivity|].
    rewrite <- Hi1 at 1. apply (addr_hit s1 i ip1); [done| |cbn; rewrite Hi1; lia].
    cbn. unfold ad1. rewrite length_insert. fold ad. lia. }
  assert (fsok s1 sb) as Hok1.
  { eapply (fsok_step s sb s1 _ 2 _ Hok Hm1). change (mem s1) with (v_mem (tview t1)) in Fr1.
    rewrite M1 in Fr1. exact Fr1. }
  destruct (bmap_entry s1 sb i ip1 n) as (a & t2 & E2 & Hm2 & He2 & Ha & Haz & Hnf2); try done.
  - by apply X1.
  - cbn. by rewrite L1.
  - change (addr_at ad1 NDIRECT ≠ 0). rewrite Hi1. lia.
  - change (baddr (v_mem (tview t1)) ad1 n = 0). rewrite M1. unfold ad1. rewrite baddr_new_indirect by (done || lia).
    unfold baddr. rewrite (proj2 (Nat.ltb_ge _ _)) by lia. by rewrite Hi.
  - eapply (budget_tmod (f_t s) _ _ 2); [done|exact Hm1].
  - change (0 < nfree (v_mem (tview t1)) sb (tlimit t1))%nat. rewrite L1, M1.
    pose proof (nfree_alloc (mem s) (limit s) sb b Hg Hl Hbr). lia.
  - exists a, (set_ft t2 s1), ad1. split; [by rewrite Eq|].
    cbn [f_t s1 set_ft icache] in *. rewrite L1 in *.
    split_and!; try done.
    + by eapply (tmod_trans (f_t s) t1 t2 _ _ 2 3).
    + by eapply ext_trans.
    + rewrite M1 in Hnf2. pose proof (nfree_alloc (mem s) (limit s) sb b Hg Hl Hbr). cbn [set_ft f_t]. lia.
Qed.

(** [bmap] inside a transaction finds or allocates the block and keeps the
    contents of the file. *)
Lemma bmap_ok s sb i ip n : fsok s sb → ttxn (f_t s) → icache s !! i = Some ip →
  i_dev ip = ROOTDEV → fwf sb (limit s) (mem s) (i_addrs ip) → (n < MAXFILE)%nat →
  budget (f_t s) 6 → (1 < nfree (mem s) sb (limit s))%nat →
  ∃ a s' ad', bmap i (Z.of_nat n) s = Ok a s' ∧ bmapped s sb i ip n a s' ad'.
Proof.
  intros Hok Hx Hip Hd Hf Hn Hb Hnf. pose proof (fs_blocks_ok s sb Hok) as Hl.
  pose proof Hok as (Hr & Hg & Hq & _).
  destruct (decide (baddr (mem s) (i_addrs ip) n = 0)) as [Hz|Hz].
  - destruct (decide (n < NDIRECT)%nat) as [Hdir|Hdir]; [by apply bmap_direct|].
    destruct (decide (addr_at (i_addrs ip) NDIRECT = 0)) as [Hi|Hi]; [apply bmap_indirect; done || lia|].
    destruct (bmap_entry s sb i ip n) as (a & t' & E & Hm & He & Ha & Haz & Hnf'); try done; try lia.
    { eapply budget_weaken; [done|lia]. }
    exists a, (set_ft t' s), (i_addrs ip). split; [done|]. split_and!; try done; cbn [f_t set_ft icache].
    + symmetry. by apply with_addrs_id.
    + eapply tmod_weaken; [exact Hm|lia].
    + lia.
  - destruct (bmap_hit s sb i ip n) as (t' & E & V & Hm); try done; [by eapply budget_le|].
    exists (baddr (mem s) (i_addrs ip) n), (set_ft t' s), (i_addrs ip). split; [done|].
    split_and!; cbn [f_t set_ft icache]; rewrite ?V; try done.
    + symmetry. by apply with_addrs_id.
    + eapply tmod_weaken; [exact Hm|lia].
    + lia.
Qed.
End run.
