(* ===== verification/FsRw.v ===== *)
(** * readi and writei

    [fbytes] is the byte sequence of a file of maximal size; the bytes past
    the allocated blocks are zero.  [readi] returns a range of it and
    [writei] overwrites a range, allocating blocks on the way. *)

From S2P Require Import Prelude Bytes Spinlock Sched Bio BioSpec BufLayer Ondisk Log Txn CString Fs FsAlloc FsMap FsFile.
From Stdlib Require Import FunctionalExtensionality.

(** ** Sequences of blocks *)

Section blocks.
Context (k : nat).
Implicit Types (l : list (list Z)).

Definition same_len l : Prop := Forall (λ b, length b = k) l.

Lemma concat_length l : same_len l → length (concat l) = (k * length l)%nat.
Proof. induction 1 as [|b l Hb _ IH]; cbn; [lia|]. rewrite length_app, IH, Hb. lia. Qed.

Lemma concat_split l i b : same_len l → l !! i = Some b →
  concat l = concat (take i l) ++ b ++ concat (drop (S i) l) ∧ length (concat (take i l)) = (k * i)%nat.
Proof.
  intros Hl Hi. split.
  - rewrite <- (take_drop_middle l i b Hi) at 1. by rewrite concat_app.
  - rewrite concat_length by (by apply Forall_take). rewrite length_take.
    apply lookup_lt_Some in Hi. f_equal. lia.
Qed.

Lemma slice_concat l i b o n : same_len l → l !! i = Some b → (o + n ≤ k)%nat →
  slice (k * i + o) n (concat l) = slice o n b.
Proof.
  intros Hl Hi Ho. destruct (concat_split l i b Hl Hi) as [-> Hlen].
  assert (length b = k) as Hb by (by eapply (Forall_lookup_1 _ _ _ _ Hl)).
  unfold slice. rewrite <- Hlen. rewrite <- drop_drop, drop_app_length.
  rewrite drop_app_le by lia. rewrite take_app_le; [done|]. rewrite length_drop. lia.
Qed.

Lemma splice_concat l i b o new : same_len l → l !! i = Some b → (o + length new ≤ k)%nat →
  splice (k * i + o) new (concat l) = concat (<[i := splice o new b]> l).
Proof.
  intros Hl Hi Ho. assert (length b = k) as Hb by (by eapply (Forall_lookup_1 _ _ _ _ Hl)).
  assert (i < length l)%nat by eauto using lookup_lt_Some.
  assert (same_len (<[i := splice o new b]> l)) as Hl'.
  { apply Forall_insert; [done|]. rewrite splice_length; [done|lia]. }
  destruct (concat_split l i b Hl Hi) as [-> Hlen].
  destruct (concat_split (<[i := splice o new b]> l) i (splice o new b) Hl') as [-> _];
    [by apply list_lookup_insert_eq|].
  rewrite take_insert_ge, drop_insert_lt by lia.
  set (p := concat (take i l)) in *. set (q := concat (drop (S i) l)).
  unfold splice. rewrite <- Hlen. rewrite take_app_ge by lia.
  replace (length p + o - length p)%nat with o by lia.
  rewrite (take_app_le b q) by lia. rewrite <- !app_assoc. do 3 f_equal.
  rewrite <- Nat.add_assoc, <- drop_drop, drop_app_length. by rewrite drop_app_le by lia.
Qed.
End blocks.

(** ** The contents of a file *)

Section content.
Context (sb : superblock) (limit : Z).
Implicit Types (m : Z → block) (ad : list Z).

Definition fblocks m ad : list block := fblock m ad <$> seq 0 MAXFILE.
Definition fbytes m ad : list Z := concat (fblocks m ad).

Lemma fblock_length m ad n : blocks_ok m → length (fblock m ad n) = BSIZE.
Proof. intros Hl. unfold fblock. destruct (baddr m ad n =? 0); [done|apply Hl]. Qed.

Lemma fblocks_len m ad : blocks_ok m → same_len BSIZE (fblocks m ad).
Proof. intros Hl. apply Forall_fmap, Forall_forall. intros n _. by apply fblock_length. Qed.

Lemma fblocks_lookup m ad n : (n < MAXFILE)%nat → fblocks m ad !! n = Some (fblock m ad n).
Proof. intros Hn. unfold fblocks. rewrite list_lookup_fmap, lookup_seq_lt by done. done. Qed.

Lemma fbytes_length m ad : blocks_ok m → length (fbytes m ad) = (BSIZE * MAXFILE)%nat.
Proof.
  intros Hl. unfold fbytes. rewrite (concat_length BSIZE) by (by apply fblocks_len).
  unfold fblocks. by rewrite length_fmap, length_seq.
Qed.

(** A range below [MAXBYTES] lies inside the file. *)
Lemma bytes_bound k : Z.of_nat k ≤ MAXBYTES → (k ≤ BSIZE * MAXFILE)%nat.
Proof. intros Hk. apply Nat2Z.inj_le. rewrite Nat2Z.inj_mul. exact Hk. Qed.

Lemma fbytes_ext m ad m' ad' : ext sb limit m ad m' ad' → fbytes m' ad' = fbytes m ad.
Proof.
  intros (_ & _ & _ & He & _). unfold fbytes. f_equal. apply list_fmap_ext.
  intros i n Hn. apply lookup_seq in Hn as [-> ?]. by apply He.
Qed.

(** Changing the contents of one mapped block. *)
Lemma fbytes_write m ad n o new : fwf sb limit m ad → blocks_ok m → (n < MAXFILE)%nat →
  baddr m ad n ≠ 0 → (o + length new ≤ BSIZE)%nat →
  let a := baddr m ad n in
  let m' := <[a := splice o new (m a)]> m in
  fbytes m' ad = splice (BSIZE * n + o) new (fbytes m ad) ∧ (∀ k, baddr m' ad k = baddr m ad k).
Proof.
  intros Hf Hl Hn Hz Ho a m'. pose proof Hf as (Hlen & F1 & F2 & F3 & F4).
  assert (∀ k, baddr m' ad k = baddr m ad k) as Eb.
  { intros k. unfold baddr. destruct (k <? NDIRECT)%nat; [done|].
    destruct (Z.eqb_spec (addr_at ad NDIRECT) 0); [done|]. unfold m'.
    rewrite fn_lookup_insert_ne; [done|]. by apply F4. }
  split; [|done]. unfold fbytes.
  rewrite (splice_concat BSIZE _ _ (fblock m ad n)) by (by apply fblocks_len || by apply fblocks_lookup || done).
  f_equal. apply list_eq. intros k.
  destruct (decide (k < MAXFILE)%nat) as [Hk|Hk].
  - rewrite fblocks_lookup by done. unfold fblock at 1. rewrite Eb.
    destruct (decide (n = k)) as [->|Hne].
    + rewrite list_lookup_insert_eq by (unfold fblocks; by rewrite length_fmap, length_seq).
      unfold fblock. rewrite (proj2 (Z.eqb_neq _ 0)) by done. unfold m', a. by rewrite fn_lookup_insert.
    + rewrite list_lookup_insert_ne, fblocks_lookup by done. unfold fblock.
      destruct (Z.eqb_spec (baddr m ad k) 0); [done|]. unfold m'.
      rewrite fn_lookup_insert_ne; [done|]. intros E. by destruct Hne; apply F3.
  - rewrite !lookup_ge_None_2; [done| |]; rewrite ?length_insert; unfold fblocks;
      rewrite length_fmap, length_seq; lia.
Qed.

Lemma fwf_write m ad n d : fwf sb limit m ad → geo m limit sb → (n < MAXFILE)%nat → baddr m ad n ≠ 0 →
  let m' := <[baddr m ad n := d]> m in
  (∀ k, baddr m' ad k = baddr m ad k) ∧ fwf sb limit m' ad ∧ frame m m' sb (owned m ad) ∧
  (∀ b, 0 ≤ b < sb_size sb → used m' sb b = used m sb b).
Proof.
  intros Hf Hg Hn Hz m'. pose proof Hf as (Hlen & F1 & F2 & F3 & F4).
  pose proof (dstart_pos _ _ _ Hg) as Hds. pose proof Hg as (_ & Hni & _ & Hd & _).
  destruct (F1 n Hn Hz) as [Ha Hua].
  assert (∀ k, baddr m' ad k = baddr m ad k) as Eb.
  { intros k. unfold baddr. destruct (k <? NDIRECT)%nat; [done|].
    destruct (Z.eqb_spec (addr_at ad NDIRECT) 0); [done|]. unfold m'.
    rewrite fn_lookup_insert_ne; [done|]. by apply F4. }
  assert (∀ b, 0 ≤ b < sb_size sb → used m' sb b = used m sb b) as Eu.
  { intros b Hb. unfold m'. by rewrite used_data by (done || lia). }
  assert (∀ b, dblk sb limit m b → dblk sb limit m' b) as Hmono.
  { intros b [Hb Hub]. split; [done|]. by rewrite Eu by lia. }
  split_and!; try done.
  - split_and!; try done.
    + intros k Hk. rewrite Eb. intros. by apply Hmono, F1.
    + intros Hi. by apply Hmono, F2.
    + intros k k' Hk Hk'. rewrite !Eb. by apply F3.
    + intros k Hk. rewrite Eb. by apply F4.
  - eapply (frame_data m limit); try done; [lia|]. split; [done|]. right. by exists n.
Qed.

Lemma owned_range m ad b : fwf sb limit m ad → owned m ad b → dstart sb ≤ b < limit.
Proof.
  intros (_ & F1 & F2 & _) (Hz & [->|(n & Hn & ->)]); [by apply F2|by apply F1].
Qed.

(** Two files that share no block. *)
Definition apart m ad ad2 : Prop := ∀ b, owned m ad2 b → ¬ owned m ad b.

Lemma same_map m m' ad : (∀ b, dblk sb limit m b → owned m ad b → m' b = m b) → fwf sb limit m ad →
  (∀ b, dblk sb limit m b → dblk sb limit m' b) →
  (∀ k, baddr m' ad k = baddr m ad k) ∧ fwf sb limit m' ad ∧ fbytes m' ad = fbytes m ad.
Proof.
  intros Hs (Hlen & F1 & F2 & F3 & F4) Hmono.
  assert (∀ k, baddr m' ad k = baddr m ad k) as Eb.
  { intros k. unfold baddr. destruct (k <? NDIRECT)%nat; [done|].
    destruct (Z.eqb_spec (addr_at ad NDIRECT) 0) as [|Hz]; [done|].
    rewrite Hs; [done|by apply F2|]. split; [done|by left]. }
  split_and!; try done.
  - split_and!; try done.
    + intros k Hk. rewrite Eb. intros. by apply Hmono, F1.
    + intros. by apply Hmono, F2.
    + intros k k' Hk Hk'. rewrite !Eb. by apply F3.
    + intros k Hk. rewrite Eb. by apply F4.
  - unfold fbytes. f_equal. apply list_fmap_ext. intros j k Hk.
    apply lookup_seq in Hk as [E Hk]. cbn [Nat.add] in E. subst k. unfold fblock. rewrite Eb.
    destruct (Z.eqb_spec (baddr m ad j) 0); [done|]. apply Hs; [by apply F1|]. split; [done|]. right. by exists j.
Qed.

Lemma owned_same m m' ad b : (∀ k, (k < MAXFILE)%nat → baddr m' ad k = baddr m ad k) →
  owned m' ad b ↔ owned m ad b.
Proof.
  intros Eb. unfold owned. apply and_iff_compat_l, or_iff_compat_l.
  split; intros (k & Hk & ->); exists k; by rewrite Eb.
Qed.

(** A change framed by the blocks of one file leaves the others alone. *)
Lemma frame_apart m m' ad ad' ad2 : geo m limit sb → fwf sb limit m ad2 → apart m ad ad2 →
  frame m m' sb (owned m ad) → (∀ b, owned m' ad' b → used m sb b = true → owned m ad b) →
  fwf sb limit m' ad2 ∧ fbytes m' ad2 = fbytes m ad2 ∧ apart m' ad' ad2 ∧
  ∀ k, (k < MAXFILE)%nat → baddr m' ad2 k = baddr m ad2 k.
Proof.
  intros Hg Hf Hap (G1 & G2 & _) Hnew. pose proof (dstart_pos _ _ _ Hg) as Hds.
  pose proof Hg as (_ & _ & _ & Hd & _).
  destruct (same_map m m' ad2) as (Eb & Hf' & Ec); try done.
  { intros b [Hb Hu] Ho. apply G1; try done; try lia. by apply Hap. }
  { intros b [Hb Hu]. split; [done|]. apply G2; [lia|done]. }
  split_and!; try done. intros b Ho Ho'. rewrite owned_same in Ho by (intros; apply Eb).
  apply (Hap b Ho). apply Hnew; [done|].
  destruct Hf as (_ & F1 & F2 & _). destruct Ho as (Hz & [->|(k & Hk & ->)]); [by apply F2|by apply F1].
Qed.

Lemma nfree_same m m' : 0 ≤ limit ≤ sb_size sb → (∀ b, 0 ≤ b < sb_size sb → used m' sb b = used m sb b) →
  nfree m' sb limit = nfree m sb limit.
Proof.
  intros Hl Hu. unfold nfree. f_equal. apply filter_ext_in. intros x Hx%elem_of_seqZ.
  by rewrite Hu by lia.
Qed.
End content.

(** ** Running the loops *)

Section run.
Context {T : Type} `{TxnLaws T} `{DevSw T}.
Implicit Types (s : fs T) (t : T) (ip : inode) (ad : list Z).

Abbreviation mem s := (v_mem (tview (f_t s))).
Abbreviation limit s := (tlimit (f_t s)).
Abbreviation BS := (Z.of_nat BSIZE).

(** The inode [i] is cached, on the root disk and well formed. *)
Definition file_ok s sb i ip : Prop :=
  icache s !! i = Some ip ∧ i_dev ip = ROOTDEV ∧ fwf sb (limit s) (mem s) (i_addrs ip) ∧
  0 ≤ i_size ip ≤ MAXBYTES.

Definition content s ip : list Z := fbytes (mem s) (i_addrs ip).

(** No holes below the size. *)
Definition mapped s ip : Prop :=
  ∀ k, (k < MAXFILE)%nat → Z.of_nat k * BS < i_size ip → baddr (mem s) (i_addrs ip) k ≠ 0.

Lemma off_split off : 0 ≤ off → off = BS * (off / BS) + off mod BS ∧ 0 ≤ off mod BS < BS ∧ 0 ≤ off / BS.
Proof.
  intros Ho. pose proof (Z.div_mod off BS). pose proof (Z.mod_pos_bound off BS).
  assert (0 < BS) by (unfold BSIZE; lia). split_and!; try lia. apply Z.div_pos; lia.
Qed.

Lemma off_block off : 0 ≤ off < MAXBYTES → (Z.to_nat (off / BS) < MAXFILE)%nat.
Proof.
  intros Ho. assert (off / BS < 138); [|unfold MAXFILE; lia].
  apply Z.div_lt_upper_bound; unfold MAXBYTES, BSIZE in *; lia.
Qed.

(** The bytes one iteration copies. *)
Definition chunk (n tot off : Z) : Z := Z.min (n - tot) (BS - off mod BS).

Lemma chunk_range n tot off : 0 ≤ off → tot < n → 0 < chunk n tot off ≤ n - tot ∧
  off mod BS + chunk n tot off ≤ BS.
Proof. intros Ho Ht. unfold chunk. destruct (off_split off Ho) as (_ & ? & _). lia. Qed.

Lemma read_step_ok s sb i ip n tot off acc : fsok s sb → file_ok s sb i ip → mapped s ip →
  0 ≤ off → tot < n → off + (n - tot) ≤ i_size ip → (0 < v_avail (tview (f_t s)))%nat →
  let m := chunk n tot off in
  ∃ t', read_step i n (tot, off, acc) s =
      Ok (inl (tot + m, off + m, acc ++ slice (Z.to_nat off) (Z.to_nat m) (content s ip))) (set_ft t' s) ∧
    tview t' = tview (f_t s) ∧ tmod (f_t s) t' (mem s) 0.
Proof.
  intros Hok (Hip & Hd & Hf & Hsz) Hmap Ho Ht Hle Ha m.
  destruct (chunk_range n tot off Ho Ht) as [Hm1 Hm2]. fold m in Hm1, Hm2.
  destruct (off_split off Ho) as (Eo & Hmod & Hdiv).
  pose proof (off_block off ltac:(lia)) as Hk. set (k := Z.to_nat (off / BS)) in *.
  assert (baddr (mem s) (i_addrs ip) k ≠ 0) as Hz by (apply Hmap; [done|lia]).
  destruct (bmap_hit s sb i ip k) as (t1 & E1 & V1 & M1); try done.
  pose proof Hok as (Hr & Hg & Hq & _). pose proof Hf as (_ & F1 & _). destruct (F1 k Hk Hz) as [Hrg _].
  pose proof M1 as (R1 & S1 & L1 & _). pose proof (dstart_pos _ _ _ Hg).
  destruct (peek_block t1 (baddr (mem s) (i_addrs ip) k)) as (h & t2 & t3 & E2 & E3 & E4 & V3 & M3 & _); try done.
  { rewrite L1. lia. } { apply quiet_unheld. intros h. by rewrite V1. } { right. by rewrite V1. }
  exists t3. split; [|split; [congruence|]].
  - unfold read_step. rewrite (proj2 (Z.leb_gt n tot)) by lia.
    replace (off / BS) with (Z.of_nat k) by lia. step E1.
    step (inode_of_ok (set_ft t1 s) i ip Hip). rewrite Hd.
    erewrite bind_ok; [|apply lift_ok; exact E2]. erewrite bind_ok; [|apply lift_ok; exact E3].
    erewrite bind_ok; [|apply lift_ok; exact E4]. fold (chunk n tot off). fold m.
    assert (slice (Z.to_nat off) (Z.to_nat m) (content s ip) =
      slice (Z.to_nat (off mod BS)) (Z.to_nat m) (fblock (mem s) (i_addrs ip) k)) as ->.
    { replace (Z.to_nat off) with (BSIZE * k + Z.to_nat (off mod BS))%nat by lia.
      apply slice_concat; [apply fblocks_len; by eapply fs_blocks_ok|by apply fblocks_lookup|lia]. }
    unfold fblock. rewrite (proj2 (Z.eqb_neq _ 0)) by done. by rewrite V1.
  - rewrite V1 in M3. by eapply (tmod_trans (f_t s) t1 t3 _ _ 0 0).
Qed.

Lemma view_fsok s sb t' : fsok s sb → tview t' = tview (f_t s) → tmod (f_t s) t' (mem s) 0 →
  fsok (set_ft t' s) sb.
Proof.
  intros (Hr & Hg & Hq & H32) V (R & _ & L & _). unfold fsok. cbn [f_t set_ft]. rewrite V, L.
  split_and!; try done. intros h. rewrite V. apply Hq.
Qed.

Lemma view_file_ok s sb i ip t' : file_ok s sb i ip → tview t' = tview (f_t s) →
  tlimit t' = tlimit (f_t s) → file_ok (set_ft t' s) sb i ip.
Proof. intros Hf V L. unfold file_ok in *. cbn [f_t set_ft icache]. by rewrite V, L. Qed.

Lemma read_loop fuel s sb i ip n tot off acc : fsok s sb → file_ok s sb i ip → mapped s ip →
  0 ≤ off → tot ≤ n → off + (n - tot) ≤ i_size ip → (0 < v_avail (tview (f_t s)))%nat →
  (Z.to_nat (n - tot) < fuel)%nat →
  ∃ t', loopM fuel (read_step i n) (tot, off, acc) s =
      Ok (acc ++ slice (Z.to_nat off) (Z.to_nat (n - tot)) (content s ip)) (set_ft t' s) ∧
    tview t' = tview (f_t s) ∧ tmod (f_t s) t' (mem s) 0.
Proof.
  revert s tot off acc. induction fuel as [|fuel IH]; intros s tot off acc Hok Hf Hmap Ho Ht Hle Ha Hfu; [lia|].
  cbn [loopM]. destruct (decide (tot = n)) as [->|Hne].
  - exists (f_t s). unfold read_step. rewrite (proj2 (Z.leb_le n n)) by lia.
    rewrite Z.sub_diag. cbn. rewrite app_nil_r. split; [by destruct s|]. split; [done|]. apply tmod_refl, Hok.
  - destruct (read_step_ok s sb i ip n tot off acc) as (t1 & E1 & V1 & M1); try done; [lia|].
    destruct (chunk_range n tot off Ho ltac:(lia)) as [Hm1 _]. set (m := chunk n tot off) in *.
    step E1. pose proof M1 as (_ & _ & L1 & _).
    destruct (IH (set_ft t1 s) (tot + m) (off + m) (acc ++ slice (Z.to_nat off) (Z.to_nat m) (content s ip)))
      as (t2 & E2 & V2 & M2); cbn [f_t set_ft]; rewrite ?V1; try done; try lia.
    { by apply view_fsok. } { by apply view_file_ok. }
    { intros k Hk Hs. cbn [f_t set_ft]. rewrite V1. by apply Hmap. }
    exists t2. cbn [f_t set_ft] in *. rewrite V1 in *. split; [|split; [done|]].
    + rewrite E2. f_equal. unfold content. cbn [f_t set_ft]. rewrite V1, <- app_assoc. f_equal.
      replace (Z.to_nat (n - tot)) with (Z.to_nat m + Z.to_nat (n - (tot + m)))%nat by lia.
      rewrite slice_app_split. do 2 f_equal. lia.
    + by eapply (tmod_trans (f_t s) t1 t2 _ _ 0 0).
Qed.

(** [readi] returns the bytes from [off] on, as many as there are. *)
Lemma readi_ok s sb i ip off n : fsok s sb → file_ok s sb i ip → mapped s ip → i_type ip ≠ T_DEV →
  0 ≤ off ≤ i_size ip → 0 ≤ n → off + n < 2 ^ 32 → (0 < v_avail (tview (f_t s)))%nat →
  let n' := Z.min n (i_size ip - off) in
  ∃ t', readi i off n s =
      Ok (n', slice (Z.to_nat off) (Z.to_nat n') (content s ip)) (set_ft t' s) ∧
    tview t' = tview (f_t s) ∧ tmod (f_t s) t' (mem s) 0.
Proof.
  intros Hok Hf Hmap Hty Ho Hn Hov Ha n'. pose proof Hf as (Hip & _ & _ & Hsz).
  destruct (read_loop (S (Z.to_nat n')) s sb i ip n' 0 off []) as (t' & E & V & M1); try done; try lia.
  exists t'. split; [|done]. unfold readi. step (inode_of_ok s i ip Hip).
  rewrite (proj2 (Z.eqb_neq _ _)) by done. rewrite (proj2 (Z.ltb_ge _ _)) by lia.
  rewrite wrap_small by lia. rewrite (proj2 (Z.ltb_ge _ _)) by lia. cbn [orb].
  assert ((if i_size ip <? off + n then i_size ip - off else n) = n') as ->.
  { unfold n'. destruct (Z.ltb_spec (i_size ip) (off + n)); lia. }
  step E. rewrite Z.sub_0_r. done.
Qed.

(** Reading past the end, or a range that wraps around, is refused. *)
Lemma readi_refused s i ip off n : icache s !! i = Some ip → i_type ip ≠ T_DEV →
  i_size ip < off ∨ u32 (off + n) < off → readi i off n s = Ok (-1, []) s.
Proof.
  intros Hip Hty Hb. unfold readi. step (inode_of_ok s i ip Hip).
  rewrite (proj2 (Z.eqb_neq _ _)) by done. destruct Hb as [Hb|Hb].
  - by rewrite (proj2 (Z.ltb_lt _ _)) by lia.
  - rewrite (proj2 (Z.ltb_lt (u32 (off + n)) off)) by lia. by rewrite orb_true_r.
Qed.

(** ** Writing *)

(** From [s] to [s'] the bytes [data] were written at [off] of the file [i]:
    at most [k] blocks were logged and [c] allocated, and no block of another
    file changed. *)
Definition wrote s s' sb i ip ad' (off : Z) (data : list Z) (k c : nat) : Prop :=
  let ad := i_addrs ip in
  icache s' = with_addrs s i ip ad' ∧ tmod (f_t s) (f_t s') (mem s') k ∧
  fwf sb (limit s) (mem s') ad' ∧
  fbytes (mem s') ad' = splice (Z.to_nat off) data (content s ip) ∧
  frame (mem s) (mem s') sb (owned (mem s) ad) ∧
  (∀ b, owned (mem s') ad' b → used (mem s) sb b = true → owned (mem s) ad b) ∧
  (∀ n, (n < MAXFILE)%nat → baddr (mem s) ad n ≠ 0 → baddr (mem s') ad' n ≠ 0) ∧
  (∀ n, (n < MAXFILE)%nat → data ≠ [] → off / BS ≤ Z.of_nat n →
     Z.of_nat n * BS < off + Z.of_nat (length data) → baddr (mem s') ad' n ≠ 0) ∧
  (nfree (mem s) sb (limit s) ≤ nfree (mem s') sb (limit s) + c)%nat.

Lemma splice_app {A} (o : nat) (d1 d2 l : list A) : (o + length d1 + length d2 ≤ length l)%nat →
  splice (o + length d1) d2 (splice o d1 l) = splice o (d1 ++ d2) l.
Proof.
  intros Hl. apply list_eq. intros i.
  rewrite !lookup_splice by (rewrite ?splice_length, ?length_app; lia). rewrite length_app.
  destruct (decide (o + length d1 ≤ i < o + length d1 + length d2)%nat).
  - rewrite !bool_decide_true by lia. rewrite lookup_app_r by lia. f_equal. lia.
  - rewrite bool_decide_false by lia. destruct (decide (o ≤ i < o + length d1)%nat).
    + rewrite !bool_decide_true by lia. by rewrite lookup_app_l by lia.
    + by rewrite !bool_decide_false by lia.
Qed.

Lemma wrote_inode s s' sb i ip ad' off data k c : wrote s s' sb i ip ad' off data k c →
  icache s !! i = Some ip → icache s' !! i = Some (i_set_addrs ad' ip).
Proof.
  intros (E & _) Hip. rewrite E. apply list_lookup_insert_eq. eauto using lookup_lt_Some.
Qed.

Lemma wrote_trans s s1 s2 sb i ip ad1 ad2 off d1 d2 k1 k2 c1 c2 :
  icache s !! i = Some ip → 0 ≤ off → blocks_ok (mem s) → geo (mem s) (limit s) sb →
  off + Z.of_nat (length d1 + length d2) ≤ MAXBYTES →
  wrote s s1 sb i ip ad1 off d1 k1 c1 →
  wrote s1 s2 sb i (i_set_addrs ad1 ip) ad2 (off + Z.of_nat (length d1)) d2 k2 c2 →
  wrote s s2 sb i ip ad2 off (d1 ++ d2) (k1 + k2) (c1 + c2).
Proof.
  intros Hip Ho Hl Hg Hlen (A1 & A2 & A3 & A4 & A5 & A6 & A7 & A8 & A9) (B1 & B2 & B3 & B4 & B5 & B6 & B7 & B8 & B9).
  pose proof A2 as (_ & _ & L1 & _). rewrite L1 in *. cbn [i_addrs i_set_addrs] in *.
  split_and!.
  - rewrite B1. unfold with_addrs. rewrite A1. unfold with_addrs. by rewrite list_insert_insert_eq.
  - by eapply tmod_trans.
  - done.
  - rewrite B4. unfold content at 1. cbn [i_addrs i_set_addrs]. rewrite A4.
    replace (Z.to_nat (off + Z.of_nat (length d1))) with (Z.to_nat off + length d1)%nat by lia.
    apply splice_app. unfold content. rewrite fbytes_length by done. apply bytes_bound. lia.
  - eapply frame_trans; [exact A5|exact B5|]. auto.
  - intros b Hb Hu. apply A6; [|done]. apply B6; [done|]. destruct A5 as (_ & Hmon & _).
    pose proof (owned_range _ _ _ _ _ B3 Hb). pose proof (dstart_pos _ _ _ Hg).
    destruct Hg as (_ & _ & _ & ? & _). apply Hmon; [lia|done].
  - auto.
  - intros n Hn Hne H1' H2'. rewrite length_app in H2'. destruct d1 as [|x d1].
    { cbn [length app] in *. apply B8; try done; [by rewrite Z.add_0_r|lia]. }
    destruct (decide (Z.of_nat n * BS < off + Z.of_nat (length (x :: d1)))); [apply B7; [done|]; by apply A8|].
    apply B8; [done| | |lia].
    + intros ->. cbn [length] in *. lia.
    + apply Z.div_le_upper_bound; [unfold BSIZE; lia|]. lia.
  - lia.
Qed.

Lemma write_step_ok s sb i ip src n tot off : fsok s sb → ttxn (f_t s) → file_ok s sb i ip →
  0 ≤ off → 0 ≤ tot < n → off + (n - tot) ≤ MAXBYTES → n ≤ Z.of_nat (length src) →
  budget (f_t s) 6 → (1 < nfree (mem s) sb (limit s))%nat →
  let m := chunk n tot off in
  ∃ s' ad', write_step i src n (tot, off) s = Ok (inl (tot + m, off + m)) s' ∧
    wrote s s' sb i ip ad' off (slice (Z.to_nat tot) (Z.to_nat m) src) 6 2.
Proof.
  intros Hok Hx (Hip & Hd & Hf & Hsz) Ho Ht Hle Hsrc Hb Hnf m.
  destruct (chunk_range n tot off Ho ltac:(lia)) as [Hm1 Hm2]. fold m in Hm1, Hm2.
  destruct (off_split off Ho) as (Eo & Hmod & Hdiv).
  pose proof (off_block off ltac:(lia)) as Hk. set (k := Z.to_nat (off / BS)) in *.
  destruct (bmap_ok s sb i ip k) as (a & s1 & ad' & E1 & Hbm); try done.
  pose proof Hbm as (I1 & M1 & X1 & Ea & Haz & N1).
  pose proof X1 as (W1 & G1 & L1 & _ & Hsame & _ & Fr1 & _ & Hnew).
  pose proof M1 as (R1 & S1 & Lim1 & T1 & _).
  assert (fsok s1 sb) as Hok1 by (by eapply fsok_step).
  pose proof Hok1 as (_ & Hg1 & Hq1 & _). rewrite Lim1 in Hg1. pose proof (dstart_pos _ _ _ Hg1) as Hds.
  assert (icache s1 !! i = Some (i_set_addrs ad' ip)) as Hip1.
  { rewrite I1. apply list_lookup_insert_eq. eauto using lookup_lt_Some. }
  pose proof W1 as (_ & F1 & _). rewrite Ea in Haz. destruct (F1 k Hk Haz) as [Har Hau]. rewrite <- Ea in Haz, Har, Hau.
  set (o := Z.to_nat (off mod BS)). set (data := slice (Z.to_nat tot) (Z.to_nat m) src).
  assert (length data = Z.to_nat m) as Hdl by (apply slice_length; lia).
  pose proof (budget_tmod (f_t s) (f_t s1) _ 5 1 Hb M1) as Hb1. destruct Hb1 as [Hb1 Hb2].
  destruct (run_tbread (f_t s1) a) as (h & t2 & E2 & F2 & (R2 & S2 & L2 & T2 & V2 & Q2)); try done.
  { rewrite Lim1. lia. } { by apply quiet_unheld. } { right. lia. }
  assert (v_busy (tview t2) h = Some a) as B2 by (rewrite V2; cbn; apply fn_lookup_insert).
  destruct (update_block (f_t s1) t2 h a (splice o data (mem s1 a))) as (t3 & t4 & t5 & E3 & E4 & E5 & M5 & _);
    try done; try lia.
  { by apply T2, T1. } { rewrite splice_length; [apply L1|]. rewrite L1. unfold BSIZE in *. lia. }
  exists (set_ft t5 s1), ad'. split.
  - unfold write_step. rewrite (proj2 (Z.leb_gt n tot)) by lia.
    replace (off / BS) with (Z.of_nat k) by lia. step E1. step (inode_of_ok s1 i _ Hip1).
    cbn [i_dev i_set_addrs]. rewrite Hd. erewrite bind_ok; [|apply lift_ok; exact E2].
    fold (chunk n tot off). fold m.
    erewrite bind_ok; [|apply lift_ok; exact (run_tdata t2 h a R2 B2)].
    rewrite V2. cbn [open_view v_mem]. fold o data.
    erewrite bind_ok; [|apply lift_ok; exact E3]. erewrite bind_ok; [|apply lift_ok; exact E4].
    erewrite bind_ok; [|apply lift_ok; exact E5]. done.
  - pose proof M5 as (_ & _ & _ & _ & Mem5 & _).
    destruct (fwf_write sb (limit s) (mem s1) ad' k (splice o data (mem s1 a))) as (Eb & W5 & Fr5 & Eu); try done.
    { by rewrite <- Ea. }
    destruct (fbytes_write sb (limit s) (mem s1) ad' k o data) as (Ef & _); try done.
    { by rewrite <- Ea. } { unfold BSIZE in *. lia. }
    rewrite <- Ea in Eb, W5, Fr5, Eu, Ef.
    assert (mem (set_ft t5 s1) = <[a := splice o data (mem s1 a)]> (mem s1)) as Em by exact Mem5.
    unfold wrote. rewrite Em. cbn [f_t set_ft icache]. split_and!; try done.
    + rewrite <- Mem5. eapply (tmod_trans (f_t s) (f_t s1) t5 _ _ 5 1); [exact M1|].
      rewrite Mem5. exact M5.
    + rewrite Ef. unfold content. rewrite (fbytes_ext sb (limit s) _ _ _ _ X1). f_equal. lia.
    + eapply frame_trans; [by eapply frame_owned|exact Fr5|]. cbn. intros b Hu Hb'. by eapply owned_ext.
    + intros b [Hz Hb'] Hu. eapply owned_ext; [exact X1| |done]. split; [done|].
      destruct Hb' as [->|(n' & Hn' & ->)]; [by left|right; exists n']. split; [done|]. by rewrite Eb.
    + intros n' Hn' Hz. rewrite Eb. by rewrite Hsame.
    + intros n' Hn' _ H1' H2'. rewrite Eb. rewrite Hdl in H2'.
      assert (Z.of_nat n' < Z.of_nat k + 1) as Hlt
        by (apply (Z.mul_lt_mono_pos_r BS); unfold BSIZE in *; lia).
      assert (n' = k) as -> by lia. by rewrite <- Ea.
    + rewrite (nfree_same sb (limit s) (mem s1) (<[a := splice o data (mem s1 a)]> (mem s1)));
        [exact N1| |exact Eu].
      destruct Hg1 as (_ & _ & _ & ? & _). lia.
Qed.

(** The number of blocks a write of [r] bytes at [off] touches. *)
Definition iters (off r : Z) : nat :=
  if r <=? 0 then 0 else Z.to_nat ((off mod BS + r + BS - 1) / BS).

Lemma iters_chunk n tot off : 0 ≤ off → tot < n →
  (S (iters (off + chunk n tot off) (n - (tot + chunk n tot off))) ≤ iters off (n - tot))%nat.
Proof.
  intros Ho Ht. destruct (chunk_range n tot off Ho Ht) as [Hm1 Hm2].
  destruct (off_split off Ho) as (Eo & Hmod & Hdiv). set (m := chunk n tot off) in *.
  unfold iters at 2. rewrite (proj2 (Z.leb_gt (n - tot) 0)) by lia.
  assert (0 < BS) as HB by (unfold BSIZE; lia).
  assert (1 ≤ (off mod BS + (n - tot) + BS - 1) / BS) as Hge1 by (apply Z.div_le_lower_bound; lia).
  unfold iters. destruct (Z.leb_spec (n - (tot + m)) 0); [lia|].
  assert (m = BS - off mod BS) as Em by (unfold m, chunk in *; lia).
  assert ((off + m) mod BS = 0) as ->.
  { rewrite Em. replace (off + (BS - off mod BS)) with ((off / BS + 1) * BS) by lia.
    by apply Z.mod_mul; lia. }
  replace (off mod BS + (n - tot) + BS - 1) with (0 + (n - (tot + m)) + BS - 1 + 1 * BS) by lia.
  rewrite Z.div_add by lia.
  pose proof (Z.div_pos (0 + (n - (tot + m)) + BS - 1) BS). lia.
Qed.

Lemma wrote_nil s sb i ip off : fsok s sb → file_ok s sb i ip → 0 ≤ off →
  wrote s s sb i ip (i_addrs ip) off [] 0 0.
Proof.
  intros Hok (Hip & Hd & Hf & Hsz) Ho. unfold wrote. split_and!; try done.
  - symmetry. by apply with_addrs_id.
  - apply tmod_refl, Hok.
  - by rewrite splice_nil.
  - lia.
Qed.

Lemma wrote_state s s' sb i ip ad' off data k c : fsok s sb → ttxn (f_t s) → file_ok s sb i ip →
  wrote s s' sb i ip ad' off data k c →
  fsok s' sb ∧ ttxn (f_t s') ∧ file_ok s' sb i (i_set_addrs ad' ip) ∧ limit s' = limit s.
Proof.
  intros Hok Hx (Hip & Hd & Hf & Hsz) Hw. pose proof Hw as (A1 & A2 & A3 & A4 & A5 & _).
  pose proof A2 as (_ & _ & L & X & _). split_and!; try done.
  - by eapply fsok_step.
  - by apply X.
  - split_and!; [by eapply wrote_inode|done|by cbn [i_addrs i_set_addrs]; rewrite L|
      cbn [i_size i_set_addrs]; lia..].
Qed.

Lemma write_loop fuel s sb i ip src n tot off : fsok s sb → ttxn (f_t s) → file_ok s sb i ip →
  0 ≤ off → 0 ≤ tot ≤ n → off + (n - tot) ≤ MAXBYTES → n ≤ Z.of_nat (length src) →
  let c := iters off (n - tot) in
  budget (f_t s) (6 * c) → (2 * c ≤ nfree (mem s) sb (limit s))%nat → (Z.to_nat (n - tot) < fuel)%nat →
  ∃ s' ad', loopM fuel (write_step i src n) (tot, off) s = Ok (off + (n - tot)) s' ∧
    wrote s s' sb i ip ad' off (slice (Z.to_nat tot) (Z.to_nat (n - tot)) src) (6 * c) (2 * c).
Proof.
  revert s ip tot off. induction fuel as [|fuel IH];
    intros s ip tot off Hok Hx Hf Ho Ht Hle Hsrc c Hb Hnf Hfu; [lia|].
  cbn [loopM]. destruct (decide (tot = n)) as [->|Hne].
  - exists s, (i_addrs ip). unfold write_step. rewrite (proj2 (Z.leb_le n n)) by lia.
    rewrite Z.sub_diag, Z.add_0_r. split; [done|].
    assert (c = 0%nat) as -> by (unfold c, iters; by rewrite Z.sub_diag).
    change (slice (Z.to_nat n) (Z.to_nat 0) src) with (@nil Z). by apply wrote_nil.
  - pose proof (iters_chunk n tot off Ho ltac:(lia)) as Hit. fold c in Hit. clearbody c.
    destruct (chunk_range n tot off Ho ltac:(lia)) as [Hm1 Hm2].
    assert (budget (f_t s) 6) as Hb6 by (eapply budget_weaken; [exact Hb|lia]).
    assert (1 < nfree (mem s) sb (limit s))%nat as Hnf1 by lia.
    assert (0 ≤ tot < n) as Htn by lia.
    destruct (write_step_ok s sb i ip src n tot off Hok Hx Hf Ho Htn Hle Hsrc Hb6 Hnf1)
      as (s1 & ad1 & E1 & W1).
    set (m := chunk n tot off) in *. clearbody m.
    remember (iters (off + m) (n - (tot + m))) as c' eqn:Ec'.
    destruct (wrote_state s s1 sb i ip ad1 _ _ _ _ Hok Hx Hf W1) as (Hok1 & Hx1 & Hf1 & L1).
    pose proof W1 as (_ & M1 & _ & _ & _ & _ & _ & _ & N1).
    destruct (IH s1 (i_set_addrs ad1 ip) (tot + m) (off + m)) as (s2 & ad2 & E2 & W2); try done; try lia.
    { rewrite <- Ec'. eapply (budget_tmod (f_t s) (f_t s1) _ 6); [|exact M1].
      eapply budget_weaken; [exact Hb|]. lia. }
    { rewrite <- Ec', L1. lia. }
    exists s2, ad2. step E1. split; [rewrite E2; f_equal; lia|].
    pose proof Hf as (Hip & _). rewrite <- Ec' in W2.
    assert (length (slice (Z.to_nat tot) (Z.to_nat m) src) = Z.to_nat m) as Hl1 by (apply slice_length; lia).
    assert (length (slice (Z.to_nat (tot + m)) (Z.to_nat (n - (tot + m))) src) = Z.to_nat (n - (tot + m)))
      as Hl2 by (apply slice_length; lia).
    replace (Z.to_nat (n - tot)) with (Z.to_nat m + Z.to_nat (n - (tot + m)))%nat by lia.
    rewrite slice_app_split. replace (Z.to_nat tot + Z.to_nat m)%nat with (Z.to_nat (tot + m)) by lia.
    assert (wrote s s2 sb i ip ad2 off (slice (Z.to_nat tot) (Z.to_nat m) src ++
      slice (Z.to_nat (tot + m)) (Z.to_nat (n - (tot + m))) src) (6 + 6 * c') (2 + 2 * c')) as Hw.
    { eapply wrote_trans; try done.
      - by eapply fs_blocks_ok.
      - apply Hok.
      - rewrite Hl1, Hl2. lia.
      - rewrite Hl1. replace (off + Z.of_nat (Z.to_nat m)) with (off + m) by lia. exact W2. }
    destruct Hw as (A1 & A2 & A3 & A4 & A5 & A6 & A7 & A8 & A9). split_and!; try done; [|lia].
    eapply tmod_weaken; [exact A2|lia].
Qed.

(** ** iupdate *)

Lemma IBLOCK_range sb inum : 0 ≤ inum < sb_ninodes sb →
  2 ≤ IBLOCK inum < BBLOCK 0 (sb_ninodes sb).
Proof.
  intros Hi. unfold IBLOCK, BBLOCK, BPB, IPB. rewrite Z.div_0_l by lia.
  pose proof (Z.div_pos inum 8). pose proof (Z.div_le_mono inum (sb_ninodes sb) 8). lia.
Qed.

(** The memory after [iupdate] of [ip]. *)
Definition iupdate_mem (m : Z → block) ip : Z → block :=
  let b := IBLOCK (i_inum ip) in
  <[b := put_dinode (i_inum ip) (i_store ip (get_dinode (i_inum ip) (m b))) (m b)]> m.

Lemma dinode_enc_length d : length (di_addrs d) = S NDIRECT → length (dinode_enc d) = DINODE.
Proof.
  intros Ha. unfold dinode_enc. rewrite !length_app, !le_bytes_length, words_length, Ha. done.
Qed.

Lemma dip_off_fits inum (d : block) : length d = BSIZE → (dip_off inum + DINODE ≤ length d)%nat.
Proof.
  intros ->. unfold dip_off, DINODE, IPB, BSIZE. pose proof (Z.mod_pos_bound inum 8). lia.
Qed.

Lemma iupdate_ok s sb i ip : fsok s sb → ttxn (f_t s) → file_ok s sb i ip →
  0 ≤ i_inum ip < sb_ninodes sb → budget (f_t s) 1 →
  ∃ t', iupdate i s = Ok tt (set_ft t' s) ∧ tmod (f_t s) t' (iupdate_mem (mem s) ip) 1.
Proof.
  intros Hok Hx (Hip & Hd & Hf & _) Hin [Hb1 Hb2]. pose proof Hok as (Hr & Hg & Hq & _).
  pose proof (dstart_pos _ _ _ Hg). pose proof (IBLOCK_range sb (i_inum ip) Hin).
  pose proof Hg as (_ & Hn & Hs & Hdl & _). pose proof (BBLOCK_range 0 sb Hn ltac:(lia)).
  set (b := IBLOCK (i_inum ip)) in *. pose proof (fs_blocks_ok s sb Hok b) as Hlb.
  destruct (run_tbread (f_t s) b) as (h & t1 & E1 & F1 & (R1 & S1 & L1 & X1 & V1 & Q1)); try done.
  { lia. } { by apply quiet_unheld. } { right. lia. }
  assert (v_busy (tview t1) h = Some b) as B1 by (rewrite V1; cbn; apply fn_lookup_insert).
  destruct (update_block (f_t s) t1 h b (put_dinode (i_inum ip)
    (i_store ip (get_dinode (i_inum ip) (mem s b))) (mem s b))) as (t2 & t3 & t4 & E2 & E3 & E4 & Hm & _);
    try done; try lia.
  { by apply X1. }
  { unfold put_dinode. rewrite splice_length; [done|].
    rewrite dinode_enc_length; [by apply dip_off_fits|]. by destruct Hf. }
  exists t4. split; [|done]. unfold iupdate. step (inode_of_ok s i ip Hip). rewrite Hd. fold b.
  erewrite bind_ok; [|apply lift_ok; exact E1].
  erewrite bind_ok; [|apply lift_ok; exact (run_tdata t1 h b R1 B1)].
  rewrite V1. cbn [open_view v_mem]. erewrite bind_ok; [|apply lift_ok; exact E2].
  erewrite bind_ok; [|apply lift_ok; exact E3]. erewrite lift_ok; [|exact E4]. done.
Qed.

(** The inode blocks are not part of any file, nor of the bitmap. *)
Lemma iupdate_keeps s sb ip ad : fsok s sb → 0 ≤ i_inum ip < sb_ninodes sb →
  fwf sb (limit s) (mem s) ad →
  fwf sb (limit s) (iupdate_mem (mem s) ip) ad ∧
  fbytes (iupdate_mem (mem s) ip) ad = fbytes (mem s) ad ∧
  (∀ b, 0 ≤ b < sb_size sb → used (iupdate_mem (mem s) ip) sb b = used (mem s) sb b) ∧
  (∀ k, (k < MAXFILE)%nat → baddr (iupdate_mem (mem s) ip) ad k = baddr (mem s) ad k).
Proof.
  intros Hok Hin Hf. pose proof Hok as (_ & Hg & _).
  pose proof (dstart_pos _ _ _ Hg). pose proof (IBLOCK_range sb (i_inum ip) Hin) as Hi.
  pose proof Hg as (_ & Hn & Hs & Hdl & _). pose proof (BBLOCK_range 0 sb Hn ltac:(lia)).
  set (m' := iupdate_mem (mem s) ip).
  assert (∀ b, BBLOCK 0 (sb_ninodes sb) ≤ b → m' b = mem s b) as Hsame.
  { intros b Hb. unfold m', iupdate_mem. by rewrite fn_lookup_insert_ne by lia. }
  assert (∀ b, 0 ≤ b < sb_size sb → used m' sb b = used (mem s) sb b) as Hu.
  { intros b Hb. unfold used. rewrite Hsame; [done|]. apply BBLOCK_ge. lia. }
  assert (∀ b, dblk sb (limit s) (mem s) b → m' b = mem s b) as Hdb.
  { intros b [Hb _]. apply Hsame. lia. }
  destruct (same_map sb (limit s) (mem s) m' ad) as (Eb & Hf' & Ec); try done.
  { intros b Hb _. by apply Hdb. }
  { intros b [Hb Hub]. split; [done|]. by rewrite Hu by lia. }
Qed.

(** ** writei *)

(** The result of writing [n] bytes at [off]: the inode [ip'] with its
    contents changed in that range, its size grown if needed, and recorded on
    the disk when it grew. *)
Definition written s s' sb i ip ip' (off : Z) (data : list Z) (k c : nat) : Prop :=
  icache s' = <[i := ip']> (icache s) ∧ tmod (f_t s) (f_t s') (mem s') k ∧
  fsok s' sb ∧ file_ok s' sb i ip' ∧
  ip' = i_set_size (Z.max (i_size ip) (if decide (data = []) then 0 else off + Z.of_nat (length data)))
          (i_set_addrs (i_addrs ip') ip) ∧
  content s' ip' = splice (Z.to_nat off) data (content s ip) ∧
  (mapped s ip → mapped s' ip') ∧
  (∀ ad2, fwf sb (limit s) (mem s) ad2 → apart (mem s) (i_addrs ip) ad2 →
     fwf sb (limit s) (mem s') ad2 ∧ fbytes (mem s') ad2 = fbytes (mem s) ad2 ∧
     apart (mem s') (i_addrs ip') ad2 ∧
     ∀ k, (k < MAXFILE)%nat → baddr (mem s') ad2 k = baddr (mem s) ad2 k) ∧
  (nfree (mem s) sb (limit s) ≤ nfree (mem s') sb (limit s) + c)%nat.

Lemma i_set_size_id x ip : i_size ip = x → i_set_size x ip = ip.
Proof. intros <-. by destruct ip. Qed.

Lemma writei_grow s sb i ip off : fsok s sb → ttxn (f_t s) → file_ok s sb i ip →
  0 ≤ i_inum ip < sb_ninodes sb → 0 ≤ off ≤ MAXBYTES → budget (f_t s) 1 →
  let ip' := i_set_size off ip in
  ∃ s', (set_inode i (i_set_size off) ;;; iupdate i) s = Ok tt s' ∧
    icache s' = <[i := ip']> (icache s) ∧ tmod (f_t s) (f_t s') (mem s') 1 ∧ fsok s' sb ∧
    file_ok s' sb i ip' ∧ content s' ip' = content s ip ∧
    (∀ ad, fwf sb (limit s) (mem s) ad → fwf sb (limit s) (mem s') ad ∧
       fbytes (mem s') ad = fbytes (mem s) ad ∧
       ∀ k, (k < MAXFILE)%nat → baddr (mem s') ad k = baddr (mem s) ad k) ∧
    nfree (mem s') sb (limit s) = nfree (mem s) sb (limit s).
Proof.
  intros Hok Hx (Hip & Hd & Hf & Hsz) Hin Ho Hb ip'. pose proof Hok as (Hr & Hg & Hq & H32).
  set (s1 := set_icache (<[i := ip']> (icache s)) s).
  assert (file_ok s1 sb i ip') as Hf1.
  { split_and!; try done; cbn [i_size ip' i_set_size]; try lia.
    cbn. apply list_lookup_insert_eq. eauto using lookup_lt_Some. }
  destruct (iupdate_ok s1 sb i ip') as (t' & E & Hm); try done.
  destruct (iupdate_keeps s sb ip' (i_addrs ip)) as (K1 & K2 & K3 & K4); try done.
  pose proof Hm as (R' & S' & L' & X' & M' & _). change (mem s1) with (mem s) in M', Hm.
  assert (geo (iupdate_mem (mem s) ip') (limit s) sb) as Hg'.
  { eapply geo_same; [exact Hg| |].
    - unfold iupdate_mem. apply fn_lookup_insert_ne. pose proof (IBLOCK_range sb (i_inum ip') Hin). lia.
    - intros b Hb' Hu. by rewrite K3. }
  exists (set_ft t' s1). split.
  { step (set_inode_ok s i ip (i_set_size off) Hip). exact E. }
  unfold content, fsok, file_ok. cbn [f_t set_ft icache]. rewrite M', L'. change (limit s1) with (limit s).
  split_and!; try done.
  - by eapply tmod_quiet.
  - apply Hf1.
  - cbn [ip' i_size i_set_size]. lia.
  - cbn [ip' i_size i_set_size]. lia.
  - intros ad Hfa. destruct (iupdate_keeps s sb ip' ad) as (J1 & J2 & _ & J4); done.
  - apply nfree_same; [|exact K3]. pose proof (dstart_pos _ _ _ Hg). destruct Hg as (_ & _ & _ & ? & _). lia.
Qed.

Lemma writei_ok s sb i ip src off n : fsok s sb → ttxn (f_t s) → file_ok s sb i ip →
  i_type ip ≠ T_DEV → 0 ≤ i_inum ip < sb_ninodes sb →
  0 ≤ off ≤ i_size ip → n = Z.of_nat (length src) → off + n ≤ MAXBYTES →
  budget (f_t s) (6 * iters off n + 1) → (2 * iters off n ≤ nfree (mem s) sb (limit s))%nat →
  ∃ s' ip', writei i src off n s = Ok n s' ∧
    written s s' sb i ip ip' off src (6 * iters off n + 1) (2 * iters off n).
Proof.
  intros Hok Hx Hf Hty Hin Ho Hn Hmax Hb Hnf. pose proof Hf as (Hip & Hd & Hfw & Hsz).
  destruct (write_loop (S (Z.to_nat n)) s sb i ip src n 0 off) as (s1 & ad1 & E1 & W1);
    rewrite ?Z.sub_0_r in *; try done; try lia.
  { eapply budget_weaken; [exact Hb|lia]. }
  generalize dependent (iters off n). intros c Hb Hnf W1.
  destruct (wrote_state s s1 sb i ip ad1 _ _ _ _ Hok Hx Hf W1) as (Hok1 & Hx1 & Hf1 & L1).
  assert (slice (Z.to_nat 0) (Z.to_nat n) src = src) as Es by (subst n; rewrite Nat2Z.id; apply slice_all).
  rewrite Es in W1. pose proof W1 as (A1 & A2 & A3 & A4 & A5 & A6 & A7 & A8 & A9).
  set (ip1 := i_set_addrs ad1 ip) in *.
  assert (fwf sb (limit s1) (mem s1) (i_addrs ip1)) as A3' by apply Hf1.
  assert (∀ ad2, fwf sb (limit s) (mem s) ad2 → apart (mem s) (i_addrs ip) ad2 →
    fwf sb (limit s) (mem s1) ad2 ∧ fbytes (mem s1) ad2 = fbytes (mem s) ad2 ∧
    apart (mem s1) ad1 ad2 ∧ ∀ k, (k < MAXFILE)%nat → baddr (mem s1) ad2 k = baddr (mem s) ad2 k) as Hother.
  { intros ad2 Ha2 Hap. eapply frame_apart; try done. apply Hok. }
  assert (icache s1 !! i = Some ip1) as Hip1 by (by eapply wrote_inode).
  assert (writei i src off n s = (whenM ((0 <? n) && (i_size ip1 <? off + n))
    (set_inode i (i_set_size (off + n)) ;;; iupdate i) ;;; ret n) s1) as Ew.
  { unfold writei. step (inode_of_ok s i ip Hip). rewrite (proj2 (Z.eqb_neq _ _)) by done.
    rewrite (proj2 (Z.ltb_ge (i_size ip) off)) by lia.
    rewrite wrap_small by (unfold MAXBYTES in *; lia). rewrite (proj2 (Z.ltb_ge (off + n) off)) by lia.
    cbn [orb]. rewrite (proj2 (Z.ltb_ge MAXBYTES (off + n))) by lia.
    step E1. step (inode_of_ok s1 i ip1 Hip1). done. }
  assert (i_size ip1 = i_size ip) as Esz by done. rewrite Ew, Esz. clear Ew.
  assert (budget (f_t s1) 1) as Hb1 by (by eapply (budget_tmod (f_t s) (f_t s1) _ (6 * c))).
  destruct (decide (0 < n ∧ i_size ip < off + n)) as [[Hn0 Hg]|Hng].
  - rewrite (proj2 (Z.ltb_lt 0 n)), (proj2 (Z.ltb_lt (i_size ip) _)) by lia. cbn [andb whenM].
    destruct (writei_grow s1 sb i ip1 (off + n)) as (s2 & E2 & I2 & M2 & Hok2 & Hf2 & C2 & K2 & N2);
      try done; try lia.
    step E2. exists s2, (i_set_size (off + n) ip1). split; [done|].
    split; [|split; [|split; [exact Hok2|split; [exact Hf2|split; [|split; [|split; [|split]]]]]]].
    + rewrite I2, A1. unfold with_addrs. by rewrite list_insert_insert_eq.
    + eapply tmod_trans; [exact A2|exact M2].
    + change (i_set_size (off + n) ip1 = i_set_size (Z.max (i_size ip)
        (if decide (src = []) then 0 else off + Z.of_nat (length src))) ip1). f_equal.
      rewrite decide_False by (destruct src; cbn in *; [lia|done]). lia.
    + rewrite C2. exact A4.
    + intros Hmap k Hk Hks. cbn [i_size i_set_size i_addrs] in *. rewrite (proj2 (proj2 (K2 _ A3'))) by done.
      destruct (decide (Z.of_nat k * BS < i_size ip)); [apply A7; [done|]; by apply Hmap|].
      apply A8; [done|by destruct src; cbn in *; [lia|]| |lia].
      apply Z.div_le_upper_bound; [unfold BSIZE; lia|]. lia.
    + intros ad2 Ha2 Hap. destruct (Hother ad2 Ha2 Hap) as (B1 & B2 & B3 & B4). rewrite L1 in K2.
      destruct (K2 ad2 B1) as (D1 & D2 & D3). split; [done|]. split; [by rewrite D2|].
      split; [|intros k Hk; by rewrite D3, B4]. intros b. rewrite (owned_same _ (mem s2)) by done. cbn [i_addrs i_set_size ip1 i_set_addrs].
      rewrite (owned_same _ (mem s2)) by apply (K2 ad1 A3). apply B3.
    + rewrite L1 in N2. rewrite N2. exact A9.
  - assert ((0 <? n) && (i_size ip <? off + n) = false) as ->.
    { destruct (Z.ltb_spec 0 n), (Z.ltb_spec (i_size ip) (off + n)); cbn; try done. lia. }
    cbn [whenM]. exists s1, ip1. split; [done|].
    split; [exact A1|split; [|split; [exact Hok1|split; [exact Hf1|split; [|split; [exact A4|split; [|split; [exact Hother|]]]]]]]].
    + eapply tmod_weaken; [exact A2|lia].
    + change (ip1 = i_set_size (Z.max (i_size ip)
        (if decide (src = []) then 0 else off + Z.of_nat (length src))) ip1).
      symmetry. apply i_set_size_id. rewrite Esz. case_decide; [lia|].
      destruct src; [done|cbn [length] in *]. lia.
    + intros Hmap k Hk Hks. apply A7; [done|]. by apply Hmap.
    + exact A9.
Qed.
End run.
