(* ===== verification/Mkfs.v ===== *)
(** * Making a file system image (tools/mkfs.c)

    The image file is a map from sectors to blocks with its length in
    sectors; [exit(1)] and a failed [assert] stop the program.  A file to be
    copied is its path and the results of the successive [read]s of it.  The
    host is little-endian, so [xshort] and [xint] are the identity on values
    of their width. *)

From S2P Require Import Prelude Bytes Bio Ondisk CString.

Module Mkfs.

Definition NINODES : Z := 200.
Definition FSSIZE : Z := 1000.
Definition nbitmap : Z := FSSIZE / (Z.of_nat BSIZE * 8) + 1.
Definition ninodeblocks : Z := NINODES / IPB + 1.
Definition nlog : Z := 30.
Definition nmeta : Z := 2 + ninodeblocks + nbitmap.
Definition nblocks : Z := FSSIZE - nlog - nmeta.

Record state := mkState {
  img : gmap Z block;       (* the sectors written so far *)
  nsect : Z;                (* length of the image file in sectors *)
  freeinode : Z;
  freeblock : Z
}.

Definition start : state := mkState ∅ 0 1 0.

Definition wsect (sec : Z) (buf : block) : M state unit :=
  modify (λ s, mkState (<[sec := buf]> (img s)) (Z.max (nsect s) (sec + 1)) (freeinode s) (freeblock s)).

Definition rsect (sec : Z) : M state block :=
  s ← get;
  if sec <? nsect s then ret (dread (img s) sec) else panic "read".

Definition winode (inum : Z) (ip : dinode) : M state unit :=
  buf ← rsect (IBLOCK inum);
  wsect (IBLOCK inum) (put_dinode inum ip buf).

Definition rinode (inum : Z) : M state dinode :=
  buf ← rsect (IBLOCK inum);
  ret (get_dinode inum buf).

Definition ialloc (type : Z) : M state Z :=
  s ← get;
  let inum := freeinode s in
  put (mkState (img s) (nsect s) (freeinode s + 1) (freeblock s)) ;;;
  winode inum (mkDinode type 0 0 1 99 1 0x700 0 (replicate (S NDIRECT) 0)) ;;;
  ret inum.

(** [buf[i/8] | (0x1 << (i%8))] for every [i < used]. *)
Definition set_used (buf : block) (i : nat) : block :=
  poke buf (i / 8) (Z.lor (peek buf (i / 8)) (2 ^ (Z.of_nat i mod 8))).

Definition balloc (used : Z) : M state unit :=
  if negb (used <? Z.of_nat BSIZE * 8) then panic "assert" else
  wsect (ninodeblocks + 2) (foldl set_used (replicate BSIZE 0) (seq 0 (Z.to_nat used))).

(** [freeblock++]. *)
Definition next_block : M state Z :=
  s ← get;
  put (mkState (img s) (nsect s) (freeinode s) (freeblock s + 1)) ;;;
  ret (freeblock s).

Definition set_addr (k : nat) (a : Z) (din : dinode) : dinode :=
  mkDinode (di_type din) (di_major din) (di_minor din) (di_nlink din) (di_ownerid din)
    (di_groupid din) (di_mode din) (di_size din) (<[k := a]> (di_addrs din)).
Definition set_size (x : Z) (din : dinode) : dinode :=
  mkDinode (di_type din) (di_major din) (di_minor din) (di_nlink din) (di_ownerid din)
    (di_groupid din) (di_mode din) x (di_addrs din).

(** [if(din.addrs[k] == 0) din.addrs[k] = freeblock++]. *)
Definition addr_or_new (k : nat) (din : dinode) : M state dinode :=
  a ← need (di_addrs din !! k);
  if a =? 0 then a ← next_block; ret (set_addr k a din) else ret din.

(** The sector of block [fbn], allocated if it has none. *)
Definition append_block (fbn : nat) (din : dinode) : M state (dinode * Z) :=
  if (fbn <? NDIRECT)%nat then
    din ← addr_or_new fbn din;
    x ← need (di_addrs din !! fbn);
    ret (din, x)
  else
    din ← addr_or_new NDIRECT din;
    a ← need (di_addrs din !! NDIRECT);
    indirect ← rsect a;
    let k := (4 * (fbn - NDIRECT))%nat in
    if get32 k indirect =? 0 then
      b ← next_block;
      wsect a (put32 k b indirect) ;;;
      ret (din, b)
    else ret (din, get32 k indirect).

Definition append_step (st : dinode * Z * list Z)
    : M state (dinode * Z * list Z + dinode * Z) :=
  let '(din, off, p) := st in
  match p with
  | [] => ret (inr (din, off))
  | _ =>
      let fbn := Z.to_nat (off / Z.of_nat BSIZE) in
      if negb (fbn <? MAXFILE)%nat then panic "assert" else
      r ← append_block fbn din;
      let n1 := Nat.min (length p) ((fbn + 1) * BSIZE - Z.to_nat off) in
      buf ← rsect r.2;
      wsect r.2 (splice (Z.to_nat off - fbn * BSIZE) (take n1 p) buf) ;;;
      ret (inl (r.1, off + Z.of_nat n1, drop n1 p))
  end.

Definition iappend (inum : Z) (p : list Z) : M state unit :=
  din ← rinode inum;
  r ← loopM (S (length p)) append_step (din, di_size din, p);
  winode inum (set_size r.2 r.1).

Definition chars (s : string) : list Z :=
  (λ c, Z.of_N (Ascii.N_of_ascii c)) <$> String.list_ascii_of_string s.

(** One iteration over the arguments: a path and the reads of the file. *)
Definition add_file (rootino : Z) (f : list Z * list (list Z)) : M state unit :=
  let name := if strncmp f.1 (chars ".fs/") 4 =? 0 then drop 4 f.1 else f.1 in
  if bool_decide (47 ∈ name) then panic "assert" else
  inum ← ialloc T_FILE;
  iappend rootino (dirent_enc (mkDirent (u16 inum) (strncpy name DIRSIZ))) ;;;
  for_all f.2 (iappend inum).

Definition main (files : list (list Z * list (list Z))) : M state unit :=
  modify (λ s, mkState (img s) (nsect s) (freeinode s) nmeta) ;;;
  for_all (seqZ 0 FSSIZE) (λ i, wsect i zero_block) ;;;
  wsect 1 (splice 0 (sb_enc (mkSb FSSIZE nblocks NINODES nlog)) zero_block) ;;;
  rootino ← ialloc T_DIR;
  if negb (rootino =? ROOTINO) then panic "assert" else
  iappend rootino (dirent_enc (mkDirent (u16 rootino) (strncpy (chars ".") DIRSIZ))) ;;;
  iappend rootino (dirent_enc (mkDirent (u16 rootino) (strncpy (chars "..") DIRSIZ))) ;;;
  for_all files (add_file rootino) ;;;
  din ← rinode rootino;
  winode rootino (set_size ((di_size din / Z.of_nat BSIZE + 1) * Z.of_nat BSIZE) din) ;;;
  s ← get;
  balloc (freeblock s).

End Mkfs.
