(* ===== verification/Boot.v ===== *)
(** * A booted machine

    A concrete machine on which the theorems are run: one CPU running
    process 0, the file system image mkfs makes of one small file, the
    cache and the log initialised by the kernel's own code. *)

From S2P Require Import Prelude Bytes Spinlock Sched Bio BioSpec BufLayer Ondisk Log LogSpec LogCrash LogOps LogThms Txn CString Fs FsAlloc FsMap FsFile FsRw Mkfs.
From Stdlib Require Import FunctionalExtensionality.

Definition boot_mach : mach :=
  mkMach (mkSmp 0 [mkCpu true 0 true (Some 0%nat)] (λ _, free_lock))
    (with_state RUNNING zero_proc :: replicate 63 zero_proc) 1 (Some 0%nat).

Definition boot_image : gmap Z block :=
  Mkfs.img (after (Mkfs.main [(Mkfs.chars "README", [Mkfs.chars "hello"])]) Mkfs.start).
Definition boot_sb : superblock := mkSb 1000 941 200 30.

(** A machine that starts with the disk [img] in memory. *)
Definition reboot_bio (img : gmap Z block) : bio :=
  after (ideinit img (1000 * 512) ;;; binit) (mkBio boot_mach boot_bufs ∅ 0 []).
Definition boot_bio : bio := reboot_bio boot_image.
Definition boot_log : log bio :=
  after initlog (mkLog boot_bio 0 0 0 false 0 0 (replicate LOGSIZE 0)).

(** The log inside a transaction. *)
Definition txn_log : log bio := set_out 1 false boot_log.

Lemma boot_image_length bn : length (dread boot_image bn) = BSIZE.
Proof.
  assert (map_Forall (λ _ b, length b = BSIZE) boot_image) as Hf.
  { apply (bool_decide_unpack _). vm_compute. exact I. }
  unfold dread. destruct (boot_image !! bn) as [b|] eqn:E; [by apply (Hf bn)|done].
Qed.

(** The view of a cache that holds nothing. *)
Definition fresh_view (d : Z → block) : bview := mkView d d (λ _, None) (λ _, false) NBUF [].

Lemma boot_mach_ok : mok boot_mach.
Proof. split; [|done]. eexists. split; [done|]. unfold cpu_bal. cbn. split_and!; lia || done. Qed.

Lemma reboot_bio_ok img : (∀ bn, length (dread img bn) = BSIZE) →
  let s := reboot_bio img in
  ready s ∧ view s = fresh_view (dread img) ∧ nblocks s = 1000 ∧
  locks (m_smp (bmach s)) = (λ _, free_lock).
Proof.
  intros Hl. set (s0 := mkBio boot_mach boot_bufs img 1000 []).
  destruct (binit_ok s0) as (s' & E & Hi & Hm & Hn & Ha); [done|exact Hl|].
  assert (reboot_bio img = s') as ->.
  { unfold reboot_bio, after. rewrite (bind_ok _ _ _ tt s0) by reflexivity. by rewrite E. }
  cbn [bio_m disksize memdisk dtrace s0] in *. clear E s0. cbn zeta.
  split; [|split; [exact Ha|split; [exact Hn|]]].
  - split; [split; [exact Hi|rewrite Hn; lia]|]. change (bmach s') with (bio_m s').
    rewrite Hm. split; [exact boot_mach_ok|]. split; unfold lfree; cbn [m_smp set_smp set_lock locks boot_mach].
    + apply fn_lookup_insert.
    + by rewrite fn_lookup_insert_ne.
  - change (bmach s') with (bio_m s'). rewrite Hm. cbn [m_smp set_smp set_lock locks boot_mach]. fn_eq.
Qed.

(** ** The log *)

Definition boot_writes : list (Z * block) := recover_writes 970 (dread boot_image).
Definition boot_mem : Z → block := replay boot_writes (dread boot_image).

Lemma boot_header : hdr_n (dread boot_image 970) = 0 ∧ sb_dec (dread boot_image 1) = boot_sb.
Proof. split; vm_compute; reflexivity. Qed.

Lemma initlog_fresh (s : bio) d : ready s → view s = fresh_view d → nblocks s = 1000 →
  locks (m_smp (bmach s)) = (λ _, free_lock) → hdr_n (d 970) = 0 → sb_dec (d 1) = boot_sb →
  let l := after initlog (mkLog s 0 0 0 false 0 0 (replicate LOGSIZE 0)) in
  linv l ∧ l_start l = 970 ∧ l_size l = 30 ∧ lh_n l = 0 ∧ l_outstanding l = 0 ∧
  l_committing l = false ∧ nblocks (l_buf l) = 1000 ∧
  view (l_buf l) = write_view_all (recover_writes 970 d) (fresh_view d) ∧
  locks (m_smp (bmach (l_buf l))) = (λ _, free_lock).
Proof.
  intros Hr Hv Hn Hk Hz Hsb. set (l0 := mkLog s 0 0 0 false 0 0 (replicate LOGSIZE 0)).
  assert (disk_of l0 = d) as Hd by (unfold disk_of; cbn [l0 l_buf]; by rewrite Hv).
  destruct (initlog_ok l0) as (l' & E & Hi & Hst & Hsz & Hlh & Ho & Hc & Hnb & Hms & V & _);
    rewrite ?Hd, ?Hsb; cbn [l0 l_buf lh_block l_outstanding l_committing boot_sb sb_size sb_nlog];
    rewrite ?Hv, ?Hn; try done; try lia.
  { unfold fresh. cbn. split_and!; try done. unfold NBUF. lia. }
  { change (1000 - 30) with 970. unfold disk_ok. rewrite hdr_zero_blocks by done. rewrite Hz. split_and!; try done; try (cbn; lia).
    split_and!; try done. apply NoDup_nil_2. cbn. lia. }
  cbn zeta. rewrite (after_ok _ _ _ _ E).
  rewrite Hd, Hsb in *. cbn [l0 l_buf boot_sb sb_size sb_nlog] in *. rewrite Hv, Hn in *.
  change (1000 - 30) with 970 in *. split_and!; try done. destruct Hms as [<- _]. cbn [m_smp set_smp set_lock locks]. rewrite Hk. fn_eq.
Qed.

Lemma boot_log_ok : linv boot_log ∧ l_start boot_log = 970 ∧ l_size boot_log = 30 ∧
  lh_n boot_log = 0 ∧ l_outstanding boot_log = 0 ∧ l_committing boot_log = false ∧
  nblocks (l_buf boot_log) = 1000 ∧
  view (l_buf boot_log) = write_view_all boot_writes (fresh_view (dread boot_image)) ∧
  locks (m_smp (bmach (l_buf boot_log))) = (λ _, free_lock).
Proof.
  destruct (reboot_bio_ok boot_image boot_image_length) as (Hr & Hv & Hn & Hk). destruct boot_header as [Hz Hsb].
  exact (initlog_fresh boot_bio (dread boot_image) Hr Hv Hn Hk Hz Hsb).
Qed.

(** ** A transaction in progress *)

(** Block 500 is overwritten inside a transaction. *)
Definition sevens : block := replicate BSIZE 7.
Definition write_500 : M (log bio) unit :=
  h ← t_bread ROOTDEV 500;
  t_set h sevens ;;;
  t_log_write h ;;;
  t_brelse h.
Definition dirty_log : log bio := after write_500 txn_log.

Lemma txn_log_ok : linv txn_log ∧ view (l_buf txn_log) = view (l_buf boot_log) ∧
  l_start txn_log = 970 ∧ log_room txn_log = 29%nat ∧ 1 ≤ l_outstanding txn_log ∧
  locks (m_smp (bmach (l_buf txn_log))) = (λ _, free_lock).
Proof.
  destruct boot_log_ok as (Hi & Hst & Hsz & Hn & _ & _ & _ & _ & Hk).
  unfold txn_log. revert Hi Hst Hsz Hn Hk. generalize boot_log. intros l Hi Hst Hsz Hn Hk.
  split; [exact Hi|]. split; [reflexivity|]. split; [exact Hst|]. split; [|split; [done|exact Hk]].
  unfold log_room. cbn [set_out l_size lh_n]. by rewrite Hsz, Hn.
Qed.

Lemma write_500_ok (l : log bio) : linv l → (∀ h, v_busy (view (l_buf l)) h = None) →
  (1 < v_avail (view (l_buf l)))%nat → l_start l = 970 → (0 < log_room l)%nat → 1 ≤ l_outstanding l →
  ∃ l', write_500 l = Ok tt l' ∧ linv l' ∧ idle l' ∧ v_pin (view (l_buf l')) 500 = true ∧
    v_mem (view (l_buf l')) 500 = sevens.
Proof.
  intros Hi Hb Ha Hst Hro Ho. assert (tready l) as Hr by (by apply linv_split).
  destruct (run_tbread l 500) as (h & t1 & E1 & F1 & (R1 & S1 & L1 & X1 & V1 & Q1)); try done.
  { cbn [tlimit log_laws]. lia. } { intros h. cbn [tview log_laws]. by rewrite Hb. }
  { right. cbn [tview log_laws]. lia. }
  destruct (update_block l t1 h 500 sevens) as (t2 & t3 & t4 & E2 & E3 & E4 & Hm & Hp); try done.
  { by apply X1. } { lia. } { cbn [tlimit log_laws]. lia. } { cbn [troom log_laws] in *. lia. }
  { cbn [tview log_laws]. lia. }
  exists t4. split. { unfold write_500. step E1. step E2. step E3. exact E4. }
  destruct Hm as (R4 & _ & _ & _ & M4 & _ & _ & B4 & _ & _ & A4). cbn [tview log_laws] in *.
  split; [by apply linv_split|]. split; [|split; [exact Hp|]].
  - split_and!; [intros x _ h'; by rewrite B4, Hb|intros x _ h'; by rewrite B4, Hb|lia].
  - rewrite M4. apply fn_lookup_insert.
Qed.

Lemma dirty_log_ok : linv dirty_log ∧ idle dirty_log ∧ v_pin (view (l_buf dirty_log)) 500 = true ∧
  v_mem (view (l_buf dirty_log)) 500 = sevens.
Proof.
  destruct txn_log_ok as (Hi & Hv & Hst & Hro & Ho & _). destruct boot_log_ok as (_ & _ & _ & _ & _ & _ & _ & V & _).
  rewrite V in Hv. assert (∀ h, v_busy (view (l_buf txn_log)) h = None) as Hb by (intros h; rewrite Hv; reflexivity).
  assert (v_avail (view (l_buf txn_log)) = NBUF) as Ha by (rewrite Hv; reflexivity). clear Hv V.
  unfold dirty_log. revert Hi Hb Ha Hst Hro Ho. generalize txn_log. intros l Hi Hb Ha Hst Hro Ho.
  destruct (write_500_ok l) as (l' & E & Hl'); try done; [rewrite Ha; unfold NBUF; lia|lia|].
  by rewrite (after_ok _ _ _ _ E).
Qed.

Lemma dirty_log_fields : l_outstanding dirty_log = 1 ∧ l_committing dirty_log = false ∧
  l_start dirty_log = 970 ∧ logged dirty_log = [500] ∧ disksize (l_buf dirty_log) = 1000.
Proof. vm_compute. done. Qed.

(** ** Crashes of this machine *)

Definition crash_map (m : gmap Z block) (w : list (Z * block)) : gmap Z block :=
  foldl (λ m w, <[w.1 := w.2]> m) m w.

Lemma crash_map_dread m w : dread (crash_map m w) = replay w (dread m).
Proof.
  revert m. induction w as [|[b d] w IH]; intros m; [done|].
  unfold crash_map in *. cbn [foldl]. rewrite IH, replay_cons. f_equal. apply dread_insert.
Qed.

(** The machine rebooted on a disk, before recovery. *)
Definition reboot (m : gmap Z block) : log bio :=
  mkLog (reboot_bio m) 970 30 0 false ROOTDEV 0 (replicate LOGSIZE 0).

Lemma reboot_ok (l : log bio) m : (∀ bn, length (dread m bn) = BSIZE) → l_start l = 970 →
  nblocks (l_buf l) = 1000 → rebooted l (reboot m) (dread m).
Proof.
  intros Hm Hst Hn. destruct (reboot_bio_ok m Hm) as (Hr & Hv & Hnb & _).
  unfold reboot. revert Hr Hv Hnb. generalize (reboot_bio m). intros s Hr Hv Hnb.
  unfold rebooted. cbn [l_buf l_dev l_start lh_block]. rewrite Hnb, Hv, Hst.
  split_and!; try done. unfold fresh. cbn. split_and!; try done. unfold NBUF. lia.
Qed.

(** The disk after [k] writes of the commit of [l]. *)
Definition crash_disk (l : log bio) (k : nat) : gmap Z block :=
  crash_map (memdisk (l_buf l)) (take k (txn_writes l)).

Lemma crash_reboot (l : log bio) k : (∀ bn, length (dread (crash_disk l k) bn) = BSIZE) →
  l_start l = 970 → disksize (l_buf l) = 1000 →
  rebooted l (reboot (crash_disk l k)) (replay (take k (txn_writes l)) (disk_of l)).
Proof.
  intros Hm Hst Hn. change (disk_of l) with (dread (memdisk (l_buf l))).
  rewrite <- crash_map_dread. by apply reboot_ok.
Qed.

(** After two writes of the commit: the logged block and the header. *)
Abbreviation crashed := (crash_disk dirty_log 2).

Lemma crashed_length bn : length (dread crashed bn) = BSIZE.
Proof.
  assert (map_Forall (λ _ b, length b = BSIZE) crashed) as Hf.
  { apply (bool_decide_unpack _). vm_compute. exact I. }
  revert Hf. unfold dread. generalize crashed. intros m Hf.
  destruct (m !! bn) as [b|] eqn:E; [by apply (Hf bn)|done].
Qed.

Lemma crashed_rebooted :
  rebooted dirty_log (reboot crashed) (replay (take 2 (txn_writes dirty_log)) (disk_of dirty_log)).
Proof.
  destruct dirty_log_fields as (_ & _ & Hst & _ & Hn).
  exact (crash_reboot dirty_log 2 crashed_length Hst Hn).
Qed.

(** Crashing after the header was written and recovering installs block 500. *)
Lemma end_op_crash_atomic_witness : ∃ l' r', end_op dirty_log = Ok tt l' ∧
  recover_from_log (reboot crashed) = Ok tt r' ∧
  (disk_of r' 500 = disk_of dirty_log 500 ∨ disk_of r' 500 = sevens).
Proof.
  destruct dirty_log_ok as (Hi & Hq & _ & Hmem). destruct dirty_log_fields as (Ho & Hc & Hst & Hlg & _).
  destruct (end_op_crash_atomic dirty_log Hi Hq Hc Ho) as (l' & E & _ & _ & Hall).
  destruct (Hall 2%nat _ crashed_rebooted) as (r' & Er & Hor & _).
  exists l', r'. split; [exact E|]. split; [exact Er|]. rewrite Hst in Hor.
  destruct Hor as [Hd|Hd]; [left; apply Hd; lia|right].
  rewrite Hd by lia. unfold txn_disk. rewrite Hlg, decide_True by (by apply list_elem_of_singleton).
  exact Hmem.
Defined.

