(* ===== verification/FsThms.v ===== *)
(** * What the file system promises

    The theorems about blocks, inodes and file contents, stated over any
    transaction layer, and their instances on the booted machine. *)

From S2P Require Import Prelude Bytes Spinlock Sched Bio BioSpec BufLayer Ondisk Log LogSpec LogCrash LogOps LogThms Txn CString Fs FsAlloc FsMap FsFile FsRw Mkfs Boot.
From Stdlib Require Import FunctionalExtensionality.

(** ** Disk inodes *)

Lemma get_put_dinode inum di (d : block) : length d = BSIZE → dinode_wf di →
  get_dinode inum (put_dinode inum di d) = di.
Proof.
  intros Hd Hw. unfold get_dinode, put_dinode.
  assert (length (dinode_enc di) = DINODE) as E by (apply dinode_enc_length, Hw).
  rewrite <- E at 1. rewrite slice_splice_same by (rewrite E; by apply dip_off_fits).
  rewrite <- (app_nil_r (dinode_enc di)). by apply dinode_dec_enc.
Qed.

Lemma get_put_dinode_other inum inum' di (d : block) : length d = BSIZE → length (di_addrs di) = S NDIRECT →
  inum mod IPB ≠ inum' mod IPB → get_dinode inum' (put_dinode inum di d) = get_dinode inum' d.
Proof.
  intros Hd Hw Hne. unfold get_dinode, put_dinode. f_equal.
  pose proof (dinode_enc_length di Hw) as E. pose proof (dip_off_fits inum d Hd).
  apply slice_splice_other; rewrite E; [done|].
  unfold dip_off, DINODE, IPB in *. pose proof (Z.mod_pos_bound inum 8). pose proof (Z.mod_pos_bound inum' 8). lia.
Qed.

(** The fields of a cached inode fit the disk inode. *)
Definition inode_wf (ip : inode) : Prop :=
  short (i_type ip) ∧ short (i_major ip) ∧ short (i_minor ip) ∧ short (i_nlink ip) ∧
  0 ≤ i_mode ip < 2 ^ 32 ∧ 0 ≤ i_size ip < 2 ^ 32 ∧
  length (i_addrs ip) = S NDIRECT ∧ Forall (λ a, 0 ≤ a < 2 ^ 32) (i_addrs ip).

Lemma getS_short off l : short (getS off l).
Proof. apply (swrap_range 16). lia. Qed.

Lemma i_store_wf ip d inum : inode_wf ip → dinode_wf (i_store ip (get_dinode inum d)).
Proof.
  intros (? & ? & ? & ? & ? & ? & ? & ?). unfold dinode_wf, i_store, get_dinode, dinode_dec.
  cbn [di_type di_major di_minor di_nlink di_ownerid di_groupid di_mode di_size di_addrs].
  split_and!; try done; try apply getS_short; lia.
Qed.

Section thms.
Context {T : Type} `{TxnLaws T} `{DevSw T}.
Implicit Types (s : fs T) (t : T) (ip : inode) (ad : list Z).

Abbreviation mem s := (v_mem (tview (f_t s))).
Abbreviation limit s := (tlimit (f_t s)).

Lemma written_avail s s' sb i ip ip' off data k c : written s s' sb i ip ip' off data k c →
  (k + 2 ≤ v_avail (tview (f_t s)))%nat → (0 < v_avail (tview (f_t s')))%nat.
Proof. intros (_ & (_ & _ & _ & _ & _ & _ & _ & _ & _ & _ & Ha) & _) Hk. lia. Qed.

(** What one call of [writei] needs: a transaction with room for the blocks
    it may log and free blocks for those it may allocate. *)
Definition can_write s sb i ip off (src : list Z) : Prop :=
  fsok s sb ∧ ttxn (f_t s) ∧ file_ok s sb i ip ∧ mapped s ip ∧ i_type ip ≠ T_DEV ∧
  0 ≤ i_inum ip < sb_ninodes sb ∧ 0 ≤ off ≤ i_size ip ∧ off + Z.of_nat (length src) ≤ MAXBYTES ∧
  budget (f_t s) (6 * iters off (Z.of_nat (length src)) + 1) ∧
  (2 * iters off (Z.of_nat (length src)) ≤ nfree (mem s) sb (limit s))%nat.

Lemma writei_run s sb i ip off src : can_write s sb i ip off src →
  ∃ s' ip', writei i src off (Z.of_nat (length src)) s = Ok (Z.of_nat (length src)) s' ∧
    mapped s' ip' ∧ (0 < v_avail (tview (f_t s')))%nat ∧
    written s s' sb i ip ip' off src (6 * iters off (Z.of_nat (length src)) + 1)
      (2 * iters off (Z.of_nat (length src))).
Proof.
  intros (Hok & Hx & Hf & Hm & Hty & Hin & Ho & Hmax & Hb & Hnf).
  destruct (writei_ok s sb i ip src off (Z.of_nat (length src))) as (s' & ip' & E & W); try done.
  exists s', ip'. split; [exact E|]. split; [|split; [|exact W]].
  - destruct W as (_ & _ & _ & _ & _ & _ & Wm & _). by apply Wm.
  - eapply written_avail; [exact W|]. apply Hb.
Qed.

(** C6: what is written to a file is read back.  [writei] of any bytes at any
    offset inside or at the end of a file returns the number of bytes; the
    file then has the size and the contents of the old one overwritten there,
    whether or not blocks, or the indirect block, had to be allocated. *)
Theorem writei_readi s sb i ip off src : can_write s sb i ip off src → let n := Z.of_nat (length src) in
  ∃ s1 ip1 s2 s3, writei i src off n s = Ok n s1 ∧ icache s1 !! i = Some ip1 ∧
    i_size ip1 = Z.max (i_size ip) (if decide (src = []) then 0 else off + n) ∧
    readi i off n s1 = Ok (n, src) s2 ∧
    readi i 0 (i_size ip1) s1 = Ok (i_size ip1,
      take (Z.to_nat (i_size ip1)) (splice (Z.to_nat off) src (content s ip))) s3.
Proof.
  intros Hc n. destruct (writei_run s sb i ip off src Hc) as (s1 & ip1 & E & Hm & Ha & W).
  destruct Hc as (Hok & _ & (_ & _ & _ & Hsz) & _ & Hty & _ & Ho & Hmax & _).
  destruct W as (_ & _ & Hok1 & Hf1 & Eip & Ec & _). pose proof Hf1 as (Hip1 & _ & _ & Hsz1).
  assert (i_size ip1 = Z.max (i_size ip) (if decide (src = []) then 0 else off + n)) as Es by (by rewrite Eip).
  assert (i_type ip1 ≠ T_DEV) as Hty1 by (by rewrite Eip). unfold MAXBYTES in *. fold n in Hmax.
  assert (off + n ≤ i_size ip1) as Hle.
  { rewrite Es. case_decide as D; [|lia]. assert (n = 0) by (unfold n; by rewrite D). lia. }
  destruct (readi_ok s1 sb i ip1 off n) as (t2 & E2 & _); try done; try lia.
  destruct (readi_ok s1 sb i ip1 0 (i_size ip1)) as (t3 & E3 & _); try done; try lia.
  exists s1, ip1, (set_ft t2 s1), (set_ft t3 s1). rewrite Ec in *.
  replace (Z.min n (i_size ip1 - off)) with n in E2 by lia.
  replace (Z.min (i_size ip1) (i_size ip1 - 0)) with (i_size ip1) in E3 by lia.
  split; [exact E|]. split; [exact Hip1|]. split; [exact Es|]. split; [|exact E3].
  rewrite E2. do 2 f_equal. unfold n. rewrite Nat2Z.id. apply slice_splice_same.
  unfold content. rewrite fbytes_length by (by eapply fs_blocks_ok). apply bytes_bound. unfold MAXBYTES. lia.
Qed.

(** C11: files do not interfere.  Writing one file leaves what can be read
    from every other file with blocks of its own unchanged, and the two files
    still share no block. *)
Theorem writei_others s sb i ip off src j ip2 : can_write s sb i ip off src → j ≠ i →
  file_ok s sb j ip2 → mapped s ip2 → i_type ip2 ≠ T_DEV → apart (mem s) (i_addrs ip) (i_addrs ip2) →
  let n := Z.of_nat (length src) in
  ∃ s1 ip1, writei i src off n s = Ok n s1 ∧ icache s1 !! i = Some ip1 ∧
    icache s1 !! j = Some ip2 ∧ apart (mem s1) (i_addrs ip1) (i_addrs ip2) ∧
    ∀ off' n', 0 ≤ off' ≤ i_size ip2 → 0 ≤ n' → off' + n' < 2 ^ 32 →
      ∃ r s2 s3, readi j off' n' s = Ok r s2 ∧ readi j off' n' s1 = Ok r s3.
Proof.
  intros Hc Hj Hf2 Hm2 Hty2 Hap n. destruct (writei_run s sb i ip off src Hc) as (s1 & ip1 & E & Hm & Ha & W).
  destruct Hc as (Hok & _ & _ & _ & _ & _ & _ & _ & [Hb1 Hb2] & _).
  destruct W as (Ei & Ht & Hok1 & Hf1 & _ & _ & _ & Hoth & _). pose proof Hf1 as (Hip1 & _).
  pose proof Hf2 as (Hip2 & Hd2 & Hw2 & Hs2). pose proof Ht as (_ & _ & L1 & _).
  destruct (Hoth (i_addrs ip2) Hw2 Hap) as (Hw2' & Ec & Hap' & Eb).
  assert (icache s1 !! j = Some ip2) as Hj1 by (rewrite Ei; by rewrite list_lookup_insert_ne).
  exists s1, ip1. split; [exact E|]. split; [exact Hip1|]. split; [exact Hj1|]. split; [exact Hap'|]. intros off' n' Ho' Hn' Hov.
  assert (file_ok s1 sb j ip2) as Hf2'.
  { split; [exact Hj1|]. split; [exact Hd2|]. split; [by rewrite L1|exact Hs2]. }
  assert (mapped s1 ip2) as Hm2' by (intros k Hk Hks; rewrite Eb by exact Hk; by apply Hm2).
  assert (0 < v_avail (tview (f_t s)))%nat as Ha0 by lia.
  destruct (readi_ok s sb j ip2 off' n' Hok Hf2 Hm2 Hty2 Ho' Hn' Hov Ha0) as (t2 & E2 & _).
  destruct (readi_ok s1 sb j ip2 off' n' Hok1 Hf2' Hm2' Hty2 Ho' Hn' Hov Ha) as (t3 & E3 & _).
  eexists _, _, _. split; [exact E2|]. rewrite E3. unfold content. by rewrite Ec.
Qed.

(** C25: [balloc] hands out the first free block.  The block was free, is now
    marked in use and holds zeros; no other mark and no other block outside
    the bitmap changed. *)
Theorem balloc_spec t sb b0 : tready t → ttxn t → geo (v_mem (tview t)) (tlimit t) sb → held_data t sb →
  budget t 2 → 0 ≤ b0 < tlimit t → used (v_mem (tview t)) sb b0 = false →
  ∃ b t', balloc ROOTDEV t = Ok b t' ∧ dstart sb ≤ b ≤ b0 ∧
    let m := v_mem (tview t) in let m' := v_mem (tview t') in
    used m sb b = false ∧ (∀ b', 0 ≤ b' < b → used m sb b' = true) ∧ m' b = zero_block ∧
    (∀ b', 0 ≤ b' < sb_size sb → used m' sb b' = (b =? b') || used m sb b') ∧
    (∀ x, x ≠ b → x ≠ BBLOCK b (sb_ninodes sb) → m' x = m x).
Proof.
  intros Hr Hx Hg Hh Hb Hb0 Hu. destruct (balloc_ok t sb b0) as (b & t' & E & Hub & Hrb & Hfirst & Hm); try done.
  exists b, t'. split; [exact E|]. split; [exact Hrb|]. cbn zeta.
  destruct Hm as (_ & _ & _ & _ & -> & _). pose proof (dstart_pos _ _ _ Hg) as Hds.
  pose proof Hg as (_ & Hn & _ & Hd & _).
  split; [exact Hub|]. split; [exact Hfirst|]. split; [apply fn_lookup_insert|]. split.
  - intros b' Hb'. assert (∀ x, length (v_mem (tview t) x) = BSIZE) as Hl by (intros x; apply tmem_length, Hr).
    rewrite (used_alloc _ (tlimit t)) by (done || lia). done.
  - intros x Hne Hnb. unfold alloc_mem, mark. by rewrite !fn_lookup_insert_ne.
Qed.

(** Freeing the block [balloc] returned gives back the bitmap: every block
    is marked as it was before the allocation.  Freeing it a second time
    panics. *)
Theorem balloc_bfree t sb b0 : tready t → ttxn t → geo (v_mem (tview t)) (tlimit t) sb → quiet t →
  budget t 4 → 0 ≤ b0 < tlimit t → used (v_mem (tview t)) sb b0 = false →
  ∃ b t1 t2 t3, balloc ROOTDEV t = Ok b t1 ∧ bfree ROOTDEV b t1 = Ok tt t2 ∧
    (∀ b', 0 ≤ b' < sb_size sb → used (v_mem (tview t2)) sb b' = used (v_mem (tview t)) sb b') ∧
    bfree ROOTDEV b t2 = Stop (Panic "freeing free block") t3.
Proof.
  intros Hr Hx Hg Hq Hb Hb0 Hu.
  destruct (balloc_ok t sb b0) as (b & t1 & E1 & Hub & Hrb & _ & Hm1); try done; [by apply quiet_held|by eapply budget_weaken; [exact Hb|lia]|].
  pose proof (dstart_pos _ _ _ Hg) as Hds. pose proof Hg as (_ & Hn & _ & Hd & _).
  assert (∀ x, length (v_mem (tview t) x) = BSIZE) as Hl by (intros x; apply tmem_length, Hr).
  pose proof (frame_geo _ _ _ _ _ Hg (frame_alloc _ _ sb b Hg Hl ltac:(lia) Hub)) as Hg1.
  pose proof (tmod_quiet _ _ _ _ Hq Hm1) as Hq1. pose proof (budget_tmod t t1 _ 2 2 Hb Hm1) as Hb1.
  pose proof Hm1 as (R1 & _ & L1 & X1 & M1 & _).
  destruct (bfree_ok t1 sb b) as (t2 & E2 & Hm2); rewrite ?M1, ?L1; try done; try lia.
  { by apply X1. } { intros. by apply quiet_unheld. } { by eapply budget_weaken; [exact Hb1|lia]. }
  { rewrite (used_alloc _ (tlimit t)) by (done || lia). by rewrite Z.eqb_refl. }
  pose proof (tmod_quiet _ _ _ _ Hq1 Hm2) as Hq2. pose proof (budget_tmod t1 t2 _ 1 1 Hb1 Hm2) as Hb2.
  pose proof Hm2 as (R2 & _ & L2 & X2 & M2 & _). rewrite M1 in M2.
  assert (∀ x, length (v_mem (tview t1) x) = BSIZE) as Hl1 by (intros x; apply tmem_length, R1).
  rewrite M1 in Hl1.
  assert (∀ b', 0 ≤ b' < sb_size sb → used (v_mem (tview t2)) sb b' = used (v_mem (tview t)) sb b') as Hsame.
  { intros b' Hb'. rewrite M2, used_mark by (done || lia). destruct (Z.eqb_spec b b') as [->|Hne]; [done|].
    rewrite (used_alloc _ (tlimit t)) by (done || lia). by rewrite (proj2 (Z.eqb_neq _ _) Hne). }
  destruct (bfree_panics t2 sb b) as (t3 & E3); try done; try lia.
  - rewrite L2, L1. eapply geo_same; [exact Hg| |intros; by rewrite Hsame].
    rewrite M2. pose proof (BBLOCK_range b sb Hn ltac:(lia)). unfold mark at 1.
    rewrite fn_lookup_insert_ne by lia. unfold alloc_mem. rewrite fn_lookup_insert_ne by lia.
    unfold mark. by rewrite fn_lookup_insert_ne by lia.
  - intros. by apply quiet_unheld.
  - destruct Hb2. lia.
  - rewrite Hsame; [done|lia].
  - by exists b, t1, t2, t3.
Qed.

(** An inode survives eviction from the cache.  After [iupdate] the disk
    inode decodes to the type, device numbers, link count, mode, size and
    block addresses of the cached inode, so [ilock] of a fresh cache entry
    loads them again, and the other inodes of the block are untouched. *)
Theorem iupdate_reload s sb i ip : fsok s sb → ttxn (f_t s) → file_ok s sb i ip → inode_wf ip →
  0 ≤ i_inum ip < sb_ninodes sb → budget (f_t s) 1 →
  ∃ s', iupdate i s = Ok tt s' ∧ icache s' = icache s ∧
    (∀ e, let e' := i_load (get_dinode (i_inum ip) (mem s' (IBLOCK (i_inum ip)))) e in
       i_type e' = i_type ip ∧ i_major e' = i_major ip ∧ i_minor e' = i_minor ip ∧
       i_nlink e' = i_nlink ip ∧ i_mode e' = i_mode ip ∧ i_size e' = i_size ip ∧ i_addrs e' = i_addrs ip) ∧
    (∀ j, j ≠ i_inum ip → get_dinode j (mem s' (IBLOCK j)) = get_dinode j (mem s (IBLOCK j))).
Proof.
  intros Hok Hx Hf Hw Hin Hb. destruct (iupdate_ok s sb i ip) as (t' & E & Hm); try done.
  exists (set_ft t' s). split; [exact E|]. split; [done|]. destruct Hm as (_ & _ & _ & _ & M & _).
  cbn [f_t set_ft]. rewrite M. pose proof (fs_blocks_ok s sb Hok) as Hl. unfold iupdate_mem. split.
  - intros e. rewrite fn_lookup_insert, get_put_dinode; [done|apply Hl|by apply i_store_wf].
  - intros j Hj. destruct (decide (IBLOCK j = IBLOCK (i_inum ip))) as [Ej|Ej].
    + rewrite Ej, fn_lookup_insert. apply get_put_dinode_other; [apply Hl|apply Hw|].
      unfold IBLOCK, IPB in *. pose proof (Z.div_mod j 8). pose proof (Z.div_mod (i_inum ip) 8). lia.
    + by rewrite fn_lookup_insert_ne.
Qed.
End thms.

(** ** On the booted machine *)

#[local] Instance no_devices : DevSw (log bio) := {| dev_read := λ _, None; dev_write := λ _, None |}.

(** A new, empty file, the README and the root directory of the image, in the
    inode cache. *)
Definition new_file : inode := mkInode ROOTDEV 3 1 3 T_FILE 0 0 1 0 0 0 0 (replicate 11 0).
Definition readme : inode := mkInode ROOTDEV 2 1 3 T_FILE 0 0 1 99 1 0x700 5 (30 :: replicate 10 0).
Definition rootdir : inode := mkInode ROOTDEV 1 1 3 T_DIR 0 0 1 99 1 0x700 512 (29 :: replicate 10 0).
Definition boot_fs : fs (log bio) := mkFs txn_log (new_file :: readme :: rootdir :: replicate 47 zero_inode).

(** The inodes are those mkfs wrote. *)
Lemma readme_on_disk : i_load (get_dinode 2 (boot_mem (IBLOCK 2))) readme = readme ∧
  i_load (get_dinode 1 (boot_mem (IBLOCK 1))) rootdir = rootdir.
Proof. vm_compute. split; reflexivity. Qed.

Lemma boot_mem_geo : geo boot_mem 970 boot_sb.
Proof.
  split; [vm_compute; reflexivity|]. split; [done|]. split; [done|]. split; [vm_compute; split; done|].
  assert (forallb (used boot_mem boot_sb) (seqZ 0 (dstart boot_sb)) = true) as Hf by (vm_compute; reflexivity).
  intros b Hb. rewrite forallb_forall in Hf. apply Hf. by apply list_elem_of_In, elem_of_seqZ.
Qed.

Lemma boot_nfree : (100 ≤ nfree boot_mem boot_sb 970)%nat.
Proof. apply Nat.leb_le. vm_compute. reflexivity. Qed.

(** Files with one direct block, or none. *)
Lemma baddr_one m a n : baddr m (a :: replicate 10 0) n = if (n =? 0)%nat then a else 0.
Proof. do 11 (destruct n as [|n]; [done|]). done. Qed.

Lemma fwf_one sb limit m a : (a ≠ 0 → dblk sb limit m a) → fwf sb limit m (a :: replicate 10 0).
Proof.
  intros Ha. split; [done|]. split_and!.
  - intros n _. rewrite baddr_one. by destruct (n =? 0)%nat.
  - by intros [].
  - intros n n' _ _. rewrite !baddr_one. destruct (Nat.eqb_spec n 0), (Nat.eqb_spec n' 0); lia.
  - intros n _. rewrite baddr_one. by destruct (n =? 0)%nat.
Qed.

Lemma owned_none m b : ¬ owned m (0 :: replicate 10 0) b.
Proof.
  intros (Hz & [E|(n & _ & E)]); [done|]. rewrite baddr_one in E. by destruct (n =? 0)%nat.
Qed.

Lemma boot_fs_ok : fsok boot_fs boot_sb ∧ ttxn (f_t boot_fs) ∧ budget (f_t boot_fs) 20 ∧
  v_mem (tview (f_t boot_fs)) = boot_mem ∧ tlimit (f_t boot_fs) = 970.
Proof.
  destruct txn_log_ok as (Hi & Hv & Hst & Hro & Ho & _). destruct boot_log_ok as (_ & _ & _ & _ & _ & _ & _ & V & _).
  rewrite V in Hv. assert (quiet txn_log) as Hq by (intros h; cbn [tview log_laws]; rewrite Hv; reflexivity).
  assert (v_avail (view (l_buf txn_log)) = NBUF) as Ha by (rewrite Hv; reflexivity).
  assert (v_mem (view (l_buf txn_log)) = boot_mem) as Hm by (rewrite Hv; unfold write_view_all, fresh_view, boot_mem; cbn [v_mem]; reflexivity).
  clear Hv V.
  pose proof boot_mem_geo as Hg. unfold boot_fs. cbn [f_t tlimit log_laws].
  revert Hi Hst Hro Ho Hq Ha Hm. generalize txn_log. intros l Hi Hst Hro Ho Hq Ha Hm.
  unfold fsok. cbn [f_t tlimit tview log_laws]. rewrite Hm, Hst.
  split; [|split; [exact Ho|split; [|split; [reflexivity|reflexivity]]]].
  - split; [by apply linv_split|]. split; [exact Hg|]. split; [exact Hq|]. cbn [sb_size boot_sb]. lia.
  - unfold budget. cbn [troom tview log_laws]. rewrite Hro, Ha. unfold NBUF. lia.
Qed.

Lemma boot_can_write src : (length src ≤ 512)%nat → can_write boot_fs boot_sb 0 new_file 0 src.
Proof.
  intros Hl. destruct boot_fs_ok as (Hok & Hx & Hb & Hm & Hlim). pose proof boot_nfree as Hnf.
  assert (iters 0 (Z.of_nat (length src)) ≤ 1)%nat as Hit.
  { unfold iters. destruct (_ <=? 0); [lia|]. change (0 mod Z.of_nat BSIZE) with 0. rewrite Z.add_0_l.
    assert ((Z.of_nat (length src) + Z.of_nat BSIZE - 1) / Z.of_nat BSIZE < 2); [|lia].
    apply Z.div_lt_upper_bound; unfold BSIZE; lia. }
  unfold can_write, file_ok. rewrite Hm, Hlim. revert Hok Hx Hb Hm Hlim Hnf.
  change (icache boot_fs) with (new_file :: readme :: rootdir :: replicate 47 zero_inode).
  intros Hok Hx Hb Hm Hlim Hnf.
  split; [exact Hok|]. split; [exact Hx|]. split; [|split; [|split; [discriminate|split; [|split; [|split; [|split]]]]]].
  - split; [reflexivity|]. split; [reflexivity|]. split; [exact (fwf_one _ _ _ 0 (λ H, match H eq_refl with end))|].
    cbn [i_size new_file]. unfold MAXBYTES. lia.
  - intros k Hk Hs. cbn in Hs. lia.
  - cbn. lia.
  - cbn. lia.
  - unfold MAXBYTES. lia.
  - eapply budget_weaken; [exact Hb|lia].
  - lia.
Qed.

Lemma writei_readi_witness : ∃ s1 s2,
  writei 0 [104; 105] 0 2 boot_fs = Ok 2 s1 ∧ readi 0 0 2 s1 = Ok (2, [104; 105]) s2.
Proof.
  destruct (writei_readi boot_fs boot_sb 0 new_file 0 [104; 105]) as (s1 & ip1 & s2 & s3 & E1 & _ & _ & E2 & _).
  - apply boot_can_write. cbn. lia.
  - exists s1, s2. split; [exact E1|exact E2].
Defined.

Lemma readme_ok : file_ok boot_fs boot_sb 1 readme ∧ mapped boot_fs readme ∧
  apart (v_mem (tview (f_t boot_fs))) (i_addrs new_file) (i_addrs readme).
Proof.
  destruct boot_fs_ok as (_ & _ & _ & Hm & Hlim). unfold file_ok, mapped. rewrite Hm, Hlim. split_and!.
  - reflexivity.
  - reflexivity.
  - apply (fwf_one _ _ _ 30). intros _. split; [vm_compute; split; done|vm_compute; reflexivity].
  - cbn [i_size readme]. lia.
  - cbn [i_size readme]. unfold MAXBYTES. lia.
  - intros k Hk Hs. change (i_addrs readme) with (30 :: replicate 10 0). rewrite baddr_one.
    cbn [i_size readme] in Hs. unfold BSIZE in Hs. destruct (Nat.eqb_spec k 0); [done|lia].
  - intros b _. exact (owned_none boot_mem b).
Qed.

Lemma writei_others_witness : ∃ s1 r s2 s3, writei 0 [104; 105] 0 2 boot_fs = Ok 2 s1 ∧
  readi 1 0 5 boot_fs = Ok r s2 ∧ readi 1 0 5 s1 = Ok r s3.
Proof.
  destruct readme_ok as (Hf & Hm & Hap).
  destruct (writei_others boot_fs boot_sb 0 new_file 0 [104; 105] 1 readme) as (s1 & ip1 & E1 & _ & _ & _ & Hr).
  - apply boot_can_write. cbn. lia.
  - lia.
  - exact Hf.
  - exact Hm.
  - discriminate.
  - exact Hap.
  - destruct (Hr 0 5) as (r & s2 & s3 & E2 & E3); [cbn [i_size readme]; lia|lia|lia|].
    exists s1, r, s2, s3. split; [exact E1|]. split; [exact E2|exact E3].
Defined.

Lemma boot_free : used (v_mem (tview (f_t boot_fs))) boot_sb 600 = false.
Proof. destruct boot_fs_ok as (_ & _ & _ & Hm & _). rewrite Hm. vm_compute. reflexivity. Qed.

Lemma balloc_spec_witness : ∃ b t', balloc ROOTDEV (f_t boot_fs) = Ok b t' ∧ 29 ≤ b ≤ 600.
Proof.
  destruct boot_fs_ok as (Hok & Hx & Hb & Hm & Hlim).
  destruct (balloc_spec (f_t boot_fs) boot_sb 600) as (b & t' & E & Hr & _).
  - apply Hok.
  - exact Hx.
  - apply Hok.
  - apply quiet_held, Hok.
  - eapply budget_weaken; [exact Hb|lia].
  - rewrite Hlim. lia.
  - exact boot_free.
  - exists b, t'. split; [exact E|exact Hr].
Defined.

Lemma balloc_bfree_witness : ∃ b t1 t2, balloc ROOTDEV (f_t boot_fs) = Ok b t1 ∧ bfree ROOTDEV b t1 = Ok tt t2.
Proof.
  destruct boot_fs_ok as (Hok & Hx & Hb & Hm & Hlim).
  destruct (balloc_bfree (f_t boot_fs) boot_sb 600) as (b & t1 & t2 & t3 & E1 & E2 & _).
  - apply Hok.
  - exact Hx.
  - apply Hok.
  - apply Hok.
  - eapply budget_weaken; [exact Hb|lia].
  - rewrite Hlim. lia.
  - exact boot_free.
  - exists b, t1, t2. split; [exact E1|exact E2].
Defined.

Lemma readme_wf : inode_wf readme.
Proof.
  unfold inode_wf, short, readme, T_FILE.
  cbn [i_type i_major i_minor i_nlink i_mode i_size i_addrs]. split_and!; try lia; [done|].
  repeat (apply Forall_cons; split; [lia|]). apply Forall_nil_2.
Qed.

Lemma iupdate_reload_witness : ∃ s', iupdate 1 boot_fs = Ok tt s' ∧ icache s' = icache boot_fs.
Proof.
  destruct boot_fs_ok as (Hok & Hx & Hb & Hm & Hlim). destruct readme_ok as (Hf & _).
  destruct (iupdate_reload boot_fs boot_sb 1 readme) as (s' & E & Ei & _).
  - exact Hok.
  - exact Hx.
  - exact Hf.
  - exact readme_wf.
  - cbn. lia.
  - eapply budget_weaken; [exact Hb|lia].
  - exists s'. split; [exact E|exact Ei].
Defined.

(** ** The log area and the allocator *)

(** The image with every block of the file system area in use. *)
Definition full_image : gmap Z block :=
  <[28 := foldl Mkfs.set_used zero_block (seq 0 970)]> boot_image.
Definition full_log : log bio :=
  after initlog (mkLog (reboot_bio full_image) 0 0 0 false 0 0 (replicate LOGSIZE 0)).

