(* ===== verification/Icache.v ===== *)
(** * The inode cache (kernel/fs.c)

    The cache has at most one entry with references for an inode.  [iget]
    and [idup] take references, [iput] drops them, [ilock] loads the inode
    from disk the first time it is locked. *)

From S2P Require Import Prelude Bytes Spinlock Sched Bio BioSpec BufLayer Ondisk Log Txn CString Fs FsAlloc FsMap FsFile FsRw.
From Stdlib Require Import FunctionalExtensionality.

(** Distinct entries in use are for distinct inodes, and no count is negative. *)
Definition icache_ok (l : list inode) : Prop :=
  (∀ i j a b, l !! i = Some a → l !! j = Some b → 0 < i_ref a → 0 < i_ref b →
     i_dev a = i_dev b → i_inum a = i_inum b → i = j) ∧
  Forall (λ a, 0 ≤ i_ref a) l.

(** References held to an inode. *)
Definition refs (dev inum : Z) (l : list inode) : Z :=
  match list_find (λ a, 0 < i_ref a ∧ i_dev a = dev ∧ i_inum a = inum) l with
  | Some (_, a) => i_ref a
  | None => 0
  end.

Definition is_entry (dev inum : Z) (a : inode) : Prop := 0 < i_ref a ∧ i_dev a = dev ∧ i_inum a = inum.

Lemma refs_hit dev inum l i a : icache_ok l → l !! i = Some a → is_entry dev inum a →
  refs dev inum l = i_ref a.
Proof.
  intros [Hu _] Hi (Hr & Hd & Hn). unfold refs.
  destruct (list_find _ l) as [[j b]|] eqn:E.
  - apply list_find_Some in E as (Hj & (Hb & Hbd & Hbn) & _).
    assert (i = j) as -> by (eapply Hu; eauto; congruence). by simplify_eq.
  - apply list_find_None in E. rewrite Forall_forall in E. exfalso. apply (E a); [|done].
    by eapply list_elem_of_lookup_2.
Qed.

Lemma refs_miss dev inum l : (∀ i a, l !! i = Some a → ¬ is_entry dev inum a) → refs dev inum l = 0.
Proof.
  intros Hm. unfold refs. destruct (list_find _ l) as [[j b]|] eqn:E; [|done].
  apply list_find_Some in E as (Hj & Hb & _). by destruct (Hm j b).
Qed.

Lemma iget_scan_spec dev inum l i0 empty :
  match iget_scan dev inum l i0 empty with
  | inl i => ∃ a, (i0 ≤ i)%nat ∧ l !! (i - i0)%nat = Some a ∧ is_entry dev inum a
  | inr e => (∀ i a, l !! i = Some a → ¬ is_entry dev inum a) ∧
      match e with
      | Some i => empty = Some i ∨
          (empty = None ∧ (i0 ≤ i)%nat ∧ ∃ a, l !! (i - i0)%nat = Some a ∧ i_ref a = 0)
      | None => empty = None ∧ (∀ i a, l !! i = Some a → i_ref a ≠ 0)
      end
  end.
Proof.
  revert i0 empty. induction l as [|a l IH]; intros i0 empty; cbn.
  - split; [done|]. destruct empty; [by left|done].
  - destruct ((0 <? i_ref a) && (i_dev a =? dev) && (i_inum a =? inum)) eqn:E.
    + exists a. rewrite Nat.sub_diag. unfold is_entry. apply andb_true_iff in E as [[??]%andb_true_iff ?].
      split_and!; try done; lia.
    + assert (¬ is_entry dev inum a) as Ha.
      { intros (? & ? & ?). rewrite (proj2 (Z.ltb_lt _ _)), !(proj2 (Z.eqb_eq _ _)) in E; done. }
      specialize (IH (S i0) (if bool_decide (empty = None) && (i_ref a =? 0) then Some i0 else empty)).
      destruct (iget_scan _ _ _ _ _) as [i|e].
      * destruct IH as (b & Hle & Hb & Hent). exists b. split_and!; try done; [lia|].
        by replace (i - i0)%nat with (S (i - S i0)) by lia.
      * destruct IH as [Hno IH]. split; [by intros [|i] b Hb; [cbn in Hb; simplify_eq|eapply Hno]|].
        case_bool_decide as He; cbn [andb] in IH; [subst empty|].
        -- destruct (Z.eqb_spec (i_ref a) 0) as [Hz|Hz]; destruct e as [i|].
           ++ destruct IH as [[= <-]|[? _]]; [|done]. right. rewrite Nat.sub_diag. split_and!; try done. by exists a.
           ++ by destruct IH.
           ++ destruct IH as [|(_ & Hle & b & Hb & Hbz)]; [done|]. right. split_and!; try done; [lia|].
              exists b. by replace (i - i0)%nat with (S (i - S i0)) by lia.
           ++ destruct IH as [_ IH]. split; [done|]. intros [|i] b Hb; [by cbn in Hb; simplify_eq|by eapply IH].
        -- destruct e as [i|]; [destruct IH as [->|[? _]]; [by left|done]|by destruct IH].
Qed.

(** Replacing an entry by one for the same inode, or taking a free one. *)
Lemma icache_ok_insert l i a b : icache_ok l → l !! i = Some a → 0 ≤ i_ref b →
  (0 < i_ref b → (is_entry (i_dev b) (i_inum b) a ∨
     ∀ j c, l !! j = Some c → ¬ is_entry (i_dev b) (i_inum b) c)) →
  icache_ok (<[i := b]> l).
Proof.
  intros [Hu Hp] Hi Hb Hor. assert (i < length l)%nat by eauto using lookup_lt_Some.
  split; [|by apply Forall_insert].
  assert (∀ k c, k ≠ i → l !! k = Some c → 0 < i_ref c → 0 < i_ref b →
    i_dev c = i_dev b → i_inum c = i_inum b → False) as Hx.
  { intros k c Hk Hc Hr Hrb Hd Hn. destruct (Hor Hrb) as [(Ha & Had & Han)|Hno].
    - apply Hk. eapply Hu; eauto; congruence.
    - by apply (Hno k c). }
  intros j k c d Hj Hk. destruct (decide (j = i)) as [->|Hji], (decide (k = i)) as [->|Hki]; try done.
  - rewrite list_lookup_insert_eq in Hj by done. rewrite list_lookup_insert_ne in Hk by done. simplify_eq.
    intros ? ? ? ?. exfalso. by eapply (Hx k d).
  - rewrite list_lookup_insert_eq in Hk by done. rewrite list_lookup_insert_ne in Hj by done. simplify_eq.
    intros ? ? ? ?. exfalso. by eapply (Hx j c).
  - rewrite list_lookup_insert_ne in Hj, Hk by done. by eapply Hu.
Qed.

Lemma refs_insert_other l i a b d n : icache_ok l → icache_ok (<[i := b]> l) → l !! i = Some a →
  ¬ is_entry d n a → ¬ is_entry d n b → refs d n (<[i := b]> l) = refs d n l.
Proof.
  intros Hl Hl' Hi Ha Hb. assert (i < length l)%nat by eauto using lookup_lt_Some.
  destruct (list_find (λ c, is_entry d n c) l) as [[j c]|] eqn:E.
  - apply list_find_Some in E as (Hj & Hc & _). rewrite (refs_hit d n l j c) by done.
    apply (refs_hit _ _ _ j); [done| |done]. rewrite list_lookup_insert_ne; [done|]. intros ->. by simplify_eq.
  - apply list_find_None in E. rewrite Forall_forall in E.
    rewrite (refs_miss d n l) by (intros j c Hc; apply E; by eapply list_elem_of_lookup_2).
    apply refs_miss. intros j c Hc. destruct (decide (i = j)) as [->|Hne].
    + rewrite list_lookup_insert_eq in Hc by done. by simplify_eq.
    + rewrite list_lookup_insert_ne in Hc by done. apply E. by eapply list_elem_of_lookup_2.
Qed.

Section run.
Context {T : Type} `{TxnLaws T} `{DevSw T}.
Implicit Types (s : fs T) (t : T) (ip : inode) (ic : list inode).

Lemma fmachM_ok {A} (m : M mach A) s a m' : m (tmach (f_t s)) = Ok a m' →
  fmachM m s = Ok a (set_ft (set_tmach m' (f_t s)) s).
Proof. intros E. unfold fmachM. erewrite lift_ok; [done|]. by erewrite lift_ok. Qed.

(** The thread may take the lock of the cache. *)
Definition ic_free s : Prop := mok (tmach (f_t s)) ∧ lfree L_icache (tmach (f_t s)).

Definition lock_ic s : fs T :=
  set_ft (set_tmach (mlocked L_icache (tmach (f_t s))) (f_t s)) s.

Lemma ic_acquire s : ic_free s → fmachM (smpM (acquire L_icache)) s = Ok tt (lock_ic s).
Proof. intros [Hm Hl]. by apply fmachM_ok, lock_ok. Qed.

Lemma ic_release s ic : ic_free s →
  fmachM (smpM (release L_icache)) (set_icache ic (lock_ic s)) = Ok tt (set_icache ic s).
Proof.
  intros [Hm Hl]. erewrite fmachM_ok.
  2:{ cbn [f_t set_icache lock_ic set_ft]. rewrite tget_set. by apply unlock_ok'. }
  unfold set_ft, set_icache, lock_ic. cbn. by rewrite tset_set, tset_get.
Qed.

(** An entry taken for an inode: the old contents stay until [ilock]. *)
Definition fresh_entry dev inum ip : inode :=
  mkInode dev inum 1 0 (i_type ip) (i_major ip) (i_minor ip) (i_nlink ip)
    (i_ownerid ip) (i_groupid ip) (i_mode ip) (i_size ip) (i_addrs ip).

Lemma set_inode_locked s i ip f : icache s !! i = Some ip →
  set_inode i f (lock_ic s) = Ok tt (set_icache (<[i := f ip]> (icache s)) (lock_ic s)).
Proof. intros Hi. by apply (set_inode_ok (lock_ic s)). Qed.

Lemma iget_cases s dev inum : ic_free s →
  (∃ i ip, icache s !! i = Some ip ∧ is_entry dev inum ip ∧
     iget dev inum s = Ok i (set_icache (<[i := i_set_ref (i_ref ip + 1) ip]> (icache s)) s)) ∨
  ((∀ i a, icache s !! i = Some a → ¬ is_entry dev inum a) ∧
   ((∃ i ip, icache s !! i = Some ip ∧ i_ref ip = 0 ∧
       iget dev inum s = Ok i (set_icache (<[i := fresh_entry dev inum ip]> (icache s)) s)) ∨
    ((∀ i a, icache s !! i = Some a → i_ref a ≠ 0) ∧
     iget dev inum s = Stop (Panic "iget: no inodes") (lock_ic s)))).
Proof.
  intros Hf. unfold iget. pose proof (iget_scan_spec dev inum (icache s) 0 None) as Hs.
  step (ic_acquire s Hf). erewrite bind_ok; [|reflexivity]. cbn [icache lock_ic set_ft].
  destruct (iget_scan dev inum (icache s) 0 None) as [i|[i|]].
  - left. destruct Hs as (ip & _ & Hi & Hent). rewrite Nat.sub_0_r in Hi. exists i, ip. split_and!; try done.
    step (set_inode_locked s i ip (λ ip, i_set_ref (i_ref ip + 1) ip) Hi). by erewrite bind_ok; [|by apply ic_release].
  - right. destruct Hs as [Hno [[=]|(_ & _ & ip & Hi & Hz)]]. rewrite Nat.sub_0_r in Hi. split; [done|].
    left. exists i, ip. split_and!; try done.
    erewrite bind_ok; [|by apply set_inode_locked]. by erewrite bind_ok; [|by apply ic_release].
  - right. destruct Hs as (Hno & _ & Hall). split; [done|]. right. done.
Qed.

(** The effect of an operation on the references: one more ([k = 1]) or one
    less ([k = -1]) to one inode, the others as before. *)
Definition refs_step s s' dev inum (k : Z) : Prop :=
  icache_ok (icache s') ∧ refs dev inum (icache s') = refs dev inum (icache s) + k ∧
  (∀ d n, (d, n) ≠ (dev, inum) → refs d n (icache s') = refs d n (icache s)).

Lemma refs_step_insert s i a b k : icache_ok (icache s) → icache s !! i = Some a →
  i_dev b = i_dev a → i_inum b = i_inum a → i_ref b = i_ref a + k → 0 < i_ref a → 0 ≤ i_ref a + k →
  refs_step s (set_icache (<[i := b]> (icache s)) s) (i_dev a) (i_inum a) k.
Proof.
  intros Hok Hi Hd Hn Hr Ha Hk. assert (i < length (icache s))%nat by eauto using lookup_lt_Some.
  assert (icache_ok (<[i := b]> (icache s))) as Hok'.
  { apply (icache_ok_insert _ _ a); try done; [lia|]. intros _. left. by rewrite Hd, Hn. }
  split; [done|]. cbn [icache set_icache]. split.
  - rewrite (refs_hit _ _ (icache s) i a) by done. destruct (decide (i_ref a + k = 0)) as [Hz|Hz].
    + rewrite Hz. apply refs_miss. intros j c Hj (Hc & Hcd & Hcn). destruct (decide (i = j)) as [->|Hne].
      * rewrite list_lookup_insert_eq in Hj by done. simplify_eq. lia.
      * rewrite list_lookup_insert_ne in Hj by done. destruct Hok as [Hu _]. apply Hne. by eapply Hu.
    + rewrite (refs_hit _ _ _ i b); [done|done|by apply list_lookup_insert_eq|]. split; [lia|done].
  - intros d n Hne. apply (refs_insert_other _ _ a); try done; intros (_ & Ed & En); apply Hne; congruence.
Qed.

Lemma iget_run s dev inum : ic_free s → icache_ok (icache s) →
  (∃ i s' ip', iget dev inum s = Ok i s' ∧ f_t s' = f_t s ∧ icache s' = <[i := ip']> (icache s) ∧
     icache s' !! i = Some ip' ∧ is_entry dev inum ip' ∧ refs_step s s' dev inum 1) ∨
  (iget dev inum s = Stop (Panic "iget: no inodes") (lock_ic s) ∧
   ∀ i a, icache s !! i = Some a → 0 < i_ref a).
Proof.
  intros Hf Hok. destruct (iget_cases s dev inum Hf) as
    [(i & ip & Hi & Hent & E)|[Hno [(i & ip & Hi & Hz & E)|[Hall E]]]].
  - left. eexists i, _, _. split; [exact E|]. pose proof Hent as (Hr & Hd & Hn).
    split_and!; try done.
    + apply list_lookup_insert_eq. eauto using lookup_lt_Some.
    + split; [cbn; lia|done].
    + rewrite <- Hd, <- Hn. apply refs_step_insert; try done. lia.
  - left. assert (i < length (icache s))%nat by eauto using lookup_lt_Some.
    eexists i, _, _. split; [exact E|]. split_and!; try done; [by apply list_lookup_insert_eq|].
    assert (icache_ok (<[i := fresh_entry dev inum ip]> (icache s))) as Hok'.
    { apply (icache_ok_insert _ _ ip); try done. by right. }
    split; [done|]. split.
    + rewrite (refs_miss dev inum (icache s)) by done.
      rewrite (refs_hit _ _ _ i (fresh_entry dev inum ip)); [done|done|by apply list_lookup_insert_eq|done].
    + intros d n Hne. apply (refs_insert_other _ _ ip); try done.
      * intros (? & _). lia.
      * intros (_ & Ed & En). apply Hne. cbn in *. congruence.
  - right. split; [done|]. intros i a Hi. specialize (Hall i a Hi). destruct Hok as [_ Hp].
    pose proof (Forall_lookup_1 _ _ _ _ Hp Hi). cbn in *. lia.
Qed.

(** C24: the inode cache has one entry per inode.  [iget] returns an entry for
    the inode it was asked for and takes one reference on it; it keeps the
    invariant that no two entries in use are for the same inode, and touches
    no other reference.  It panics only if every entry is in use. *)
Theorem iget_spec s dev inum : ic_free s → icache_ok (icache s) →
  (∃ i s' ip', iget dev inum s = Ok i s' ∧ f_t s' = f_t s ∧ icache s' = <[i := ip']> (icache s) ∧
     icache s' !! i = Some ip' ∧ is_entry dev inum ip' ∧ refs_step s s' dev inum 1) ∨
  (iget dev inum s = Stop (Panic "iget: no inodes") (lock_ic s) ∧
   ∀ i a, icache s !! i = Some a → 0 < i_ref a).
Proof. apply iget_run. Qed.

Lemma idup_ok s i ip : ic_free s → icache s !! i = Some ip →
  idup i s = Ok i (set_icache (<[i := i_set_ref (i_ref ip + 1) ip]> (icache s)) s).
Proof.
  intros Hf Hi. unfold idup. step (ic_acquire s Hf).
  erewrite bind_ok; [|by apply set_inode_locked]. by erewrite bind_ok; [|by apply ic_release].
Qed.

(** [iput] of an inode that is linked, not loaded or otherwise in use. *)
Lemma iput_ok s i ip : ic_free s → icache s !! i = Some ip →
  (i_ref ip =? 1) && has (i_flags ip) I_VALID && (i_nlink ip =? 0) = false →
  iput i s = Ok tt (set_icache (<[i := i_set_ref (i_ref ip - 1) ip]> (icache s)) s).
Proof.
  intros Hf Hi Hc. unfold iput. step (ic_acquire s Hf).
  step (inode_of_ok (lock_ic s) i ip Hi). rewrite Hc. erewrite bind_ok; [|reflexivity].
  erewrite bind_ok; [|by apply set_inode_locked]. by apply ic_release.
Qed.

(** ** Locking *)

Definition busy ip : inode := i_set_flags (setf (i_flags ip) I_BUSY) ip.
Definition unbusy ip : inode := i_set_flags (clrf (i_flags ip) I_BUSY) ip.
(** The entry after [ilock] read the disk inode [d]. *)
Definition filled (d : dinode) ip : inode :=
  i_set_flags (setf (setf (i_flags ip) I_BUSY) I_VALID) (i_load d (busy ip)).

Lemma valid_busy ip : has (i_flags (busy ip)) I_VALID = has (i_flags ip) I_VALID.
Proof. unfold busy. cbn [i_flags i_set_flags]. apply (has_setf _ 0 1); lia. Qed.

(** Up to the test of [I_VALID]. *)
Lemma ilock_enter s i ip : ic_free s → icache s !! i = Some ip → 1 ≤ i_ref ip →
  has (i_flags ip) I_BUSY = false → let s1 := set_icache (<[i := busy ip]> (icache s)) s in
  ilock i s = (ip ← inode_of i;
    if negb (has (i_flags ip) I_VALID) then
      bp ← tM (t_bread (i_dev ip) (IBLOCK (i_inum ip)));
      d ← tM (t_data bp);
      set_inode i (i_load (get_dinode (i_inum ip) d)) ;;;
      tM (t_brelse bp) ;;;
      ip ← inode_of i;
      set_inode i (i_set_flags (setf (i_flags ip) I_VALID)) ;;;
      if i_type ip =? 0 then panic "ilock: no type" else ret tt
    else ret tt) s1.
Proof.
  intros Hf Hi Hr Hb s1. unfold ilock. step (inode_of_ok s i ip Hi). rewrite (proj2 (Z.ltb_ge _ _)) by lia.
  step (ic_acquire s Hf). unfold ilock_turn. step (inode_of_ok (lock_ic s) i ip Hi). rewrite Hb.
  step (set_inode_locked s i ip (i_set_flags (setf (i_flags ip) I_BUSY)) Hi).
  erewrite bind_ok; [|by apply ic_release]. done.
Qed.

Lemma ilock_valid s i ip : ic_free s → icache s !! i = Some ip → 1 ≤ i_ref ip →
  has (i_flags ip) I_BUSY = false → has (i_flags ip) I_VALID = true →
  ilock i s = Ok tt (set_icache (<[i := busy ip]> (icache s)) s).
Proof.
  intros Hf Hi Hr Hb Hv. rewrite (ilock_enter s i ip) by done.
  assert (i < length (icache s))%nat by eauto using lookup_lt_Some.
  step (inode_of_ok (set_icache (<[i := busy ip]> (icache s)) s) i (busy ip) (list_lookup_insert_eq _ _ _ ltac:(done))).
  by rewrite valid_busy, Hv.
Qed.

Lemma ilock_load s sb i ip : ic_free s → fsok s sb → icache s !! i = Some ip → 1 ≤ i_ref ip →
  has (i_flags ip) I_BUSY = false → has (i_flags ip) I_VALID = false →
  i_dev ip = ROOTDEV → 0 ≤ i_inum ip < sb_ninodes sb → (0 < v_avail (tview (f_t s)))%nat →
  let di := get_dinode (i_inum ip) (v_mem (tview (f_t s)) (IBLOCK (i_inum ip))) in
  ∃ t', ilock i s = (if di_type di =? 0 then panic "ilock: no type" else ret tt)
      (mkFs t' (<[i := filled di ip]> (icache s))) ∧
    tview t' = tview (f_t s) ∧ tmod (f_t s) t' (v_mem (tview (f_t s))) 0.
Proof.
  intros Hf Hok Hi Hr Hb Hv Hd Hin Ha di. rewrite (ilock_enter s i ip) by done.
  assert (i < length (icache s))%nat as Hlt by eauto using lookup_lt_Some.
  pose proof Hok as (Hrd & Hg & Hq & _). pose proof (dstart_pos _ _ _ Hg).
  pose proof (IBLOCK_range sb (i_inum ip) Hin). pose proof Hg as (_ & Hn & Hs & Hdl & _).
  pose proof (BBLOCK_range 0 sb Hn ltac:(lia)).
  destruct (peek_block (f_t s) (IBLOCK (i_inum ip))) as (h & t1 & t2 & E1 & E2 & E3 & V & Hm & _); try done.
  { lia. } { by apply quiet_unheld. } { by right. }
  set (s1 := set_icache (<[i := busy ip]> (icache s)) s).
  assert (∀ t x, inode_of i (mkFs t (<[i := x]> (icache s))) = Ok x (mkFs t (<[i := x]> (icache s)))) as Hino.
  { intros t x. apply inode_of_ok. by apply list_lookup_insert_eq. }
  assert (∀ t x f, set_inode i f (mkFs t (<[i := x]> (icache s))) = Ok tt (mkFs t (<[i := f x]> (icache s)))) as Hset.
  { intros t x f. rewrite (set_inode_ok _ i x) by (by apply list_lookup_insert_eq).
    unfold set_icache. cbn. by rewrite list_insert_insert_eq. }
  exists t2. split; [|done]. change s1 with (mkFs (f_t s) (<[i := busy ip]> (icache s))).
  step (Hino (f_t s) (busy ip)). rewrite valid_busy, Hv. cbn [negb i_dev i_inum busy i_set_flags]. rewrite Hd.
  erewrite bind_ok; [|apply lift_ok; exact E1]. erewrite bind_ok; [|apply lift_ok; exact E2].
  unfold set_ft. cbn [icache]. fold di.
  step (Hset t1 (busy ip) (i_load di)). erewrite bind_ok; [|apply lift_ok; exact E3].
  unfold set_ft. cbn [icache]. step (Hino t2 (i_load di (busy ip))).
  step (Hset t2 (i_load di (busy ip)) (i_set_flags (setf (i_flags (i_load di (busy ip))) I_VALID))). done.
Qed.

(** A second process finds the inode busy and sleeps until [iunlock]. *)
Lemma ilock_busy s i ip j p : running (tmach (f_t s)) j p → lfree L_icache (tmach (f_t s)) →
  lfree L_ptable (tmach (f_t s)) → icache s !! i = Some ip → 1 ≤ i_ref ip → has (i_flags ip) I_BUSY = true →
  ilock i s = Stop Switch (set_ft (set_tmach
    (put_to_sleep (inode_chan i) j p (mlocked L_ptable (tmach (f_t s)))) (f_t s)) s).
Proof.
  intros Hrun Hlk Hpt Hi Hr Hb. unfold ilock. step (inode_of_ok s i ip Hi). rewrite (proj2 (Z.ltb_ge _ _)) by lia.
  step (ic_acquire s (conj (proj1 Hrun) Hlk)). unfold ilock_turn. step (inode_of_ok (lock_ic s) i ip Hi). rewrite Hb.
  erewrite bind_stop; [done|]. unfold fmachM. erewrite lift_stop; [|apply lift_stop].
  2:{ cbn [f_t lock_ic set_ft]. rewrite tget_set. by apply sleep_ok. }
  cbn [f_t lock_ic set_ft]. unfold set_ft. cbn [icache]. by rewrite tset_set.
Qed.

Lemma iunlock_ok s i ip : ic_free s → lfree L_ptable (tmach (f_t s)) → icache s !! i = Some ip →
  has (i_flags ip) I_BUSY = true → 1 ≤ i_ref ip →
  iunlock i s = Ok tt (mkFs (set_tmach (set_ptable (wake (inode_chan i) <$> ptable (tmach (f_t s)))
    (tmach (f_t s))) (f_t s)) (<[i := unbusy ip]> (icache s))).
Proof.
  intros [Hm Hl] Hp Hi Hb Hr. unfold iunlock. step (inode_of_ok s i ip Hi). rewrite Hb. cbn [negb orb].
  rewrite (proj2 (Z.ltb_ge _ _)) by lia. step (ic_acquire s (conj Hm Hl)).
  erewrite bind_ok; [|by apply set_inode_locked].
  erewrite bind_ok.
  2:{ apply fmachM_ok. cbn [f_t set_icache lock_ic set_ft]. rewrite tget_set.
      apply wakeup_ok; [by apply mok_mlocked|by apply lfree_mlocked]. }
  erewrite fmachM_ok.
  2:{ cbn [f_t set_icache lock_ic set_ft]. rewrite tget_set. by apply unlock_ok. }
  unfold set_ft, set_icache, lock_ic. cbn. by rewrite !tset_set.
Qed.
End run.
