(* ===== verification/DirThms.v ===== *)
(** * Paths and directories

    [skipelem] walks the components of a path; a directory is a file of
    entries, and [dirlookup] and [dirlink] search and extend its list of
    entries. *)

From S2P Require Import Prelude Bytes Spinlock Sched Bio BioSpec BufLayer Ondisk Log Txn CString Fs FsAlloc FsMap FsFile FsRw Icache Dir Mkfs Boot FsThms.
From Stdlib Require Import FunctionalExtensionality.

(** ** Paths *)

(** The non-empty components of a path, [cur] being the one being read. *)
Fixpoint comps (cur p : list Z) : list (list Z) :=
  match p with
  | [] => match cur with [] => [] | _ => [cur] end
  | c :: p' =>
      if c =? SLASH then match cur with [] => comps [] p' | _ => cur :: comps [] p' end
      else comps (cur ++ [c]) p'
  end.
Definition elements (p : list Z) : list (list Z) := comps [] p.

Lemma elements_skip p : elements (skip_slash p) = elements p.
Proof.
  unfold elements. induction p as [|c p IH]; [done|]. cbn.
  destruct (Z.eqb_spec c SLASH) as [->|Hc]; [done|]. cbn. by rewrite (proj2 (Z.eqb_neq _ _) Hc).
Qed.

Lemma skip_slash_head p : peek (skip_slash p) 0 ≠ SLASH.
Proof. induction p as [|c p IH]; [done|]. cbn. by destruct (Z.eqb_spec c SLASH). Qed.

Lemma skip_slash_length p : (length (skip_slash p) ≤ length p)%nat.
Proof. induction p as [|c p IH]; cbn; [lia|]. destruct (c =? SLASH); cbn; lia. Qed.

Lemma skip_slash_nz p : Forall (λ c, c ≠ 0) p → Forall (λ c, c ≠ 0) (skip_slash p).
Proof. induction 1 as [|c p Hc Hp IH]; cbn; [done|]. destruct (c =? SLASH); [done|by constructor]. Qed.

Lemma comps_elem cur p : Forall (λ c, c ≠ 0) p → cur ++ take (elem_len p) p ≠ [] →
  comps cur p = (cur ++ take (elem_len p) p) :: elements (drop (elem_len p) p).
Proof.
  intros Hp. revert cur. induction Hp as [|c p Hc Hp IH]; intros cur Hne; cbn in *.
  - rewrite app_nil_r in *. by destruct cur.
  - unfold elements. rewrite (proj2 (Z.eqb_neq c 0)) in * by done. rewrite orb_false_r in *.
    destruct (Z.eqb_spec c SLASH) as [->|Hs]; cbn in *.
    + rewrite app_nil_r in *. by destruct cur.
    + rewrite IH; by rewrite <- app_assoc.
Qed.

Lemma elem_len_le p : (elem_len p ≤ length p)%nat.
Proof. induction p as [|c p IH]; cbn; [lia|]. destruct (_ || _); lia. Qed.

Lemma cstr_full l : Forall (λ c, c ≠ 0) l → cstr l = l.
Proof. intros Hl. rewrite <- (app_nil_r l) at 1. rewrite cstr_app_nz by done. apply app_nil_r. Qed.

(** The buffer after [memmove] of the component and, if it fits, the NUL. *)
Lemma name_buffer (e name : list Z) : Forall (λ c, c ≠ 0) e → length name = DIRSIZ →
  let name' := if (DIRSIZ <=? length e)%nat then splice 0 (take DIRSIZ e) name
               else splice 0 (e ++ [0]) name in
  cstr name' = take DIRSIZ e ∧ length name' = DIRSIZ.
Proof.
  intros He Hn name'. unfold name'. destruct (Nat.leb_spec DIRSIZ (length e)) as [Hl|Hl].
  - assert (length (take DIRSIZ e) = length name) as Hlen by (rewrite length_take; lia).
    rewrite splice_all by done. split; [|congruence]. apply cstr_full. by apply Forall_take.
  - rewrite take_ge by lia. split.
    + unfold splice. rewrite take_0, <- app_assoc. cbn [app]. rewrite cstr_app_nz by done. apply app_nil_r.
    + rewrite splice_length; [done|]. rewrite length_app. cbn. lia.
Qed.

Lemma elements_nil p : Forall (λ c, c ≠ 0) p → peek p 0 ≠ SLASH → peek p 0 = 0 ↔ elements p = [].
Proof.
  intros Hp Hs. destruct p as [|c p]; [done|]. inversion Hp as [|? ? Hc Hp']; subst. cbn in Hs. cbn [peek nth].
  split; [done|]. unfold elements. rewrite comps_elem; [done|done|]. cbn.
  rewrite (proj2 (Z.eqb_neq c SLASH)), (proj2 (Z.eqb_neq c 0)) by done. done.
Qed.

(** C31: [skipelem] enumerates the components of a path.  It returns null
    exactly when the path has none; otherwise the first component, cut to
    [DIRSIZ] bytes, is in [name], and the rest, which has no leading slash,
    has the remaining components. *)
Theorem skipelem_elements path name : Forall (λ c, c ≠ 0) path → length name = DIRSIZ →
  match skipelem path name with
  | None => elements path = []
  | Some (rest, name') => ∃ e, elements path = e :: elements rest ∧ cstr name' = take DIRSIZ e ∧
      length name' = DIRSIZ ∧ peek rest 0 ≠ SLASH ∧ (peek rest 0 = 0 ↔ elements rest = []) ∧
      Forall (λ c, c ≠ 0) rest ∧ (length rest < length path)%nat
  end.
Proof.
  intros Hp Hn. unfold skipelem. set (s := skip_slash path).
  assert (Forall (λ c, c ≠ 0) s) as Hs by (by apply skip_slash_nz).
  assert (elements s = elements path) as Ee by apply elements_skip.
  pose proof (skip_slash_head path) as Hh. fold s in Hh. pose proof (skip_slash_length path) as Hl. fold s in Hl.
  destruct (Z.eqb_spec (peek s 0) 0) as [Hz|Hz].
  - rewrite <- Ee. by apply elements_nil.
  - set (e := take (elem_len s) s). assert (Forall (λ c, c ≠ 0) e) as He by (by apply Forall_take).
    assert (length e = elem_len s) as Hle by (unfold e; rewrite length_take; pose proof (elem_len_le s); lia).
    assert (e ≠ []) as Hne.
    { unfold e. destruct s as [|c s']; [done|]. cbn in *. 
      rewrite (proj2 (Z.eqb_neq c SLASH)), (proj2 (Z.eqb_neq c 0)) by done. done. }
    assert (0 < elem_len s)%nat by (destruct e; [done|]; cbn in Hle; lia).
    destruct (name_buffer e name He Hn) as [Hc1 Hc2]. rewrite Hle in Hc1, Hc2.
    pose proof (Forall_drop _ (elem_len s) _ Hs) as Hd.
    pose proof (skip_slash_length (drop (elem_len s) s)) as Hld. rewrite length_drop in Hld.
    pose proof (elem_len_le s) as Hel.
    assert (DIRSIZ <= elem_len s → take DIRSIZ e = take DIRSIZ s)%nat as Et.
    { intros E. unfold e. rewrite take_take. f_equal. lia. }
    replace (if (DIRSIZ <=? elem_len s)%nat then splice 0 (take DIRSIZ s) name
      else splice 0 (e ++ [0]) name) with
      (if (DIRSIZ <=? elem_len s)%nat then splice 0 (take DIRSIZ e) name else splice 0 (e ++ [0]) name)
      by (destruct (Nat.leb_spec DIRSIZ (elem_len s)); [by rewrite Et|done]).
    exists e. split_and!.
    + rewrite <- Ee, elements_skip. unfold elements at 1. by apply (comps_elem []).
    + exact Hc1.
    + exact Hc2.
    + apply skip_slash_head.
    + apply elements_nil; [by apply skip_slash_nz|apply skip_slash_head].
    + by apply skip_slash_nz.
    + lia.
Qed.

Lemma skipelem_elements_witness :
  skipelem [97; 47; 47; 98; 98] (replicate DIRSIZ 0) = Some ([98; 98], 97 :: replicate 13 0) ∧
  ∃ e, elements [97; 47; 47; 98; 98] = e :: elements [98; 98].
Proof.
  split; [reflexivity|].
  pose proof (skipelem_elements [97; 47; 47; 98; 98] (replicate DIRSIZ 0)) as He.
  change (skipelem [97; 47; 47; 98; 98] (replicate DIRSIZ 0)) with (Some ([98; 98], 97 :: replicate 13 0)) in He.
  destruct He as (e & E & _); [repeat (constructor; [lia|]); constructor|reflexivity|]. by exists e.
Defined.

(** ** Directories *)

(** The entries in the first [n] slots of a directory's bytes. *)
Definition slots (l : list Z) (n : nat) : list dirent :=
  (λ k, dirent_dec (slice (DIRENT * k) DIRENT l)) <$> seq 0 n.

(** An entry in use for [name]. *)
Definition names (name : list Z) (de : dirent) : Prop := de_inum de ≠ 0 ∧ namecmp name (de_name de) = 0.
#[export] Instance names_dec name de : Decision (names name de).
Proof. unfold names. apply _. Defined.

(** The i-number and slot a directory gives for a name. *)
Definition dfind (name : list Z) (es : list dirent) : option (nat * Z) :=
  match list_find (names name) es with
  | Some (k, de) => Some (k, de_inum de)
  | None => None
  end.

Definition first_empty (es : list dirent) : nat :=
  match list_find (λ de, de_inum de = 0) es with
  | Some (k, _) => k
  | None => length es
  end.

Lemma slots_length l n : length (slots l n) = n.
Proof. unfold slots. by rewrite length_fmap, length_seq. Qed.

Lemma slots_lookup l n k : (k < n)%nat → slots l n !! k = Some (dirent_dec (slice (DIRENT * k) DIRENT l)).
Proof. intros Hk. unfold slots. by rewrite list_lookup_fmap, lookup_seq_lt. Qed.

(** Writing the entry of one slot. *)
Lemma slots_write l n k de : (DIRENT * (k + 1) ≤ length l)%nat → length (dirent_enc de) = DIRENT →
  0 ≤ de_inum de < 2 ^ 16 → length (de_name de) = DIRSIZ → (k < n)%nat →
  slots (splice (DIRENT * k) (dirent_enc de) l) n = <[k := de]> (slots l n).
Proof.
  intros Hl He Hi Hn Hk. apply list_eq. intros j. destruct (decide (j < n)%nat) as [Hj|Hj].
  - rewrite slots_lookup by done. destruct (decide (k = j)) as [->|Hne].
    + rewrite list_lookup_insert_eq by (by rewrite slots_length). f_equal.
      rewrite <- He at 2. rewrite slice_splice_same by (rewrite He; lia).
      rewrite <- (app_nil_r (dirent_enc de)). by apply dirent_dec_enc.
    + rewrite list_lookup_insert_ne, slots_lookup by done. do 2 f_equal.
      apply slice_splice_other; rewrite He; unfold DIRENT in *; lia.
  - rewrite !lookup_ge_None_2; [done| |]; rewrite ?length_insert, slots_length; lia.
Qed.

Lemma slots_S l n : slots l (S n) = slots l n ++ [dirent_dec (slice (DIRENT * n) DIRENT l)].
Proof. unfold slots. by rewrite seq_S, fmap_app. Qed.

(** The abstract effect of adding an entry. *)
Definition add_entry (de : dirent) (es : list dirent) : list dirent :=
  if decide (first_empty es < length es)%nat then <[first_empty es := de]> es else es ++ [de].

Lemma first_empty_spec es : (first_empty es ≤ length es)%nat ∧
  (∀ k de, (k < first_empty es)%nat → es !! k = Some de → de_inum de ≠ 0) ∧
  ((first_empty es < length es)%nat → ∃ de, es !! first_empty es = Some de ∧ de_inum de = 0).
Proof.
  unfold first_empty. destruct (list_find _ es) as [[k de]|] eqn:E.
  - apply list_find_Some in E as (Hk & Hz & Hlt). split_and!; [apply lookup_lt_Some in Hk; lia| |by eauto].
    intros j d Hj Hd. by eapply Hlt.
  - apply list_find_None in E. rewrite Forall_forall in E. split_and!; [lia| |lia].
    intros j d _ Hd. apply E. by eapply list_elem_of_lookup_2.
Qed.

Lemma dfind_None name es : dfind name es = None ↔ ∀ k de, es !! k = Some de → ¬ names name de.
Proof.
  unfold dfind. destruct (list_find _ es) as [[k de]|] eqn:E.
  - apply list_find_Some in E as (Hk & Hn & _). split; [done|]. intros Ha. by destruct (Ha k de).
  - apply list_find_None in E. rewrite Forall_forall in E. split; [|done].
    intros _ k de Hk. apply E. by eapply list_elem_of_lookup_2.
Qed.

Lemma dfind_Some name es k n : dfind name es = Some (k, n) ↔
  ∃ de, es !! k = Some de ∧ names name de ∧ de_inum de = n ∧
    ∀ j d, (j < k)%nat → es !! j = Some d → ¬ names name d.
Proof.
  unfold dfind. destruct (list_find _ es) as [[k' de]|] eqn:E.
  - split.
    + intros [= <- <-]. apply list_find_Some in E as (Hk & Hn & Hlt). exists de. split_and!; try done.
      intros j d Hj Hd. by eapply Hlt.
    + intros (d & Hd & Hn & Ei & Hlt). assert (list_find (names name) es = Some (k, d)) as E'.
      { apply list_find_Some. split_and!; try done. intros j y Hy Hj. by eapply Hlt. }
      rewrite E in E'. simplify_eq. done.
  - split; [done|]. apply list_find_None in E. rewrite Forall_forall in E.
    intros (d & Hd & Hn & _). exfalso. apply (E d); [|done]. by eapply list_elem_of_lookup_2.
Qed.

Lemma lookup_add_entry de es j : add_entry de es !! j =
  if decide (j = first_empty es) then Some de else es !! j.
Proof.
  destruct (first_empty_spec es) as (Hle & _ & _). unfold add_entry. case_decide as Hf.
  - case_decide as Hj; [subst; by apply list_lookup_insert_eq|by rewrite list_lookup_insert_ne].
  - assert (first_empty es = length es) as -> by lia. case_decide as Hj.
    + subst. rewrite lookup_app_r by done. by rewrite Nat.sub_diag.
    + destruct (decide (j < length es)%nat); [by rewrite lookup_app_l|].
      rewrite !lookup_ge_None_2; [done|lia|]. rewrite length_app. cbn. lia.
Qed.

(** Adding an entry for a name that was absent
    makes the name resolve to it, in the first empty slot, and changes what
    no other name resolves to. *)
Lemma dfind_add name de es : names name de → dfind name es = None →
  dfind name (add_entry de es) = Some (first_empty es, de_inum de) ∧
  ∀ name', ¬ names name' de → dfind name' (add_entry de es) = dfind name' es.
Proof.
  intros Hn Hnone. destruct (first_empty_spec es) as (Hle & Hbef & Hat). split.
  - apply dfind_Some. exists de. rewrite lookup_add_entry, decide_True by done. split_and!; try done.
    intros j d Hj. rewrite lookup_add_entry, decide_False by lia. rewrite dfind_None in Hnone. apply Hnone.
  - intros name' Hn'. destruct (dfind name' es) as [[k n]|] eqn:E.
    + apply dfind_Some in E as (d & Hk & Hd & Ei & Hlt). apply dfind_Some. exists d.
      assert (k ≠ first_empty es) as Hne.
      { intros ->. destruct Hat as (d' & Hd' & Hz); [by eapply lookup_lt_Some|]. simplify_eq. by destruct Hd. }
      rewrite lookup_add_entry, decide_False by done. split_and!; try done.
      intros j d' Hj. rewrite lookup_add_entry. case_decide; [by intros [= <-]|by apply Hlt].
    + apply dfind_None. rewrite dfind_None in E. intros j d. rewrite lookup_add_entry.
      case_decide; [by intros [= <-]|by apply E].
Qed.

Lemma dfind_cons name de es : dfind name (de :: es) =
  if decide (names name de) then Some (0%nat, de_inum de)
  else match dfind name es with Some (j, n) => Some (S j, n) | None => None end.
Proof.
  unfold dfind. cbn [list_find]. case_decide; [done|].
  by destruct (list_find (names name) es) as [[j d]|].
Qed.

Lemma first_empty_cons de es : first_empty (de :: es) = if decide (de_inum de = 0) then 0%nat else S (first_empty es).
Proof.
  unfold first_empty. cbn [list_find]. case_decide; [done|].
  by destruct (list_find _ es) as [[j d]|].
Qed.

Section run.
Context {T : Type} `{TxnLaws T} `{DevSw T}.
Implicit Types (s : fs T) (t : T) (ip : inode).

Abbreviation mem s := (v_mem (tview (f_t s))).
Abbreviation limit s := (tlimit (f_t s)).

Definition nslots ip : nat := Z.to_nat (i_size ip / DE).
Definition dir_entries s ip : list dirent := slots (content s ip) (nslots ip).

(** A directory that can be searched. *)
Definition dir_ok s sb dp ip : Prop :=
  fsok s sb ∧ file_ok s sb dp ip ∧ mapped s ip ∧ i_type ip = T_DIR ∧ i_size ip mod DE = 0 ∧
  (0 < v_avail (tview (f_t s)))%nat.

(** [t'] is [f_t s] up to wakeups. *)
Definition same_view s t' : Prop := tview t' = tview (f_t s) ∧ tmod (f_t s) t' (mem s) 0.

Lemma dir_size s sb dp ip : dir_ok s sb dp ip → i_size ip = DE * Z.of_nat (nslots ip) ∧ i_size ip ≤ MAXBYTES.
Proof.
  intros (_ & (_ & _ & _ & Hsz) & _ & _ & Hmod & _). split; [|lia]. unfold nslots, DE, DIRENT in *.
  pose proof (Z.div_mod (i_size ip) (Z.of_nat 16)). pose proof (Z.div_pos (i_size ip) (Z.of_nat 16)). lia.
Qed.

Lemma same_view_refl s sb : fsok s sb → same_view s (f_t s).
Proof. intros (Hr & _). split; [done|by apply tmod_refl]. Qed.

Lemma same_view_trans s t1 t2 : same_view s t1 → same_view (set_ft t1 s) t2 → same_view s t2.
Proof.
  intros [V1 M1] [V2 M2]. cbn [f_t set_ft] in *. rewrite V1 in *. split; [done|].
  by eapply (tmod_trans (f_t s) t1 t2 _ _ 0 0).
Qed.

Lemma same_view_content s t' ip : same_view s t' → content (set_ft t' s) ip = content s ip.
Proof. intros [V _]. unfold content. cbn [f_t set_ft]. by rewrite V. Qed.

Lemma same_view_dir s sb dp ip t' : dir_ok s sb dp ip → same_view s t' →
  dir_ok (set_ft t' s) sb dp ip ∧ dir_entries (set_ft t' s) ip = dir_entries s ip.
Proof.
  intros (Hok & Hf & Hm & Hty & Hmod & Ha) Hs. pose proof Hs as [V M1]. pose proof M1 as (_ & _ & L & _).
  split; [|unfold dir_entries; by rewrite same_view_content].
  split; [by apply view_fsok|]. split; [by apply view_file_ok|]. split.
  - intros k Hk Hks. cbn [f_t set_ft]. rewrite V. by apply Hm.
  - cbn [f_t set_ft]. by rewrite V.
Qed.

(** Reading the entry of slot [k]. *)
Lemma read_slot s sb dp ip k : dir_ok s sb dp ip → (k < nslots ip)%nat →
  ∃ t' l, readi dp (DE * Z.of_nat k) DE s = Ok (DE, l) (set_ft t' s) ∧ same_view s t' ∧
    dir_entries s ip !! k = Some (dirent_dec l).
Proof.
  intros Hd Hk. destruct (dir_size s sb dp ip Hd) as [Hsz Hmax]. pose proof Hd as (Hok & Hf & Hm & Hty & _ & Ha).
  destruct (readi_ok s sb dp ip (DE * Z.of_nat k) DE Hok Hf Hm) as (t' & E & V & Hm'); try done.
  { by rewrite Hty. } { unfold DE, DIRENT in *. lia. } { unfold DE, DIRENT, MAXBYTES in *. lia. }
  replace (Z.min DE (i_size ip - DE * Z.of_nat k)) with DE in E by (unfold DE, DIRENT in *; lia).
  eexists t', _. split; [exact E|]. split; [done|]. unfold dir_entries. rewrite slots_lookup by done.
  do 3 f_equal. unfold DE, DIRENT. lia.
Qed.

Lemma slot_offset ip sb s dp k : dir_ok s sb dp ip → (k < nslots ip)%nat →
  u32 (DE * Z.of_nat k + DE) = DE * Z.of_nat (S k) ∧ (i_size ip <=? DE * Z.of_nat k) = false.
Proof.
  intros Hd Hk. destruct (dir_size s sb dp ip Hd) as [Hsz Hmax]. unfold DE, DIRENT, MAXBYTES in *. split.
  - rewrite wrap_small; lia.
  - apply Z.leb_gt. lia.
Qed.

Lemma lookup_loop fuel s sb dp ip name k : dir_ok s sb dp ip → (k ≤ nslots ip)%nat →
  (nslots ip - k < fuel)%nat →
  ∃ t', loopM fuel (lookup_step dp name) (DE * Z.of_nat k) s =
      Ok (match dfind name (drop k (dir_entries s ip)) with
          | Some (j, n) => Some (DE * Z.of_nat (k + j), n)
          | None => None
          end) (set_ft t' s) ∧ same_view s t'.
Proof.
  revert s k. induction fuel as [|fuel IH]; intros s k Hd Hk Hfu; [lia|]. cbn [loopM].
  destruct (dir_size s sb dp ip Hd) as [Hsz _]. pose proof Hd as (Hok & (Hip & _) & _).
  destruct (decide (k = nslots ip)) as [->|Hne].
  - exists (f_t s). split; [|by eapply same_view_refl]. unfold lookup_step.
    erewrite bind_ok; [|erewrite bind_ok; [|by apply inode_of_ok]].
    2:{ rewrite (proj2 (Z.leb_le _ _)) by lia. reflexivity. }
    rewrite drop_ge by (unfold dir_entries; by rewrite slots_length). by destruct s.
  - destruct (read_slot s sb dp ip k) as (t1 & l & E1 & Hs1 & Hl); [done|lia|].
    destruct (slot_offset ip sb s dp k) as [Ho Hb]; [done|lia|].
    destruct (same_view_dir s sb dp ip t1 Hd Hs1) as [Hd1 He1].
    assert (lookup_step dp name (DE * Z.of_nat k) s = Ok (if decide (names name (dirent_dec l))
      then inr (Some (DE * Z.of_nat k, de_inum (dirent_dec l))) else inl (DE * Z.of_nat (S k))) (set_ft t1 s)) as Es.
    { unfold lookup_step. step (inode_of_ok s dp ip Hip). rewrite Hb. step E1. rewrite Z.eqb_refl. cbn [negb snd].
      rewrite Ho. unfold names. set (de := dirent_dec l). destruct (Z.eqb_spec (de_inum de) 0) as [Hz|Hz].
      - rewrite decide_False; [done|]. intros [? _]. done.
      - destruct (Z.eqb_spec (namecmp name (de_name de)) 0) as [Hn|Hn].
        + by rewrite decide_True.
        + rewrite decide_False; [done|]. by intros [_ ?]. }
    step Es. rewrite (drop_S _ _ _ Hl), dfind_cons. case_decide as Hn.
    + exists t1. split; [|done]. by rewrite Nat.add_0_r.
    + destruct (IH (set_ft t1 s) (S k)) as (t2 & E2 & Hs2); [done|lia|lia|]. rewrite He1 in E2.
      exists t2. split; [|by eapply same_view_trans]. rewrite E2. f_equal.
      destruct (dfind name (drop (S k) (dir_entries s ip))) as [[j n]|]; [|done]. do 3 f_equal. lia.
Qed.

(** [dirlookup] is a lookup in the abstract directory, followed by [iget]. *)
Lemma dirlookup_run s sb dp ip name : dir_ok s sb dp ip →
  ∃ t', same_view s t' ∧ dirlookup dp name s =
    match dfind name (dir_entries s ip) with
    | Some (k, n) => (i ← iget ROOTDEV n; ret (Some (i, DE * Z.of_nat k))) (set_ft t' s)
    | None => Ok None (set_ft t' s)
    end.
Proof.
  intros Hd. pose proof Hd as (Hok & (Hip & Hdev & _ & _) & _ & Hty & _).
  destruct (lookup_loop (dir_fuel (i_size ip)) s sb dp ip name 0) as (t' & E & Hs); [done|lia| |].
  { unfold dir_fuel, nslots. lia. }
  exists t'. split; [done|]. unfold dirlookup. step (inode_of_ok s dp ip Hip). rewrite Hty, Z.eqb_refl. cbn [negb].
  change (DE * Z.of_nat 0) with 0 in E. step E. rewrite drop_0.
  destruct (dfind name (dir_entries s ip)) as [[j n]|]; [|done].
  step (inode_of_ok (set_ft t' s) dp ip Hip). by rewrite Hdev.
Qed.

Lemma empty_loop fuel s sb dp ip k : dir_ok s sb dp ip → (k ≤ nslots ip)%nat →
  (nslots ip - k < fuel)%nat →
  ∃ t', loopM fuel (empty_step dp) (DE * Z.of_nat k) s =
      Ok (DE * Z.of_nat (k + first_empty (drop k (dir_entries s ip)))) (set_ft t' s) ∧ same_view s t'.
Proof.
  revert s k. induction fuel as [|fuel IH]; intros s k Hd Hk Hfu; [lia|]. cbn [loopM].
  destruct (dir_size s sb dp ip Hd) as [Hsz Hmax]. pose proof Hd as (Hok & (Hip & _) & _).
  assert (u32 (DE * Z.of_nat k) = DE * Z.of_nat k) as Hu.
  { apply wrap_small. unfold DE, DIRENT, MAXBYTES in *. lia. }
  destruct (decide (k = nslots ip)) as [->|Hne].
  - exists (f_t s). split; [|by eapply same_view_refl]. unfold empty_step.
    erewrite bind_ok; [|erewrite bind_ok; [|by apply inode_of_ok]].
    2:{ rewrite Hu, (proj2 (Z.leb_le _ _)) by lia. reflexivity. }
    rewrite drop_ge by (unfold dir_entries; by rewrite slots_length). cbn. rewrite Nat.add_0_r. by destruct s.
  - destruct (read_slot s sb dp ip k) as (t1 & l & E1 & Hs1 & Hl); [done|lia|].
    destruct (slot_offset ip sb s dp k) as [_ Hb]; [done|lia|].
    destruct (same_view_dir s sb dp ip t1 Hd Hs1) as [Hd1 He1].
    assert (empty_step dp (DE * Z.of_nat k) s = Ok (if decide (de_inum (dirent_dec l) = 0)
      then inr (DE * Z.of_nat k) else inl (DE * Z.of_nat (S k))) (set_ft t1 s)) as Es.
    { unfold empty_step. step (inode_of_ok s dp ip Hip). rewrite Hu, Hb. step E1. rewrite Z.eqb_refl. cbn [negb snd].
      destruct (Z.eqb_spec (de_inum (dirent_dec l)) 0); [by rewrite decide_True|rewrite decide_False by done].
      unfold ret. do 2 f_equal. unfold DE, DIRENT. lia. }
    step Es. rewrite (drop_S _ _ _ Hl), first_empty_cons. case_decide as Hz.
    + exists t1. split; [|done]. by rewrite Nat.add_0_r.
    + destruct (IH (set_ft t1 s) (S k)) as (t2 & E2 & Hs2); [done|lia|lia|]. rewrite He1 in E2.
      exists t2. split; [|by eapply same_view_trans]. rewrite E2. do 2 f_equal. lia.
Qed.

Definition new_entry (name : list Z) (inum : Z) : dirent := mkDirent (u16 inum) (strncpy name DIRSIZ).

Lemma new_entry_enc name inum : length (dirent_enc (new_entry name inum)) = DIRENT.
Proof. unfold dirent_enc. rewrite length_app, le_bytes_length. cbn [new_entry de_name]. by rewrite strncpy_length. Qed.

Lemma new_entry_names name inum name' : 0 < inum < 2 ^ 16 →
  names name' (new_entry name inum) ↔ take DIRSIZ (cstr name') = take DIRSIZ (cstr name).
Proof.
  intros Hi. unfold names, namecmp. cbn [new_entry de_inum de_name]. rewrite strncmp_eq, cstr_strncpy, take_take.
  rewrite Nat.min_id, wrap_small by lia. split; [by intros [_ ?]|]. intros ?. split; [lia|done].
Qed.

Lemma slot_iters k : iters (DE * Z.of_nat k) DE = 1%nat.
Proof.
  unfold iters, DE, DIRENT, BSIZE. cbn [Z.leb]. change (Z.of_nat 16) with 16. change (Z.of_nat 512) with 512.
  change (16 <=? 0) with false. cbn iota.
  replace (16 * Z.of_nat k) with (Z.of_nat k * 16) by lia. change 512 with (32 * 16) at 1.
  rewrite Z.mul_mod_distr_r by lia. pose proof (Z.mod_pos_bound (Z.of_nat k) 32).
  assert ((Z.of_nat k mod 32 * 16 + 16 + 512 - 1) / 512 = 1) as ->; [|done].
  symmetry. apply Z.div_unique with (r := Z.of_nat k mod 32 * 16 + 15); lia.
Qed.

(** The entries after writing slot [first_empty]. *)
Lemma entries_written l n de : length (dirent_enc de) = DIRENT → 0 ≤ de_inum de < 2 ^ 16 →
  length (de_name de) = DIRSIZ → let k := first_empty (slots l n) in (DIRENT * (k + 1) ≤ length l)%nat →
  slots (splice (DIRENT * k) (dirent_enc de) l) (Nat.max n (S k)) = add_entry de (slots l n).
Proof.
  intros He Hi Hn k Hl. destruct (first_empty_spec (slots l n)) as (Hle & _ & _). rewrite slots_length in Hle.
  fold k in Hle. unfold add_entry. rewrite slots_length. fold k. case_decide as Hk.
  - rewrite Nat.max_l by lia. by apply slots_write.
  - assert (k = n) as Ek by lia. rewrite Nat.max_r by lia. rewrite slots_write by (done || lia).
    rewrite Ek, slots_S, insert_app_r_alt by (rewrite slots_length; lia). by rewrite slots_length, Nat.sub_diag.
Qed.

Lemma dirlink_run s sb dp ip name inum : dir_ok s sb dp ip → ttxn (f_t s) → 0 < inum < 2 ^ 16 →
  0 ≤ i_inum ip < sb_ninodes sb → i_size ip + DE ≤ MAXBYTES →
  budget (f_t s) 7 → (2 ≤ nfree (mem s) sb (limit s))%nat → dfind name (dir_entries s ip) = None →
  ∃ s' ip', dirlink dp name inum s = Ok 0 s' ∧ dir_ok s' sb dp ip' ∧
    dir_entries s' ip' = add_entry (new_entry name inum) (dir_entries s ip).
Proof.
  intros Hd Hx Hin Hino Hmax Hb Hnf Hno. destruct (dir_size s sb dp ip Hd) as [Hsz _].
  destruct (dirlookup_run s sb dp ip name Hd) as (t1 & Hs1 & E1). rewrite Hno in E1.
  destruct (same_view_dir s sb dp ip t1 Hd Hs1) as [Hd1 He1].
  destruct (empty_loop (dir_fuel (i_size ip)) (set_ft t1 s) sb dp ip 0) as (t2 & E2 & Hs2); [done|lia|unfold dir_fuel, nslots; lia|].
  pose proof (same_view_trans _ _ _ Hs1 Hs2) as Hs12. change (set_ft t2 (set_ft t1 s)) with (set_ft t2 s) in E2.
  destruct (same_view_dir s sb dp ip t2 Hd Hs12) as [Hd2 He2].
  rewrite drop_0, He1 in E2. change (DE * Z.of_nat 0) with 0 in E2. cbn [Nat.add] in E2.
  set (k := first_empty (dir_entries s ip)) in *. set (de := new_entry name inum).
  destruct (first_empty_spec (dir_entries s ip)) as (Hle & _ & _). unfold dir_entries in Hle at 2.
  rewrite slots_length in Hle. fold k in Hle.
  pose proof Hd2 as (Hok2 & Hf2 & Hm2 & Hty & Hmod & Ha2). pose proof Hs12 as [V2 M2].
  pose proof M2 as (_ & _ & L2 & X2 & _ & _ & _ & _ & _ & Q2 & _). pose proof Hf2 as (Hip2 & _).
  assert (u32 (DE * Z.of_nat k) = DE * Z.of_nat k) as Hu.
  { apply wrap_small. unfold DE, DIRENT, MAXBYTES in *. lia. }
  destruct (writei_ok (set_ft t2 s) sb dp ip (dirent_enc de) (DE * Z.of_nat k) DE) as (s' & ip' & E3 & W).
  - exact Hok2.
  - by apply X2.
  - exact Hf2.
  - by rewrite Hty.
  - exact Hino.
  - unfold DE, DIRENT in *. lia.
  - unfold de. by rewrite new_entry_enc.
  - unfold DE, DIRENT in *. lia.
  - rewrite slot_iters. unfold budget in *. cbn [f_t set_ft]. rewrite V2. lia.
  - rewrite slot_iters. cbn [f_t set_ft]. rewrite V2, L2. lia.
  - exists s', ip'. rewrite slot_iters in W. destruct W as (Ei & Hm' & Hok' & Hf' & Eip & Ec & Hmap & _ & _).
    assert (dirent_enc de ≠ []) as Hne by (intros E; pose proof (new_entry_enc name inum) as El; fold de in El; by rewrite E in El).
    rewrite decide_False in Eip by done. unfold de in Eip. rewrite new_entry_enc in Eip. fold DE in Eip.
    assert (i_size ip' = DE * Z.of_nat (Nat.max (nslots ip) (S k))) as Hsz'.
    { rewrite Eip. cbn [i_size i_set_size i_set_addrs]. rewrite Hsz. unfold DE, DIRENT. lia. }
    assert (nslots ip' = Nat.max (nslots ip) (S k)) as Hns.
    { unfold nslots at 1. rewrite Hsz'. unfold DE, DIRENT. rewrite Z.mul_comm, Z.div_mul by lia. lia. }
    split; [|split].
    + unfold dirlink. step E1. step (inode_of_ok (set_ft t1 s) dp ip ltac:(by destruct Hd1 as (_ & (? & _) & _))).
      step E2. rewrite Hu. fold (new_entry name inum). fold de. step E3. by rewrite Z.eqb_refl.
    + split; [done|]. split; [done|]. split; [by apply Hmap|]. split; [by rewrite Eip|]. split.
      * rewrite Hsz'. unfold DE, DIRENT. rewrite Z.mul_comm. by apply Z.mod_mul.
      * destruct Hm' as (_ & _ & _ & _ & _ & _ & _ & _ & _ & _ & Ha'). cbn [f_t set_ft] in Ha'. rewrite V2 in Ha'.
        destruct Hb. lia.
    + unfold dir_entries. rewrite Hns, Ec, same_view_content by done.
      replace (Z.to_nat (DE * Z.of_nat k)) with (DIRENT * k)%nat by (unfold DE, DIRENT; lia).
      apply entries_written; cbn [de new_entry de_inum de_name].
      * apply new_entry_enc.
      * by apply wrap_range.
      * apply strncpy_length.
      * unfold content. rewrite fbytes_length by (eapply fs_blocks_ok, Hd). apply bytes_bound.
        fold (content s ip). fold (dir_entries s ip). fold k. unfold DE, DIRENT in *. lia.
Qed.


(** [dirlookup] of a name that is in the directory returns a referenced
    inode cache entry for the i-number of its first entry, with the offset of
    that entry; of a name that is not, null, and changes nothing. *)
Theorem dirlookup_spec s sb dp ip name : dir_ok s sb dp ip → ic_free s → icache_ok (icache s) →
  (∃ i a, icache s !! i = Some a ∧ i_ref a = 0) →
  match dfind name (dir_entries s ip) with
  | Some (k, n) => ∃ i s' ip', dirlookup dp name s = Ok (Some (i, DE * Z.of_nat k)) s' ∧
      icache s' !! i = Some ip' ∧ is_entry ROOTDEV n ip' ∧ refs_step s s' ROOTDEV n 1 ∧
      tview (f_t s') = tview (f_t s)
  | None => ∃ s', dirlookup dp name s = Ok None s' ∧ icache s' = icache s ∧ tview (f_t s') = tview (f_t s)
  end.
Proof.
  intros Hd [Hm Hl] Hic (j & a & Hj & Hz). destruct (dirlookup_run s sb dp ip name Hd) as (t' & [V Hmod] & E).
  destruct (dfind name (dir_entries s ip)) as [[k n]|]; [|by exists (set_ft t' s)].
  assert (ic_free (set_ft t' s)) as Hf'.
  { destruct Hmod as (_ & Hs & _). unfold ic_free. cbn [f_t set_ft]. by rewrite <- Hs. }
  destruct (iget_run (set_ft t' s) ROOTDEV n) as [(i & s' & ip' & Ei & Ef & _ & Hi & Hent & Hr)|[_ Hall]]; try done.
  - exists i, s', ip'. rewrite E. step Ei. split_and!; try done. by rewrite Ef.
  - specialize (Hall j a Hj). lia.
Qed.
End run.

(** ** On the booted machine *)

#[local] Existing Instance no_devices.

Lemma rootdir_ok : dir_ok boot_fs boot_sb 2 rootdir.
Proof.
  destruct boot_fs_ok as (Hok & _ & [_ Hb] & Hm & Hlim). split; [exact Hok|].
  unfold file_ok, mapped. rewrite Hm, Hlim. split; [|split; [|split; [reflexivity|split; [reflexivity|lia]]]].
  - split; [reflexivity|]. split; [reflexivity|]. split; [|cbn [i_size rootdir]; unfold MAXBYTES; lia].
    apply (fwf_one _ _ _ 29). intros _. split; [vm_compute; split; done|vm_compute; reflexivity].
  - intros k Hk Hs. change (i_addrs rootdir) with (29 :: replicate 10 0). rewrite baddr_one.
    cbn [i_size rootdir] in Hs. unfold BSIZE in Hs. destruct (Nat.eqb_spec k 0); [done|lia].
Qed.

Definition name_x : list Z := [120].

Lemma rootdir_entries : dir_entries boot_fs rootdir = slots (fbytes boot_mem (i_addrs rootdir)) 32.
Proof.
  destruct boot_fs_ok as (_ & _ & _ & Hm & _). unfold dir_entries, content. by rewrite Hm.
Qed.

Lemma rootdir_no_x : dfind name_x (dir_entries boot_fs rootdir) = None.
Proof. rewrite rootdir_entries. vm_compute. reflexivity. Qed.


Lemma boot_icache_ok : icache_ok (icache boot_fs).
Proof.
  change (icache boot_fs) with ([new_file; readme; rootdir] ++ replicate 47 zero_inode). split.
  - assert (∀ i a, ([new_file; readme; rootdir] ++ replicate 47 zero_inode) !! i = Some a → 0 < i_ref a →
      [new_file; readme; rootdir] !! i = Some a) as Hin.
    { intros i a [?|[_ Hr]]%lookup_app_Some Ha; [done|]. apply lookup_replicate in Hr as [-> _]. cbn in Ha. lia. }
    intros i j a b Hi Hj Ha Hb Hd Hn. apply Hin in Hi, Hj; [|done..].
    by destruct i as [|[|[|i]]], j as [|[|[|j]]]; cbn in Hi, Hj; simplify_eq.
  - repeat (constructor; [cbn; lia|]). constructor.
Qed.

Lemma boot_ic_free : ic_free boot_fs.
Proof.
  destruct boot_fs_ok as (([_ (Hm & _)] & _) & _). destruct txn_log_ok as (_ & _ & _ & _ & _ & Hk).
  split; [exact Hm|]. unfold lfree. cbn [tmach log_ops f_t boot_fs]. rewrite Hk. reflexivity.
Qed.

(** README is entry 2 of the root directory, i-number 2. *)
Lemma dirlookup_spec_witness : ∃ i s' ip',
  dirlookup 2 (Mkfs.chars "README") boot_fs = Ok (Some (i, 32)) s' ∧
  icache s' !! i = Some ip' ∧ is_entry ROOTDEV 2 ip'.
Proof.
  pose proof (dirlookup_spec boot_fs boot_sb 2 rootdir (Mkfs.chars "README")) as Hs.
  assert (dfind (Mkfs.chars "README") (dir_entries boot_fs rootdir) = Some (2%nat, 2)) as E
    by (rewrite rootdir_entries; vm_compute; reflexivity).
  rewrite E in Hs. destruct Hs as (i & s' & ip' & E1 & E2 & E3 & _).
  - exact rootdir_ok.
  - exact boot_ic_free.
  - exact boot_icache_ok.
  - exists 3%nat, zero_inode. split; reflexivity.
  - exists i, s', ip'. split; [exact E1|]. split; [exact E2|exact E3].
Defined.

Lemma iget_spec_witness : ∃ i s' ip', iget ROOTDEV 2 boot_fs = Ok i s' ∧ icache s' !! i = Some ip' ∧
  is_entry ROOTDEV 2 ip'.
Proof.
  destruct (iget_spec boot_fs ROOTDEV 2) as [(i & s' & ip' & E & _ & _ & Hi & He & _)|[_ Hall]].
  - exact boot_ic_free.
  - exact boot_icache_ok.
  - exists i, s', ip'. split; [exact E|]. split; [exact Hi|exact He].
  - specialize (Hall 3%nat zero_inode eq_refl). discriminate.
Defined.
