(* ===== verification/Kalloc.v ===== *)
(** * The page allocator (kernel/kalloc.c, include/memlayout.h, include/mmu.h)

    Memory is a store of 4096-byte pages, indexed by the kernel virtual
    address of the page.  The free list runs through the first word of the
    free pages, as in the code.  [kend] is the linker symbol [end], the first
    address after the kernel. *)

From S2P Require Import Prelude Bytes Spinlock Sched.
From Stdlib Require Import FunctionalExtensionality.

Definition PGSIZE : Z := 4096.
Definition PAGE : nat := Z.to_nat PGSIZE.
Lemma PAGE_Z : Z.of_nat PAGE = PGSIZE.
Proof. reflexivity. Qed.
#[global] Opaque PAGE.
Definition KERNBASE : Z := 0xFFFFFFFF80000000.
Definition PHYSTOP : Z := 0xE000000.

Definition v2p (a : Z) : Z := u64 (a - KERNBASE).
Definition p2v (a : Z) : Z := u64 (a + KERNBASE).
Definition PGROUNDUP (sz : Z) : Z := Z.land (u64 (sz + (PGSIZE - 1))) (u64 (Z.lnot (PGSIZE - 1))).
Definition PGROUNDDOWN (a : Z) : Z := Z.land a (u64 (Z.lnot (PGSIZE - 1))).

Lemma PGROUNDDOWN_spec a : 0 ≤ a < 2 ^ 64 → PGROUNDDOWN a = PGSIZE * (a / PGSIZE).
Proof.
  intros Ha. unfold PGROUNDDOWN, wrap. rewrite <- (Z.land_ones (Z.lnot _)) by lia.
  rewrite (Z.land_comm (Z.lnot _)), Z.land_assoc, Z.land_ones, Z.mod_small by lia.
  change (PGSIZE - 1) with (Z.ones 12). rewrite <- Z.ldiff_land, Z.ldiff_ones_r by lia.
  rewrite Z.shiftl_mul_pow2, Z.shiftr_div_pow2 by lia. change (2 ^ 12) with PGSIZE. lia.
Qed.

Lemma PGROUNDUP_spec a : 0 ≤ a → a + PGSIZE ≤ 2 ^ 64 →
  PGROUNDUP a = PGSIZE * ((a + (PGSIZE - 1)) / PGSIZE).
Proof.
  intros Ha Hb. unfold PGROUNDUP, PGSIZE in *. rewrite (wrap_small 64 (a + _)) by lia.
  apply PGROUNDDOWN_spec. lia.
Qed.

Lemma PGROUNDUP_le a : 0 ≤ a → a + PGSIZE ≤ 2 ^ 64 →
  a ≤ PGROUNDUP a < a + PGSIZE ∧ PGROUNDUP a mod PGSIZE = 0.
Proof.
  intros Ha Hb. rewrite PGROUNDUP_spec by done. rewrite Z.mul_comm, Z.mod_mul by done.
  change (PGSIZE - 1) with 4095. unfold PGSIZE in *.
  pose proof (Z.div_mod (a + 4095) 4096). pose proof (Z.mod_pos_bound (a + 4095) 4096). split; [lia|done].
Qed.

Abbreviation page := (list Z).

(** 64-bit words in a page. *)
Definition get64 (off : nat) (p : page) : Z := u64 (le_val (slice off 8 p)).
Definition put64 (off : nat) (x : Z) (p : page) : page := splice off (le_bytes 8 x) p.

Record kmem := mkKmem {
  pages : Z → page;
  use_lock : bool;
  freelist : Z              (* address of the first free page, 0 for null *)
}.

(** The allocator together with the machine whose lock it takes. *)
Record kst := mkKst { ks_m : mach; ks_k : kmem }.
Definition set_ksm (m : mach) (s : kst) : kst := mkKst m (ks_k s).
Definition set_ksk (k : kmem) (s : kst) : kst := mkKst (ks_m s) k.
Definition set_pages (f : Z → page) (k : kmem) : kmem := mkKmem f (use_lock k) (freelist k).
Definition set_freelist (x : Z) (k : kmem) : kmem := mkKmem (pages k) (use_lock k) x.

Definition L_kmem : lockid := ("kmem", 0).
Abbreviation ksM := (lift ks_m set_ksm).

(** [memset(v, c, PGSIZE)] and other stores to a page. *)
Definition set_page (v : Z) (p : page) : M kst unit :=
  modify (λ s, set_ksk (set_pages (<[v := p]> (pages (ks_k s))) (ks_k s)) s).
Definition fill_page (v c : Z) : M kst unit := set_page v (replicate PAGE c).

Section code.
Context (kend : Z).

Definition kfree (v : Z) : M kst unit :=
  if negb (v mod PGSIZE =? 0) || (v <? kend) || (PHYSTOP <=? v2p v) then panic "kfree" else
  fill_page v 1 ;;;
  s ← get;
  whenM (use_lock (ks_k s)) (ksM (smpM (acquire L_kmem))) ;;;
  s ← get;
  set_page v (put64 0 (freelist (ks_k s)) (pages (ks_k s) v)) ;;;
  modify (λ s, set_ksk (set_freelist v (ks_k s)) s) ;;;
  s ← get;
  whenM (use_lock (ks_k s)) (ksM (smpM (release L_kmem))).

Definition kalloc : M kst Z :=
  s ← get;
  whenM (use_lock (ks_k s)) (ksM (smpM (acquire L_kmem))) ;;;
  s ← get;
  let r := freelist (ks_k s) in
  whenM (negb (r =? 0)) (modify (λ s, set_ksk (set_freelist (get64 0 (pages (ks_k s) r)) (ks_k s)) s)) ;;;
  s ← get;
  whenM (use_lock (ks_k s)) (ksM (smpM (release L_kmem))) ;;;
  ret r.

(** The addresses [p] with [p + PGSIZE <= vend]. *)
Definition page_range (vstart vend : Z) : list Z :=
  let p := PGROUNDUP vstart in
  (λ k, p + PGSIZE * Z.of_nat k) <$> seq 0 (Z.to_nat ((vend - p) / PGSIZE)).

Definition freerange (vstart vend : Z) : M kst unit := for_all (page_range vstart vend) kfree.

Definition kinit1 (vstart vend : Z) : M kst unit :=
  ksM (smpM (initlock L_kmem)) ;;;
  modify (λ s, set_ksk (mkKmem (pages (ks_k s)) false (freelist (ks_k s))) s) ;;;
  freerange vstart vend.

Definition kinit2 (vstart vend : Z) : M kst unit :=
  freerange vstart vend ;;;
  modify (λ s, set_ksk (mkKmem (pages (ks_k s)) true (freelist (ks_k s))) s).

(** ** The free list *)

(** The pages the list starting at [a] links, in order. *)
Fixpoint linked (m : Z → page) (a : Z) (l : list Z) : Prop :=
  match l with
  | [] => a = 0
  | b :: l' => a = b ∧ linked m (get64 0 (m b)) l'
  end.

(** An address [kfree] accepts. *)
Definition is_page (v : Z) : Prop := v mod PGSIZE = 0 ∧ kend ≤ v ∧ v2p v < PHYSTOP ∧ 0 < v < 2 ^ 64.

Definition kinv (k : kmem) (free : list Z) : Prop :=
  linked (pages k) (freelist k) free ∧ NoDup free ∧ Forall is_page free ∧
  (∀ a, length (pages k a) = PAGE).

(** The machine allows taking the lock of the allocator. *)
Definition km_free (m : mach) : Prop := mok m ∧ lfree L_kmem m.

Lemma linked_other m a l v p : v ∉ l → linked m a l → linked (<[v := p]> m) a l.
Proof.
  revert a. induction l as [|b l IH]; intros a Hn Hl; cbn in *; [done|].
  apply not_elem_of_cons in Hn as [Hb Hn]. destruct Hl as [-> Hl]. split; [done|].
  rewrite fn_lookup_insert_ne by done. by apply IH.
Qed.

Lemma get64_put64 x p : length p = PAGE → get64 0 (put64 0 x p) = u64 x.
Proof.
  intros Hl. unfold get64, put64. rewrite <- (le_bytes_length 8 x) at 1.
  rewrite slice_splice_same by (rewrite le_bytes_length, Hl; pose proof PAGE_Z; unfold PGSIZE in *; lia).
  rewrite le_val_bytes. change (8 * Z.of_nat 8) with 64. apply wrap_wrap.
Qed.

Lemma put64_length off x p : (off + 8 ≤ length p)%nat → length (put64 off x p) = length p.
Proof. intros. unfold put64. apply splice_length. by rewrite le_bytes_length. Qed.

Lemma linked_head_range m a l : Forall is_page l → linked m a l → 0 ≤ a < 2 ^ 64.
Proof. intros Hf Hl. destruct l as [|b l]; cbn in Hl; [lia|]. destruct Hl as [-> _]. inversion Hf as [|? ? (_ & _ & _ & ?)]. lia. Qed.

(** The state after [kfree v]: the page is first on the list. *)
Definition freed (v : Z) (k : kmem) : kmem :=
  mkKmem (<[v := put64 0 (freelist k) (replicate PAGE 1)]> (pages k)) (use_lock k) v.

Lemma kfree_run s v : is_page v → km_free (ks_m s) → kfree v s = Ok tt (set_ksk (freed v (ks_k s)) s).
Proof.
  intros (Hm & Hk & Hp & _) [Hok Hl]. unfold kfree.
  rewrite (proj2 (Z.eqb_eq _ _) Hm), (proj2 (Z.ltb_ge _ _)), (proj2 (Z.leb_gt _ _)) by lia. cbn [negb orb].
  destruct s as [m [pg ul fl]]. cbn [ks_m ks_k] in *. unfold freed, set_ksk. cbn [pages use_lock freelist ks_m ks_k].
  unfold fill_page, set_page. erewrite bind_ok; [|reflexivity]. erewrite bind_ok; [|reflexivity].
  cbn [ks_k set_ksk use_lock set_pages]. destruct ul; cbn [whenM].
  - erewrite bind_ok; [|apply lift_ok; cbn; by apply lock_ok].
    go. cbn. erewrite lift_ok; [|cbn; by apply unlock_ok'].
    unfold set_ksm. cbn. by rewrite fn_insert_insert, fn_lookup_insert.
  - go. cbn. by rewrite fn_insert_insert, fn_lookup_insert.
Qed.

Lemma kinv_free v k free : is_page v → v ∉ free → kinv k free → kinv (freed v k) (v :: free).
Proof.
  intros Hp Hn (Hl & Hnd & Hf & Hlen). pose proof (linked_head_range _ _ _ Hf Hl) as Hr. split_and!.
  - cbn. split; [done|]. rewrite fn_lookup_insert, get64_put64 by done. rewrite wrap_small by lia.
    by apply linked_other.
  - by apply NoDup_cons.
  - by constructor.
  - intros a. cbn. destruct (decide (v = a)) as [->|Hne].
    + rewrite fn_lookup_insert, put64_length; rewrite length_replicate; [done|].
      pose proof PAGE_Z. unfold PGSIZE in *. lia.
    + by rewrite fn_lookup_insert_ne.
Qed.

Lemma kalloc_run s free : kinv (ks_k s) free → km_free (ks_m s) →
  kalloc s = Ok (hd 0 free) (set_ksk (mkKmem (pages (ks_k s)) (use_lock (ks_k s)) (hd 0 (tl free))) s) ∧
  kinv (mkKmem (pages (ks_k s)) (use_lock (ks_k s)) (hd 0 (tl free))) (tl free).
Proof.
  intros (Hl & Hnd & Hf & Hlen) [Hok Hlk]. destruct s as [m [pg ul fl]]. cbn [ks_m ks_k pages use_lock freelist] in *.
  assert (hd 0 free = fl) as Eh by (destruct free; cbn in *; [done|]; by destruct Hl).
  assert (fl ≠ 0 → get64 0 (pg fl) = hd 0 (tl free)) as En.
  { intros Hz. destruct free as [|a [|b l]]; cbn in *; [done|by destruct Hl as [-> ?]|by destruct Hl as (-> & -> & _)]. }
  assert (fl = 0 → hd 0 (tl free) = 0) as Ez.
  { intros ->. destruct free as [|a l]; [done|]. destruct Hl as [<- _]. inversion Hf as [|? ? (_ & _ & _ & ?)]. lia. }
  split.
  - unfold kalloc. erewrite bind_ok; [|reflexivity]. cbn [ks_k use_lock].
    rewrite Eh. destruct ul; cbn [whenM].
    + erewrite bind_ok; [|apply lift_ok; cbn; by apply lock_ok].
      go. cbn. destruct (Z.eqb_spec fl 0) as [Hz|Hz]; cbn.
      * erewrite lift_ok; [|cbn; by apply unlock_ok']. by rewrite Ez, Hz.
      * erewrite lift_ok; [|cbn; by apply unlock_ok']. unfold set_ksk, set_ksm. cbn. by rewrite En.
    + go. cbn. destruct (Z.eqb_spec fl 0) as [Hz|Hz]; cbn; [by rewrite Ez, Hz|].
      unfold set_ksk, set_freelist. cbn. by rewrite En.
  - destruct free as [|a l]; cbn in *; [done|]. destruct Hl as [_ Hl]. apply NoDup_cons in Hnd as [_ Hnd].
    inversion Hf; subst. split_and!; try done. cbn. destruct l as [|b l]; cbn in *; [done|]. by destruct Hl as [_ ?].
Qed.

(** ** Histories of the allocator *)

(** A run of the kernel: [out] are the pages handed out and not yet freed.
    The kernel frees, and writes to, only pages it was given. *)
Inductive kstep : kst * gset Z → kst * gset Z → Prop :=
  | step_alloc s s' out v : kalloc s = Ok v s' → v ≠ 0 → kstep (s, out) (s', {[v]} ∪ out)
  | step_fail s s' out : kalloc s = Ok 0 s' → kstep (s, out) (s', out)
  | step_free s s' out v : v ∈ out → kfree v s = Ok tt s' → kstep (s, out) (s', out ∖ {[v]})
  | step_store s out v p : v ∈ out → length p = PAGE →
      kstep (s, out) (set_ksk (set_pages (<[v := p]> (pages (ks_k s))) (ks_k s)) s, out).

Definition run_inv (total : nat) (c : kst * gset Z) : Prop :=
  km_free (ks_m c.1) ∧ set_Forall is_page c.2 ∧
  ∃ free, kinv (ks_k c.1) free ∧ c.2 ## list_to_set free ∧ (size c.2 + length free)%nat = total.

Lemma run_inv_step total c c' : run_inv total c → kstep c c' → run_inv total c'.
Proof.
  intros (Hm & Hp & free & Hk & Hd & Hn) Hs. destruct Hs as [s s' out v E Hz|s s' out E|s s' out v Hv E|s out v p Hv Hl];
    cbn [fst snd] in *.
  - destruct (kalloc_run s free Hk Hm) as [E' Hk']. rewrite E in E'. simplify_eq.
    destruct free as [|v l]; [done|]. cbn [hd tl length] in *. unfold run_inv. cbn [fst snd]. split_and!; try done.
    + pose proof Hk as (_ & _ & Hf & _). inversion Hf; subst. apply set_Forall_union; [by apply set_Forall_singleton|done].
    + exists l. split_and!; [done| |].
      * pose proof Hk as (_ & Hnd & _). apply NoDup_cons in Hnd as [Hnv _]. set_solver.
      * rewrite size_union by set_solver. rewrite size_singleton. lia.
  - destruct (kalloc_run s free Hk Hm) as [E' Hk']. rewrite E in E'. simplify_eq.
    destruct free as [|v l]; [by split_and!; eauto|]. cbn [hd tl length] in *.
    pose proof Hk as (_ & _ & Hf & _). inversion Hf as [|? ? (_ & _ & _ & ?)]. subst. lia.
  - assert (is_page v) as Hpv by by apply Hp. rewrite (kfree_run s v Hpv Hm) in E. simplify_eq.
    unfold run_inv. cbn [fst snd]. split_and!; [done|intros a Ha; apply Hp; set_solver|].
    exists (v :: free). split_and!; [apply kinv_free; [done|set_solver|done]|set_solver|].
    rewrite size_difference by set_solver. rewrite size_singleton. cbn [length].
    assert (size out ≠ 0)%nat by (intros Hz%size_empty_inv; set_solver). lia.
  - split_and!; try done. exists free. split_and!; try done. destruct Hk as (Hl' & Hnd & Hf & Hlen).
    split_and!; try done; cbn.
    + apply linked_other; [set_solver|done].
    + intros a. destruct (decide (v = a)) as [->|]; [by rewrite fn_lookup_insert|by rewrite fn_lookup_insert_ne].
Qed.

(** C17: the allocator never hands out a page twice and never loses one.  In
    every history of allocations, frees of pages handed out and stores to
    them, starting from a free list [free], a page [kalloc] returns is not in
    use, the pages in use and the free ones always add up, and [kalloc] fails
    only when every page is in use. *)
Theorem kalloc_history s0 free s out : kinv (ks_k s0) free → km_free (ks_m s0) →
  rtc kstep (s0, ∅) (s, out) →
  ∃ v s', kalloc s = Ok v s' ∧ (v ∉ out) ∧ ((v = 0) ↔ (size out = length free)) ∧ (v ≠ 0 → is_page v).
Proof.
  intros Hk Hm Hr. assert (run_inv (length free) (s0, ∅)) as H0.
  { unfold run_inv. cbn [fst snd]. split_and!; [done|apply set_Forall_empty|]. exists free. split_and!; [done|set_solver|]. by rewrite size_empty. }
  assert (run_inv (length free) (s, out)) as (Hm' & Hp & fr & Hk' & Hd & Hn).
  { clear Hk Hm. remember (s0, ∅) as c0. clear Heqc0. remember (s, out) as c. clear Heqc.
    induction Hr; [done|]. by apply IHHr, (run_inv_step _ x). }
  cbn [fst snd] in *. destruct (kalloc_run s fr Hk' Hm') as [E _]. eexists _, _. split; [exact E|].
  pose proof Hk' as (_ & _ & Hf & _). destruct fr as [|v l]; cbn [hd].
  - split_and!; [|cbn in Hn; split; [lia|done]|done]. intros H0'. destruct (Hp 0 H0') as (_ & _ & _ & ?). lia.
  - inversion Hf as [|? ? Hpv _]; subst. cbn in Hn. split_and!; [set_solver| |done].
    split; [destruct Hpv as (_ & _ & _ & ?); lia|lia].
Qed.

(** [kfree] panics on an address that is not the start of an allocatable
    page, before it touches memory. *)
Theorem kfree_refuses s v : v mod PGSIZE ≠ 0 ∨ v < kend ∨ PHYSTOP ≤ v2p v →
  kfree v s = Stop (Panic "kfree") s.
Proof.
  intros Hb. unfold kfree.
  destruct (Z.eqb_spec (v mod PGSIZE) 0), (Z.ltb_spec v kend), (Z.leb_spec PHYSTOP (v2p v)); try done. lia.
Qed.

Lemma freerange_run l s free : Forall is_page l → NoDup l → (∀ v, v ∈ l → v ∉ free) →
  kinv (ks_k s) free → km_free (ks_m s) →
  ∃ s', for_all l kfree s = Ok tt s' ∧ kinv (ks_k s') (reverse l ++ free) ∧ ks_m s' = ks_m s ∧
    use_lock (ks_k s') = use_lock (ks_k s).
Proof.
  revert s free. induction l as [|v l IH]; intros s free Hp Hnd Hn Hk Hm; cbn [for_all].
  { exists s. done. }
  inversion Hp; subst. apply NoDup_cons in Hnd as [Hv Hnd].
  step (kfree_run s v ltac:(done) Hm).
  destruct (IH (set_ksk (freed v (ks_k s)) s) (v :: free)) as (s' & E & Hk' & Em & Eu); try done.
  - set_solver.
  - apply kinv_free; [done|set_solver|done].
  - exists s'. split_and!; try done. rewrite reverse_cons, <- app_assoc. done.
Qed.

(** The pages of a range above the kernel are allocatable. *)
Lemma page_range_ok vstart vend : KERNBASE ≤ kend ≤ vstart → vend ≤ KERNBASE + PHYSTOP →
  vstart ≤ vend → Forall is_page (page_range vstart vend) ∧ NoDup (page_range vstart vend).
Proof.
  intros Hs He Hle. unfold KERNBASE, PHYSTOP in *.
  destruct (PGROUNDUP_le vstart) as [Hr Hm]; [lia|unfold PGSIZE; lia|]. unfold page_range. split.
  - apply Forall_fmap, Forall_forall. intros k Hk%elem_of_seq. cbn. unfold is_page.
    set (p := PGROUNDUP vstart) in *. unfold PGSIZE, v2p, KERNBASE, PHYSTOP in *.
    pose proof (Z.div_mod (vend - p) 4096). pose proof (Z.mod_pos_bound (vend - p) 4096).
    rewrite wrap_small by lia. split_and!; try lia.
    rewrite (Z.mul_comm 4096), Z.mod_add by lia. done.
  - apply NoDup_fmap_2_strong; [|apply NoDup_seq]. intros x y _ _ E. unfold PGSIZE in *. lia.
Qed.

Lemma kinit1_run s vstart vend : KERNBASE ≤ kend ≤ vstart → vstart ≤ vend ≤ KERNBASE + PHYSTOP →
  mok (ks_m s) → freelist (ks_k s) = 0 → (∀ a, length (pages (ks_k s) a) = PAGE) →
  ∃ s', kinit1 vstart vend s = Ok tt s' ∧ kinv (ks_k s') (reverse (page_range vstart vend)) ∧
    km_free (ks_m s') ∧ use_lock (ks_k s') = false.
Proof.
  intros Hk [Hv Hv'] [(c & Hc & Hb) Hpt] Hf Hl. destruct (page_range_ok vstart vend Hk Hv' Hv) as [Hp Hnd].
  unfold kinit1, initlock. erewrite bind_ok; [|by apply lift_ok, lift_ok]. erewrite bind_ok; [|reflexivity].
  match goal with |- context [freerange _ _ ?st] => set (s1 := st) end.
  destruct (freerange_run (page_range vstart vend) s1 []) as (s' & E & Hk' & Em & Eu); try done.
  - intros v _. apply not_elem_of_nil.
  - split_and!; try done. apply NoDup_nil_2.
  - split; [split; [by exists c|done]|]. unfold lfree. cbn. apply fn_lookup_insert.
  - exists s'. rewrite app_nil_r in Hk'. rewrite Em. split_and!; try done.
    split; [split; [by exists c|done]|]. unfold lfree. cbn. apply fn_lookup_insert.
Qed.

(** [kinit1] puts exactly the whole pages of its range on the free list. *)
Theorem kinit1_spec s vstart vend : KERNBASE ≤ kend ≤ vstart → vstart ≤ vend ≤ KERNBASE + PHYSTOP →
  mok (ks_m s) → freelist (ks_k s) = 0 → (∀ a, length (pages (ks_k s) a) = PAGE) →
  ∃ s', kinit1 vstart vend s = Ok tt s' ∧ kinv (ks_k s') (reverse (page_range vstart vend)) ∧
    km_free (ks_m s') ∧ use_lock (ks_k s') = false.
Proof. apply kinit1_run. Qed.
End code.

(** ** Three pages after a two-megabyte kernel *)

Definition ex_kend : Z := KERNBASE + 0x200000.
Definition ex_kst : kst :=
  mkKst (mkMach (mkSmp 0 [mkCpu true 0 true None] (λ _, free_lock)) (replicate NPROC zero_proc) 1 None)
    (mkKmem (λ _, replicate PAGE 0) false 0).

Lemma ex_mok : mok (ks_m ex_kst).
Proof. split; [|done]. eexists. split; [done|]. unfold cpu_bal. cbn. split_and!; lia || done. Qed.

Lemma kinit1_spec_witness : ∃ s', kinit1 ex_kend ex_kend (ex_kend + 0x3000) ex_kst = Ok tt s' ∧
  kinv ex_kend (ks_k s') (reverse (page_range ex_kend (ex_kend + 0x3000))) ∧ km_free (ks_m s').
Proof.
  destruct (kinit1_spec ex_kend ex_kst ex_kend (ex_kend + 0x3000)) as (s' & E & Hk & Hm & _).
  - unfold ex_kend, KERNBASE. lia.
  - unfold ex_kend, KERNBASE, PHYSTOP. lia.
  - exact ex_mok.
  - reflexivity.
  - intros a. apply length_replicate.
  - exists s'. split; [exact E|]. split; [exact Hk|exact Hm].
Defined.


Lemma kalloc_history_witness : ∃ s0 v s', kalloc s0 = Ok v s' ∧ is_page ex_kend v.
Proof.
  destruct (page_range_ok ex_kend ex_kend (ex_kend + 0x3000)) as [Hp Hnd];
    [unfold ex_kend, KERNBASE, PHYSTOP; lia..|].
  destruct (freerange_run ex_kend (page_range ex_kend (ex_kend + 0x3000)) ex_kst []) as (s & _ & Hk & Em & _).
  - exact Hp.
  - exact Hnd.
  - intros v _. apply not_elem_of_nil.
  - split_and!; [reflexivity|apply NoDup_nil_2|apply Forall_nil_2|intros a; apply length_replicate].
  - split; [exact ex_mok|reflexivity].
  - destruct (kalloc_history ex_kend s _ s ∅ Hk) as (v & s' & E & _ & Hz & Hpv).
    + rewrite Em. split; [exact ex_mok|reflexivity].
    + apply rtc_refl.
    + exists s, v, s'. split; [exact E|]. apply Hpv. intros E0. apply Hz in E0.
      rewrite size_empty, app_nil_r, length_reverse in E0. discriminate E0.
Defined.

Lemma kfree_refuses_witness : kfree ex_kend 0x1000 ex_kst = Stop (Panic "kfree") ex_kst.
Proof. apply (kfree_refuses ex_kend ex_kst 0x1000). right. left. reflexivity. Defined.
