(* ===== verification/Vm.v ===== *)
(** * Page tables and user memory (kernel/vm.c, kernel/vm64.c)

    The code sees two levels of page tables (the two upper levels of the
    x86-64 tables are set up by [setupkvm] and never walked).  A page table
    entry is a 64-bit word of a page; a null page table entry pointer is
    [None].  Functions with an [int] result return it as a number.  The
    registers loaded by [switchuvm] and [switchkvm] are not part of the
    state.  [kend] is the linker symbol [end] and [kpdpt] the static page
    allocated by [kvmalloc] of Kvm.v. *)

From S2P Require Import Prelude Bytes Spinlock Sched Kalloc.
From Stdlib Require Import FunctionalExtensionality.

Definition PTE_P : Z := 1.
Definition PTE_W : Z := 2.
Definition PTE_U : Z := 4.
Definition NPTENTRIES : Z := 512.
Definition NPDENTRIES : nat := 512.

Definition PDX (va : Z) : Z := Z.land (Z.shiftr va 21) 0x1FF.
Definition PTX (va : Z) : Z := Z.land (Z.shiftr va 12) 0x1FF.
Definition PTE_ADDR (pte : Z) : Z := Z.land pte (u64 (Z.lnot 0xFFF)).
Definition PTE_FLAGS (pte : Z) : Z := Z.land pte 0xFFF.

(** The [i]th word of a page. *)
Definition getw (a i : Z) : M kst Z :=
  s ← get; ret (get64 (8 * Z.to_nat i) (pages (ks_k s) a)).
Definition setw (a i x : Z) : M kst unit :=
  s ← get; set_page a (put64 (8 * Z.to_nat i) x (pages (ks_k s) a)).

Section code.
Context (kend kpdpt : Z).

Definition walkpgdir (pgdir va : Z) (alloc : bool) : M kst (option (Z * Z)) :=
  pde ← getw pgdir (PDX va);
  if has pde PTE_P then ret (Some (p2v (PTE_ADDR pde), PTX va)) else
  if negb alloc then ret None else
  pgtab ← kalloc;
  if pgtab =? 0 then ret None else
  fill_page pgtab 0 ;;;
  setw pgdir (PDX va) (Z.lor (Z.lor (Z.lor (v2p pgtab) PTE_P) PTE_W) PTE_U) ;;;
  ret (Some (pgtab, PTX va)).

Definition map_step (pgdir last perm : Z) (st : Z * Z) : M kst (Z * Z + Z) :=
  let '(a, pa) := st in
  r ← walkpgdir pgdir a true;
  match r with
  | None => ret (inr (-1))
  | Some (tab, i) =>
      pte ← getw tab i;
      if has pte PTE_P then panic "remap" else
      setw tab i (Z.lor (Z.lor pa perm) PTE_P) ;;;
      if a =? last then ret (inr 0) else ret (inl (u64 (a + PGSIZE), u64 (pa + PGSIZE)))
  end.

Definition mappages (pgdir va size pa perm : Z) : M kst Z :=
  let a := PGROUNDDOWN va in
  let last := PGROUNDDOWN (u64 (va + size - 1)) in
  loopM (S (Z.to_nat ((last - a) / PGSIZE))) (map_step pgdir last perm) (a, pa).

(** A page from [kalloc] that is used without a test for null. *)
Definition kalloc_nonnull : M kst Z :=
  v ← kalloc; if v =? 0 then halt Undef else ret v.

Definition setupkvm : M kst Z :=
  pml4 ← kalloc;
  pdpt ← kalloc;
  pgdir ← kalloc;
  if (pml4 =? 0) || (pdpt =? 0) || (pgdir =? 0) then halt Undef else
  fill_page pml4 0 ;;;
  fill_page pdpt 0 ;;;
  fill_page pgdir 0 ;;;
  setw pml4 511 (Z.lor (Z.lor (Z.lor (v2p kpdpt) PTE_P) PTE_W) PTE_U) ;;;
  setw pml4 0 (Z.lor (Z.lor (Z.lor (v2p pdpt) PTE_P) PTE_W) PTE_U) ;;;
  setw pdpt 0 (Z.lor (Z.lor (Z.lor (v2p pgdir) PTE_P) PTE_W) PTE_U) ;;;
  setw pgdir 511 (Z.lor pml4 PTE_P) ;;;
  setw pgdir 510 (Z.lor pdpt PTE_P) ;;;
  ret pgdir.

Definition inituvm (pgdir : Z) (init : list Z) : M kst unit :=
  if PGSIZE <=? Z.of_nat (length init) then panic "inituvm: more than a page" else
  mem ← kalloc_nonnull;
  fill_page mem 0 ;;;
  mappages pgdir 0 PGSIZE (v2p mem) (Z.lor PTE_W PTE_U) ;;;
  s ← get;
  set_page mem (splice 0 init (pages (ks_k s) mem)).

Definition dealloc_step (pgdir oldsz : Z) (a : Z) : M kst (Z + unit) :=
  if oldsz <=? a then ret (inr tt) else
  r ← walkpgdir pgdir a false;
  match r with
  | None => ret (inl (u64 (u64 (a + (NPTENTRIES - 1) * PGSIZE) + PGSIZE)))
  | Some (tab, i) =>
      pte ← getw tab i;
      whenM (has pte PTE_P) (
        if PTE_ADDR pte =? 0 then panic "kfree" else
        kfree kend (p2v (PTE_ADDR pte)) ;;;
        setw tab i 0) ;;;
      ret (inl (u64 (a + PGSIZE)))
  end.

Definition deallocuvm (pgdir oldsz newsz : Z) : M kst Z :=
  if oldsz <=? newsz then ret (i32 oldsz) else
  let a := PGROUNDUP newsz in
  loopM (S (S (Z.to_nat ((oldsz - a) / PGSIZE)))) (dealloc_step pgdir oldsz) a ;;;
  ret (i32 newsz).

Definition alloc_step (pgdir oldsz newsz : Z) (a : Z) : M kst (Z + Z) :=
  if newsz <=? a then ret (inr (i32 newsz)) else
  mem ← kalloc;
  if mem =? 0 then
    deallocuvm pgdir newsz oldsz ;;;
    ret (inr 0)
  else
    fill_page mem 0 ;;;
    mappages pgdir a PGSIZE (v2p mem) (Z.lor PTE_W PTE_U) ;;;
    ret (inl (u64 (a + PGSIZE))).

(** The sizes are [uint]. *)
Definition allocuvm (pgdir oldsz newsz : Z) : M kst Z :=
  if newsz <? oldsz then ret (i32 oldsz) else
  let a := PGROUNDUP oldsz in
  loopM (S (S (Z.to_nat ((newsz - a) / PGSIZE)))) (alloc_step pgdir oldsz newsz) a.

Definition freevm (pgdir : Z) : M kst unit :=
  if pgdir =? 0 then panic "freevm: no pgdir" else
  deallocuvm pgdir 0x3fa00000 0 ;;;
  for_all (seq 0 (NPDENTRIES - 2)) (λ i,
    pde ← getw pgdir (Z.of_nat i);
    whenM (has pde PTE_P) (kfree kend (p2v (PTE_ADDR pde)))) ;;;
  kfree kend pgdir.

Definition clearpteu (pgdir uva : Z) : M kst unit :=
  r ← walkpgdir pgdir uva false;
  match r with
  | None => panic "clearpteu"
  | Some (tab, i) =>
      pte ← getw tab i;
      setw tab i (clrf pte PTE_U)
  end.

Definition copy_step (pgdir d sz : Z) (i : Z) : M kst (Z + Z) :=
  if sz <=? i then ret (inr d) else
  r ← walkpgdir pgdir i false;
  match r with
  | None => panic "copyuvm: pte should exist"
  | Some (tab, j) =>
      pte ← getw tab j;
      if negb (has pte PTE_P) then panic "copyuvm: page not present" else
      mem ← kalloc;
      if mem =? 0 then freevm d ;;; ret (inr 0) else
      s ← get;
      set_page mem (pages (ks_k s) (p2v (PTE_ADDR pte))) ;;;
      r ← mappages d i PGSIZE (v2p mem) (PTE_FLAGS pte);
      if r <? 0 then freevm d ;;; ret (inr 0) else ret (inl (i + PGSIZE))
  end.

Definition copyuvm (pgdir sz : Z) : M kst Z :=
  d ← setupkvm;
  loopM (S (S (Z.to_nat (sz / PGSIZE)))) (copy_step pgdir d sz) 0.

(** The null pointer [walkpgdir] may return is dereferenced. *)
Definition uva2ka (pgdir uva : Z) : M kst Z :=
  r ← walkpgdir pgdir uva false;
  match r with
  | None => halt Undef
  | Some (tab, i) =>
      pte ← getw tab i;
      if negb (has pte PTE_P) then ret 0 else
      if negb (has pte PTE_U) then ret 0 else
      ret (p2v (PTE_ADDR pte))
  end.

Definition copyout_step (pgdir : Z) (st : Z * list Z) : M kst (Z * list Z + Z) :=
  let '(va, buf) := st in
  match buf with
  | [] => ret (inr 0)
  | _ =>
      let va0 := u32 (PGROUNDDOWN va) in
      pa0 ← uva2ka pgdir va0;
      if pa0 =? 0 then ret (inr (-1)) else
      let n := Z.min (PGSIZE - (va - va0)) (Z.of_nat (length buf)) in
      s ← get;
      set_page pa0 (splice (Z.to_nat (va - va0)) (take (Z.to_nat n) buf) (pages (ks_k s) pa0)) ;;;
      ret (inl (u32 (va0 + PGSIZE), drop (Z.to_nat n) buf))
  end.

Definition copyout (pgdir va : Z) (p : list Z) : M kst Z :=
  loopM (S (length p)) (copyout_step pgdir) (va, p).
End code.
