(* ===== verification/VmSpec.v ===== *)
(** * Address translation

    [trans] is what the page tables map a user address to.  [vminv] says the
    tables of one address space form a tree of allocated pages; under it
    [mappages] of a page adds exactly one translation. *)

From S2P Require Import Prelude Bytes Spinlock Sched Kalloc Vm.
From Stdlib Require Import FunctionalExtensionality.

(** ** Words of a page *)

Lemma get64_range off p : 0 ≤ get64 off p < 2 ^ 64.
Proof. by apply wrap_range. Qed.

Lemma get64_put64_word i j x (p : page) : length p = PAGE → 0 ≤ i < 512 → 0 ≤ j < 512 →
  get64 (8 * Z.to_nat i) (put64 (8 * Z.to_nat j) x p) = if i =? j then u64 x else get64 (8 * Z.to_nat i) p.
Proof.
  intros Hl Hi Hj. pose proof PAGE_Z as HP. unfold PGSIZE in HP. unfold get64, put64.
  destruct (Z.eqb_spec i j) as [->|Hne].
  - rewrite <- (le_bytes_length 8 x) at 2. rewrite slice_splice_same by (rewrite le_bytes_length; lia).
    rewrite le_val_bytes. change (8 * Z.of_nat 8) with 64. apply wrap_wrap.
  - rewrite slice_splice_other; [done| |]; rewrite le_bytes_length; lia.
Qed.

Lemma get64_zero i : get64 i (replicate PAGE 0) = 0.
Proof.
  unfold get64, slice. rewrite drop_replicate, take_replicate, le_val_zeros. done.
Qed.

(** ** Entries *)

Lemma PTE_ADDR_spec e : 0 ≤ e < 2 ^ 64 → PTE_ADDR e = PGSIZE * (e / PGSIZE).
Proof. apply PGROUNDDOWN_spec. Qed.

Lemma PTE_FLAGS_spec e : PTE_FLAGS e = e mod PGSIZE.
Proof. unfold PTE_FLAGS. change 0xFFF with (Z.ones 12). by rewrite Z.land_ones by lia. Qed.

(** An entry for the page at physical address [pa] with flags [f]. *)
Lemma entry_parts pa f : 0 ≤ pa < 2 ^ 64 → pa mod PGSIZE = 0 → 0 ≤ f < PGSIZE →
  0 ≤ Z.lor pa f < 2 ^ 64 ∧ PTE_ADDR (Z.lor pa f) = pa ∧ PTE_FLAGS (Z.lor pa f) = f ∧
  has (Z.lor pa f) PTE_P = has f PTE_P ∧ has (Z.lor pa f) PTE_U = has f PTE_U.
Proof.
  intros Hp Hm Hf. change PGSIZE with (2 ^ 12) in *.
  pose proof (Z.div_mod pa (2 ^ 12)) as Hd. rewrite Hm in Hd. change (2 ^ 12) with 4096 in *.
  assert (Z.lor pa f = pa + f) as E by (apply (lor_add _ _ 12); [lia|exact Hm|exact Hf]).
  assert (pa / 4096 < 2 ^ 52) by (apply Z.div_lt_upper_bound; lia).
  assert (0 ≤ Z.lor pa f < 2 ^ 64) as Hr by (rewrite E; lia).
  assert (∀ b, 0 ≤ b < 4096 → has (Z.lor pa f) b = has f b) as Hh.
  { intros b Hb. unfold has. by rewrite Z.land_lor_distr_l, (land_disjoint pa b 12) by (lia || exact Hm || exact Hb). }
  split_and!; try lia.
  - rewrite PTE_ADDR_spec by lia. unfold PGSIZE. rewrite E.
    replace (pa + f) with (f + pa / 4096 * 4096) by lia. rewrite Z.div_add, Z.div_small by lia. lia.
  - rewrite PTE_FLAGS_spec. unfold PGSIZE. rewrite E.
    replace (pa + f) with (f + pa / 4096 * 4096) by lia. by rewrite Z.mod_add, Z.mod_small by lia.
  - apply Hh. unfold PTE_P. lia.
  - apply Hh. unfold PTE_U. lia.
Qed.

Lemma PDX_spec va : 0 ≤ va → PDX va = (va / 2 ^ 21) mod 512.
Proof. intros. unfold PDX. change 0x1FF with (Z.ones 9). by rewrite Z.land_ones, Z.shiftr_div_pow2 by lia. Qed.
Lemma PTX_spec va : 0 ≤ va → PTX va = (va / 2 ^ 12) mod 512.
Proof. intros. unfold PTX. change 0x1FF with (Z.ones 9). by rewrite Z.land_ones, Z.shiftr_div_pow2 by lia. Qed.

(** The user part of the address space: 510 of the 512 directory entries. *)
Definition UTOP : Z := 510 * 2 ^ 21.

Lemma PX_range va : 0 ≤ va < UTOP → 0 ≤ PDX va < 510 ∧ 0 ≤ PTX va < 512.
Proof.
  intros Hv. unfold UTOP in Hv. rewrite PDX_spec, PTX_spec by lia. split; [|by apply Z.mod_pos_bound].
  assert (0 ≤ va / 2 ^ 21 < 510) by (split; [apply Z.div_pos; lia|apply Z.div_lt_upper_bound; lia]).
  by rewrite Z.mod_small by lia.
Qed.

(** Two addresses have the same entry when they are in the same page. *)
Lemma PX_page va va' : 0 ≤ va < UTOP → 0 ≤ va' < UTOP →
  (PDX va = PDX va' ∧ PTX va = PTX va') ↔ va / PGSIZE = va' / PGSIZE.
Proof.
  intros Hv Hv'. unfold UTOP in *. rewrite !PDX_spec, !PTX_spec by lia. unfold PGSIZE.
  change (2 ^ 21) with (4096 * 512). change (2 ^ 12) with 4096. rewrite <- !Z.div_div by lia.
  set (a := va / 4096). set (b := va' / 4096).
  assert (0 ≤ a / 512 < 512 ∧ 0 ≤ b / 512 < 512) as [Ha Hb].
  { unfold a, b. rewrite !Z.div_div by lia. split; (split; [apply Z.div_pos; lia|apply Z.div_lt_upper_bound; lia]). }
  rewrite (Z.mod_small (a / 512)), (Z.mod_small (b / 512)) by lia.
  pose proof (Z.div_mod a 512). pose proof (Z.div_mod b 512). split; [lia|by intros ->].
Qed.

(** ** The tables of an address space *)

Definition pde (m : Z → page) (pgdir i : Z) : Z := get64 (8 * Z.to_nat i) (m pgdir).
Definition tab (m : Z → page) (pgdir i : Z) : option Z :=
  if has (pde m pgdir i) PTE_P then Some (p2v (PTE_ADDR (pde m pgdir i))) else None.
Definition pte (m : Z → page) (pgdir va : Z) : Z :=
  match tab m pgdir (PDX va) with
  | Some t => get64 (8 * Z.to_nat (PTX va)) (m t)
  | None => 0
  end.

(** The physical page and the flags an address is mapped to. *)
Definition trans (m : Z → page) (pgdir va : Z) : option (Z * Z) :=
  let e := pte m pgdir va in
  if has e PTE_P then Some (PTE_ADDR e, PTE_FLAGS e) else None.

Section spec.
Context (kend : Z) (Hkend : KERNBASE ≤ kend).
Implicit Types (k : kmem) (s : kst) (free : list Z).

Abbreviation is_page := (is_page kend).

Lemma page_v2p t : is_page t → v2p t = t - KERNBASE ∧ 0 ≤ v2p t < PHYSTOP ∧ v2p t mod PGSIZE = 0 ∧ p2v (v2p t) = t.
Proof.
  intros (Hm & Hk & Hp & Hr). unfold v2p, p2v in *. assert (0 ≤ t - KERNBASE < 2 ^ 64) by (unfold KERNBASE in *; lia).
  rewrite (wrap_small 64 (t - KERNBASE)) in * by lia. split_and!; try lia.
  - rewrite Zminus_mod, Hm. done.
  - replace (t - KERNBASE + KERNBASE) with t by lia. apply wrap_small. lia.
Qed.

Definition vminv k free (pgdir : Z) : Prop :=
  kinv kend k free ∧ is_page pgdir ∧ (pgdir ∉ free) ∧
  (∀ i t, 0 ≤ i < 510 → tab (pages k) pgdir i = Some t → is_page t ∧ (t ∉ free) ∧ t ≠ pgdir) ∧
  (∀ i j t, 0 ≤ i < 510 → 0 ≤ j < 510 → tab (pages k) pgdir i = Some t →
     tab (pages k) pgdir j = Some t → i = j).

(** The entry of a page table page. *)
Lemma table_entry t : is_page t →
  let e := Z.lor (Z.lor (Z.lor (v2p t) PTE_P) PTE_W) PTE_U in
  0 ≤ e < 2 ^ 64 ∧ has e PTE_P = true ∧ p2v (PTE_ADDR e) = t.
Proof.
  intros Ht e. destruct (page_v2p t Ht) as (_ & Hr & Hm & Ep). unfold PHYSTOP in Hr.
  assert (e = Z.lor (v2p t) 7) as -> by (unfold e; by rewrite <- !Z.lor_assoc).
  destruct (entry_parts (v2p t) 7) as (H1 & H2 & _ & H4 & _); [lia|done|unfold PGSIZE; lia|].
  rewrite H2, H4, Ep. done.
Qed.

(** Memory after [walkpgdir] allocated the table [t] for [va]. *)
Definition grow k (t : Z) (fr : list Z) (pgdir va : Z) : kmem :=
  mkKmem (<[pgdir := put64 (8 * Z.to_nat (PDX va)) (Z.lor (Z.lor (Z.lor (v2p t) PTE_P) PTE_W) PTE_U) (pages k pgdir)]>
    (<[t := replicate PAGE 0]> (pages k))) (use_lock k) (hd 0 fr).

Lemma walk_run s free pgdir va alloc : vminv (ks_k s) free pgdir → km_free (ks_m s) →
  walkpgdir pgdir va alloc s =
  match tab (pages (ks_k s)) pgdir (PDX va) with
  | Some t => Ok (Some (t, PTX va)) s
  | None =>
      if alloc then
        match free with
        | [] => Ok None s
        | t :: fr => Ok (Some (t, PTX va)) (set_ksk (grow (ks_k s) t fr pgdir va) s)
        end
      else Ok None s
  end.
Proof.
  intros (Hk & Hp & Hn & Ht & Hu) Hm. unfold walkpgdir, getw. erewrite bind_ok; [|reflexivity].
  unfold tab, pde. destruct (has _ PTE_P); [done|]. destruct alloc; [|done]. cbn [negb].
  destruct (kalloc_run kend s free Hk Hm) as [E _]. step E. destruct free as [|t fr]; cbn [hd tl].
  - destruct Hk as (Hl & _). cbn in Hl. destruct s as [m [pg ul fl]]. cbn in *. by subst fl.
  - assert (t ≠ 0) as Hz by (destruct Hk as (_ & _ & Hf & _); inversion Hf as [|? ? (_ & _ & _ & ?)]; lia).
    rewrite (proj2 (Z.eqb_neq _ _) Hz). unfold fill_page, set_page, setw, grow. go.
    unfold set_ksk, set_pages. cbn. rewrite fn_lookup_insert_ne; [done|]. intros ->. apply Hn. by left.
Qed.

Lemma tab_grow k t fr pgdir va i : vminv k (t :: fr) pgdir → 0 ≤ va < UTOP → 0 ≤ i < 510 →
  tab (pages (grow k t fr pgdir va)) pgdir i = if PDX va =? i then Some t else tab (pages k) pgdir i.
Proof.
  intros (Hk & _) Hv Hi. destruct (PX_range va Hv) as [Hd _].
  pose proof Hk as (_ & _ & Hf & Hlen). inversion Hf as [|? ? Ht _]; subst.
  destruct (table_entry t Ht) as (Hr & Hp & Ea). unfold tab, pde, grow. cbn [pages]. rewrite fn_lookup_insert.
  rewrite get64_put64_word by (apply Hlen || lia). rewrite (Z.eqb_sym i).
  destruct (Z.eqb_spec (PDX va) i) as [Ei|Ei]; [|done]. rewrite wrap_small by lia. by rewrite Hp, Ea.
Qed.

Lemma grow_vminv k t fr pgdir va : vminv k (t :: fr) pgdir → 0 ≤ va < UTOP →
  tab (pages k) pgdir (PDX va) = None → vminv (grow k t fr pgdir va) fr pgdir.
Proof.
  intros Hv Hva Hnone. pose proof Hv as (Hk & Hp & Hn & Ht & Hu). pose proof Hk as (Hl & Hnd & Hf & Hlen).
  apply not_elem_of_cons in Hn as [Hnt Hn]. apply NoDup_cons in Hnd as [Htf Hnd]. inversion Hf as [|? ? Hpt Hf']; subst.
  split; [|split; [done|split; [done|split]]].
  - split_and!; try done; cbn.
    + destruct Hl as [_ Hl]. destruct fr as [|b fr]; [done|]. destruct Hl as [_ Hl]. split; [done|].
      apply not_elem_of_cons in Htf as [Htb Htf]. apply not_elem_of_cons in Hn as [Hpb Hn].
      rewrite !fn_lookup_insert_ne by done. by apply linked_other, linked_other.
    + intros a. destruct (decide (pgdir = a)) as [->|]; [|rewrite fn_lookup_insert_ne by done].
      * rewrite fn_lookup_insert, put64_length; rewrite Hlen; [done|]. pose proof PAGE_Z. unfold PGSIZE in *.
        destruct (PX_range va Hva). lia.
      * destruct (decide (t = a)) as [->|]; [rewrite fn_lookup_insert; apply length_replicate|by rewrite fn_lookup_insert_ne].
  - intros i x Hi. rewrite tab_grow by done. destruct (Z.eqb_spec (PDX va) i) as [|Hne].
    + intros [= <-]. done.
    + intros Hx. destruct (Ht i x Hi Hx) as (? & Hx' & ?). apply not_elem_of_cons in Hx' as [? ?]. done.
  - intros i j x Hi Hj. rewrite !tab_grow by done.
    destruct (Z.eqb_spec (PDX va) i) as [<-|Hni], (Z.eqb_spec (PDX va) j) as [<-|Hnj]; try done.
    + intros [= <-] Hx. destruct (Ht j t Hj Hx) as (_ & Hx' & _). apply not_elem_of_cons in Hx' as [? _]. done.
    + intros Hx [= <-]. destruct (Ht i t Hi Hx) as (_ & Hx' & _). apply not_elem_of_cons in Hx' as [? _]. done.
    + by apply Hu.
Qed.

Lemma pte_grow k t fr pgdir va va' : vminv k (t :: fr) pgdir → 0 ≤ va < UTOP → 0 ≤ va' < UTOP →
  tab (pages k) pgdir (PDX va) = None → pte (pages (grow k t fr pgdir va)) pgdir va' = pte (pages k) pgdir va'.
Proof.
  intros Hv Hva Hva' Hnone. pose proof Hv as (Hk & Hp & Hn & Ht & Hu). apply not_elem_of_cons in Hn as [Hnt Hn].
  destruct (PX_range va' Hva') as [Hd _]. unfold pte. rewrite tab_grow by done.
  destruct (Z.eqb_spec (PDX va) (PDX va')) as [E|E].
  - rewrite <- E, Hnone. unfold grow. cbn [pages]. rewrite fn_lookup_insert_ne, fn_lookup_insert by done. apply get64_zero.
  - destruct (tab (pages k) pgdir (PDX va')) as [x|] eqn:Ex; [|done].
    destruct (Ht _ x Hd Ex) as (_ & Hx & Hxp). apply not_elem_of_cons in Hx as [Hxt _].
    unfold grow. cbn [pages]. by rewrite !fn_lookup_insert_ne by done.
Qed.

(** Storing the entry of [va] in its table [t]. *)
Definition set_entry k (t va x : Z) : kmem :=
  set_pages (<[t := put64 (8 * Z.to_nat (PTX va)) x (pages k t)]> (pages k)) k.

Lemma set_entry_spec k free pgdir t va x : vminv k free pgdir → 0 ≤ va < UTOP → 0 ≤ x < 2 ^ 64 →
  tab (pages k) pgdir (PDX va) = Some t →
  vminv (set_entry k t va x) free pgdir ∧
  (∀ va', 0 ≤ va' < UTOP → pte (pages (set_entry k t va x)) pgdir va' =
     if va / PGSIZE =? va' / PGSIZE then x else pte (pages k) pgdir va').
Proof.
  intros Hv Hva Hx Htab. pose proof Hv as (Hk & Hp & Hn & Ht & Hu). destruct (PX_range va Hva) as [Hd Hi].
  destruct (Ht _ t Hd Htab) as (Hpt & Htf & Htp). pose proof Hk as (Hl & Hnd & Hf & Hlen).
  assert (∀ i, tab (pages (set_entry k t va x)) pgdir i = tab (pages k) pgdir i) as Etab.
  { intros i. unfold tab, pde, set_entry. cbn [pages set_pages]. by rewrite fn_lookup_insert_ne. }
  split.
  - split; [|split; [done|split; [done|split]]].
    + split_and!; try done; cbn.
      * by apply linked_other.
      * intros a. destruct (decide (t = a)) as [->|]; [|by rewrite fn_lookup_insert_ne].
        rewrite fn_lookup_insert, put64_length; rewrite Hlen; [done|]. pose proof PAGE_Z. unfold PGSIZE in *. lia.
    + intros i y. rewrite Etab. apply Ht.
    + intros i j y. rewrite !Etab. apply Hu.
  - intros va' Hva'. destruct (PX_range va' Hva') as [Hd' Hi']. pose proof (PX_page va va' Hva Hva') as Hpg.
    unfold pte. rewrite Etab. destruct (Z.eqb_spec (va / PGSIZE) (va' / PGSIZE)) as [E|E].
    + apply Hpg in E as [<- <-]. rewrite Htab. unfold set_entry. cbn [pages set_pages].
      rewrite fn_lookup_insert, get64_put64_word by (apply Hlen || lia). rewrite Z.eqb_refl. by apply wrap_small.
    + destruct (tab (pages k) pgdir (PDX va')) as [t'|] eqn:Et; [|done].
      unfold set_entry. cbn [pages set_pages]. destruct (decide (t = t')) as [<-|]; [|by rewrite fn_lookup_insert_ne].
      assert (PDX va = PDX va') as Ed by (by eapply Hu). rewrite fn_lookup_insert, get64_put64_word by (apply Hlen || lia).
      destruct (Z.eqb_spec (PTX va') (PTX va)); [|done]. exfalso. apply E, Hpg. done.
Qed.

(** A page that holds data: allocated and not one of the tables. *)
Definition data_page k free (pgdir p : Z) : Prop :=
  is_page p ∧ (p ∉ free) ∧ p ≠ pgdir ∧ ∀ i, 0 ≤ i < 510 → tab (pages k) pgdir i ≠ Some p.

(** [k'] maps the page of [va] to the entry [e]; the other translations and
    the data pages are those of [k]. *)
Definition mapped1 k free k' free' (pgdir va e : Z) : Prop :=
  vminv k' free' pgdir ∧ suffix free' free ∧ (length free ≤ length free' + 1)%nat ∧
  (∀ va', 0 ≤ va' < UTOP → pte (pages k') pgdir va' =
     if va / PGSIZE =? va' / PGSIZE then e else pte (pages k) pgdir va') ∧
  (∀ p, data_page k free pgdir p → data_page k' free' pgdir p ∧ pages k' p = pages k p).

Lemma round_page va : 0 ≤ va < UTOP → va mod PGSIZE = 0 →
  PGROUNDDOWN va = va ∧ PGROUNDDOWN (u64 (va + PGSIZE - 1)) = va.
Proof.
  intros Hv Hm. unfold UTOP in Hv. rewrite (wrap_small 64) by (unfold PGSIZE; lia).
  rewrite !PGROUNDDOWN_spec by (unfold PGSIZE; lia). unfold PGSIZE in *.
  pose proof (Z.div_mod va 4096). split; [lia|].
  replace (va + 4096 - 1) with (4095 + va / 4096 * 4096) by lia. rewrite Z.div_add, Z.div_small by lia. lia.
Qed.

Lemma mapped1_refl_grow k t fr pgdir va : vminv k (t :: fr) pgdir → 0 ≤ va < UTOP →
  tab (pages k) pgdir (PDX va) = None →
  ∀ p, data_page k (t :: fr) pgdir p →
    data_page (grow k t fr pgdir va) fr pgdir p ∧ pages (grow k t fr pgdir va) p = pages k p.
Proof.
  intros Hv Hva Hn p (Hp & Hf & Hne & Ht). apply not_elem_of_cons in Hf as [Hpt Hf]. split.
  - split_and!; try done. intros i Hi. rewrite tab_grow by done.
    destruct (PDX va =? i); [congruence|by apply Ht].
  - unfold grow. cbn [pages]. by rewrite !fn_lookup_insert_ne by done.
Qed.

Lemma map_entry s free pgdir t va e : vminv (ks_k s) free pgdir → 0 ≤ va < UTOP → 0 ≤ e < 2 ^ 64 →
  tab (pages (ks_k s)) pgdir (PDX va) = Some t →
  mapped1 (ks_k s) free (set_entry (ks_k s) t va e) free pgdir va e.
Proof.
  intros Hv Hva He Ht. destruct (set_entry_spec _ _ _ t va e Hv Hva He Ht) as [Hv' Hp].
  split; [done|]. split; [done|]. split; [lia|]. split; [done|].
  intros p (Hpp & Hf & Hne & Htb). assert (t ≠ p) as Htp.
  { intros ->. destruct (PX_range va Hva) as [Hd _]. by apply (Htb (PDX va)). }
  split.
  - split_and!; try done. intros i Hi. unfold tab, pde, set_entry. cbn [pages set_pages].
    destruct Hv as (_ & _ & _ & Hall & _). destruct (PX_range va Hva) as [Hd _].
    destruct (Hall _ t Hd Ht) as (_ & _ & Hne'). rewrite fn_lookup_insert_ne by done. by apply Htb.
  - unfold set_entry. cbn [pages set_pages]. by rewrite fn_lookup_insert_ne.
Qed.

Lemma map_page_full s pgdir va pa perm : vminv (ks_k s) [] pgdir → km_free (ks_m s) → 0 ≤ va < UTOP →
  va mod PGSIZE = 0 → tab (pages (ks_k s)) pgdir (PDX va) = None → mappages pgdir va PGSIZE pa perm s = Ok (-1) s.
Proof.
  intros Hv Hm Hva Hal Et. unfold mappages. destruct (round_page va Hva Hal) as [-> ->]. cbn [loopM]. unfold map_step.
  rewrite (bind_ok _ _ _ (inr (-1)) s); [reflexivity|].
  erewrite bind_ok; [|rewrite (walk_run s [] pgdir va true Hv Hm), Et; reflexivity]. done.
Qed.

Lemma map_page_run s free pgdir va pa perm : vminv (ks_k s) free pgdir → km_free (ks_m s) →
  0 ≤ va < UTOP → va mod PGSIZE = 0 → has (pte (pages (ks_k s)) pgdir va) PTE_P = false →
  0 ≤ Z.lor (Z.lor pa perm) PTE_P < 2 ^ 64 →
  (∃ k' free', mappages pgdir va PGSIZE pa perm s = Ok 0 (set_ksk k' s) ∧
     mapped1 (ks_k s) free k' free' pgdir va (Z.lor (Z.lor pa perm) PTE_P)) ∨
  (free = [] ∧ tab (pages (ks_k s)) pgdir (PDX va) = None ∧ mappages pgdir va PGSIZE pa perm s = Ok (-1) s).
Proof.
  intros Hv Hm Hva Hal Hnp He.
  destruct (decide (free = [] ∧ tab (pages (ks_k s)) pgdir (PDX va) = None)) as [[-> En]|Hen].
  { right. split_and!; try done. by apply map_page_full. }
  left. unfold mappages. destruct (round_page va Hva Hal) as [-> ->]. rewrite Z.sub_diag. change (Z.to_nat (0 / PGSIZE)) with 0%nat. cbn [loopM]. set (e := Z.lor (Z.lor pa perm) PTE_P) in *.
  assert (∀ s1 t, tab (pages (ks_k s1)) pgdir (PDX va) = Some t → has (pte (pages (ks_k s1)) pgdir va) PTE_P = false →
    (pte ← getw t (PTX va); if has pte PTE_P then panic "remap" else
     setw t (PTX va) e ;;; if va =? va then ret (inr 0) else ret (inl (u64 (va + PGSIZE), u64 (pa + PGSIZE)))) s1 =
    Ok (inr 0 : Z * Z + Z) (set_ksk (set_entry (ks_k s1) t va e) s1)) as Hset.
  { intros s1 t Ht Hp. unfold pte in Hp. rewrite Ht in Hp. unfold getw, setw, set_page. go. rewrite Hp, Z.eqb_refl. done. }
  destruct (tab (pages (ks_k s)) pgdir (PDX va)) as [t|] eqn:Et.
  - exists (set_entry (ks_k s) t va e), free. split; [|by apply map_entry].
    unfold map_step. rewrite (bind_ok _ _ _ (inr 0) (set_ksk (set_entry (ks_k s) t va e) s)); [reflexivity|].
    erewrite bind_ok; [|rewrite (walk_run s free pgdir va true Hv Hm), Et; reflexivity]. by apply Hset.
  - destruct free as [|t fr]; [by destruct Hen|].
    + set (s1 := set_ksk (grow (ks_k s) t fr pgdir va) s).
      assert (vminv (ks_k s1) fr pgdir) as Hv1 by (by apply grow_vminv).
      destruct (PX_range va Hva) as [Hd _].
      assert (tab (pages (ks_k s1)) pgdir (PDX va) = Some t) as Et1.
      { cbn [ks_k s1 set_ksk]. rewrite tab_grow by done. by rewrite Z.eqb_refl. }
      exists (set_entry (ks_k s1) t va e), fr. split.
      * unfold map_step. rewrite (bind_ok _ _ _ (inr 0) (set_ksk (set_entry (ks_k s1) t va e) s1)); [reflexivity|].
        erewrite bind_ok; [|rewrite (walk_run s (t :: fr) pgdir va true Hv Hm), Et; reflexivity].
        apply (Hset s1); [done|]. cbn [ks_k s1 set_ksk]. by rewrite pte_grow.
      * destruct (map_entry s1 fr pgdir t va e Hv1 Hva He Et1) as (A1 & A2 & A3 & A4 & A5).
        split; [done|]. split; [by exists [t]|]. split; [cbn; lia|]. split.
        -- intros va' Hva'. rewrite A4 by done. cbn [ks_k s1 set_ksk]. by rewrite pte_grow.
        -- intros p Hp. destruct (mapped1_refl_grow _ _ _ _ _ Hv Hva Et p Hp) as [B1 B2].
           destruct (A5 p B1) as [C1 C2]. split; [done|]. by rewrite C2.
Qed.

Lemma map_page_remap s free pgdir va pa perm : vminv (ks_k s) free pgdir → km_free (ks_m s) →
  0 ≤ va < UTOP → va mod PGSIZE = 0 → has (pte (pages (ks_k s)) pgdir va) PTE_P = true →
  mappages pgdir va PGSIZE pa perm s = Stop (Panic "remap") s.
Proof.
  intros Hv Hm Hva Hal Hp. unfold mappages. destruct (round_page va Hva Hal) as [-> ->]. cbn [loopM]. unfold map_step.
  pose proof (walk_run s free pgdir va true Hv Hm) as E. unfold pte in Hp.
  destruct (tab (pages (ks_k s)) pgdir (PDX va)) as [t|]; [|done]. rewrite (bind_stop _ _ _ (Panic "remap") s); [done|].
  step E. unfold getw. go. by rewrite Hp.
Qed.

(** Memory after a page was taken off the free list and filled with [c]. *)
Definition taken k (mem : Z) (fr : list Z) (c : page) : kmem :=
  mkKmem (<[mem := c]> (pages k)) (use_lock k) (hd 0 fr).

Lemma taken_spec k mem fr c pgdir : vminv k (mem :: fr) pgdir → length c = PAGE →
  vminv (taken k mem fr c) fr pgdir ∧ data_page (taken k mem fr c) fr pgdir mem ∧
  (∀ va, 0 ≤ va < UTOP → pte (pages (taken k mem fr c)) pgdir va = pte (pages k) pgdir va) ∧
  (∀ p, data_page k (mem :: fr) pgdir p → data_page (taken k mem fr c) fr pgdir p ∧ pages (taken k mem fr c) p = pages k p).
Proof.
  intros Hv Hc. pose proof Hv as (Hk & Hp & Hn & Ht & Hu). pose proof Hk as (Hl & Hnd & Hf & Hlen).
  apply not_elem_of_cons in Hn as [Hnm Hn]. apply NoDup_cons in Hnd as [Hmf Hnd]. inversion Hf as [|? ? Hpm Hf']; subst.
  assert (∀ i, tab (pages (taken k mem fr c)) pgdir i = tab (pages k) pgdir i) as Etab.
  { intros i. unfold tab, pde, taken. cbn [pages]. by rewrite fn_lookup_insert_ne by done. }
  assert (∀ i, 0 ≤ i < 510 → tab (pages k) pgdir i ≠ Some mem) as Hnt.
  { intros i Hi E. destruct (Ht i mem Hi E) as (_ & Hx & _). apply not_elem_of_cons in Hx as [? _]. done. }
  split; [|split; [|split]].
  - split; [|split; [done|split; [done|split]]].
    + split_and!; try done; cbn.
      * destruct Hl as [_ Hl]. destruct fr as [|b fr]; [done|]. destruct Hl as [_ Hl]. split; [done|].
        apply not_elem_of_cons in Hmf as [Hmb Hmf]. rewrite fn_lookup_insert_ne by done. by apply linked_other.
      * intros a. destruct (decide (mem = a)) as [->|]; [by rewrite fn_lookup_insert|by rewrite fn_lookup_insert_ne].
    + intros i t Hi. rewrite Etab. intros E. destruct (Ht i t Hi E) as (? & Hx & ?). apply not_elem_of_cons in Hx as [? ?]. done.
    + intros i j t. rewrite !Etab. apply Hu.
  - split_and!; try done. intros i Hi. rewrite Etab. by apply Hnt.
  - intros va Hva. unfold pte. rewrite Etab. destruct (tab (pages k) pgdir (PDX va)) as [t|] eqn:E; [|done].
    destruct (PX_range va Hva) as [Hd _]. unfold taken. cbn [pages]. rewrite fn_lookup_insert_ne; [done|].
    intros ->. by apply (Hnt (PDX va)).
  - intros p (Hpp & Hpf & Hpn & Hpt). apply not_elem_of_cons in Hpf as [Hpm' Hpf]. split.
    + split_and!; try done. intros i Hi. rewrite Etab. by apply Hpt.
    + unfold taken. cbn [pages]. by rewrite fn_lookup_insert_ne.
Qed.

(** The entry that maps the page [p] with the flags [f]. *)
Definition entry (p f : Z) : Z := Z.lor (Z.lor (v2p p) f) PTE_P.

Lemma entry_spec p f : is_page p → 0 ≤ f < PGSIZE → 0 ≤ entry p f < 2 ^ 64 ∧ has (entry p f) PTE_P = true ∧
  PTE_FLAGS (entry p f) = Z.lor f PTE_P ∧ p2v (PTE_ADDR (entry p f)) = p.
Proof.
  intros Hp Hf. destruct (page_v2p p Hp) as (_ & Hr & Hm & Ep). unfold PHYSTOP in Hr.
  unfold entry. rewrite <- Z.lor_assoc.
  assert (0 ≤ Z.lor f PTE_P < PGSIZE) as Hf'.
  { split; [apply Z.lor_nonneg; unfold PTE_P; lia|]. change PGSIZE with (2 ^ 12). apply Z.log2_lt_cancel.
    rewrite Z.log2_lor by (unfold PTE_P; lia). rewrite Z.log2_pow2 by lia. unfold PGSIZE in Hf.
    apply Z.max_lub_lt; [|done]. destruct (decide (f = 0)) as [->|]; [done|]. apply Z.log2_lt_pow2; lia. }
  destruct (entry_parts (v2p p) (Z.lor f PTE_P)) as (H1 & H2 & H3 & H4 & _); [lia|done|done|].
  rewrite H2, H3, H4, Ep. split; [done|]. split; [|done]. unfold has. rewrite Z.land_lor_distr_l.
  change (Z.land PTE_P PTE_P) with 1. destruct (Z.eqb_spec (Z.lor (Z.land f PTE_P) 1) 0) as [E|]; [|done].
  apply Z.lor_eq_0_iff in E as [_ ?]. done.
Qed.

Section extended.
Context (fl : Z → Z) (c : Z → page).
Context (Hfl : ∀ va, 0 ≤ fl va < PGSIZE) (Hflp : ∀ va va', va / PGSIZE = va' / PGSIZE → fl va = fl va').
Context (Hc : ∀ va, length (c va) = PAGE) (Hcp : ∀ va va', va / PGSIZE = va' / PGSIZE → c va = c va').

(** From [k0] the pages of [[lo, hi)] were mapped, each to a fresh page of its
    own, with flags [fl] and contents [c]. *)
Definition extended k0 free0 k free (pgdir lo hi : Z) : Prop :=
  vminv k free pgdir ∧ suffix free free0 ∧
  (Z.of_nat (length free0) ≤ Z.of_nat (length free) + 2 * ((hi - lo) / PGSIZE)) ∧
  (∀ va, 0 ≤ va < UTOP → va < lo ∨ hi ≤ va → pte (pages k) pgdir va = pte (pages k0) pgdir va) ∧
  (∀ va, lo ≤ va < hi → ∃ p, pte (pages k) pgdir va = entry p (fl va) ∧ data_page k free pgdir p ∧
     (p ∈ free0) ∧ pages k p = c va) ∧
  (∀ va va', lo ≤ va < hi → lo ≤ va' < hi →
     p2v (PTE_ADDR (pte (pages k) pgdir va)) = p2v (PTE_ADDR (pte (pages k) pgdir va')) → va / PGSIZE = va' / PGSIZE) ∧
  (∀ p, data_page k0 free0 pgdir p → data_page k free pgdir p ∧ pages k p = pages k0 p).

Lemma extended_refl k free pgdir a : vminv k free pgdir → extended k free k free pgdir a a.
Proof.
  intros Hv. split; [done|]. split; [done|]. rewrite Z.sub_diag, Z.div_0_l by done. split; [lia|]. split; [done|].
  split; [lia|]. split; [lia|]. done.
Qed.

Lemma same_page a va : 0 ≤ a → a mod PGSIZE = 0 → (a / PGSIZE =? va / PGSIZE) = true ↔ a ≤ va < a + PGSIZE.
Proof.
  intros Ha Hm. unfold PGSIZE in *. pose proof (Z.div_mod a 4096). pose proof (Z.div_mod va 4096).
  pose proof (Z.mod_pos_bound va 4096). rewrite Z.eqb_eq. lia.
Qed.

Lemma extended_step k0 free0 k mem fr k' free' pgdir lo a :
  extended k0 free0 k (mem :: fr) pgdir lo a → 0 ≤ lo ≤ a → a mod PGSIZE = 0 → lo mod PGSIZE = 0 →
  a + PGSIZE ≤ UTOP →
  mapped1 (taken k mem fr (c a)) fr k' free' pgdir a (entry mem (fl a)) →
  extended k0 free0 k' free' pgdir lo (a + PGSIZE).
Proof.
  intros (Hv & Hs & Hn & Hout & Hin & Hinj & Hd) Hlo Ha Hl Htop (Mv & Ms & Mn & Mp & Md).
  destruct (taken_spec k mem fr (c a) pgdir Hv (Hc a)) as (Tv & Tm & Tp & Td).
  assert (∀ va, 0 ≤ va < UTOP → pte (pages k') pgdir va =
    if a / PGSIZE =? va / PGSIZE then entry mem (fl a) else pte (pages k) pgdir va) as Hpte.
  { intros va Hva. rewrite Mp by done. destruct (a / PGSIZE =? va / PGSIZE); [done|]. by apply Tp. }
  assert (∀ va, 0 ≤ va < UTOP → ¬ a ≤ va < a + PGSIZE → (a / PGSIZE =? va / PGSIZE) = false) as Hoff.
  { intros va _ Hva. apply not_true_iff_false. rewrite same_page by (lia || done). done. }
  assert (∀ va, a ≤ va < a + PGSIZE → (a / PGSIZE =? va / PGSIZE) = true) as Hon.
  { intros va Hva. apply same_page; [lia|done|done]. }
  assert (is_page mem) as Hpm by apply Tm. destruct (Md mem Tm) as [Hmd Hmz].
  assert (∀ va, lo ≤ va < a → ∃ p, pte (pages k) pgdir va = entry p (fl va) ∧ p ≠ mem ∧ data_page k' free' pgdir p ∧
     (p ∈ free0) ∧ pages k' p = c va) as Hold.
  { intros va Hva. destruct (Hin va Hva) as (p & Ep & Hp & Hpf & Hpz). exists p.
    destruct (Td p Hp) as [Hp1 Hc1]. destruct (Md p Hp1) as [Hp2 Hc2]. split; [done|]. split.
    - intros ->. destruct Hp as (_ & Hx & _). apply Hx. by left.
    - split; [done|]. split; [done|]. by rewrite Hc2, Hc1. }
  assert (∀ va p, is_page p → p ≠ mem → p2v (PTE_ADDR (entry mem (fl a))) ≠ p2v (PTE_ADDR (entry p (fl va)))) as Hne.
  { intros va p Hp Hpm' E. destruct (entry_spec mem (fl a)) as (_ & _ & _ & E1), (entry_spec p (fl va)) as (_ & _ & _ & E2);
      try done. congruence. }
  split; [done|]. split; [|split; [|split; [|split; [|split]]]].
  - etrans; [exact Ms|]. etrans; [|exact Hs]. by exists [mem].
  - replace (a + PGSIZE - lo) with ((a - lo) + 1 * PGSIZE) by lia. rewrite Z.div_add by done.
    cbn [length] in Hn. lia.
  - intros va Hva Hr. rewrite Hpte by done. rewrite Hoff by (done || (unfold PGSIZE in *; lia)).
    apply Hout; [done|]. unfold PGSIZE in *. lia.
  - intros va Hva. destruct (decide (a ≤ va)) as [Hge|Hlt].
    + exists mem. rewrite Hpte, Hon by (unfold PGSIZE, UTOP in *; lia).
      assert (a / PGSIZE = va / PGSIZE) as Ep by (apply Z.eqb_eq, Hon; lia).
      split; [by rewrite (Hflp a va)|]. split; [done|]. split.
      * destruct Hs as [pre ->]. apply elem_of_app. right. by left.
      * rewrite Hmz, <- (Hcp a va Ep). unfold taken. cbn [pages]. apply fn_lookup_insert.
    + rewrite Hpte, Hoff by (unfold PGSIZE, UTOP in *; lia). destruct (Hold va) as (p & Ep & _ & Hp); [lia|].
      exists p. done.
  - intros va va' Hva Hva'. rewrite !Hpte by (unfold UTOP in *; lia).
    destruct (decide (a ≤ va)) as [Hge|Hlt], (decide (a ≤ va')) as [Hge'|Hlt'].
    + intros _. pose proof (Hon va ltac:(lia)) as E1. pose proof (Hon va' ltac:(lia)) as E2. apply Z.eqb_eq in E1, E2. congruence.
    + rewrite Hon, Hoff by (unfold UTOP in *; lia). destruct (Hold va') as (p & -> & Hpm' & Hp & _); [lia|].
      intros E. exfalso. by eapply Hne, E; [apply Hp|].
    + rewrite (Hon va'), (Hoff va) by (unfold UTOP in *; lia). destruct (Hold va) as (p & -> & Hpm' & Hp & _); [lia|].
      intros E. exfalso. by eapply Hne, eq_sym, E; [apply Hp|].
    + rewrite !Hoff by (unfold UTOP in *; lia). apply Hinj; lia.
  - intros p Hp. destruct (Hd p Hp) as [H1 C1]. destruct (Td p H1) as [H2 C2]. destruct (Md p H2) as [H3 C3].
    split; [done|]. by rewrite C3, C2.
Qed.
End extended.

(** [allocuvm] maps zeroed pages the user may write. *)
Definition zeroed : Z → page := λ _, replicate PAGE 0.
Definition user_rw : Z → Z := λ _, Z.lor PTE_W PTE_U.
Lemma user_rw_range va : 0 ≤ user_rw va < PGSIZE.
Proof. done. Qed.
Abbreviation extended0 := (extended user_rw zeroed).

(** One iteration of [allocuvm] with two free pages. *)
Lemma alloc_step_ok pgdir oldsz newsz k0 free0 k free a s : km_free (ks_m s) →
  let lo := PGROUNDUP oldsz in
  extended0 k0 free0 k free pgdir lo a → 0 ≤ lo ≤ a → a mod PGSIZE = 0 → lo mod PGSIZE = 0 → a < newsz ≤ UTOP →
  has (pte (pages k0) pgdir a) PTE_P = false → (2 ≤ length free)%nat →
  ∃ k' free', alloc_step kend pgdir oldsz newsz a (set_ksk k s) = Ok (inl (a + PGSIZE)) (set_ksk k' s) ∧
    extended0 k0 free0 k' free' pgdir lo (a + PGSIZE).
Proof.
  intros Hm lo Hx Hlo Ha Hl Hn Hnp Hf. destruct free as [|mem fr]; [cbn in Hf; lia|]. cbn [length] in Hf.
  assert (a + PGSIZE ≤ UTOP) as Htop by (unfold PGSIZE, UTOP in *; pose proof (Z.div_mod a 4096); lia).
  pose proof Hx as (Hv & _ & _ & Hout & _). destruct (taken_spec k mem fr (zeroed a) pgdir Hv (length_replicate _ _)) as (Tv & Tm & Tp & _).
  unfold alloc_step. rewrite (proj2 (Z.leb_gt _ _)) by lia.
  destruct (kalloc_run kend (set_ksk k s) _ (proj1 Hv) Hm) as [E _]. step E. cbn [hd tl].
  destruct (proj1 Tm) as (_ & _ & _ & Hmem). rewrite (proj2 (Z.eqb_neq mem 0)) by lia.
  set (s2 := set_ksk (taken k mem fr (zeroed a)) s).
  rewrite (bind_ok _ _ _ tt s2) by reflexivity.
  destruct (entry_spec mem (user_rw a) (proj1 Tm) ltac:(done)) as [He _].
  destruct (map_page_run s2 fr pgdir a (v2p mem) (Z.lor PTE_W PTE_U)) as [(k' & f' & E' & M')|(-> & _)]; try done.
  - lia.
  - cbn [ks_k s2 set_ksk]. rewrite Tp by lia. rewrite Hout by lia. done.
  - exists k', f'. split; [|by apply (extended_step user_rw zeroed) with (k := k) (mem := mem) (fr := fr); try done; intros; apply length_replicate].
    step E'. unfold ret. do 2 f_equal. rewrite wrap_small; [done|]. unfold PGSIZE, UTOP in *. lia.
  - cbn in Hf. lia.
Qed.

Lemma alloc_loop pgdir oldsz newsz k0 free0 s : km_free (ks_m s) → 0 ≤ oldsz ≤ newsz → newsz ≤ UTOP →
  let lo := PGROUNDUP oldsz in
  (∀ va, lo ≤ va < PGROUNDUP newsz → has (pte (pages k0) pgdir va) PTE_P = false) →
  2 * ((PGROUNDUP newsz - lo) / PGSIZE) ≤ Z.of_nat (length free0) →
  ∀ n m a k free, extended0 k0 free0 k free pgdir lo a →
  0 ≤ lo ≤ a → lo mod PGSIZE = 0 → a = PGROUNDUP newsz - PGSIZE * Z.of_nat n → (n < m)%nat →
  ∃ k' free', loopM m (alloc_step kend pgdir oldsz newsz) a (set_ksk k s) = Ok newsz (set_ksk k' s) ∧
    extended0 k0 free0 k' free' pgdir lo (PGROUNDUP newsz).
Proof.
  intros Hm Ho Htop lo Hnp Hfree. assert (newsz + PGSIZE ≤ 2 ^ 64) as H64 by (unfold UTOP, PGSIZE in *; lia).
  destruct (PGROUNDUP_le newsz) as [Hr Hrm]; [lia|done|].
  induction n as [|n IH]; intros m a k free Hx Hlo Hl Ha Hlt; (destruct m as [|m]; [lia|]); cbn [loopM].
  - rewrite Z.mul_0_r, Z.sub_0_r in Ha. subst a. exists k, free. split; [|done].
    rewrite (bind_ok _ _ _ (inr newsz) (set_ksk k s)); [done|]. unfold alloc_step.
    rewrite (proj2 (Z.leb_le _ _)) by lia. unfold ret. do 2 f_equal. apply swrap_small; unfold UTOP in *; lia.
  - assert (a mod PGSIZE = 0) as Ham.
    { subst a. rewrite Zminus_mod, Hrm, Z.mul_comm, Z.mod_mul by done. done. }
    assert ((a - lo) / PGSIZE + 1 ≤ (PGROUNDUP newsz - lo) / PGSIZE) as Hq.
    { replace ((a - lo) / PGSIZE + 1) with ((a - lo + 1 * PGSIZE) / PGSIZE) by (by rewrite Z.div_add).
      apply Z.div_le_mono; [done|]. unfold PGSIZE in *. lia. }
    destruct (alloc_step_ok pgdir oldsz newsz k0 free0 k free a s) as (k1 & f1 & E & Hx1); try done.
    + unfold PGSIZE in *. lia.
    + apply Hnp. unfold PGSIZE in *. lia.
    + destruct Hx as (_ & _ & Hlen & _). lia.
    + step E. apply (IH m _ k1 f1); try done; unfold PGSIZE in *; lia.
Qed.

Lemma PGROUNDUP_mono a b : 0 ≤ a ≤ b → b + PGSIZE ≤ 2 ^ 64 → PGROUNDUP a ≤ PGROUNDUP b.
Proof.
  intros Ha Hb. rewrite !PGROUNDUP_spec by lia. unfold PGSIZE.
  apply Z.mul_le_mono_nonneg_l; [done|]. apply Z.div_le_mono; lia.
Qed.

Lemma PGROUNDUP_top a : 0 ≤ a ≤ UTOP → 0 ≤ PGROUNDUP a ≤ UTOP.
Proof.
  intros Ha. split; [destruct (PGROUNDUP_le a); [lia|unfold UTOP, PGSIZE in *; lia|lia]|].
  change UTOP with (PGROUNDUP UTOP). apply PGROUNDUP_mono; [done|]. unfold UTOP, PGSIZE. lia.
Qed.

Lemma allocuvm_run s free pgdir oldsz newsz : vminv (ks_k s) free pgdir → km_free (ks_m s) →
  0 ≤ oldsz ≤ newsz → newsz ≤ UTOP →
  (∀ va, PGROUNDUP oldsz ≤ va < PGROUNDUP newsz → has (pte (pages (ks_k s)) pgdir va) PTE_P = false) →
  2 * ((PGROUNDUP newsz - PGROUNDUP oldsz) / PGSIZE) ≤ Z.of_nat (length free) →
  ∃ k' free', allocuvm kend pgdir oldsz newsz s = Ok newsz (set_ksk k' s) ∧
    extended0 (ks_k s) free k' free' pgdir (PGROUNDUP oldsz) (PGROUNDUP newsz).
Proof.
  intros Hv Hm Ho Htop Hnp Hf. unfold allocuvm. rewrite (proj2 (Z.ltb_ge _ _)) by lia.
  assert (newsz + PGSIZE ≤ 2 ^ 64) as H64 by (unfold UTOP, PGSIZE in *; lia).
  destruct (PGROUNDUP_le newsz) as [Hr Hrm]; [lia|done|]. destruct (PGROUNDUP_le oldsz) as [Hr' Hrm']; [lia|lia|].
  pose proof (PGROUNDUP_mono oldsz newsz ltac:(lia) H64) as Hle.
  destruct s as [m k]. cbn [ks_m ks_k] in *.
  apply (alloc_loop pgdir oldsz newsz k free (mkKst m k)) with
    (n := Z.to_nat ((PGROUNDUP newsz - PGROUNDUP oldsz) / PGSIZE)) (free := free); try done.
  - by apply extended_refl.
  - lia.
  - rewrite Z2Nat.id by (apply Z.div_pos; unfold PGSIZE; lia). rewrite <- Z_div_exact_full_2; [lia|done|].
    by rewrite Zminus_mod, Hrm, Hrm'.
  - assert ((PGROUNDUP newsz - PGROUNDUP oldsz) / PGSIZE ≤ (newsz - PGROUNDUP oldsz) / PGSIZE + 1) as Hq; [|lia].
    replace ((newsz - PGROUNDUP oldsz) / PGSIZE + 1) with ((newsz - PGROUNDUP oldsz + 1 * PGSIZE) / PGSIZE)
      by (by rewrite Z.div_add).
    apply Z.div_le_mono; [done|]. lia.
Qed.
End spec.
