(* ===== verification/VmThms.v ===== *)
(** * What the address space operations promise

    [setupkvm] makes an empty address space, [mappages] adds one translation,
    [allocuvm] maps fresh zeroed pages, [copyout] stores bytes where the user
    reads them, and [copyuvm] makes a disjoint copy.  The last part runs the
    operations on a small memory and shows what they do when it is full. *)

From S2P Require Import Prelude Bytes Spinlock Sched Kalloc Vm VmSpec.
From Stdlib Require Import FunctionalExtensionality.

Section vm.
Context (kend kpdpt : Z) (Hkend : KERNBASE ≤ kend).
Implicit Types (k : kmem) (s : kst) (free : list Z).

Abbreviation is_page := (is_page kend).
Abbreviation vminv := (vminv kend).

(** Three pages were taken for an address space with nothing mapped. *)
Definition empty_space k (p4 pt pd : Z) (fr : list Z) k' : Prop :=
  vminv k' fr pd ∧ (∀ i, 0 ≤ i < 510 → tab (pages k') pd i = None) ∧
  (∀ p, p ∉ [p4; pt; pd] → pages k' p = pages k p).

Lemma kinv_write k free a p : kinv kend k free → a ∉ free → length p = PAGE →
  kinv kend (set_pages (<[a := p]> (pages k)) k) free.
Proof.
  intros (Hl & Hnd & Hf & Hlen) Ha Hp. split_and!; try done; cbn.
  - by apply linked_other.
  - intros b. destruct (decide (a = b)) as [->|]; [by rewrite fn_lookup_insert|by rewrite fn_lookup_insert_ne].
Qed.

Lemma put64_page i x (p : page) : length p = PAGE → 0 ≤ i < 512 → length (put64 (8 * Z.to_nat i) x p) = PAGE.
Proof. intros Hp Hi. pose proof PAGE_Z. unfold PGSIZE in *. rewrite put64_length; lia. Qed.

(** A run of writes to pages that are not free. *)
Definition writes (k : kmem) (l : list (Z * (page → page))) : kmem :=
  foldl (λ k w, set_pages (<[w.1 := w.2 (pages k w.1)]> (pages k)) k) k l.

Lemma writes_kinv l k free : kinv kend k free →
  Forall (λ w, (w.1 ∉ free) ∧ ∀ p, length p = PAGE → length (w.2 p) = PAGE) l →
  kinv kend (writes k l) free ∧ (∀ p, p ∉ l.*1 → pages (writes k l) p = pages k p).
Proof.
  revert k. induction l as [|[a f] l IH]; intros k Hk Hl; [done|].
  apply Forall_cons in Hl as [[Ha Hf] Hl]. cbn [fst snd] in *. cbn [writes foldl].
  edestruct (IH _ (kinv_write k free a (f (pages k a)) Hk Ha (Hf _ (proj2 (proj2 (proj2 Hk)) a)))) as [H1 H2]; [done|].
  split; [exact H1|]. intros p Hp. cbn in Hp. apply not_elem_of_cons in Hp as [Hpa Hp].
  etrans; [apply (H2 p Hp)|]. cbn. by rewrite fn_lookup_insert_ne.
Qed.

Lemma writes_at l k p :
  pages (writes k l) p = foldl (λ x w, if decide (w.1 = p) then w.2 x else x) (pages k p) l.
Proof.
  revert k. induction l as [|[a f] l IH]; intros k; [done|]. cbn [writes foldl fst snd]. etrans; [apply IH|].
  cbn [pages set_pages]. case_decide as E; [subst a; by rewrite fn_lookup_insert|by rewrite fn_lookup_insert_ne].
Qed.

(** What [setupkvm] stores in its three pages. *)
Definition space_writes (p4 pt pd : Z) : list (Z * (page → page)) :=
  [(p4, const (replicate PAGE 0)); (pt, const (replicate PAGE 0)); (pd, const (replicate PAGE 0));
   (p4, put64 (8 * Z.to_nat 511) (Z.lor (Z.lor (Z.lor (v2p kpdpt) PTE_P) PTE_W) PTE_U));
   (p4, put64 (8 * Z.to_nat 0) (Z.lor (Z.lor (Z.lor (v2p pt) PTE_P) PTE_W) PTE_U));
   (pt, put64 (8 * Z.to_nat 0) (Z.lor (Z.lor (Z.lor (v2p pd) PTE_P) PTE_W) PTE_U));
   (pd, put64 (8 * Z.to_nat 511) (Z.lor p4 PTE_P)); (pd, put64 (8 * Z.to_nat 510) (Z.lor pt PTE_P))].

(** The allocator after the pages before [fr] were taken. *)
Definition popped k (fr : list Z) : kmem := mkKmem (pages k) (use_lock k) (hd 0 fr).

Lemma setupkvm_writes s p4 pt pd fr : kinv kend (ks_k s) (p4 :: pt :: pd :: fr) → km_free (ks_m s) →
  setupkvm kpdpt s = Ok pd (set_ksk (writes (popped (ks_k s) fr) (space_writes p4 pt pd)) s) ∧
  kinv kend (popped (ks_k s) fr) fr.
Proof.
  intros Hk Hm. unfold setupkvm. pose proof Hk as (_ & _ & Hpg & _).
  apply Forall_cons in Hpg as [P4 Hpg]. apply Forall_cons in Hpg as [Pt Hpg]. apply Forall_cons in Hpg as [Pd Hpg].
  destruct (kalloc_run kend s _ Hk Hm) as [E Hk1]. step E. clear E. cbn [hd tl] in *.
  edestruct (kalloc_run kend (set_ksk _ s) _ Hk1 Hm) as [E Hk2]. step E. clear E. cbn [hd tl] in *.
  edestruct (kalloc_run kend (set_ksk _ s) _ Hk2 Hm) as [E Hk3]. step E. clear E. cbn [hd tl] in *.
  destruct P4 as (_ & _ & _ & Z4), Pt as (_ & _ & _ & Zt), Pd as (_ & _ & _ & Zd).
  rewrite !(proj2 (Z.eqb_neq _ 0)) by lia. cbn [orb]. split; [reflexivity|exact Hk3].
Qed.

Lemma space_writes_ok p4 pt pd fr : NoDup (p4 :: pt :: pd :: fr) →
  Forall (λ w, (w.1 ∉ fr) ∧ ∀ p : page, length p = PAGE → length (w.2 p) = PAGE) (space_writes p4 pt pd).
Proof.
  intros Hnd. apply NoDup_cons in Hnd as [N4 Hnd]. apply NoDup_cons in Hnd as [Nt Hnd]. apply NoDup_cons in Hnd as [Nd _].
  apply not_elem_of_cons in N4 as [_ N4], Nt as [_ Ft]. apply not_elem_of_cons in N4 as [_ F4].
  repeat constructor; cbn; try done; intros p Hp; (apply length_replicate || (apply put64_page; [done|lia])).
Qed.

Lemma setupkvm_run s p4 pt pd fr : kinv kend (ks_k s) (p4 :: pt :: pd :: fr) → km_free (ks_m s) →
  ∃ k', setupkvm kpdpt s = Ok pd (set_ksk k' s) ∧ empty_space (ks_k s) p4 pt pd fr k'.
Proof.
  intros Hk Hm. destruct (setupkvm_writes s p4 pt pd fr Hk Hm) as [E Hk3]. pose proof Hk as (_ & Hnd & Hpg & _).
  pose proof (space_writes_ok p4 pt pd fr Hnd) as Hok.
  apply NoDup_cons in Hnd as [N4 Hnd]. apply NoDup_cons in Hnd as [Nt Hnd]. apply NoDup_cons in Hnd as [Nd Hnd].
  apply Forall_cons in Hpg as [P4 Hpg]. apply Forall_cons in Hpg as [Pt Hpg]. apply Forall_cons in Hpg as [Pd Hpg].
  set (k3 := popped (ks_k s) fr) in *. set (l := space_writes p4 pt pd) in *.
  exists (writes k3 l). split; [exact E|].
  apply not_elem_of_cons in N4 as [D2 N4], Nt as [D3 Ft]. apply not_elem_of_cons in N4 as [D1 F4].
  destruct (writes_kinv l k3 fr Hk3 Hok) as [Hk' Hsame].
  assert (pages (writes k3 l) pd =
    put64 (8 * Z.to_nat 510) (Z.lor pt PTE_P) (put64 (8 * Z.to_nat 511) (Z.lor p4 PTE_P) (replicate PAGE 0))) as Epd.
  { rewrite writes_at. unfold l, space_writes. cbn [foldl fst snd].
    rewrite (decide_False (P := p4 = pd)), (decide_False (P := pt = pd)), (decide_True (P := pd = pd)) by done.
    by rewrite !(decide_False (P := p4 = pd)), !(decide_False (P := pt = pd)), !(decide_True (P := pd = pd)) by done. }
  assert (∀ i, 0 ≤ i < 510 → tab (pages (writes k3 l)) pd i = None) as Hnone.
  { intros i Hi. unfold tab, pde. rewrite Epd, !get64_put64_word, get64_zero by
      (lia || (try apply put64_page; try lia; apply length_replicate)).
    by rewrite !(proj2 (Z.eqb_neq _ _)) by lia. }
  split; [|split; [exact Hnone|]].
  - split; [exact Hk'|]. split; [done|]. split; [done|]. split.
    + intros i t Hi. by rewrite Hnone.
    + intros i j t Hi _. by rewrite Hnone.
  - intros p Hp. rewrite Hsame; [done|]. clear -Hp. cbn. rewrite !not_elem_of_cons in *. naive_solver.
Qed.

(** ** User memory *)

(** The kernel address of the page an address is mapped to. *)
Definition upage k (pgdir va : Z) : Z := p2v (PTE_ADDR (pte (pages k) pgdir va)).
Definition present k (pgdir va : Z) : bool := has (pte (pages k) pgdir va) PTE_P.
Definition user_ok k (pgdir va : Z) : bool := present k pgdir va && has (pte (pages k) pgdir va) PTE_U.

(** The byte the user sees at an address. *)
Definition ubyte k (pgdir va : Z) : option Z :=
  if user_ok k pgdir va then pages k (upage k pgdir va) !! Z.to_nat (va mod PGSIZE) else None.

(** Every mapped page is a page of its own, outside the tables and the free list. *)
Definition uspace k free (pgdir : Z) : Prop :=
  vminv k free pgdir ∧
  (∀ va, 0 ≤ va < UTOP → present k pgdir va = true → data_page kend k free pgdir (upage k pgdir va)) ∧
  (∀ va va', 0 ≤ va < UTOP → 0 ≤ va' < UTOP → present k pgdir va = true → present k pgdir va' = true →
     upage k pgdir va = upage k pgdir va' → va / PGSIZE = va' / PGSIZE).

(** A store to a page that is not a page table changes no translation. *)
Lemma data_write k free pgdir p c : vminv k free pgdir → data_page kend k free pgdir p → length c = PAGE →
  let k' := set_pages (<[p := c]> (pages k)) k in
  vminv k' free pgdir ∧ (∀ i, tab (pages k') pgdir i = tab (pages k) pgdir i) ∧
  (∀ va, 0 ≤ va < UTOP → pte (pages k') pgdir va = pte (pages k) pgdir va) ∧
  (∀ q, data_page kend k free pgdir q → data_page kend k' free pgdir q).
Proof.
  intros (Hk & Hp & Hn & Ht & Hu) (Pp & Pf & Pne & Ptab) Hc k'.
  assert (∀ i, tab (pages k') pgdir i = tab (pages k) pgdir i) as Etab.
  { intros i. unfold tab, pde, k'. cbn [pages set_pages]. by rewrite fn_lookup_insert_ne. }
  split; [|split; [exact Etab|split]].
  - split; [by apply kinv_write|]. split; [done|]. split; [done|]. split.
    + intros i t Hi. rewrite Etab. by apply Ht.
    + intros i j t. rewrite !Etab. apply Hu.
  - intros va Hva. unfold pte. rewrite Etab. destruct (tab (pages k) pgdir (PDX va)) as [t|] eqn:E; [|done].
    destruct (PX_range va Hva) as [Hd _]. unfold k'. cbn [pages set_pages]. rewrite fn_lookup_insert_ne; [done|].
    intros <-. by apply (Ptab _ Hd).
  - intros q (Q1 & Q2 & Q3 & Q4). split_and!; try done. intros i Hi. rewrite Etab. by apply Q4.
Qed.

Lemma uspace_write k free pgdir p c : uspace k free pgdir → data_page kend k free pgdir p → length c = PAGE →
  let k' := set_pages (<[p := c]> (pages k)) k in
  uspace k' free pgdir ∧ (∀ va, 0 ≤ va < UTOP → pte (pages k') pgdir va = pte (pages k) pgdir va).
Proof.
  intros (Hv & Hd & Hi) Hp Hc k'. destruct (data_write k free pgdir p c Hv Hp Hc) as (Hv' & _ & Hpt & Hdp).
  split; [|done]. unfold uspace, present, upage in *. split; [done|]. split.
  - intros va Hva. rewrite Hpt by done. intros E. by apply Hdp, Hd.
  - intros va va' Hva Hva'. rewrite !Hpt by done. by apply Hi.
Qed.

(** Overwriting part of one user page. *)
Lemma ubyte_write k free pgdir va0 off l : uspace k free pgdir → 0 ≤ va0 < UTOP → va0 mod PGSIZE = 0 →
  user_ok k pgdir va0 = true → 0 ≤ off → off + Z.of_nat (length l) ≤ PGSIZE →
  let p := upage k pgdir va0 in
  let k' := set_pages (<[p := splice (Z.to_nat off) l (pages k p)]> (pages k)) k in
  uspace k' free pgdir ∧ (∀ va, 0 ≤ va < UTOP → pte (pages k') pgdir va = pte (pages k) pgdir va) ∧
  (∀ va, 0 ≤ va < UTOP → ubyte k' pgdir va =
     if decide (va0 + off ≤ va < va0 + off + Z.of_nat (length l)) then l !! Z.to_nat (va - va0 - off) else ubyte k pgdir va).
Proof.
  intros Hu Hva Hal Hok Ho Hlen p k'. pose proof Hu as (Hv & Hd & Hi). pose proof Hv as ((_ & _ & _ & Hpl) & _).
  assert (present k pgdir va0 = true) as Hpr by (unfold user_ok in Hok; by apply andb_true_iff in Hok as [? _]).
  pose proof PAGE_Z as HP.
  assert (Z.to_nat off + length l ≤ length (pages k p))%nat as Hfit by (rewrite Hpl; unfold PGSIZE in *; lia).
  destruct (uspace_write k free pgdir p (splice (Z.to_nat off) l (pages k p)) Hu) as [Hu' Hpt].
  { by apply Hd. }
  { by rewrite splice_length. }
  split; [done|]. split; [done|]. intros va Hr.
  assert (ubyte k' pgdir va = if user_ok k pgdir va then pages k' (upage k pgdir va) !! Z.to_nat (va mod PGSIZE) else None) as ->.
  { unfold ubyte, user_ok, present, upage. unfold k'. by rewrite Hpt. }
  unfold ubyte. pose proof (Z.div_mod va PGSIZE) as Dv. pose proof (Z.div_mod va0 PGSIZE) as D0.
  pose proof (Z.mod_pos_bound va PGSIZE) as Mv. unfold PGSIZE in *.
  destruct (decide (va0 / 4096 = va / 4096)) as [E|E].
  - assert (pte (pages k) pgdir va = pte (pages k) pgdir va0) as Ep.
    { destruct (proj2 (PX_page va va0 Hr Hva) (eq_sym E)) as [E1 E2]. unfold pte. by rewrite E1, E2. }
    assert (user_ok k pgdir va = true) as -> by (unfold user_ok, present in *; by rewrite Ep).
    assert (upage k pgdir va = p) as -> by (unfold upage in *; by rewrite Ep).
    unfold k'. cbn [pages set_pages]. rewrite fn_lookup_insert, lookup_splice by done.
    case_decide as C; case_bool_decide as B; try (exfalso; lia); [f_equal; lia|done].
  - rewrite decide_False by lia.
    destruct (user_ok k pgdir va) eqn:Eo; [|done]. unfold k'. cbn [pages set_pages].
    rewrite fn_lookup_insert_ne; [done|]. intros Ep. apply E, Hi; try done.
    unfold user_ok in Eo. by apply andb_true_iff in Eo as [? _].
Qed.

Lemma uva2ka_run s free pgdir va : vminv (ks_k s) free pgdir → km_free (ks_m s) →
  user_ok (ks_k s) pgdir va = true → uva2ka pgdir va s = Ok (upage (ks_k s) pgdir va) s.
Proof.
  intros Hv Hm Hok. apply andb_true_iff in Hok as [Hp Hu]. unfold present in Hp. unfold uva2ka, upage.
  unfold pte in *. pose proof (walk_run kend s free pgdir va false Hv Hm) as E.
  destruct (tab (pages (ks_k s)) pgdir (PDX va)) as [t|]; [|done]. step E.
  unfold getw. go. by rewrite Hp, Hu.
Qed.

Lemma user_ok_page k pgdir va va' : 0 ≤ va < UTOP → 0 ≤ va' < UTOP → va / PGSIZE = va' / PGSIZE →
  user_ok k pgdir va = user_ok k pgdir va'.
Proof.
  intros Hv Hv' E. destruct (proj2 (PX_page va va' Hv Hv') E) as [E1 E2].
  unfold user_ok, present, pte. by rewrite E1, E2.
Qed.

Lemma round_down va : 0 ≤ va < UTOP → u32 (PGROUNDDOWN va) = va - va mod PGSIZE ∧
  0 ≤ va - va mod PGSIZE < UTOP ∧ (va - va mod PGSIZE) mod PGSIZE = 0 ∧ (va - va mod PGSIZE) / PGSIZE = va / PGSIZE.
Proof.
  intros Hv. unfold UTOP in *. rewrite PGROUNDDOWN_spec by lia. unfold PGSIZE.
  pose proof (Z.div_mod va 4096). pose proof (Z.mod_pos_bound va 4096).
  replace (va - va mod 4096) with (4096 * (va / 4096)) by lia. rewrite wrap_small by lia.
  split; [done|]. split; [lia|]. rewrite Z.mul_comm, Z.mod_mul, Z.div_mul by done. done.
Qed.

(** What a store of [buf] at [va] into user memory does. *)
Definition stored k free (pgdir va : Z) (buf : list Z) k' : Prop :=
  uspace k' free pgdir ∧ (∀ a, 0 ≤ a < UTOP → pte (pages k') pgdir a = pte (pages k) pgdir a) ∧
  (∀ a, 0 ≤ a < UTOP → ubyte k' pgdir a =
     if decide (va ≤ a < va + Z.of_nat (length buf)) then buf !! Z.to_nat (a - va) else ubyte k pgdir a).

Lemma copyout_one s free pgdir va buf : uspace (ks_k s) free pgdir → km_free (ks_m s) → buf ≠ [] →
  0 ≤ va < UTOP → user_ok (ks_k s) pgdir va = true →
  let n := Z.to_nat (Z.min (PGSIZE - va mod PGSIZE) (Z.of_nat (length buf))) in
  ∃ k', copyout_step pgdir (va, buf) s =
      Ok (inl (va - va mod PGSIZE + PGSIZE, drop n buf)) (set_ksk k' s) ∧
    stored (ks_k s) free pgdir va (take n buf) k'.
Proof.
  intros Hu Hm Hb Hva Hok n. pose proof Hu as (Hv & Hd & _). destruct (round_down va Hva) as (E0 & H0 & M0 & D0).
  set (va0 := va - va mod PGSIZE) in *. pose proof (Z.mod_pos_bound va PGSIZE ltac:(done)) as Mv.
  assert (user_ok (ks_k s) pgdir va0 = true) as Hok0 by (by rewrite (user_ok_page _ _ va0 va)).
  assert (upage (ks_k s) pgdir va0 ≠ 0) as Hnz.
  { apply andb_true_iff in Hok0 as [Hp _]. destruct (Hd va0 H0 Hp) as ((_ & _ & _ & ?) & _). lia. }
  destruct (ubyte_write (ks_k s) free pgdir va0 (va mod PGSIZE) (take n buf)) as (W1 & W2 & W3); try done.
  { lia. }
  { rewrite length_take. unfold n. lia. }
  eexists. split.
  - unfold copyout_step. destruct buf as [|b buf]; [done|]. rewrite E0.
    step (uva2ka_run s free pgdir va0 Hv Hm Hok0). rewrite (proj2 (Z.eqb_neq _ _) Hnz).
    replace (va - va0) with (va mod PGSIZE) by (unfold va0; lia). go. rewrite wrap_small; [done|].
    unfold PGSIZE, UTOP in *. lia.
  - split; [exact W1|]. split; [exact W2|]. intros a Ha. etrans; [apply (W3 a Ha)|].
    replace (va0 + va mod PGSIZE) with va by (unfold va0; lia).
    replace (a - va0 - va mod PGSIZE) with (a - va) by (unfold va0; lia). done.
Qed.

Lemma stored_app k free pgdir va l1 l2 k1 k2 : stored k free pgdir va l1 k1 →
  stored k1 free pgdir (va + Z.of_nat (length l1)) l2 k2 → stored k free pgdir va (l1 ++ l2) k2.
Proof.
  intros (A1 & A2 & A3) (B1 & B2 & B3). split; [done|]. split; [intros a Ha; by rewrite B2, A2|].
  intros a Ha. rewrite B3, A3 by done. rewrite length_app.
  repeat case_decide; try (exfalso; lia); [| |done].
  - rewrite lookup_app_r by lia. f_equal. lia.
  - rewrite lookup_app_l by lia. done.
Qed.

Lemma copyout_loop free pgdir n : ∀ s va buf, uspace (ks_k s) free pgdir → km_free (ks_m s) →
  (length buf < n)%nat → 0 ≤ va → va + Z.of_nat (length buf) ≤ UTOP →
  (∀ a, va ≤ a < va + Z.of_nat (length buf) → user_ok (ks_k s) pgdir a = true) →
  ∃ k', loopM n (copyout_step pgdir) (va, buf) s = Ok 0 (set_ksk k' s) ∧ stored (ks_k s) free pgdir va buf k'.
Proof.
  induction n as [|n IH]; intros s va buf Hu Hm Hn Hva Htop Hok; [lia|]. cbn [loopM].
  destruct (decide (buf = [])) as [->|Hb].
  { exists (ks_k s). split; [by destruct s|]. split; [done|]. split; [done|].
    intros a Ha. rewrite decide_False; [done|]. cbn. lia. }
  assert (0 < Z.of_nat (length buf)) as Hl by (destruct buf; [done|cbn; lia]).
  destruct (copyout_one s free pgdir va buf Hu Hm Hb) as (k1 & E1 & S1); [lia|apply Hok; lia|].
  set (m := Z.to_nat _) in E1, S1. pose proof (Z.mod_pos_bound va PGSIZE ltac:(done)) as Mv.
  assert (length (take m buf) = m) as Hlt by (rewrite length_take; unfold m; lia).
  assert (length (drop m buf) = (length buf - m)%nat) as Hld by apply length_drop.
  pose proof S1 as (U1 & P1 & _).
  assert (va + Z.of_nat m = va - va mod PGSIZE + PGSIZE ∨ drop m buf = []) as Hnext.
  { destruct (decide (PGSIZE - va mod PGSIZE ≤ Z.of_nat (length buf))); [left; unfold m; lia|].
    right. apply nil_length_inv. unfold m in *. lia. }
  assert (va - va mod PGSIZE + PGSIZE ≤ UTOP) as Htop'.
  { destruct (round_down va) as (_ & ? & M0 & _); [lia|]. apply Z.div_exact in M0; [|done]. unfold UTOP, PGSIZE in *. lia. }
  destruct (IH (set_ksk k1 s) (va - va mod PGSIZE + PGSIZE) (drop m buf)) as (k2 & E2 & S2); try done.
  - unfold m in *. unfold PGSIZE in *. lia.
  - lia.
  - destruct Hnext as [En| ->]; [rewrite <- En; lia|cbn; lia].
  - intros a Ha. destruct Hnext as [En|En]; [|rewrite En in Ha; cbn in Ha; lia].
    assert (user_ok (ks_k s) pgdir a = true) as <- by (apply Hok; lia).
    unfold user_ok, present. cbn [ks_k set_ksk]. by rewrite P1 by lia.
  - exists k2. step E1. split; [exact E2|]. rewrite <- (take_drop m buf). apply (stored_app _ _ _ _ _ _ k1); [done|].
    rewrite Hlt. destruct Hnext as [->|En]; [done|]. rewrite En in *. destruct S2 as (B1 & B2 & B3).
    split; [done|]. split; [done|]. intros a Ha. rewrite B3 by done. rewrite !decide_False by (cbn; lia). done.
Qed.

Lemma copyout_run s free pgdir va buf : uspace (ks_k s) free pgdir → km_free (ks_m s) →
  0 ≤ va → va + Z.of_nat (length buf) ≤ UTOP →
  (∀ a, va ≤ a < va + Z.of_nat (length buf) → user_ok (ks_k s) pgdir a = true) →
  ∃ k', copyout pgdir va buf s = Ok 0 (set_ksk k' s) ∧ stored (ks_k s) free pgdir va buf k'.
Proof. intros Hu Hm Hva Htop Hok. apply copyout_loop; done || lia. Qed.

(** ** Copying an address space *)

Lemma pte_page m pgdir va va' : va / PGSIZE = va' / PGSIZE → pte m pgdir va = pte m pgdir va'.
Proof.
  intros E. assert (PTX va = PTX va' ∧ PDX va = PDX va') as [E1 E2].
  { unfold PTX, PDX. rewrite !Z.shiftr_div_pow2 by lia. change (2 ^ 12) with PGSIZE. change (2 ^ 21) with (PGSIZE * 512).
    rewrite <- !Z.div_div by done. by rewrite E. }
  unfold pte. by rewrite E1, E2.
Qed.

Lemma has_flags e b : 0 ≤ b < PGSIZE → has (PTE_FLAGS e) b = has e b.
Proof.
  intros Hb. unfold has, PTE_FLAGS. rewrite <- Z.land_assoc, (Z.land_comm 0xFFF).
  change 0xFFF with (Z.ones 12). rewrite Z.land_ones by lia. rewrite Z.mod_small by (unfold PGSIZE in Hb; lia). done.
Qed.

Lemma flags_range e : 0 ≤ PTE_FLAGS e < PGSIZE.
Proof. rewrite PTE_FLAGS_spec. apply Z.mod_pos_bound. done. Qed.

(** A page that [pgdir] uses: the directory, a table or a mapped page. *)
Definition used_by k (pgdir q : Z) : Prop :=
  q = pgdir ∨ (∃ i, 0 ≤ i < 510 ∧ tab (pages k) pgdir i = Some q) ∨
  (∃ va, 0 ≤ va < UTOP ∧ present k pgdir va = true ∧ q = upage k pgdir va).

Lemma used_not_free k free pgdir q : uspace k free pgdir → used_by k pgdir q → is_page q ∧ (q ∉ free).
Proof.
  intros ((_ & Hp & Hn & Ht & _) & Hd & _) [->|[(i & Hi & E)|(va & Hva & Hpr & ->)]]; [done| |].
  - by destruct (Ht i q Hi E) as (? & ? & _).
  - by destruct (Hd va Hva Hpr) as (? & ? & _).
Qed.

(** The pages of [pgdir] keep their contents, so its translations do too. *)
Lemma used_same k k' pgdir : (∀ q, used_by k pgdir q → pages k' q = pages k q) →
  (∀ i, 0 ≤ i < 510 → tab (pages k') pgdir i = tab (pages k) pgdir i) ∧
  (∀ va, 0 ≤ va < UTOP → pte (pages k') pgdir va = pte (pages k) pgdir va).
Proof.
  intros Hs. assert (∀ i, tab (pages k') pgdir i = tab (pages k) pgdir i) as Et.
  { intros i. unfold tab, pde. rewrite (Hs pgdir); [done|by left]. }
  split; [done|]. intros va Hva. unfold pte. rewrite Et. destruct (tab (pages k) pgdir (PDX va)) as [t|] eqn:E; [|done].
  rewrite (Hs t); [done|]. right. left. exists (PDX va). split; [by apply PX_range|done].
Qed.

Lemma walk_lookup s pgdir va : walkpgdir pgdir va false s =
  Ok ((λ t, (t, PTX va)) <$> tab (pages (ks_k s)) pgdir (PDX va)) s.
Proof. unfold walkpgdir, getw, tab, pde. go. by destruct (has _ PTE_P). Qed.

Section copy.
Context (k0 : kmem) (free0 : list Z) (pgdir : Z) (Hu0 : uspace k0 free0 pgdir).

Definition pflags (va : Z) : Z := PTE_FLAGS (pte (pages k0) pgdir va).
Definition pdata (va : Z) : page := pages k0 (upage k0 pgdir va).

Lemma pdata_length va : length (pdata va) = PAGE.
Proof. destruct Hu0 as (((_ & _ & _ & Hl) & _) & _). apply Hl. Qed.

Lemma copy_step_ok k1 fr1 k free d sz i s : km_free (ks_m s) →
  (∀ q, used_by k0 pgdir q → data_page kend k1 fr1 d q ∧ pages k1 q = pages k0 q) →
  extended kend pflags pdata k1 fr1 k free d 0 i → 0 ≤ i < sz → sz ≤ UTOP → i mod PGSIZE = 0 →
  present k0 pgdir i = true → has (pte (pages k1) d i) PTE_P = false → (2 ≤ length free)%nat →
  ∃ k' free', copy_step kend pgdir d sz i (set_ksk k s) = Ok (inl (i + PGSIZE)) (set_ksk k' s) ∧
    extended kend pflags pdata k1 fr1 k' free' d 0 (i + PGSIZE).
Proof.
  intros Hm HQ Hx Hi Hsz Hal Hpr Hnp Hf. destruct free as [|mem fr]; [cbn in Hf; lia|]. cbn [length] in Hf.
  assert (i + PGSIZE ≤ UTOP) as Htop by (unfold PGSIZE, UTOP in *; pose proof (Z.div_mod i 4096); lia).
  pose proof Hx as (Hv & _ & _ & Hout & _ & _ & Hdp).
  assert (∀ q, used_by k0 pgdir q → pages k q = pages k0 q) as Hsame.
  { intros q Hq. destruct (HQ q Hq) as [H1 H2]. by rewrite (proj2 (Hdp q H1)). }
  destruct (used_same k0 k pgdir Hsame) as [Htab Hpte]. destruct (PX_range i) as [Hd _]; [lia|].
  destruct (taken_spec kend k mem fr (pdata i) d Hv (pdata_length i)) as (Tv & Tm & Tp & _).
  assert (upage k0 pgdir i ≠ mem) as Hne.
  { intros E. destruct (HQ (upage k0 pgdir i)) as [H1 _].
    { right. right. exists i. split; [lia|done]. }
    destruct (Hdp _ H1) as ((_ & Hx1 & _) & _). apply Hx1. rewrite E. by left. }
  assert (∃ t, tab (pages k) pgdir (PDX i) = Some t ∧
    getw t (PTX i) (set_ksk k s) = Ok (pte (pages k0) pgdir i) (set_ksk k s)) as (t & Et & Eg).
  { unfold present in Hpr. rewrite <- Hpte in * by lia. unfold pte in *.
    destruct (tab (pages k) pgdir (PDX i)) as [t|]; [by exists t|done]. }
  unfold copy_step. rewrite (proj2 (Z.leb_gt _ _)) by lia. step (walk_lookup (set_ksk k s) pgdir i).
  cbn [ks_k set_ksk]. rewrite Et. cbn [fmap option_fmap option_map]. step Eg.
  unfold present in Hpr. rewrite Hpr. cbn [negb].
  destruct (kalloc_run kend (set_ksk k s) _ (proj1 Hv) Hm) as [E _]. step E. cbn [hd tl].
  destruct (proj1 Tm) as (_ & _ & _ & Hmem). rewrite (proj2 (Z.eqb_neq mem 0)) by lia.
  set (s2 := set_ksk (taken k mem fr (pdata i)) s).
  erewrite bind_ok; [|reflexivity]. rewrite (bind_ok _ _ _ tt s2).
  2:{ unfold set_page, modify, s2, taken, pdata. cbn [ks_k set_ksk pages]. rewrite <- (Hsame (upage k0 pgdir i)); [done|].
      right. right. exists i. split; [lia|done]. }
  destruct (entry_spec kend Hkend mem (pflags i) (proj1 Tm) (flags_range _)) as [He _].
  destruct (map_page_run kend Hkend s2 fr d i (v2p mem) (pflags i)) as [(k' & f' & E' & M')|(-> & _)]; try done.
  - lia.
  - cbn [ks_k s2 set_ksk]. rewrite Tp by lia. rewrite Hout by lia. done.
  - exists k', f'. split.
    + unfold pflags in E'. step E'. done.
    + apply (extended_step kend Hkend pflags pdata) with (k := k) (mem := mem) (fr := fr); try done; try lia.
      * intros va. apply flags_range.
      * intros va va' Ev. unfold pflags. by rewrite (pte_page _ _ va va').
      * apply pdata_length.
      * intros va va' Ev. unfold pdata, upage. by rewrite (pte_page _ _ va va').
  - cbn in Hf. lia.
Qed.

Lemma copyuvm_loop k1 fr1 d sz s : km_free (ks_m s) →
  (∀ q, used_by k0 pgdir q → data_page kend k1 fr1 d q ∧ pages k1 q = pages k0 q) →
  (∀ va, 0 ≤ va < UTOP → has (pte (pages k1) d va) PTE_P = false) →
  0 ≤ sz ≤ UTOP → (∀ va, 0 ≤ va < PGROUNDUP sz → present k0 pgdir va = true) →
  2 * (PGROUNDUP sz / PGSIZE) ≤ Z.of_nat (length fr1) →
  ∀ n m i k free, extended kend pflags pdata k1 fr1 k free d 0 i → 0 ≤ i →
  i = PGROUNDUP sz - PGSIZE * Z.of_nat n → (n < m)%nat →
  ∃ k' free', loopM m (copy_step kend pgdir d sz) i (set_ksk k s) = Ok d (set_ksk k' s) ∧
    extended kend pflags pdata k1 fr1 k' free' d 0 (PGROUNDUP sz).
Proof.
  intros Hm HQ Hnone Hsz Hpr Hfree. assert (sz + PGSIZE ≤ 2 ^ 64) as H64 by (unfold UTOP, PGSIZE in *; lia).
  destruct (PGROUNDUP_le sz) as [Hr Hrm]; [lia|done|].
  induction n as [|n IH]; intros m i k free Hx Hi Ei Hlt; (destruct m as [|m]; [lia|]); cbn [loopM].
  - rewrite Z.mul_0_r, Z.sub_0_r in Ei. subst i. exists k, free. split; [|done].
    rewrite (bind_ok _ _ _ (inr d) (set_ksk k s)); [done|]. unfold copy_step. by rewrite (proj2 (Z.leb_le _ _)) by lia.
  - assert (i mod PGSIZE = 0) as Him.
    { subst i. rewrite Zminus_mod, Hrm, Z.mul_comm, Z.mod_mul by done. done. }
    assert (i / PGSIZE + 1 ≤ PGROUNDUP sz / PGSIZE) as Hq.
    { replace (i / PGSIZE + 1) with ((i + 1 * PGSIZE) / PGSIZE) by (by rewrite Z.div_add).
      apply Z.div_le_mono; [done|]. unfold PGSIZE in *. lia. }
    destruct (copy_step_ok k1 fr1 k free d sz i s) as (k2 & f2 & E & Hx2); try done.
    + unfold PGSIZE in *. lia.
    + lia.
    + apply Hpr. unfold PGSIZE in *. lia.
    + apply Hnone. unfold PGSIZE, UTOP in *. lia.
    + destruct Hx as (_ & _ & Hlen & _). rewrite Z.sub_0_r in Hlen. lia.
    + step E. apply (IH m _ k2 f2); try done; unfold PGSIZE in *; lia.
Qed.
End copy.

(** ** Extensions of a user space *)

Section ext.
Context (fl : Z → Z) (c : Z → page) (Hfl : ∀ va, 0 ≤ fl va < PGSIZE).
Context (k0 k : kmem) (free0 free : list Z) (pgdir lo hi : Z).
Context (Hx : extended kend fl c k0 free0 k free pgdir lo hi).

Lemma ext_inside va : lo ≤ va < hi → present k pgdir va = true ∧ data_page kend k free pgdir (upage k pgdir va) ∧
  (upage k pgdir va ∈ free0) ∧ pages k (upage k pgdir va) = c va ∧ PTE_FLAGS (pte (pages k) pgdir va) = Z.lor (fl va) PTE_P.
Proof.
  intros Hva. destruct Hx as (_ & _ & _ & _ & Hin & _). destruct (Hin va Hva) as (p & Ep & Hp & Hf & Hc).
  destruct (entry_spec kend Hkend p (fl va) (proj1 Hp) (Hfl va)) as (_ & E1 & E2 & E3).
  unfold present, upage. rewrite Ep, E1, E2, E3. done.
Qed.

Lemma ext_outside va : 0 ≤ va < UTOP → ¬ lo ≤ va < hi → pte (pages k) pgdir va = pte (pages k0) pgdir va.
Proof. intros Hva Hn. destruct Hx as (_ & _ & _ & Hout & _). apply Hout; [done|lia]. Qed.

Lemma ext_ubyte_in va : lo ≤ va < hi →
  ubyte k pgdir va = if has (fl va) PTE_U then c va !! Z.to_nat (va mod PGSIZE) else None.
Proof.
  intros Hva. destruct (ext_inside va Hva) as (E1 & _ & _ & E2 & E3). unfold ubyte, user_ok. rewrite E1, E2.
  rewrite <- (has_flags (pte _ _ _)), E3 by done. cbn [andb]. unfold has. rewrite Z.land_lor_distr_l.
  change (Z.land PTE_P PTE_U) with 0. by rewrite Z.lor_0_r.
Qed.

Lemma ext_uspace : uspace k0 free0 pgdir → (∀ va, lo ≤ va < hi → present k0 pgdir va = false) →
  uspace k free pgdir ∧
  (∀ va, 0 ≤ va < UTOP → ¬ lo ≤ va < hi → ubyte k pgdir va = ubyte k0 pgdir va).
Proof.
  intros (_ & Hd0 & Hi0) Hnp. pose proof Hx as (Hv & _ & _ & _ & _ & Hinj & Hdp).
  assert (∀ va, 0 ≤ va < UTOP → ¬ lo ≤ va < hi → present k pgdir va = true →
    present k0 pgdir va = true ∧ upage k pgdir va = upage k0 pgdir va ∧ data_page kend k0 free0 pgdir (upage k pgdir va)) as Hold.
  { intros va Hva Hn Hp. unfold present, upage in *. rewrite ext_outside in * by done. split; [done|]. split; [done|]. by apply Hd0. }
  split; [split; [done|split]|].
  - intros va Hva Hp. destruct (decide (lo ≤ va < hi)) as [Hr|Hr]; [by apply ext_inside|].
    by apply Hdp, Hold.
  - intros va va' Hva Hva' Hp Hp' E.
    assert (∀ a b, 0 ≤ b < UTOP → lo ≤ a < hi → ¬ lo ≤ b < hi → present k pgdir b = true →
      upage k pgdir a ≠ upage k pgdir b) as Hmix.
    { intros a b Hb Ha Hnb Hpb Eab. destruct (ext_inside a Ha) as (_ & _ & Hf & _).
      destruct (Hold b Hb Hnb Hpb) as (_ & _ & (_ & Hnf & _)). congruence. }
    destruct (decide (lo ≤ va < hi)) as [Hr|Hr], (decide (lo ≤ va' < hi)) as [Hr'|Hr'].
    + by apply Hinj.
    + by destruct (Hmix va va').
    + by destruct (Hmix va' va).
    + destruct (Hold va Hva Hr Hp) as (P1 & U1 & _), (Hold va' Hva' Hr' Hp') as (P2 & U2 & _).
      apply Hi0; try done. congruence.
  - intros va Hva Hr. unfold ubyte, user_ok, present, upage. rewrite ext_outside by done.
    destruct (_ && _) eqn:Ep; [|done]. apply andb_true_iff in Ep as [Ep _].
    pose proof (proj2 (Hdp _ (Hd0 va Hva Ep))) as Hs. unfold upage in Hs. by rewrite Hs.
Qed.
End ext.

(** An address space whose pages were left alone. *)
Lemma uspace_keep k k' free free' pgdir : uspace k free pgdir → kinv kend k' free' →
  (∀ q, q ∈ free' → q ∈ free) → (∀ q, used_by k pgdir q → pages k' q = pages k q) →
  uspace k' free' pgdir ∧ ∀ va, 0 ≤ va < UTOP → ubyte k' pgdir va = ubyte k pgdir va.
Proof.
  intros ((Hk & Hp & Hn & Ht & Hu) & Hd & Hi) Hk' Hf Hs. destruct (used_same k k' pgdir Hs) as [Etab Epte].
  assert (∀ q, q ∉ free → q ∉ free') as Hnf by eauto. split.
  - unfold uspace, VmSpec.vminv, present, upage in *. split; [split_and!; eauto|split].
    + intros i t Hi'. rewrite Etab by done. intros E. destruct (Ht i t Hi' E) as (? & ? & ?). eauto.
    + intros i j t Hi' Hj. rewrite !Etab by done. by apply Hu.
    + intros va Hva. rewrite Epte by done. intros Hpr. destruct (Hd va Hva Hpr) as (P1 & P2 & P3 & P4).
      split_and!; eauto. intros i Hi'. rewrite Etab by done. by apply P4.
    + intros va va' Hva Hva'. rewrite !Epte by done. by apply Hi.
  - intros va Hva. unfold ubyte, user_ok, present, upage. rewrite Epte by done.
    destruct (_ && _) eqn:E; [|done]. apply andb_true_iff in E as [E _]. rewrite Hs; [done|].
    right. right. by exists va.
Qed.

Lemma copyuvm_run s free pgdir sz : uspace (ks_k s) free pgdir → km_free (ks_m s) → 0 ≤ sz ≤ UTOP →
  (∀ va, 0 ≤ va < PGROUNDUP sz → present (ks_k s) pgdir va = true) →
  3 + 2 * (PGROUNDUP sz / PGSIZE) ≤ Z.of_nat (length free) →
  ∃ d k1 fr k' free', copyuvm kend kpdpt pgdir sz s = Ok d (set_ksk k' s) ∧ suffix fr free ∧
    (∀ q, used_by (ks_k s) pgdir q → data_page kend k1 fr d q ∧ pages k1 q = pages (ks_k s) q) ∧
    vminv k1 fr d ∧ (∀ va, 0 ≤ va < UTOP → pte (pages k1) d va = 0) ∧
    extended kend (pflags (ks_k s) pgdir) (pdata (ks_k s) pgdir) k1 fr k' free' d 0 (PGROUNDUP sz).
Proof.
  intros Hu Hm Hsz Hpr Hf. assert (0 ≤ PGROUNDUP sz) as Hr0 by (by apply PGROUNDUP_top).
  assert (0 ≤ PGROUNDUP sz / PGSIZE) as Hr1 by (apply Z.div_pos; done).
  destruct free as [|p4 [|pt [|d fr]]]; try (cbn in Hf; lia).
  destruct (setupkvm_run s p4 pt d fr (proj1 (proj1 Hu)) Hm) as (k1 & E1 & Hv1 & Hn1 & Hs1).
  assert (∀ va, 0 ≤ va < UTOP → pte (pages k1) d va = 0) as Hz.
  { intros va Hva. unfold pte. rewrite Hn1; [done|]. by apply PX_range. }
  assert (∀ q, used_by (ks_k s) pgdir q → data_page kend k1 fr d q ∧ pages k1 q = pages (ks_k s) q) as HQ.
  { intros q Hq. destruct (used_not_free _ _ _ _ Hu Hq) as [Pq Fq]. rewrite !not_elem_of_cons in Fq.
    destruct Fq as (F1 & F2 & F3 & F4). split.
    - split_and!; try done. intros i Hi. by rewrite Hn1.
    - apply Hs1. rewrite !not_elem_of_cons. split_and!; try done. apply not_elem_of_nil. }
  assert (PGROUNDUP sz / PGSIZE ≤ sz / PGSIZE + 1) as Hq.
  { replace (sz / PGSIZE + 1) with ((sz + 1 * PGSIZE) / PGSIZE) by (by rewrite Z.div_add).
    apply Z.div_le_mono; [done|]. destruct (PGROUNDUP_le sz); [lia|unfold UTOP, PGSIZE in *; lia|lia]. }
  destruct (copyuvm_loop (ks_k s) _ pgdir Hu k1 fr d sz s Hm HQ) with (n := Z.to_nat (PGROUNDUP sz / PGSIZE))
    (m := S (S (Z.to_nat (sz / PGSIZE)))) (i := 0) (k := k1) (free := fr) as (k' & free' & E & Hx); try done.
  - intros va Hva. by rewrite Hz.
  - cbn [length] in Hf. lia.
  - by apply extended_refl.
  - rewrite Z2Nat.id by done. rewrite <- Z_div_exact_full_2; [lia|done|].
    apply (PGROUNDUP_le sz); [lia|unfold UTOP, PGSIZE in *; lia].
  - lia.
  - exists d, k1, fr, k', free'. split; [unfold copyuvm; step E1; exact E|]. split; [by exists [p4; pt; d]|]. done.
Qed.

(** C33: [allocuvm] grows a process.  With two free pages for each new page it
    returns the new size; the new part of the address space reads as zeros,
    everything below and above it reads as before, and no page is mapped
    twice. *)
Theorem allocuvm_grows s free pgdir oldsz newsz : uspace (ks_k s) free pgdir → km_free (ks_m s) →
  0 ≤ oldsz ≤ newsz → newsz ≤ UTOP →
  (∀ va, PGROUNDUP oldsz ≤ va < PGROUNDUP newsz → present (ks_k s) pgdir va = false) →
  2 * ((PGROUNDUP newsz - PGROUNDUP oldsz) / PGSIZE) ≤ Z.of_nat (length free) →
  ∃ k' free', allocuvm kend pgdir oldsz newsz s = Ok newsz (set_ksk k' s) ∧ uspace k' free' pgdir ∧
    ∀ va, 0 ≤ va < UTOP → ubyte k' pgdir va =
      if decide (PGROUNDUP oldsz ≤ va < PGROUNDUP newsz) then Some 0 else ubyte (ks_k s) pgdir va.
Proof.
  intros Hu Hm Ho Htop Hnp Hf.
  destruct (allocuvm_run kend Hkend s free pgdir oldsz newsz) as (k' & free' & E & Hx); try done.
  { apply Hu. }
  destruct (PGROUNDUP_top oldsz) as [Hb1 Hb2], (PGROUNDUP_top newsz) as [Hb3 Hb4]; try lia.
  pose proof (PGROUNDUP_mono oldsz newsz ltac:(lia) ltac:(unfold UTOP, PGSIZE in *; lia)) as Hb5.
  exists k', free'. split; [done|].
  edestruct (ext_uspace user_rw zeroed) as [Hu' Hout]; [done|exact Hx|exact Hu|exact Hnp|].
  split; [done|].
  intros va Hva. case_decide as Hr; [|by apply Hout].
  erewrite (ext_ubyte_in user_rw zeroed); [|done|exact Hx|done]. cbn. unfold zeroed. apply lookup_replicate_2.
  pose proof PAGE_Z. unfold PGSIZE in *. pose proof (Z.mod_pos_bound va 4096). lia.
Qed.

(** [mappages] of a page adds one translation.  Mapping an aligned page
    that is not present returns 0 and changes the entry of that page only, or
    returns -1 and changes nothing, when a page table is needed and there is
    no memory; a page that is present is never mapped again. *)
Theorem mappages_one s free pgdir va pa perm : vminv (ks_k s) free pgdir → km_free (ks_m s) →
  0 ≤ va < UTOP → va mod PGSIZE = 0 → 0 ≤ Z.lor (Z.lor pa perm) PTE_P < 2 ^ 64 →
  (present (ks_k s) pgdir va = true ∧ mappages pgdir va PGSIZE pa perm s = Stop (Panic "remap") s) ∨
  (present (ks_k s) pgdir va = false ∧ ∃ k' free', mappages pgdir va PGSIZE pa perm s = Ok 0 (set_ksk k' s) ∧
     vminv k' free' pgdir ∧ ∀ va', 0 ≤ va' < UTOP →
     pte (pages k') pgdir va' =
       if va / PGSIZE =? va' / PGSIZE then Z.lor (Z.lor pa perm) PTE_P else pte (pages (ks_k s)) pgdir va') ∨
  (free = [] ∧ tab (pages (ks_k s)) pgdir (PDX va) = None ∧ mappages pgdir va PGSIZE pa perm s = Ok (-1) s).
Proof.
  intros Hv Hm Hva Hal He. destruct (present (ks_k s) pgdir va) eqn:Hp.
  - left. split; [done|]. by apply (map_page_remap kend s free).
  - right. destruct (map_page_run kend Hkend s free pgdir va pa perm) as [(k' & f' & E & M)|]; try done; [left|by right].
    split; [done|]. destruct M as (Mv & _ & _ & Mp & _). by exists k', f'.
Qed.

(** C35: [copyout] stores bytes where the user reads them.  When every page of
    the range is mapped for the user it returns 0, the range then reads as
    the buffer, and no other user byte and no translation changes, across any
    number of page boundaries. *)
Theorem copyout_spec s free pgdir va buf : uspace (ks_k s) free pgdir → km_free (ks_m s) →
  0 ≤ va → va + Z.of_nat (length buf) ≤ UTOP →
  (∀ a, va ≤ a < va + Z.of_nat (length buf) → user_ok (ks_k s) pgdir a = true) →
  ∃ k', copyout pgdir va buf s = Ok 0 (set_ksk k' s) ∧ uspace k' free pgdir ∧
    ∀ a, 0 ≤ a < UTOP → ubyte k' pgdir a =
      if decide (va ≤ a < va + Z.of_nat (length buf)) then buf !! Z.to_nat (a - va) else ubyte (ks_k s) pgdir a.
Proof.
  intros Hu Hm Hva Htop Hok. destruct (copyout_run s free pgdir va buf) as (k' & E & H1 & _ & H2); try done.
  by exists k'.
Qed.

(** C9: [copyuvm] makes a disjoint copy of a process.  With memory enough the
    child's address space reads like the parent's up to the size and has
    nothing above it; the parent reads as before; and no page is mapped in
    both, so neither sees the other's later writes. *)
Theorem copyuvm_copies s free pgdir sz : uspace (ks_k s) free pgdir → km_free (ks_m s) → 0 ≤ sz ≤ UTOP →
  (∀ va, 0 ≤ va < PGROUNDUP sz → present (ks_k s) pgdir va = true) →
  3 + 2 * (PGROUNDUP sz / PGSIZE) ≤ Z.of_nat (length free) →
  ∃ d k' free', copyuvm kend kpdpt pgdir sz s = Ok d (set_ksk k' s) ∧ uspace k' free' d ∧ uspace k' free' pgdir ∧
    (∀ va, 0 ≤ va < UTOP → ubyte k' d va = if decide (va < PGROUNDUP sz) then ubyte (ks_k s) pgdir va else None) ∧
    (∀ va, 0 ≤ va < UTOP → ubyte k' pgdir va = ubyte (ks_k s) pgdir va) ∧
    (∀ va va', 0 ≤ va < UTOP → 0 ≤ va' < UTOP → present k' d va = true → present k' pgdir va' = true →
       upage k' d va ≠ upage k' pgdir va').
Proof.
  intros Hu Hm Hsz Hpr Hf.
  destruct (copyuvm_run s free pgdir sz Hu Hm Hsz Hpr Hf) as (d & k1 & fr & k' & free' & E & Hsf & HQ & Hv1 & Hz & Hx).
  assert (∀ va, 0 ≤ va < UTOP → present k1 d va = false) as Hnp by (intros va Hva; unfold present; by rewrite Hz).
  assert (uspace k1 fr d) as Hu1.
  { split; [done|]. split; [intros va Hva; by rewrite Hnp|]. intros va va' Hva _. by rewrite Hnp. }
  pose proof Hx as (Hv' & Hs' & _ & _ & _ & _ & Hdp).
  edestruct (ext_uspace (pflags (ks_k s) pgdir) (pdata (ks_k s) pgdir)) as [Hud Hout];
    [intros; apply flags_range|exact Hx|exact Hu1| |].
  { intros va Hva. apply Hnp. pose proof (PGROUNDUP_top sz Hsz). lia. }
  destruct (uspace_keep (ks_k s) k' free free' pgdir Hu (proj1 Hv')) as [Hup Hub].
  { intros q Hq. destruct Hs' as [l1 ->], Hsf as [l2 ->]. rewrite !elem_of_app. auto. }
  { intros q Hq. destruct (HQ q Hq) as [H1 H2]. by rewrite (proj2 (Hdp q H1)). }
  destruct (used_same (ks_k s) k' pgdir) as [_ Hpte].
  { intros q Hq. destruct (HQ q Hq) as [H1 H2]. by rewrite (proj2 (Hdp q H1)). }
  exists d, k', free'. split_and!; try done.
  - intros va Hva. case_decide as Hlt.
    + erewrite (ext_ubyte_in (pflags (ks_k s) pgdir) (pdata (ks_k s) pgdir)); [|intros; apply flags_range|exact Hx|lia].
      unfold ubyte, user_ok, pflags, pdata. rewrite has_flags by done. by rewrite Hpr by lia.
    + rewrite Hout by lia. unfold ubyte, user_ok. by rewrite Hnp.
  - intros va va' Hva Hva' Hp Hp' Ee. destruct (decide (0 ≤ va < PGROUNDUP sz)) as [Hr|Hr].
    + edestruct (ext_inside (pflags (ks_k s) pgdir) (pdata (ks_k s) pgdir)) as (_ & _ & Hin & _);
        [intros; apply flags_range|exact Hx|exact Hr|].
      unfold present in Hp'. rewrite Hpte in Hp' by done.
      assert (upage k' pgdir va' = upage (ks_k s) pgdir va') as Eu by (unfold upage; by rewrite Hpte).
      destruct (HQ (upage (ks_k s) pgdir va')) as [(_ & Hnf & _) _].
      { right. right. by exists va'. }
      apply Hnf. by rewrite <- Eu, <- Ee.
    + unfold present in Hp. erewrite ext_outside in Hp; [|exact Hx|done|done]. by rewrite Hz in Hp.
Qed.

(** [allocuvm] ignores that [mappages] failed.  With one free page left
    and no page table for the address it reports success, although the page
    is not mapped; the page taken for it is lost. *)
Theorem allocuvm_unmapped s mem pgdir : vminv (ks_k s) [mem] pgdir → km_free (ks_m s) →
  tab (pages (ks_k s)) pgdir 0 = None →
  ∃ k', allocuvm kend pgdir 0 PGSIZE s = Ok PGSIZE (set_ksk k' s) ∧ present k' pgdir 0 = false ∧ kinv kend k' [].
Proof.
  intros Hv Hm Hn. destruct (taken_spec kend (ks_k s) mem [] (zeroed 0) pgdir Hv (length_replicate _ _)) as (Tv & Tm & Tp & _).
  set (s2 := set_ksk (taken (ks_k s) mem [] (zeroed 0)) s).
  assert (tab (pages (ks_k s2)) pgdir 0 = None) as Hn2.
  { rewrite <- Hn. unfold tab, pde. cbn [ks_k s2 set_ksk pages taken].
    rewrite fn_lookup_insert_ne; [done|]. destruct Hv as (_ & _ & Hne & _). set_solver. }
  exists (ks_k s2). split; [|split; [|apply Tv]].
  - unfold allocuvm. change (PGROUNDUP 0) with 0. change (PGSIZE <? 0) with false. cbv iota.
    change (S (S (Z.to_nat ((PGSIZE - 0) / PGSIZE)))) with 3%nat. cbn [loopM].
    rewrite (bind_ok _ _ _ (inl PGSIZE) s2); [done|]. unfold alloc_step. change (PGSIZE <=? 0) with false. cbv iota.
    destruct (kalloc_run kend s _ (proj1 Hv) Hm) as [E _]. step E. cbn [hd tl].
    destruct (proj1 Tm) as (_ & _ & _ & Hmem). rewrite (proj2 (Z.eqb_neq mem 0)) by lia.
    rewrite (bind_ok _ _ _ tt s2) by reflexivity.
    step (map_page_full kend s2 pgdir 0 (v2p mem) (Z.lor PTE_W PTE_U) Tv Hm ltac:(done) ltac:(done) Hn2). done.
  - unfold present, pte. change (PDX 0) with 0. by rewrite Hn2.
Qed.
End vm.

(** ** A small machine

    [ex_space n] is an empty address space on a machine with [n] pages, of
    which [setupkvm] took three. *)

Definition ex_boot (n : Z) : M kst Z :=
  kinit1 ex_kend ex_kend (ex_kend + n * PGSIZE) ;;; setupkvm ex_kend.
Definition ex_space (n : Z) : kst := after (ex_boot n) ex_kst.
Definition ex_pgdir (n : Z) : Z := default 0 (result (ex_boot n) ex_kst).

Lemma ex_hkend : KERNBASE ≤ ex_kend.
Proof. unfold ex_kend. lia. Qed.

Lemma ex_space_ok n : 3 ≤ n ≤ 64 → ∃ free, vminv ex_kend (ks_k (ex_space n)) free (ex_pgdir n) ∧
  km_free (ks_m (ex_space n)) ∧ length free = Z.to_nat (n - 3) ∧
  (∀ i, 0 ≤ i < 510 → tab (pages (ks_k (ex_space n))) (ex_pgdir n) i = None).
Proof.
  intros Hn.
  destruct (kinit1_run ex_kend ex_kst ex_kend (ex_kend + n * PGSIZE)) as (s & E & Hk & Hm & _).
  - unfold ex_kend, KERNBASE. lia.
  - unfold ex_kend, KERNBASE, PHYSTOP, PGSIZE. lia.
  - exact ex_mok.
  - reflexivity.
  - intros a. apply length_replicate.
  - assert (length (reverse (page_range ex_kend (ex_kend + n * PGSIZE))) = Z.to_nat n) as Hl.
    { unfold page_range. change (PGROUNDUP ex_kend) with ex_kend. rewrite length_reverse, length_fmap, length_seq.
      replace (ex_kend + n * PGSIZE - ex_kend) with (n * PGSIZE) by lia. by rewrite Z.div_mul. }
    destruct (reverse _) as [|p4 [|pt [|pd fr]]]; cbn [length] in Hl; try lia.
    destruct (setupkvm_run ex_kend ex_kend s p4 pt pd fr Hk Hm) as (k' & E' & Hv & Hn' & _).
    assert (ex_boot n ex_kst = Ok pd (set_ksk k' s)) as Eb by (unfold ex_boot; by step E).
    unfold ex_space, ex_pgdir, after, result. rewrite Eb. cbn [default]. exists fr. split_and!; try done. lia.
Qed.

(** An address space with nothing mapped. *)
Lemma empty_uspace k free pgdir : vminv ex_kend k free pgdir →
  (∀ i, 0 ≤ i < 510 → tab (pages k) pgdir i = None) →
  uspace ex_kend k free pgdir ∧ ∀ va, 0 ≤ va < UTOP → present k pgdir va = false.
Proof.
  intros Hv Hn. assert (∀ va, 0 ≤ va < UTOP → present k pgdir va = false) as Hp.
  { intros va Hva. unfold present, pte. rewrite Hn; [done|]. by apply PX_range. }
  split; [|done]. split; [done|]. split; [intros va Hva; by rewrite Hp|]. intros va va' Hva _. by rewrite Hp.
Qed.

Lemma allocuvm_grows_witness : ∃ k free, allocuvm ex_kend (ex_pgdir 16) 0 0x1800 (ex_space 16) =
    Ok 0x1800 (set_ksk k (ex_space 16)) ∧ uspace ex_kend k free (ex_pgdir 16) ∧ ubyte k (ex_pgdir 16) 0x1fff = Some 0.
Proof.
  destruct (ex_space_ok 16) as (free & Hv & Hm & Hl & Hn); [lia|].
  destruct (empty_uspace _ _ _ Hv Hn) as [Hu Hp].
  destruct (allocuvm_grows ex_kend ex_hkend (ex_space 16) free (ex_pgdir 16) 0 0x1800) as (k & f & E & Hu' & Hb).
  - exact Hu.
  - exact Hm.
  - lia.
  - unfold UTOP. lia.
  - intros va Hva. apply Hp. change (PGROUNDUP 0) with 0 in Hva. change (PGROUNDUP 0x1800) with 0x2000 in Hva. unfold UTOP. lia.
  - rewrite Hl. reflexivity || (vm_compute; discriminate).
  - exists k, f. split; [exact E|]. split; [exact Hu'|]. rewrite Hb by (unfold UTOP; lia). reflexivity.
Defined.

(** The machine after [allocuvm] mapped two pages. *)
Lemma ex_grown : ∃ s free, allocuvm ex_kend (ex_pgdir 16) 0 0x2000 (ex_space 16) = Ok 0x2000 s ∧
    uspace ex_kend (ks_k s) free (ex_pgdir 16) ∧ km_free (ks_m s) ∧
    (∀ va, 0 ≤ va < 0x2000 → user_ok (ks_k s) (ex_pgdir 16) va = true) ∧ (9 ≤ length free)%nat.
Proof.
  destruct (ex_space_ok 16) as (free & Hv & Hm & Hl & Hn); [lia|].
  destruct (empty_uspace _ _ _ Hv Hn) as [Hu Hp]. generalize dependent (ex_space 16). intros s Hv Hm Hn Hu Hp.
  destruct (allocuvm_run ex_kend ex_hkend s free (ex_pgdir 16) 0 0x2000) as (k & f & E & Hx).
  - exact Hv.
  - exact Hm.
  - lia.
  - unfold UTOP. lia.
  - intros va Hva. apply Hp. change (PGROUNDUP 0) with 0 in Hva. change (PGROUNDUP 0x2000) with 0x2000 in Hva. unfold UTOP. lia.
  - rewrite Hl. vm_compute. discriminate.
  - change (PGROUNDUP 0) with 0 in Hx. change (PGROUNDUP 0x2000) with 0x2000 in Hx.
    exists (set_ksk k s), f. split; [exact E|]. split; [|split; [exact Hm|split]].
    + edestruct (ext_uspace ex_kend ex_hkend user_rw zeroed) as [Hu' _]; [|exact Hx|exact Hu| |exact Hu'].
      * exact user_rw_range.
      * intros va Hva. apply Hp. unfold UTOP. lia.
    + intros va Hva. edestruct (ext_inside ex_kend ex_hkend user_rw zeroed) as (E1 & _ & _ & _ & E2); [|exact Hx|exact Hva|].
      { exact user_rw_range. }
      unfold user_ok. cbn [ks_k set_ksk]. rewrite E1, <- (has_flags (pte _ _ _)), E2; [reflexivity|unfold PTE_U, PGSIZE; lia].
    + destruct Hx as (_ & _ & Hlen & _). rewrite Hl in Hlen. change ((0x2000 - 0) / PGSIZE) with 2 in Hlen. lia.
Qed.

Lemma mappages_one_witness : ∃ k', mappages (ex_pgdir 16) 0x3000 PGSIZE 0x400000 6 (ex_space 16) =
    Ok 0 (set_ksk k' (ex_space 16)) ∧ pte (pages k') (ex_pgdir 16) 0x3000 = 0x400007.
Proof.
  destruct (ex_space_ok 16) as (free & Hv & Hm & Hl & Hn); [lia|].
  destruct (empty_uspace _ _ _ Hv Hn) as [Hu Hp].
  destruct (mappages_one ex_kend ex_hkend (ex_space 16) free (ex_pgdir 16) 0x3000 0x400000 6) as
    [[Hx _]|[(_ & k' & f' & E & _ & Hpt)|[Hf _]]].
  - exact Hv.
  - exact Hm.
  - unfold UTOP. lia.
  - reflexivity.
  - change (Z.lor (Z.lor 0x400000 6) PTE_P) with 0x400007. lia.
  - rewrite Hp in Hx by (unfold UTOP; lia). discriminate Hx.
  - exists k'. split; [exact E|]. apply Hpt. unfold UTOP. lia.
  - rewrite Hf in Hl. discriminate Hl.
Defined.

Lemma copyout_spec_witness : ∃ s k', copyout (ex_pgdir 16) 0xffe [1; 2; 3; 4] s = Ok 0 (set_ksk k' s) ∧
  ubyte k' (ex_pgdir 16) 0x1001 = Some 4.
Proof.
  destruct ex_grown as (s & free & _ & Hu & Hm & Hok & _).
  destruct (copyout_spec ex_kend s free (ex_pgdir 16) 0xffe [1; 2; 3; 4]) as (k' & E & _ & Hb).
  - exact Hu.
  - exact Hm.
  - lia.
  - unfold UTOP. cbn. lia.
  - intros a Ha. apply Hok. cbn in Ha. lia.
  - exists s, k'. split; [exact E|]. rewrite Hb by (unfold UTOP; lia). reflexivity.
Defined.

Lemma copyuvm_copies_witness : ∃ s d k', copyuvm ex_kend ex_kend (ex_pgdir 16) 0x2000 s = Ok d (set_ksk k' s) ∧
  ubyte k' d 0x10 = ubyte (ks_k s) (ex_pgdir 16) 0x10.
Proof.
  destruct ex_grown as (s & free & _ & Hu & Hm & Hok & Hl).
  destruct (copyuvm_copies ex_kend ex_kend ex_hkend s free (ex_pgdir 16) 0x2000)
    as (d & k' & f' & E & _ & _ & Hb & _).
  - exact Hu.
  - exact Hm.
  - unfold UTOP. lia.
  - intros va Hva. change (PGROUNDUP 0x2000) with 0x2000 in Hva. pose proof (Hok va Hva) as H. unfold user_ok in H.
    apply andb_true_iff in H as [H _]. exact H.
  - change (PGROUNDUP 0x2000 / PGSIZE) with 2. lia.
  - exists s, d, k'. split; [exact E|]. rewrite Hb by (unfold UTOP; lia). reflexivity.
Defined.

Lemma allocuvm_unmapped_witness : ∃ k', allocuvm ex_kend (ex_pgdir 4) 0 PGSIZE (ex_space 4) =
    Ok PGSIZE (set_ksk k' (ex_space 4)) ∧ present k' (ex_pgdir 4) 0 = false.
Proof.
  destruct (ex_space_ok 4) as (free & Hv & Hm & Hl & Hn); [lia|].
  destruct free as [|mem [|? ?]]; [discriminate Hl| |discriminate Hl].
  destruct (allocuvm_unmapped ex_kend ex_hkend (ex_space 4) mem (ex_pgdir 4) Hv Hm) as (k' & E & Hp & _).
  - apply Hn. lia.
  - exists k'. split; [exact E|exact Hp].
Defined.
