(* ===== verification/Kvm.v ===== *)
(** * The kernel half of the address space and the descriptor tables (kernel/vm64.c)

    [kvmalloc] builds the tables that every address space shares for the
    kernel, and [seginit] the interrupt, segment and task tables of a CPU.
    [hw] is the address translation of the processor: four levels of tables,
    with large pages, where an address can be used in user mode if all entries
    on the way allow it.  The registers that the code loads ([lcr3], [lidt],
    [lgdt], [ltr], the base of %fs) are returned.  The handlers [vectors] come
    from the generated vectors.S and are a parameter. *)

From S2P Require Import Prelude Bytes Spinlock Sched Kalloc Vm VmSpec VmThms.
From Stdlib Require Import FunctionalExtensionality.

Definition PTE_PWT : Z := 0x008.
Definition PTE_PCD : Z := 0x010.
Definition PTE_PS : Z := 0x080.
Definition PDXSHIFT : Z := 21.
Definition DEVSPACE : Z := 0xFE000000.
Definition DEVBASE : Z := 0xFFFFFFFF40000000.
Definition IO2V (a : Z) : Z := u64 (u64 (a + DEVBASE) - DEVSPACE).
Definition SEG_KCODE : Z := 1.
Definition SEG_TSS : Z := 6.

(** The static variables of vm64.c. *)
Record kvm := mkKvm { kpml4 : Z; kpdpt : Z; kpgdir0 : Z; kpgdir1 : Z; iopgdir : Z }.

Definition table_entry (p : Z) : Z := Z.lor (Z.lor (v2p p) PTE_P) PTE_W.
Definition large_entry (pa : Z) : Z := Z.lor (Z.lor (Z.lor pa PTE_PS) PTE_P) PTE_W.
Definition device_entry (pa : Z) : Z := Z.lor (Z.lor (large_entry pa) PTE_PWT) PTE_PCD.

Definition kvmalloc : M kst kvm :=
  kpml4 ← kalloc;
  kpdpt ← kalloc;
  kpgdir0 ← kalloc;
  kpgdir1 ← kalloc;
  iopgdir ← kalloc;
  if (kpml4 =? 0) || (kpdpt =? 0) || (kpgdir0 =? 0) || (kpgdir1 =? 0) || (iopgdir =? 0) then halt Undef else
  fill_page kpml4 0 ;;;
  fill_page kpdpt 0 ;;;
  fill_page iopgdir 0 ;;;
  setw kpml4 511 (table_entry kpdpt) ;;;
  setw kpdpt 511 (table_entry kpgdir1) ;;;
  setw kpdpt 510 (table_entry kpgdir0) ;;;
  setw kpdpt 509 (table_entry iopgdir) ;;;
  for_all (seqZ 0 (Z.of_nat NPDENTRIES)) (λ n,
    setw kpgdir0 n (large_entry (Z.shiftl n PDXSHIFT)) ;;;
    setw kpgdir1 n (large_entry (Z.shiftl (n + 512) PDXSHIFT))) ;;;
  for_all (seqZ 0 16) (λ n, setw iopgdir n (device_entry (u32 (DEVSPACE + Z.shiftl n PDXSHIFT)))) ;;;
  ret (mkKvm kpml4 kpdpt kpgdir0 kpgdir1 iopgdir).

(** The value of %cr3. *)
Definition switchkvm (kv : kvm) : Z := v2p (kpml4 kv).

(** The value of %cr3 that [switchuvm] loads, through the back pointer. *)
Definition switchuvm_cr3 (pgdir : Z) : M kst Z := e ← getw pgdir 511; ret (v2p (PTE_ADDR e)).

(** ** Descriptors *)

(** Consecutive 32-bit and 64-bit words. *)
Fixpoint put_words (off : nat) (ws : list Z) (p : page) : page :=
  match ws with
  | [] => p
  | x :: ws' => put_words (off + 4) ws' (put32 off x p)
  end.
Fixpoint put_qwords (off : nat) (ws : list Z) (p : page) : page :=
  match ws with
  | [] => p
  | x :: ws' => put_qwords (off + 8) ws' (put64 off x p)
  end.

Definition mkgate (idt : page) (n : nat) (kva pl : Z) (trap : bool) : page :=
  let type := if trap then 0x8F00 else 0x8E00 in
  put_words (16 * n)
    [Z.lor (Z.land kva 0xFFFF) (Z.shiftl (Z.shiftl SEG_KCODE 3) 16);
     Z.lor (Z.lor (Z.land kva 0xFFFF0000) type) (Z.shiftl (Z.land pl 3) 13);
     Z.shiftr kva 32; 0] idt.

(** The task state segment is at [tss] of the page. *)
Definition tss_set_rsp (tss : nat) (n : nat) (rsp : Z) (local : page) : page :=
  put32 (tss + 4 * (2 * n + 2)) (Z.shiftr rsp 32) (put32 (tss + 4 * (2 * n + 1)) rsp local).

Definition tss_desc (addr : Z) : Z :=
  Z.lor (Z.lor (Z.lor 0x0067 (Z.shiftl (Z.land addr 0xFFFFFF) 16)) (Z.shiftl 0x00E9 40))
    (Z.shiftl (Z.land (Z.shiftr addr 24) 0xFF) 56).

Definition gdt_words (tss : Z) : list Z :=
  [0; 0x0020980000000000; 0x0000920000000000; 0; 0x0020F80000000000; 0x0000F20000000000;
   u64 (tss_desc tss); Z.shiftr tss 32].

Record segs := mkSegs { sg_idt : Z; sg_local : Z; sg_fsbase : Z; sg_tr : Z }.

(** The interrupt table. *)
Definition make_idt (vectors : nat → Z) : M kst Z :=
  idt ← kalloc_nonnull;
  fill_page idt 0 ;;;
  for_all (seq 0 256) (λ n, s ← get; set_page idt (mkgate (pages (ks_k s) idt) n (vectors n) 0 false)) ;;;
  s ← get;
  set_page idt (mkgate (pages (ks_k s) idt) 64 (vectors 64%nat) 3 true) ;;;
  ret idt.

(** The page with the segment table and the task state segment of the CPU. *)
Definition make_local : M kst Z :=
  local ← kalloc_nonnull;
  fill_page local 0 ;;;
  s ← get;
  set_page local (put32 (1024 + 4 * 16) 0x00680000 (pages (ks_k s) local)) ;;;
  s ← get;
  set_page local (put_qwords 0 (gdt_words (u64 (local + 1024))) (pages (ks_k s) local)) ;;;
  ret local.

(** The per-CPU variables [cpu] and [proc] are not part of the state. *)
Definition seginit (vectors : nat → Z) : M kst segs :=
  idt ← make_idt vectors;
  local ← make_local;
  ret (mkSegs idt local (u64 (local + PGSIZE / 2)) (Z.shiftl SEG_TSS 3)).

(** ** The processor *)

Definition word (m : Z → page) (table i : Z) : Z := get64 (8 * Z.to_nat i) (m table).

(** The physical address, and whether user mode may use it. *)
Definition hw (m : Z → page) (cr3 va : Z) : option (Z * bool) :=
  let e4 := word m (p2v cr3) ((va / 2 ^ 39) mod 512) in
  if negb (has e4 PTE_P) then None else
  let e3 := word m (p2v (PTE_ADDR e4)) ((va / 2 ^ 30) mod 512) in
  if negb (has e3 PTE_P) then None else
  if has e3 PTE_PS then Some (2 ^ 30 * (e3 / 2 ^ 30) + va mod 2 ^ 30, has e4 PTE_U && has e3 PTE_U) else
  let e2 := word m (p2v (PTE_ADDR e3)) ((va / 2 ^ 21) mod 512) in
  if negb (has e2 PTE_P) then None else
  if has e2 PTE_PS then
    Some (2 ^ 21 * (e2 / 2 ^ 21) + va mod 2 ^ 21, has e4 PTE_U && has e3 PTE_U && has e2 PTE_U) else
  let e1 := word m (p2v (PTE_ADDR e2)) ((va / 2 ^ 12) mod 512) in
  if negb (has e1 PTE_P) then None else
  Some (PTE_ADDR e1 + va mod 2 ^ 12, has e4 PTE_U && has e3 PTE_U && has e2 PTE_U && has e1 PTE_U).

(** ** Entries *)

Lemma entry_has pa f b : pa mod PGSIZE = 0 → 0 ≤ b < PGSIZE → has (Z.lor pa f) b = has f b.
Proof.
  intros Hm Hb. unfold has. by rewrite Z.land_lor_distr_l, (land_disjoint pa b 12) by (lia || exact Hm || exact Hb).
Qed.

(** An entry that points to the table [p]. *)
Definition points (e p : Z) (u : bool) : Prop :=
  has e PTE_P = true ∧ has e PTE_PS = false ∧ has e PTE_U = u ∧ p2v (PTE_ADDR e) = p.

(** An entry for the large page [n]. *)
Definition maps_large (e n : Z) : Prop :=
  has e PTE_P = true ∧ has e PTE_PS = true ∧ has e PTE_U = false ∧ e / 2 ^ 21 = n.

Section entries.
Context (kend : Z) (Hkend : KERNBASE ≤ kend).

Lemma points_flags p f : is_page kend p → 0 ≤ f < PGSIZE → has f PTE_P = true → has f PTE_PS = false →
  points (Z.lor (v2p p) f) p (has f PTE_U) ∧ 0 ≤ Z.lor (v2p p) f < 2 ^ 64.
Proof.
  intros Hp Hf Hfp Hfs. destruct (page_v2p kend Hkend p Hp) as (_ & Hr & Hm & Hv). unfold PHYSTOP in Hr.
  destruct (entry_parts (v2p p) f) as (E1 & E2 & _ & E4 & E5); [lia|done|done|]. split; [|done].
  split; [by rewrite E4|]. split; [by rewrite entry_has by (done || unfold PTE_PS, PGSIZE; lia)|].
  split; [done|]. by rewrite E2.
Qed.

Lemma table_entry_points p : is_page kend p → points (table_entry p) p false ∧ 0 ≤ table_entry p < 2 ^ 64.
Proof. intros Hp. unfold table_entry. rewrite <- Z.lor_assoc. by apply points_flags. Qed.
End entries.

Lemma large_flags n f : 0 ≤ n → 0 ≤ f < 2 ^ 12 → has f PTE_P = true → has f PTE_PS = true → has f PTE_U = false →
  maps_large (Z.lor (n * 2 ^ 21) f) n ∧ 0 ≤ Z.lor (n * 2 ^ 21) f < (n + 1) * 2 ^ 21.
Proof.
  intros Hn Hf H1 H2 H3. assert ((n * 2 ^ 21) mod PGSIZE = 0) as Hm.
  { unfold PGSIZE. change (2 ^ 21) with (512 * 4096). rewrite Z.mul_assoc. by apply Z.mod_mul. }
  assert (Z.lor (n * 2 ^ 21) f = n * 2 ^ 21 + f) as E.
  { apply (lor_add _ _ 21); [lia|by apply Z.mod_mul|lia]. }
  split; [|rewrite E; lia]. unfold maps_large. rewrite !entry_has by (done || unfold PTE_P, PTE_PS, PTE_U, PGSIZE; lia).
  split; [done|]. split; [done|]. split; [done|]. rewrite E, Z.add_comm, Z.div_add, Z.div_small by lia. lia.
Qed.

Lemma large_entry_maps n : 0 ≤ n < 2 ^ 11 →
  maps_large (u64 (large_entry (Z.shiftl n PDXSHIFT))) n.
Proof.
  intros Hn. unfold large_entry. rewrite <- !Z.lor_assoc, Z.shiftl_mul_pow2 by (unfold PDXSHIFT; lia).
  change (Z.lor PTE_PS (Z.lor PTE_P PTE_W)) with 0x83.
  destruct (large_flags n 0x83) as [H1 H2]; [lia|lia|done..|]. unfold PDXSHIFT.
  rewrite wrap_small by lia. exact H1.
Qed.

Lemma device_entry_maps n : 0 ≤ n < 16 →
  maps_large (u64 (device_entry (u32 (DEVSPACE + Z.shiftl n PDXSHIFT)))) (DEVSPACE / 2 ^ 21 + n).
Proof.
  intros Hn. unfold device_entry, large_entry. rewrite <- !Z.lor_assoc, Z.shiftl_mul_pow2 by (unfold PDXSHIFT; lia).
  change (DEVSPACE / 2 ^ 21) with 2032. unfold DEVSPACE, PDXSHIFT. rewrite (wrap_small 32) by lia.
  replace (0xFE000000 + n * 2 ^ 21) with ((2032 + n) * 2 ^ 21) by lia.
  change (Z.lor PTE_PS _) with 0x9b. destruct (large_flags (2032 + n) 0x9b) as [H1 H2]; [lia|lia|done..|].
  rewrite wrap_small by lia. exact H1.
Qed.

(** ** The shared half *)

(** The tables below the entry of the root that all address spaces share. *)
Definition shared (m : Z → page) (kv : kvm) : Prop :=
  points (word m (kpdpt kv) 511) (kpgdir1 kv) false ∧ points (word m (kpdpt kv) 510) (kpgdir0 kv) false ∧
  points (word m (kpdpt kv) 509) (iopgdir kv) false ∧
  (∀ n, 0 ≤ n < 512 → maps_large (word m (kpgdir0 kv) n) n ∧ maps_large (word m (kpgdir1 kv) n) (n + 512)) ∧
  (∀ n, 0 ≤ n < 16 → maps_large (word m (iopgdir kv) n) (DEVSPACE / 2 ^ 21 + n)).

Lemma hw_large m r pt pd u4 u3 n va : points (word m r ((va / 2 ^ 39) mod 512)) pt u4 →
  points (word m pt ((va / 2 ^ 30) mod 512)) pd u3 → maps_large (word m pd ((va / 2 ^ 21) mod 512)) n →
  p2v (v2p r) = r → hw m (v2p r) va = Some (2 ^ 21 * n + va mod 2 ^ 21, false).
Proof.
  intros (P4 & _ & U4 & A4) (P3 & S3 & U3 & A3) (P2 & S2 & U2 & N) Hr. unfold hw. rewrite Hr, P4, A4, P3, S3, A3, P2, S2, U4, U3, U2, N.
  cbn [negb]. by rewrite andb_false_r.
Qed.

Lemma kernel_index x : 0 ≤ x < 2 ^ 31 →
  ((KERNBASE + x) / 2 ^ 39) mod 512 = 511 ∧ ((KERNBASE + x) / 2 ^ 30) mod 512 = 510 + x / 2 ^ 30 ∧
  ((KERNBASE + x) / 2 ^ 21) mod 512 = (x / 2 ^ 21) mod 512 ∧ (KERNBASE + x) mod 2 ^ 21 = x mod 2 ^ 21.
Proof.
  intros Hx. unfold KERNBASE. change 0xFFFFFFFF80000000 with (33554431 * 2 ^ 39 + 511 * 2 ^ 30 - 2 ^ 30).
  assert (x / 2 ^ 30 < 2) by (apply Z.div_lt_upper_bound; lia). assert (0 ≤ x / 2 ^ 30) by (apply Z.div_pos; lia).
  split; [|split; [|split]].
  - replace (33554431 * 2 ^ 39 + 511 * 2 ^ 30 - 2 ^ 30 + x) with (510 * 2 ^ 30 + x + 33554431 * 2 ^ 39) by lia.
    rewrite Z.div_add, (Z.div_small (_ + x)) by lia. reflexivity.
  - replace (33554431 * 2 ^ 39 + 511 * 2 ^ 30 - 2 ^ 30 + x) with (x + (510 + 33554431 * 512) * 2 ^ 30) by lia.
    rewrite Z.div_add by lia. rewrite Z.add_assoc, Z.mod_add by lia. rewrite Z.mod_small by lia. lia.
  - replace (33554431 * 2 ^ 39 + 511 * 2 ^ 30 - 2 ^ 30 + x) with (x + (510 + 33554431 * 512) * 512 * 2 ^ 21) by lia.
    rewrite Z.div_add, Z.mod_add by lia. done.
  - replace (33554431 * 2 ^ 39 + 511 * 2 ^ 30 - 2 ^ 30 + x) with (x + (510 + 33554431 * 512) * 512 * 2 ^ 21) by lia.
    by rewrite Z.mod_add by lia.
Qed.

Lemma hw_kernel m r kv u x : points (word m r 511) (kpdpt kv) u → shared m kv → p2v (v2p r) = r → 0 ≤ x < 2 ^ 31 →
  hw m (v2p r) (KERNBASE + x) = Some (x, false).
Proof.
  intros H4 (H1 & H0 & _ & Hp & _) Hr Hx. destruct (kernel_index x Hx) as (I4 & I3 & I2 & Io).
  assert (0 ≤ x / 2 ^ 21 < 1024) as Hy by (split; [apply Z.div_pos; lia|apply Z.div_lt_upper_bound; lia]).
  assert (x / 2 ^ 30 = x / 2 ^ 21 / 512) as Ey by (by rewrite Z.div_div by lia).
  pose proof (Z.div_mod x (2 ^ 21)) as Hd. pose proof (Z.div_mod (x / 2 ^ 21) 512) as Hd'.
  pose proof (Z.mod_pos_bound (x / 2 ^ 21) 512) as Hm. destruct (Hp ((x / 2 ^ 21) mod 512)) as [M0 M1]; [lia|].
  destruct (decide (x / 2 ^ 30 = 0)) as [E|E].
  - erewrite hw_large; [|rewrite I4; exact H4|rewrite I3, E; exact H0|rewrite I2; exact M0|done]. rewrite Io. do 2 f_equal. lia.
  - assert (x / 2 ^ 30 = 1) as E1 by (assert (x / 2 ^ 30 < 2) by (apply Z.div_lt_upper_bound; lia); lia).
    erewrite hw_large; [|rewrite I4; exact H4|rewrite I3, E1; exact H1|rewrite I2; exact M1|done]. rewrite Io. do 2 f_equal. lia.
Qed.

Lemma hw_device m r kv u x : points (word m r 511) (kpdpt kv) u → shared m kv → p2v (v2p r) = r → 0 ≤ x < 2 ^ 25 →
  hw m (v2p r) (DEVBASE + x) = Some (DEVSPACE + x, false).
Proof.
  intros H4 (_ & _ & H9 & _ & Hd) Hr Hx. assert (0 ≤ x / 2 ^ 21 < 16) as Hy.
  { split; [apply Z.div_pos; lia|apply Z.div_lt_upper_bound; lia]. }
  assert (DEVBASE + x = x + (33554431 * 2 ^ 39 + 509 * 2 ^ 30)) as E by (unfold DEVBASE; lia). rewrite E.
  assert ((x + (33554431 * 2 ^ 39 + 509 * 2 ^ 30)) / 2 ^ 39 = 33554431) as I4.
  { replace (x + _) with (x + 509 * 2 ^ 30 + 33554431 * 2 ^ 39) by lia. by rewrite Z.div_add, Z.div_small by lia. }
  assert ((x + (33554431 * 2 ^ 39 + 509 * 2 ^ 30)) / 2 ^ 30 = 33554431 * 512 + 509) as I3.
  { replace (x + _) with (x + (33554431 * 512 + 509) * 2 ^ 30) by lia. by rewrite Z.div_add, Z.div_small by lia. }
  assert ((x + (33554431 * 2 ^ 39 + 509 * 2 ^ 30)) = x + (33554431 * 512 + 509) * 512 * 2 ^ 21) as E2 by lia.
  erewrite hw_large; [|rewrite I4; exact H4|rewrite I3; exact H9| |done].
  2:{ rewrite E2, Z.div_add, Z.mod_add, Z.mod_small by lia. by apply Hd. }
  rewrite E2, Z.mod_add by lia. pose proof (Z.div_mod x (2 ^ 21)). change (DEVSPACE / 2 ^ 21) with 2032. unfold DEVSPACE. do 2 f_equal. lia.
Qed.

(** ** What the set-up code writes *)

Lemma setw_run a i x s : setw a i x s =
  Ok tt (set_ksk (set_pages (<[a := put64 (8 * Z.to_nat i) x (pages (ks_k s) a)]> (pages (ks_k s))) (ks_k s)) s).
Proof. reflexivity. Qed.

Lemma setw_writes a i x k s l : setw a i x (set_ksk (writes k l) s) =
  Ok tt (set_ksk (writes k (l ++ [(a, put64 (8 * Z.to_nat i) x)])) s).
Proof. rewrite setw_run. unfold writes. rewrite foldl_app. reflexivity. Qed.

Lemma fill_writes a x k s l : fill_page a x (set_ksk (writes k l) s) =
  Ok tt (set_ksk (writes k (l ++ [(a, const (replicate PAGE x))])) s).
Proof. unfold writes. rewrite foldl_app. reflexivity. Qed.

(** A loop of stores into two pages. *)
Lemma fill_two_run a b (f g : Z → Z) l s :
  for_all l (λ n, setw a n (f n) ;;; setw b n (g n)) s =
  Ok tt (set_ksk (writes (ks_k s)
    (l ≫= λ n, [(a, put64 (8 * Z.to_nat n) (f n)); (b, put64 (8 * Z.to_nat n) (g n))])) s).
Proof.
  revert s. induction l as [|n l IH]; intros s; cbn [for_all]; [by destruct s|].
  erewrite bind_ok; [|erewrite bind_ok by apply setw_run; apply setw_run]. rewrite IH. reflexivity.
Qed.

Lemma fill_one_run a (f : Z → Z) l s :
  for_all l (λ n, setw a n (f n)) s =
  Ok tt (set_ksk (writes (ks_k s) ((λ n, (a, put64 (8 * Z.to_nat n) (f n))) <$> l)) s).
Proof.
  revert s. induction l as [|n l IH]; intros s; cbn [for_all]; [by destruct s|].
  erewrite bind_ok by apply setw_run. rewrite IH. reflexivity.
Qed.

(** The words of a page after a loop of stores. *)
Lemma fill_word (f : Z → Z) l (p : page) i : length p = PAGE → 0 ≤ i < 512 → Forall (λ n, 0 ≤ n < 512) l →
  get64 (8 * Z.to_nat i) (foldl (λ p n, put64 (8 * Z.to_nat n) (f n) p) p l) =
    if decide (i ∈ l) then u64 (f i) else get64 (8 * Z.to_nat i) p.
Proof.
  intros Hp Hi. revert p Hp. induction l as [|n l IH]; intros p Hp Hl; cbn [foldl]; [by rewrite decide_False by set_solver|].
  apply Forall_cons in Hl as [Hn Hl]. rewrite IH by (done || by apply put64_page).
  rewrite get64_put64_word by done. destruct (Z.eqb_spec i n) as [->|Hne].
  - rewrite (decide_True (P := n ∈ n :: l)) by set_solver. by case_decide.
  - destruct (decide (i ∈ l)) as [Hil|Hil]; [by rewrite decide_True by set_solver|by rewrite decide_False by set_solver].
Qed.

Lemma fill_length (f : Z → Z) l (p : page) : length p = PAGE → Forall (λ n, 0 ≤ n < 512) l →
  length (foldl (λ p n, put64 (8 * Z.to_nat n) (f n) p) p l) = PAGE.
Proof.
  intros Hp Hl. revert p Hp. induction l as [|n l IH]; intros p Hp; [done|]. apply Forall_cons in Hl as [Hn Hl].
  cbn [foldl]. apply IH; [done|by apply put64_page].
Qed.

Lemma seqZ_words k : k ≤ 512 → Forall (λ n, 0 ≤ n < 512) (seqZ 0 k).
Proof. intros Hk. apply Forall_forall. intros n Hn%elem_of_seqZ. lia. Qed.

Lemma writes_app k l l' : writes k (l ++ l') = writes (writes k l) l'.
Proof. unfold writes. apply foldl_app. Qed.

Lemma fill_two_at a b (f g : Z → Z) l k p : a ≠ b →
  pages (writes k (l ≫= λ n, [(a, put64 (8 * Z.to_nat n) (f n)); (b, put64 (8 * Z.to_nat n) (g n))])) p =
  if decide (p = a) then foldl (λ p n, put64 (8 * Z.to_nat n) (f n) p) (pages k a) l
  else if decide (p = b) then foldl (λ p n, put64 (8 * Z.to_nat n) (g n) p) (pages k b) l else pages k p.
Proof.
  intros Hab. revert k. induction l as [|n l IH]; intros k.
  { cbn. case_decide; [by subst|]. case_decide; by subst. }
  change ((n :: l) ≫= ?h) with (h n ++ (l ≫= h)). rewrite writes_app, IH. cbn [writes foldl fst snd pages set_pages].
  destruct (decide (p = a)) as [->|Hpa].
  { by rewrite fn_lookup_insert_ne, fn_lookup_insert by done. }
  destruct (decide (p = b)) as [->|Hpb].
  { by rewrite fn_lookup_insert, fn_lookup_insert_ne by done. }
  by rewrite !fn_lookup_insert_ne by done.
Qed.

Lemma fill_one_at a (f : Z → Z) l k p :
  pages (writes k ((λ n, (a, put64 (8 * Z.to_nat n) (f n))) <$> l)) p =
  if decide (p = a) then foldl (λ p n, put64 (8 * Z.to_nat n) (f n) p) (pages k a) l else pages k p.
Proof.
  revert k. induction l as [|n l IH]; intros k.
  { cbn. case_decide; by subst. }
  cbn [fmap list_fmap writes foldl fst snd]. etrans; [apply IH|]. cbn [pages set_pages].
  case_decide as E; [by rewrite fn_lookup_insert|by rewrite fn_lookup_insert_ne].
Qed.

Section setup.
Context (kend : Z) (Hkend : KERNBASE ≤ kend).

(** The stores of [kvmalloc] before its loops. *)
Definition kvm_writes (kv : kvm) : list (Z * (page → page)) :=
  [(kpml4 kv, const (replicate PAGE 0)); (kpdpt kv, const (replicate PAGE 0)); (iopgdir kv, const (replicate PAGE 0));
   (kpml4 kv, put64 (8 * Z.to_nat 511) (table_entry (kpdpt kv)));
   (kpdpt kv, put64 (8 * Z.to_nat 511) (table_entry (kpgdir1 kv)));
   (kpdpt kv, put64 (8 * Z.to_nat 510) (table_entry (kpgdir0 kv)));
   (kpdpt kv, put64 (8 * Z.to_nat 509) (table_entry (iopgdir kv)))].
Definition dir_writes (kv : kvm) : list (Z * (page → page)) :=
  seqZ 0 512 ≫= λ n, [(kpgdir0 kv, put64 (8 * Z.to_nat n) (large_entry (Z.shiftl n PDXSHIFT)));
                      (kpgdir1 kv, put64 (8 * Z.to_nat n) (large_entry (Z.shiftl (n + 512) PDXSHIFT)))].
Definition io_writes (kv : kvm) : list (Z * (page → page)) :=
  (λ n, (iopgdir kv, put64 (8 * Z.to_nat n) (device_entry (u32 (DEVSPACE + Z.shiftl n PDXSHIFT))))) <$> seqZ 0 16.

Lemma kvmalloc_writes s a b c d e fr : kinv kend (ks_k s) (a :: b :: c :: d :: e :: fr) → km_free (ks_m s) →
  let kv := mkKvm a b c d e in
  kvmalloc s = Ok kv (set_ksk (writes (writes (writes (popped (ks_k s) fr) (kvm_writes kv)) (dir_writes kv)) (io_writes kv)) s) ∧
  kinv kend (popped (ks_k s) fr) fr.
Proof.
  intros Hk Hm kv. unfold kvmalloc. pose proof Hk as (_ & _ & Hpg & _). rewrite !Forall_cons in Hpg.
  destruct Hpg as ((_ & _ & _ & Za) & (_ & _ & _ & Zb) & (_ & _ & _ & Zc) & (_ & _ & _ & Zd) & (_ & _ & _ & Ze) & _).
  destruct (kalloc_run kend s _ Hk Hm) as [E Hk1]. step E. clear E. cbn [hd tl] in *.
  edestruct (kalloc_run kend (set_ksk _ s) _ Hk1 Hm) as [E Hk2]. step E. clear E. cbn [hd tl] in *.
  edestruct (kalloc_run kend (set_ksk _ s) _ Hk2 Hm) as [E Hk3]. step E. clear E. cbn [hd tl] in *.
  edestruct (kalloc_run kend (set_ksk _ s) _ Hk3 Hm) as [E Hk4]. step E. clear E. cbn [hd tl] in *.
  edestruct (kalloc_run kend (set_ksk _ s) _ Hk4 Hm) as [E Hk5]. step E. clear E. cbn [hd tl] in *.
  rewrite !(proj2 (Z.eqb_neq _ 0)) by lia. cbn [orb]. split; [|exact Hk5].
  change (Z.of_nat NPDENTRIES) with 512.
  match goal with |- bind _ _ ?st = _ => change st with (set_ksk (writes (popped (ks_k s) fr) []) s) end.
  do 3 rewrite (bind_ok _ _ _ _ _ (fill_writes _ _ _ _ _)). do 4 rewrite (bind_ok _ _ _ _ _ (setw_writes _ _ _ _ _ _)).
  cbn [app]. fold (kvm_writes kv).
  erewrite bind_ok by apply fill_two_run. cbn [ks_k set_ksk].
  erewrite bind_ok by apply fill_one_run. cbn [ks_k set_ksk]. fold (dir_writes kv) (io_writes kv). done.
Qed.

Lemma fill_writes_ok a (f : Z → Z) l (fr : list Z) : a ∉ fr → Forall (λ n, 0 ≤ n < 512) l →
  Forall (λ w, (w.1 ∉ fr) ∧ ∀ p : page, length p = PAGE → length (w.2 p) = PAGE)
    ((λ n, (a, put64 (8 * Z.to_nat n) (f n))) <$> l).
Proof.
  intros Ha Hl. apply Forall_fmap, (Forall_impl _ _ _ Hl). intros n Hn. cbn. split; [done|]. intros p Hp. by apply put64_page.
Qed.

Lemma dir_writes_ok kv (fr : list Z) : kpgdir0 kv ∉ fr → kpgdir1 kv ∉ fr →
  Forall (λ w, (w.1 ∉ fr) ∧ ∀ p : page, length p = PAGE → length (w.2 p) = PAGE) (dir_writes kv).
Proof.
  intros H0 H1. apply Forall_forall. intros w Hw. apply list_elem_of_bind in Hw as (n & Hw & Hn).
  apply elem_of_seqZ in Hn. rewrite !elem_of_cons in Hw.
  destruct Hw as [->|[->|Hw%elem_of_nil]]; [| |done]; cbn; (split; [done|]); intros p Hp; apply put64_page; (done || lia).
Qed.

Lemma kvm_writes_ok kv (fr : list Z) : kpml4 kv ∉ fr → kpdpt kv ∉ fr → iopgdir kv ∉ fr →
  Forall (λ w, (w.1 ∉ fr) ∧ ∀ p : page, length p = PAGE → length (w.2 p) = PAGE) (kvm_writes kv).
Proof.
  intros Ha Hb He. unfold kvm_writes. rewrite !Forall_cons. cbn [fst snd].
  do 3 (split; [split; [done|intros p _; apply length_replicate]|]).
  do 4 (split; [split; [done|intros p Hp; apply put64_page; [exact Hp|lia]]|]). apply Forall_nil_2.
Qed.

(** The tables after [kvmalloc]. *)
Lemma kvm_pages k a b c d e fr : NoDup (a :: b :: c :: d :: e :: fr) → (∀ p, length (pages k p) = PAGE) →
  let kv := mkKvm a b c d e in
  let m := pages (writes (writes (writes k (kvm_writes kv)) (dir_writes kv)) (io_writes kv)) in
  m a = put64 (8 * Z.to_nat 511) (table_entry b) (replicate PAGE 0) ∧
  m b = put64 (8 * Z.to_nat 509) (table_entry e) (put64 (8 * Z.to_nat 510) (table_entry c)
    (put64 (8 * Z.to_nat 511) (table_entry d) (replicate PAGE 0))) ∧
  m c = foldl (λ p n, put64 (8 * Z.to_nat n) (large_entry (Z.shiftl n PDXSHIFT)) p) (pages k c) (seqZ 0 512) ∧
  m d = foldl (λ p n, put64 (8 * Z.to_nat n) (large_entry (Z.shiftl (n + 512) PDXSHIFT)) p) (pages k d) (seqZ 0 512) ∧
  m e = foldl (λ p n, put64 (8 * Z.to_nat n) (device_entry (u32 (DEVSPACE + Z.shiftl n PDXSHIFT))) p) (replicate PAGE 0) (seqZ 0 16).
Proof.
  intros Hnd Hlen kv m. rewrite !NoDup_cons, !not_elem_of_cons in Hnd.
  destruct Hnd as ((Hab & Hac & Had & Hae & _) & (Hbc & Hbd & Hbe & _) & (Hcd & Hce & _) & (Hde & _) & _).
  assert (∀ p, m p = if decide (p = e) then
      foldl (λ p n, put64 (8 * Z.to_nat n) (device_entry (u32 (DEVSPACE + Z.shiftl n PDXSHIFT))) p)
        (pages (writes (writes k (kvm_writes kv)) (dir_writes kv)) e) (seqZ 0 16)
      else pages (writes (writes k (kvm_writes kv)) (dir_writes kv)) p) as Em by (intros p; apply fill_one_at).
  assert (∀ p, pages (writes (writes k (kvm_writes kv)) (dir_writes kv)) p =
    if decide (p = c) then foldl (λ p n, put64 (8 * Z.to_nat n) (large_entry (Z.shiftl n PDXSHIFT)) p)
      (pages (writes k (kvm_writes kv)) c) (seqZ 0 512)
    else if decide (p = d) then foldl (λ p n, put64 (8 * Z.to_nat n) (large_entry (Z.shiftl (n + 512) PDXSHIFT)) p)
      (pages (writes k (kvm_writes kv)) d) (seqZ 0 512)
    else pages (writes k (kvm_writes kv)) p) as E2 by (intros p; by apply fill_two_at).
  pose proof (λ p, writes_at (kvm_writes kv) k p) as E1. cbn [kvm_writes kv foldl fst snd Kvm.kpml4 kpdpt iopgdir] in E1.
  split; [|split; [|split; [|split]]].
  - rewrite Em, decide_False, (E2 a), !decide_False, E1 by done. by repeat (case_decide; try congruence).
  - rewrite Em, decide_False, (E2 b), !decide_False, E1 by done. by repeat (case_decide; try congruence).
  - rewrite Em, decide_False, (E2 c), decide_True, E1 by done. by repeat (case_decide; try congruence).
  - rewrite Em, decide_False, (E2 d), decide_False, decide_True, E1 by done. by repeat (case_decide; try congruence).
  - rewrite Em, decide_True, (E2 e), !decide_False, E1 by done. by repeat (case_decide; try congruence).
Qed.

Lemma kvmalloc_run s a b c d e fr : kinv kend (ks_k s) (a :: b :: c :: d :: e :: fr) → km_free (ks_m s) →
  let kv := mkKvm a b c d e in
  ∃ k', kvmalloc s = Ok kv (set_ksk k' s) ∧ kinv kend k' fr ∧ shared (pages k') kv ∧ points (word (pages k') a 511) b false.
Proof.
  intros Hk Hm kv. destruct (kvmalloc_writes s a b c d e fr Hk Hm) as [E Hk5]. fold kv in E.
  pose proof Hk as (_ & Hnd & Hpg & Hlen). rewrite !Forall_cons in Hpg. destruct Hpg as (Pa & Pb & Pc & Pd & Pe & _).
  destruct (kvm_pages (popped (ks_k s) fr) a b c d e fr Hnd Hlen) as (Ma & Mb & Mc & Md & Me). fold kv in Ma, Mb, Mc, Md, Me.
  set (k' := writes (writes _ _) (io_writes kv)) in *. exists k'. split; [exact E|].
  pose proof Hnd as Hnd'. rewrite !NoDup_cons, !not_elem_of_cons in Hnd'.
  destruct Hnd' as ((_ & _ & _ & _ & Fa) & (_ & _ & _ & Fb) & (_ & _ & Fc) & (_ & Fd) & Fe & _).
  split; [|split; [|]].
  - unfold k'. rewrite <- !writes_app. apply (writes_kinv kend); [done|]. rewrite !Forall_app.
    split; [|split]; [|by apply dir_writes_ok|by apply fill_writes_ok; [|apply seqZ_words; lia]].
    by apply kvm_writes_ok.
  - assert (length (replicate PAGE 0) = PAGE) as Hz by apply length_replicate.
    destruct (table_entry_points kend Hkend d Pd) as [Td Rd], (table_entry_points kend Hkend c Pc) as [Tc Rc],
      (table_entry_points kend Hkend e Pe) as [Te Re].
    unfold shared, word. cbn [Kvm.kpdpt kpgdir1 kpgdir0 iopgdir kv]. rewrite Mb.
    rewrite !get64_put64_word by (lia || (repeat apply put64_page; lia || done)). cbn [Z.eqb Pos.eqb].
    rewrite !wrap_small by done. split; [exact Td|]. split; [exact Tc|]. split; [exact Te|]. split.
    + intros n Hn. rewrite Mc, Md, !fill_word by (apply Hlen || exact Hn || exact (seqZ_words 512 ltac:(lia))).
      rewrite !decide_True by (apply elem_of_seqZ; lia). split; apply large_entry_maps; lia.
    + intros n Hn. rewrite Me, fill_word by (exact Hz || lia || exact (seqZ_words 16 ltac:(lia))).
      rewrite decide_True by (apply elem_of_seqZ; lia). by apply device_entry_maps.
  - destruct (table_entry_points kend Hkend b Pb) as [Tb Rb]. unfold word. rewrite Ma.
    rewrite get64_put64_word by (apply length_replicate || lia). cbn [Z.eqb Pos.eqb]. by rewrite wrap_small.
Qed.

Lemma shared_same m m' kv : (∀ p, p ∈ [kpdpt kv; kpgdir0 kv; kpgdir1 kv; iopgdir kv] → m' p = m p) →
  shared m kv → shared m' kv.
Proof.
  intros He. unfold shared, word. rewrite !He by set_solver. done.
Qed.

(** The tables of a new address space. *)
Lemma setupkvm_root s p4 pt pd fr kp : is_page kend kp → kinv kend (ks_k s) (p4 :: pt :: pd :: fr) → km_free (ks_m s) →
  ∃ k', setupkvm kp s = Ok pd (set_ksk k' s) ∧ points (word (pages k') p4 511) kp true ∧
    switchuvm_cr3 pd (set_ksk k' s) = Ok (v2p p4) (set_ksk k' s) ∧ ∀ p, p ∉ [p4; pt; pd] → pages k' p = pages (ks_k s) p.
Proof.
  intros Hkp Hk Hm. destruct (setupkvm_writes kend kp s p4 pt pd fr Hk Hm) as [E Hk']. set (l := space_writes kp p4 pt pd) in *.
  pose proof Hk as (_ & Hnd & Hpg & _). rewrite !Forall_cons in Hpg. destruct Hpg as (P4 & _).
  destruct (writes_kinv kend l _ fr Hk' (space_writes_ok kp p4 pt pd fr Hnd)) as [_ Hsame].
  rewrite !NoDup_cons, !not_elem_of_cons in Hnd. destruct Hnd as ((H4t & H4d & _) & (Htd & _) & _).
  eexists. split; [exact E|]. assert (length (replicate PAGE 0) = PAGE) as Hz by apply length_replicate. split; [|split].
  - unfold word. cbn [pages]. rewrite writes_at. unfold l, space_writes. cbn [foldl fst snd].
    repeat (case_decide; try congruence). cbn [const]. rewrite !get64_put64_word by (lia || (repeat apply put64_page; lia || exact Hz)).
    cbn [Z.eqb Pos.eqb]. rewrite <- !Z.lor_assoc. destruct (points_flags kend Hkend kp (Z.lor PTE_P (Z.lor PTE_W PTE_U))) as [Hp Hr];
      [done|by vm_compute|done..|]. by rewrite wrap_small.
  - unfold switchuvm_cr3, getw. go. cbn [ks_k set_ksk]. do 2 f_equal. f_equal. rewrite writes_at. unfold l, space_writes. cbn [foldl fst snd].
    repeat (case_decide; try congruence). cbn [const]. rewrite !get64_put64_word by (lia || (repeat apply put64_page; lia || exact Hz)).
    cbn [Z.eqb Pos.eqb]. destruct P4 as (Hal & _ & _ & Hr). destruct (entry_parts p4 PTE_P) as (Hr' & Ha & _); [lia|done|done|].
    by rewrite wrap_small.
  - intros p Hp. rewrite Hsame; [done|]. clear -Hp. cbn. rewrite !not_elem_of_cons in *. naive_solver.
Qed.

(** C10: the kernel sees physical memory where it expects it.  After [kvmalloc],
    with the tables of the kernel itself and with those of any address space
    that [setupkvm] makes, the processor translates [KERNBASE + x] to [x] for
    the first two gigabytes and the device window to the devices ([IO2V]), and
    refuses both to user mode. *)
Theorem kernel_mapped s free : kinv kend (ks_k s) free → (8 ≤ length free)%nat → km_free (ks_m s) →
  ∃ kv s1 pgdir s2 cr3, kvmalloc s = Ok kv s1 ∧ setupkvm (kpdpt kv) s1 = Ok pgdir s2 ∧
    switchuvm_cr3 pgdir s2 = Ok cr3 s2 ∧
    ∀ root, root = switchkvm kv ∨ root = cr3 →
      (∀ x, 0 ≤ x < 2 ^ 31 → hw (pages (ks_k s2)) root (KERNBASE + x) = Some (x, false)) ∧
      (∀ a, DEVSPACE ≤ a < 2 ^ 32 → hw (pages (ks_k s2)) root (IO2V a) = Some (a, false)).
Proof.
  intros Hk Hlen Hm. destruct free as [|a [|b [|c [|d [|e [|p4 [|pt [|pd fr]]]]]]]]; cbn in Hlen; try lia. clear Hlen.
  pose proof Hk as (_ & Hnd & Hpg & _). rewrite !Forall_cons in Hpg. destruct Hpg as (Pa & Pb & _ & _ & _ & P4 & _).
  destruct (kvmalloc_run s a b c d e _ Hk Hm) as (k1 & E1 & Hk1 & Hs1 & Ha). set (kv := mkKvm a b c d e) in *.
  destruct (setupkvm_root (set_ksk k1 s) p4 pt pd fr b Pb Hk1 Hm) as (k2 & E2 & H4 & E3 & Hsame).
  change (NoDup ([a; b; c; d; e] ++ p4 :: pt :: pd :: fr)) in Hnd. apply NoDup_app in Hnd as (_ & Hdis & _).
  assert (∀ p, p ∈ [a; b; c; d; e] → pages k2 p = pages k1 p) as Hold.
  { intros p Hp. rewrite Hsame; [done|]. pose proof (Hdis p Hp) as Hn. clear -Hn. rewrite !not_elem_of_cons in *. pose proof (not_elem_of_nil p). tauto. }
  assert (shared (pages k2) kv) as Hs2.
  { apply (shared_same (pages k1)); [|done]. intros p Hp. apply Hold. cbn in Hp. set_solver. }
  assert (points (word (pages k2) a 511) b false) as Ha2 by (unfold word; rewrite (Hold a) by apply list_elem_of_here; exact Ha).
  exists kv, (set_ksk k1 s), pd, (set_ksk k2 (set_ksk k1 s)), (v2p p4). split; [exact E1|]. split; [exact E2|]. split; [exact E3|].
  destruct (page_v2p kend Hkend a Pa) as (_ & _ & _ & Va), (page_v2p kend Hkend p4 P4) as (_ & _ & _ & V4).
  assert (∀ y, DEVSPACE ≤ y < 2 ^ 32 → IO2V y = DEVBASE + (y - DEVSPACE) ∧ 0 ≤ y - DEVSPACE < 2 ^ 25) as Hio.
  { intros y Hy. unfold IO2V, DEVSPACE, DEVBASE in *. unfold wrap. rewrite Zminus_mod_idemp_l, Z.mod_small by lia. lia. }
  intros root [->| ->]; (split; intros x Hx; [|destruct (Hio x Hx) as [-> Hr]]).
  - exact (hw_kernel (pages k2) a kv false x Ha2 Hs2 Va Hx).
  - etrans; [exact (hw_device (pages k2) a kv false _ Ha2 Hs2 Va Hr)|]. do 2 f_equal. lia.
  - exact (hw_kernel (pages k2) p4 kv true x H4 Hs2 V4 Hx).
  - etrans; [exact (hw_device (pages k2) p4 kv true _ H4 Hs2 V4 Hr)|]. do 2 f_equal. lia.
Qed.
End setup.

(** ** Gates *)

(** An entry of the interrupt table, as the processor reads it. *)
Record gate := mkGate { g_offset : Z; g_selector : Z; g_type : Z; g_dpl : Z; g_present : Z }.

Definition gate_of (w0 w1 w2 : Z) : gate :=
  mkGate (w0 mod 2 ^ 16 + 2 ^ 16 * (w1 / 2 ^ 16) + 2 ^ 32 * w2) (w0 / 2 ^ 16) ((w1 / 2 ^ 8) mod 2 ^ 5)
    ((w1 / 2 ^ 13) mod 4) ((w1 / 2 ^ 15) mod 2).
Definition gate_at (idt : page) (n : nat) : gate :=
  gate_of (get32 (16 * n) idt) (get32 (16 * n + 4) idt) (get32 (16 * n + 8) idt).

(** An interrupt gate, closed to [int] instructions below level [pl]. *)
Definition handler (kva pl : Z) (trap : bool) : gate :=
  mkGate kva (Z.shiftl SEG_KCODE 3) (if trap then 0xF else 0xE) pl 1.

Lemma gate_words kva pl (trap : bool) : 0 ≤ kva < 2 ^ 64 → 0 ≤ pl < 4 →
  gate_of (u32 (Z.lor (Z.land kva 0xFFFF) (Z.shiftl (Z.shiftl SEG_KCODE 3) 16)))
    (u32 (Z.lor (Z.lor (Z.land kva 0xFFFF0000) (if trap then 0x8F00 else 0x8E00)) (Z.shiftl (Z.land pl 3) 13)))
    (u32 (Z.shiftr kva 32)) = handler kva pl trap.
Proof.
  intros Hk Hp. change 0xFFFF with (Z.ones 16). rewrite Z.land_ones, Z.shiftr_div_pow2 by lia.
  assert (Z.land kva 0xFFFF0000 = (kva / 2 ^ 16) mod 2 ^ 16 * 2 ^ 16) as ->.
  { rewrite <- Z.shiftl_mul_pow2, <- Z.land_ones, <- Z.shiftr_div_pow2 by lia. change 0xFFFF0000 with (Z.shiftl (Z.ones 16) 16).
    apply Z.bits_inj'. intros n Hn. rewrite Z.land_spec. destruct (decide (n < 16)).
    - by rewrite !Z.shiftl_spec_low, andb_false_r by lia.
    - rewrite !Z.shiftl_spec_high, Z.land_spec, Z.shiftr_spec by lia. do 2 f_equal. lia. }
  set (lo := kva mod 2 ^ 16). set (mid := (kva / 2 ^ 16) mod 2 ^ 16).
  assert (0 ≤ lo < 2 ^ 16) as Hlo by (by apply Z.mod_pos_bound). assert (0 ≤ mid < 2 ^ 16) as Hmid by (by apply Z.mod_pos_bound).
  rewrite Z.lor_comm, (lor_add _ lo 16) by (done || lia). rewrite <- Z.lor_assoc.
  assert (∃ f, Z.lor (if trap then 0x8F00 else 0x8E00) (Z.shiftl (Z.land pl 3) 13) = f ∧ 0 ≤ f < 2 ^ 16 ∧
    (f / 2 ^ 8) mod 2 ^ 5 = (if trap then 0xF else 0xE) ∧ (f / 2 ^ 13) mod 4 = pl ∧ f / 2 ^ 15 = 1) as (f & -> & Hf & F1 & F2 & F3).
  { assert (pl = 0 ∨ pl = 1 ∨ pl = 2 ∨ pl = 3) as [->|[->|[->| ->]]] by lia; destruct trap; eexists; (split; [reflexivity|by vm_compute]). }
  rewrite (lor_add _ f 16) by (lia || by apply Z.mod_mul).
  assert (0 ≤ kva / 2 ^ 32 < 2 ^ 32) as Hhi by (split; [apply Z.div_pos; lia|apply Z.div_lt_upper_bound; lia]).
  rewrite !wrap_small by (change (Z.shiftl (Z.shiftl SEG_KCODE 3) 16) with (8 * 2 ^ 16); lia).
  change (Z.shiftl (Z.shiftl SEG_KCODE 3) 16) with (8 * 2 ^ 16). unfold gate_of, handler. f_equal.
  - assert ((8 * 2 ^ 16 + lo) mod 2 ^ 16 = lo) as -> by (by rewrite Z.add_comm, Z.mod_add, Z.mod_small by lia).
    assert ((mid * 2 ^ 16 + f) / 2 ^ 16 = mid) as -> by (rewrite Z.add_comm, Z.div_add, Z.div_small by lia; lia).
    pose proof (Z.div_mod kva (2 ^ 16)) as D1. pose proof (Z.div_mod (kva / 2 ^ 16) (2 ^ 16)) as D2.
    rewrite Z.div_div in D2 by lia. change (2 ^ 16 * 2 ^ 16) with (2 ^ 32) in D2. fold lo in D1. fold mid in D2. lia.
  - rewrite Z.add_comm, Z.div_add, Z.div_small by lia. reflexivity.
  - replace (mid * 2 ^ 16 + f) with (f + mid * 2 ^ 8 * 2 ^ 8) by lia. rewrite Z.div_add by lia.
    replace (mid * 2 ^ 8) with (mid * 2 ^ 3 * 2 ^ 5) by lia. by rewrite Z.mod_add by lia.
  - replace (mid * 2 ^ 16 + f) with (f + mid * 2 ^ 3 * 2 ^ 13) by lia. rewrite Z.div_add by lia.
    replace (mid * 2 ^ 3) with (mid * 2 * 4) by lia. by rewrite Z.mod_add by lia.
  - replace (mid * 2 ^ 16 + f) with (f + mid * 2 * 2 ^ 15) by lia. rewrite Z.div_add by lia. rewrite F3, Z.mod_add by lia. done.
Qed.

Lemma put32_page off x (p : page) : length p = PAGE → (off + 4 ≤ 4096)%nat → length (put32 off x p) = PAGE.
Proof. intros Hp Ho. pose proof PAGE_Z. unfold PGSIZE in *. rewrite put32_length; lia. Qed.

Lemma get32_put32_page off off' x (p : page) : length p = PAGE → (off + 4 ≤ 4096)%nat →
  (off' = off ∨ off' + 4 ≤ off ∨ off + 4 ≤ off')%nat →
  get32 off' (put32 off x p) = if decide (off' = off) then u32 x else get32 off' p.
Proof.
  intros Hp Ho Hd. pose proof PAGE_Z. unfold PGSIZE in *. case_decide as E.
  - subst off'. apply get32_put32. lia.
  - apply get32_put32_other; lia.
Qed.

Lemma gate_mkgate (idt : page) n m kva pl trap : length idt = PAGE → (n < 256)%nat → (m < 256)%nat →
  0 ≤ kva < 2 ^ 64 → 0 ≤ pl < 4 → length (mkgate idt n kva pl trap) = PAGE ∧
  gate_at (mkgate idt n kva pl trap) m = if decide (m = n) then handler kva pl trap else gate_at idt m.
Proof.
  intros Hl Hn Hm Hk Hp. unfold mkgate. cbn [put_words]. rewrite <- !Nat.add_assoc. cbn [Nat.add].
  set (w0 := Z.lor _ (Z.shiftl _ 16)). set (w1 := Z.lor _ (Z.shiftl _ 13)).
  assert (length (put32 (16 * n) w0 idt) = PAGE) as L0 by (apply put32_page; [done|lia]).
  set (p0 := put32 (16 * n) w0 idt) in *. assert (length (put32 (16 * n + 4) w1 p0) = PAGE) as L1 by (apply put32_page; [done|lia]).
  set (p1 := put32 (16 * n + 4) w1 p0) in *.
  assert (length (put32 (16 * n + 8) (Z.shiftr kva 32) p1) = PAGE) as L2 by (apply put32_page; [done|lia]).
  set (p2 := put32 (16 * n + 8) _ p1) in *. split; [apply put32_page; [done|lia]|].
  unfold gate_at. rewrite !(get32_put32_page (16 * n + 12)) by (done || lia).
  subst p2. rewrite !(get32_put32_page (16 * n + 8)) by (done || lia).
  subst p1. rewrite !(get32_put32_page (16 * n + 4)) by (done || lia).
  subst p0. rewrite !(get32_put32_page (16 * n)) by (done || lia).
  destruct (decide (m = n)) as [->|Hne]; repeat (case_decide; try lia); [|done].
  exact (gate_words kva pl trap Hk Hp).
Qed.

(** The table after the loop of [seginit]. *)
Lemma gates_loop (vectors : nat → Z) l (p : page) m : (∀ n, 0 ≤ vectors n < 2 ^ 64) → Forall (λ n, n < 256)%nat l →
  length p = PAGE → (m < 256)%nat →
  let p' := foldl (λ p n, mkgate p n (vectors n) 0 false) p l in
  length p' = PAGE ∧ gate_at p' m = if decide (m ∈ l) then handler (vectors m) 0 false else gate_at p m.
Proof.
  intros Hv Hl Hp Hm. revert p Hp. induction l as [|n l IH]; intros p Hp; cbn [foldl]; [by rewrite decide_False by set_solver|].
  apply Forall_cons in Hl as [Hn Hl]. destruct (gate_mkgate p n m (vectors n) 0 false Hp Hn Hm (Hv n) ltac:(lia)) as [L G].
  destruct (IH Hl _ L) as [L' G']. split; [done|]. rewrite G', G. destruct (decide (m ∈ l)) as [Hi|Hi].
  - by rewrite decide_True by set_solver.
  - destruct (decide (m = n)) as [->|Hne]; [by rewrite decide_True by set_solver|by rewrite decide_False by set_solver].
Qed.

Lemma gates_run (vectors : nat → Z) a l s :
  for_all l (λ n, s ← get; set_page a (mkgate (pages (ks_k s) a) n (vectors n) 0 false)) s =
  Ok tt (set_ksk (writes (ks_k s) ((λ n, (a, λ p, mkgate p n (vectors n) 0 false)) <$> l)) s).
Proof.
  revert s. induction l as [|n l IH]; intros s; cbn [for_all]; [by destruct s|].
  erewrite bind_ok by reflexivity. rewrite IH. reflexivity.
Qed.

Lemma gates_at (vectors : nat → Z) a l k :
  pages (writes k ((λ n, (a, λ p, mkgate p n (vectors n) 0 false)) <$> l)) a =
  foldl (λ p n, mkgate p n (vectors n) 0 false) (pages k a) l.
Proof.
  revert k. induction l as [|n l IH]; intros k; [done|]. cbn [fmap list_fmap writes foldl fst snd]. etrans; [apply IH|].
  cbn [pages set_pages]. by rewrite fn_lookup_insert.
Qed.

(** ** The task state segment *)

(** The base of the segment whose descriptor is at [i] of the table. *)
Definition tss_base (gdt : page) (i : Z) : Z :=
  let lo := get64 (8 * Z.to_nat i) gdt in
  (lo / 2 ^ 16) mod 2 ^ 24 + 2 ^ 24 * (lo / 2 ^ 56) + 2 ^ 32 * get64 (8 * Z.to_nat (i + 1)) gdt.

Lemma tss_desc_sum a : 0 ≤ a → tss_desc a =
  0x67 + a mod 2 ^ 24 * 2 ^ 16 + 0xE9 * 2 ^ 40 + (a / 2 ^ 24) mod 2 ^ 8 * 2 ^ 56.
Proof.
  intros Ha. unfold tss_desc. change 0xFFFFFF with (Z.ones 24). change 0xFF with (Z.ones 8).
  rewrite !Z.land_ones, !Z.shiftl_mul_pow2, !Z.shiftr_div_pow2 by lia.
  pose proof (Z.mod_pos_bound a (2 ^ 24)). pose proof (Z.mod_pos_bound (a / 2 ^ 24) (2 ^ 8)).
  rewrite (Z.lor_comm 0x67), (lor_add _ 0x67 16) by (lia || by apply Z.mod_mul).
  rewrite (Z.lor_comm _ (0xE9 * 2 ^ 40)), (lor_add (0xE9 * 2 ^ 40) _ 40) by (lia || done).
  rewrite Z.lor_comm, (lor_add _ _ 56) by (lia || by apply Z.mod_mul). lia.
Qed.

Lemma put_qwords_page ws : ∀ off (p : page), length p = PAGE → (off + 8 * length ws ≤ 4096)%nat → length (put_qwords off ws p) = PAGE.
Proof.
  induction ws as [|x ws IH]; intros off p Hp Ho; cbn [put_qwords length] in *; [done|]. pose proof PAGE_Z. unfold PGSIZE in *. apply IH; [|lia]. rewrite put64_length; lia.
Qed.

Lemma gdt_base a (p : page) : length p = PAGE → 0 ≤ a < 2 ^ 64 → tss_base (put_qwords 0 (gdt_words a) p) SEG_TSS = a.
Proof.
  intros Hp Ha. set (x := u64 (tss_desc a)). set (h := Z.shiftr a 32).
  set (p5 := put64 (8 * Z.to_nat 5) 0x0000F20000000000 (put64 (8 * Z.to_nat 4) 0x0020F80000000000 (put64 (8 * Z.to_nat 3) 0
    (put64 (8 * Z.to_nat 2) 0x0000920000000000 (put64 (8 * Z.to_nat 1) 0x0020980000000000 (put64 (8 * Z.to_nat 0) 0 p)))))).
  change (put_qwords 0 (gdt_words a) p) with (put64 (8 * Z.to_nat 7) h (put64 (8 * Z.to_nat 6) x p5)).
  assert (length p5 = PAGE) as L5 by (repeat apply put64_page; (done || lia)). unfold tss_base, SEG_TSS. change (6 + 1) with 7.
  rewrite !get64_put64_word by (lia || done || (apply put64_page; [done|lia])). change (6 =? 7) with false. rewrite !Z.eqb_refl.
  unfold x, h. rewrite tss_desc_sum, Z.shiftr_div_pow2 by lia.
  pose proof (Z.mod_pos_bound a (2 ^ 24)) as B0. pose proof (Z.mod_pos_bound (a / 2 ^ 24) (2 ^ 8)) as B1.
  assert (0 ≤ a / 2 ^ 32 < 2 ^ 32) as Hh by (split; [apply Z.div_pos; lia|apply Z.div_lt_upper_bound; lia]).
  rewrite (wrap_small 64 (0x67 + _ + _ + _)), !wrap_small by lia. set (m1 := a mod 2 ^ 24) in *. set (m2 := (a / 2 ^ 24) mod 2 ^ 8) in *.
  assert ((0x67 + m1 * 2 ^ 16 + 0xE9 * 2 ^ 40 + m2 * 2 ^ 56) / 2 ^ 16 = m1 + (0xE9 + m2 * 2 ^ 16) * 2 ^ 24) as ->.
  { replace (_ + _ + _ + _) with (0x67 + (m1 + (0xE9 + m2 * 2 ^ 16) * 2 ^ 24) * 2 ^ 16) by lia. by rewrite Z.div_add by lia. }
  assert ((0x67 + m1 * 2 ^ 16 + 0xE9 * 2 ^ 40 + m2 * 2 ^ 56) / 2 ^ 56 = m2) as ->.
  { rewrite Z.div_add by lia. rewrite Z.div_small by lia. lia. }
  rewrite Z.mod_add, Z.mod_small by lia. pose proof (Z.div_mod a (2 ^ 24)) as D1. pose proof (Z.div_mod (a / 2 ^ 24) (2 ^ 8)) as D2.
  rewrite Z.div_div in D2 by lia. change (2 ^ 24 * 2 ^ 8) with (2 ^ 32) in D2. fold m1 in D1. fold m2 in D2. lia.
Qed.

(** The stack pointer the processor loads when it enters the kernel at level [n]. *)
Definition tss_rsp (tss n : nat) (local : page) : Z :=
  get32 (tss + 4 * (2 * n + 1)) local + 2 ^ 32 * get32 (tss + 4 * (2 * n + 2)) local.

Lemma tss_set_rsp_spec tss n rsp (local : page) : length local = PAGE → (tss + 4 * (2 * n + 3) ≤ 4096)%nat →
  0 ≤ rsp < 2 ^ 64 → tss_rsp tss n (tss_set_rsp tss n rsp local) = rsp.
Proof.
  intros Hl Ho Hr. unfold tss_rsp, tss_set_rsp. rewrite !get32_put32_page by (lia || apply put32_page; (done || lia)).
  repeat (case_decide; try lia). rewrite Z.shiftr_div_pow2 by lia.
  rewrite (wrap_small 32 (rsp / 2 ^ 32)) by (split; [apply Z.div_pos; lia|apply Z.div_lt_upper_bound; lia]).
  unfold wrap. pose proof (Z.div_mod rsp (2 ^ 32)). lia.
Qed.

Section seg.
Context (kend : Z) (Hkend : KERNBASE ≤ kend) (vectors : nat → Z) (Hv : ∀ n, 0 ≤ vectors n < 2 ^ 64).

Lemma make_idt_run s a fr : kinv kend (ks_k s) (a :: fr) → km_free (ks_m s) →
  ∃ k', make_idt vectors s = Ok a (set_ksk k' s) ∧ kinv kend k' fr ∧
    ∀ n, (n < 256)%nat → gate_at (pages k' a) n =
       if decide (n = 64%nat) then handler (vectors n) 3 true else handler (vectors n) 0 false.
Proof.
  intros Hk Hm. pose proof Hk as (_ & Hnd & Hpg & _). apply Forall_cons in Hpg as [(_ & _ & _ & Za) _].
  apply NoDup_cons in Hnd as [Fa _]. unfold make_idt, kalloc_nonnull.
  destruct (kalloc_run kend s _ Hk Hm) as [E Hk1]. cbn [hd tl] in *.
  set (k1 := popped (ks_k s) fr). rewrite (bind_ok _ _ s a (set_ksk (writes k1 []) s)).
  2:{ step E. by rewrite (proj2 (Z.eqb_neq a 0)) by lia. }
  rewrite (bind_ok _ _ _ _ _ (fill_writes _ _ _ _ _)), (bind_ok _ _ _ _ _ (gates_run _ _ _ _)). cbn [app ks_k set_ksk].
  rewrite (bind_ok get _ _ _ _ eq_refl). cbn [ks_k set_ksk]. rewrite gates_at.
  assert (pages (writes k1 [(a, const (replicate PAGE 0))]) a = replicate PAGE 0) as -> by apply fn_lookup_insert.
  assert (length (replicate PAGE 0) = PAGE) as Hz by apply length_replicate.
  assert (Forall (λ n, n < 256)%nat (seq 0 256)) as Hs by (apply Forall_seq; lia).
  set (p1 := foldl _ (replicate PAGE 0) _). assert (length p1 = PAGE) as L1 by (apply (gates_loop vectors (seq 0 256) _ 0 Hv Hs Hz); lia).
  eexists. split; [reflexivity|]. split.
  - apply kinv_write; [|done|by apply (gate_mkgate p1 64 0); try lia].
    rewrite <- writes_app. apply (writes_kinv kend); [done|]. apply Forall_cons. split; [cbn; split; [done|intros; apply Hz]|].
    apply Forall_fmap, (Forall_impl _ _ _ Hs). intros n Hn. cbn [fst snd]. split; [done|]. intros p Hp.
    by apply (gate_mkgate p n 0); try lia.
  - intros n Hn. cbn [ks_k set_ksk pages set_pages]. rewrite fn_lookup_insert.
    destruct (gate_mkgate p1 64 n (vectors 64%nat) 3 true L1) as [_ ->]; [lia|done|done|lia|].
    destruct (gates_loop vectors (seq 0 256) _ n Hv Hs Hz Hn) as [_ G]. unfold p1. rewrite G.
    rewrite (decide_True (P := n ∈ seq 0 256)) by (apply elem_of_seq; lia).
    destruct (decide (n = 64%nat)) as [->|Hne]; reflexivity.
Qed.

Lemma make_local_run s a fr : kinv kend (ks_k s) (a :: fr) → km_free (ks_m s) →
  ∃ k', make_local s = Ok a (set_ksk k' s) ∧ kinv kend k' fr ∧ (∀ p, p ≠ a → pages k' p = pages (ks_k s) p) ∧
    tss_base (pages k' a) SEG_TSS = u64 (a + 1024).
Proof.
  intros Hk Hm. pose proof Hk as (_ & Hnd & Hpg & _). apply Forall_cons in Hpg as [(_ & _ & _ & Za) _].
  apply NoDup_cons in Hnd as [Fa _]. unfold make_local, kalloc_nonnull. destruct (kalloc_run kend s _ Hk Hm) as [E Hk1]. cbn [hd tl] in *.
  erewrite bind_ok by (step E; by rewrite (proj2 (Z.eqb_neq a 0)) by lia).
  exists (writes (popped (ks_k s) fr)
    [(a, const (replicate PAGE 0)); (a, put32 (1024 + 4 * 16) 0x00680000); (a, put_qwords 0 (gdt_words (u64 (a + 1024))))]).
  split; [reflexivity|]. split; [|split].
  - apply (writes_kinv kend); [done|]. repeat (apply Forall_cons; split; [cbn [fst snd]; split; [done|]; intros p Hp|]); [| | |done].
    + apply length_replicate.
    + apply put32_page; [done|lia].
    + apply put_qwords_page; [done|cbn; lia].
  - intros p Hp. cbn [writes foldl pages set_pages]. by rewrite !fn_lookup_insert_ne by done.
  - cbn [writes foldl pages set_pages]. rewrite !fn_lookup_insert. apply gdt_base; [|by apply wrap_range].
    apply put32_page; [apply length_replicate|lia].
Qed.

(** The pages [seginit] takes from the free list. *)
Lemma seginit_run s a b fr : kinv kend (ks_k s) (a :: b :: fr) → km_free (ks_m s) →
  ∃ sg k', seginit vectors s = Ok sg (set_ksk k' s) ∧ kinv kend k' fr ∧ sg_idt sg = a ∧ sg_local sg = b.
Proof.
  intros Hk Hm. destruct (make_idt_run s a (b :: fr) Hk Hm) as (k1 & E1 & Hk1 & _).
  destruct (make_local_run (set_ksk k1 s) b fr Hk1 Hm) as (k2 & E2 & Hk2 & _).
  eexists _, k2. split; [unfold seginit; step E1; by step E2|done].
Qed.

(** C34: [seginit] gives every interrupt vector its handler.  The processor
    finds for each of the 256 vectors a gate to the kernel code at that
    handler; user code can raise the system call vector 64 with an [int]
    instruction and no other, and the task register points to the task state
    segment of the CPU. *)
Theorem seginit_gates s free : kinv kend (ks_k s) free → (2 ≤ length free)%nat → km_free (ks_m s) →
  ∃ sg s', seginit vectors s = Ok sg s' ∧
    (∀ n, (n < 256)%nat → gate_at (pages (ks_k s') (sg_idt sg)) n =
       if decide (n = 64%nat) then handler (vectors n) 3 true else handler (vectors n) 0 false) ∧
    tss_base (pages (ks_k s') (sg_local sg)) (sg_tr sg / 8) = u64 (sg_local sg + 1024).
Proof.
  intros Hk Hlen Hm. destruct free as [|a [|b fr]]; cbn in Hlen; try lia. pose proof Hk as (_ & Hnd & _).
  rewrite !NoDup_cons, !not_elem_of_cons in Hnd. destruct Hnd as ((Hab & _) & _).
  destruct (make_idt_run s a (b :: fr) Hk Hm) as (k1 & E1 & Hk1 & Hg).
  destruct (make_local_run (set_ksk k1 s) b fr Hk1 Hm) as (k2 & E2 & _ & Hs & Ht).
  eexists _, (set_ksk k2 (set_ksk k1 s)). split; [unfold seginit; step E1; by step E2|]. cbn [sg_idt sg_local sg_tr ks_k set_ksk]. split.
  - intros n Hn. rewrite (Hs a Hab). by apply Hg.
  - exact Ht.
Qed.
End seg.

(** ** A small memory *)

(** Ten pages after the kernel. *)
Lemma ex_memory : ∃ s free, kinit1 ex_kend ex_kend (ex_kend + 0xA000) ex_kst = Ok tt s ∧
  kinv ex_kend (ks_k s) free ∧ (8 ≤ length free)%nat ∧ km_free (ks_m s).
Proof.
  destruct (kinit1_run ex_kend ex_kst ex_kend (ex_kend + 0xA000)) as (s & E & Hk & Hm & _);
    [unfold ex_kend, KERNBASE, PHYSTOP; lia..|apply ex_mok|reflexivity|intros; apply length_replicate|].
  exists s, (reverse (page_range ex_kend (ex_kend + 0xA000))). split; [exact E|]. split; [exact Hk|]. split; [|exact Hm].
  apply Nat.leb_le. vm_compute. reflexivity.
Qed.

Lemma kernel_mapped_witness : ∃ s kv s1, kvmalloc s = Ok kv s1 ∧
  ∃ s2, hw (pages (ks_k s2)) (switchkvm kv) (KERNBASE + 0x12345) = Some (0x12345, false).
Proof.
  destruct ex_memory as (s & free & _ & Hk & Hl & Hm).
  destruct (kernel_mapped ex_kend ltac:(unfold ex_kend, KERNBASE; lia) s free Hk Hl Hm) as (kv & s1 & pgdir & s2 & cr3 & E1 & _ & _ & H).
  exists s, kv, s1. split; [exact E1|]. exists s2. destruct (H (switchkvm kv) (or_introl eq_refl)) as [Hx _]. apply Hx. lia.
Defined.

Lemma seginit_gates_witness : ∃ s sg s', seginit (λ n, u64 (KERNBASE + Z.of_nat (16 * n))) s = Ok sg s' ∧
  gate_at (pages (ks_k s') (sg_idt sg)) 64 = handler (KERNBASE + 1024) 3 true.
Proof.
  destruct ex_memory as (s & free & _ & Hk & Hl & Hm).
  set (v := λ n, u64 (KERNBASE + Z.of_nat (16 * n))).
  destruct (seginit_gates ex_kend v ltac:(intros; by apply wrap_range) s free Hk ltac:(lia) Hm) as (sg & s' & E & H & _).
  exists s, sg, s'. split; [exact E|]. rewrite (H 64%nat) by lia. reflexivity.
Defined.
