(* ===== verification/Mp.v ===== *)
(** * Finding the processors (kernel/mp.c)

    The firmware leaves tables in memory that describe the processors.  The
    memory [fw] is a function from kernel addresses to bytes, which this code
    only reads; the state holds the globals of mp.c and the ports written.

    [mpinit_reads] shows that [mpinit] recovers the processors, the I/O APIC
    and the boot processor from the bytes of a configuration table. *)

From S2P Require Import Prelude Bytes Kalloc Kvm.
From Stdlib Require Import Sorting.Sorted.

Module Mp.

Definition NCPU : nat := 8.
Definition MPPROC : Z := 0.
Definition MPBUS : Z := 1.
Definition MPIOAPIC : Z := 2.
Definition MPIOINTR : Z := 3.
Definition MPLINTR : Z := 4.
Definition MPBOOT : Z := 2.

Record mpcpu := mkMpcpu { cpu_id : Z; cpu_apicid : Z }.

Record mpst := mkMpst {
  mcpus : list mpcpu;
  bcpu : Z;
  ismp : Z;
  ncpu : Z;
  ioapicid : Z;
  lapic : Z;
  outs : list (Z * Z)
}.

Definition set_mcpus (x : list mpcpu) (s : mpst) : mpst := mkMpst x (bcpu s) (ismp s) (ncpu s) (ioapicid s) (lapic s) (outs s).
Definition set_bcpu (x : Z) (s : mpst) : mpst := mkMpst (mcpus s) x (ismp s) (ncpu s) (ioapicid s) (lapic s) (outs s).
Definition set_ismp (x : Z) (s : mpst) : mpst := mkMpst (mcpus s) (bcpu s) x (ncpu s) (ioapicid s) (lapic s) (outs s).
Definition set_ncpu (x : Z) (s : mpst) : mpst := mkMpst (mcpus s) (bcpu s) (ismp s) x (ioapicid s) (lapic s) (outs s).
Definition set_ioapicid (x : Z) (s : mpst) : mpst := mkMpst (mcpus s) (bcpu s) (ismp s) (ncpu s) x (lapic s) (outs s).
Definition set_lapic (x : Z) (s : mpst) : mpst := mkMpst (mcpus s) (bcpu s) (ismp s) (ncpu s) (ioapicid s) x (outs s).
Definition outb (port v : Z) : M mpst unit :=
  modify (λ s, mkMpst (mcpus s) (bcpu s) (ismp s) (ncpu s) (ioapicid s) (lapic s) (outs s ++ [(port, u8 v)])).

(** The variables before [mpinit]. *)
Definition mp_zero : mpst := mkMpst (replicate NCPU (mkMpcpu 0 0)) 0 0 0 0 0 [].

Section code.
Context (fw : Z → Z).

(** Bytes and little-endian fields of memory. *)
Definition mread (a : Z) (n : nat) : list Z := (λ i, fw (a + Z.of_nat i)) <$> seq 0 n.
Definition rd16 (a : Z) : Z := le_val (mread a 2).
Definition rd32 (a : Z) : Z := le_val (mread a 4).

Definition sum (addr len : Z) : Z := u8 (foldr Z.add 0 (mread addr (Z.to_nat len))).

Definition is_mp (p : Z) : bool :=
  bool_decide (mread p 4 = [95; 77; 80; 95]) && (sum p 16 =? 0).

Definition mpsearch1 (a len : Z) : option Z :=
  head (filter (λ p, is_mp p = true) ((λ i, p2v a + 16 * i) <$> seqZ 0 ((len + 15) / 16))).

Definition mpsearch : option Z :=
  let bda := p2v 0x400 in
  let p := Z.shiftl (Z.lor (Z.shiftl (fw (bda + 0x0F)) 8) (fw (bda + 0x0E))) 4 in
  let r :=
    if negb (p =? 0) then mpsearch1 p 1024
    else
      let p := Z.lor (Z.shiftl (fw (bda + 0x14)) 8) (fw (bda + 0x13)) * 1024 in
      mpsearch1 (u32 (p - 1024)) 1024 in
  match r with
  | Some mp => Some mp
  | None => mpsearch1 0xF0000 0x10000
  end.

(** Fields of a [struct mp] and of a [struct mpconf]. *)
Definition physaddr (mp : Z) : Z := rd32 (mp + 4).
Definition imcrp (mp : Z) : Z := fw (mp + 12).
Definition conf_length (conf : Z) : Z := rd16 (conf + 4).
Definition conf_version (conf : Z) : Z := fw (conf + 6).
Definition conf_lapicaddr (conf : Z) : Z := rd32 (conf + 36).

Definition mpconfig : option (Z * Z) :=
  match mpsearch with
  | None => None
  | Some mp =>
      if physaddr mp =? 0 then None else
      let conf := p2v (physaddr mp) in
      if negb (bool_decide (mread conf 4 = [80; 67; 77; 80])) then None else
      if negb (conf_version conf =? 1) && negb (conf_version conf =? 4) then None else
      if negb (sum conf (conf_length conf) =? 0) then None else
      Some (mp, conf)
  end.

(** One turn of the loop over the entries.  An entry of an unknown type does
    not move [p]; [MPIOINTR] falls through to [MPLINTR]. *)
Definition mp_turn (e p : Z) : M mpst (Z + unit) :=
  if negb (p <? e) then ret (inr tt) else
  let t := fw p in
  if t =? MPPROC then
    s ← get;
    whenM (negb (Z.land (fw (p + 3)) MPBOOT =? 0)) (modify (set_bcpu (ncpu s))) ;;;
    need (mcpus s !! Z.to_nat (ncpu s)) ;;;
    modify (λ s, set_mcpus (<[Z.to_nat (ncpu s) := mkMpcpu (ncpu s) (fw (p + 1))]> (mcpus s)) s) ;;;
    modify (λ s, set_ncpu (ncpu s + 1) s) ;;;
    ret (inl (p + 20))
  else if t =? MPIOAPIC then modify (set_ioapicid (fw (p + 1))) ;;; ret (inl (p + 8))
  else if t =? MPBUS then ret (inl (p + 8))
  else if t =? MPIOINTR then ret (inl (p + 8 + 8))
  else if t =? MPLINTR then ret (inl (p + 8))
  else modify (set_ismp 0) ;;; ret (inl p).

(** [in23] is what port 0x23 reads. *)
Definition mpinit (in23 : Z) : M mpst unit :=
  modify (set_bcpu 0) ;;;
  match mpconfig with
  | None => ret tt
  | Some (mp, conf) =>
      modify (set_ismp 1) ;;;
      modify (set_lapic (IO2V (conf_lapicaddr conf))) ;;;
      loopM (S (Z.to_nat (conf_length conf))) (mp_turn (conf + conf_length conf)) (conf + 44) ;;;
      s ← get;
      if ismp s =? 0 then
        modify (set_ncpu 1) ;;; modify (set_lapic 0) ;;; modify (set_ioapicid 0)
      else
        whenM (negb (imcrp mp =? 0)) (outb 0x22 0x70 ;;; outb 0x23 (Z.lor in23 1))
  end.
End code.

Definition mpbcpu (s : mpst) : Z := bcpu s.

(** ** Configuration tables *)

(** The entries of a table, with the fields the code does not read as bytes. *)
Inductive entry :=
  | EProc (apicid version flags : Z) (rest : list Z)
  | EBus (rest : list Z)
  | EIoapic (apicno : Z) (rest : list Z)
  | EIointr (rest : list Z)
  | ELintr (rest : list Z).

Definition enc (e : entry) : list Z :=
  match e with
  | EProc a v f r => [MPPROC; a; v; f] ++ r
  | EBus r => MPBUS :: r
  | EIoapic a r => MPIOAPIC :: a :: r
  | EIointr r => MPIOINTR :: r
  | ELintr r => MPLINTR :: r
  end.

Definition wf_entry (e : entry) : Prop :=
  match e with
  | EProc _ _ _ r => length r = 16%nat
  | EIoapic _ r => length r = 6%nat
  | EBus r | EIointr r | ELintr r => length r = 7%nat
  end.

Definition is_intr (e : entry) : bool := match e with EIointr _ | ELintr _ => true | _ => false end.

(** The APIC id and the flags of each processor, and the ids of the I/O APICs. *)
Definition procs (es : list entry) : list (Z * Z) :=
  omap (λ e, match e with EProc a _ f _ => Some (a, f) | _ => None end) es.
Definition ioapics (es : list entry) : list Z :=
  omap (λ e, match e with EIoapic a _ => Some a | _ => None end) es.

(** The bytes of a table.  [pre] and [post] hold the fields of the header the
    code does not read. *)
Definition conf_bytes (cksum version lapicaddr : Z) (pre post : list Z) (es : list entry) : list Z :=
  let body := concat (enc <$> es) in
  [80; 67; 77; 80] ++ le_bytes 2 (44 + Z.of_nat (length body)) ++ [version; cksum] ++ pre ++ le_bytes 4 lapicaddr ++
  post ++ body.

Section spec.
Context (fw : Z → Z).
Implicit Types (s : mpst) (es : list entry) (l : list Z).

Definition holds (a : Z) l : Prop := ∀ (i : nat) x, l !! i = Some x → fw (a + Z.of_nat i) = x.

Lemma holds_app a l1 l2 : holds a (l1 ++ l2) ↔ holds a l1 ∧ holds (a + Z.of_nat (length l1)) l2.
Proof.
  split.
  - intros H. split; intros i x Hi.
    + apply H. by apply lookup_app_l_Some.
    + rewrite <- Z.add_assoc, <- Nat2Z.inj_add. apply H. by rewrite lookup_app_r, Nat.add_comm, Nat.add_sub by lia.
  - intros [H1 H2] i x [Hi|[Hl Hi]]%lookup_app_Some; [by apply H1|].
    rewrite <- (H2 _ _ Hi). f_equal. lia.
Qed.

Lemma mread_holds a l : holds a l → mread fw a (length l) = l.
Proof.
  intros H. apply list_eq. intros i. unfold mread. rewrite list_lookup_fmap.
  destruct (l !! i) as [x|] eqn:E.
  - rewrite lookup_seq_lt by (by apply lookup_lt_Some in E). cbn. by rewrite (H _ _ E).
  - by rewrite lookup_seq_ge by (by apply lookup_ge_None in E).
Qed.

Lemma holds_mread a l : mread fw a (length l) = l → holds a l.
Proof.
  intros H i x Hi. rewrite <- H in Hi. unfold mread in Hi. rewrite list_lookup_fmap in Hi.
  destruct (seq 0 (length l) !! i) as [k|] eqn:E; [|done]. apply lookup_seq in E as [-> _]. by injection Hi.
Qed.

(** ** The loop over the entries *)

(** What an entry adds to the state. *)
Definition note s (e : entry) : mpst :=
  match e with
  | EProc a _ f _ =>
      mkMpst (<[Z.to_nat (ncpu s) := mkMpcpu (ncpu s) a]> (mcpus s))
        (if Z.land f MPBOOT =? 0 then bcpu s else ncpu s) (ismp s) (ncpu s + 1) (ioapicid s) (lapic s) (outs s)
  | EIoapic a _ => set_ioapicid a s
  | _ => s
  end.

Lemma enc_length e : wf_entry e → length (enc e) = match e with EProc _ _ _ _ => 20%nat | _ => 8%nat end.
Proof. destruct e; cbn; lia. Qed.

Lemma turn_early e p ent s : holds p (enc ent) → is_intr ent = false → wf_entry ent → p < e →
  0 ≤ ncpu s → (Z.to_nat (ncpu s) < length (mcpus s))%nat ∨ procs [ent] = [] →
  mp_turn fw e p s = Ok (inl (p + Z.of_nat (length (enc ent)))) (note s ent).
Proof.
  intros H Hi Hw Hp Hn Hr. unfold mp_turn. rewrite (proj2 (Z.ltb_lt p e)) by done. cbn [negb].
  rewrite enc_length by done. pose proof (H 0%nat) as H0. rewrite Z.add_0_r in H0.
  destruct ent as [a v f r|r|a r|r|r]; try done; rewrite (H0 _ eq_refl); cbn [Z.eqb MPPROC MPBUS MPIOAPIC].
  - pose proof (H 1%nat _ eq_refl) as H1. pose proof (H 3%nat _ eq_refl) as H3. change (Z.of_nat 1) with 1 in H1. change (Z.of_nat 3) with 3 in H3. rewrite H1, H3.
    destruct Hr as [Hr|]; [|done]. destruct (lookup_lt_is_Some_2 _ _ Hr) as [c Hc]. go. rewrite Hc.
    cbn [note]. by destruct (Z.land f MPBOOT =? 0).
  - done.
  - by rewrite (H 1%nat _ eq_refl : fw (p + 1) = a).
Qed.

Lemma loop_early es : ∀ e p fuel s, holds p (concat (enc <$> es)) → Forall wf_entry es →
  Forall (λ x, is_intr x = false) es → p + Z.of_nat (length (concat (enc <$> es))) ≤ e →
  0 ≤ ncpu s → (Z.to_nat (ncpu s) + length (procs es) ≤ length (mcpus s))%nat →
  loopM (length es + fuel) (mp_turn fw e) p s =
    loopM fuel (mp_turn fw e) (p + Z.of_nat (length (concat (enc <$> es)))) (foldl note s es).
Proof.
  induction es as [|ent es IH]; intros e p fuel s H Hw Hi He Hn Hc; [by rewrite Z.add_0_r|].
  apply Forall_cons in Hw as [W Hw], Hi as [I Hi]. cbn [fmap list_fmap concat] in *.
  apply holds_app in H as [H H']. rewrite length_app in *. cbn [length Nat.add loopM foldl].
  pose proof (enc_length ent W) as El.
  rewrite (bind_ok _ _ _ _ _ (turn_early e p ent s H I W ltac:(destruct ent; lia) Hn
    ltac:(destruct ent; cbn in *; [left; lia|right; done..]))). cbn beta iota.
  rewrite IH; [f_equal; lia|done|done|done|lia|destruct ent; cbn; lia|].
  destruct ent; cbn in *; fold (procs es) in Hc; rewrite ?length_insert; lia.
Qed.

(** Interrupt entries have all the same size, so skipping one by the fall
    through leaves [p] on an entry or at the end. *)
Lemma loop_late n : ∀ e p fuel s, (n < fuel)%nat → e ≤ p + 8 * Z.of_nat n →
  (∀ i, (i < n)%nat → fw (p + 8 * Z.of_nat i) = MPIOINTR ∨ fw (p + 8 * Z.of_nat i) = MPLINTR) →
  loopM fuel (mp_turn fw e) p s = Ok tt s.
Proof.
  induction (lt_wf n) as [n _ IH]. intros e p fuel s Hf He H. destruct fuel as [|fuel]; [lia|]. cbn [loopM].
  destruct (Z.ltb_spec p e) as [L|L]; unfold mp_turn at 1.
  2:{ by rewrite (proj2 (Z.ltb_ge p e)). }
  rewrite (proj2 (Z.ltb_lt p e)) by done. cbn [negb]. destruct n as [|n]; [lia|].
  assert (∀ j m : nat, (0 < j)%nat → (m < S n)%nat → (S n ≤ m + j)%nat → (m = 0 ∨ m + j = S n)%nat →
    loopM fuel (mp_turn fw e) (p + 8 * Z.of_nat j) s = Ok tt s) as Next.
  { intros j m Hj Hm Hs Hb. apply (IH m); [lia|lia|lia|]. intros i Hi.
    destruct (H (j + i)%nat) as [E|E]; [lia|left|right]; rewrite <- E; f_equal; lia. }
  specialize (H 0%nat ltac:(lia)). rewrite Z.add_0_r in H. destruct H as [-> | ->]; go; cbn [Z.eqb MPPROC MPIOAPIC MPBUS MPIOINTR MPLINTR].
  - rewrite <- Z.add_assoc. apply (Next 2%nat (n - 1)%nat); lia.
  - apply (Next 1%nat n); lia.
Qed.

Definition is_boot (p : Z * Z) : bool := negb (Z.land p.2 MPBOOT =? 0).

Lemma note_shape es : ∀ s, let s' := foldl note s es in
  ncpu s' = ncpu s + Z.of_nat (length (procs es)) ∧ ioapicid s' = default (ioapicid s) (last (ioapics es)) ∧
  ismp s' = ismp s ∧ lapic s' = lapic s ∧ outs s' = outs s ∧ length (mcpus s') = length (mcpus s).
Proof.
  induction es as [|e es IH]; intros s; cbn zeta; [cbn; split_and!; (done || lia)|]. cbn [foldl].
  destruct (IH (note s e)) as (-> & -> & -> & -> & -> & ->).
  destruct e; cbn; rewrite ?length_insert; fold (procs es) (ioapics es); split_and!; try done; try lia.
  destruct (last (ioapics es)) eqn:E; rewrite last_cons, E; done.
Qed.

Lemma note_cpus es : ∀ s, 0 ≤ ncpu s → (Z.to_nat (ncpu s) + length (procs es) ≤ length (mcpus s))%nat →
  (∀ k, (k < Z.to_nat (ncpu s))%nat → mcpus (foldl note s es) !! k = mcpus s !! k) ∧
  (∀ k a f, procs es !! k = Some (a, f) →
     mcpus (foldl note s es) !! (Z.to_nat (ncpu s) + k)%nat = Some (mkMpcpu (ncpu s + Z.of_nat k) a)).
Proof.
  induction es as [|e es IH]; intros s Hn Hl; [done|]. cbn [foldl].
  destruct (IH (note s e)) as [I1 I2]; [destruct e; cbn; lia| |].
  { destruct e; cbn in *; fold (procs es) in Hl; rewrite ?length_insert; lia. }
  destruct e as [a v f r|r|a r|r|r]; try (split; [exact I1|exact I2]).
  cbn [note ncpu mcpus] in I1, I2. replace (Z.to_nat (ncpu s + 1)) with (S (Z.to_nat (ncpu s))) in I1, I2 by lia.
  split.
  - intros k Hk. rewrite I1 by lia. by rewrite list_lookup_insert_ne by lia.
  - intros [|k] a' f' Hk; cbn in Hk.
    + injection Hk as <- <-. rewrite Nat.add_0_r, Z.add_0_r, I1 by lia. apply list_lookup_insert_eq. cbn in Hl. lia.
    + replace (Z.to_nat (ncpu s) + S k)%nat with (S (Z.to_nat (ncpu s)) + k)%nat by lia. etrans; [exact (I2 k _ _ Hk)|]. do 2 f_equal. lia.
Qed.

Lemma note_boot es : ∀ s,
  (Forall (λ p, is_boot p = false) (procs es) → bcpu (foldl note s es) = bcpu s) ∧
  (∀ k p, procs es !! k = Some p → is_boot p = true → (∀ j q, procs es !! j = Some q → (k < j)%nat → is_boot q = false) →
     bcpu (foldl note s es) = ncpu s + Z.of_nat k).
Proof.
  induction es as [|e es IH]; intros s; [done|]. cbn [foldl]. destruct (IH (note s e)) as [I1 I2].
  destruct e as [a v f r|r|a r|r|r]; try (split; [exact I1|exact I2]). split.
  - intros [Hb Hf]%Forall_cons. rewrite (I1 Hf). unfold is_boot in Hb. cbn in *. by destruct (Z.land f MPBOOT =? 0).
  - intros [|k] p Hp Hb Hl; cbn in Hp.
    + injection Hp as <-. rewrite I1.
      * unfold is_boot in Hb. cbn in *. destruct (Z.land f MPBOOT =? 0); [done|lia].
      * apply Forall_lookup. intros j q Hq. apply (Hl (S j) q Hq). lia.
    + rewrite (I2 k p Hp Hb); [cbn; lia|]. intros j q Hq Hj. apply (Hl (S j) q Hq). lia.
Qed.

(** ** Whole tables *)

Definition ty (e : entry) : Z :=
  match e with EProc _ _ _ _ => MPPROC | EBus _ => MPBUS | EIoapic _ _ => MPIOAPIC | EIointr _ => MPIOINTR | ELintr _ => MPLINTR end.

(** The firmware describes the processors by the entries [es], in the order
    of their types, as the MultiProcessor Specification asks. *)
Record firmware (mp pa ck ver la : Z) (pre post : list Z) (es : list entry) : Prop := mkFirmware {
  f_search : mpsearch fw = Some mp;
  f_phys : physaddr fw mp = pa;
  f_pa : pa ≠ 0;
  f_table : holds (p2v pa) (conf_bytes ck ver la pre post es);
  f_ver : ver = 1 ∨ ver = 4;
  f_sum : u8 (foldr Z.add 0 (conf_bytes ck ver la pre post es)) = 0;
  f_pre : length pre = 28%nat;
  f_post : length post = 4%nat;
  f_len : 44 + Z.of_nat (length (concat (enc <$> es))) < 2 ^ 16;
  f_la : 0 ≤ la < 2 ^ 32;
  f_wf : Forall wf_entry es;
  f_order : StronglySorted (λ a b, ty a ≤ ty b) es;
  f_ncpu : (length (procs es) ≤ NCPU)%nat
}.

Lemma entries_split es : StronglySorted (λ a b, ty a ≤ ty b) es →
  ∃ es1 es2, es = es1 ++ es2 ∧ Forall (λ e, is_intr e = false) es1 ∧ Forall (λ e, is_intr e = true) es2.
Proof.
  induction 1 as [|e es _ (es1 & es2 & -> & H1 & H2) He]; [by exists [], []|].
  destruct (is_intr e) eqn:E.
  - exists [], (e :: es1 ++ es2). split; [done|]. split; [done|]. constructor; [done|].
    eapply Forall_impl; [exact He|]. intros x Hx. cbn in Hx. by destruct e, x.
  - exists (e :: es1), es2. auto.
Qed.

Lemma intr_procs es : Forall (λ e, is_intr e = true) es → procs es = [] ∧ ioapics es = [].
Proof. induction 1 as [|e es He _ [IH1 IH2]]; [done|]. destruct e; try done; by split. Qed.

Lemma intr_at es : ∀ p, Forall (λ e, is_intr e = true) es → Forall wf_entry es → holds p (concat (enc <$> es)) →
  ∀ i, (i < length es)%nat → fw (p + 8 * Z.of_nat i) = MPIOINTR ∨ fw (p + 8 * Z.of_nat i) = MPLINTR.
Proof.
  induction es as [|e es IH]; intros p Hi Hw Hh i Hl; cbn in Hl; [lia|].
  apply Forall_cons in Hi as [E Hi], Hw as [W Hw]. cbn [fmap list_fmap concat] in Hh. apply holds_app in Hh as [H1 H2].
  rewrite enc_length in H2 by done. destruct i as [|i].
  - destruct e; try done; specialize (H1 0%nat _ eq_refl); [left|right]; rewrite <- H1; f_equal; lia.
  - replace (p + 8 * Z.of_nat (S i)) with (p + 8 + 8 * Z.of_nat i) by lia. apply (IH (p + 8)); [done|done| |lia].
    by destruct e.
Qed.

Lemma intr_length es : Forall (λ e, is_intr e = true) es → Forall wf_entry es →
  length (concat (enc <$> es)) = (8 * length es)%nat.
Proof.
  induction 1 as [|e es He _ IH]; intros Hw; [done|]. apply Forall_cons in Hw as [W Hw].
  cbn [fmap list_fmap concat length]. rewrite length_app, enc_length, IH by done. destruct e; (done || lia).
Qed.

Lemma entries_length es : Forall wf_entry es → (length es ≤ length (concat (enc <$> es)))%nat.
Proof.
  induction 1 as [|e es W _ IH]; [done|]. cbn [fmap list_fmap concat length]. rewrite length_app, enc_length by done.
  destruct e; lia.
Qed.

(** The loop ends with what the entries say. *)
Lemma loop_entries es e p fuel s : holds p (concat (enc <$> es)) → Forall wf_entry es →
  StronglySorted (λ a b, ty a ≤ ty b) es → e = p + Z.of_nat (length (concat (enc <$> es))) →
  0 ≤ ncpu s → (Z.to_nat (ncpu s) + length (procs es) ≤ length (mcpus s))%nat → (length es < fuel)%nat →
  ∃ es1, loopM fuel (mp_turn fw e) p s = Ok tt (foldl note s es1) ∧ procs es1 = procs es ∧ ioapics es1 = ioapics es.
Proof.
  intros Hh Hw Hs He Hn Hc Hf. destruct (entries_split es Hs) as (es1 & es2 & -> & H1 & H2). exists es1.
  apply Forall_app in Hw as [W1 W2]. rewrite fmap_app, concat_app in *. apply holds_app in Hh as [A1 A2].
  destruct (intr_procs es2 H2) as [P2 Q2]. rewrite length_app in *. unfold procs, ioapics in *. rewrite !omap_app in *.
  fold (procs es1) (procs es2) (ioapics es1) (ioapics es2) in *. rewrite P2, Q2, !app_nil_r in *.
  split; [|done]. replace fuel with (length es1 + (fuel - length es1))%nat by lia.
  rewrite loop_early by (done || lia). apply (loop_late (length es2)); [lia| |by apply intr_at].
  rewrite (intr_length es2) in He by done. lia.
Qed.

Lemma config_found mp pa ck ver la pre post es : firmware mp pa ck ver la pre post es →
  mpconfig fw = Some (mp, p2v pa) ∧ conf_lapicaddr fw (p2v pa) = la ∧
  conf_length fw (p2v pa) = 44 + Z.of_nat (length (concat (enc <$> es))) ∧
  holds (p2v pa + 44) (concat (enc <$> es)).
Proof.
  intros [Fs Fp Fn Ft Fv Fk Fpre Fpost Fl Fla _ _ _]. set (conf := p2v pa) in *. set (len := 44 + _) in *.
  assert (length (conf_bytes ck ver la pre post es) = Z.to_nat len) as El.
  { unfold conf_bytes. rewrite !length_app, !le_bytes_length, Fpre, Fpost. cbn [length]. lia. }
  pose proof (mread_holds _ _ Ft) as Fm. rewrite El in Fm. unfold conf_bytes in Ft. cbn zeta in Ft.
  apply holds_app in Ft as [T1 Ft]. apply holds_app in Ft as [T2 Ft]. apply holds_app in Ft as [T3 Ft].
  apply holds_app in Ft as [_ Ft]. apply holds_app in Ft as [T4 Ft]. apply holds_app in Ft as [_ Ft].
  rewrite !le_bytes_length, Fpre, ?Fpost in *. cbn [length] in *. rewrite <- !Z.add_assoc in *.
  pose proof (mread_holds _ _ T1) as M1. pose proof (mread_holds _ _ T2) as M2. pose proof (mread_holds _ _ T4) as M4.
  rewrite le_bytes_length in M2, M4. pose proof (T3 0%nat _ eq_refl) as M3. rewrite <- Z.add_assoc in M3.
  assert (conf_length fw conf = len) as Cl.
  { unfold conf_length, rd16. rewrite (M2 : mread fw (conf + 4) 2 = _), le_val_bytes. apply Z.mod_small. lia. }
  assert (conf_version fw conf = ver) as Cv by exact M3.
  split; [|split; [|done]].
  - unfold mpconfig. rewrite Fs, Fp. rewrite (proj2 (Z.eqb_neq _ _) Fn). fold conf.
    rewrite (M1 : mread fw conf 4 = _), Cl, Cv. unfold sum. rewrite Fm, Fk.
    by destruct Fv as [-> | ->].
  - unfold conf_lapicaddr, rd32. rewrite (M4 : mread fw (conf + 36) 4 = _), le_val_bytes. apply Z.mod_small. lia.
Qed.

Lemma mpinit_run in23 mp pa ck ver la pre post es : firmware mp pa ck ver la pre post es →
  ∃ s, mpinit fw in23 mp_zero = Ok tt s ∧ ismp s = 1 ∧ lapic s = IO2V la ∧
    ncpu s = Z.of_nat (length (procs es)) ∧ ioapicid s = default 0 (last (ioapics es)) ∧
    (∀ k a f, procs es !! k = Some (a, f) → mcpus s !! k = Some (mkMpcpu (Z.of_nat k) a)) ∧
    (∀ k p, procs es !! k = Some p → is_boot p = true →
       (∀ j q, procs es !! j = Some q → (k < j)%nat → is_boot q = false) → mpbcpu s = Z.of_nat k) ∧
    outs s = if imcrp fw mp =? 0 then [] else [(0x22, 0x70); (0x23, u8 (Z.lor in23 1))].
Proof.
  intros F. destruct (config_found _ _ _ _ _ _ _ _ F) as (C1 & C2 & C3 & C4).
  destruct F as [_ _ _ _ _ _ _ _ _ _ Fw Fo Fc].
  set (s1 := set_lapic (IO2V la) (set_ismp 1 (set_bcpu 0 mp_zero))).
  destruct (loop_entries es (p2v pa + conf_length fw (p2v pa)) (p2v pa + 44) (S (Z.to_nat (conf_length fw (p2v pa)))) s1)
    as (es1 & E & P & Q); [done|done|done|lia|done|done| |].
  { pose proof (entries_length es Fw). lia. }
  destruct (note_shape es1 s1) as (N1 & N2 & N3 & N4 & N5 & _). destruct (note_cpus es1 s1) as [_ N6]; [done|by rewrite P|].
  destruct (note_boot es1 s1) as [_ N7]. rewrite P in *. rewrite Q in N2.
  unfold mpinit. rewrite (bind_ok (modify (set_bcpu 0)) _ _ _ _ eq_refl), C1.
  rewrite (bind_ok (modify (set_ismp 1)) _ _ _ _ eq_refl), (bind_ok (modify (set_lapic _)) _ _ _ _ eq_refl), C2.
  fold s1. step E. rewrite (bind_ok get _ _ _ _ eq_refl), N3. cbn [ismp s1 set_lapic set_ismp Z.eqb].
  set (s2 := foldl note s1 es1) in *.
  exists (if imcrp fw mp =? 0 then s2 else mkMpst (mcpus s2) (bcpu s2) (ismp s2) (ncpu s2) (ioapicid s2) (lapic s2)
    ((outs s2 ++ [(0x22, u8 0x70)]) ++ [(0x23, u8 (Z.lor in23 1))])).
  destruct (imcrp fw mp =? 0); (split; [done|]); split_and!; try done; try (cbn; congruence).
  cbn [outs]. by rewrite N5.
Qed.

(** C29: [mpinit] recovers from the bytes of the configuration table, to which
    the structure found by [mpsearch] points, what its entries say: every processor with its number
    and APIC id, in the order of the table, the last one marked as the boot
    processor, the last I/O APIC, the address of the local APIC, and it
    switches the interrupt mode exactly if the floating structure asks for it.
    The entries are in the order of their types, as the specification asks. *)
Theorem mpinit_reads in23 mp pa ck ver la pre post es : firmware mp pa ck ver la pre post es →
  ∃ s, mpinit fw in23 mp_zero = Ok tt s ∧ ismp s = 1 ∧ lapic s = IO2V la ∧
    ncpu s = Z.of_nat (length (procs es)) ∧ ioapicid s = default 0 (last (ioapics es)) ∧
    (∀ k a f, procs es !! k = Some (a, f) → mcpus s !! k = Some (mkMpcpu (Z.of_nat k) a)) ∧
    (∀ k p, procs es !! k = Some p → is_boot p = true →
       (∀ j q, procs es !! j = Some q → (k < j)%nat → is_boot q = false) → mpbcpu s = Z.of_nat k) ∧
    outs s = if imcrp fw mp =? 0 then [] else [(0x22, 0x70); (0x23, u8 (Z.lor in23 1))].
Proof. apply mpinit_run. Qed.

(** At an entry of an unknown type the loop never ends: the fall back to one
    processor behind it is not reached. *)
Theorem mp_unknown_hangs e p fuel s : p < e → 4 < fw p →
  ∃ s', loopM fuel (mp_turn fw e) p s = Stop NoFuel s'.
Proof.
  intros Hp Ht. revert s. induction fuel as [|n IH]; intros s; [by eexists|]. cbn [loopM].
  assert (mp_turn fw e p s = Ok (inl p) (set_ismp 0 s)) as E; [|step E; apply IH].
  unfold mp_turn. rewrite (proj2 (Z.ltb_lt p e)) by done. unfold MPPROC, MPIOAPIC, MPBUS, MPIOINTR, MPLINTR.
  by repeat rewrite (proj2 (Z.eqb_neq (fw p) _)) by lia.
Qed.

(** An interrupt entry takes the eight bytes behind it with it, whatever they are. *)
Theorem mp_iointr_swallows e p s : p < e → fw p = MPIOINTR → mp_turn fw e p s = Ok (inl (p + 16)) s.
Proof.
  intros Hp Ht. unfold mp_turn. rewrite (proj2 (Z.ltb_lt p e)), Ht, <- Z.add_assoc by done. done.
Qed.

(** The ninth processor is stored behind the end of [cpus]. *)
Theorem mp_overflows e p s : p < e → fw p = MPPROC → length (mcpus s) = NCPU → ncpu s = Z.of_nat NCPU →
  ∃ s', mp_turn fw e p s = Stop Undef s'.
Proof.
  intros Hp Ht Hl Hn. unfold mp_turn. rewrite (proj2 (Z.ltb_lt p e)), Ht by done. cbn [negb Z.eqb MPPROC]. go.
  rewrite Hn, Nat2Z.id, lookup_ge_None_2 by lia. by destruct (_ =? 0); eexists.
Qed.

(** The search finds the first structure with the signature and a checksum of zero. *)
Theorem mpsearch1_first a len i : 0 ≤ i → 16 * i < len → is_mp fw (p2v a + 16 * i) = true →
  (∀ j, 0 ≤ j < i → is_mp fw (p2v a + 16 * j) = false) → mpsearch1 fw a len = Some (p2v a + 16 * i).
Proof.
  intros Hi Hl Hm Hf. unfold mpsearch1. pose proof (Z.div_mod (len + 15) 16). pose proof (Z.mod_pos_bound (len + 15) 16).
  replace ((len + 15) / 16) with (i + ((len + 15) / 16 - i)) by lia.
  rewrite seqZ_app, fmap_app, (seqZ_cons (0 + i)) by lia. apply head_filter_first; [|done].
  - apply Forall_fmap, Forall_forall. intros j Hj%elem_of_seqZ. cbn. rewrite Hf; [done|lia].
Qed.
End spec.

(** A machine with two processors, the second one the boot processor. *)
Definition place (a : Z) (l : list Z) (f : Z → Z) : Z → Z :=
  λ x, if (a <=? x) && (x <? a + Z.of_nat (length l)) then nth (Z.to_nat (x - a)) l 0 else f x.
Definition ex_entries : list entry :=
  [EProc 4 0x14 1 (replicate 16 0); EProc 6 0x14 3 (replicate 16 0); EBus (replicate 7 65); EIoapic 2 (replicate 6 1);
   EIointr (replicate 7 0); EIointr (replicate 7 0); EIointr (replicate 7 0); ELintr (replicate 7 0)].
Definition ex_conf (ck : Z) : list Z := conf_bytes ck 4 0xFEE00000 (replicate 28 0) (replicate 4 0) ex_entries.
Definition ex_ck : Z := u8 (- foldr Z.add 0 (ex_conf 0)).
Definition ex_mp : list Z := [95; 77; 80; 95] ++ le_bytes 4 0xF1000 ++ [1; 4; 1; 0; 0x80; 0; 0; 0].
Definition ex_fw : Z → Z :=
  place (p2v 0x40E) [0xC0; 0x9F] (place (p2v 0x9FC10) ex_mp (place (p2v 0xF1000) (ex_conf ex_ck) (λ _, 0))).

Lemma ex_firmware : firmware ex_fw (p2v 0x9FC10) 0xF1000 ex_ck 4 0xFEE00000 (replicate 28 0) (replicate 4 0) ex_entries.
Proof.
  split.
  4: apply holds_mread.
  12:{ unfold ex_entries. repeat (constructor; [|repeat (constructor; [by apply Z.leb_le|]); constructor]). constructor. }
  11:{ repeat (constructor; [done|]). constructor. }
  5: by right.
  all: try (by vm_compute). by apply Nat.leb_le.
Qed.

Lemma mpinit_reads_witness :
  firmware ex_fw (p2v 0x9FC10) 0xF1000 ex_ck 4 0xFEE00000 (replicate 28 0) (replicate 4 0) ex_entries ∧
  ∃ s, mpinit ex_fw 0 mp_zero = Ok tt s ∧ ncpu s = 2 ∧ mpbcpu s = 1 ∧ mcpus s !! 1%nat = Some (mkMpcpu 1 6).
Proof.
  pose proof ex_firmware as F. split; [exact F|]. destruct (mpinit_reads ex_fw 0 _ _ _ _ _ _ _ _ F) as (s & E & _ & _ & N & _ & C & B & _).
  exists s. split; [exact E|]. split; [rewrite N; by vm_compute|]. split.
  - apply (B 1%nat (6, 3)); [done|done|]. intros j q Hq Hj. do 2 (destruct j as [|j]; [lia|]). by destruct j.
  - by apply (C 1%nat 6 3).
Defined.
End Mp.
