(* ===== verification/Acpi.v ===== *)
(** * Finding the processors in the ACPI tables (kernel/acpi.c)

    The alternative to mp.c, on the same globals and the same memory of the
    firmware.  Unlike the loop of mp.c this one steps over entries it does not
    know by their length.  A null pointer that is followed is [Undef]. *)

From S2P Require Import Prelude Bytes Kalloc Kvm Mp.

Module Acpi.
Import Mp.

Definition TYPE_LAPIC : Z := 0.
Definition TYPE_IOAPIC : Z := 1.
Definition APIC_LAPIC_ENABLED : Z := 1.
Definition PHYSLIMIT : Z := 0x80000000.
Definition SIG_RDSP : list Z := [82; 83; 68; 32; 80; 84; 82; 32].
Definition SIG_MADT : list Z := [65; 80; 73; 67].

(** The sizes of [struct acpi_rdsp], [struct acpi_rsdt] and [struct acpi_madt]. *)
Definition RDSP_SIZE : Z := 36.
Definition RSDT_SIZE : Z := 36.
Definition MADT_SIZE : Z := 44.

Section code.
Context (fw : Z → Z).

Definition is_rdsp (p : Z) : bool :=
  bool_decide (mread fw p 8 = SIG_RDSP) && (Z.land (foldr Z.add 0 (mread fw p 20)) 0xff =? 0).

Definition scan_rdsp (base len : Z) : option Z :=
  head (filter (λ p, is_rdsp p = true) ((λ i, p2v base + 4 * i) <$> seqZ 0 ((len - RDSP_SIZE) / 4 + 1))).

Definition find_rdsp : option Z :=
  let pa := Z.shiftl (rd16 fw (p2v 0x40E)) 4 in
  match (if pa =? 0 then None else scan_rdsp pa 1024) with
  | Some p => Some p
  | None => scan_rdsp 0xE0000 0x20000
  end.

(** One turn of the loop over the entries; [nioapic] counts the I/O APICs. *)
Definition acpi_turn (e : Z) (st : Z * Z) : M mpst (Z * Z + unit) :=
  let '(p, nioapic) := st in
  if negb (p <? e) then ret (inr tt) else
  if e - p <? 2 then ret (inr tt) else
  let len := fw (p + 1) in
  if e - p <? len then ret (inr tt) else
  if fw p =? TYPE_LAPIC then
    if len <? 8 then ret (inl (p + len, nioapic)) else
    if Z.land (rd32 fw (p + 4)) APIC_LAPIC_ENABLED =? 0 then ret (inl (p + len, nioapic)) else
    s ← get;
    need (mcpus s !! Z.to_nat (ncpu s)) ;;;
    modify (λ s, set_mcpus (<[Z.to_nat (ncpu s) := mkMpcpu (ncpu s) (fw (p + 3))]> (mcpus s)) s) ;;;
    modify (λ s, set_ncpu (ncpu s + 1) s) ;;;
    ret (inl (p + len, nioapic))
  else if fw p =? TYPE_IOAPIC then
    if len <? 12 then ret (inl (p + len, nioapic)) else
    whenM (nioapic =? 0) (modify (set_ioapicid (fw (p + 2)))) ;;;
    ret (inl (p + len, u32 (nioapic + 1)))
  else ret (inl (p + len, nioapic)).

Definition acpi_config_smp (madt : option Z) : M mpst Z :=
  match madt with
  | None => ret (-1)
  | Some madt =>
      let length := rd32 fw (madt + 4) in
      if length <? MADT_SIZE then ret (-1) else
      let lapic_addr := rd32 fw (madt + 36) in
      loopM (S (Z.to_nat length)) (acpi_turn (madt + length)) (madt + MADT_SIZE, 0) ;;;
      s ← get;
      if negb (ncpu s =? 0) then
        modify (set_ismp 1) ;;; modify (set_lapic (IO2V lapic_addr)) ;;; ret 0
      else ret (-1)
  end.

(** The loop over the tables: [None] where it leaves for [notmapped]. *)
Fixpoint find_madt (rsdt : Z) (ns : list Z) (madt : option Z) : option (option Z) :=
  match ns with
  | [] => Some madt
  | n :: ns =>
      let entry := rd32 fw (rsdt + RSDT_SIZE + 4 * n) in
      let hdr := p2v entry in
      if entry >? PHYSLIMIT then None else
      find_madt rsdt ns (if bool_decide (mread fw hdr 4 = SIG_MADT) then Some hdr else madt)
  end.

Definition acpiinit : M mpst Z :=
  rdsp ← need find_rdsp;
  if rd32 fw (rdsp + 16) >? PHYSLIMIT then ret (-1) else
  let rsdt := p2v (rd32 fw (rdsp + 16)) in
  let count := u32 (u64 (rd32 fw (rsdt + 4) - RSDT_SIZE) / 4) in
  match find_madt rsdt (seqZ 0 count) None with
  | Some madt => acpi_config_smp madt
  | None => ret (-1)
  end.
End code.

(** ** Tables *)

Inductive aentry :=
  | ALapic (acpi_id apic_id flags : Z) (rest : list Z)
  | AIoapic (id : Z) (rest : list Z)
  | AOther (type : Z) (rest : list Z).

Definition body (e : aentry) : list Z :=
  match e with
  | ALapic i a f r => i :: a :: le_bytes 4 f ++ r
  | AIoapic i r => i :: r
  | AOther _ r => r
  end.
Definition atype (e : aentry) : Z := match e with ALapic _ _ _ _ => TYPE_LAPIC | AIoapic _ _ => TYPE_IOAPIC | AOther t _ => t end.
Definition aenc (e : aentry) : list Z := atype e :: Z.of_nat (2 + length (body e)) :: body e.

Definition wf_aentry (e : aentry) : Prop :=
  match e with
  | ALapic _ _ f _ => 0 ≤ f < 2 ^ 32
  | AIoapic _ r => (9 ≤ length r)%nat
  | AOther t _ => t ≠ TYPE_LAPIC ∧ t ≠ TYPE_IOAPIC
  end.

(** The APIC ids of the processors that are enabled, and the ids of the I/O APICs. *)
Definition enabled (es : list aentry) : list Z :=
  omap (λ e, match e with ALapic _ a f _ => if Z.land f 1 =? 0 then None else Some a | _ => None end) es.
Definition io_ids (es : list aentry) : list Z := omap (λ e, match e with AIoapic i _ => Some i | _ => None end) es.

(** The same as entries of mp.c. *)
Fixpoint as_mp (n : Z) (es : list aentry) : list entry :=
  match es with
  | [] => []
  | ALapic _ a f _ :: es => if Z.land f 1 =? 0 then as_mp n es else EProc a 0 0 [] :: as_mp n es
  | AIoapic i _ :: es => if n =? 0 then EIoapic i [] :: as_mp (n + 1) es else as_mp (n + 1) es
  | AOther _ _ :: es => as_mp n es
  end.

Lemma as_mp_procs es n : procs (as_mp n es) = (λ a, (a, 0)) <$> enabled es.
Proof.
  revert n. induction es as [|e es IH]; intros n; [done|]. destruct e as [i a f r|i r|t r]; cbn; fold (enabled es).
  - destruct (Z.land f 1 =? 0); cbn; [apply IH|]. f_equal. apply IH.
  - destruct (n =? 0); cbn; apply IH.
  - apply IH.
Qed.

Lemma as_mp_ioapics es n : 0 ≤ n → ioapics (as_mp n es) = if n =? 0 then take 1 (io_ids es) else [].
Proof.
  revert n. induction es as [|e es IH]; intros n Hn; [by destruct (n =? 0)|].
  destruct e as [i a f r|i r|t r]; cbn; fold (io_ids es).
  - destruct (Z.land f 1 =? 0); cbn; by apply IH.
  - destruct (Z.eqb_spec n 0) as [->|Hne]; cbn.
    + fold (ioapics (as_mp 1 es)). by rewrite IH.
    + rewrite IH by lia. by rewrite (proj2 (Z.eqb_neq (n + 1) 0)) by lia.
  - by apply IH.
Qed.
Section spec.
Context (fw : Z → Z).
Implicit Types (s : mpst) (es : list aentry).

Lemma aenc_length e : Z.of_nat (length (aenc e)) = Z.of_nat (2 + length (body e)).
Proof. done. Qed.

Lemma rd32_holds a x : holds fw a (le_bytes 4 x) → 0 ≤ x < 2 ^ 32 → rd32 fw a = x.
Proof.
  intros H Hx. apply mread_holds in H. rewrite le_bytes_length in H. unfold rd32.
  rewrite H, le_val_bytes. by apply Z.mod_small.
Qed.

Lemma acpi_turn_entry e p n ent s : holds fw p (aenc ent) → wf_aentry ent → p + Z.of_nat (length (aenc ent)) ≤ e →
  0 ≤ n < 2 ^ 31 → 0 ≤ ncpu s → (Z.to_nat (ncpu s) + length (enabled [ent]) ≤ length (mcpus s))%nat →
  acpi_turn fw e (p, n) s =
    Ok (inl (p + Z.of_nat (length (aenc ent)), n + Z.of_nat (length (io_ids [ent])))) (foldl note s (as_mp n [ent])).
Proof.
  intros H Hw He Hn Hc Hr. rewrite aenc_length in *. unfold acpi_turn.
  pose proof (H 0%nat _ eq_refl) as H0. pose proof (H 1%nat _ eq_refl) as H1. rewrite Z.add_0_r in H0.
  change (fw (p + 1) = Z.of_nat (2 + length (body ent))) in H1. rewrite H0, H1.
  rewrite (proj2 (Z.ltb_lt p e)), (proj2 (Z.ltb_ge (e - p) 2)), (proj2 (Z.ltb_ge (e - p) _)) by lia. cbn [negb].
  destruct ent as [i a f r|i r|t r]; cbn [atype].
  - change (TYPE_LAPIC =? TYPE_LAPIC) with true. cbn iota. cbn [body length] in *. rewrite length_app, le_bytes_length in *.
    rewrite (proj2 (Z.ltb_ge _ 8)) by lia.
    assert (rd32 fw (p + 4) = f) as ->.
    { apply rd32_holds; [|done]. apply (holds_app fw p [_; _; _; _]) in H as [_ H]. by apply holds_app in H as [H _]. }
    pose proof (H 3%nat _ eq_refl : fw (p + 3) = a) as ->. cbn [as_mp enabled omap list_omap io_ids length] in *.
    change APIC_LAPIC_ENABLED with 1. destruct (Z.land f 1 =? 0); cbn [length foldl] in *.
    + by rewrite Z.add_0_r.
    + rewrite Z.add_0_r. destruct (lookup_lt_is_Some_2 (mcpus s) (Z.to_nat (ncpu s))) as [c Ec]; [lia|].
      go. by rewrite Ec.
  - change (TYPE_IOAPIC =? TYPE_LAPIC) with false. change (TYPE_IOAPIC =? TYPE_IOAPIC) with true. cbn iota.
    cbn [body length wf_aentry] in *. rewrite (proj2 (Z.ltb_ge _ 12)) by lia.
    pose proof (H 2%nat _ eq_refl : fw (p + 2) = i) as ->. cbn [as_mp io_ids omap list_omap length].
    rewrite wrap_small by lia. by destruct (n =? 0).
  - destruct Hw as [T1 T2]. rewrite (proj2 (Z.eqb_neq _ _) T1), (proj2 (Z.eqb_neq _ _) T2). cbn. by rewrite Z.add_0_r.
Qed.

Lemma as_mp_cons n e es : as_mp n (e :: es) = as_mp n [e] ++ as_mp (n + Z.of_nat (length (io_ids [e]))) es.
Proof.
  destruct e as [i a f r|i r|t r]; cbn [as_mp io_ids omap list_omap length].
  - rewrite Z.add_0_r. by destruct (Z.land f 1 =? 0).
  - by destruct (n =? 0).
  - by rewrite Z.add_0_r.
Qed.

Lemma acpi_loop es : ∀ e p n fuel s, holds fw p (concat (aenc <$> es)) → Forall wf_aentry es →
  e = p + Z.of_nat (length (concat (aenc <$> es))) → 0 ≤ n → n + Z.of_nat (length es) < 2 ^ 31 → 0 ≤ ncpu s →
  (Z.to_nat (ncpu s) + length (enabled es) ≤ length (mcpus s))%nat → (length es < fuel)%nat →
  loopM fuel (acpi_turn fw e) (p, n) s = Ok tt (foldl note s (as_mp n es)).
Proof.
  induction es as [|ent es IH]; intros e p n fuel s H Hw He Hn Hm Hc Hr Hf; (destruct fuel as [|fuel]; [lia|]); cbn [loopM].
  - cbn in He. unfold acpi_turn. by rewrite (proj2 (Z.ltb_ge p e)) by lia.
  - apply Forall_cons in Hw as [W Hw]. cbn [fmap list_fmap concat] in *. apply holds_app in H as [H H'].
    rewrite length_app in He. cbn [length] in Hm, Hf.
    assert (length (enabled (ent :: es)) = length (enabled [ent]) + length (enabled es))%nat as El.
    { change (ent :: es) with ([ent] ++ es). unfold enabled. by rewrite omap_app, length_app. }
    rewrite (bind_ok _ _ _ _ _ (acpi_turn_entry e p n ent s H W ltac:(lia) ltac:(lia) Hc ltac:(lia))). cbn beta iota.
    destruct (note_shape (as_mp n [ent]) s) as (N1 & _ & _ & _ & _ & N6). rewrite as_mp_procs, length_fmap in N1.
    assert (length (io_ids [ent]) ≤ 1)%nat by (destruct ent; cbn; lia).
    rewrite IH; [|done|done|lia|lia|lia|lia|lia|lia]. by rewrite <- foldl_app, <- as_mp_cons.
Qed.

(** The bytes of a Multiple APIC Description Table. *)
Definition madt_bytes (pre post : list Z) (lapic_addr : Z) es : list Z :=
  let table := concat (aenc <$> es) in
  SIG_MADT ++ le_bytes 4 (44 + Z.of_nat (length table)) ++ pre ++ le_bytes 4 lapic_addr ++ post ++ table.

Lemma aentries_length es : (length es ≤ length (concat (aenc <$> es)))%nat.
Proof. induction es as [|e es IH]; [done|]. cbn [fmap list_fmap concat]. rewrite length_app. cbn in *. lia. Qed.

(** A table in memory is read as it was written: the enabled processors are
    registered in its order, with the first I/O APIC. *)
Lemma config_reads madt pre post la es s :
  holds fw madt (madt_bytes pre post la es) → length pre = 28%nat → length post = 4%nat → 0 ≤ la < 2 ^ 32 →
  Forall wf_aentry es → Z.of_nat (length (concat (aenc <$> es))) < 2 ^ 30 →
  ncpu s = 0 → length (mcpus s) = NCPU → (length (enabled es) ≤ NCPU)%nat →
  ∃ s', acpi_config_smp fw (Some madt) s = Ok (if decide (enabled es = []) then -1 else 0) s' ∧
    ncpu s' = Z.of_nat (length (enabled es)) ∧ ioapicid s' = default (ioapicid s) (head (io_ids es)) ∧
    (∀ k a, enabled es !! k = Some a → mcpus s' !! k = Some (mkMpcpu (Z.of_nat k) a)) ∧
    (enabled es ≠ [] → ismp s' = 1 ∧ lapic s' = IO2V la).
Proof.
  intros Ht Hpre Hpost Hla Hw Hb Hz Hl Hc. unfold madt_bytes in Ht. cbn zeta in Ht.
  apply holds_app in Ht as [_ Ht]. apply holds_app in Ht as [T1 Ht]. apply holds_app in Ht as [_ Ht].
  apply holds_app in Ht as [T2 Ht]. apply holds_app in Ht as [_ T3].
  rewrite !le_bytes_length, Hpre, ?Hpost in *. rewrite <- !Z.add_assoc in *.
  pose proof (rd32_holds (madt + 4) _ T1 ltac:(lia)) as E1. pose proof (rd32_holds (madt + 36) _ T2 Hla) as E2.
  unfold acpi_config_smp. rewrite E1, E2, (proj2 (Z.ltb_ge _ MADT_SIZE)) by (unfold MADT_SIZE; lia).
  pose proof (aentries_length es). change MADT_SIZE with 44.
  set (len := 44 + _) in *. change (holds fw (madt + 44) (concat (aenc <$> es))) in T3.
  rewrite (bind_ok _ _ _ _ _ (acpi_loop es (madt + len) (madt + 44) 0 (S (Z.to_nat len)) s T3 Hw
    ltac:(lia) ltac:(lia) ltac:(lia) ltac:(lia) ltac:(lia) ltac:(lia))).
  rewrite (bind_ok get _ _ _ _ eq_refl). set (ms := as_mp 0 es). set (s1 := foldl note s ms).
  destruct (note_shape ms s) as (N1 & N2 & _). destruct (note_cpus ms s) as [_ N3]; [lia|unfold ms; rewrite as_mp_procs, length_fmap; lia|].
  fold s1 in N1, N2, N3. unfold ms in N1, N2, N3. rewrite as_mp_procs in N1, N3.
  rewrite length_fmap in N1. rewrite Hz in N1, N3.
  rewrite as_mp_ioapics in N2 by done. cbn [Z.eqb] in N2.
  assert (∀ k a, enabled es !! k = Some a → mcpus s1 !! k = Some (mkMpcpu (Z.of_nat k) a)) as N4.
  { intros k a Hk. apply (N3 k a 0). by rewrite list_lookup_fmap, Hk. }
  assert (last (take 1 (io_ids es)) = head (io_ids es)) as El by (by destruct (io_ids es)).
  rewrite N1. destruct (decide (enabled es = [])) as [He|Hne].
  - exists s1. rewrite He in *. cbn. by rewrite N2, El.
  - rewrite (proj2 (Z.eqb_neq _ 0)) by (destruct (enabled es); cbn; [done|lia]).
    eexists. split; [reflexivity|]. cbn. by rewrite N1, N2, El.
Qed.

(** ** The whole search *)

(** The firmware has a root table that lists the tables at [ts], of which the
    last processor table is at [pm]. *)
Record acpi_firmware (rdsp pr pm la : Z) (ts pre post : list Z) (es : list aentry) : Prop := mkAcpiFirmware {
  a_find : find_rdsp fw = Some rdsp;
  a_root : rd32 fw (rdsp + 16) = pr;
  a_low : pr ≤ PHYSLIMIT ∧ Forall (λ t, 0 ≤ t ≤ PHYSLIMIT) ts;
  a_sig : holds fw (p2v pr + 4) (le_bytes 4 (RSDT_SIZE + 4 * Z.of_nat (length ts)));
  a_tables : holds fw (p2v pr + RSDT_SIZE) (concat (le_bytes 4 <$> ts));
  a_count : Z.of_nat (length ts) < 2 ^ 16;
  a_last : ∃ ts1 ts2, ts = ts1 ++ pm :: ts2 ∧ Forall (λ t, mread fw (p2v t) 4 ≠ SIG_MADT) ts2;
  a_madt : holds fw (p2v pm) (madt_bytes pre post la es);
  a_pre : length pre = 28%nat;
  a_post : length post = 4%nat;
  a_la : 0 ≤ la < 2 ^ 32;
  a_wf : Forall wf_aentry es;
  a_size : Z.of_nat (length (concat (aenc <$> es))) < 2 ^ 30;
  a_ncpu : (length (enabled es) ≤ NCPU)%nat
}.

Lemma table_at rsdt (ts : list Z) k t : holds fw (rsdt + RSDT_SIZE) (concat (le_bytes 4 <$> ts)) → ts !! k = Some t →
  0 ≤ t ≤ PHYSLIMIT → rd32 fw (rsdt + RSDT_SIZE + 4 * Z.of_nat k) = t.
Proof.
  generalize (rsdt + RSDT_SIZE) as a. revert k. induction ts as [|x ts IH]; intros k a H Hk Ht; [done|].
  cbn [fmap list_fmap concat] in H. apply holds_app in H as [H1 H2]. rewrite le_bytes_length in H2.
  destruct k as [|k]; cbn in Hk.
  - injection Hk as ->. rewrite Z.add_0_r. apply rd32_holds; [done|]. unfold PHYSLIMIT in Ht. lia.
  - replace (a + 4 * Z.of_nat (S k)) with (a + Z.of_nat 4 + 4 * Z.of_nat k) by lia. by apply IH.
Qed.

Lemma find_madt_step rsdt k (ts : list Z) r : holds fw (rsdt + RSDT_SIZE) (concat (le_bytes 4 <$> ts)) →
  Forall (λ t, 0 ≤ t ≤ PHYSLIMIT) ts → (k ≤ length ts)%nat →
  find_madt fw rsdt (seqZ (Z.of_nat k) (Z.of_nat (length ts - k))) r =
    Some (foldl (λ r t, if bool_decide (mread fw (p2v t) 4 = SIG_MADT) then Some (p2v t) else r) r (drop k ts)).
Proof.
  intros H Hb. remember (length ts - k)%nat as n eqn:En. revert k r En. induction n as [|n IH]; intros k r En Hk.
  - rewrite drop_ge by lia. done.
  - destruct (lookup_lt_is_Some_2 ts k) as [t Et]; [lia|]. rewrite (drop_S _ _ _ Et), seqZ_cons by lia.
    cbn [find_madt foldl]. pose proof (Forall_lookup_1 _ _ _ _ Hb Et) as Ht. cbn beta in Ht.
    rewrite (table_at rsdt ts k t H Et Ht), Z.gtb_ltb, (proj2 (Z.ltb_ge _ _)) by lia.
    replace (Z.succ (Z.of_nat k)) with (Z.of_nat (S k)) by lia. replace (Z.pred (Z.of_nat (S n))) with (Z.of_nat n) by lia.
    apply IH; lia.
Qed.

(** From the tables of the firmware the enabled processors are registered
    in the order of the table, with the first I/O APIC. *)
Theorem acpiinit_reads rdsp pr pm la ts pre post es s :
  acpi_firmware rdsp pr pm la ts pre post es → ncpu s = 0 → length (mcpus s) = NCPU →
  ∃ s', acpiinit fw s = Ok (if decide (enabled es = []) then -1 else 0) s' ∧
    ncpu s' = Z.of_nat (length (enabled es)) ∧ ioapicid s' = default (ioapicid s) (head (io_ids es)) ∧
    (∀ k a, enabled es !! k = Some a → mcpus s' !! k = Some (mkMpcpu (Z.of_nat k) a)) ∧
    (enabled es ≠ [] → ismp s' = 1 ∧ lapic s' = IO2V la).
Proof.
  intros [F1 F2 [F3 F3'] F4 F5 F6 (ts1 & ts2 & Et & F7) F8 F9 F10 F11 F12 F13 F14] Hz Hl. unfold acpiinit. rewrite F1. go.
  rewrite F2, Z.gtb_ltb, (proj2 (Z.ltb_ge _ _)) by lia. rewrite (rd32_holds _ _ F4) by (unfold RSDT_SIZE; lia).
  rewrite (wrap_small 64) by (unfold RSDT_SIZE; lia).
  replace (RSDT_SIZE + _ - RSDT_SIZE) with (Z.of_nat (length ts) * 4) by lia. rewrite Z.div_mul by done.
  rewrite (wrap_small 32) by lia. pose proof (find_madt_step (p2v pr) 0 ts None F5 F3' ltac:(lia)) as Em.
  rewrite Nat.sub_0_r in Em. rewrite (Em : find_madt fw (p2v pr) (seqZ 0 _) None = _), Et, drop_0, foldl_app. cbn [foldl].
  assert (mread fw (p2v pm) 4 = SIG_MADT) as Hs.
  { unfold madt_bytes in F8. apply holds_app in F8 as [F8 _]. by apply mread_holds in F8. }
  rewrite (bool_decide_eq_true_2 _ Hs).
  assert (∀ r : option Z, foldl (λ r t, if bool_decide (mread fw (p2v t) 4 = SIG_MADT) then Some (p2v t) else r) r ts2 = r) as ->.
  { clear -F7. induction F7 as [|t ts2 Ht _ IH]; intros r; [done|]. cbn [foldl]. by rewrite bool_decide_eq_false_2. }
  by apply (config_reads _ pre post).
Qed.

(** Without a root pointer the code follows a null pointer. *)
Theorem acpiinit_null s : find_rdsp fw = None → acpiinit fw s = Stop Undef s.
Proof. intros H. unfold acpiinit. by rewrite H. Qed.

(** At an entry of length zero the loop never ends. *)
Theorem acpi_zero_hangs e p n fuel s : p + 2 ≤ e → fw (p + 1) = 0 → ∃ s', loopM fuel (acpi_turn fw e) (p, n) s = Stop NoFuel s'.
Proof.
  intros Hp H0. induction fuel as [|fuel IH]; [by eexists|]. cbn [loopM].
  assert (acpi_turn fw e (p, n) s = Ok (inl (p, n)) s) as E; [|step E; apply IH].
  unfold acpi_turn. rewrite H0, Z.add_0_r, (proj2 (Z.ltb_lt p e)), !(proj2 (Z.ltb_ge (e - p) _)) by lia. cbn [negb].
  by destruct (fw p =? TYPE_LAPIC), (fw p =? TYPE_IOAPIC).
Qed.
End spec.

(** A machine with three processors, the second one disabled, an entry of
    another type and two I/O APICs. *)
Definition ex_madt : list aentry :=
  [ALapic 0 2 1 []; ALapic 1 4 0 []; AOther 2 [0; 9; 9; 0; 0; 0; 13; 0]; ALapic 2 6 1 [];
   AIoapic 5 (replicate 9 0); AIoapic 7 (replicate 9 0)].
Definition ex_rdsp : list Z := SIG_RDSP ++ [220] ++ replicate 7 0 ++ le_bytes 4 0x7FE0000.
Definition ex_acpi : Z → Z :=
  place (p2v 0x40E) [0xC0; 0x9F] (place (p2v 0x9FC10) ex_rdsp
    (place (p2v 0x7FE0000 + 4) (le_bytes 4 (36 + 4 * 2))
    (place (p2v 0x7FE0000 + 36) (concat (le_bytes 4 <$> [0x7FE1000; 0x7FE2000]))
    (place (p2v 0x7FE1000) (madt_bytes (replicate 28 0) (replicate 4 0) 0xFEE00000 ex_madt) (λ _, 0))))).

Lemma acpiinit_reads_witness :
  acpi_firmware ex_acpi (p2v 0x9FC10) 0x7FE0000 0x7FE1000 0xFEE00000 [0x7FE1000; 0x7FE2000] (replicate 28 0)
    (replicate 4 0) ex_madt ∧
  ∃ s, acpiinit ex_acpi mp_zero = Ok 0 s ∧ ncpu s = 2 ∧ ioapicid s = 5 ∧ mcpus s !! 1%nat = Some (mkMpcpu 1 6).
Proof.
  assert (acpi_firmware ex_acpi (p2v 0x9FC10) 0x7FE0000 0x7FE1000 0xFEE00000 [0x7FE1000; 0x7FE2000] (replicate 28 0)
    (replicate 4 0) ex_madt) as F.
  { split.
    14:{ by apply Nat.leb_le. }
    12:{ unfold ex_madt. repeat (apply Forall_cons; split; [cbn; unfold TYPE_LAPIC, TYPE_IOAPIC; lia|]). apply Forall_nil_2. }
    8: apply holds_mread.
    7:{ exists [], [0x7FE2000]. split; [done|]. apply Forall_singleton. by vm_compute. }
    5: apply holds_mread. 4: apply holds_mread.
    3:{ split; [done|]. repeat (apply Forall_cons; split; [unfold PHYSLIMIT; lia|]). apply Forall_nil_2. }
    all: by vm_compute. }
  split; [exact F|]. destruct (acpiinit_reads ex_acpi _ _ _ _ _ _ _ _ mp_zero F eq_refl eq_refl) as (s & E & N & I & C & _).
  exists s. split; [exact E|]. split; [rewrite N; by vm_compute|]. split; [rewrite I; by vm_compute|]. by apply (C 1%nat 6).
Defined.
End Acpi.
