(* ===== verification/Pipe.v ===== *)
(** * Pipes (kernel/pipe.c)

    A pipe lives in a page from [kalloc]; [pipes] gives the pipe at an
    address.  [addr] of [pipewrite] is the user buffer as a list of bytes, and
    [piperead] returns the bytes it stores in the user buffer.  A call that
    sleeps stops with [Switch]; [pipewrite_resume] and [piperead_resume] are
    the rest of the call.  [pipealloc] is in File.v. *)

From S2P Require Import Prelude Bytes Spinlock Sched CString Kalloc.
From Stdlib Require Import FunctionalExtensionality.

Definition PIPESIZE : Z := 512.

Record pipe := mkPipe {
  pi_data : list Z;
  pi_nread : Z;            (* number of bytes read, mod 2^32 *)
  pi_nwrite : Z;           (* number of bytes written, mod 2^32 *)
  pi_readopen : bool;
  pi_writeopen : bool
}.

Record pst := mkPst { ps_k : kst; pipes : Z → pipe }.
Definition set_psk (k : kst) (s : pst) : pst := mkPst k (pipes s).
Definition set_pipes (f : Z → pipe) (s : pst) : pst := mkPst (ps_k s) f.

Abbreviation pkM := (lift ps_k set_psk).
Definition pmach (s : pst) : mach := ks_m (ps_k s).
Definition set_pmach (m : mach) (s : pst) : pst := set_psk (set_ksm m (ps_k s)) s.
Abbreviation pmM := (lift pmach set_pmach).

Definition L_pipe (a : Z) : lockid := ("pipe", a).
Definition nread_chan (a : Z) : chan := ("pipe.nread", a).
Definition nwrite_chan (a : Z) : chan := ("pipe.nwrite", a).

Definition getpipe (a : Z) : M pst pipe := s ← get; ret (pipes s a).
Definition setpipe (a : Z) (q : pipe) : M pst unit := modify (λ s, set_pipes (<[a := q]> (pipes s)) s).

(** [proc->killed]. *)
Definition killed : M mach bool := i ← curproc; p ← getproc i; ret (p_killed p).

Definition is_full (q : pipe) : bool := pi_nwrite q =? u32 (pi_nread q + PIPESIZE).
Definition is_empty (q : pipe) : bool := pi_nread q =? pi_nwrite q.

(** [p->data[p->nwrite++ % PIPESIZE] = c] and [p->data[p->nread++ % PIPESIZE]]. *)
Definition push (c : Z) (q : pipe) : pipe :=
  mkPipe (<[Z.to_nat (pi_nwrite q mod PIPESIZE) := c]> (pi_data q)) (pi_nread q) (u32 (pi_nwrite q + 1))
    (pi_readopen q) (pi_writeopen q).
Definition top (q : pipe) : Z := nth (Z.to_nat (pi_nread q mod PIPESIZE)) (pi_data q) 0.
Definition pop (q : pipe) : pipe :=
  mkPipe (pi_data q) (u32 (pi_nread q + 1)) (pi_nwrite q) (pi_readopen q) (pi_writeopen q).

Section code.
Context (kend : Z).

Definition pipeclose (a : Z) (writable : bool) : M pst unit :=
  pmM (smpM (acquire (L_pipe a))) ;;;
  q ← getpipe a;
  (if writable then
     setpipe a (mkPipe (pi_data q) (pi_nread q) (pi_nwrite q) (pi_readopen q) false) ;;;
     pmM (wakeup (nread_chan a))
   else
     setpipe a (mkPipe (pi_data q) (pi_nread q) (pi_nwrite q) false (pi_writeopen q)) ;;;
     pmM (wakeup (nwrite_chan a))) ;;;
  q ← getpipe a;
  if negb (pi_readopen q) && negb (pi_writeopen q) then
    pmM (smpM (release (L_pipe a))) ;;;
    pkM (kfree kend a)
  else pmM (smpM (release (L_pipe a))).

(** One turn of the loops with [p->lock] held; [inr] leaves [pipewrite]. *)
Definition write_turn (a : Z) (addr : list Z) (n : Z) (i : Z) : M pst (Z + Z) :=
  if n <=? i then
    pmM (wakeup (nread_chan a)) ;;;
    pmM (smpM (release (L_pipe a))) ;;;
    ret (inr n)
  else
    q ← getpipe a;
    if is_full q then
      k ← pmM killed;
      if negb (pi_readopen q) || k then
        pmM (smpM (release (L_pipe a))) ;;;
        ret (inr (-1))
      else
        pmM (wakeup (nread_chan a)) ;;;
        pmM (sleep (nwrite_chan a) (L_pipe a)) ;;;
        ret (inl i)
    else
      c ← need (addr !! Z.to_nat i);
      setpipe a (push c q) ;;;
      ret (inl (i + 1)).

Definition pipewrite_loop (a : Z) (addr : list Z) (n i : Z) : M pst Z :=
  loopM (S (S (Z.to_nat (n - i)))) (write_turn a addr n) i.

Definition pipewrite (a : Z) (addr : list Z) (n : Z) : M pst Z :=
  pmM (smpM (acquire (L_pipe a))) ;;;
  pipewrite_loop a addr n 0.

Definition pipewrite_resume (intena : bool) (a : Z) (addr : list Z) (n i : Z) : M pst Z :=
  pmM (sleep_resume intena (L_pipe a)) ;;;
  pipewrite_loop a addr n i.

(** [for(i = 0; i < n; i++)] up to the first empty test. *)
Fixpoint read_loop (fuel : nat) (q : pipe) : list Z * pipe :=
  match fuel with
  | O => ([], q)
  | S k => if is_empty q then ([], q) else let r := read_loop k (pop q) in (top q :: r.1, r.2)
  end.

(** One turn of [while(p->nread == p->nwrite && p->writeopen)]; [inr] leaves [piperead]. *)
Definition read_turn (a : Z) (n : Z) (_ : unit) : M pst (unit + Z * list Z) :=
  q ← getpipe a;
  if is_empty q && pi_writeopen q then
    k ← pmM killed;
    if (k : bool) then
      pmM (smpM (release (L_pipe a))) ;;;
      ret (inr (-1, []))
    else
      pmM (sleep (nread_chan a) (L_pipe a)) ;;;
      ret (inl tt)
  else
    let r := read_loop (Z.to_nat n) q in
    setpipe a r.2 ;;;
    pmM (wakeup (nwrite_chan a)) ;;;
    pmM (smpM (release (L_pipe a))) ;;;
    ret (inr (Z.of_nat (length r.1), r.1)).

(** A turn that sleeps does not return, so one turn is enough. *)
Definition piperead_locked (a : Z) (n : Z) : M pst (Z * list Z) := loopM 1 (read_turn a n) tt.

Definition piperead (a : Z) (n : Z) : M pst (Z * list Z) :=
  pmM (smpM (acquire (L_pipe a))) ;;;
  piperead_locked a n.

Definition piperead_resume (intena : bool) (a n : Z) : M pst (Z * list Z) :=
  pmM (sleep_resume intena (L_pipe a)) ;;;
  piperead_locked a n.
End code.

(** ** The queue a pipe holds *)

Definition plen (q : pipe) : Z := u32 (pi_nwrite q - pi_nread q).

Definition pipe_wf (q : pipe) : Prop :=
  length (pi_data q) = Z.to_nat PIPESIZE ∧ 0 ≤ pi_nread q < 2 ^ 32 ∧ 0 ≤ pi_nwrite q < 2 ^ 32 ∧
  plen q ≤ PIPESIZE.

Definition slot (q : pipe) (k : Z) : Z := nth (Z.to_nat ((pi_nread q + k) mod PIPESIZE)) (pi_data q) 0.
Definition contents (q : pipe) : list Z := slot q <$> seqZ 0 (plen q).

Lemma u32_mod x : u32 x mod PIPESIZE = x mod PIPESIZE.
Proof.
  unfold wrap, PIPESIZE. rewrite (Z.mod_eq x (2 ^ 32)) by lia. change (2 ^ 32) with (512 * 8388608).
  rewrite Zminus_mod. rewrite <- Z.mul_assoc, (Z.mul_comm 512), Z.mod_mul, Z.sub_0_r by lia. apply Z.mod_mod. lia.
Qed.

Lemma u32_add_mod x k : (u32 x + k) mod PIPESIZE = (x + k) mod PIPESIZE.
Proof. by rewrite Zplus_mod, u32_mod, <- Zplus_mod. Qed.

Lemma plen_range q : pipe_wf q → 0 ≤ plen q ≤ PIPESIZE.
Proof. intros (_ & _ & _ & H). split; [apply wrap_range; lia|done]. Qed.

Lemma contents_length q : length (contents q) = Z.to_nat (plen q).
Proof. unfold contents. by rewrite length_fmap, length_seqZ. Qed.

Lemma is_full_spec q : pipe_wf q → is_full q = (plen q =? PIPESIZE).
Proof.
  intros (_ & Hr & Hw & Hl). unfold is_full, plen, wrap, PIPESIZE in *. apply eq_true_iff_eq. rewrite !Z.eqb_eq.
  pose proof (Z.div_mod (pi_nread q + 512) (2 ^ 32)). pose proof (Z.mod_pos_bound (pi_nread q + 512) (2 ^ 32)).
  pose proof (Z.div_mod (pi_nwrite q - pi_nread q) (2 ^ 32)). pose proof (Z.mod_pos_bound (pi_nwrite q - pi_nread q) (2 ^ 32)).
  lia.
Qed.

Lemma is_empty_spec q : pipe_wf q → is_empty q = (plen q =? 0).
Proof.
  intros (_ & Hr & Hw & Hl). unfold is_empty, plen, wrap, PIPESIZE in *. apply eq_true_iff_eq. rewrite !Z.eqb_eq.
  pose proof (Z.div_mod (pi_nwrite q - pi_nread q) (2 ^ 32)). pose proof (Z.mod_pos_bound (pi_nwrite q - pi_nread q) (2 ^ 32)).
  lia.
Qed.

Lemma plen_push c q : pipe_wf q → plen q < PIPESIZE → plen (push c q) = plen q + 1.
Proof.
  intros (_ & Hr & Hw & _) Hl. unfold plen, push in *. cbn [pi_nwrite pi_nread]. unfold wrap, PIPESIZE in *.
  rewrite Zminus_mod_idemp_l. replace (pi_nwrite q + 1 - pi_nread q) with (pi_nwrite q - pi_nread q + 1) by lia.
  rewrite Zplus_mod. rewrite (Z.mod_small 1) by lia. pose proof (Z.mod_pos_bound (pi_nwrite q - pi_nread q) (2 ^ 32)).
  apply Z.mod_small. lia.
Qed.

(** Distinct positions of the window are distinct slots of the array. *)
Lemma slot_index q k : pipe_wf q → 0 ≤ k < plen q → plen q < PIPESIZE →
  (pi_nread q + k) mod PIPESIZE ≠ pi_nwrite q mod PIPESIZE.
Proof.
  intros (_ & Hr & Hw & _) Hk Hl E. unfold plen, wrap, PIPESIZE in *.
  pose proof (Z.div_mod (pi_nwrite q - pi_nread q) (2 ^ 32)). pose proof (Z.mod_pos_bound (pi_nwrite q - pi_nread q) (2 ^ 32)).
  pose proof (Z.div_mod (pi_nread q + k) 512). pose proof (Z.div_mod (pi_nwrite q) 512).
  set (d := (pi_nwrite q - pi_nread q) / 2 ^ 32) in *. change (2 ^ 32) with (512 * 8388608) in *.
  assert (pi_nwrite q - pi_nread q - k = 512 * (pi_nwrite q / 512 - (pi_nread q + k) / 512)) by lia. lia.
Qed.

Lemma push_wf c q : pipe_wf q → plen q < PIPESIZE → pipe_wf (push c q).
Proof.
  intros Hq Hl. pose proof Hq as (Hd & Hr & Hw & _). split_and!; cbn.
  - by rewrite length_insert.
  - lia.
  - lia.
  - apply wrap_range. lia.
  - apply wrap_range. lia.
  - rewrite plen_push by done. lia.
Qed.

Lemma contents_push c q : pipe_wf q → plen q < PIPESIZE → contents (push c q) = contents q ++ [c].
Proof.
  intros Hq Hl. pose proof (plen_range q Hq) as Hp. pose proof Hq as (Hd & _). unfold contents. rewrite plen_push by done.
  rewrite seqZ_app by lia. rewrite fmap_app. f_equal.
  - apply list_fmap_ext. intros i k Hk. apply list_elem_of_lookup_2, elem_of_seqZ in Hk.
    unfold slot, push. cbn [pi_nread pi_data]. rewrite !nth_lookup, list_lookup_insert_ne; [done|].
    intros E. apply (slot_index q k Hq); [lia|done|]. unfold PIPESIZE in *.
    pose proof (Z.mod_pos_bound (pi_nread q + k) 512). pose proof (Z.mod_pos_bound (pi_nwrite q) 512). lia.
  - rewrite Z.add_0_l, (seqZ_cons (plen q)) by lia. cbn [fmap list_fmap]. f_equal. unfold slot, push. cbn [pi_nread pi_data].
    assert ((pi_nread q + plen q) mod PIPESIZE = pi_nwrite q mod PIPESIZE) as ->.
    { unfold plen. rewrite (Z.add_comm (pi_nread q)), u32_add_mod. f_equal. lia. }
    rewrite nth_lookup, list_lookup_insert_eq; [done|]. rewrite Hd. unfold PIPESIZE.
    pose proof (Z.mod_pos_bound (pi_nwrite q) 512). lia.
Qed.

Lemma plen_pop q : pipe_wf q → 0 < plen q → plen (pop q) = plen q - 1.
Proof.
  intros (_ & Hr & Hw & _) Hl. unfold plen, pop in *. cbn [pi_nwrite pi_nread]. unfold wrap in *.
  rewrite Zminus_mod_idemp_r. replace (pi_nwrite q - (pi_nread q + 1)) with (pi_nwrite q - pi_nread q - 1) by lia.
  rewrite Zminus_mod. rewrite (Z.mod_small 1) by lia. pose proof (Z.mod_pos_bound (pi_nwrite q - pi_nread q) (2 ^ 32)).
  apply Z.mod_small. lia.
Qed.

Lemma pop_wf q : pipe_wf q → 0 < plen q → pipe_wf (pop q).
Proof.
  intros Hq Hl. pose proof (plen_range q Hq). pose proof Hq as (Hd & Hr & Hw & _). split_and!; cbn; try done; try lia.
  - apply wrap_range. lia.
  - apply wrap_range. lia.
  - rewrite plen_pop by done. lia.
Qed.

Lemma contents_pop q : pipe_wf q → 0 < plen q → contents q = top q :: contents (pop q).
Proof.
  intros Hq Hl. unfold contents. rewrite plen_pop by done. rewrite (seqZ_cons 0) by lia. cbn [fmap list_fmap]. f_equal.
  - unfold slot, top. by rewrite Z.add_0_r.
  - change (Z.succ 0) with (1 + 0). rewrite <- fmap_add_seqZ, <- list_fmap_compose. rewrite <- Z.sub_1_r. apply list_fmap_ext. intros i k _. unfold slot, pop. cbn.
    rewrite u32_add_mod. do 3 f_equal. lia.
Qed.

(** ** Turns

    What [pipewrite] and [piperead] do from the moment they hold [p->lock] to
    the moment they return or sleep. *)

Definition pushes (l : list Z) (q : pipe) : pipe := foldl (λ q c, push c q) q l.

Lemma pushes_spec l q : pipe_wf q → plen q + Z.of_nat (length l) ≤ PIPESIZE →
  pipe_wf (pushes l q) ∧ contents (pushes l q) = contents q ++ l ∧
  plen (pushes l q) = plen q + Z.of_nat (length l) ∧
  pi_readopen (pushes l q) = pi_readopen q ∧ pi_writeopen (pushes l q) = pi_writeopen q ∧
  pi_nread (pushes l q) = pi_nread q.
Proof.
  revert q. induction l as [|c l IH]; intros q Hq Hl; cbn [length pushes foldl] in *.
  { rewrite app_nil_r, Z.add_0_r. done. }
  assert (plen q < PIPESIZE) as Hp by lia.
  destruct (IH (push c q)) as (H1 & H2 & H3 & H4 & H5 & H6); [by apply push_wf|rewrite plen_push by done; lia|].
  unfold pushes in *. rewrite H2, H3, H4, H5, H6, contents_push, plen_push, <- app_assoc by done. split_and!; try done. lia.
Qed.

Lemma read_loop_spec n q : pipe_wf q → let r := read_loop n q in
  r.1 = take n (contents q) ∧ contents r.2 = drop n (contents q) ∧ pipe_wf r.2 ∧
  pi_readopen r.2 = pi_readopen q ∧ pi_writeopen r.2 = pi_writeopen q.
Proof.
  revert q. induction n as [|n IH]; intros q Hq; cbn [read_loop].
  { by rewrite take_0, drop_0. }
  pose proof (plen_range q Hq) as Hp. rewrite is_empty_spec by done. destruct (Z.eqb_spec (plen q) 0) as [E|E].
  - assert (contents q = []) as Ec by (apply nil_length_inv; rewrite contents_length, E; done).
    cbn. rewrite Ec. by destruct n.
  - destruct (IH (pop q)) as (H1 & H2 & H3 & H4 & H5); [apply pop_wf; [done|lia]|]. cbn [fst snd].
    rewrite (contents_pop q) by (done || lia). cbn [take drop]. rewrite H1, H2. done.
Qed.

(** The state a thread enters with: it is process [i], holds no lock, and the
    locks it takes are free. *)
Definition may_run (a : Z) (s : pst) (i : nat) (p : proc) : Prop :=
  running (pmach s) i p ∧ p_state p = RUNNING ∧ lfree (L_pipe a) (pmach s) ∧ lfree L_ptable (pmach s).

(** The same with [p->lock] held. *)
Definition plocked (a : Z) (s : pst) : pst := set_pmach (mlocked (L_pipe a) (pmach s)) s.
Definition with_pipe (a : Z) (q : pipe) (s : pst) : pst := set_pipes (<[a := q]> (pipes s)) s.
Definition woken (c : chan) (s : pst) : pst := set_pmach (set_ptable (wake c <$> ptable (pmach s)) (pmach s)) s.
Definition asleep (c : chan) (i : nat) (p : proc) (s : pst) : pst :=
  set_pmach (put_to_sleep c i p (mlocked L_ptable (pmach s))) s.

Lemma L_pipe_ne a : L_pipe a ≠ L_ptable.
Proof. done. Qed.

Lemma acquire_pipe a s i p : may_run a s i p → pmM (smpM (acquire (L_pipe a))) s = Ok tt (plocked a s).
Proof. intros ((Hm & _) & _ & Hl & _). erewrite lift_ok; [|apply lock_ok; [exact Hm|exact Hl]]. done. Qed.

Lemma release_pipe a s i p : may_run a s i p → pmM (smpM (release (L_pipe a))) (plocked a s) = Ok tt s.
Proof.
  intros ((Hm & _) & _ & Hl & _). erewrite lift_ok; [|apply unlock_ok'; [exact Hm|exact Hl]].
  by destruct s as [[m k] f].
Qed.

Lemma wakeup_pipe a c s i p : may_run a s i p → pmM (wakeup c) (plocked a s) = Ok tt (plocked a (woken c s)).
Proof.
  intros ((Hm & _) & _ & Hl & Hp). erewrite lift_ok; [|apply wakeup_ok; [by apply mok_mlocked|by apply lfree_mlocked]].
  done.
Qed.

Lemma may_run_woken a c s i p : may_run a s i p → may_run a (woken c s) i p.
Proof.
  intros ((Hm & Hi & Hc) & Hs & Hl & Hp). split; [|done]. split; [by apply mok_set_ptable|]. split; [|done].
  cbn. rewrite list_lookup_fmap, Hi. cbn. unfold wake. by rewrite bool_decide_false by congruence.
Qed.

Lemma may_run_pipe a q s i p : may_run a s i p → may_run a (with_pipe a q s) i p.
Proof. done. Qed.

Lemma killed_pipe a s i p : may_run a s i p → pmM killed (plocked a s) = Ok (p_killed p) (plocked a s).
Proof.
  intros (Hr & _). assert (killed (mlocked (L_pipe a) (pmach s)) = Ok (p_killed p) (mlocked (L_pipe a) (pmach s))) as E.
  { unfold killed, curproc. erewrite bind_ok.
    2:{ erewrite bind_ok; [|by eapply myproc_locked]. done. }
    destruct Hr as (_ & Hi & _). unfold getproc. go. cbn. by rewrite Hi. }
  erewrite lift_ok; [|exact E]. done.
Qed.

Lemma sleep_pipe a c s i p : may_run a s i p →
  pmM (sleep c (L_pipe a)) (plocked a s) = Stop Switch (asleep c i p s).
Proof.
  intros (Hr & _ & Hl & Hp). erewrite lift_stop; [|apply sleep_ok; [exact Hr|exact Hl|exact Hp|apply L_pipe_ne]]. done.
Qed.

Lemma getpipe_ok a q s : getpipe a (with_pipe a q s) = Ok q (with_pipe a q s).
Proof. unfold getpipe. go. cbn. by rewrite fn_lookup_insert. Qed.

(** What a turn of [pipewrite] that has written [i] bytes does: it appends as
    many of the remaining bytes as fit, and then returns or sleeps. *)
Definition write_result (a : Z) (addr : list Z) (n i : Z) (s : pst) (j : nat) (p : proc) : res pst Z :=
  let q := pipes s a in
  let room := PIPESIZE - plen q in
  if n - i <=? room then
    Ok n (woken (nread_chan a) (with_pipe a (pushes (slice (Z.to_nat i) (Z.to_nat (n - i)) addr) q) s))
  else
    let s' := with_pipe a (pushes (slice (Z.to_nat i) (Z.to_nat room) addr) q) s in
    if negb (pi_readopen q) || p_killed p then Ok (-1) s'
    else Stop Switch (asleep (nwrite_chan a) j p (woken (nread_chan a) s')).

Lemma with_pipe_id a s : with_pipe a (pipes s a) s = s.
Proof. destruct s as [k f]. unfold with_pipe, set_pipes. cbn. by rewrite fn_insert_id. Qed.

Lemma with_pipe_with a q q' s : with_pipe a q (with_pipe a q' s) = with_pipe a q s.
Proof. destruct s as [k f]. unfold with_pipe, set_pipes. cbn. by rewrite fn_insert_insert. Qed.

Lemma write_result_push a addr n i s j p c : pipe_wf (pipes s a) → plen (pipes s a) < PIPESIZE → 0 ≤ i < n →
  addr !! Z.to_nat i = Some c →
  write_result a addr n (i + 1) (with_pipe a (push c (pipes s a)) s) j p = write_result a addr n i s j p.
Proof.
  intros Hq Hl Hi Hc. unfold write_result. cbn [with_pipe pipes set_pipes]. rewrite fn_lookup_insert.
  rewrite plen_push by done. cbn [push pi_readopen].
  assert (∀ k, pushes (slice (Z.to_nat i) (S k) addr) (pipes s a) =
    pushes (slice (Z.to_nat (i + 1)) k addr) (push c (pipes s a))) as Es.
  { intros k. rewrite (slice_S _ _ _ c) by done. rewrite Z2Nat.inj_add by lia. done. }
  destruct (Z.leb_spec (n - i) (PIPESIZE - plen (pipes s a))).
  - rewrite (proj2 (Z.leb_le _ _)) by lia. replace (Z.to_nat (n - i)) with (S (Z.to_nat (n - (i + 1)))) by lia.
    by rewrite Es, with_pipe_with.
  - rewrite (proj2 (Z.leb_gt _ _)) by lia.
    replace (Z.to_nat (PIPESIZE - plen (pipes s a))) with (S (Z.to_nat (PIPESIZE - (plen (pipes s a) + 1)))) by lia.
    by rewrite Es, with_pipe_with.
Qed.

(** A turn that finds the buffer full. *)
Lemma write_turn_full a addr n i s j p : may_run a s j p → pipe_wf (pipes s a) → i < n → plen (pipes s a) = PIPESIZE →
  write_turn a addr n i (plocked a s) =
  if negb (pi_readopen (pipes s a)) || p_killed p then Ok (inr (-1)) s
  else Stop Switch (asleep (nwrite_chan a) j p (woken (nread_chan a) s)).
Proof.
  intros Hr Hq Hlt Hl. unfold write_turn. rewrite (proj2 (Z.leb_gt _ _)) by lia.
  assert (getpipe a (plocked a s) = Ok (pipes s a) (plocked a s)) as Eg by done. step Eg.
  rewrite is_full_spec by done. rewrite Hl. cbn [Z.eqb]. change (PIPESIZE =? PIPESIZE) with true. cbv iota.
  step (killed_pipe a s j p Hr). destruct (negb _ || _).
  - by step (release_pipe a s j p Hr).
  - step (wakeup_pipe a (nread_chan a) s j p Hr).
    by step (sleep_pipe a (nwrite_chan a) _ j p (may_run_woken a (nread_chan a) s j p Hr)).
Qed.

Lemma write_turn_end a addr n i s j p : may_run a s j p → n ≤ i →
  write_turn a addr n i (plocked a s) = Ok (inr n) (woken (nread_chan a) s).
Proof.
  intros Hr Hle. unfold write_turn. rewrite (proj2 (Z.leb_le _ _)) by lia. step (wakeup_pipe a (nread_chan a) s j p Hr).
  by step (release_pipe a (woken (nread_chan a) s) j p (may_run_woken _ _ _ _ _ Hr)).
Qed.

Lemma pipewrite_loop_ok a addr n s j p fuel : may_run a s j p → ∀ i, pipe_wf (pipes s a) → 0 ≤ i →
  n ≤ Z.of_nat (length addr) → (Z.to_nat (n - i) < fuel)%nat →
  loopM fuel (write_turn a addr n) i (plocked a s) = write_result a addr n i s j p.
Proof.
  intros Hr. revert s Hr. induction fuel as [|fuel IH]; intros s Hr i Hq Hi Hn Hf; [lia|]. cbn [loopM].
  pose proof (plen_range _ Hq) as Hp. destruct (decide (n ≤ i)) as [Hle|Hlt].
  { step (write_turn_end a addr n i s j p Hr Hle). unfold write_result. rewrite (proj2 (Z.leb_le _ _)) by lia.
    replace (Z.to_nat (n - i)) with 0%nat by lia. unfold slice. rewrite take_0. cbn [pushes foldl]. by rewrite with_pipe_id. }
  destruct (decide (plen (pipes s a) = PIPESIZE)) as [Hl|Hl].
  - unfold write_result. rewrite (proj2 (Z.leb_gt _ _)) by lia. rewrite Hl, Z.sub_diag.
    unfold slice. change (Z.to_nat 0) with 0%nat. rewrite take_0. cbn [pushes foldl]. rewrite with_pipe_id.
    pose proof (write_turn_full a addr n i s j p Hr Hq ltac:(lia) Hl) as E. destruct (negb _ || _); by step E.
  - destruct (lookup_lt_is_Some_2 addr (Z.to_nat i)) as [c Hc]; [lia|].
    rewrite (bind_ok _ _ _ (inl (i + 1)) (plocked a (with_pipe a (push c (pipes s a)) s))).
    + rewrite IH; try done; [apply write_result_push; done || lia| |lia|lia]. cbn. rewrite fn_lookup_insert.
      apply push_wf; [done|lia].
    + unfold write_turn. rewrite (proj2 (Z.leb_gt _ _)) by lia.
      assert (getpipe a (plocked a s) = Ok (pipes s a) (plocked a s)) as Eg by done. step Eg.
      rewrite is_full_spec by done. rewrite (proj2 (Z.eqb_neq _ _)) by lia. by rewrite Hc.
Qed.

(** The turns of [piperead]. *)
Definition read_result (a : Z) (n : Z) (s : pst) (j : nat) (p : proc) : res pst (Z * list Z) :=
  let q := pipes s a in
  if bool_decide (contents q = []) && pi_writeopen q then
    if p_killed p then Ok (-1, []) s else Stop Switch (asleep (nread_chan a) j p s)
  else
    let r := read_loop (Z.to_nat n) q in
    Ok (Z.of_nat (length r.1), r.1) (woken (nwrite_chan a) (with_pipe a r.2 s)).

Lemma empty_contents q : pipe_wf q → is_empty q = bool_decide (contents q = []).
Proof.
  intros Hq. pose proof (plen_range q Hq). pose proof (contents_length q) as Hl. rewrite is_empty_spec by done.
  case_bool_decide as E.
  - rewrite E in Hl. cbn in Hl. apply Z.eqb_eq. lia.
  - apply Z.eqb_neq. intros E0. apply E, nil_length_inv. lia.
Qed.

Lemma piperead_locked_ok a n s j p : may_run a s j p → pipe_wf (pipes s a) →
  piperead_locked a n (plocked a s) = read_result a n s j p.
Proof.
  intros Hr Hq. unfold piperead_locked, read_result. cbn [loopM]. unfold read_turn.
  rewrite <- empty_contents by done.
  assert (getpipe a (plocked a s) = Ok (pipes s a) (plocked a s)) as Eg by done.
  destruct (is_empty (pipes s a) && pi_writeopen (pipes s a)) eqn:Ee.
  - destruct (p_killed p) eqn:Ek.
    + rewrite (bind_ok _ _ _ (inr (-1, [])) s); [done|]. step Eg. rewrite Ee. step (killed_pipe a s j p Hr). rewrite Ek.
      by step (release_pipe a s j p Hr).
    + rewrite (bind_stop _ _ _ Switch (asleep (nread_chan a) j p s)); [done|]. step Eg. rewrite Ee.
      step (killed_pipe a s j p Hr). rewrite Ek. by step (sleep_pipe a (nread_chan a) s j p Hr).
  - set (r := read_loop _ _). set (s' := with_pipe a r.2 s). assert (may_run a s' j p) as Hr' by done.
    rewrite (bind_ok _ _ _ (inr (Z.of_nat (length r.1), r.1)) (woken (nwrite_chan a) s')); [done|]. step Eg. rewrite Ee.
    rewrite (bind_ok _ _ _ tt (plocked a s')) by done.
    step (wakeup_pipe a (nwrite_chan a) s' j p Hr').
    by step (release_pipe a (woken (nwrite_chan a) s') j p (may_run_woken _ _ _ _ _ Hr')).
Qed.

(** ** Histories *)

Definition ends_in {A} (r : res pst A) (s : pst) : Prop := (∃ v, r = Ok v s) ∨ r = Stop Switch s.

(** Process [j] is switched back to inside [sleep], with [ptable.lock] held. *)
Definition resumed (s : pst) : pst := set_pmach (mlocked L_ptable (pmach s)) s.
Definition saved_if (s : pst) (e : bool) : Prop :=
  ∀ c, cpus (m_smp (pmach s)) !! cur (m_smp (pmach s)) = Some c → c_if c = e.

Section history.
Context (a : Z).

(** The bytes a turn of [pipewrite] put in the pipe, from position [i]. *)
Definition accepted (s s' : pst) (addr : list Z) (i : Z) : list Z :=
  slice (Z.to_nat i) (Z.to_nat (u32 (pi_nwrite (pipes s' a) - pi_nwrite (pipes s a)))) addr.

(** [turn s w r s']: a thread ran from [s] to [s'], wrote [w] and read [r]. *)
Inductive turn : pst → list Z → list Z → pst → Prop :=
  | turn_write s j p addr n s' : may_run a s j p → n ≤ Z.of_nat (length addr) →
      ends_in (pipewrite a addr n s) s' → turn s (accepted s s' addr 0) [] s'
  | turn_write_resume s j p e addr n i s' : may_run a s j p → saved_if s e → 0 ≤ i → n ≤ Z.of_nat (length addr) →
      ends_in (pipewrite_resume e a addr n i (resumed s)) s' → turn s (accepted s s' addr i) [] s'
  | turn_read s j p n v l s' : may_run a s j p → piperead a n s = Ok (v, l) s' → turn s [] l s'
  | turn_read_sleep s j p n s' : may_run a s j p → piperead a n s = Stop Switch s' → turn s [] [] s'
  | turn_read_resume s j p e n v l s' : may_run a s j p → saved_if s e →
      piperead_resume e a n (resumed s) = Ok (v, l) s' → turn s [] l s'
  | turn_read_resume_sleep s j p e n s' : may_run a s j p → saved_if s e →
      piperead_resume e a n (resumed s) = Stop Switch s' → turn s [] [] s'
  | turn_other s s' : pipes s' a = pipes s a → turn s [] [] s'.

Inductive history : pst → list Z → list Z → pst → Prop :=
  | history_nil s : history s [] [] s
  | history_turn s1 w1 r1 s2 w2 r2 s3 : turn s1 w1 r1 s2 → history s2 w2 r2 s3 → history s1 (w1 ++ w2) (r1 ++ r2) s3.

(** The state after [sleep] returned. *)
Definition back (j : nat) (p : proc) (s : pst) : pst :=
  set_pmach (set_ptable (<[j := with_chan None p]> (ptable (pmach s))) (pmach s)) s.

Lemma back_run s j p : may_run a s j p → may_run a (back j p s) j (with_chan None p).
Proof.
  intros ((Hm & Hi & c & Hc) & Hs & Hl & Hp). split; [|done]. split_and!.
  - destruct Hm. split; [done|]. cbn. by rewrite length_insert.
  - cbn. apply list_lookup_insert_eq. eauto using lookup_lt_Some.
  - by exists c.
Qed.

Lemma resume_lock s j p e : may_run a s j p → saved_if s e →
  pmM (sleep_resume e (L_pipe a)) (resumed s) = Ok tt (plocked a (back j p s)).
Proof.
  intros (Hr & _ & Hl & Hp) He.
  erewrite lift_ok; [|apply sleep_resume_ok; [exact Hr|exact Hl|exact Hp|apply L_pipe_ne|exact He]]. done.
Qed.

Lemma write_run s j p addr n : may_run a s j p → pipe_wf (pipes s a) → n ≤ Z.of_nat (length addr) →
  pipewrite a addr n s = write_result a addr n 0 s j p.
Proof.
  intros Hr Hq Hn. unfold pipewrite. step (acquire_pipe a s j p Hr). apply pipewrite_loop_ok; done || lia.
Qed.

Lemma write_resume_run s j p e addr n i : may_run a s j p → saved_if s e → pipe_wf (pipes s a) → 0 ≤ i →
  n ≤ Z.of_nat (length addr) →
  pipewrite_resume e a addr n i (resumed s) = write_result a addr n i (back j p s) j (with_chan None p).
Proof.
  intros Hr He Hq Hi Hn. unfold pipewrite_resume. step (resume_lock s j p e Hr He).
  apply pipewrite_loop_ok; [by apply back_run|done|done|done|lia].
Qed.

Lemma read_run s j p n : may_run a s j p → pipe_wf (pipes s a) → piperead a n s = read_result a n s j p.
Proof. intros Hr Hq. unfold piperead. step (acquire_pipe a s j p Hr). by apply piperead_locked_ok. Qed.

Lemma read_resume_run s j p e n : may_run a s j p → saved_if s e → pipe_wf (pipes s a) →
  piperead_resume e a n (resumed s) = read_result a n (back j p s) j (with_chan None p).
Proof.
  intros Hr He Hq. unfold piperead_resume. step (resume_lock s j p e Hr He).
  apply piperead_locked_ok; [by apply back_run|done].
Qed.

(** What a writing turn leaves in the pipe. *)
Lemma write_result_pipe addr n i s j p s' : pipe_wf (pipes s a) → 0 ≤ i → n ≤ Z.of_nat (length addr) →
  ends_in (write_result a addr n i s j p) s' →
  pipe_wf (pipes s' a) ∧ contents (pipes s a) ++ accepted s s' addr i = contents (pipes s' a).
Proof.
  intros Hq Hi Hn He. pose proof (plen_range _ Hq) as Hp.
  assert (∃ k, (Z.of_nat k ≤ PIPESIZE - plen (pipes s a) ∧ Z.of_nat k ≤ Z.max 0 (n - i)) ∧
    pipes s' a = pushes (slice (Z.to_nat i) k addr) (pipes s a)) as (k & [Hk Hkn] & E).
  { unfold write_result in He. destruct (Z.leb_spec (n - i) (PIPESIZE - plen (pipes s a))).
    - exists (Z.to_nat (n - i)). split; [lia|]. destruct He as [[v He]|He]; [|done]. injection He as _ <-. cbn. apply fn_lookup_insert.
    - exists (Z.to_nat (PIPESIZE - plen (pipes s a))). split; [lia|].
      destruct (negb _ || _); destruct He as [[v He]|He]; try done; [injection He as _ <-|injection He as <-]; cbn; apply fn_lookup_insert. }
  assert (length (slice (Z.to_nat i) k addr) = k) as Hlen by (destruct (decide (k = 0%nat)) as [->|]; [done|apply slice_length; lia]).
  destruct (pushes_spec (slice (Z.to_nat i) k addr) (pipes s a) Hq) as (W1 & W2 & W3 & _ & _ & W6); [lia|].
  rewrite E. split; [done|]. rewrite W2. f_equal. unfold accepted. f_equal.
  assert (u32 (pi_nwrite (pipes s' a) - pi_nwrite (pipes s a)) = Z.of_nat k) as ->; [|lia].
  rewrite E. rewrite Hlen in W3. unfold plen in W3. rewrite W6 in W3. destruct Hq as (_ & Hr & Hw & _). destruct W1 as (_ & _ & Hw' & _).
  unfold wrap, PIPESIZE in *.
  set (x := pi_nwrite (pushes _ _)) in *. set (y := pi_nwrite (pipes s a)) in *. set (z := pi_nread (pipes s a)) in *.
  pose proof (Z.div_mod (x - y) (2 ^ 32)). pose proof (Z.mod_pos_bound (x - y) (2 ^ 32)).
  pose proof (Z.div_mod (x - z) (2 ^ 32)). pose proof (Z.div_mod (y - z) (2 ^ 32)). unfold plen, wrap in Hp, Hk. fold y z in Hp, Hk. lia.
Qed.

Lemma read_result_pipe n s j p r s' : pipe_wf (pipes s a) → read_result a n s j p = r →
  (∀ v l, r = Ok (v, l) s' → pipe_wf (pipes s' a) ∧ contents (pipes s a) = l ++ contents (pipes s' a)) ∧
  (r = Stop Switch s' → pipes s' a = pipes s a).
Proof.
  intros Hq <-. unfold read_result. destruct (read_loop_spec (Z.to_nat n) (pipes s a) Hq) as (R1 & R2 & R3 & _).
  destruct (_ && _).
  - destruct (p_killed p); split; try done; intros; simplify_eq/=; done.
  - split; [|done]. intros v l E. injection E as _ <- <-. cbn [woken pipes with_pipe set_pipes set_pmach set_psk].
    rewrite fn_lookup_insert. split; [done|]. by rewrite R1, R2, take_drop.
Qed.

Lemma turn_queue s w r s' : turn s w r s' → pipe_wf (pipes s a) →
  pipe_wf (pipes s' a) ∧ contents (pipes s a) ++ w = r ++ contents (pipes s' a).
Proof.
  intros Ht Hq. destruct Ht as [s j p addr n s' Hr Hn E|s j p e addr n i s' Hr He Hi Hn E|s j p n v l s' Hr E|
    s j p n s' Hr E|s j p e n v l s' Hr He E|s j p e n s' Hr He E|s s' E].
  - rewrite (write_run s j p) in E by done. by eapply write_result_pipe in E.
  - rewrite (write_resume_run s j p) in E by done. by eapply write_result_pipe in E.
  - rewrite (read_run s j p) in E by done. rewrite app_nil_r.
    destruct (read_result_pipe n s j p _ s' Hq eq_refl) as [H _]. by eapply H.
  - rewrite (read_run s j p) in E by done. rewrite app_nil_r.
    destruct (read_result_pipe n s j p _ s' Hq eq_refl) as [_ H]. by rewrite (H E).
  - rewrite (read_resume_run s j p) in E by done. rewrite app_nil_r.
    destruct (read_result_pipe n (back j p s) j (with_chan None p) _ s' Hq eq_refl) as [H _]. by eapply H.
  - rewrite (read_resume_run s j p) in E by done. rewrite app_nil_r.
    destruct (read_result_pipe n (back j p s) j (with_chan None p) _ s' Hq eq_refl) as [_ H]. by rewrite (H E).
  - rewrite app_nil_r. by rewrite E.
Qed.

(** C7: a pipe is a queue.  In every history of turns of writers and readers,
    in any interleaving with the rest of the system, the bytes read are the
    bytes written, in order and without loss or repetition; the ones not yet
    read are in the buffer, also after the counters wrap around at 2^32. *)
Theorem pipe_fifo s w r s' : history s w r s' → pipe_wf (pipes s a) →
  pipe_wf (pipes s' a) ∧ contents (pipes s a) ++ w = r ++ contents (pipes s' a).
Proof.
  intros Hh. induction Hh as [s|s1 w1 r1 s2 w2 r2 s3 Ht Hh IH]; intros Hq; [by rewrite app_nil_r|].
  destruct (turn_queue _ _ _ _ Ht Hq) as [Hq2 E2]. destruct (IH Hq2) as [Hq3 E3]. split; [done|].
  by rewrite app_assoc, E2, <- app_assoc, E3, app_assoc.
Qed.

(** ** Wakeups *)

(** No process sleeps on the pipe while it could go on. *)
Definition no_lost (s : pst) : Prop := ∀ j p, ptable (pmach s) !! j = Some p → p_state p = SLEEPING →
  (p_chan p = Some (nread_chan a) → contents (pipes s a) = [] ∧ pi_writeopen (pipes s a) = true) ∧
  (p_chan p = Some (nwrite_chan a) → plen (pipes s a) = PIPESIZE ∧ pi_readopen (pipes s a) = true).

Lemma wake_lookup c (l : list proc) (j : nat) p : (wake c <$> l) !! j = Some p → p_state p = SLEEPING →
  l !! j = Some p ∧ p_chan p ≠ Some c.
Proof.
  rewrite list_lookup_fmap. destruct (l !! j) as [p0|]; [|done]. cbn. intros [= <-]. unfold wake.
  destruct (decide (p_state p0 = SLEEPING)) as [E1|E1].
  - rewrite (bool_decide_true _ E1). cbn. case_bool_decide; [done|]. done.
  - rewrite (bool_decide_false _ E1). done.
Qed.

Lemma no_lost_back s j p : may_run a s j p → no_lost s → no_lost (back j p s).
Proof.
  intros ((_ & Hi & _) & Hs & _) Hn j' p' Hp' Hsl. cbn in Hp'. destruct (decide (j = j')) as [<-|Hne].
  - rewrite list_lookup_insert_eq in Hp' by eauto using lookup_lt_Some. injection Hp' as <-. cbn in Hsl. congruence.
  - rewrite list_lookup_insert_ne in Hp' by done. by apply (Hn j').
Qed.

Lemma no_lost_write addr n i s j p s' : pipe_wf (pipes s a) → may_run a s j p → 0 ≤ i → n ≤ Z.of_nat (length addr) →
  no_lost s → ends_in (write_result a addr n i s j p) s' → write_result a addr n i s j p ≠ Ok (-1) s' ∨ n = -1 → no_lost s'.
Proof.
  intros Hq Hr Hi Hn Hl He Hok. pose proof (plen_range _ Hq) as Hp. unfold write_result in *.
  destruct (Z.leb_spec (n - i) (PIPESIZE - plen (pipes s a))) as [Hfit|Hfit].
  - destruct He as [[v He]|He]; [|done]. injection He as _ <-. intros j' p' Hp' Hs'. cbn in Hp'.
    apply wake_lookup in Hp' as [Hp' Hc]; [|done]. destruct (Hl j' p' Hp' Hs') as [_ Hw]. split; [done|]. intros Hc'.
    destruct (Hw Hc') as [Hfull Hro]. cbn. rewrite fn_lookup_insert. replace (Z.to_nat (n - i)) with 0%nat by lia.
    unfold slice. by rewrite take_0.
  - assert (length (slice (Z.to_nat i) (Z.to_nat (PIPESIZE - plen (pipes s a))) addr) = Z.to_nat (PIPESIZE - plen (pipes s a))) as Hlen.
    { apply slice_length. lia. }
    destruct (pushes_spec (slice (Z.to_nat i) (Z.to_nat (PIPESIZE - plen (pipes s a))) addr) (pipes s a) Hq) as (_ & _ & W3 & W4 & _); [lia|].
    rewrite Hlen in W3. destruct (negb (pi_readopen (pipes s a)) || p_killed p) eqn:Eb.
    + destruct He as [[v He]|He]; [|done]. exfalso. destruct Hok as [Hok| ->]; [|lia]. congruence.
    + destruct He as [[v He]|He]; [done|]. injection He as <-. apply orb_false_iff in Eb as [Eb _]. apply negb_false_iff in Eb.
      intros j' p' Hp' Hs'. cbn in Hp' |- *. rewrite fn_lookup_insert. destruct (decide (j = j')) as [<-|Hne].
      * rewrite list_lookup_insert_eq in Hp'.
        2:{ rewrite length_fmap. destruct Hr as ((_ & Hi' & _) & _). eauto using lookup_lt_Some. }
        injection Hp' as <-. cbn. split; [done|]. intros _. rewrite W4. split; [lia|done].
      * rewrite list_lookup_insert_ne in Hp' by done. apply wake_lookup in Hp' as [Hp' Hc]; [|done]. split; [done|].
        intros _. rewrite W4. split; [lia|done].
Qed.

Lemma no_lost_read n s j p s' : pipe_wf (pipes s a) → may_run a s j p → no_lost s →
  ends_in (read_result a n s j p) s' → no_lost s'.
Proof.
  intros Hq Hr Hl He. unfold read_result in He. destruct (_ && _) eqn:Eb.
  - apply andb_true_iff in Eb as [Ee Ew]. apply bool_decide_eq_true in Ee.
    destruct (p_killed p); destruct He as [[v He]|He]; try done; [injection He as _ <-; done|]. injection He as <-.
    intros j' p' Hp' Hs'. cbn in Hp'. destruct (decide (j = j')) as [<-|Hne].
    + destruct Hr as ((_ & Hi & _) & _). rewrite list_lookup_insert_eq in Hp' by eauto using lookup_lt_Some.
      injection Hp' as <-. cbn. split; [done|]. intros E. discriminate E.
    + rewrite list_lookup_insert_ne in Hp' by done. by apply (Hl j').
  - destruct He as [[v He]|He]; [|done]. injection He as _ <-. intros j' p' Hp' Hs'. cbn in Hp'.
    apply wake_lookup in Hp' as [Hp' Hc]; [|done]. destruct (Hl j' p' Hp' Hs') as [Hrd _]. split; [|done]. intros Hc'.
    destruct (Hrd Hc') as [Ee Ew]. rewrite Ee, Ew in Eb. discriminate Eb.
Qed.


(** A killed writer leaves readers asleep.  [pipewrite] of more bytes
    than fit by a process that was killed fills the buffer and returns -1
    without a wakeup: a reader that sleeps on the empty pipe stays asleep
    although the buffer is full. *)
Theorem pipewrite_killed s j p addr n : may_run a s j p → pipe_wf (pipes s a) → p_killed p = true →
  PIPESIZE - plen (pipes s a) < n ≤ Z.of_nat (length addr) →
  ∃ s', pipewrite a addr n s = Ok (-1) s' ∧ plen (pipes s' a) = PIPESIZE ∧ ptable (pmach s') = ptable (pmach s).
Proof.
  intros Hr Hq Hk Hn. pose proof (plen_range _ Hq) as Hp.
  rewrite (write_run s j p) by (done || lia). unfold write_result. rewrite Z.sub_0_r, (proj2 (Z.leb_gt _ _)) by lia.
  rewrite Hk, orb_true_r. eexists. split; [done|]. split; [|done]. cbn. rewrite fn_lookup_insert.
  assert (length (slice (Z.to_nat 0) (Z.to_nat (PIPESIZE - plen (pipes s a))) addr) = Z.to_nat (PIPESIZE - plen (pipes s a))) as Hl.
  { apply slice_length. cbn. lia. }
  destruct (pushes_spec (slice (Z.to_nat 0) (Z.to_nat (PIPESIZE - plen (pipes s a))) addr) (pipes s a) Hq) as (_ & _ & E & _); [lia|].
  etrans; [exact E|]. lia.
Qed.

(** The state in which one end was closed. *)
Definition close_end (writable : bool) (q : pipe) : pipe :=
  if writable then mkPipe (pi_data q) (pi_nread q) (pi_nwrite q) (pi_readopen q) false
  else mkPipe (pi_data q) (pi_nread q) (pi_nwrite q) false (pi_writeopen q).
Definition end_chan (writable : bool) : chan := if writable then nread_chan a else nwrite_chan a.

Lemma pipeclose_run kend s j p w : may_run a s j p →
  pipeclose kend a w s =
  let s' := woken (end_chan w) (with_pipe a (close_end w (pipes s a)) s) in
  if negb (pi_readopen (close_end w (pipes s a))) && negb (pi_writeopen (close_end w (pipes s a)))
  then pkM (kfree kend a) s' else Ok tt s'.
Proof.
  intros Hr. unfold pipeclose. step (acquire_pipe a s j p Hr).
  assert (getpipe a (plocked a s) = Ok (pipes s a) (plocked a s)) as Eg by done. step Eg.
  set (s1 := with_pipe a (close_end w (pipes s a)) s). assert (may_run a s1 j p) as Hr1 by done.
  rewrite (bind_ok _ _ _ tt (plocked a (woken (end_chan w) s1))).
  2:{ destruct w; (rewrite (bind_ok _ _ _ tt (plocked a s1)) by done); by apply wakeup_pipe with j p. }
  pose proof (may_run_woken a (end_chan w) s1 j p Hr1) as Hr2.
  assert (getpipe a (plocked a (woken (end_chan w) s1)) = Ok (close_end w (pipes s a)) (plocked a (woken (end_chan w) s1))) as Eg2.
  { unfold getpipe. go. cbn. by rewrite fn_lookup_insert. }
  step Eg2. destruct (_ && _).
  - by step (release_pipe a _ j p Hr2).
  - apply (release_pipe a _ j p Hr2).
Qed.

(** End of file.  Closing the write end of a pipe that is still open for
    reading keeps its bytes and wakes every sleeping reader; from then on
    [piperead] never sleeps and returns what is left, and nothing once the
    pipe is empty. *)
Theorem pipeclose_eof kend s j p : may_run a s j p → pipe_wf (pipes s a) → pi_readopen (pipes s a) = true →
  ∃ s', pipeclose kend a true s = Ok tt s' ∧ contents (pipes s' a) = contents (pipes s a) ∧
    (∀ k pk, ptable (pmach s') !! k = Some pk → p_state pk = SLEEPING → p_chan pk ≠ Some (nread_chan a)) ∧
    (∀ n, 0 ≤ n → ∃ s2, piperead a n s' =
       Ok (Z.min n (plen (pipes s a)), take (Z.to_nat n) (contents (pipes s a))) s2 ∧
       contents (pipes s2 a) = drop (Z.to_nat n) (contents (pipes s a))).
Proof.
  intros Hr Hq Ho. pose proof (plen_range _ Hq) as Hp. rewrite (pipeclose_run kend s j p true Hr). cbv zeta.
  assert (negb (pi_readopen (close_end true (pipes s a))) && negb (pi_writeopen (close_end true (pipes s a))) = false) as ->.
  { cbn. by rewrite Ho. }
  eexists. split; [done|].
  set (s' := woken _ _). assert (may_run a s' j p) as Hr' by (by apply may_run_woken).
  assert (pipes s' a = close_end true (pipes s a)) as Ep by apply fn_lookup_insert.
  assert (pipe_wf (pipes s' a)) as Hq' by (rewrite Ep; done).
  split; [by rewrite Ep|]. split.
  - intros k pk Hk Hs. by apply wake_lookup in Hk as [_ ?].
  - intros n Hn. rewrite (read_run s' j p) by done. unfold read_result.
    destruct (read_loop_spec (Z.to_nat n) (pipes s' a) Hq') as (R1 & R2 & _).
    assert (contents (pipes s' a) = contents (pipes s a)) as Ec by (by rewrite Ep). rewrite Ec in *.
    assert (pi_writeopen (pipes s' a) = false) as -> by (by rewrite Ep). rewrite andb_false_r, R1. eexists. split.
    + do 2 f_equal. rewrite length_take, contents_length. lia.
    + cbn [woken pipes with_pipe set_pipes set_pmach set_psk]. rewrite fn_lookup_insert. exact R2.
Qed.
End history.

(** ** A pipe whose counters are about to wrap *)

Definition ex_pmach : mach :=
  mkMach (mkSmp 0 [mkCpu true 0 true (Some 0%nat)] (λ _, free_lock))
    (with_state RUNNING zero_proc :: with_chan (Some (nread_chan 0)) (with_state SLEEPING zero_proc) :: replicate 62 zero_proc) 1 None.
Definition ex_pipe : pipe := mkPipe (replicate 512 0) (2 ^ 32 - 1) (2 ^ 32 - 1) true true.
Definition ex_pst : pst := mkPst (mkKst ex_pmach (ks_k ex_kst)) (λ _, ex_pipe).

Lemma ex_may_run a : may_run a ex_pst 0 (with_state RUNNING zero_proc).
Proof.
  split; [|done]. split; [|split; [done|by eexists]]. split; [|done]. eexists. split; [done|].
  unfold cpu_bal. cbn. split_and!; lia || done.
Qed.

Lemma ex_pipe_wf : pipe_wf ex_pipe.
Proof. split; [reflexivity|]. split; [cbn; lia|]. split; [cbn; lia|]. vm_compute. discriminate. Qed.

(** Three bytes written and two read. *)
Lemma pipe_fifo_witness : ∃ s', history 0 ex_pst [1; 2; 3] [1; 2] s' ∧ contents (pipes s' 0) = [3].
Proof.
  pose proof (ex_may_run 0) as Hr. set (s1 := after (pipewrite 0 [1; 2; 3] 3) ex_pst).
  assert (pipewrite 0 [1; 2; 3] 3 ex_pst = write_result 0 [1; 2; 3] 3 0 ex_pst 0 (with_state RUNNING zero_proc)) as E1.
  { apply write_run; [exact Hr|exact ex_pipe_wf|cbn; lia]. }
  assert (s1 = woken (nread_chan 0) (with_pipe 0 (pushes [1; 2; 3] ex_pipe) ex_pst)) as Es1 by (unfold s1, after; rewrite E1; reflexivity).
  assert (pipewrite 0 [1; 2; 3] 3 ex_pst = Ok 3 s1) as E1' by (rewrite Es1, E1; reflexivity).
  assert (may_run 0 s1 0 (with_state RUNNING zero_proc)) as Hr1.
  { rewrite Es1. apply may_run_woken, may_run_pipe. exact Hr. }
  assert (pipes s1 0 = pushes [1; 2; 3] ex_pipe) as Ep1 by (rewrite Es1; reflexivity).
  destruct (pushes_spec [1; 2; 3] ex_pipe ex_pipe_wf) as (Hq1 & Hc1 & _); [vm_compute; discriminate|].
  set (s2 := after (piperead 0 2) s1).
  assert (piperead 0 2 s1 = Ok (2, [1; 2]) s2) as E2.
  { unfold s2, after. rewrite (read_run 0 s1 0 _ 2 Hr1) by (rewrite Ep1; exact Hq1). unfold read_result. rewrite Ep1. reflexivity. }
  exists s2.
  assert (history 0 ex_pst [1; 2; 3] [1; 2] s2) as Hh.
  { assert (turn 0 ex_pst [1; 2; 3] [] s1) as T1.
    { assert (accepted 0 ex_pst s1 [1; 2; 3] 0 = [1; 2; 3]) as Ea by (unfold accepted; rewrite Ep1; reflexivity).
      rewrite <- Ea. eapply turn_write; [exact Hr| |left; exists 3; exact E1']. cbn. lia. }
    assert (turn 0 s1 [] [1; 2] s2) as T2 by (eapply turn_read; [exact Hr1|exact E2]).
    exact (history_turn 0 _ [1; 2; 3] [] _ [] [1; 2] _ T1 (history_turn 0 _ [] [1; 2] _ [] [] _ T2 (history_nil 0 _))). }
  split; [exact Hh|]. destruct (pipe_fifo 0 ex_pst [1; 2; 3] [1; 2] s2 Hh ex_pipe_wf) as [_ E].
  assert (contents (pipes ex_pst 0) = []) as E0 by reflexivity. rewrite E0 in E. revert E.
  generalize (contents (pipes s2 0)). intros l E. cbn in E. injection E as <-. reflexivity.
Defined.

Lemma ex_no_lost : no_lost 0 ex_pst.
Proof.
  intros j p Hj Hs. split.
  - intros _. split; reflexivity.
  - intros Hc. destruct j as [|[|j]]; cbn in Hj.
    + injection Hj as <-. discriminate Hs.
    + injection Hj as <-. discriminate Hc.
    + change (replicate 62 zero_proc !! j = Some p) in Hj. apply lookup_replicate_1 in Hj as [-> _]. discriminate Hs.
Qed.


Definition ex_killed : pst :=
  set_pmach (set_ptable (<[0%nat := with_killed true (with_state RUNNING zero_proc)]> (ptable ex_pmach)) ex_pmach) ex_pst.

Lemma pipewrite_killed_witness : ∃ s', pipewrite 0 (replicate 600 7) 600 ex_killed = Ok (-1) s' ∧
  plen (pipes s' 0) = PIPESIZE ∧ p_state <$> (ptable (pmach s') !! 1%nat) = Some SLEEPING.
Proof.
  destruct (pipewrite_killed 0 ex_killed 0 (with_killed true (with_state RUNNING zero_proc)) (replicate 600 7) 600)
    as (s' & E & Hl & Ht).
  - split; [|done]. split; [|split; [done|by eexists]]. split; [|done]. eexists. split; [done|].
    unfold cpu_bal. cbn. split_and!; lia || done.
  - exact ex_pipe_wf.
  - reflexivity.
  - split; [reflexivity|]. rewrite length_replicate. lia.
  - exists s'. split; [exact E|]. split; [exact Hl|]. rewrite Ht. reflexivity.
Defined.

Lemma pipeclose_eof_witness : ∃ s', pipeclose ex_kend 0 true ex_pst = Ok tt s' ∧
  ∃ s2, piperead 0 4 s' = Ok (0, []) s2.
Proof.
  destruct (pipeclose_eof 0 ex_kend ex_pst 0 (with_state RUNNING zero_proc)) as (s' & E & _ & _ & H).
  - apply ex_may_run.
  - exact ex_pipe_wf.
  - reflexivity.
  - exists s'. split; [exact E|]. destruct (H 4) as (s2 & E2 & _); [lia|]. exists s2. exact E2.
Defined.
