(* ===== verification/File.v ===== *)
(** * The kernel state, the file table (kernel/file.c) and pipealloc

    [ker] puts the layers together: the file system over a transaction layer
    [T] (which holds the machine), the page allocator, the pipes, the file
    table, the clock and the flag [first] of [forkret].  [kfsM], [kkM], [ppM]
    and [kmM] run code of the file system, the allocator, the pipes and the
    machine in it.  A [struct file *] is an index of [ftable.file]; a pipe
    pointer is the address of its page and an inode pointer an index of the
    inode cache.  [fileread] returns the bytes it stores in the user buffer,
    and [addr] of [filewrite] is the user buffer. *)

From S2P Require Import Prelude Bytes Spinlock Sched Bio Ondisk Log Txn CString Fs Dir Kalloc Pipe.

Definition NFILE : nat := 100.

Inductive filetype := FD_NONE | FD_PIPE | FD_INODE.
#[export] Instance filetype_eq_dec : EqDecision filetype.
Proof. solve_decision. Defined.

Record file := mkFile {
  fl_type : filetype;
  fl_ref : Z;
  fl_readable : bool;
  fl_writable : bool;
  fl_pipe : Z;
  fl_ip : nat;
  fl_off : Z
}.

Definition zero_file : file := mkFile FD_NONE 0 false false 0 0 0.
Definition fl_set_ref (x : Z) (f : file) : file :=
  mkFile (fl_type f) x (fl_readable f) (fl_writable f) (fl_pipe f) (fl_ip f) (fl_off f).
Definition fl_set_type (x : filetype) (f : file) : file :=
  mkFile x (fl_ref f) (fl_readable f) (fl_writable f) (fl_pipe f) (fl_ip f) (fl_off f).
Definition fl_set_off (x : Z) (f : file) : file :=
  mkFile (fl_type f) (fl_ref f) (fl_readable f) (fl_writable f) (fl_pipe f) (fl_ip f) x.

Record ker (T : Type) := mkKer {
  k_fs : fs T;
  k_mem : kmem;
  k_pipes : Z → pipe;
  k_files : list file;
  k_ticks : Z;
  k_first : bool
}.
Arguments mkKer {T}.
Arguments k_fs {T}.
Arguments k_mem {T}.
Arguments k_pipes {T}.
Arguments k_files {T}.
Arguments k_ticks {T}.
Arguments k_first {T}.

Definition L_ftable : lockid := ("ftable", 0).

Section code.
Context {T : Type} `{TxnOps T} `{DevSw T} (kend : Z).

Definition set_kfs (x : fs T) (k : ker T) : ker T :=
  mkKer x (k_mem k) (k_pipes k) (k_files k) (k_ticks k) (k_first k).
Definition set_kmem (x : kmem) (k : ker T) : ker T :=
  mkKer (k_fs k) x (k_pipes k) (k_files k) (k_ticks k) (k_first k).
Definition set_kpipes (x : Z → pipe) (k : ker T) : ker T :=
  mkKer (k_fs k) (k_mem k) x (k_files k) (k_ticks k) (k_first k).
Definition set_kfiles (x : list file) (k : ker T) : ker T :=
  mkKer (k_fs k) (k_mem k) (k_pipes k) x (k_ticks k) (k_first k).
Definition set_kticks (x : Z) (k : ker T) : ker T :=
  mkKer (k_fs k) (k_mem k) (k_pipes k) (k_files k) x (k_first k).
Definition set_kfirst (x : bool) (k : ker T) : ker T :=
  mkKer (k_fs k) (k_mem k) (k_pipes k) (k_files k) (k_ticks k) x.

Definition kmach (k : ker T) : mach := tmach (f_t (k_fs k)).
Definition set_kmach (m : mach) (k : ker T) : ker T :=
  set_kfs (set_ft (set_tmach m (f_t (k_fs k))) (k_fs k)) k.
Definition kkst (k : ker T) : kst := mkKst (kmach k) (k_mem k).
Definition set_kkst (x : kst) (k : ker T) : ker T := set_kmem (ks_k x) (set_kmach (ks_m x) k).
Definition kpst (k : ker T) : pst := mkPst (kkst k) (k_pipes k).
Definition set_kpst (x : pst) (k : ker T) : ker T := set_kpipes (pipes x) (set_kkst (ps_k x) k).

Abbreviation kfsM := (lift k_fs set_kfs).
Abbreviation kmM := (lift kmach set_kmach).
Abbreviation kkM := (lift kkst set_kkst).
Abbreviation ppM := (lift kpst set_kpst).
Definition begin_opK : M (ker T) unit := kfsM (lift f_t set_ft t_begin_op).
Definition end_opK : M (ker T) unit := kfsM (lift f_t set_ft t_end_op).

Definition getfile (f : nat) : M (ker T) file := k ← get; need (k_files k !! f).
Definition setfile (f : nat) (g : file → file) : M (ker T) unit :=
  modify (λ k, set_kfiles (alter g f (k_files k)) k).

Definition fileinit : M (ker T) unit := kmM (smpM (initlock L_ftable)).

Definition filealloc : M (ker T) (option nat) :=
  kmM (smpM (acquire L_ftable)) ;;;
  r ← for_each (seq 0 NFILE) (λ f,
        x ← getfile f;
        if fl_ref x =? 0 then setfile f (fl_set_ref 1) ;;; ret (Some f) else ret None);
  kmM (smpM (release L_ftable)) ;;;
  ret r.

Definition filedup (f : nat) : M (ker T) nat :=
  kmM (smpM (acquire L_ftable)) ;;;
  x ← getfile f;
  if fl_ref x <? 1 then panic "filedup" else
  setfile f (fl_set_ref (fl_ref x + 1)) ;;;
  kmM (smpM (release L_ftable)) ;;;
  ret f.

Definition fileclose (f : nat) : M (ker T) unit :=
  kmM (smpM (acquire L_ftable)) ;;;
  x ← getfile f;
  if fl_ref x <? 1 then panic "fileclose" else
  setfile f (fl_set_ref (fl_ref x - 1)) ;;;
  if 0 <? fl_ref x - 1 then kmM (smpM (release L_ftable)) else
  ff ← getfile f;
  setfile f (fl_set_ref 0) ;;;
  setfile f (fl_set_type FD_NONE) ;;;
  kmM (smpM (release L_ftable)) ;;;
  match fl_type ff with
  | FD_PIPE => ppM (pipeclose kend (fl_pipe ff) (fl_writable ff))
  | FD_INODE => begin_opK ;;; kfsM (iput (fl_ip ff)) ;;; end_opK
  | FD_NONE => ret tt
  end.

Definition filestat (f : nat) : M (ker T) (option stat) :=
  x ← getfile f;
  match fl_type x with
  | FD_INODE =>
      kfsM (ilock (fl_ip x)) ;;;
      st ← kfsM (stati (fl_ip x));
      kfsM (iunlock (fl_ip x)) ;;;
      ret (Some st)
  | _ => ret None
  end.

Definition fileread (f : nat) (n : Z) : M (ker T) (Z * list Z) :=
  x ← getfile f;
  if negb (fl_readable x) then ret (-1, []) else
  match fl_type x with
  | FD_PIPE => ppM (piperead (fl_pipe x) n)
  | FD_INODE =>
      kfsM (ilock (fl_ip x)) ;;;
      r ← kfsM (readi (fl_ip x) (fl_off x) (u32 n));
      whenM (0 <? i32 r.1) (setfile f (λ x, fl_set_off (u32 (fl_off x + r.1)) x)) ;;;
      kfsM (iunlock (fl_ip x)) ;;;
      ret (i32 r.1, r.2)
  | FD_NONE => panic "fileread"
  end.

(** [((LOGSIZE-1-1-2) / 2) * 512] *)
Definition WRITE_MAX : Z := (Z.of_nat LOGSIZE - 1 - 1 - 2) / 2 * 512.

(** One turn of [while(i < n)]; [inr] leaves the loop with [i]. *)
Definition write_chunk (f : nat) (addr : list Z) (n : Z) (i : Z) : M (ker T) (Z + Z) :=
  if n <=? i then ret (inr i) else
  let n1 := Z.min (n - i) WRITE_MAX in
  begin_opK ;;;
  x ← getfile f;
  kfsM (ilock (fl_ip x)) ;;;
  r ← kfsM (writei (fl_ip x) (drop (Z.to_nat i) addr) (fl_off x) n1);
  whenM (0 <? r) (setfile f (λ x, fl_set_off (u32 (fl_off x + r)) x)) ;;;
  kfsM (iunlock (fl_ip x)) ;;;
  end_opK ;;;
  if r <? 0 then ret (inr i) else
  if negb (r =? n1) then panic "short filewrite" else
  ret (inl (i + r)).

Definition filewrite (f : nat) (addr : list Z) (n : Z) : M (ker T) Z :=
  x ← getfile f;
  if negb (fl_writable x) then ret (-1) else
  match fl_type x with
  | FD_PIPE => ppM (pipewrite (fl_pipe x) addr n)
  | FD_INODE =>
      i ← loopM (S (Z.to_nat n)) (write_chunk f addr n) 0;
      ret (if i =? n then n else -1)
  | FD_NONE => panic "filewrite"
  end.

(** [pipealloc] returns the two files, or [None] for -1. *)
Definition pipealloc : M (ker T) (option (nat * nat)) :=
  f0 ← filealloc;
  f1 ← (match f0 with None => ret None | Some _ => filealloc end);
  p ← (match f0, f1 with Some _, Some _ => kkM kalloc | _, _ => ret 0 end);
  match f0, f1 with
  | Some f0, Some f1 =>
      if p =? 0 then fileclose f0 ;;; fileclose f1 ;;; ret None else
      k ← get;
      ppM (setpipe p (mkPipe (pi_data (k_pipes k p)) 0 0 true true)) ;;;
      kmM (smpM (initlock (L_pipe p))) ;;;
      setfile f0 (λ x, mkFile FD_PIPE (fl_ref x) true false p (fl_ip x) (fl_off x)) ;;;
      setfile f1 (λ x, mkFile FD_PIPE (fl_ref x) false true p (fl_ip x) (fl_off x)) ;;;
      ret (Some (f0, f1))
  | _, _ =>
      (match f0 with Some f0 => fileclose f0 | None => ret tt end) ;;;
      (match f1 with Some f1 => fileclose f1 | None => ret tt end) ;;;
      ret None
  end.
End code.

Abbreviation kfsM := (lift k_fs set_kfs).
Abbreviation kmM := (lift kmach set_kmach).
Abbreviation kkM := (lift kkst set_kkst).
Abbreviation ppM := (lift kpst set_kpst).
