(* ===== verification/Proc.v ===== *)
(** * Processes (kernel/proc.c)

    Creation, exit and collection of processes and the scheduler, on top of
    the table of Sched.v.  [switchuvm] checks the page table and otherwise
    only loads registers.  The scheduler is cut at [swtch]: [scheduler_scan]
    runs up to the switch to a process and [scheduler_back] is what it does
    when the process switches back.  [wait_resume] is the rest of a [wait]
    that slept.  [procdump] prints and is not modelled. *)

From S2P Require Import Prelude Bytes Spinlock Sched Bio Ondisk Log Txn CString Fs Dir Kalloc Vm Pipe File.

Definition KSTACKSIZE : Z := 4096.
Definition SEG_UCODE : Z := 4.
Definition SEG_UDATA : Z := 5.
Definition DPL_USER : Z := 3.
Definition FL_IF : Z := 0x200.
Definition proc_chan (i : nat) : chan := ("proc", Z.of_nat i).

(** [p == &ptable.proc[i]] for a parent pointer. *)
Definition is_parent (i : nat) (p : proc) : bool := bool_decide (p_parent p = Some i).

(** [switchuvm]: the registers it loads are not part of the state. *)
Definition switchuvm (p : proc) : M mach unit :=
  smpM pushcli ;;;
  if p_pgdir p =? 0 then panic "switchuvm: no pgdir" else
  smpM popcli.

(** The first unused slot becomes an embryo with a new pid. *)
Definition alloc_slot : M mach (option nat) :=
  smpM (acquire L_ptable) ;;;
  r ← for_each (seq 0 NPROC) (λ i,
        p ← getproc i; ret (if bool_decide (p_state p = UNUSED) then Some i else None));
  match r with
  | None => smpM (release L_ptable) ;;; ret None
  | Some i =>
      setproc i (with_state EMBRYO) ;;;
      m ← get;
      setproc i (with_pid (nextpid m)) ;;;
      modify (λ m, mkMach (m_smp m) (ptable m) (i32 (nextpid m + 1)) (initproc m)) ;;;
      smpM (release L_ptable) ;;;
      ret (Some i)
  end.

(** The new context, which starts in [forkret], is not part of the state. *)
Definition allocproc : M kst (option nat) :=
  r ← ksM alloc_slot;
  match r with
  | None => ret None
  | Some i =>
      v ← kalloc;
      ksM (setproc i (with_kstack v)) ;;;
      if v =? 0 then ksM (setproc i (with_state UNUSED)) ;;; ret None
      else ret (Some i)
  end.

(** [int n] is added to an [unsigned int]; [allocuvm] and [deallocuvm] return [int]. *)
Definition grow_size (kend pgdir sz n : Z) : M kst (option Z) :=
  if 0 <? n then
    r ← allocuvm kend pgdir sz (u32 (sz + n));
    ret (if r =? 0 then None else Some (u32 r))
  else if n <? 0 then
    r ← deallocuvm kend pgdir sz (u32 (sz + n));
    ret (if r =? 0 then None else Some (u32 r))
  else ret (Some sz).

Definition growproc (kend : Z) (n : Z) : M kst Z :=
  i ← ksM curproc;
  p ← ksM (getproc i);
  r ← grow_size kend (p_pgdir p) (u32 (p_sz p)) n;
  match r with
  | None => ret (-1)
  | Some sz =>
      ksM (setproc i (with_sz sz)) ;;;
      p ← ksM (getproc i);
      ksM (switchuvm p) ;;;
      ret 0
  end.

(** The scan of [wait] for a zombie child: [inl] is its slot, [inr] whether
    there are children at all. *)
Fixpoint wait_scan (me : nat) (l : list proc) (i : nat) (havekids : bool) : nat + bool :=
  match l with
  | [] => inr havekids
  | p :: l' =>
      if negb (is_parent me p) then wait_scan me l' (S i) havekids else
      if bool_decide (p_state p = ZOMBIE) then inl i else wait_scan me l' (S i) true
  end.

Definition reap_proc (p : proc) : proc :=
  with_killed false (with_name (<[0%nat := 0]> (p_name p))
    (with_parent None (with_pid 0 (with_state UNUSED p)))).

(** One turn of [for(;;)]; [inr] leaves [wait]. *)
Definition wait_turn (kend : Z) (me : nat) (_ : unit) : M kst (unit + Z) :=
  m ← ksM get;
  match wait_scan me (ptable m) 0 false with
  | inl i =>
      p ← ksM (getproc i);
      kfree kend (p_kstack p) ;;;
      ksM (setproc i (with_kstack 0)) ;;;
      freevm kend (p_pgdir p) ;;;
      ksM (setproc i reap_proc) ;;;
      ksM (smpM (release L_ptable)) ;;;
      ret (inr (p_pid p))
  | inr havekids =>
      p ← ksM (getproc me);
      if negb havekids || p_killed p then
        ksM (smpM (release L_ptable)) ;;;
        ret (inr (-1))
      else
        ksM (sleep (proc_chan me) L_ptable) ;;;
        ret (inl tt)
  end.

Definition wait_locked (kend : Z) (me : nat) : M kst Z := loopM 1 (wait_turn kend me) tt.

Definition wait (kend : Z) : M kst Z :=
  me ← ksM curproc;
  ksM (smpM (acquire L_ptable)) ;;;
  wait_locked kend me.

Definition wait_resume (kend : Z) (intena : bool) : M kst Z :=
  ksM (sleep_resume intena L_ptable) ;;;
  me ← ksM curproc;
  wait_locked kend me.

(** The part of [exit] under [ptable.lock]: the parent is woken, the children
    are passed to [initproc], and the process becomes a zombie. *)
Definition orphan (me : nat) (i : nat) : M mach unit :=
  p ← getproc i;
  whenM (is_parent me p) (
    m ← get;
    setproc i (with_parent (initproc m)) ;;;
    whenM (bool_decide (p_state p = ZOMBIE)) (
      match initproc m with Some ip => wakeup1 (proc_chan ip) | None => ret tt end)).

Definition exit_locked (me : nat) : M mach unit :=
  p ← getproc me;
  (match p_parent p with Some pp => wakeup1 (proc_chan pp) | None => ret tt end) ;;;
  for_all (seq 0 NPROC) (orphan me) ;;;
  setproc me (with_state ZOMBIE) ;;;
  sched ;;;
  panic "zombie exit".

(** ** The scheduler *)

Definition set_cpu_proc (o : option nat) : M smp unit :=
  modify (set_cpu (λ c, mkCpu (c_if c) (c_ncli c) (c_intena c) o)).

Definition scheduler_start : M mach unit :=
  smpM sti ;;;
  smpM (acquire L_ptable).

(** From slot [i] up to [swtch] to the process found, or the end of the table. *)
Definition scheduler_scan (i : nat) : M mach (option nat) :=
  for_each (seq i (NPROC - i)) (λ j,
    p ← getproc j;
    if negb (bool_decide (p_state p = RUNNABLE)) then ret None else
    smpM (set_cpu_proc (Some j)) ;;;
    switchuvm p ;;;
    setproc j (with_state RUNNING) ;;;
    ret (Some j)).

(** The process switched back. *)
Definition scheduler_back : M mach unit := smpM (set_cpu_proc None).

Definition scheduler_end : M mach unit := smpM (release L_ptable).

Section code.
Context {T : Type} `{TxnOps T} `{DevSw T} (kend kpdpt : Z).

(** [_binary_out_initcode_start] is a linker symbol: [initcode] is its contents. *)
Definition userinit (initcode : list Z) : M (ker T) unit :=
  r ← kkM allocproc;
  i ← need r;
  kmM (modify (λ m, mkMach (m_smp m) (ptable m) (nextpid m) (Some i))) ;;;
  pgdir ← kkM (setupkvm kpdpt);
  kmM (setproc i (with_pgdir pgdir)) ;;;
  if pgdir =? 0 then panic "userinit: out of memory?" else
  kkM (inituvm pgdir initcode) ;;;
  kmM (setproc i (with_sz PGSIZE)) ;;;
  kmM (setproc i (with_tf (mkTf 0 0 0 0 0 0 0 0 0 0 0 0 0 0 0 0 0 0
    (Z.lor (Z.shiftl SEG_UCODE 3) DPL_USER) FL_IF PGSIZE (Z.lor (Z.shiftl SEG_UDATA 3) DPL_USER)))) ;;;
  kmM (setproc i (λ p, with_name (splice 0 (safestrcpy (105 :: 110 :: 105 :: 116 :: 99 :: 111 :: 100 :: 101 :: [0]) 16) (p_name p)) p)) ;;;
  cwd ← kfsM (namei [47; 0]);
  kmM (setproc i (with_cwd cwd)) ;;;
  kmM (setproc i (with_state RUNNABLE)).

Definition tf_set_eax (x : Z) (t : trapframe) : trapframe :=
  mkTf x (tf_rbx t) (tf_rcx t) (tf_rdx t) (tf_rbp t) (tf_rsi t) (tf_rdi t) (tf_r8 t) (tf_r9 t) (tf_r10 t)
    (tf_r11 t) (tf_r12 t) (tf_r13 t) (tf_r14 t) (tf_r15 t) (tf_trapno t) (tf_err t) (tf_eip t) (tf_cs t)
    (tf_eflags t) (tf_esp t) (tf_ds t).

(** One iteration over the descriptors of the parent. *)
Definition dup_fd (np : nat) (fd : nat) (o : option nat) : M (ker T) unit :=
  match o with
  | None => ret tt
  | Some f =>
      f' ← filedup f;
      kmM (setproc np (λ q, with_ofile (<[fd := Some f']> (p_ofile q)) q))
  end.

Fixpoint dup_fds (np : nat) (fd : nat) (l : list (option nat)) : M (ker T) unit :=
  match l with
  | [] => ret tt
  | o :: l' => dup_fd np fd o ;;; dup_fds np (S fd) l'
  end.

Definition fork : M (ker T) Z :=
  r ← kkM allocproc;
  match r with
  | None => ret (-1)
  | Some np =>
      me ← kmM curproc;
      p ← kmM (getproc me);
      pgdir ← kkM (copyuvm kend kpdpt (p_pgdir p) (u32 (p_sz p)));
      kmM (setproc np (with_pgdir pgdir)) ;;;
      if pgdir =? 0 then
        q ← kmM (getproc np);
        kkM (kfree kend (p_kstack q)) ;;;
        kmM (setproc np (with_kstack 0)) ;;;
        kmM (setproc np (with_state UNUSED)) ;;;
        ret (-1)
      else
        kmM (setproc np (with_sz (p_sz p))) ;;;
        kmM (setproc np (with_parent (Some me))) ;;;
        kmM (setproc np (with_tf (tf_set_eax 0 (p_tf p)))) ;;;
        dup_fds np 0 (p_ofile p) ;;;
        cwd ← need (p_cwd p);
        cwd' ← kfsM (idup cwd);
        kmM (setproc np (with_cwd (Some cwd'))) ;;;
        kmM (setproc np (λ q, with_name (splice 0 (safestrcpy (p_name p) 16) (p_name q)) q)) ;;;
        q ← kmM (getproc np);
        kmM (smpM (acquire L_ptable)) ;;;
        kmM (setproc np (with_state RUNNABLE)) ;;;
        kmM (smpM (release L_ptable)) ;;;
        ret (p_pid q)
  end.

Definition close_fd (me : nat) (fd : nat) : M (ker T) unit :=
  p ← kmM (getproc me);
  o ← need (p_ofile p !! fd);
  match o with
  | None => ret tt
  | Some f =>
      fileclose kend f ;;;
      kmM (setproc me (λ p, with_ofile (<[fd := None]> (p_ofile p)) p))
  end.

Definition exit : M (ker T) unit :=
  me ← kmM curproc;
  m ← kmM get;
  if bool_decide (initproc m = Some me) then panic "init exiting" else
  for_all (seq 0 NOFILE) (close_fd me) ;;;
  begin_opK ;;;
  p ← kmM (getproc me);
  cwd ← need (p_cwd p);
  kfsM (iput cwd) ;;;
  end_opK ;;;
  kmM (setproc me (with_cwd None)) ;;;
  kmM (smpM (acquire L_ptable)) ;;;
  kmM (exit_locked me).

(** [initlog] is part of the transaction layer. *)
Definition forkret (initlog : M T unit) : M (ker T) unit :=
  kmM (smpM (release L_ptable)) ;;;
  k ← get;
  whenM (k_first k) (
    modify (set_kfirst false) ;;;
    kfsM (lift f_t set_ft initlog)).
End code.
