(* ===== verification/Syscall.v ===== *)
(** * System call arguments (kernel/syscall.c) and user memory

    The kernel reads user memory through the page table of the running
    process: [kva] is the hardware translation of an address below the user
    limit in kernel mode, and an address that is not mapped is a page fault,
    which [trap] turns into a panic.  The functions return [None] for -1. *)

From S2P Require Import Prelude Bytes Spinlock Sched CString Kalloc Vm.

(** The slots 510 and 511 of the page directory hold kernel data, not page tables. *)
Definition UTOP : Z := 0x3FC00000.

Definition kva (pgdir va : Z) : M kst Z :=
  if (va <? 0) || (UTOP <=? va) then panic "trap" else
  r ← walkpgdir pgdir va false;
  match r with
  | None => panic "trap"
  | Some (tab, i) =>
      pte ← getw tab i;
      if has pte PTE_P then ret (p2v (PTE_ADDR pte)) else panic "trap"
  end.

Definition loadb (pgdir va : Z) : M kst Z :=
  a ← kva pgdir va;
  s ← get;
  ret (peek (pages (ks_k s) a) (Z.to_nat (va mod PGSIZE))).
Definition storeb (pgdir va c : Z) : M kst unit :=
  a ← kva pgdir va;
  s ← get;
  set_page a (poke (pages (ks_k s) a) (Z.to_nat (va mod PGSIZE)) c).

Fixpoint uload (pgdir va : Z) (n : nat) : M kst (list Z) :=
  match n with
  | O => ret []
  | S k => c ← loadb pgdir va; l ← uload pgdir (va + 1) k; ret (c :: l)
  end.
Fixpoint ustore (pgdir va : Z) (l : list Z) : M kst unit :=
  match l with
  | [] => ret tt
  | c :: l' => storeb pgdir va c ;;; ustore pgdir (va + 1) l'
  end.

(** The global [proc], dereferenced. *)
Definition thisproc : M kst proc := i ← ksM curproc; ksM (getproc i).

Definition fetchint (addr : Z) : M kst (option Z) :=
  p ← thisproc;
  if (p_sz p <=? addr) || (p_sz p <? u64 (addr + 4)) then ret None else
  l ← uload (p_pgdir p) addr 4;
  ret (Some (i32 (le_val l))).

Definition fetchuintp (addr : Z) : M kst (option Z) :=
  p ← thisproc;
  if (p_sz p <=? addr) || (p_sz p <? u64 (addr + 8)) then ret None else
  l ← uload (p_pgdir p) addr 8;
  ret (Some (le_val l)).

(** [for(s = *pp; s < ep; s++)]; the length is [s - *pp]. *)
Definition str_step (pgdir addr ep : Z) (s : Z) : M kst (Z + option Z) :=
  if ep <=? s then ret (inr None) else
  c ← loadb pgdir s;
  if c =? 0 then ret (inr (Some (i32 (s - addr)))) else ret (inl (s + 1)).

(** The pointer stored through [pp] is [addr]. *)
Definition fetchstr (addr : Z) : M kst (option Z) :=
  p ← thisproc;
  if p_sz p <=? addr then ret None else
  loopM (S (Z.to_nat (p_sz p - addr))) (str_step (p_pgdir p) addr (p_sz p)) addr.

Definition fetcharg (n : Z) : M kst Z :=
  p ← thisproc;
  let tf := p_tf p in
  ret (if n =? 0 then tf_rdi tf else
       if n =? 1 then tf_rsi tf else
       if n =? 2 then tf_rdx tf else
       if n =? 3 then tf_rcx tf else
       if n =? 4 then tf_r8 tf else
       if n =? 5 then tf_r9 tf else 0).

Definition argint (n : Z) : M kst Z := x ← fetcharg n; ret (i32 x).
Definition arguintp (n : Z) : M kst Z := fetcharg n.

Definition argptr (n size : Z) : M kst (option Z) :=
  i ← arguintp n;
  p ← thisproc;
  if (p_sz p <=? i) || (p_sz p <? u64 (i + size)) then ret None else ret (Some i).

(** The pointer and the length. *)
Definition argstr (n : Z) : M kst (option (Z * Z)) :=
  addr ← arguintp n;
  r ← fetchstr addr;
  ret (match r with None => None | Some len => if len <? 0 then None else Some (addr, len) end).

(** The string at a pointer [argstr] accepted, with its NUL, as the kernel
    reads it later: user memory that is not shared does not change in between. *)
Definition ustring (r : Z * Z) : M kst (list Z) :=
  p ← thisproc; uload (p_pgdir p) r.1 (S (Z.to_nat r.2)).
