(* ===== verification/Exec.v ===== *)
(** * Program loading (kernel/exec.c, include/elf.h, loaduvm of kernel/vm.c)

    [path] and the strings of [argv] are C strings in memory, with their NUL;
    [argv] ends where the array has its null pointer.  The label [bad] is
    [exec_bad]: the page table is freed and, if [ip] is still held, the inode
    is released.  The segments are read in the order of the program headers. *)

From S2P Require Import Prelude Bytes Spinlock Sched Bio Ondisk Log Txn CString Fs Dir Kalloc Vm Pipe File Proc.

Definition ELF_MAGIC : Z := 0x464C457F.
Definition ELF_PROG_LOAD : Z := 1.
Definition MAXARG : nat := 32.
Definition ELFHDR : Z := 64.
Definition PROGHDR : Z := 56.

Record elfhdr := mkElf {
  e_magic : Z; e_elf : list Z; e_type : Z; e_machine : Z; e_version : Z; e_entry : Z; e_phoff : Z;
  e_shoff : Z; e_flags : Z; e_ehsize : Z; e_phentsize : Z; e_phnum : Z; e_shentsize : Z; e_shnum : Z;
  e_shstrndx : Z
}.

Record proghdr := mkPh {
  ph_type : Z; ph_flags : Z; ph_off : Z; ph_vaddr : Z; ph_paddr : Z; ph_filesz : Z; ph_memsz : Z;
  ph_align : Z
}.

Definition elf_dec (l : list Z) : elfhdr :=
  mkElf (get32 0 l) (slice 4 12 l) (get16 16 l) (get16 18 l) (get32 20 l) (get64 24 l) (get64 32 l)
    (get64 40 l) (get32 48 l) (get16 52 l) (get16 54 l) (get16 56 l) (get16 58 l) (get16 60 l) (get16 62 l).
Definition ph_dec (l : list Z) : proghdr :=
  mkPh (get32 0 l) (get32 4 l) (get64 8 l) (get64 16 l) (get64 24 l) (get64 32 l) (get64 40 l) (get64 48 l).

(** The loop that finds the last element of the path: [last] is the text
    after the last slash before the NUL. *)
Fixpoint last_elem (s last : list Z) : list Z :=
  match s with
  | [] => last
  | c :: s' => if c =? 0 then last else last_elem s' (if c =? 47 then s' else last)
  end.

Section code.
Context {T : Type} `{TxnOps T} `{DevSw T} (kend kpdpt : Z).

(** [uint i, pa, n]. *)
Definition load_step (pgdir addr : Z) (ip : nat) (offset sz : Z) (i : Z) : M (ker T) (Z + Z) :=
  if sz <=? i then ret (inr 0) else
  r ← kkM (walkpgdir pgdir (u64 (addr + i)) false);
  match r with
  | None => panic "loaduvm: address should exist"
  | Some (tab, j) =>
      pte ← kkM (getw tab j);
      let pa := u32 (PTE_ADDR pte) in
      let n := if sz - i <? PGSIZE then sz - i else PGSIZE in
      rd ← kfsM (readi ip (u32 (offset + i)) n);
      k ← get;
      kkM (set_page (p2v pa) (splice 0 rd.2 (pages (k_mem k) (p2v pa)))) ;;;
      if negb (u32 rd.1 =? n) then ret (inr (-1)) else ret (inl (u32 (i + PGSIZE)))
  end.

Definition loaduvm (pgdir addr : Z) (ip : nat) (offset sz : Z) : M (ker T) Z :=
  if negb (addr mod PGSIZE =? 0) then panic "loaduvm: addr must be page aligned" else
  loopM (S (S (Z.to_nat (sz / PGSIZE)))) (load_step pgdir addr ip offset sz) 0.

Definition exec_bad (pgdir : Z) (ip : option nat) : M (ker T) Z :=
  (if pgdir =? 0 then ret tt else kkM (freevm kend pgdir)) ;;;
  (match ip with
   | Some ip => kfsM (iunlockput ip) ;;; end_opK
   | None => ret tt
   end) ;;;
  ret (-1).

(** One program header: the new [sz], or [None] for [goto bad]. *)
Definition exec_segment (ip : nat) (pgdir sz off : Z) : M (ker T) (option Z) :=
  r ← kfsM (readi ip (u32 off) PROGHDR);
  if negb (r.1 =? PROGHDR) then ret None else
  let ph := ph_dec r.2 in
  if negb (ph_type ph =? ELF_PROG_LOAD) then ret (Some sz) else
  if ph_memsz ph <? ph_filesz ph then ret None else
  sz ← kkM (allocuvm kend pgdir (u32 sz) (u32 (ph_vaddr ph + ph_memsz ph)));
  if sz =? 0 then ret None else
  l ← loaduvm pgdir (ph_vaddr ph) ip (u32 (ph_off ph)) (u32 (ph_filesz ph));
  if l <? 0 then ret None else ret (Some (u64 sz)).

(** [int off]. *)
Fixpoint exec_segments (ip : nat) (pgdir : Z) (phnum : nat) (sz off : Z) : M (ker T) (option Z) :=
  match phnum with
  | O => ret (Some sz)
  | S k =>
      r ← exec_segment ip pgdir sz off;
      match r with
      | None => ret None
      | Some sz => exec_segments ip pgdir k sz (i32 (off + PROGHDR))
      end
  end.

(** The argument strings are pushed; [ustack] collects their addresses. *)
Fixpoint exec_args (pgdir : Z) (argv : list (list Z)) (argc : nat) (sp : Z) (ustack : list Z)
    : M (ker T) (option (Z * list Z)) :=
  match argv with
  | [] => ret (Some (sp, ustack))
  | s :: argv' =>
      if (MAXARG <=? argc)%nat then ret None else
      let n := Z.of_nat (strlen s) + 1 in
      let sp := Z.land (u64 (sp - n)) (u64 (Z.lnot 7)) in
      r ← kkM (copyout pgdir (u32 sp) (take (Z.to_nat n) s));
      if r <? 0 then ret None else
      exec_args pgdir argv' (S argc) sp (ustack ++ [sp])
  end.

Definition tf_set_args (rdi rsi : Z) (t : trapframe) : trapframe :=
  mkTf (tf_eax t) (tf_rbx t) (tf_rcx t) (tf_rdx t) (tf_rbp t) rsi rdi (tf_r8 t) (tf_r9 t) (tf_r10 t)
    (tf_r11 t) (tf_r12 t) (tf_r13 t) (tf_r14 t) (tf_r15 t) (tf_trapno t) (tf_err t) (tf_eip t) (tf_cs t)
    (tf_eflags t) (tf_esp t) (tf_ds t).
Definition tf_set_entry (eip esp : Z) (t : trapframe) : trapframe :=
  mkTf (tf_eax t) (tf_rbx t) (tf_rcx t) (tf_rdx t) (tf_rbp t) (tf_rsi t) (tf_rdi t) (tf_r8 t) (tf_r9 t)
    (tf_r10 t) (tf_r11 t) (tf_r12 t) (tf_r13 t) (tf_r14 t) (tf_r15 t) (tf_trapno t) (tf_err t) eip
    (tf_cs t) (tf_eflags t) esp (tf_ds t).

(** From [sz = PGROUNDUP(sz)] on: the stack, the arguments and the commit. *)
Definition exec_image (path : list Z) (argv : list (list Z)) (pgdir sz entry : Z) : M (ker T) Z :=
  let sz := PGROUNDUP sz in
  sz ← kkM (allocuvm kend pgdir (u32 sz) (u32 (sz + 2 * PGSIZE)));
  if sz =? 0 then exec_bad pgdir None else
  let sz := u64 sz in
  kkM (clearpteu pgdir (u64 (sz - 2 * PGSIZE))) ;;;
  r ← exec_args pgdir argv 0 sz [];
  match r with
  | None => exec_bad pgdir None
  | Some (sp, args) =>
      let argc := Z.of_nat (length args) in
      let ustack := [0xffffffff; argc; u64 (sp - (argc + 1) * 8)] ++ args ++ [0] in
      me ← kmM curproc;
      kmM (setproc me (λ p, with_tf (tf_set_args argc (u64 (sp - (argc + 1) * 8)) (p_tf p)) p)) ;;;
      let sp := u64 (sp - (3 + argc + 1) * 8) in
      r ← kkM (copyout pgdir (u32 sp) (ustack ≫= le_bytes 8));
      if r <? 0 then exec_bad pgdir None else
      kmM (setproc me (λ p, with_name (splice 0 (safestrcpy (last_elem path path) 16) (p_name p)) p)) ;;;
      p ← kmM (getproc me);
      kmM (setproc me (with_pgdir pgdir)) ;;;
      kmM (setproc me (with_sz sz)) ;;;
      kmM (setproc me (λ p, with_tf (tf_set_entry entry sp (p_tf p)) p)) ;;;
      q ← kmM (getproc me);
      kmM (switchuvm q) ;;;
      kkM (freevm kend (p_pgdir p)) ;;;
      ret 0
  end.

(** [readi(..) < sizeof(elf)] is an unsigned comparison, so -1 passes it and
    [elf] is read uninitialised. *)
Definition exec (path : list Z) (argv : list (list Z)) : M (ker T) Z :=
  begin_opK ;;;
  r ← kfsM (namei path);
  match r with
  | None => end_opK ;;; ret (-1)
  | Some ip =>
      kfsM (ilock ip) ;;;
      rd ← kfsM (readi ip 0 ELFHDR);
      if u64 rd.1 <? ELFHDR then exec_bad 0 (Some ip) else
      if rd.1 <? 0 then halt Undef else
      let elf := elf_dec rd.2 in
      if negb (e_magic elf =? ELF_MAGIC) then exec_bad 0 (Some ip) else
      pgdir ← kkM (setupkvm kpdpt);
      if pgdir =? 0 then exec_bad 0 (Some ip) else
      r ← exec_segments ip pgdir (Z.to_nat (e_phnum elf)) 0 (i32 (e_phoff elf));
      match r with
      | None => exec_bad pgdir (Some ip)
      | Some sz =>
          kfsM (iunlockput ip) ;;;
          end_opK ;;;
          exec_image path argv pgdir sz (e_entry elf)
      end
  end.
End code.
