(* ===== verification/Sysfile.v ===== *)
(** * File system calls (kernel/sysfile.c)

    The handlers read their arguments from the trap frame and user memory,
    and store their results there.  Strings are read when the handler uses
    them.  A handler that sleeps stops with [Switch].  The local arrays
    [name] are written by [nameiparent] before they are used. *)

From S2P Require Import Prelude Bytes Spinlock Sched Bio Ondisk Log Txn CString Fs Dir Kalloc Vm Pipe File Proc Syscall Exec.

Definition O_RDONLY : Z := 0.
Definition O_WRONLY : Z := 1.
Definition O_RDWR : Z := 2.
Definition O_CREATE : Z := 0x200.
Definition DOT : list Z := [46; 0].
Definition DOTDOT : list Z := [46; 46; 0].

Definition i_set_dev (major minor : Z) (i : inode) : inode :=
  mkInode (i_dev i) (i_inum i) (i_ref i) (i_flags i) (i_type i) major minor (i_nlink i)
    (i_ownerid i) (i_groupid i) (i_mode i) (i_size i) (i_addrs i).
Definition i_add_nlink (d : Z) (i : inode) : inode := i_set_nlink (i16 (i_nlink i + d)) i.

(** The first free slot of a table of descriptors. *)
Fixpoint free_fd (l : list (option nat)) (fd : nat) : option nat :=
  match l with
  | [] => None
  | None :: _ => Some fd
  | Some _ :: l' => free_fd l' (S fd)
  end.

Section code.
Context {T : Type} `{TxnOps T} `{DevSw T} (kend kpdpt : Z).

Definition thisK : M (ker T) proc := kkM thisproc.

(** The descriptor and its file. *)
Definition argfd (n : Z) : M (ker T) (option (nat * nat)) :=
  fd ← kkM (argint n);
  if (fd <? 0) || (Z.of_nat NOFILE <=? fd) then ret None else
  p ← thisK;
  o ← need (p_ofile p !! Z.to_nat fd);
  ret (match o with None => None | Some f => Some (Z.to_nat fd, f) end).

Definition fdalloc (f : nat) : M (ker T) Z :=
  me ← kmM curproc;
  p ← kmM (getproc me);
  match free_fd (p_ofile p) 0 with
  | None => ret (-1)
  | Some fd =>
      kmM (setproc me (λ p, with_ofile (<[fd := Some f]> (p_ofile p)) p)) ;;;
      ret (Z.of_nat fd)
  end.

Definition sys_dup : M (ker T) Z :=
  r ← argfd 0;
  match r with
  | None => ret (-1)
  | Some (_, f) =>
      fd ← fdalloc f;
      if fd <? 0 then ret (-1) else
      filedup f ;;;
      ret fd
  end.

(** The arguments of [read] and [write]: file, buffer and size. *)
Definition arg_rw : M (ker T) (option (nat * Z * Z)) :=
  r ← argfd 0;
  match r with
  | None => ret None
  | Some (_, f) =>
      n ← kkM (argint 2);
      p ← kkM (argptr 1 n);
      ret (match p with None => None | Some p => Some (f, p, n) end)
  end.

Definition sys_read : M (ker T) Z :=
  r ← arg_rw;
  match r with
  | None => ret (-1)
  | Some (f, p, n) =>
      rd ← fileread f n;
      q ← thisK;
      kkM (ustore (p_pgdir q) p rd.2) ;;;
      ret rd.1
  end.

Definition sys_write : M (ker T) Z :=
  r ← arg_rw;
  match r with
  | None => ret (-1)
  | Some (f, p, n) =>
      q ← thisK;
      buf ← kkM (uload (p_pgdir q) p (Z.to_nat n));
      filewrite f buf n
  end.

Definition sys_close : M (ker T) Z :=
  r ← argfd 0;
  match r with
  | None => ret (-1)
  | Some (fd, f) =>
      me ← kmM curproc;
      kmM (setproc me (λ p, with_ofile (<[fd := None]> (p_ofile p)) p)) ;;;
      fileclose kend f ;;;
      ret 0
  end.

(** The fields of [struct stat]; the padding is not written. *)
Definition put_stat (pgdir a : Z) (st : stat) : M kst unit :=
  ustore pgdir (a + 4) (le_bytes 4 (st_dev st)) ;;;
  ustore pgdir (a + 8) (le_bytes 4 (st_ino st)) ;;;
  ustore pgdir a (le_bytes 2 (st_type st)) ;;;
  ustore pgdir (a + 12) (le_bytes 2 (st_nlink st)) ;;;
  ustore pgdir (a + 24) (le_bytes 4 (st_size st)) ;;;
  ustore pgdir (a + 14) (le_bytes 2 (st_ownerid st)) ;;;
  ustore pgdir (a + 16) (le_bytes 2 (st_groupid st)) ;;;
  ustore pgdir (a + 20) (le_bytes 4 (st_mode st)).

Definition sys_fstat : M (ker T) Z :=
  r ← argfd 0;
  match r with
  | None => ret (-1)
  | Some (_, f) =>
      a ← kkM (argptr 1 28);
      match a with
      | None => ret (-1)
      | Some a =>
          st ← filestat f;
          match st with
          | None => ret (-1)
          | Some st => q ← thisK; kkM (put_stat (p_pgdir q) a st) ;;; ret 0
          end
      end
  end.

(** The label [bad] of [sys_link]. *)
Definition link_bad (ip : nat) : M (ker T) Z :=
  kfsM (ilock ip) ;;;
  kfsM (set_inode ip (i_add_nlink (-1))) ;;;
  kfsM (iupdate ip) ;;;
  kfsM (iunlockput ip) ;;;
  end_opK ;;;
  ret (-1).

(** [sys_link] after [argstr]. *)
Definition link (old new : list Z) : M (ker T) Z :=
  begin_opK ;;;
  r ← kfsM (namei old);
  match r with
  | None => end_opK ;;; ret (-1)
  | Some ip =>
      kfsM (ilock ip) ;;;
      x ← kfsM (inode_of ip);
      if i_type x =? T_DIR then kfsM (iunlockput ip) ;;; end_opK ;;; ret (-1) else
      kfsM (set_inode ip (i_add_nlink 1)) ;;;
      kfsM (iupdate ip) ;;;
      kfsM (iunlock ip) ;;;
      r ← kfsM (nameiparent new (replicate DIRSIZ 0));
      match r with
      | (None, _) => link_bad ip
      | (Some dp, name) =>
          kfsM (ilock dp) ;;;
          d ← kfsM (inode_of dp);
          x ← kfsM (inode_of ip);
          l ← (if negb (i_dev d =? i_dev x) then ret (-1) else kfsM (dirlink dp name (i_inum x)));
          if l <? 0 then kfsM (iunlockput dp) ;;; link_bad ip else
          kfsM (iunlockput dp) ;;;
          kfsM (iput ip) ;;;
          end_opK ;;;
          ret 0
      end
  end.

Definition sys_link : M (ker T) Z :=
  o ← kkM (argstr 0);
  match o with
  | None => ret (-1)
  | Some o =>
      n ← kkM (argstr 1);
      match n with
      | None => ret (-1)
      | Some n => old ← kkM (ustring o); new ← kkM (ustring n); link old new
      end
  end.

Definition dirempty_step (dp : nat) (off : Z) : M (fs T) (Z + bool) :=
  ip ← inode_of dp;
  if i_size ip <=? u32 off then ret (inr true) else
  r ← readi dp (u32 off) DE;
  if negb (r.1 =? DE) then panic "isdirempty: readi" else
  if negb (de_inum (dirent_dec r.2) =? 0) then ret (inr false) else ret (inl (i32 (off + DE))).

Definition isdirempty (dp : nat) : M (fs T) bool :=
  ip ← inode_of dp;
  loopM (dir_fuel (i_size ip)) (dirempty_step dp) (2 * DE).

(** The label [bad] of [sys_unlink]. *)
Definition unlink_bad (dp : nat) : M (ker T) Z :=
  kfsM (iunlockput dp) ;;;
  end_opK ;;;
  ret (-1).

(** [sys_unlink] after [argstr]. *)
Definition unlink (path : list Z) : M (ker T) Z :=
  begin_opK ;;;
  r ← kfsM (nameiparent path (replicate DIRSIZ 0));
  match r with
  | (None, _) => end_opK ;;; ret (-1)
  | (Some dp, name) =>
      kfsM (ilock dp) ;;;
      if (namecmp name DOT =? 0) || (namecmp name DOTDOT =? 0) then unlink_bad dp else
      r ← kfsM (dirlookup dp name);
      match r with
      | None => unlink_bad dp
      | Some (ip, off) =>
          kfsM (ilock ip) ;;;
          x ← kfsM (inode_of ip);
          if i_nlink x <? 1 then panic "unlink: nlink < 1" else
          e ← (if i_type x =? T_DIR then kfsM (isdirempty ip) else ret true);
          if negb e then kfsM (iunlockput ip) ;;; unlink_bad dp else
          n ← kfsM (writei dp (replicate DIRENT 0) off DE);
          if negb (n =? DE) then panic "unlink: writei" else
          whenM (i_type x =? T_DIR) (
            kfsM (set_inode dp (i_add_nlink (-1))) ;;;
            kfsM (iupdate dp)) ;;;
          kfsM (iunlockput dp) ;;;
          kfsM (set_inode ip (i_add_nlink (-1))) ;;;
          kfsM (iupdate ip) ;;;
          kfsM (iunlockput ip) ;;;
          end_opK ;;;
          ret 0
      end
  end.

Definition sys_unlink : M (ker T) Z :=
  r ← kkM (argstr 0);
  match r with
  | None => ret (-1)
  | Some r => path ← kkM (ustring r); unlink path
  end.

Definition create (path : list Z) (type major minor : Z) : M (fs T) (option nat) :=
  r ← nameiparent path (replicate DIRSIZ 0);
  match r with
  | (None, _) => ret None
  | (Some dp, name) =>
      ilock dp ;;;
      r ← dirlookup dp name;
      match r with
      | Some (ip, _) =>
          iunlockput dp ;;;
          ilock ip ;;;
          x ← inode_of ip;
          if (type =? T_FILE) && (i_type x =? T_FILE) then ret (Some ip) else
          iunlockput ip ;;;
          ret None
      | None =>
          d ← inode_of dp;
          ip ← ialloc (i_dev d) type;
          ilock ip ;;;
          set_inode ip (i_set_dev major minor) ;;;
          set_inode ip (i_set_nlink 1) ;;;
          iupdate ip ;;;
          x ← inode_of ip;
          whenM (type =? T_DIR) (
            set_inode dp (i_add_nlink 1) ;;;
            iupdate dp ;;;
            a ← dirlink ip DOT (i_inum x);
            b ← (if a <? 0 then ret a else dirlink ip DOTDOT (i_inum d));
            if b <? 0 then panic "create dots" else ret tt) ;;;
          l ← dirlink dp name (i_inum x);
          if l <? 0 then panic "create: dirlink" else
          iunlockput dp ;;;
          ret (Some ip)
      end
  end.

(** The inode of [sys_open], locked, or [None] after [end_op]. *)
Definition open_inode (path : list Z) (omode : Z) : M (ker T) (option nat) :=
  if has omode O_CREATE then
    r ← kfsM (create path T_FILE 0 0);
    match r with
    | None => end_opK ;;; ret None
    | Some ip => ret (Some ip)
    end
  else
    r ← kfsM (namei path);
    match r with
    | None => end_opK ;;; ret None
    | Some ip =>
        kfsM (ilock ip) ;;;
        x ← kfsM (inode_of ip);
        if (i_type x =? T_DIR) && negb (omode =? O_RDONLY) then
          kfsM (iunlockput ip) ;;; end_opK ;;; ret None
        else ret (Some ip)
    end.

(** [sys_open] after the arguments. *)
Definition open (path : list Z) (omode : Z) : M (ker T) Z :=
  begin_opK ;;;
  r ← open_inode path omode;
  match r with
  | None => ret (-1)
  | Some ip =>
      f ← filealloc;
      fd ← (match f with None => ret (-1) | Some f => fdalloc f end);
      match f with
      | None => kfsM (iunlockput ip) ;;; end_opK ;;; ret (-1)
      | Some f =>
          if fd <? 0 then
            fileclose kend f ;;; kfsM (iunlockput ip) ;;; end_opK ;;; ret (-1)
          else
            kfsM (iunlock ip) ;;;
            end_opK ;;;
            setfile f (λ x, mkFile FD_INODE (fl_ref x) (negb (has omode O_WRONLY))
                              (has omode O_WRONLY || has omode O_RDWR) (fl_pipe x) ip 0) ;;;
            ret fd
      end
  end.

Definition sys_open : M (ker T) Z :=
  r ← kkM (argstr 0);
  match r with
  | None => ret (-1)
  | Some r => omode ← kkM (argint 1); path ← kkM (ustring r); open path omode
  end.

(** The end of [sys_mkdir] and [sys_mknod]. *)
Definition put_created (r : option nat) : M (ker T) Z :=
  match r with
  | None => end_opK ;;; ret (-1)
  | Some ip => kfsM (iunlockput ip) ;;; end_opK ;;; ret 0
  end.

Definition sys_mkdir : M (ker T) Z :=
  begin_opK ;;;
  a ← kkM (argstr 0);
  r ← (match a with
       | None => ret None
       | Some a => path ← kkM (ustring a); kfsM (create path T_DIR 0 0)
       end);
  put_created r.

Definition sys_mknod : M (ker T) Z :=
  begin_opK ;;;
  a ← kkM (argstr 0);
  r ← (match a with
       | None => ret None
       | Some a =>
           major ← kkM (argint 1);
           minor ← kkM (argint 2);
           path ← kkM (ustring a);
           kfsM (create path T_DEV (i16 major) (i16 minor))
       end);
  put_created r.

Definition sys_chdir : M (ker T) Z :=
  begin_opK ;;;
  a ← kkM (argstr 0);
  r ← (match a with
       | None => ret None
       | Some a => path ← kkM (ustring a); kfsM (namei path)
       end);
  match r with
  | None => end_opK ;;; ret (-1)
  | Some ip =>
      kfsM (ilock ip) ;;;
      x ← kfsM (inode_of ip);
      if negb (i_type x =? T_DIR) then kfsM (iunlockput ip) ;;; end_opK ;;; ret (-1) else
      kfsM (iunlock ip) ;;;
      me ← kmM curproc;
      p ← kmM (getproc me);
      cwd ← need (p_cwd p);
      kfsM (iput cwd) ;;;
      end_opK ;;;
      kmM (setproc me (with_cwd (Some ip))) ;;;
      ret 0
  end.

(** The loop of [sys_exec] over the user array: [None] is [return -1]. *)
Fixpoint exec_argv (room : nat) (uargv : Z) : M kst (option (list (Z * Z))) :=
  match room with
  | O => ret None
  | S k =>
      r ← fetchuintp uargv;
      match r with
      | None => ret None
      | Some uarg =>
          if uarg =? 0 then ret (Some []) else
          s ← fetchstr uarg;
          match s with
          | None => ret None
          | Some len =>
              if len <? 0 then ret None else
              l ← exec_argv k (u64 (uargv + 8));
              ret (match l with None => None | Some l => Some ((uarg, len) :: l) end)
          end
      end
  end.

Fixpoint ustrings (l : list (Z * Z)) : M kst (list (list Z)) :=
  match l with
  | [] => ret []
  | r :: l' => s ← ustring r; t ← ustrings l'; ret (s :: t)
  end.

Definition sys_exec : M (ker T) Z :=
  a ← kkM (argstr 0);
  match a with
  | None => ret (-1)
  | Some a =>
      uargv ← kkM (arguintp 1);
      r ← kkM (exec_argv MAXARG uargv);
      match r with
      | None => ret (-1)
      | Some l =>
          path ← kkM (ustring a);
          argv ← kkM (ustrings l);
          exec kend kpdpt path argv
      end
  end.

Definition sys_pipe : M (ker T) Z :=
  a ← kkM (argptr 0 8);
  match a with
  | None => ret (-1)
  | Some a =>
      r ← pipealloc kend;
      match r with
      | None => ret (-1)
      | Some (rf, wf) =>
          fd0 ← fdalloc rf;
          fd1 ← (if fd0 <? 0 then ret (-1) else fdalloc wf);
          me ← kmM curproc;
          if (fd0 <? 0) || (fd1 <? 0) then
            whenM (0 <=? fd0)
              (kmM (setproc me (λ p, with_ofile (<[Z.to_nat fd0 := None]> (p_ofile p)) p))) ;;;
            fileclose kend rf ;;;
            fileclose kend wf ;;;
            ret (-1)
          else
            q ← thisK;
            kkM (ustore (p_pgdir q) a (le_bytes 4 fd0)) ;;;
            kkM (ustore (p_pgdir q) (a + 4) (le_bytes 4 fd1)) ;;;
            ret 0
      end
  end.

(** [sys_chmod] after the arguments. *)
Definition chmod (path : list Z) (mode : Z) : M (ker T) Z :=
  begin_opK ;;;
  r ← kfsM (namei path);
  match r with
  | None => end_opK ;;; ret (-1)
  | Some ip =>
      kfsM (ilock ip) ;;;
      kfsM (set_inode ip (i_set_mode (u32 mode))) ;;;
      kfsM (iupdate ip) ;;;
      kfsM (iunlockput ip) ;;;
      end_opK ;;;
      ret 0
  end.

Definition sys_chmod : M (ker T) Z :=
  r ← kkM (argstr 0);
  match r with
  | None => ret (-1)
  | Some r => mode ← kkM (argint 1); path ← kkM (ustring r); chmod path mode
  end.
End code.
