(* ===== verification/Trap.v ===== *)
(** * Process system calls, dispatch and traps (kernel/sysproc.c,
    kernel/syscall.c, kernel/trap.c)

    [trap] is entered with the saved registers.  The interrupt handlers of
    the disk, the keyboard and the serial port are the class [IrqOps]; the
    acknowledgement of an interrupt and the messages printed are not part of
    the state.  A handler that sleeps stops with [Switch]; the rest of
    [sys_sleep] and of a [trap] that yields are [sys_sleep_resume] and
    [trap_resume]. *)

From S2P Require Import Prelude Bytes Spinlock Sched Bio Ondisk Log Txn CString Fs Dir Kalloc Vm Pipe File Proc Syscall Exec Sysfile.

Definition T_SYSCALL : Z := 64.
Definition T_IRQ0 : Z := 32.
Definition IRQ_TIMER : Z := 0.
Definition IRQ_KBD : Z := 1.
Definition IRQ_COM1 : Z := 4.
Definition IRQ_IDE : Z := 14.
Definition IRQ_SPURIOUS : Z := 31.

Definition L_ticks : lockid := ("time", 0).
Definition ticks_chan : chan := ("ticks", 0).

Class IrqOps (T : Type) := {
  ideintr : M T unit;
  kbdintr : M T unit;
  uartintr : M T unit
}.

Section code.
Context {T : Type} `{TxnOps T} `{DevSw T} `{IrqOps T} (kend kpdpt : Z).

Definition sys_fork : M (ker T) Z := fork kend kpdpt.
Definition sys_exit : M (ker T) Z := exit kend ;;; ret 0.
Definition sys_wait : M (ker T) Z := kkM (wait kend).

Definition sys_kill : M (ker T) Z :=
  pid ← kkM (argint 0);
  kmM (kill pid).

Definition sys_getpid : M (ker T) Z := p ← kkM thisproc; ret (p_pid p).

(** [uintp n] becomes the [int] of [growproc]; the result is a [uintp]. *)
Definition sys_sbrk : M (ker T) Z :=
  n ← kkM (arguintp 0);
  p ← kkM thisproc;
  r ← kkM (growproc kend (i32 n));
  if r <? 0 then ret (u64 (-1)) else ret (p_sz p).

(** One turn of [while(ticks - ticks0 < n)]: the [int n] is converted to unsigned. *)
Definition sleep_turn (ticks0 n : Z) (_ : unit) : M (ker T) (unit + Z) :=
  k ← get;
  if u32 (k_ticks k - ticks0) <? u32 n then
    d ← kmM killed;
    if (d : bool) then kmM (smpM (release L_ticks)) ;;; ret (inr (-1)) else
    kmM (sleep ticks_chan L_ticks) ;;;
    ret (inl tt)
  else
    kmM (smpM (release L_ticks)) ;;;
    ret (inr 0).

Definition sys_sleep : M (ker T) Z :=
  n ← kkM (argint 0);
  kmM (smpM (acquire L_ticks)) ;;;
  k ← get;
  loopM 1 (sleep_turn (k_ticks k) n) tt.

Definition sys_sleep_resume (intena : bool) (ticks0 n : Z) : M (ker T) Z :=
  kmM (sleep_resume intena L_ticks) ;;;
  loopM 1 (sleep_turn ticks0 n) tt.

Definition sys_uptime : M (ker T) Z :=
  kmM (smpM (acquire L_ticks)) ;;;
  k ← get;
  kmM (smpM (release L_ticks)) ;;;
  ret (i32 (k_ticks k)).

(** The table, indexed by system call number. *)
Definition syscalls : list (option (M (ker T) Z)) :=
  [None; Some sys_fork; Some sys_exit; Some sys_wait; Some (sys_pipe kend); Some sys_read;
   Some sys_kill; Some (sys_exec kend kpdpt); Some sys_fstat; Some sys_chdir; Some sys_dup;
   Some sys_getpid; Some sys_sbrk; Some sys_sleep; Some sys_uptime; Some (sys_open kend);
   Some sys_write; Some sys_mknod; Some sys_unlink; Some sys_link; Some sys_mkdir;
   Some (sys_close kend); Some sys_chmod].

Definition set_eax (x : Z) : M (ker T) unit :=
  me ← kmM curproc;
  kmM (setproc me (λ p, with_tf (tf_set_eax (u64 x) (p_tf p)) p)).

(** The handlers are called as functions that return [int]. *)
Definition syscall : M (ker T) unit :=
  p ← kkM thisproc;
  let num := i32 (tf_eax (p_tf p)) in
  match (if (0 <? num) && (num <? Z.of_nat (length syscalls)) then syscalls !! Z.to_nat num else None) with
  | Some (Some h) => r ← h; set_eax (i32 r)
  | _ => set_eax (-1)
  end.

(** [if(proc->killed) exit();] *)
Definition exit_if_killed : M (ker T) unit :=
  d ← kmM killed; whenM d (exit kend).

(** [if(proc && proc->killed && (tf->cs&3) == DPL_USER) exit();] *)
Definition exit_if_killed_user (tf : trapframe) : M (ker T) unit :=
  o ← kmM myproc;
  match o with
  | None => ret tt
  | Some i =>
      p ← kmM (getproc i);
      whenM (p_killed p && (Z.land (tf_cs tf) 3 =? DPL_USER)) (exit kend)
  end.

Definition timer_irq : M (ker T) unit :=
  s ← kmM (smpM get);
  whenM (cur s =? 0)%nat (
    kmM (smpM (acquire L_ticks)) ;;;
    modify (λ k, set_kticks (u32 (k_ticks k + 1)) k) ;;;
    kmM (wakeup ticks_chan) ;;;
    kmM (smpM (release L_ticks))).

(** An interrupt handler of the layer below. *)
Definition irqM (m : M T unit) : M (ker T) unit := kfsM (lift f_t set_ft m).

Definition trap_dispatch (tf : trapframe) : M (ker T) unit :=
  let irq n := tf_trapno tf =? T_IRQ0 + n in
  if irq IRQ_TIMER then timer_irq else
  if irq IRQ_IDE then irqM ideintr else
  if irq IRQ_KBD then irqM kbdintr else
  if irq IRQ_COM1 then irqM uartintr else
  if irq 7 || irq IRQ_SPURIOUS then ret tt else
  o ← kmM myproc;
  match o with
  | None => panic "trap"
  | Some i =>
      if Z.land (tf_cs tf) 3 =? 0 then panic "trap" else
      kmM (setproc i (with_killed true))
  end.

Definition yield_on_tick (tf : trapframe) : M (ker T) unit :=
  o ← kmM myproc;
  match o with
  | None => ret tt
  | Some i =>
      p ← kmM (getproc i);
      whenM (bool_decide (p_state p = RUNNING) && (tf_trapno tf =? T_IRQ0 + IRQ_TIMER)) (kmM yield)
  end.

Definition trap (tf : trapframe) : M (ker T) unit :=
  if tf_trapno tf =? T_SYSCALL then
    exit_if_killed ;;;
    me ← kmM curproc;
    kmM (setproc me (with_tf tf)) ;;;
    syscall ;;;
    exit_if_killed
  else
    trap_dispatch tf ;;;
    exit_if_killed_user tf ;;;
    yield_on_tick tf ;;;
    exit_if_killed_user tf.

Definition trap_resume (intena : bool) (tf : trapframe) : M (ker T) unit :=
  kmM (yield_resume intena) ;;;
  exit_if_killed_user tf.
End code.
