(* ===== verification/Apic.v ===== *)
(** * Interrupt controllers, timer, clock and the start of the processors
    (kernel/lapic.c, kernel/ioapic.c, kernel/picirq.c, kernel/timer.c,
    [startothers] of kernel/main.c)

    Device registers are not memory: what a read returns is up to the device.
    The state keeps the sequence of all accesses so far, the trace, and the
    devices are a parameter [resp] that answers a read from the trace before
    it.  The theorems are about the trace: which interrupts were sent to which
    processor, and what the tables of the controllers hold in the end. *)

From S2P Require Import Prelude Bytes Sched Kalloc Kvm Trap Mp.

Module Apic.
Import Mp.

(** What is accessed: a register of the local APIC, the two registers of the
    I/O APIC, a port, memory, and the flag [started] of a processor. *)
Inductive reg :=
  | LAPIC (index : Z)
  | IOREGSEL
  | IOWIN
  | PORT (p : Z)
  | MEM (a : Z)
  | STARTED (cpu : nat).

#[export] Instance reg_eq_dec : EqDecision reg.
Proof. solve_decision. Defined.

Inductive event :=
  | Rd (r : reg)
  | Wr (r : reg) (v : Z).

Record intr := mkIntr {
  in_mp : mpst;
  irqmask : Z;
  trace : list event
}.
Definition set_irqmask (x : Z) (s : intr) : intr := mkIntr (in_mp s) x (trace s).
Definition logged (e : event) (s : intr) : intr := mkIntr (in_mp s) (irqmask s) (trace s ++ [e]).

(** Registers of the local APIC, as indices, and their bits. *)
Definition ID : Z := 0x0020 / 4.
Definition VER : Z := 0x0030 / 4.
Definition TPR : Z := 0x0080 / 4.
Definition EOI : Z := 0x00B0 / 4.
Definition SVR : Z := 0x00F0 / 4.
Definition ENABLE : Z := 0x100.
Definition ESR : Z := 0x0280 / 4.
Definition ICRLO : Z := 0x0300 / 4.
Definition INIT : Z := 0x500.
Definition STARTUP : Z := 0x600.
Definition DELIVS : Z := 0x1000.
Definition ASSERT : Z := 0x4000.
Definition LEVEL : Z := 0x8000.
Definition BCAST : Z := 0x80000.
Definition ICRHI : Z := 0x0310 / 4.
Definition TIMER : Z := 0x0320 / 4.
Definition X1 : Z := 0xB.
Definition PERIODIC : Z := 0x20000.
Definition PCINT : Z := 0x0340 / 4.
Definition LINT0 : Z := 0x0350 / 4.
Definition LINT1 : Z := 0x0360 / 4.
Definition ERROR : Z := 0x0370 / 4.
Definition MASKED : Z := 0x10000.
Definition TICR : Z := 0x0380 / 4.
Definition TDCR : Z := 0x03E0 / 4.
Definition IRQ_ERROR : Z := 19.

(** The I/O APIC. *)
Definition REG_ID : Z := 0.
Definition REG_VER : Z := 1.
Definition REG_TABLE : Z := 0x10.
Definition INT_DISABLED : Z := 0x10000.

(** The two 8259A. *)
Definition IO_PIC1 : Z := 0x20.
Definition IO_PIC2 : Z := 0xA0.
Definition IRQ_SLAVE : Z := 2.

(** The timer. *)
Definition IO_TIMER1 : Z := 0x40.
Definition TIMER_FREQ : Z := 1193182.
Definition TIMER_DIV (x : Z) : Z := (TIMER_FREQ + x / 2) / x.
Definition TIMER_MODE : Z := IO_TIMER1 + 3.
Definition TIMER_SEL0 : Z := 0x00.
Definition TIMER_RATEGEN : Z := 0x04.
Definition TIMER_16BIT : Z := 0x30.

(** The clock. *)
Definition CMOS_PORT : Z := 0x70.
Definition CMOS_RETURN : Z := 0x71.
Definition CMOS_STATA : Z := 0x0a.
Definition CMOS_STATB : Z := 0x0b.
Definition CMOS_UIP : Z := 0x80.

Record rtcdate := mkDate { second : Z; minute : Z; hour : Z; day : Z; month : Z; year : Z }.
#[export] Instance rtcdate_eq_dec : EqDecision rtcdate.
Proof. solve_decision. Defined.

Section code.
Context (resp : list event → reg → Z) (polls : nat).

Definition rd (r : reg) : M intr Z := s ← get; modify (logged (Rd r)) ;;; ret (resp (trace s) r).
Definition wr (r : reg) (v : Z) : M intr unit := modify (logged (Wr r v)).
Definition outb (p v : Z) : M intr unit := wr (PORT p) (u8 v).
Definition inb (p : Z) : M intr Z := rd (PORT p).

(** *** lapic.c *)

Definition lapicw (index value : Z) : M intr unit := wr (LAPIC index) (u32 value) ;;; rd (LAPIC ID) ;;; ret tt.

(** A turn of the wait for the delivery of an interrupt command. *)
Definition deliv_turn (_ : unit) : M intr (unit + unit) :=
  v ← rd (LAPIC ICRLO);
  ret (if Z.land v DELIVS =? 0 then inr tt else inl tt).

Definition lapicinit : M intr unit :=
  s ← get;
  if lapic (in_mp s) =? 0 then ret tt else
  lapicw SVR (Z.lor ENABLE (T_IRQ0 + IRQ_SPURIOUS)) ;;;
  lapicw TDCR X1 ;;;
  lapicw TIMER (Z.lor PERIODIC (T_IRQ0 + IRQ_TIMER)) ;;;
  lapicw TICR 10000000 ;;;
  lapicw LINT0 MASKED ;;;
  lapicw LINT1 MASKED ;;;
  v ← rd (LAPIC VER);
  whenM (4 <=? Z.land (Z.shiftr v 16) 0xFF) (lapicw PCINT MASKED) ;;;
  lapicw ERROR (T_IRQ0 + IRQ_ERROR) ;;;
  lapicw ESR 0 ;;;
  lapicw ESR 0 ;;;
  lapicw EOI 0 ;;;
  lapicw ICRHI 0 ;;;
  lapicw ICRLO (Z.lor (Z.lor BCAST INIT) LEVEL) ;;;
  loopM polls deliv_turn tt ;;;
  lapicw TPR 0.

(** The first of the processors with the given APIC id. *)
Definition cpunum_of (s : mpst) (id : Z) : Z :=
  default 0 (head (filter (λ n, bool_decide (cpu_apicid <$> mcpus s !! Z.to_nat n = Some id) = true) (seqZ 0 (ncpu s)))).

Definition cpunum : M intr Z :=
  s ← get;
  if lapic (in_mp s) =? 0 then ret 0 else
  id ← rd (LAPIC ID);
  ret (cpunum_of (in_mp s) (Z.shiftr id 24)).

Definition lapiceoi : M intr unit :=
  s ← get; whenM (negb (lapic (in_mp s) =? 0)) (lapicw EOI 0).

Definition lapicstartap (apicid addr : Z) : M intr unit :=
  outb CMOS_PORT 0xF ;;;
  outb (CMOS_PORT + 1) 0x0A ;;;
  wr (MEM (p2v 0x467)) 0 ;;;
  wr (MEM (p2v 0x467 + 2)) (u16 (Z.shiftr addr 4)) ;;;
  lapicw ICRHI (Z.shiftl apicid 24) ;;;
  lapicw ICRLO (Z.lor (Z.lor INIT LEVEL) ASSERT) ;;;
  lapicw ICRLO (Z.lor INIT LEVEL) ;;;
  for_all [0; 1] (λ _ : Z,
    lapicw ICRHI (Z.shiftl apicid 24) ;;;
    lapicw ICRLO (Z.lor STARTUP (Z.shiftr addr 12))).

Definition cmos_read (r : Z) : M intr Z := outb CMOS_PORT r ;;; inb CMOS_RETURN.

Definition fill_rtcdate : M intr rtcdate :=
  a ← cmos_read 0x00;
  b ← cmos_read 0x02;
  c ← cmos_read 0x04;
  d ← cmos_read 0x07;
  e ← cmos_read 0x08;
  f ← cmos_read 0x09;
  ret (mkDate a b c d e f).

(** A turn of the loop that reads the clock until two readings agree. *)
Definition cmos_turn (_ : unit) : M intr (unit + rtcdate) :=
  t1 ← fill_rtcdate;
  a ← cmos_read CMOS_STATA;
  if negb (Z.land a CMOS_UIP =? 0) then ret (inl tt) else
  t2 ← fill_rtcdate;
  ret (if decide (t1 = t2) then inr t1 else inl tt).

Definition CONV (x : Z) : Z := u32 (Z.shiftr x 4 * 10 + Z.land x 0xf).

Definition cmostime : M intr rtcdate :=
  sb ← cmos_read CMOS_STATB;
  t ← loopM polls cmos_turn tt;
  let t :=
    if Z.land sb 4 =? 0
    then mkDate (CONV (second t)) (CONV (minute t)) (CONV (hour t)) (CONV (day t)) (CONV (month t)) (CONV (year t))
    else t in
  ret (mkDate (second t) (minute t) (hour t) (day t) (month t) (u32 (year t + 2000))).

(** *** ioapic.c *)

Definition ioapicread (r : Z) : M intr Z := wr IOREGSEL (u32 r) ;;; rd IOWIN.
Definition ioapicwrite (r data : Z) : M intr unit := wr IOREGSEL (u32 r) ;;; wr IOWIN (u32 data).

Definition ioapicinit : M intr unit :=
  s ← get;
  if ismp (in_mp s) =? 0 then ret tt else
  v ← ioapicread REG_VER;
  ioapicread REG_ID ;;;
  for_all (seqZ 0 (Z.land (Z.shiftr v 16) 0xFF + 1)) (λ i,
    ioapicwrite (REG_TABLE + 2 * i) (Z.lor INT_DISABLED (T_IRQ0 + i)) ;;;
    ioapicwrite (REG_TABLE + 2 * i + 1) 0).

Definition ioapicenable (irq cpunum : Z) : M intr unit :=
  s ← get;
  if ismp (in_mp s) =? 0 then ret tt else
  ioapicwrite (REG_TABLE + 2 * irq) (T_IRQ0 + irq) ;;;
  ioapicwrite (REG_TABLE + 2 * irq + 1) (Z.shiftl cpunum 24).

(** *** picirq.c and timer.c *)

Definition irqmask0 : Z := Z.land 0xFFFF (Z.lnot (Z.shiftl 1 IRQ_SLAVE)).

Definition picsetmask (mask : Z) : M intr unit :=
  modify (set_irqmask (u16 mask)) ;;;
  outb (IO_PIC1 + 1) (u16 mask) ;;;
  outb (IO_PIC2 + 1) (Z.shiftr (u16 mask) 8).

Definition picenable (irq : Z) : M intr unit :=
  s ← get; picsetmask (Z.land (irqmask s) (Z.lnot (Z.shiftl 1 irq))).

Definition picinit : M intr unit :=
  outb (IO_PIC1 + 1) 0xFF ;;;
  outb (IO_PIC2 + 1) 0xFF ;;;
  outb IO_PIC1 0x11 ;;;
  outb (IO_PIC1 + 1) T_IRQ0 ;;;
  outb (IO_PIC1 + 1) (Z.shiftl 1 IRQ_SLAVE) ;;;
  outb (IO_PIC1 + 1) 0x3 ;;;
  outb IO_PIC2 0x11 ;;;
  outb (IO_PIC2 + 1) (T_IRQ0 + 8) ;;;
  outb (IO_PIC2 + 1) IRQ_SLAVE ;;;
  outb (IO_PIC2 + 1) 0x3 ;;;
  outb IO_PIC1 0x68 ;;;
  outb IO_PIC1 0x0a ;;;
  outb IO_PIC2 0x68 ;;;
  outb IO_PIC2 0x0a ;;;
  s ← get;
  whenM (negb (irqmask s =? 0xFFFF)) (picsetmask (irqmask s)).

Definition timerinit : M intr unit :=
  outb TIMER_MODE (Z.lor (Z.lor TIMER_SEL0 TIMER_RATEGEN) TIMER_16BIT) ;;;
  outb IO_TIMER1 (TIMER_DIV 100 mod 256) ;;;
  outb IO_TIMER1 (TIMER_DIV 100 / 256) ;;;
  picenable IRQ_TIMER.
End code.

(** ** Starting the other processors ([startothers] of kernel/main.c) *)

(** The image of entryother.S and the address of its next stage come from the
    linker. *)
Record smp := mkSmpSt { sm_k : kst; sm_i : intr }.
Definition set_smk (x : kst) (s : smp) : smp := mkSmpSt x (sm_i s).
Definition set_smi (x : intr) (s : smp) : smp := mkSmpSt (sm_k s) x.

Definition KSTACKSIZE : Z := 4096.

Section start.
Context (resp : list event → reg → Z) (polls : nat) (entryother : list Z) (entry32mp : Z).

(** The processors run one after the other: while this one waits, processor
    [c] does [ap c] on the shared memory before it sets its flag. *)
Context (ap : nat → M kst unit).
Abbreviation iM := (lift sm_i set_smi).
Abbreviation kM := (lift sm_k set_smk).

Definition code : Z := p2v 0x7000.

(** A turn of the wait for a processor. *)
Definition started_turn (k : nat) (_ : unit) : M intr (unit + unit) :=
  v ← rd resp (STARTED k);
  ret (if v =? 0 then inl tt else inr tt).

(** The start of processor [c] on the given stack, up to the wait for it. *)
Definition launch (c : nat) (stack : Z) : M intr unit :=
  wr (MEM (code - 4)) 0x8000 ;;;
  wr (MEM (code - 8)) (u32 (v2p entry32mp)) ;;;
  wr (MEM (code - 16)) (u64 (stack + KSTACKSIZE)) ;;;
  s ← get;
  c' ← need (mcpus (in_mp s) !! c);
  lapicstartap resp (cpu_apicid c') (v2p code).

Definition start_one (c : nat) : M smp unit :=
  n ← iM (cpunum resp);
  if Z.of_nat c =? n then ret tt else
  stack ← kM kalloc;
  iM (launch c stack) ;;;
  kM (ap c) ;;;
  iM (loopM polls (started_turn c) tt).

Definition startothers : M smp unit :=
  iM (for_all (zip (seq 0 (length entryother)) entryother) (λ '(i, b), wr (MEM (code + Z.of_nat i)) b)) ;;;
  s ← get;
  for_all (seq 0 (Z.to_nat (ncpu (in_mp (sm_i s))))) start_one.
End start.

(** ** What the devices have been told *)

Definition emit (t : list event) (s : intr) : intr := mkIntr (in_mp s) (irqmask s) (trace s ++ t).

Lemma emit_emit t t' s : emit t' (emit t s) = emit (t ++ t') s.
Proof. unfold emit. cbn. by rewrite app_assoc. Qed.

Lemma emit_nil s : emit [] s = s.
Proof. destruct s. unfold emit. cbn. by rewrite app_nil_r. Qed.

Section runs.
Context (resp : list event → reg → Z).

Lemma wr_run r v s : wr r v s = Ok tt (emit [Wr r v] s).
Proof. done. Qed.
Lemma rd_run r s : rd resp r s = Ok (resp (trace s) r) (emit [Rd r] s).
Proof. done. Qed.
Lemma lapicw_run i v s : lapicw resp i v s = Ok tt (emit [Wr (LAPIC i) (u32 v); Rd (LAPIC ID)] s).
Proof. unfold lapicw. go. unfold rd. go. unfold emit, logged. cbn. by rewrite <- app_assoc. Qed.
End runs.

(** [emits] runs a sequence of accesses. *)
Ltac emits := repeat first
  [ rewrite bind_bind | rewrite (bind_ok _ _ _ _ _ (wr_run _ _ _)) | rewrite (bind_ok _ _ _ _ _ (lapicw_run _ _ _ _)) ];
  rewrite ?wr_run, ?lapicw_run, ?emit_emit; cbn [app].

(** The interrupt commands sent so far: destination, command, and the stack
    that the entry code would find at that moment. *)
Record view := mkView { v_hi : Z; v_stack : Z; v_sent : list (Z * Z * Z) }.
Definition see (v : view) (e : event) : view :=
  match e with
  | Wr (LAPIC i) x =>
      if i =? ICRHI then mkView x (v_stack v) (v_sent v)
      else if i =? ICRLO then mkView (v_hi v) (v_stack v) (v_sent v ++ [(Z.shiftr (v_hi v) 24, x, v_stack v)])
      else v
  | Wr (MEM a) x => if a =? code - 16 then mkView (v_hi v) x (v_sent v) else v
  | _ => v
  end.
Definition seen (t : list event) : view := foldl see (mkView 0 0 []) t.

Definition startap_events (apicid addr : Z) : list event :=
  [Wr (PORT 0x70) 0xF; Wr (PORT 0x71) 0xA; Wr (MEM (p2v 0x467)) 0; Wr (MEM (p2v 0x467 + 2)) (u16 (Z.shiftr addr 4));
   Wr (LAPIC ICRHI) (u32 (Z.shiftl apicid 24)); Rd (LAPIC ID); Wr (LAPIC ICRLO) 0xC500; Rd (LAPIC ID);
   Wr (LAPIC ICRLO) 0x8500; Rd (LAPIC ID);
   Wr (LAPIC ICRHI) (u32 (Z.shiftl apicid 24)); Rd (LAPIC ID);
   Wr (LAPIC ICRLO) (u32 (Z.lor STARTUP (Z.shiftr addr 12))); Rd (LAPIC ID);
   Wr (LAPIC ICRHI) (u32 (Z.shiftl apicid 24)); Rd (LAPIC ID);
   Wr (LAPIC ICRLO) (u32 (Z.lor STARTUP (Z.shiftr addr 12))); Rd (LAPIC ID)].

Lemma lapicstartap_run resp apicid addr s : lapicstartap resp apicid addr s = Ok tt (emit (startap_events apicid addr) s).
Proof. unfold lapicstartap, outb. cbn [for_all]. by emits. Qed.

(** The start of one processor, as interrupt commands. *)
Definition start_seq (apicid stack : Z) : list (Z * Z * Z) :=
  [(apicid, 0xC500, stack); (apicid, 0x8500, stack); (apicid, 0x607, stack); (apicid, 0x607, stack)].

Lemma dest_shift a : 0 ≤ a < 256 → Z.shiftr (u32 (Z.shiftl a 24)) 24 = a.
Proof.
  intros Ha. rewrite Z.shiftl_mul_pow2, wrap_small, Z.shiftr_div_pow2 by lia. by rewrite Z.div_mul.
Qed.

Lemma see_cons v e t : foldl see v (e :: t) = foldl see (see v e) t.
Proof. done. Qed.
Lemma see_rd v r : see v (Rd r) = v.
Proof. done. Qed.
Lemma see_port v p x : see v (Wr (PORT p) x) = v.
Proof. done. Qed.
Lemma see_mem v a x : a ≠ code - 16 → see v (Wr (MEM a) x) = v.
Proof. intros H. cbn [see]. by rewrite (proj2 (Z.eqb_neq _ _) H). Qed.
Lemma see_stack v x : see v (Wr (MEM (code - 16)) x) = mkView (v_hi v) x (v_sent v).
Proof. done. Qed.
Lemma see_hi v x : see v (Wr (LAPIC ICRHI) x) = mkView x (v_stack v) (v_sent v).
Proof. done. Qed.
Lemma see_lo v x : see v (Wr (LAPIC ICRLO) x) = mkView (v_hi v) (v_stack v) (v_sent v ++ [(Z.shiftr (v_hi v) 24, x, v_stack v)]).
Proof. done. Qed.

(** [sees] goes through a list of events. *)
Ltac sees := repeat (rewrite see_cons;
  first [ rewrite see_rd | rewrite see_port | rewrite see_hi | rewrite see_lo | rewrite see_stack
        | rewrite see_mem by (vm_compute; congruence) ]; cbn [v_hi v_stack v_sent]).

Lemma see_startap v a : 0 ≤ a < 256 →
  foldl see v (startap_events a (v2p code)) = mkView (u32 (Z.shiftl a 24)) (v_stack v) (v_sent v ++ start_seq a (v_stack v)).
Proof.
  intros Ha. unfold startap_events. change (u32 (Z.lor STARTUP (Z.shiftr (v2p code) 12))) with 0x607.
  sees. rewrite dest_shift by done. cbn [foldl]. by rewrite <- !app_assoc.
Qed.

Section starts.
Context (resp : list event → reg → Z) (polls : nat) (entryother : list Z) (entry32mp kend : Z) (mp : mpst) (me : nat).
Context (ap : nat → M kst unit) (need : nat).
Abbreviation iM := (lift sm_i set_smi).
Abbreviation kM := (lift sm_k set_smk).
Implicit Types (s : smp) (v : view) (free : list Z).

Lemma wait_started k n : ∀ (i : intr),
  (∃ j, (j < n)%nat ∧ resp (trace i ++ replicate j (Rd (STARTED k))) (STARTED k) ≠ 0) →
  ∃ m, loopM n (started_turn resp k) tt i = Ok tt (emit (replicate m (Rd (STARTED k))) i).
Proof.
  induction n as [|n IH]; intros i (j & Hj & Hr); [lia|]. cbn [loopM]. unfold started_turn at 1.
  rewrite bind_bind, (bind_ok _ _ _ _ _ (rd_run _ _ _)). go. destruct (resp (trace i) (STARTED k) =? 0) eqn:E.
  - destruct j as [|j]; [rewrite app_nil_r in Hr; lia|].
    destruct (IH (emit [Rd (STARTED k)] i)) as [m Em].
    { exists j. split; [lia|]. cbn. by rewrite <- app_assoc. }
    exists (S m). by rewrite Em, emit_emit.
  - by exists 1%nat.
Qed.

(** The processor running this code is number [me]; a processor that gets a
    start-up interrupt sets its flag within [polls] reads. *)
Hypothesis Hlapic : lapic mp ≠ 0.
Hypothesis Hme : ∀ t, cpunum_of mp (Z.shiftr (resp t (LAPIC ID)) 24) = Z.of_nat me.
Hypothesis Hstart : ∀ t k c st, (k < Z.to_nat (ncpu mp))%nat → mcpus mp !! k = Some c → (cpu_apicid c, 0x607, st) ∈ v_sent (seen t) →
  ∃ j, (j < polls)%nat ∧ resp (t ++ replicate j (Rd (STARTED k))) (STARTED k) ≠ 0.

Lemma cpunum_run (i : intr) : in_mp i = mp → cpunum resp i = Ok (Z.of_nat me) (emit [Rd (LAPIC ID)] i).
Proof.
  intros Hi. unfold cpunum. go. rewrite Hi, (proj2 (Z.eqb_neq _ _) Hlapic). unfold rd. go. by rewrite Hme.
Qed.

Lemma page_top p : is_page kend p → u64 (p + KSTACKSIZE) = p + 4096.
Proof.
  intros (_ & _ & Hp & Hr). unfold v2p, PHYSTOP, KERNBASE, KSTACKSIZE, wrap in *.
  apply Z.mod_small.
  pose proof (Z.div_mod (p - 0xFFFFFFFF80000000) (2 ^ 64) ltac:(done)).
  pose proof (Z.mod_pos_bound (p - 0xFFFFFFFF80000000) (2 ^ 64) ltac:(done)). lia.
Qed.

Lemma see_reads v k m : foldl see v (replicate m (Rd (STARTED k))) = v.
Proof. induction m; [done|]. cbn [replicate]. by rewrite see_cons, see_rd. Qed.

Definition launch_events (c : mpcpu) (stack : Z) : list event :=
  [Wr (MEM (code - 4)) 0x8000; Wr (MEM (code - 8)) (u32 (v2p entry32mp)); Wr (MEM (code - 16)) stack] ++
  startap_events (cpu_apicid c) (v2p code).

Lemma see_launch v c stack : 0 ≤ cpu_apicid c < 256 →
  foldl see v (launch_events c stack) =
    mkView (u32 (Z.shiftl (cpu_apicid c) 24)) stack (v_sent v ++ start_seq (cpu_apicid c) stack).
Proof.
  intros Ha. unfold launch_events. rewrite foldl_app, see_startap by done.
  generalize (u32 (v2p entry32mp)) as w. intros w. by sees.
Qed.

Lemma launch_run k c p (i : intr) : in_mp i = mp → mcpus mp !! k = Some c → is_page kend p →
  launch resp entry32mp k p i = Ok tt (emit (launch_events c (p + 4096)) i).
Proof.
  intros Hi Hc Hp. unfold launch. rewrite (page_top p Hp), !(bind_ok _ _ _ _ _ (wr_run _ _ _)), !emit_emit.
  rewrite (bind_ok get _ _ _ _ eq_refl). change (in_mp (emit _ i)) with (in_mp i). rewrite Hi, Hc.
  erewrite bind_ok; [|reflexivity]. by rewrite lapicstartap_run, emit_emit.
Qed.

(** A processor takes [need] pages before it sets its flag. *)
Hypothesis Hap : ∀ k (s : kst) free, kinv kend (ks_k s) free → km_free (ks_m s) → (need ≤ length free)%nat →
  ∃ k', ap k s = Ok tt (set_ksk k' s) ∧ kinv kend k' (drop need free).

Lemma start_one_run k c p free s : in_mp (sm_i s) = mp → k ≠ me → (k < Z.to_nat (ncpu mp))%nat → mcpus mp !! k = Some c → 0 ≤ cpu_apicid c < 256 →
  kinv kend (ks_k (sm_k s)) (p :: free) → km_free (ks_m (sm_k s)) → (need ≤ length free)%nat →
  ∃ k' t, start_one resp polls entry32mp ap k s = Ok tt (mkSmpSt (set_ksk k' (sm_k s)) (emit t (sm_i s))) ∧
    kinv kend k' (drop need free) ∧
    ∀ v, v_sent (foldl see v t) = v_sent v ++ start_seq (cpu_apicid c) (p + 4096).
Proof.
  intros Hmp Hne Hlt Hc Ha Hk Hf Hn. unfold start_one. destruct (kalloc_run kend _ _ Hk Hf) as [E K]. cbn [hd tl] in *.
  assert (is_page kend p) as Hp by (destruct Hk as (_ & _ & Hk & _); by apply Forall_cons in Hk as [? _]).
  run (cpunum_run (sm_i s) Hmp). rewrite (proj2 (Z.eqb_neq _ _)) by lia.
  set (k1 := set_ksk _ _) in E. set (i1 := emit _ _). set (i2 := emit (launch_events c (p + 4096)) i1).
  rewrite (bind_ok _ _ _ p (mkSmpSt k1 i1)) by exact (lift_ok sm_k set_smk kalloc (set_smi i1 s) p k1 E).
  rewrite (bind_ok _ _ _ tt (mkSmpSt k1 i2)) by (etrans; [apply lift_ok, (launch_run k c p); done|done]).
  destruct (Hap k k1 free K Hf Hn) as (k2 & E2 & K2).
  rewrite (bind_ok _ _ _ tt (mkSmpSt (set_ksk k2 k1) i2)) by (etrans; [apply lift_ok; exact E2|done]).
  destruct (wait_started k polls i2) as [m Em].
  { apply (Hstart _ _ c (p + 4096)); [done|done|]. unfold seen. cbn [i2 emit trace]. rewrite foldl_app, see_launch by done.
    cbn [v_sent]. apply elem_of_app. right. do 2 apply list_elem_of_further. apply list_elem_of_here. }
  exists k2, ([Rd (LAPIC ID)] ++ launch_events c (p + 4096) ++ replicate m (Rd (STARTED k))).
  split; [|split; [exact K2|]].
  - etrans; [apply lift_ok; exact Em|]. unfold set_smi, i2, i1. cbn [sm_k]. by rewrite !emit_emit.
  - intros v. rewrite !foldl_app, see_reads, see_launch by done. done.
Qed.

Lemma start_me s : in_mp (sm_i s) = mp →
  start_one resp polls entry32mp ap me s = Ok tt (mkSmpSt (sm_k s) (emit [Rd (LAPIC ID)] (sm_i s))).
Proof. intros Hmp. unfold start_one. run (cpunum_run (sm_i s) Hmp). by rewrite Z.eqb_refl. Qed.

(** The processors other than this one, and the commands for them: each takes
    its stack and [need] pages more from the list. *)
Definition others (ks : list nat) : list nat := filter (λ k, k ≠ me) ks.
Fixpoint starts (ks : list nat) free : list (Z * Z * Z) :=
  match ks with
  | [] => []
  | k :: ks' => start_seq (from_option cpu_apicid 0 (mcpus mp !! k)) (hd 0 free + 4096) ++ starts ks' (drop (S need) free)
  end.
Definition taken (ks : list nat) : nat := length (others ks) * S need.

Lemma start_all ks : ∀ s free, in_mp (sm_i s) = mp →
  Forall (λ k, (k < Z.to_nat (ncpu mp))%nat ∧ ∃ c, mcpus mp !! k = Some c ∧ 0 ≤ cpu_apicid c < 256) ks →
  kinv kend (ks_k (sm_k s)) free → km_free (ks_m (sm_k s)) → (taken ks ≤ length free)%nat →
  ∃ k' t, for_all ks (start_one resp polls entry32mp ap) s = Ok tt (mkSmpSt (set_ksk k' (sm_k s)) (emit t (sm_i s))) ∧
    kinv kend k' (drop (taken ks) free) ∧
    ∀ v, v_sent (foldl see v t) = v_sent v ++ starts (others ks) free.
Proof.
  induction ks as [|k ks IH]; intros s free Hmp Hks Hk Hf Hl; cbn [for_all].
  - exists (ks_k (sm_k s)), []. rewrite emit_nil. split; [by destruct s as [[]]|]. split; [done|]. intros v. cbn. by rewrite app_nil_r.
  - apply Forall_cons in Hks as [(Hlt & c & Hc & Ha) Hks]. unfold taken, others in *. rewrite filter_cons in *.
    destruct (decide (k ≠ me)) as [Hne|Heq].
    + destruct free as [|p free]; cbn [length] in Hl; [lia|].
      destruct (start_one_run k c p free s) as (k1 & t1 & E1 & K1 & V1); try done; [lia|]. step E1.
      destruct (IH (mkSmpSt (set_ksk k1 (sm_k s)) (emit t1 (sm_i s))) (drop need free)) as (k2 & t2 & E2 & K2 & V2); try done.
      { rewrite length_drop. lia. }
      exists k2, (t1 ++ t2). cbn [sm_i sm_k] in E2. rewrite E2, emit_emit. split; [done|]. split.
      { rewrite drop_drop in K2. exact K2. }
      intros v. rewrite foldl_app, V2, V1. cbn [starts hd drop]. by rewrite Hc, app_assoc.
    + assert (k = me) as -> by (destruct (decide (k = me)); [done|by destruct Heq]). rewrite (bind_ok _ _ _ _ _ (start_me s Hmp)).
      destruct (IH (mkSmpSt (sm_k s) (emit [Rd (LAPIC ID)] (sm_i s))) free) as (k2 & t2 & E2 & K2 & V2); try done.
      exists k2, ([Rd (LAPIC ID)] ++ t2). cbn [sm_i] in E2. rewrite E2, emit_emit. split; [done|]. split; [done|]. intros v.
      by rewrite foldl_app, V2.
Qed.

Lemma entry_copy_run (l : list (nat * Z)) (i : intr) :
  for_all l (λ '(j, b), wr (MEM (code + Z.of_nat j)) b) i = Ok tt (emit ((λ '(j, b), Wr (MEM (code + Z.of_nat j)) b) <$> l) i).
Proof.
  revert i. induction l as [|[j b] l IH]; intros i; cbn [for_all]; [by rewrite emit_nil|].
  rewrite (bind_ok _ _ _ _ _ (wr_run _ _ _)), IH, emit_emit. done.
Qed.

Lemma see_copy (l : list (nat * Z)) v : foldl see v ((λ '(j, b), Wr (MEM (code + Z.of_nat j)) b) <$> l) = v.
Proof.
  induction l as [|[j b] l IH]; [done|]. cbn [fmap list_fmap]. by rewrite see_cons, see_mem by lia.
Qed.

(** [startothers] starts the other processors.  Each of them, and not this
    one, is sent the INIT and the two STARTUP commands, in the order of the
    numbers, while the word from which the entry code takes its stack is the
    top of a page that the allocator gave out for it.  The processor started
    takes the pages it needs from the same allocator before the next one is
    started, and the function returns once all have set their flags. *)
Theorem startothers_starts s free : in_mp (sm_i s) = mp →
  (∀ k, (k < Z.to_nat (ncpu mp))%nat → ∃ c, mcpus mp !! k = Some c ∧ 0 ≤ cpu_apicid c < 256) →
  let ks := seq 0 (Z.to_nat (ncpu mp)) in
  kinv kend (ks_k (sm_k s)) free → km_free (ks_m (sm_k s)) → (taken ks ≤ length free)%nat →
  ∃ s', startothers resp polls entryother entry32mp ap s = Ok tt s' ∧ ks_m (sm_k s') = ks_m (sm_k s) ∧
    v_sent (seen (trace (sm_i s'))) = v_sent (seen (trace (sm_i s))) ++ starts (others ks) free ∧
    kinv kend (ks_k (sm_k s')) (drop (taken ks) free).
Proof.
  intros Hmp Hc ks Hk Hf Hl. unfold startothers. run (entry_copy_run (zip (seq 0 (length entryother)) entryother) (sm_i s)).
  rewrite (bind_ok get _ _ _ _ eq_refl). cbn [set_smi sm_i emit in_mp]. rewrite Hmp.
  destruct (start_all ks
    (set_smi (emit ((λ '(j, b), Wr (MEM (code + Z.of_nat j)) b) <$> zip (seq 0 (length entryother)) entryother) (sm_i s)) s) free)
    as (k' & t & E & K & V); try done.
  { apply Forall_forall. intros k Hk'%elem_of_seq. split; [lia|]. apply Hc. lia. }
  eexists. split; [exact E|]. split; [done|]. split; [|exact K]. unfold seen. cbn [sm_i emit trace set_smi].
  by rewrite !foldl_app, V, see_copy.
Qed.

End starts.

(** [cpunum] finds a processor by its id, the ids being different. *)
Theorem cpunum_index (s : mpst) k c : mcpus s !! k = Some c → Z.of_nat k < ncpu s →
  (∀ j c', mcpus s !! j = Some c' → (j < k)%nat → cpu_apicid c' ≠ cpu_apicid c) →
  cpunum_of s (cpu_apicid c) = Z.of_nat k.
Proof.
  intros Hc Hk Hd. unfold cpunum_of. replace (ncpu s) with (Z.of_nat k + (ncpu s - Z.of_nat k)) by lia.
  rewrite seqZ_app, (seqZ_cons (0 + Z.of_nat k)) by lia. rewrite head_filter_first; [done| |].
  - apply Forall_forall. intros n Hn%elem_of_seqZ. rewrite bool_decide_eq_true. intros E.
    destruct (mcpus s !! Z.to_nat n) as [c'|] eqn:E'; [|done]. injection E as E. by apply (Hd _ _ E'); [lia|].
  - rewrite bool_decide_eq_true. by rewrite Z.add_0_l, Nat2Z.id, Hc.
Qed.

(** ** The two 8259A

    What the controller at the ports [p] and [p + 1] makes of the writes: a
    byte with bit 4 to the first port starts the initialisation, whose next
    three bytes to the second port are the vector offset, the cascade and the
    mode; otherwise a byte to the second port is the interrupt mask. *)

Record pic := mkPic { p_left : nat; p_base : Z; p_imr : Z }.
Definition pic_see (p : Z) (c : pic) (e : event) : pic :=
  match e with
  | Wr (PORT q) v =>
      if (q =? p) && Z.testbit v 4 then mkPic 3 (p_base c) 0
      else if q =? p + 1 then
        match p_left c with
        | O => mkPic 0 (p_base c) v
        | S n => mkPic n (if (n =? 2)%nat then Z.land v 0xF8 else p_base c) (p_imr c)
        end
      else c
  | _ => c
  end.
Definition pic_at (p : Z) (t : list event) : pic := foldl (pic_see p) (mkPic 0 0 0) t.

Lemma pic_at_app p t t' : pic_at p (t ++ t') = foldl (pic_see p) (pic_at p t) t'.
Proof. apply foldl_app. Qed.

(** Both controllers are set up and hold the mask of the kernel. *)
Definition pics_ok (s : intr) : Prop :=
  pic_at IO_PIC1 (trace s) = mkPic 0 32 (u8 (irqmask s)) ∧
  pic_at IO_PIC2 (trace s) = mkPic 0 40 (u8 (Z.shiftr (irqmask s) 8)) ∧ 0 ≤ irqmask s < 2 ^ 16.

Lemma picsetmask_run m s : picsetmask m s =
  Ok tt (mkIntr (in_mp s) (u16 m) (trace s ++ [Wr (PORT 0x21) (u8 (u16 m)); Wr (PORT 0xA1) (u8 (Z.shiftr (u16 m) 8))])).
Proof. unfold picsetmask, outb, wr. go. unfold logged. cbn. by rewrite <- app_assoc. Qed.

Lemma picsetmask_ok m s : p_left (pic_at IO_PIC1 (trace s)) = O → p_left (pic_at IO_PIC2 (trace s)) = O →
  p_base (pic_at IO_PIC1 (trace s)) = 32 → p_base (pic_at IO_PIC2 (trace s)) = 40 →
  ∃ s', picsetmask m s = Ok tt s' ∧ pics_ok s' ∧ irqmask s' = u16 m.
Proof.
  intros L1 L2 B1 B2. eexists. split; [apply picsetmask_run|]. split; [|done]. unfold pics_ok. cbn [trace irqmask].
  rewrite !pic_at_app. destruct (pic_at IO_PIC1 _) as [l1 b1 i1], (pic_at IO_PIC2 _) as [l2 b2 i2]. cbn in *. subst.
  split; [done|]. split; [done|]. by apply wrap_range.
Qed.

Definition picinit_events : list event :=
  [Wr (PORT 0x21) 0xFF; Wr (PORT 0xA1) 0xFF; Wr (PORT 0x20) 0x11; Wr (PORT 0x21) 32; Wr (PORT 0x21) 4; Wr (PORT 0x21) 3;
   Wr (PORT 0xA0) 0x11; Wr (PORT 0xA1) 40; Wr (PORT 0xA1) 2; Wr (PORT 0xA1) 3; Wr (PORT 0x20) 0x68; Wr (PORT 0x20) 0x0a;
   Wr (PORT 0xA0) 0x68; Wr (PORT 0xA0) 0x0a].

Lemma picinit_ok s : irqmask s = irqmask0 → ∃ s', picinit s = Ok tt s' ∧ pics_ok s' ∧ irqmask s' = irqmask0.
Proof.
  intros Hm. destruct (picsetmask_ok irqmask0 (emit picinit_events s)) as (s' & E & P & I).
  1-4: cbn [emit trace]; rewrite pic_at_app; by destruct (pic_at _ _) as [[|n] b i].
  exists s'. split; [|done]. rewrite <- E. unfold picinit, outb. emits.
  rewrite (bind_ok get _ _ _ _ eq_refl). cbn [emit irqmask]. by rewrite Hm.
Qed.

Lemma picenable_ok q s : pics_ok s → 0 ≤ q < 16 →
  ∃ s', picenable q s = Ok tt s' ∧ pics_ok s' ∧
    ∀ r, 0 ≤ r < 16 → Z.testbit (irqmask s') r = Z.testbit (irqmask s) r && negb (bool_decide (r = q)).
Proof.
  intros (P1 & P2 & Hm) Hq. unfold picenable. rewrite (bind_ok get _ _ _ _ eq_refl).
  destruct (picsetmask_ok (Z.land (irqmask s) (Z.lnot (Z.shiftl 1 q))) s) as (s' & E & P & I); [by rewrite ?P1, ?P2..|].
  exists s'. split; [done|]. split; [done|]. intros r Hr. rewrite I. unfold wrap.
  rewrite Z.mod_pow2_bits_low, Z.land_spec, Z.lnot_spec, Z.shiftl_spec by lia. f_equal. f_equal.
  destruct (decide (r = q)) as [->|Hne].
  - by rewrite Z.sub_diag, bool_decide_eq_true_2.
  - rewrite bool_decide_eq_false_2 by done. change 1 with (2 ^ 0). destruct (decide (q < r)).
    + apply Z.pow2_bits_false. lia.
    + apply Z.testbit_neg_r. lia.
Qed.

Lemma enable_all irqs : ∀ s, pics_ok s → Forall (λ q, 0 ≤ q < 16) irqs →
  ∃ s', for_all irqs picenable s = Ok tt s' ∧ pics_ok s' ∧
    ∀ r, 0 ≤ r < 16 → Z.testbit (irqmask s') r = Z.testbit (irqmask s) r && negb (bool_decide (r ∈ irqs)).
Proof.
  induction irqs as [|q irqs IH]; intros s P Hq; cbn [for_all].
  - exists s. split; [done|]. split; [done|]. intros r _. rewrite bool_decide_eq_false_2 by apply not_elem_of_nil.
    by rewrite andb_true_r.
  - apply Forall_cons in Hq as [Q Hq]. destruct (picenable_ok q s P Q) as (s1 & E1 & P1 & B1). step E1.
    destruct (IH s1 P1 Hq) as (s2 & E2 & P2 & B2). exists s2. split; [done|]. split; [done|]. intros r Hr.
    rewrite B2, B1, <- andb_assoc by done. f_equal. rewrite <- negb_orb. f_equal.
    rewrite <- bool_decide_or. apply bool_decide_ext. by rewrite elem_of_cons.
Qed.

(** After any sequence of [picenable] the controllers deliver the interrupts
    asked for, and the cascade, on the vectors from [T_IRQ0] on, and no others. *)
Theorem pic_enables irqs s : irqmask s = irqmask0 → Forall (λ q, 0 ≤ q < 16) irqs →
  ∃ s', (picinit ;;; for_all irqs picenable) s = Ok tt s' ∧ pics_ok s' ∧
    ∀ q, 0 ≤ q < 16 → Z.testbit (irqmask s') q = negb (bool_decide (q = IRQ_SLAVE ∨ q ∈ irqs)).
Proof.
  intros Hm Hq. destruct (picinit_ok s Hm) as (s1 & E1 & P1 & I1). destruct (enable_all irqs s1 P1 Hq) as (s2 & E2 & P2 & B2).
  exists s2. step E1. split; [done|]. split; [done|]. intros q Hr. rewrite B2, I1 by done.
  rewrite bool_decide_or, negb_orb. f_equal. unfold IRQ_SLAVE.
  assert (q ∈ seqZ 0 16) as Hs by (apply elem_of_seqZ; lia). vm_compute in Hs.
  repeat (apply elem_of_cons in Hs as [->|Hs]; [done|]). by apply not_elem_of_nil in Hs.
Qed.

(** ** The I/O APIC

    A write to the window goes to the register selected before. *)

Record ioa := mkIoa { io_sel : Z; io_regs : Z → Z }.
Definition io_see (c : ioa) (e : event) : ioa :=
  match e with
  | Wr IOREGSEL r => mkIoa r (io_regs c)
  | Wr IOWIN v => mkIoa (io_sel c) (<[io_sel c := v]> (io_regs c))
  | _ => c
  end.
Definition io_at (t : list event) : Z → Z := io_regs (foldl io_see (mkIoa 0 (λ _, 0)) t).

Section ioapics.
Context (resp : list event → reg → Z).

Lemma ioapicwrite_run r v s : ioapicwrite r v s = Ok tt (emit [Wr IOREGSEL (u32 r); Wr IOWIN (u32 v)] s).
Proof. unfold ioapicwrite. by emits. Qed.

Lemma io_at_write t r v : io_at (t ++ [Wr IOREGSEL r; Wr IOWIN v]) = <[r := v]> (io_at t).
Proof. unfold io_at. by rewrite foldl_app. Qed.

(** The two registers of an interrupt. *)
Definition entry_at (t : list event) (i : Z) : Z * Z := (io_at t (REG_TABLE + 2 * i), io_at t (REG_TABLE + 2 * i + 1)).

Lemma entry_write t i j a b : entry_at ((t ++ [Wr IOREGSEL (REG_TABLE + 2 * j); Wr IOWIN a]) ++
  [Wr IOREGSEL (REG_TABLE + 2 * j + 1); Wr IOWIN b]) i = if decide (i = j) then (a, b) else entry_at t i.
Proof.
  unfold entry_at. rewrite !io_at_write. destruct (decide (i = j)) as [->|Hne].
  - rewrite (fn_lookup_insert_ne _ (REG_TABLE + 2 * j + 1)) by lia. by rewrite !fn_lookup_insert.
  - by rewrite !fn_lookup_insert_ne by lia.
Qed.

Lemma mask_all n : ∀ s k, 0 ≤ k → k + Z.of_nat n ≤ 256 →
  ∃ s', for_all (seqZ k (Z.of_nat n)) (λ i,
      ioapicwrite (REG_TABLE + 2 * i) (Z.lor INT_DISABLED (T_IRQ0 + i)) ;;; ioapicwrite (REG_TABLE + 2 * i + 1) 0) s = Ok tt s' ∧
    in_mp s' = in_mp s ∧
    (∀ i, k ≤ i < k + Z.of_nat n → entry_at (trace s') i = (INT_DISABLED + T_IRQ0 + i, 0)) ∧
    (∀ i, i < k → entry_at (trace s') i = entry_at (trace s) i).
Proof.
  induction n as [|n IH]; intros s k Hk Hn.
  - exists s. cbn. split; [done|]. split; [done|]. split; [lia|done].
  - rewrite seqZ_cons by lia. cbn [for_all]. rewrite bind_bind, !(bind_ok _ _ _ _ _ (ioapicwrite_run _ _ _)).
    replace (Z.pred (Z.of_nat (S n))) with (Z.of_nat n) by lia.
    destruct (IH (emit [Wr IOREGSEL (u32 (REG_TABLE + 2 * k + 1)); Wr IOWIN (u32 0)]
      (emit [Wr IOREGSEL (u32 (REG_TABLE + 2 * k)); Wr IOWIN (u32 (Z.lor INT_DISABLED (T_IRQ0 + k)))] s)) (Z.succ k))
      as (s' & E & M' & H1 & H2); [lia|lia|].
    exists s'. split; [exact E|]. split; [exact M'|].
    assert (Z.lor INT_DISABLED (T_IRQ0 + k) = INT_DISABLED + T_IRQ0 + k) as El.
    { unfold INT_DISABLED, T_IRQ0. rewrite (lor_add _ _ 16) by (done || lia). lia. }
    cbn [emit trace] in H1, H2. rewrite El, !wrap_small in H2 by (unfold REG_TABLE, INT_DISABLED, T_IRQ0; lia).
    split; intros i Hi.
    + destruct (decide (i = k)) as [->|Hne]; [|apply H1; lia]. rewrite H2, entry_write by lia. by rewrite decide_True.
    + rewrite H2, entry_write by lia. by rewrite decide_False by lia.
Qed.

(** The processor the interrupt [i] was last routed to. *)
Definition route (reqs : list (Z * Z)) (i : Z) : option Z :=
  last (omap (λ r : Z * Z, if decide (r.1 = i) then Some r.2 else None) reqs).

Lemma enable_each reqs : ∀ s, ismp (in_mp s) ≠ 0 → Forall (λ r, 0 ≤ r.1 < 256) reqs →
  ∃ s', for_all reqs (λ r, ioapicenable r.1 r.2) s = Ok tt s' ∧
    ∀ i, entry_at (trace s') i =
      match route reqs i with Some c => (T_IRQ0 + i, u32 (Z.shiftl c 24)) | None => entry_at (trace s) i end.
Proof.
  induction reqs as [|[q c] reqs IH]; intros s Hm Hq; [by exists s|].
  apply Forall_cons in Hq as [Q Hq]. cbn [fst snd for_all] in *. unfold ioapicenable at 1. rewrite bind_bind.
  rewrite (bind_ok get _ _ _ _ eq_refl), (proj2 (Z.eqb_neq _ _) Hm), bind_bind.
  rewrite !(bind_ok _ _ _ _ _ (ioapicwrite_run _ _ _)).
  destruct (IH (emit [Wr IOREGSEL (u32 (REG_TABLE + 2 * q + 1)); Wr IOWIN (u32 (Z.shiftl c 24))]
    (emit [Wr IOREGSEL (u32 (REG_TABLE + 2 * q)); Wr IOWIN (u32 (T_IRQ0 + q))] s))) as (s' & E & R); [done|done|].
  exists s'. split; [exact E|]. intros i. rewrite R. cbn [emit trace].
  rewrite (wrap_small 32 (REG_TABLE + _)), (wrap_small 32 (_ + 1)), (wrap_small 32 (T_IRQ0 + q)), entry_write
    by (unfold REG_TABLE, T_IRQ0; lia).
  unfold route. cbn [omap list_omap fst snd]. destruct (decide (q = i)) as [->|Hne].
  - rewrite last_cons, decide_True by done. by destruct (last _).
  - by rewrite decide_False by congruence.
Qed.

(** Every interrupt is delivered to the processor it was last routed to, on
    its vector, and those nobody asked for stay disabled. *)
Theorem ioapic_routes reqs s n : ismp (in_mp s) ≠ 0 → Forall (λ r, 0 ≤ r.1 < 256) reqs →
  Z.land (Z.shiftr (resp (trace s ++ [Wr IOREGSEL REG_VER]) IOWIN) 16) 0xFF = n → 0 ≤ n →
  ∃ s', (ioapicinit resp ;;; for_all reqs (λ r, ioapicenable r.1 r.2)) s = Ok tt s' ∧
    ∀ i, 0 ≤ i ≤ n → entry_at (trace s') i =
      match route reqs i with
      | Some c => (T_IRQ0 + i, u32 (Z.shiftl c 24))
      | None => (INT_DISABLED + T_IRQ0 + i, 0)
      end.
Proof.
  intros Hm Hq Hn Hp. unfold ioapicinit. rewrite bind_bind, (bind_ok get _ _ _ _ eq_refl), (proj2 (Z.eqb_neq _ _) Hm).
  unfold ioapicread. rewrite !bind_bind, (bind_ok _ _ _ _ _ (wr_run _ _ _)), (bind_ok _ _ _ _ _ (rd_run _ _ _)).
  cbn [emit trace]. change (u32 REG_VER) with REG_VER. rewrite Hn.
  rewrite !bind_bind, (bind_ok _ _ _ _ _ (wr_run _ _ _)), (bind_ok _ _ _ _ _ (rd_run _ _ _)).
  assert (n < 256) as Hb.
  { rewrite <- Hn. change 0xFF with (Z.ones 8). rewrite Z.land_ones by lia. by apply Z.mod_pos_bound. }
  destruct (mask_all (Z.to_nat (n + 1)) (emit [Rd IOWIN] (emit [Wr IOREGSEL (u32 REG_ID)]
    (emit [Rd IOWIN] (emit [Wr IOREGSEL REG_VER] s)))) 0) as (s1 & E1 & M1 & R1 & _); [done|lia|].
  rewrite Z2Nat.id in E1 by lia. rewrite (bind_ok _ _ _ _ _ E1).
  destruct (enable_each reqs s1) as (s2 & E2 & R2); [by rewrite M1|done|]. exists s2. split; [done|]. intros i Hi.
  rewrite R2. destruct (route reqs i); [done|]. apply R1. lia.
Qed.
End ioapics.

(** ** The clock *)

(** The register selected last. *)
Definition selected (t : list event) : Z :=
  foldl (λ r e, match e with Wr (PORT p) v => if p =? CMOS_PORT then v else r | _ => r end) 0 t.

Definition bcd (d : Z) : Z := 16 * (d / 10) + d mod 10.

Lemma CONV_bcd d : 0 ≤ d < 100 → CONV (bcd d) = d.
Proof.
  intros Hd. unfold CONV, bcd. pose proof (Z.div_mod d 10 ltac:(done)). pose proof (Z.mod_pos_bound d 10 ltac:(done)).
  assert (0 ≤ d / 10 < 10) by lia. change 0xf with (Z.ones 4). rewrite Z.land_ones, Z.shiftr_div_pow2 by lia.
  change (2 ^ 4) with 16. replace (16 * (d / 10) + d mod 10) with (d mod 10 + d / 10 * 16) by lia.
  rewrite Z.div_add, Z.mod_add by lia.
  rewrite (Z.div_small (d mod 10)), (Z.mod_small (d mod 10)) by lia. rewrite wrap_small; lia.
Qed.

Section clock.
Context (resp : list event → reg → Z) (polls : nat) (clk : Z → Z).
Hypothesis Hclk : ∀ t, resp t (PORT CMOS_RETURN) = clk (selected t).

Lemma cmos_read_run r s : 0 ≤ r < 256 → ∃ s', cmos_read resp r s = Ok (clk r) s'.
Proof.
  intros Hr. eexists. unfold cmos_read, outb, inb. rewrite (bind_ok _ _ _ _ _ (wr_run _ _ _)), rd_run, Hclk.
  cbn [emit trace]. unfold selected. rewrite foldl_app. cbn [foldl]. change (CMOS_PORT =? CMOS_PORT) with true. cbn iota.
  by rewrite wrap_small by lia.
Qed.

Lemma fill_run s : ∃ s', fill_rtcdate resp s = Ok (mkDate (clk 0) (clk 2) (clk 4) (clk 7) (clk 8) (clk 9)) s'.
Proof.
  unfold fill_rtcdate.
  destruct (cmos_read_run 0 s) as [s1 E1]; [lia|]. step E1. destruct (cmos_read_run 2 s1) as [s2 E2]; [lia|]. step E2.
  destruct (cmos_read_run 4 s2) as [s3 E3]; [lia|]. step E3. destruct (cmos_read_run 7 s3) as [s4 E4]; [lia|]. step E4.
  destruct (cmos_read_run 8 s4) as [s5 E5]; [lia|]. step E5. destruct (cmos_read_run 9 s5) as [s6 E6]; [lia|]. step E6.
  by eexists.
Qed.

(** From a clock that shows a date in BCD, and is not being updated, the date. *)
Theorem cmostime_bcd (d : rtcdate) s : (0 < polls)%nat → Z.land (clk CMOS_STATA) CMOS_UIP = 0 → Z.land (clk CMOS_STATB) 4 = 0 →
  (0 ≤ second d < 100 ∧ 0 ≤ minute d < 100 ∧ 0 ≤ hour d < 100 ∧ 0 ≤ day d < 100 ∧ 0 ≤ month d < 100 ∧ 2000 ≤ year d < 2100) →
  (clk 0 = bcd (second d) ∧ clk 2 = bcd (minute d) ∧ clk 4 = bcd (hour d) ∧ clk 7 = bcd (day d) ∧ clk 8 = bcd (month d) ∧
   clk 9 = bcd (year d - 2000)) →
  ∃ s', cmostime resp polls s = Ok d s'.
Proof.
  intros Hp Hu Hb (R1 & R2 & R3 & R4 & R5 & R6) (C1 & C2 & C3 & C4 & C5 & C6). unfold cmostime.
  destruct (cmos_read_run CMOS_STATB s) as [s1 E1]; [done|]. step E1. destruct polls as [|n]; [lia|]. cbn [loopM].
  destruct (fill_run s1) as [s2 E2]. destruct (cmos_read_run CMOS_STATA s2) as [s3 E3]; [done|].
  destruct (fill_run s3) as [s4 E4]. unfold cmos_turn at 1.
  rewrite !bind_bind, (bind_ok _ _ _ _ _ E2), !bind_bind, (bind_ok _ _ _ _ _ E3), Hu. cbn [Z.eqb negb].
  rewrite !bind_bind, (bind_ok _ _ _ _ _ E4), decide_True by done. go. rewrite Hb. cbn [Z.eqb]. exists s4. f_equal.
  cbn. rewrite C1, C2, C3, C4, C5, C6, !CONV_bcd by lia. rewrite wrap_small by lia. destruct d. cbn. f_equal. lia.
Qed.
End clock.

(** ** Two processors, of which the first runs the code *)

Definition ex_mps : mpst :=
  mkMpst ([mkMpcpu 0 4; mkMpcpu 1 6] ++ replicate 6 (mkMpcpu 0 0)) 0 1 2 2 (IO2V 0xFEE00000) [].
Definition ex_resp (t : list event) (r : reg) : Z :=
  match r with LAPIC i => if i =? ID then Z.shiftl 4 24 else 0 | STARTED _ => 1 | _ => 0 end.

(** What a started processor takes for its segments. *)
Lemma seginit_takes kend vectors (s : kst) free : (∀ n, 0 ≤ vectors n < 2 ^ 64) →
  kinv kend (ks_k s) free → km_free (ks_m s) → (2 ≤ length free)%nat →
  ∃ k', (seginit vectors ;;; ret tt) s = Ok tt (set_ksk k' s) ∧ kinv kend k' (drop 2 free).
Proof.
  intros Hv Hk Hm Hl. destruct free as [|a [|b fr]]; cbn in Hl; try lia.
  destruct (seginit_run kend vectors Hv s a b fr Hk Hm) as (sg & k' & E & K & _). exists k'. by step E.
Qed.

Lemma startothers_starts_witness : ∃ s s' p,
  startothers ex_resp 1 [0xFA; 0x31] 0 (λ _, seginit (λ _, 0) ;;; ret tt) s = Ok tt s' ∧ v_sent (seen (trace (sm_i s'))) = start_seq 6 (p + 4096) ∧
  is_page ex_kend p.
Proof.
  destruct (page_range_ok ex_kend ex_kend (ex_kend + 0x3000)) as [Hp Hnd];
    [unfold ex_kend, KERNBASE, PHYSTOP; lia..|].
  destruct (freerange_run ex_kend (page_range ex_kend (ex_kend + 0x3000)) ex_kst []) as (s & _ & Hk & Em & _).
  - exact Hp.
  - exact Hnd.
  - intros v _. apply not_elem_of_nil.
  - split_and!; [reflexivity|apply NoDup_nil_2|apply Forall_nil_2|intros a; apply length_replicate].
  - split; [exact ex_mok|reflexivity].
  - destruct (startothers_starts ex_resp 1 [0xFA; 0x31] 0 ex_kend ex_mps 0 (λ _, seginit (λ _, 0) ;;; ret tt) 2) with
      (s := mkSmpSt s (mkIntr ex_mps irqmask0 [])) (free := reverse (page_range ex_kend (ex_kend + 0x3000)) ++ [])
      as (s' & E & _ & V & _).
    + by vm_compute.
    + intros t. by vm_compute.
    + intros t k c st _ _ _. exists 0%nat. split; [lia|]. cbn. lia.
    + intros k s0 free. apply seginit_takes. intros. lia.
    + done.
    + intros k Hk'. cbn in Hk'. destruct k as [|[|k]]; [eexists; split; [reflexivity|cbn; lia]..|lia].
    + exact Hk.
    + cbn [sm_k]. rewrite Em. split; [exact ex_mok|reflexivity].
    + rewrite app_nil_r, length_reverse. by apply Nat.leb_le.
    + destruct (reverse (page_range ex_kend (ex_kend + 0x3000))) as [|p l] eqn:Er.
      { apply (f_equal length) in Er. rewrite length_reverse in Er. discriminate Er. }
      exists (mkSmpSt s (mkIntr ex_mps irqmask0 [])), s', p. split; [exact E|]. split; [rewrite V; by destruct l|].
      destruct Hk as (_ & _ & Hk & _). by apply Forall_cons in Hk as [? _].
Defined.
End Apic.
