(* ===== verification/Main.v ===== *)
(** * The start of the kernel (kernel/main.c, the set-up of kernel/uart.c and
    the interrupts of [consoleinit] of kernel/console.c)

    [main_boot] composes the components in the order of [main]: the first pages
    of the allocator, the kernel's page tables, the tables of the firmware, the
    interrupt controllers, the start of the other processors, which run
    [mpenter] meanwhile, and the rest of the memory.  The initialisers of the
    process table, the buffers, the files and the inodes act on other state and
    are modelled with it. *)

From S2P Require Import Prelude Bytes Sched Kalloc Kvm Trap Mp Apic.

Module Main.
Import Mp Apic.

Definition COM1 : Z := 0x3f8.

Section code.
Context (resp : list event → reg → Z).

(** *** uart.c *)

(** A turn of the wait for the transmitter, at most 128 of them. *)
Fixpoint uart_wait (n : nat) : M intr unit :=
  match n with
  | O => ret tt
  | S n' =>
      v ← inb resp (COM1 + 5);
      if negb (Z.land v 0x20 =? 0) then ret tt else uart_wait n'
  end.

Definition uart_send (c : Z) : M intr unit := uart_wait 128 ;;; outb COM1 c.

(** Returns whether there is a serial port. *)
Definition uartearlyinit : M intr bool :=
  outb (COM1 + 2) 0 ;;;
  outb (COM1 + 3) 0x80 ;;;
  outb (COM1 + 0) (115200 / 9600) ;;;
  outb (COM1 + 1) 0 ;;;
  outb (COM1 + 3) 0x03 ;;;
  outb (COM1 + 4) 0 ;;;
  outb (COM1 + 1) 0x01 ;;;
  v ← inb resp (COM1 + 5);
  if v =? 0xFF then ret false else
  for_all [120; 118; 54; 46; 46; 46; 10] uart_send ;;;
  ret true.

Definition uartinit (uart : bool) : M intr unit :=
  if negb uart then ret tt else
  inb resp (COM1 + 2) ;;;
  inb resp (COM1 + 0) ;;;
  picenable IRQ_COM1 ;;;
  ioapicenable IRQ_COM1 0.

(** The interrupts of [consoleinit]. *)
Definition consoleinit_irq : M intr unit := picenable IRQ_KBD ;;; ioapicenable IRQ_KBD 0.
End code.

Section boot.
Context (resp : list event → reg → Z) (ap_resp : nat → list event → reg → Z) (polls : nat).
Context (fw : Z → Z) (in23 kend : Z) (vectors : nat → Z) (entryother : list Z) (entry32mp : Z).
Abbreviation iM := (lift sm_i set_smi).
Abbreviation kM := (lift sm_k set_smk).

(** What the other processor [c] does until it sets its flag.  The page table
    it loads is the kernel's, and the local APIC at the address is its own. *)
Definition mpenter (c : nat) : M smp segs :=
  sg ← kM (seginit vectors);
  iM (lapicinit (ap_resp c) polls) ;;;
  ret sg.

(** A computation of another processor, which has its own devices. *)
Definition privately {A} (i : intr) (m : M smp A) : M kst unit := λ k,
  match m (mkSmpSt k i) with
  | Ok _ s => Ok tt (sm_k s)
  | Stop e s => Stop e (sm_k s)
  end.

Definition set_mp (x : mpst) (s : intr) : intr := mkIntr x (irqmask s) (trace s).

Definition main_boot : M smp (kvm * segs) :=
  uart ← iM (uartearlyinit resp);
  kM (kinit1 kend kend (p2v (4 * 1024 * 1024))) ;;;
  kv ← kM kvmalloc;
  iM (lift in_mp set_mp (mpinit fw in23)) ;;;
  iM (lapicinit resp polls) ;;;
  sg ← kM (seginit vectors);
  iM picinit ;;;
  iM (ioapicinit resp) ;;;
  iM consoleinit_irq ;;;
  iM (uartinit resp uart) ;;;
  s ← get;
  whenM (ismp (in_mp (sm_i s)) =? 0) (iM timerinit) ;;;
  startothers resp polls entryother entry32mp (λ c, privately (mkIntr (in_mp (sm_i s)) 0 []) (mpenter c)) ;;;
  kM (kinit2 kend (p2v (4 * 1024 * 1024)) (p2v PHYSTOP)) ;;;
  ret (kv, sg).
End boot.

(** ** Computations that send no interrupt *)

(** [m] always returns, and changes what the other processors see by [f]. *)
Definition effect {A} (f : view → view) (m : M intr A) : Prop := ∀ s, ∃ a s' t,
  m s = Ok a s' ∧ in_mp s' = in_mp s ∧ trace s' = trace s ++ t ∧ ∀ v, foldl see v t = f v.

Definition plain (e : event) : Prop :=
  match e with
  | Wr (LAPIC i) _ => i ≠ ICRHI ∧ i ≠ ICRLO
  | Wr (MEM a) _ => a ≠ code - 16
  | _ => True
  end.

Lemma see_plain e v : plain e → see v e = v.
Proof.
  destruct e as [r|r x]; [done|]. destruct r as [i| | |p|a|c]; try done; cbn [plain see].
  - intros [H1 H2]. by rewrite (proj2 (Z.eqb_neq _ _) H1), (proj2 (Z.eqb_neq _ _) H2).
  - intros H. by rewrite (proj2 (Z.eqb_neq _ _) H).
Qed.

Section effects.
Context (resp : list event → reg → Z).

Lemma effect_ret {A} (a : A) : effect id (ret a).
Proof. intros s. exists a, s, []. by rewrite app_nil_r. Qed.

Lemma effect_bind {A B} f g (m : M intr A) (k : A → M intr B) :
  effect f m → (∀ a, effect g (k a)) → effect (λ v, g (f v)) (bind m k).
Proof.
  intros Hm Hk s. destruct (Hm s) as (a & s1 & t1 & E1 & M1 & T1 & V1). destruct (Hk a s1) as (b & s2 & t2 & E2 & M2 & T2 & V2).
  exists b, s2, (t1 ++ t2). rewrite (bind_ok _ _ _ _ _ E1). split; [done|]. split; [congruence|].
  split; [by rewrite T2, T1, app_assoc|]. intros v. by rewrite foldl_app, V1, V2.
Qed.

Lemma effect_then {A B} g (m : M intr A) (k : A → M intr B) : effect id m → (∀ a, effect g (k a)) → effect g (bind m k).
Proof. intros Hm Hk. exact (effect_bind id g m k Hm Hk). Qed.

Lemma effect_get : effect id (get (S := intr)).
Proof. intros s. exists s, s, []. by rewrite app_nil_r. Qed.

Lemma effect_irqmask x : effect id (modify (set_irqmask x)).
Proof. intros s. exists tt, (set_irqmask x s), []. by rewrite app_nil_r. Qed.

Lemma effect_wr r x : plain (Wr r x) → effect id (wr r x).
Proof. intros Hp s. exists tt, (emit [Wr r x] s), [Wr r x]. split; [done|]. do 2 (split; [done|]). intros v. by apply see_plain. Qed.

Lemma effect_rd r : effect id (rd resp r).
Proof. intros s. eexists _, (emit [Rd r] s), [Rd r]. split; [apply rd_run|done]. Qed.

Lemma effect_when b (m : M intr unit) : effect id m → effect id (whenM b m).
Proof. destruct b; [done|]. intros _. apply effect_ret. Qed.

Lemma effect_for_all {X} (l : list X) (f : X → M intr unit) : (∀ x, effect id (f x)) → effect id (for_all l f).
Proof. intros Hf. induction l as [|x l IH]; cbn [for_all]; [apply effect_ret|]. by apply effect_then. Qed.

Lemma effect_lapicw i x : i ≠ ICRHI → i ≠ ICRLO → effect id (lapicw resp i x).
Proof. intros H1 H2. apply effect_then; [by apply effect_wr|intros _]. apply effect_then; [apply effect_rd|intros _; apply effect_ret]. Qed.

(** A wait that ends within [n] reads. *)
Lemma effect_deliv n : (∀ t, ∃ j, (j < n)%nat ∧ Z.land (resp (t ++ replicate j (Rd (LAPIC ICRLO))) (LAPIC ICRLO)) DELIVS = 0) →
  effect id (loopM n (deliv_turn resp) tt).
Proof.
  intros H s. specialize (H (trace s)). revert s H. induction n as [|n IH]; intros s (j & Hj & Hr); [lia|].
  cbn [loopM]. unfold deliv_turn at 1. rewrite bind_bind, (bind_ok _ _ _ _ _ (rd_run _ _ _)). go.
  destruct (Z.land (resp (trace s) (LAPIC ICRLO)) DELIVS =? 0) eqn:E.
  - exists tt, (emit [Rd (LAPIC ICRLO)] s), [Rd (LAPIC ICRLO)]. done.
  - destruct j as [|j]; [rewrite app_nil_r in Hr; lia|]. destruct (IH (emit [Rd (LAPIC ICRLO)] s)) as (a & s' & t & E' & M' & T' & V').
    { exists j. split; [lia|]. cbn. by rewrite <- app_assoc. }
    exists a, s', (Rd (LAPIC ICRLO) :: t). rewrite E'. split; [done|]. split; [done|]. split; [rewrite T'; cbn; by rewrite <- app_assoc|].
    intros v. by rewrite see_cons, see_rd.
Qed.
End effects.

(** [quiet] goes through a computation that sends nothing. *)
Ltac quiet := repeat match goal with
  | |- effect id (ret _) => apply effect_ret
  | |- effect id get => apply effect_get
  | |- effect id (modify (set_irqmask _)) => apply effect_irqmask
  | |- effect id (rd _ _) => apply effect_rd
  | |- effect id (wr _ _) => apply effect_wr; exact I
  | |- effect id (lapicw _ _ _) => apply effect_lapicw; by apply Z.eqb_neq
  | |- effect id (whenM _ _) => apply effect_when
  | |- effect id (for_all _ _) => apply effect_for_all; intros ?
  | |- effect id (bind _ _) => apply effect_then; [|intros ?]
  | |- effect id (if _ then _ else _) => case_match
  end.

Section quiets.
Context (resp : list event → reg → Z).

Lemma picenable_quiet irq : effect id (picenable irq).
Proof. unfold picenable, picsetmask, outb. quiet. Qed.
Lemma picinit_quiet : effect id picinit.
Proof. unfold picinit, picsetmask, outb. quiet. Qed.
Lemma ioapicinit_quiet : effect id (ioapicinit resp).
Proof. unfold ioapicinit, ioapicread, ioapicwrite. quiet. Qed.
Lemma ioapicenable_quiet irq c : effect id (ioapicenable irq c).
Proof. unfold ioapicenable, ioapicwrite. quiet. Qed.
Lemma consoleinit_quiet : effect id consoleinit_irq.
Proof. apply effect_then; [apply picenable_quiet|intros _; apply ioapicenable_quiet]. Qed.
Lemma uartinit_quiet uart : effect id (uartinit resp uart).
Proof. unfold uartinit, inb. quiet; [apply picenable_quiet|apply ioapicenable_quiet]. Qed.
Lemma uart_send_quiet c : effect id (uart_send resp c).
Proof.
  unfold uart_send, outb. apply effect_then; [|intros _; quiet].
  generalize 128%nat as n. induction n as [|n IH]; cbn [uart_wait]; [apply effect_ret|]. unfold inb. quiet. exact IH.
Qed.
Lemma uartearlyinit_quiet : effect id (uartearlyinit resp).
Proof. unfold uartearlyinit, outb, inb. quiet. apply uart_send_quiet. Qed.

(** [lapicinit] sends one command, to all: they synchronise their ids. *)
Definition sync (v : view) : view := mkView 0 (v_stack v) (v_sent v ++ [(0, 0x88500, v_stack v)]).

Lemma effect_icr n : (∀ t, ∃ j, (j < n)%nat ∧ Z.land (resp (t ++ replicate j (Rd (LAPIC ICRLO))) (LAPIC ICRLO)) DELIVS = 0) →
  effect sync (lapicw resp ICRHI 0 ;;; lapicw resp ICRLO (Z.lor (Z.lor BCAST INIT) LEVEL) ;;;
    loopM n (deliv_turn resp) tt ;;; lapicw resp TPR 0).
Proof.
  intros H.
  assert (effect (λ v, mkView 0 (v_stack v) (v_sent v)) (lapicw resp ICRHI 0)) as H1.
  { intros s. eexists _, _, _. split; [apply lapicw_run|]. split; [done|]. split; [reflexivity|]. intros v. by sees. }
  assert (effect (λ v, mkView (v_hi v) (v_stack v) (v_sent v ++ [(Z.shiftr (v_hi v) 24, 0x88500, v_stack v)]))
    (lapicw resp ICRLO (Z.lor (Z.lor BCAST INIT) LEVEL))) as H2.
  { intros s. eexists _, _, _. split; [apply lapicw_run|]. split; [done|]. split; [reflexivity|]. intros v. by sees. }
  refine (effect_bind _ (λ v, mkView (v_hi v) (v_stack v) (v_sent v ++ [(Z.shiftr (v_hi v) 24, 0x88500, v_stack v)])) _ _ H1 (λ _, _)).
  refine (effect_bind _ id _ _ H2 (λ _, _)). apply effect_then; [by apply effect_deliv|intros _; quiet].
Qed.

Lemma lapicinit_effect n (s : intr) : lapic (in_mp s) ≠ 0 →
  (∀ t, ∃ j, (j < n)%nat ∧ Z.land (resp (t ++ replicate j (Rd (LAPIC ICRLO))) (LAPIC ICRLO)) DELIVS = 0) →
  ∃ s' t, lapicinit resp n s = Ok tt s' ∧ in_mp s' = in_mp s ∧ trace s' = trace s ++ t ∧ ∀ v, foldl see v t = sync v.
Proof.
  intros Hl H. unfold lapicinit. rewrite (bind_ok get _ _ _ _ eq_refl), (proj2 (Z.eqb_neq _ _) Hl).
  match goal with |- context [?m s] => assert (effect sync m) as He end.
  { do 6 (apply effect_then; [quiet|intros _]). apply effect_then; [quiet|intros x].
    do 5 (apply effect_then; [quiet|intros _]). by apply effect_icr. }
  destruct (He s) as ([] & s' & t & E). by exists s', t.
Qed.
End quiets.

(** ** The memory *)

Lemma page_range_in kend vstart vend p : KERNBASE ≤ kend ≤ vstart → vstart ≤ vend ≤ KERNBASE + PHYSTOP →
  p ∈ page_range vstart vend → vstart ≤ p ∧ p + PGSIZE ≤ vend.
Proof.
  intros Hs [Hle He] Hp. unfold KERNBASE, PHYSTOP in *.
  destruct (PGROUNDUP_le vstart) as [Hr _]; [lia|unfold PGSIZE; lia|]. unfold page_range in Hp.
  apply list_elem_of_fmap in Hp as (k & -> & Hk%elem_of_seq). set (q := PGROUNDUP vstart) in *. unfold PGSIZE in *.
  pose proof (Z.div_mod (vend - q) 4096). pose proof (Z.mod_pos_bound (vend - q) 4096). lia.
Qed.

Lemma page_range_length vstart vend (n : nat) : 0 ≤ vstart → vend < 2 ^ 64 - PGSIZE → vstart + PGSIZE * (Z.of_nat n + 1) ≤ vend →
  (n ≤ length (page_range vstart vend))%nat.
Proof.
  intros H0 H1 H. destruct (PGROUNDUP_le vstart) as [Hr _]; [lia|unfold PGSIZE in *; lia|].
  unfold page_range. rewrite length_fmap, length_seq. unfold PGSIZE in *. assert (Z.of_nat n ≤ (vend - PGROUNDUP vstart) / 4096); [|lia].
  apply Z.div_le_lower_bound; lia.
Qed.

(** The stacks are pages of the list, in its order, and none of them is left. *)
Lemma starts_stacks mp need (ids : nat → Z) ks : Forall (λ k, from_option cpu_apicid 0 (mcpus mp !! k) = ids k) ks →
  ∀ free, (length ks * S need ≤ length free)%nat →
  ∃ ps, length ps = length ks ∧
    starts mp need ks free = concat (zip_with (λ k p, start_seq (ids k) (p + 4096)) ks ps) ∧
    ps ++ drop (length ks * S need) free `sublist_of` free.
Proof.
  induction 1 as [|k ks Hid _ IH]; intros free Hl; [by exists []|]. destruct free as [|p free]; cbn [length] in Hl; [lia|].
  destruct (IH (drop need free)) as (ps & L & E & S1); [rewrite length_drop; lia|].
  exists (p :: ps). split; [cbn; lia|]. split; [cbn [starts hd drop zip_with concat]; by rewrite E, Hid|].
  cbn [length app Nat.mul]. cbn [Nat.add drop]. apply sublist_skip. rewrite drop_drop in S1.
  etrans; [exact S1|apply sublist_drop].
Qed.

Section boots.
Context (resp : list event → reg → Z) (ap_resp : nat → list event → reg → Z) (polls : nat).
Context (fw : Z → Z) (in23 kend : Z) (vectors : nat → Z) (entryother : list Z) (entry32mp : Z).
Context (Hkend : KERNBASE ≤ kend) (Hroom : kend + PGSIZE * 32 ≤ p2v (4 * 1024 * 1024)) (Hv : ∀ n, 0 ≤ vectors n < 2 ^ 64).

(** The firmware describes processors with different ids. *)
Context (mp pa ck ver la : Z) (pre post : list Z) (es : list entry).
Context (Hfw : firmware fw mp pa ck ver la pre post es) (Hla : IO2V la ≠ 0).
Context (Hids : NoDup (procs es).*1) (Hbyte : Forall (λ p, 0 ≤ p.1 < 256) (procs es)).

(** This processor is number [me]; interrupt commands are delivered and
    processors start within [polls] reads. *)
Context (me : nat) (Hme : ∀ t, Some (Z.shiftr (resp t (LAPIC ID)) 24) = fst <$> procs es !! me).
Definition delivers (r : list event → reg → Z) : Prop :=
  ∀ t, ∃ j, (j < polls)%nat ∧ Z.land (r (t ++ replicate j (Rd (LAPIC ICRLO))) (LAPIC ICRLO)) DELIVS = 0.
Context (Hdeliv : delivers resp) (Hap : ∀ c, delivers (ap_resp c)).
Context (Hstart : ∀ t k a f st, procs es !! k = Some (a, f) → (a, 0x607, st) ∈ v_sent (seen t) →
  ∃ j, (j < polls)%nat ∧ resp (t ++ replicate j (Rd (STARTED k))) (STARTED k) ≠ 0).
Abbreviation iM := (lift sm_i set_smi).
Abbreviation kM := (lift sm_k set_smk).

(** The others take two pages each for their segments. *)
Lemma ap_takes mps c (s : kst) free : lapic mps ≠ 0 → kinv kend (ks_k s) free → km_free (ks_m s) → (2 ≤ length free)%nat →
  ∃ k', privately (mkIntr mps 0 []) (mpenter ap_resp polls vectors c) s = Ok tt (set_ksk k' s) ∧ kinv kend k' (drop 2 free).
Proof.
  intros Hl Hk Hm Hn. destruct free as [|a [|b fr]]; cbn in Hn; try lia.
  destruct (seginit_run kend vectors Hv s a b fr Hk Hm) as (sg & k' & E & K & _).
  destruct (lapicinit_effect (ap_resp c) polls (mkIntr mps 0 []) Hl (Hap c)) as (i & t & E2 & _).
  exists k'. split; [|done]. unfold privately, mpenter.
  rewrite (bind_ok _ _ _ sg (mkSmpSt (set_ksk k' s) (mkIntr mps 0 []))) by (etrans; [apply lift_ok; exact E|done]).
  by rewrite (bind_ok _ _ _ tt (mkSmpSt (set_ksk k' s) i)) by (etrans; [apply lift_ok; exact E2|done]).
Qed.

(** A step on the devices that sends nothing. *)
Lemma quiet_step {A} (m : M intr A) kk ii : effect id m →
  ∃ a i, iM m (mkSmpSt kk ii) = Ok a (mkSmpSt kk i) ∧ in_mp i = in_mp ii ∧ seen (trace i) = seen (trace ii).
Proof.
  intros H. destruct (H ii) as (a & i & t & E & Mi & Ti & Vi). exists a, i. split; [|split; [done|]].
  - etrans; [apply lift_ok; exact E|done].
  - unfold seen. by rewrite Ti, foldl_app, Vi.
Qed.

Lemma mem_step {A} (m : M kst A) kk i a kk' : m kk = Ok a kk' → kM m (mkSmpSt kk i) = Ok a (mkSmpSt kk' i).
Proof. intros E. etrans; [apply lift_ok; exact E|done]. Qed.

(** The first 4 megabytes have room for all pages taken. *)
Lemma first_pages (k : kst) : mok (ks_m k) → freelist (ks_k k) = 0 → (∀ a, length (pages (ks_k k) a) = PAGE) →
  ∃ k', kinit1 kend kend (p2v (4 * 1024 * 1024)) k = Ok tt k' ∧ km_free (ks_m k') ∧
    kinv kend (ks_k k') (reverse (page_range kend (p2v (4 * 1024 * 1024)))) ∧
    (31 ≤ length (reverse (page_range kend (p2v (4 * 1024 * 1024)))))%nat.
Proof.
  intros H1 H2 H3. change (p2v (4 * 1024 * 1024)) with (KERNBASE + 0x400000) in *. unfold PGSIZE in Hroom.
  destruct (kinit1_run kend k kend (KERNBASE + 0x400000)) as (k' & E & K & F & _); [lia|unfold PHYSTOP; lia|done..|].
  exists k'. do 3 (split; [done|]). rewrite length_reverse. apply page_range_length; unfold KERNBASE, PGSIZE in *; lia.
Qed.

(** The rest of the memory. *)
Lemma last_pages (k : kst) free : kinv kend (ks_k k) free → km_free (ks_m k) → (∀ p, p ∈ free → p < p2v (4 * 1024 * 1024)) →
  ∃ k', kinit2 kend (p2v (4 * 1024 * 1024)) (p2v PHYSTOP) k = Ok tt k' ∧ use_lock (ks_k k') = true ∧
    kinv kend (ks_k k') (reverse (page_range (p2v (4 * 1024 * 1024)) (p2v PHYSTOP)) ++ free).
Proof.
  change (p2v (4 * 1024 * 1024)) with (KERNBASE + 0x400000) in *. change (p2v PHYSTOP) with (KERNBASE + PHYSTOP).
  intros K F Hb. unfold PGSIZE in Hroom.
  destruct (page_range_ok kend (KERNBASE + 0x400000) (KERNBASE + PHYSTOP)) as [Hp Hnd]; [lia|lia|unfold PHYSTOP; lia|].
  destruct (freerange_run kend _ k free Hp Hnd) as (k' & E & K' & _); [|done|done|].
  { intros p Hi Hf. apply Hb in Hf. apply (page_range_in kend) in Hi; [lia|lia|unfold PHYSTOP; lia]. }
  eexists. split; [unfold kinit2, freerange; by rewrite (bind_ok _ _ _ _ _ E)|]. done.
Qed.

(** What [mpinit] has found is what the firmware says. *)
Lemma found_me mps : ncpu mps = Z.of_nat (length (procs es)) →
  (∀ k a f, procs es !! k = Some (a, f) → mcpus mps !! k = Some (mkMpcpu (Z.of_nat k) a)) →
  ∀ t, cpunum_of mps (Z.shiftr (resp t (LAPIC ID)) 24) = Z.of_nat me.
Proof.
  intros Hn Hc t. specialize (Hme t). destruct (procs es !! me) as [[a f]|] eqn:E; [|done]. injection Hme as ->.
  pose proof (lookup_lt_Some _ _ _ E). apply (cpunum_index mps me (mkMpcpu (Z.of_nat me) a)); [by apply (Hc _ _ f)|lia|].
  intros j c Hj Hlt Heq. destruct (lookup_lt_is_Some_2 (procs es) j) as [[a' f'] E']; [lia|].
  rewrite (Hc _ _ _ E') in Hj. injection Hj as <-. cbn in Heq. subst a'.
  assert (j = me); [|lia]. apply (NoDup_lookup _ j me a Hids); rewrite list_lookup_fmap; by rewrite ?E, ?E'.
Qed.

Definition boot_others : list nat := others me (seq 0 (length (procs es))).

Lemma boot_others_le : (length boot_others ≤ 8)%nat.
Proof. etrans; [apply length_filter|]. rewrite length_seq. apply Hfw. Qed.

Lemma boot_startothers mps (s : smp) free : in_mp (sm_i s) = mps → lapic mps = IO2V la →
  ncpu mps = Z.of_nat (length (procs es)) →
  (∀ k a f, procs es !! k = Some (a, f) → mcpus mps !! k = Some (mkMpcpu (Z.of_nat k) a)) →
  kinv kend (ks_k (sm_k s)) free → km_free (ks_m (sm_k s)) → (24 ≤ length free)%nat →
  ∃ s' ps, startothers resp polls entryother entry32mp (λ c, privately (mkIntr mps 0 []) (mpenter ap_resp polls vectors c)) s = Ok tt s' ∧
    km_free (ks_m (sm_k s')) ∧ length ps = length boot_others ∧
    v_sent (seen (trace (sm_i s'))) = v_sent (seen (trace (sm_i s))) ++
      concat (zip_with (λ k p, start_seq (from_option fst 0 (procs es !! k)) (p + 4096)) boot_others ps) ∧
    ∃ free', kinv kend (ks_k (sm_k s')) free' ∧ ps ++ free' `sublist_of` free.
Proof.
  intros Hi Hl Hn Hc K F Hf. pose proof boot_others_le as Hle.
  assert (Z.to_nat (ncpu mps) = length (procs es)) as Hn' by lia.
  destruct (startothers_starts resp polls entryother entry32mp kend mps me
    (λ c, privately (mkIntr mps 0 []) (mpenter ap_resp polls vectors c)) 2) with (s := s) (free := free) as (s' & E & Em & V & K').
  - by rewrite Hl.
  - by apply found_me.
  - rewrite Hn'. intros t k c st Hk Ec Hst. destruct (lookup_lt_is_Some_2 _ _ Hk) as [[a f] Ek].
    rewrite (Hc _ _ _ Ek) in Ec. injection Ec as <-. by apply (Hstart t k a f st).
  - intros k s0 fr. apply ap_takes. by rewrite Hl.
  - done.
  - rewrite Hn'. intros k Hk. destruct (lookup_lt_is_Some_2 _ _ Hk) as [[a f] Ek]. exists (mkMpcpu (Z.of_nat k) a).
    split; [by apply (Hc _ _ f)|]. exact (proj1 (Forall_lookup _ _) Hbyte _ _ Ek).
  - done.
  - done.
  - unfold taken. rewrite Hn'. fold boot_others. lia.
  - rewrite Hn' in V, K'. fold boot_others in V. unfold taken in K'. fold boot_others in K'.
    destruct (starts_stacks mps 2 (λ k, from_option fst 0 (procs es !! k)) boot_others) with (free := free) as (ps & L & Es & S1); [|lia|].
    { apply Forall_forall. intros k Hk. apply list_elem_of_filter in Hk as [_ Hk%elem_of_seq].
      destruct (lookup_lt_is_Some_2 (procs es) k) as [[a f] Ek]; [lia|]. by rewrite (Hc _ _ _ Ek), Ek. }
    exists s', ps. split; [exact E|]. split; [by rewrite Em|]. split; [done|]. split; [|by eexists].
    by rewrite V, Es.
Qed.

(** The pages of the first part of the memory that are in use, then the free
    pages of all of it: no page is there twice. *)
Lemma pages_apart (used free1 : list Z) : used ++ free1 ⊆+ reverse (page_range kend (p2v (4 * 1024 * 1024))) →
  let free := reverse (page_range (p2v (4 * 1024 * 1024)) (p2v PHYSTOP)) ++ free1 in
  NoDup (used ++ free) ∧ Forall (λ p, kend ≤ p ∧ p + PGSIZE ≤ p2v (4 * 1024 * 1024)) (used ++ free1).
Proof.
  change (p2v (4 * 1024 * 1024)) with (KERNBASE + 0x400000) in *. change (p2v PHYSTOP) with (KERNBASE + PHYSTOP).
  intros S free. unfold PGSIZE in Hroom.
  assert (Forall (λ p, kend ≤ p ∧ p + PGSIZE ≤ KERNBASE + 0x400000) (used ++ free1)) as B.
  { apply Forall_forall. intros p Hp. eapply elem_of_submseteq in Hp; [|exact S]. rewrite reverse_Permutation in Hp.
    apply (page_range_in kend) in Hp; [done|lia|unfold PHYSTOP; lia]. }
  split; [|done]. unfold free. rewrite (Permutation_app_swap_app used). apply NoDup_app. split_and!.
  - rewrite reverse_Permutation. apply (page_range_ok kend); [lia|lia|unfold PHYSTOP; lia].
  - intros p Hp Hq. rewrite reverse_Permutation in Hp. apply (page_range_in kend) in Hp; [|lia|unfold PHYSTOP; lia].
    rewrite Forall_forall in B. apply B in Hq. unfold PGSIZE in Hq. lia.
  - destruct (submseteq_Permutation _ _ S) as [k' P]. apply (NoDup_app _ k'). rewrite <- P. rewrite reverse_Permutation. apply (page_range_ok kend); [lia|unfold PHYSTOP; lia|lia].
Qed.

End boots.

(** ** Two processors with the ids 4 and 6 *)

End Main.
