(* ===== verification/Kbd.v ===== *)
(** * The keyboard driver (kernel/kbd.c, include/kbd.h)

    [kbdgetc] is a function of the static [shift] word and the byte the
    keyboard controller has ready, if any.  The tables are built from the
    same entries as the designated initialisers of kbd.h. *)

From S2P Require Import Prelude.

Definition SHIFT : Z := 1.
Definition CTL : Z := 2.
Definition ALT : Z := 4.
Definition CAPSLOCK : Z := 8.
Definition NUMLOCK : Z := 16.
Definition SCROLLLOCK : Z := 32.
Definition E0ESC : Z := 64.

(** [C('A')] is Control-A: the code of the letter less that of ['@']. *)
Definition C (x : Z) : Z := x - 64.

(** A table of 256 bytes: leading entries, then designated ones. *)
Definition table (l : list Z) (d : list (Z * Z)) : list Z :=
  foldl (λ t e, <[Z.to_nat e.1 := e.2]> t) (l ++ replicate (256 - length l) 0) d.

Definition shiftcode : list Z :=
  table [] [(0x1D, CTL); (0x2A, SHIFT); (0x36, SHIFT); (0x38, ALT); (0x9D, CTL); (0xB8, ALT)].
Definition togglecode : list Z :=
  table [] [(0x3A, CAPSLOCK); (0x45, NUMLOCK); (0x46, SCROLLLOCK)].

(** The cursor keys and the keypad, the same in the three maps. *)
Definition keypad : list (Z * Z) :=
  [(0xC8, 0xE2); (0xD0, 0xE3); (0xC9, 0xE6); (0xD1, 0xE7); (0xCB, 0xE4); (0xCD, 0xE5);
   (0x97, 0xE0); (0xCF, 0xE1); (0xD2, 0xE8); (0xD3, 0xE9)].

Definition normalmap : list Z := table
  [0; 0x1B; 49; 50; 51; 52; 53; 54;
   55; 56; 57; 48; 45; 61; 8; 9;
   113; 119; 101; 114; 116; 121; 117; 105;
   111; 112; 91; 93; 10; 0; 97; 115;
   100; 102; 103; 104; 106; 107; 108; 59;
   39; 96; 0; 92; 122; 120; 99; 118;
   98; 110; 109; 44; 46; 47; 0; 42;
   0; 32; 0; 0; 0; 0; 0; 0;
   0; 0; 0; 0; 0; 0; 0; 55;
   56; 57; 45; 52; 53; 54; 43; 49;
   50; 51; 48; 46; 0; 0; 0; 0]
  ([(0x9C, 10); (0xB5, 47)] ++ keypad).

Definition shiftmap : list Z := table
  [0; 27; 33; 64; 35; 36; 37; 94;
   38; 42; 40; 41; 95; 43; 8; 9;
   81; 87; 69; 82; 84; 89; 85; 73;
   79; 80; 123; 125; 10; 0; 65; 83;
   68; 70; 71; 72; 74; 75; 76; 58;
   34; 126; 0; 124; 90; 88; 67; 86;
   66; 78; 77; 60; 62; 63; 0; 42;
   0; 32; 0; 0; 0; 0; 0; 0;
   0; 0; 0; 0; 0; 0; 0; 55;
   56; 57; 45; 52; 53; 54; 43; 49;
   50; 51; 48; 46; 0; 0; 0; 0]
  ([(0x9C, 10); (0xB5, 47)] ++ keypad).

(** The entries are [uchar]: [C('/')] is negative and wraps. *)
Definition ctlmap : list Z := table
  [0; 0; 0; 0; 0; 0; 0; 0;
   0; 0; 0; 0; 0; 0; 0; 0;
   C 81; C 87; C 69; C 82; C 84; C 89; C 85; C 73;
   C 79; C 80; 0; 0; 13; 0; C 65; C 83;
   C 68; C 70; C 71; C 72; C 74; C 75; C 76; 0;
   0; 0; 0; C 92; C 90; C 88; C 67; C 86;
   C 66; C 78; C 77; 0; 0; u8 (C 47); 0; 0]
  ([(0x9C, 13); (0xB5, u8 (C 47))] ++ keypad).

Definition at_table (t : list Z) (i : Z) : Z := nth (Z.to_nat i) t 0.
Definition charcode (m : Z) : list Z :=
  if m =? 0 then normalmap else if m =? 1 then shiftmap else ctlmap.

(** The letters change case under caps lock. *)
Definition caps (shift c : Z) : Z :=
  if has shift CAPSLOCK then
    if (97 <=? c) && (c <=? 122) then c - 32 else
    if (65 <=? c) && (c <=? 90) then c + 32 else c
  else c.

(** A scan code read from the controller: the new [shift] and the result. *)
Definition kbd_byte (shift data : Z) : Z * Z :=
  if data =? 0xE0 then (Z.lor shift E0ESC, 0) else
  if has data 0x80 then
    let data := if has shift E0ESC then data else Z.land data 0x7F in
    (Z.land shift (u32 (Z.lnot (Z.lor (at_table shiftcode data) E0ESC))), 0)
  else
  let '(shift, data) :=
    if has shift E0ESC then (Z.land shift (u32 (Z.lnot E0ESC)), Z.lor data 0x80) else (shift, data) in
  let shift := Z.lxor (Z.lor shift (at_table shiftcode data)) (at_table togglecode data) in
  (shift, caps shift (at_table (charcode (Z.land shift (Z.lor CTL SHIFT))) data)).

(** [pending] are the bytes the controller still has; -1 when there are none. *)
Definition kbdgetc (st : Z * list Z) : Z * (Z * list Z) :=
  match st with
  | (shift, []) => (-1, (shift, []))
  | (shift, data :: rest) => let r := kbd_byte shift data in (r.2, (r.1, rest))
  end.

(** ** Properties *)

(** Finite checks: a property of all pairs below bounds, decided by evaluation. *)
Definition all_pairs (m n : nat) (P : Z → Z → bool) : bool :=
  forallb (λ s, forallb (λ k, P (Z.of_nat s) (Z.of_nat k)) (seq 0 n)) (seq 0 m).

Lemma all_pairs_spec m n P s k : all_pairs m n P = true →
  0 ≤ s < Z.of_nat m → 0 ≤ k < Z.of_nat n → P s k = true.
Proof.
  unfold all_pairs. rewrite forallb_forall. intros Hf Hs Hk.
  specialize (Hf (Z.to_nat s)). rewrite forallb_forall in Hf.
  specialize (Hf ltac:(apply in_seq; lia) (Z.to_nat k) ltac:(apply in_seq; lia)).
  by rewrite !Z2Nat.id in Hf by lia.
Qed.

(** The states between two keys, and the table a state selects. *)
Definition shift_ok (s : Z) : Prop := 0 ≤ s < 128.
Definition plain_key (k : Z) : bool := (at_table shiftcode k =? 0) && (at_table togglecode k =? 0).

Definition step_check (s k : Z) : bool :=
  let r := kbd_byte s k in (0 <=? r.1) && (r.1 <? 128) && (0 <=? r.2) && (r.2 <? 256).

Lemma step_checked : all_pairs 128 256 step_check = true.
Proof. vm_compute. reflexivity. Qed.

(** Whatever bytes the keyboard sends, the modifier word stays within its
    seven flags and every result is a byte, so the tables are never indexed
    outside their 256 entries. *)
Theorem kbdgetc_safe s data rest : shift_ok s → 0 ≤ data < 256 →
  let r := kbdgetc (s, data :: rest) in
  0 ≤ r.1 < 256 ∧ shift_ok r.2.1 ∧ r.2.2 = rest.
Proof.
  intros Hs Hd. pose proof (all_pairs_spec _ _ _ s data step_checked Hs Hd) as Hc.
  unfold step_check in Hc. cbv zeta in *. cbn [kbdgetc fst snd]. unfold shift_ok.
  apply andb_true_iff in Hc as [[[?%Z.leb_le ?%Z.ltb_lt]%andb_true_iff ?%Z.leb_le]%andb_true_iff ?%Z.ltb_lt].
  split_and!; done || lia.
Qed.

Lemma kbdgetc_safe_witness :
  let r := kbdgetc (E0ESC, [0xFF; 1]) in 0 ≤ r.1 < 256 ∧ shift_ok r.2.1 ∧ r.2.2 = [1].
Proof. apply kbdgetc_safe; unfold shift_ok, E0ESC; lia. Defined.

(** The left shift key is pressed, a key struck, the shift key released. *)
Definition chord (s k : Z) : Z * Z :=
  let s1 := (kbd_byte s 0x2A).1 in
  let r := kbd_byte s1 k in
  ((kbd_byte r.1 0xAA).1, r.2).

Definition chord_check (s k : Z) : bool :=
  negb (plain_key k) ||
  ((chord s k).1 =? clrf s SHIFT) &&
  ((chord s k).2 =? caps s (at_table (if has s CTL then ctlmap else shiftmap) k)).

Lemma chord_checked : all_pairs 64 128 chord_check = true.
Proof. vm_compute. reflexivity. Qed.

(** A key struck while shift is held gives the character of the shifted
    table (or the control table when control is held too), with caps lock
    applied, and releasing shift leaves the other modifiers as they were. *)
Theorem kbd_shift_chord s k : 0 ≤ s < E0ESC → 0 ≤ k < 128 → plain_key k = true →
  chord s k = (clrf s SHIFT, caps s (at_table (if has s CTL then ctlmap else shiftmap) k)).
Proof.
  intros Hs Hk Hp. pose proof (all_pairs_spec _ _ _ s k chord_checked Hs Hk) as Hc.
  unfold chord_check in Hc. rewrite Hp in Hc. cbn [negb orb] in Hc.
  apply andb_true_iff in Hc as [H1%Z.eqb_eq H2%Z.eqb_eq].
  rewrite <- H1, <- H2. apply surjective_pairing.
Qed.

Lemma kbd_shift_chord_witness : chord CAPSLOCK 0x1E = (CAPSLOCK, 97).
Proof. rewrite kbd_shift_chord; [reflexivity|unfold CAPSLOCK, E0ESC; lia|lia|reflexivity]. Defined.
