(* ===== verification/Console.v ===== *)
(** * The console (kernel/console.c) and the serial port (kernel/uart.c)

    [con T] adds the console to a layer [T] below it: the input line buffer,
    the display memory and cursor, and the two input devices.  A device is
    the list of bytes it still has to deliver; [com1_out] records the bytes
    sent to the serial port.  Characters of [input.buf] are kept as bytes.
    [consoleread] and [consolewrite] are the entries of the device switch,
    [kbdintr] and [uartintr] the interrupt handlers.

    [cprintf] is a function from a format and its arguments to the characters
    it writes.  The output of [procdump] depends on kernel stacks and is a
    parameter; loading a null interrupt table on Control-Z is not modelled. *)

From S2P Require Import Prelude Bytes Spinlock Sched Bio BufLayer Ondisk Log Txn CString Fs Pipe Kbd Trap.

Definition BACKSPACE : Z := 0x100.
Definition INPUT_BUF : Z := 128.
Definition CONSOLE : Z := 1.

(** ** Formatted output *)

Definition digits : list Z := [48; 49; 50; 51; 52; 53; 54; 55; 56; 57; 97; 98; 99; 100; 101; 102].

(** [do { buf[i++] = digits[x % base]; } while((x /= base) != 0)]: the digits,
    least significant first. *)
Fixpoint digit_loop (ds : list Z) (fuel : nat) (x base : Z) : list Z :=
  match fuel with
  | O => []
  | S k => nth (Z.to_nat (x mod base)) ds 0 ::
           (if x / base =? 0 then [] else digit_loop ds k (x / base) base)
  end.

(** Thirty-two iterations are enough for a 32-bit value in any base. *)
Definition printint (xx base : Z) (sign : bool) : list Z :=
  let neg := sign && (xx <? 0) in
  let x := if neg then u32 (- xx) else u32 xx in
  rev (digit_loop digits 32 x base ++ (if neg then [45] else [])).

Fixpoint printptr_loop (n : nat) (x : Z) : list Z :=
  match n with
  | O => []
  | S k => nth (Z.to_nat (Z.shiftr x 60)) digits 0 :: printptr_loop k (u64 (Z.shiftl x 4))
  end.
Definition printptr (x : Z) : list Z := printptr_loop 16 x.

Inductive arg := AInt (x : Z) | APtr (x : Z) | AStr (s : option (list Z)).

Definition null_text : list Z := [40; 110; 117; 108; 108; 41; 0].

(** The characters of a format; [None] when an argument is missing or has
    another type. *)
Fixpoint format (fmt : list Z) (args : list arg) : option (list Z) :=
  match fmt with
  | [] => Some []
  | c :: fmt' =>
      if c =? 0 then Some [] else
      if negb (c =? 37) then cons c <$> format fmt' args else
      match fmt' with
      | [] => Some []
      | d :: fmt'' =>
          if d =? 0 then Some [] else
          if d =? 100 then
            match args with AInt x :: a => app (printint x 10 true) <$> format fmt'' a | _ => None end
          else if d =? 120 then
            match args with AInt x :: a => app (printint x 16 false) <$> format fmt'' a | _ => None end
          else if d =? 112 then
            match args with APtr x :: a => app (printptr x) <$> format fmt'' a | _ => None end
          else if d =? 115 then
            match args with
            | AStr s :: a => app (cstr (default null_text s)) <$> format fmt'' a
            | _ => None
            end
          else if d =? 37 then cons 37 <$> format fmt'' args
          else app [37; d] <$> format fmt'' args
      end
  end.

(** ** The display *)

Record cga := mkCga { crt : list Z; pos : Z }.

Definition put_cell (i c : Z) (l : list Z) : option (list Z) :=
  if (i <? 0) || (Z.of_nat (length l) <=? i) then None else Some (<[Z.to_nat i := c]> l).

(** [memmove(crt, crt+80, ..23*80)] and [memset(crt+pos, 0, ..(24*80 - pos))]. *)
Definition scroll (g : cga) : cga :=
  let p := pos g - 80 in
  let l := take (23 * 80) (drop 80 (crt g)) ++ drop (23 * 80) (crt g) in
  mkCga (splice (Z.to_nat p) (replicate (Z.to_nat (24 * 80 - p)) 0) l) p.

(** The cell of a character: black on white. *)
Definition cell (c : Z) : Z := Z.lor (Z.land c 0xff) 0x0700.

(** The new contents before the test for scrolling. *)
Definition cga_char (c : Z) (g : cga) : option cga :=
  if c =? 10 then Some (mkCga (crt g) (pos g + (80 - pos g mod 80)))
  else if c =? BACKSPACE then Some (mkCga (crt g) (if 0 <? pos g then pos g - 1 else pos g))
  else (λ l, mkCga l (pos g + 1)) <$> put_cell (pos g) (cell c) (crt g).

Definition cgaputc (c : Z) (g : cga) : option cga :=
  match cga_char c g with
  | None => None
  | Some g =>
      let g := if 24 <=? pos g / 80 then scroll g else g in
      (λ l, mkCga l (pos g)) <$> put_cell (pos g) (cell 32) (crt g)
  end.

(** ** The console state *)

Record input := mkInput { in_buf : list Z; in_r : Z; in_w : Z; in_e : Z }.

Record con (T : Type) := mkCon {
  cn_t : T;
  cn_input : input;
  cn_cga : cga;
  locking : bool;
  panicked : bool;
  uart : bool;               (* is there a uart? *)
  com1_out : list Z;
  com1_in : list Z;
  kbd : Z * list Z           (* the state of kbdgetc and the pending scan codes *)
}.
Arguments mkCon {T}.
Arguments cn_t {T}.
Arguments cn_input {T}.
Arguments cn_cga {T}.
Arguments locking {T}.
Arguments panicked {T}.
Arguments uart {T}.
Arguments com1_out {T}.
Arguments com1_in {T}.
Arguments kbd {T}.

Definition L_cons : lockid := ("console", 0).
Definition L_input : lockid := ("input", 0).
Definition input_chan : chan := ("input.r", 0).

(** [input.buf[i % INPUT_BUF]]. *)
Definition in_at (i : input) (k : Z) : Z := nth (Z.to_nat (k mod INPUT_BUF)) (in_buf i) 0.

(** The loop of Control-U: the new edit index and the number of characters erased. *)
Fixpoint kill_line (fuel : nat) (i : input) : input * nat :=
  match fuel with
  | O => (i, O)
  | S k =>
      if negb (in_e i =? in_w i) && negb (in_at i (u32 (in_e i - 1)) =? 10) then
        let r := kill_line k (mkInput (in_buf i) (in_r i) (in_w i) (u32 (in_e i - 1))) in (r.1, S r.2)
      else (i, O)
  end.

(** What a character does to the line: the new buffer, the characters echoed
    and whether readers are woken. *)
Definition edit (c : Z) (i : input) : input * list Z * bool :=
  if c =? C 85 then let r := kill_line (Z.to_nat INPUT_BUF) i in (r.1, replicate r.2 BACKSPACE, false) else
  if (c =? C 72) || (c =? 0x7f) then
    if negb (in_e i =? in_w i)
    then (mkInput (in_buf i) (in_r i) (in_w i) (u32 (in_e i - 1)), [BACKSPACE], false)
    else (i, [], false)
  else
  if negb (c =? 0) && (u32 (in_e i - in_r i) <? INPUT_BUF) then
    let c := if c =? 13 then 10 else c in
    let i := mkInput (<[Z.to_nat (in_e i mod INPUT_BUF) := u8 c]> (in_buf i)) (in_r i) (in_w i) (u32 (in_e i + 1)) in
    if (c =? 10) || (c =? C 68) || (in_e i =? u32 (in_r i + INPUT_BUF))
    then (mkInput (in_buf i) (in_r i) (in_e i) (in_e i), [c], true)
    else (i, [c], false)
  else (i, [], false).

Section code.
Context {T : Type} `{TxnOps T} (procdump : list Z).

Definition set_cnt (x : T) (s : con T) : con T :=
  mkCon x (cn_input s) (cn_cga s) (locking s) (panicked s) (uart s) (com1_out s) (com1_in s) (kbd s).
Definition set_input (x : input) (s : con T) : con T :=
  mkCon (cn_t s) x (cn_cga s) (locking s) (panicked s) (uart s) (com1_out s) (com1_in s) (kbd s).
Definition set_cga (x : cga) (s : con T) : con T :=
  mkCon (cn_t s) (cn_input s) x (locking s) (panicked s) (uart s) (com1_out s) (com1_in s) (kbd s).
Definition set_kbd (x : Z * list Z) (s : con T) : con T :=
  mkCon (cn_t s) (cn_input s) (cn_cga s) (locking s) (panicked s) (uart s) (com1_out s) (com1_in s) x.
Definition set_com1 (out inp : list Z) (s : con T) : con T :=
  mkCon (cn_t s) (cn_input s) (cn_cga s) (locking s) (panicked s) (uart s) out inp (kbd s).

Abbreviation cntM := (lift cn_t set_cnt).
Definition cnmachM {A} (m : M mach A) : M (con T) A := cntM (lift tmach set_tmach m).

(** The console passes the transaction interface through. *)
#[export] Instance con_ops : TxnOps (con T) := {|
  tmach := λ s, tmach (cn_t s);
  set_tmach := λ m s, set_cnt (set_tmach m (cn_t s)) s;
  t_bread := λ dev bn, cntM (t_bread dev bn);
  t_brelse := λ b, cntM (t_brelse b);
  t_data := λ b, cntM (t_data b);
  t_set := λ b d, cntM (t_set b d);
  t_log_write := λ b, cntM (t_log_write b);
  t_begin_op := cntM t_begin_op;
  t_end_op := cntM t_end_op
|}.

(** Waiting for the transmitter has no effect on the state. *)
Definition uartputc (c : Z) : M (con T) unit :=
  s ← get;
  whenM (uart s) (modify (λ s, set_com1 (com1_out s ++ [u8 c]) (com1_in s) s)).

Definition uartgetc : M (con T) Z :=
  s ← get;
  if negb (uart s) then ret (-1) else
  match com1_in s with
  | [] => ret (-1)
  | c :: l => put (set_com1 (com1_out s) l s) ;;; ret c
  end.

Definition kbdgetcM : M (con T) Z :=
  s ← get;
  let r := kbdgetc (kbd s) in
  put (set_kbd r.2 s) ;;;
  ret r.1.

(** After a panic every CPU that prints spins. *)
Definition consputc (c : Z) : M (con T) unit :=
  s ← get;
  if panicked s then cnmachM (smpM cli) ;;; halt (Spin L_cons) else
  (if c =? BACKSPACE then uartputc 8 ;;; uartputc 32 ;;; uartputc 8 else uartputc c) ;;;
  s ← get;
  g ← need (cgaputc c (cn_cga s));
  modify (set_cga g).

Definition cprintf (fmt : list Z) (args : list arg) : M (con T) unit :=
  s ← get;
  whenM (locking s) (cnmachM (smpM (acquire L_cons))) ;;;
  l ← need (format fmt args);
  for_all l consputc ;;;
  whenM (locking s) (cnmachM (smpM (release L_cons))).

(** One turn of [while((c = getc()) >= 0)]. *)
Definition intr_turn (getc : M (con T) Z) (_ : unit) : M (con T) (unit + unit) :=
  c ← getc;
  if c <? 0 then ret (inr tt) else
  if c =? C 90 then ret (inl tt) else
  if c =? C 80 then for_all procdump consputc ;;; ret (inl tt) else
  s ← get;
  let '(i, echo, wake) := edit c (cn_input s) in
  modify (set_input i) ;;;
  for_all echo consputc ;;;
  whenM wake (cnmachM (wakeup input_chan)) ;;;
  ret (inl tt).

Definition consoleintr (fuel : nat) (getc : M (con T) Z) : M (con T) unit :=
  cnmachM (smpM (acquire L_input)) ;;;
  loopM fuel (intr_turn getc) tt ;;;
  cnmachM (smpM (release L_input)).

(** The device has a finite number of bytes pending. *)
Definition kbd_intr : M (con T) unit := s ← get; consoleintr (S (length (kbd s).2)) kbdgetcM.
Definition uart_intr : M (con T) unit := s ← get; consoleintr (S (length (com1_in s))) uartgetc.

#[export] Instance con_irq : IrqOps (con T) := {|
  ideintr := ret tt;
  kbdintr := kbd_intr;
  uartintr := uart_intr
|}.

Abbreviation conM := (lift f_t set_ft).

(** One turn of [while(n > 0)]; [inr] leaves with the remaining [n], or returns -1. *)
Definition conread_turn (ip : nat) (target : Z) (st : Z * list Z)
    : M (fs (con T)) (Z * list Z + Z * list Z) :=
  let '(n, acc) := st in
  let finish := fmachM (smpM (release L_input)) ;;; ilock ip ;;;
                ret (inr (i32 (target - n), acc)) in
  if n <=? 0 then finish else
  s ← get;
  let i := cn_input (f_t s) in
  if in_r i =? in_w i then
    k ← fmachM killed;
    if (k : bool) then
      fmachM (smpM (release L_input)) ;;;
      ilock ip ;;;
      ret (inr (-1, acc))
    else
      fmachM (sleep input_chan L_input) ;;;
      ret (inl st)
  else
    let c := in_at i (in_r i) in
    if c =? C 68 then
      whenM (negb (n <? target)) (conM (modify (set_input (mkInput (in_buf i) (u32 (in_r i + 1)) (in_w i) (in_e i))))) ;;;
      finish
    else
      conM (modify (set_input (mkInput (in_buf i) (u32 (in_r i + 1)) (in_w i) (in_e i)))) ;;;
      if c =? 10 then
        fmachM (smpM (release L_input)) ;;; ilock ip ;;;
        ret (inr (i32 (target - (n - 1)), acc ++ [c]))
      else ret (inl (n - 1, acc ++ [c])).

(** With [input.lock] held; every turn that goes round stores a character. *)
Definition consoleread_locked (ip : nat) (target n : Z) (acc : list Z) : M (fs (con T)) (Z * list Z) :=
  loopM (S (Z.to_nat n)) (conread_turn ip target) (n, acc).

Definition consoleread (ip : nat) (n : Z) : M (fs (con T)) (Z * list Z) :=
  iunlock ip ;;;
  fmachM (smpM (acquire L_input)) ;;;
  consoleread_locked ip (u32 n) (i32 n) [].

(** The rest of a [consoleread] that slept with [n] bytes still to read. *)
Definition consoleread_resume (intena : bool) (ip : nat) (target n : Z) (acc : list Z)
    : M (fs (con T)) (Z * list Z) :=
  fmachM (sleep_resume intena L_input) ;;;
  consoleread_locked ip target n acc.

Definition consolewrite (ip : nat) (buf : list Z) (n : Z) : M (fs (con T)) Z :=
  iunlock ip ;;;
  fmachM (smpM (acquire L_cons)) ;;;
  for_all (take (Z.to_nat (i32 n)) buf) (λ c, conM (consputc (Z.land c 0xff))) ;;;
  fmachM (smpM (release L_cons)) ;;;
  ilock ip ;;;
  ret (i32 n).

#[export] Instance con_dev : DevSw (con T) := {|
  dev_read := λ major, if major =? CONSOLE then Some consoleread else None;
  dev_write := λ major, if major =? CONSOLE then Some consolewrite else None
|}.

(** The interrupt controllers are not modelled. *)
Definition consoleinit : M (con T) unit :=
  cnmachM (smpM (initlock L_cons)) ;;;
  cnmachM (smpM (initlock L_input)) ;;;
  modify (λ s, mkCon (cn_t s) (cn_input s) (cn_cga s) true (panicked s) (uart s) (com1_out s) (com1_in s) (kbd s)).
End code.
