(* ===== verification/ConsoleThms.v ===== *)
(** * Theorems about the console

    Formatted numbers are read back by the user library's [atoi] and fit
    [printint]'s buffer; the display never writes outside its 2000 cells and
    shows the text it is given; the circular line buffer refines two queues,
    the lines that can be read and the line being typed. *)

From S2P Require Import Prelude Bytes Spinlock Sched Bio BufLayer Ondisk Log Txn CString Fs Pipe Kbd Trap Console.

(** ** Numbers *)

Lemma digit_char x : 0 ≤ x < 10 → nth (Z.to_nat x) digits 0 = 48 + x.
Proof.
  intros Hx. assert (x = 0 ∨ x = 1 ∨ x = 2 ∨ x = 3 ∨ x = 4 ∨ x = 5 ∨ x = 6 ∨ x = 7 ∨ x = 8 ∨ x = 9) as Hd by lia.
  by destruct Hd as [->|[->|[->|[->|[->|[->|[->|[->|[->| ->]]]]]]]]].
Qed.

Lemma atoi_digits k x rest : 0 ≤ x < 2 ^ 31 → x < 10 ^ Z.of_nat k → (0 < k)%nat →
  atoi_loop (rev (digit_loop digits k x 10) ++ rest) 0 = atoi_loop rest x.
Proof.
  revert x rest. induction k as [|k IH]; intros x rest Hx Hk Hp; [lia|].
  pose proof (Z.div_mod x 10 ltac:(lia)) as Ex. pose proof (Z.mod_pos_bound x 10 ltac:(lia)) as Hm.
  cbn [digit_loop rev]. rewrite <- app_assoc. cbn [app].
  assert (∀ n, n * 10 + x mod 10 = x → atoi_loop (nth (Z.to_nat (x mod 10)) digits 0 :: rest) n = atoi_loop rest x) as Hd.
  { intros n En. rewrite digit_char by done. cbn [atoi_loop]. unfold digit.
    rewrite (proj2 (Z.leb_le 48 _)), (proj2 (Z.leb_le _ 57)) by lia. cbn [andb]. f_equal.
    replace (n * 10 + (48 + x mod 10) - 48) with x by lia. apply swrap_small; lia. }
  destruct (Z.eqb_spec (x / 10) 0) as [E|E].
  - apply Hd. lia.
  - rewrite IH; [apply Hd; lia|lia| |].
    + apply Z.div_lt_upper_bound; [lia|]. replace (Z.of_nat (S k)) with (Z.succ (Z.of_nat k)) in Hk by lia.
      rewrite Z.pow_succ_r in Hk; lia.
    + destruct k; [|lia]. cbn in Hk. lia.
Qed.

Lemma digit_loop_length ds k n x base : 2 ≤ base → 0 ≤ x < base ^ Z.of_nat n → (0 < n)%nat →
  (length (digit_loop ds k x base) ≤ n)%nat.
Proof.
  intros Hb. revert n x. induction k as [|k IH]; intros n x Hx Hn; cbn [digit_loop length]; [lia|].
  destruct (Z.eqb_spec (x / base) 0) as [E|E]; [cbn; lia|]. destruct n as [|n]; [lia|].
  assert (0 ≤ x / base) by (apply Z.div_pos; lia).
  assert (x / base < base ^ Z.of_nat n) as Hlt.
  { apply Z.div_lt_upper_bound; [lia|]. replace (Z.of_nat (S n)) with (Z.succ (Z.of_nat n)) in Hx by lia.
    rewrite Z.pow_succ_r in Hx; lia. }
  specialize (IH n (x / base) ltac:(lia)). destruct n; [cbn in Hlt; lia|]. lia.
Qed.

(** A number printed in decimal is read back by [atoi], and the digits and
    sign of any [int], in the two bases that are used, fit the sixteen bytes
    of [printint]'s buffer. *)
Theorem printint_atoi x base sign rest : - 2 ^ 31 ≤ x < 2 ^ 31 → base = 10 ∨ base = 16 →
  (length (printint x base sign) ≤ 11)%nat ∧
  (0 ≤ x → atoi (printint x 10 sign ++ 0 :: rest) = x) ∧
  (x < 0 → printint x 10 true = 45 :: printint (- x) 10 false).
Proof.
  intros Hx Hb. split_and!.
  - unfold printint. rewrite length_rev, length_app.
    set (v := if sign && (x <? 0) then u32 (- x) else u32 x).
    assert (0 ≤ v < 2 ^ 32) as Hv by (unfold v; case_match; apply wrap_range; lia).
    assert (length (digit_loop digits 32 v base) ≤ 10)%nat.
    { clearbody v. apply digit_loop_length; [lia| |lia]. destruct Hb as [->| ->]; split; (lia || (eapply Z.lt_le_trans; [apply Hv|]; vm_compute; discriminate)). }
    destruct (sign && (x <? 0)); cbn [length]; lia.
  - intros H0. unfold printint. rewrite (proj2 (Z.ltb_ge x 0)), andb_false_r, app_nil_r by lia.
    cbv beta iota zeta. unfold atoi. rewrite (wrap_small 32) by lia. by rewrite atoi_digits by (cbn; lia).
  - intros H0. unfold printint. rewrite (proj2 (Z.ltb_lt x 0)) by lia. cbn [andb].
    by rewrite rev_app_distr, app_nil_r.
Qed.

Lemma printint_atoi_witness : printint 1042 10 true = [49; 48; 52; 50] ∧
  atoi (printint 1042 10 true ++ 0 :: [7]) = 1042.
Proof. split; [reflexivity|]. apply (printint_atoi 1042 10 true [7]); [lia|by left|lia]. Defined.

(** ** The display *)

Definition cga_ok (g : cga) : Prop := length (crt g) = 2000%nat ∧ 0 ≤ pos g < 2000.

(** The characters after [c] is written at the cursor, and the new cursor, on
    a display without end. *)
Definition advance (c : Z) (g : cga) : Z :=
  if c =? 10 then (pos g / 80 + 1) * 80
  else if c =? BACKSPACE then Z.max 0 (pos g - 1)
  else pos g + 1.
Definition written (c : Z) (g : cga) : list Z :=
  if (c =? 10) || (c =? BACKSPACE) then crt g else <[Z.to_nat (pos g) := cell c]> (crt g).
(** The lines by which the display is scrolled. *)
Definition scrolled (p : Z) : Z := if 24 * 80 <=? p then 80 else 0.

Lemma put_cell_ok i c l : 0 ≤ i < Z.of_nat (length l) → put_cell i c l = Some (<[Z.to_nat i := c]> l).
Proof.
  intros Hi. unfold put_cell. by rewrite (proj2 (Z.ltb_ge _ _)), (proj2 (Z.leb_gt _ _)) by lia.
Qed.

Lemma cga_char_ok c g : cga_ok g → cga_char c g = Some (mkCga (written c g) (advance c g)) ∧
  0 ≤ advance c g ≤ 2000 ∧ length (written c g) = 2000%nat ∧ (pos g < 24 * 80 → advance c g ≤ 24 * 80).
Proof.
  intros [Hl Hp]. unfold cga_char, written, advance.
  pose proof (Z.div_mod (pos g) 80 ltac:(lia)). pose proof (Z.mod_pos_bound (pos g) 80 ltac:(lia)).
  destruct (Z.eqb_spec c 10) as [->|]; [cbn [orb]|destruct (Z.eqb_spec c BACKSPACE) as [->|]; cbn [orb]].
  - split_and!; [do 2 f_equal; lia|lia..|done|lia].
  - split_and!; [|lia..|done|lia]. do 2 f_equal. destruct (Z.ltb_spec 0 (pos g)); lia.
  - rewrite put_cell_ok by (rewrite Hl; lia). rewrite length_insert. split_and!; [done|lia..].
Qed.

Lemma scroll_ok l p : length l = 2000%nat → 24 * 80 ≤ p ≤ 2000 → let g := scroll (mkCga l p) in
  length (crt g) = 2000%nat ∧ pos g = p - 80 ∧
  ∀ i, (Z.of_nat i < p - 80) → (i < 23 * 80)%nat → crt g !! i = l !! (i + 80)%nat.
Proof.
  intros Hl Hp. unfold scroll. cbn [crt pos].
  assert (length (take (23 * 80) (drop 80 l) ++ drop (23 * 80) l) = 2000%nat) as Hn.
  { rewrite length_app, length_take, !length_drop. lia. }
  split_and!; [rewrite splice_length; [done|rewrite length_replicate; lia]|done|]. intros i Hi Hr.
  rewrite lookup_splice by (rewrite length_replicate; lia). rewrite bool_decide_eq_false_2 by lia.
  rewrite lookup_app_l by (rewrite length_take, length_drop; lia).
  rewrite lookup_take_lt, lookup_drop by lia. f_equal. lia.
Qed.

(** C39: A character written to the display goes to the cursor's cell, a newline
    or a backspace moves the cursor only, and the display scrolls by one line
    when the cursor would leave the first 24; every access is inside the 2000
    cells, wherever the cursor was, and what was on the screen before the
    cursor stays. *)
Theorem cgaputc_spec c g : cga_ok g → let s := scrolled (advance c g) in
  ∃ g', cgaputc c g = Some g' ∧ cga_ok g' ∧ pos g' = advance c g - s ∧
    crt g' !! Z.to_nat (pos g') = Some (cell 32) ∧
    (pos g < 24 * 80 → pos g' < 24 * 80 ∧
       ∀ i, Z.of_nat i < pos g' → crt g' !! i = written c g !! (i + Z.to_nat s)%nat).
Proof.
  intros Hg. destruct (cga_char_ok c g Hg) as (E & Hr & Hl & Hb). unfold cgaputc, scrolled. rewrite E. cbn [pos].
  assert ((24 <=? advance c g / 80) = (24 * 80 <=? advance c g)) as ->.
  { pose proof (Z.div_mod (advance c g) 80 ltac:(lia)). pose proof (Z.mod_pos_bound (advance c g) 80 ltac:(lia)).
    destruct (Z.leb_spec 24 (advance c g / 80)), (Z.leb_spec (24 * 80) (advance c g)); lia. }
  destruct (Z.leb_spec (24 * 80) (advance c g)) as [Hs|Hs].
  - destruct (scroll_ok _ _ Hl (conj Hs (proj2 Hr))) as (Hl' & Hp' & Hi'). cbn zeta.
    set (g1 := scroll _) in *. rewrite put_cell_ok by lia. eexists. split; [reflexivity|]. cbn [crt pos].
    unfold cga_ok. cbn [crt pos]. rewrite length_insert, list_lookup_insert_eq by lia. split_and!; [lia..|done|].
    intros Hlt. split; [lia|]. intros i Hi. rewrite list_lookup_insert_ne by lia. apply Hi'; lia.
  - cbn zeta. cbn [crt pos]. rewrite put_cell_ok by lia. eexists. split; [reflexivity|]. cbn [crt pos].
    unfold cga_ok. cbn [crt pos]. rewrite length_insert, list_lookup_insert_eq by lia. split_and!; [lia..|done|].
    intros Hlt. split; [lia|]. intros i Hi. rewrite list_lookup_insert_ne by lia. f_equal. lia.
Qed.

Lemma cgaputc_spec_witness : let g := mkCga (replicate 2000 0) 1919 in
  ∃ g', cgaputc 65 g = Some g' ∧ cga_ok g' ∧ pos g' = 1840 ∧ crt g' !! 1839%nat = Some (cell 65).
Proof.
  intros g. assert (cga_ok g) as Hg by (split; [reflexivity|cbn; lia]).
  destruct (cgaputc_spec 65 g Hg) as (g' & E & Hok & Hp & _ & Hi). exists g'.
  split_and!; [exact E|exact Hok|exact Hp|]. destruct Hi as [_ Hi]; [cbn; lia|].
  rewrite Hi by (rewrite Hp; vm_compute; reflexivity). vm_compute. reflexivity.
Defined.

(** ** The circular buffer *)

(** The [n] characters from index [a] on. *)
Definition ring (buf : list Z) (a n : Z) : list Z :=
  (λ k, nth (Z.to_nat ((a + k) mod INPUT_BUF)) buf 0) <$> seqZ 0 n.

Lemma ring_length buf a n : length (ring buf a n) = Z.to_nat n.
Proof. unfold ring. by rewrite length_fmap, length_seqZ. Qed.

Lemma ring_ext buf a b n : a mod INPUT_BUF = b mod INPUT_BUF → ring buf a n = ring buf b n.
Proof.
  intros E. apply list_fmap_ext. intros i x _. by rewrite <- Zplus_mod_idemp_l, E, Zplus_mod_idemp_l.
Qed.

Lemma ring_app buf a n m : 0 ≤ n → 0 ≤ m → ring buf a (n + m) = ring buf a n ++ ring buf (a + n) m.
Proof.
  intros Hn Hm. unfold ring. rewrite seqZ_app by done. rewrite fmap_app. f_equal.
  replace (0 + n) with (n + 0) by lia. rewrite <- fmap_add_seqZ, <- list_fmap_compose. apply list_fmap_ext. intros i x _. cbn. by rewrite Z.add_assoc.
Qed.

Lemma ring_one buf a : ring buf a 1 = [nth (Z.to_nat (a mod INPUT_BUF)) buf 0].
Proof. unfold ring. change (seqZ 0 1) with [0]. cbn [fmap list_fmap]. by rewrite Z.add_0_r. Qed.

(** Storing after the last of fewer than 128 characters. *)
Lemma ring_store buf a n b c : length buf = 128%nat → 0 ≤ n < INPUT_BUF → b mod INPUT_BUF = (a + n) mod INPUT_BUF →
  ring (<[Z.to_nat (b mod INPUT_BUF) := c]> buf) a n = ring buf a n.
Proof.
  intros Hl Hn Hb. apply list_fmap_ext. intros i x Hx.
  apply lookup_seqZ in Hx as [-> Hi]. unfold INPUT_BUF in *.
  assert ((a + (0 + Z.of_nat i)) mod 128 ≠ b mod 128) as Hne.
  { rewrite Hb. intros E. pose proof (Z.div_mod (a + (0 + Z.of_nat i)) 128). pose proof (Z.div_mod (a + n) 128). lia. }
  pose proof (Z.mod_pos_bound (a + (0 + Z.of_nat i)) 128). pose proof (Z.mod_pos_bound b 128).
  rewrite !nth_lookup, list_lookup_insert_ne by lia. done.
Qed.

Lemma ring_last buf a n b c : length buf = 128%nat → 0 ≤ n < INPUT_BUF → b mod INPUT_BUF = (a + n) mod INPUT_BUF →
  ring (<[Z.to_nat (b mod INPUT_BUF) := c]> buf) a (n + 1) = ring buf a n ++ [c].
Proof.
  intros Hl Hn Hb. rewrite ring_app by lia. rewrite ring_store by done. f_equal.
  rewrite (ring_ext _ _ b) by done. rewrite ring_one, nth_lookup, list_lookup_insert_eq; [done|].
  pose proof (Z.mod_pos_bound b 128). unfold INPUT_BUF. lia.
Qed.

Lemma u32_ring x : u32 x mod INPUT_BUF = x mod INPUT_BUF.
Proof. unfold wrap, INPUT_BUF. apply Z.mod_mod_divide. by exists (2 ^ 25). Qed.

(** ** The line discipline *)

(** The lines that can be read, and the line being typed. *)
Definition ready_len (i : input) : Z := u32 (in_w i - in_r i).
Definition line_len (i : input) : Z := u32 (in_e i - in_w i).
Definition ready (i : input) : list Z := ring (in_buf i) (in_r i) (ready_len i).
Definition line (i : input) : list Z := ring (in_buf i) (in_w i) (line_len i).

Record input_ok (i : input) : Prop := {
  io_len : length (in_buf i) = 128%nat;
  io_r : 0 ≤ in_r i < 2 ^ 32;
  io_w : 0 ≤ in_w i < 2 ^ 32;
  io_e : 0 ≤ in_e i < 2 ^ 32;
  io_fit : ready_len i + line_len i ≤ INPUT_BUF;
  io_line : Forall (λ c, c ≠ 10) (line i)
}.

(** What a terminal promises: characters are added to the line, erased from
    its end, and handed over by a newline, by Control-D and when the buffer is
    full. *)
Definition type_char (c : Z) (q : list Z * list Z) : list Z * list Z * list Z * bool :=
  let '(rd, ln) := q in
  if c =? C 85 then (rd, [], replicate (length ln) BACKSPACE, false)
  else if (c =? C 72) || (c =? 0x7f) then
    (rd, removelast ln, replicate (Nat.min 1 (length ln)) BACKSPACE, false)
  else if (c =? 0) || (128 <=? length rd + length ln)%nat then (rd, ln, [], false)
  else
    let c := if c =? 13 then 10 else c in
    let ln := ln ++ [c] in
    if (c =? 10) || (c =? C 68) || (length rd + length ln =? 128)%nat
    then (rd ++ ln, [], [c], true) else (rd, ln, [c], false).

Section discipline.
Context (i : input).
Hypothesis Hi : input_ok i.

Lemma lens : 0 ≤ ready_len i ∧ 0 ≤ line_len i ∧ ready_len i + line_len i ≤ 128.
Proof.
  pose proof (io_fit i Hi). unfold ready_len, line_len in *.
  pose proof (wrap_range 32 (in_w i - in_r i) ltac:(lia)). pose proof (wrap_range 32 (in_e i - in_w i) ltac:(lia)).
  unfold INPUT_BUF in *. lia.
Qed.

Lemma used_len : u32 (in_e i - in_r i) = ready_len i + line_len i.
Proof.
  pose proof lens. rewrite <- (wrap_small 32 (ready_len i + line_len i)) by lia.
  unfold ready_len, line_len, wrap. rewrite <- Zplus_mod. f_equal. lia.
Qed.

Lemma line_empty : (in_e i =? in_w i) = (line_len i =? 0).
Proof.
  pose proof (io_e i Hi). pose proof (io_w i Hi). unfold line_len.
  destruct (Z.eqb_spec (in_e i) (in_w i)) as [E|E].
  - rewrite E, Z.sub_diag. done.
  - symmetry. apply Z.eqb_neq. unfold wrap. pose proof (Z.div_mod (in_e i - in_w i) (2 ^ 32)).
    intros E0. rewrite E0 in *. lia.
Qed.

Lemma e_ring : in_e i mod INPUT_BUF = (in_w i + line_len i) mod INPUT_BUF.
Proof.
  unfold line_len. rewrite <- Zplus_mod_idemp_r, u32_ring, Zplus_mod_idemp_r. f_equal. lia.
Qed.
Lemma w_ring : in_w i mod INPUT_BUF = (in_r i + ready_len i) mod INPUT_BUF.
Proof.
  unfold ready_len. rewrite <- Zplus_mod_idemp_r, u32_ring, Zplus_mod_idemp_r. f_equal. lia.
Qed.

(** Erasing one character. *)
Definition erase : input := mkInput (in_buf i) (in_r i) (in_w i) (u32 (in_e i - 1)).

Lemma erase_ok : 0 < line_len i → input_ok erase ∧ ready erase = ready i ∧ line_len erase = line_len i - 1 ∧
  line i = line erase ++ [in_at i (u32 (in_e i - 1))].
Proof.
  intros Hp. pose proof lens as Hf.
  assert (line_len erase = line_len i - 1) as Hl.
  { change (line_len erase) with (u32 (u32 (in_e i - 1) - in_w i)).
    rewrite <- (wrap_small 32 (line_len i - 1)) by lia.
    unfold line_len, wrap. rewrite Zminus_mod_idemp_l. rewrite Zminus_mod_idemp_l. f_equal. lia. }
  assert (line i = line erase ++ [in_at i (u32 (in_e i - 1))]) as Hs.
  { unfold line. rewrite Hl. cbn [erase in_buf in_w].
    replace (line_len i) with (line_len i - 1 + 1) at 1 by lia. rewrite ring_app, ring_one by lia.
    do 2 f_equal. unfold in_at. do 2 f_equal. rewrite u32_ring.
    rewrite Zminus_mod, e_ring, <- Zminus_mod. f_equal. lia. }
  split_and!; [|done..]. pose proof (io_line i Hi) as Hn. rewrite Hs in Hn. apply Forall_app in Hn as [Hn _].
  destruct Hi. split; try done; [cbn; apply wrap_range; lia|].
  change (ready_len erase) with (ready_len i). unfold INPUT_BUF. lia.
Qed.
End discipline.

Lemma kill_line_ok fuel i : input_ok i → line_len i ≤ Z.of_nat fuel →
  let r := kill_line fuel i in
  input_ok r.1 ∧ ready r.1 = ready i ∧ line r.1 = [] ∧ r.2 = length (line i).
Proof.
  revert i. induction fuel as [|k IH]; intros i Hi Hf.
  - cbn. pose proof (lens i Hi). assert (length (line i) = 0%nat) as E by (unfold line; rewrite ring_length; lia).
    split_and!; try done. by apply nil_length_inv.
  - cbn [kill_line]. rewrite (line_empty i Hi). destruct (Z.eqb_spec (line_len i) 0) as [E0|E0]; cbn [negb andb].
    + assert (length (line i) = 0%nat) as E by (unfold line; rewrite ring_length; lia).
      split_and!; try done. by apply nil_length_inv.
    + pose proof (lens i Hi). destruct (erase_ok i Hi ltac:(lia)) as (He & Hr & Hl & Hs).
      pose proof (io_line i Hi) as Hn. rewrite Hs in Hn. apply Forall_app in Hn as [_ Hn].
      apply Forall_cons_1 in Hn as [Hn _]. rewrite (proj2 (Z.eqb_neq _ _) Hn). cbn [negb].
      destruct (IH (erase i) He ltac:(lia)) as (H1 & H2 & H3 & H4). cbn. fold (erase i).
      split_and!; [done|by rewrite H2|done|]. rewrite H4, Hs, length_app. cbn. lia.
Qed.

(** Adding a character. *)
Definition store (c : Z) (i : input) : input :=
  mkInput (<[Z.to_nat (in_e i mod INPUT_BUF) := c]> (in_buf i)) (in_r i) (in_w i) (u32 (in_e i + 1)).
(** Handing the line over. *)
Definition commit_line (i : input) : input := mkInput (in_buf i) (in_r i) (in_e i) (in_e i).

Section storing.
Context (i : input) (c : Z).
Hypothesis Hi : input_ok i.
Hypothesis Hroom : ready_len i + line_len i < INPUT_BUF.

Lemma store_len : line_len (store c i) = line_len i + 1.
Proof.
  pose proof (lens i Hi). unfold INPUT_BUF in *. change (line_len (store c i)) with (u32 (u32 (in_e i + 1) - in_w i)).
  rewrite <- (wrap_small 32 (line_len i + 1)) by lia. unfold line_len, wrap.
  rewrite Zminus_mod_idemp_l, Zplus_mod_idemp_l. f_equal. lia.
Qed.

Lemma store_queues : ready (store c i) = ready i ∧ line (store c i) = line i ++ [c].
Proof.
  pose proof (lens i Hi). split.
  - unfold ready. change (ready_len (store c i)) with (ready_len i). cbn [store in_buf in_r].
    pose proof (ring_store (in_buf i) (in_r i) (ready_len i + line_len i) (in_e i) c (io_len i Hi)) as E.
    rewrite !ring_app in E by lia. apply app_inj_1 in E as [E _]; [done| |lia|].
    + by rewrite !ring_length.
    + rewrite (e_ring i), <- Zplus_mod_idemp_l, w_ring, Zplus_mod_idemp_l. f_equal. lia.
  - unfold line. rewrite store_len. cbn [store in_buf in_w]. apply ring_last; [apply Hi|lia|apply e_ring].
Qed.

Lemma store_ok : c ≠ 10 → input_ok (store c i).
Proof.
  intros Hc. split; try apply Hi.
  - cbn. rewrite length_insert. apply Hi.
  - cbn. apply wrap_range. lia.
  - rewrite store_len. change (ready_len (store c i)) with (ready_len i). lia.
  - rewrite (proj2 store_queues). apply Forall_app. split; [apply Hi|by repeat constructor].
Qed.

Lemma commit_line_ok : input_ok (commit_line (store c i)) ∧ line (commit_line (store c i)) = [] ∧
  ready (commit_line (store c i)) = ready i ++ line i ++ [c].
Proof.
  pose proof (lens i Hi). set (j := store c i).
  assert (line_len (commit_line j) = 0) as E0.
  { unfold line_len. cbn [commit_line in_e in_w]. by rewrite Z.sub_diag. }
  assert (ready_len (commit_line j) = ready_len i + (line_len i + 1)) as Er.
  { unfold INPUT_BUF in *. change (ready_len (commit_line j)) with (u32 (u32 (in_e i + 1) - in_r i)).
    rewrite Z.add_assoc, <- (used_len i Hi). unfold wrap. rewrite Zminus_mod_idemp_l.
    replace (in_e i + 1 - in_r i) with (in_e i - in_r i + 1) by lia. rewrite <- Zplus_mod_idemp_l.
    apply (wrap_small 32). pose proof (used_len i Hi). unfold wrap in *. lia. }
  assert (line (commit_line j) = []) as El by (unfold line; by rewrite E0). split_and!; [|done|].
  - split; try apply Hi.
    + cbn. rewrite length_insert. apply Hi.
    + cbn. apply wrap_range. lia.
    + cbn. apply wrap_range. lia.
    + rewrite E0, Er. lia.
    + by rewrite El.
  - destruct store_queues as [<- <-]. unfold ready. rewrite Er, ring_app by lia. cbn [commit_line in_buf in_r].
    f_equal. unfold line. rewrite store_len. apply ring_ext. cbn [j store in_w]. by rewrite w_ring.
Qed.
End storing.

Lemma line_length i : length (line i) = Z.to_nat (line_len i).
Proof. apply ring_length. Qed.
Lemma ready_length i : length (ready i) = Z.to_nat (ready_len i).
Proof. apply ring_length. Qed.

Definition refines (r : input * list Z * bool) (q : list Z * list Z * list Z * bool) : Prop :=
  input_ok r.1.1 ∧ (ready r.1.1, line r.1.1, r.1.2, r.2) = q.

Lemma store_refines c i : input_ok i → 0 ≤ c < 256 → ready_len i + line_len i < INPUT_BUF →
  let i' := store c i in
  refines
    (if (c =? 10) || (c =? C 68) || (in_e i' =? u32 (in_r i' + INPUT_BUF))
     then (commit_line i', [c], true) else (i', [c], false))
    (if (c =? 10) || (c =? C 68) || (length (ready i) + length (line i ++ [c]) =? 128)%nat
     then (ready i ++ line i ++ [c], [], [c], true) else (ready i, line i ++ [c], [c], false)).
Proof.
  intros Hi Hc Hroom i'. pose proof (lens i Hi) as Hl. destruct (store_queues i c Hi Hroom) as [Er El].
  assert ((in_e i' =? u32 (in_r i' + INPUT_BUF)) = (length (ready i) + length (line i ++ [c]) =? 128)%nat) as ->.
  { rewrite length_app, ready_length, line_length. cbn [length i' store in_e in_r].
    destruct (Nat.eqb_spec (Z.to_nat (ready_len i) + (Z.to_nat (line_len i) + 1)) 128) as [E|E].
    - apply Z.eqb_eq. assert (u32 (in_e i - in_r i) = 127) as Eu by (rewrite (used_len i Hi); lia).
      unfold wrap in *. rewrite <- (Zplus_mod_idemp_l (in_r i)), <- (Zplus_mod_idemp_l (in_e i)).
      pose proof (Z.div_mod (in_e i - in_r i) (2 ^ 32)). rewrite Eu in *. unfold INPUT_BUF.
      rewrite !Zplus_mod_idemp_l. apply Z.eqb_eq.
      replace (in_e i + 1) with (in_r i + 128 + (in_e i - in_r i) / 2 ^ 32 * 2 ^ 32) by lia.
      rewrite Z.mod_add by lia. apply Z.eqb_refl.
    - apply Z.eqb_neq. intros Ee. apply E. pose proof (used_len i Hi) as Eu.
      assert (ready_len i + line_len i = 127); [|lia]. rewrite <- Eu.
      replace (in_e i - in_r i) with (in_e i + 1 - (in_r i + 1)) by lia. unfold wrap in *.
      rewrite Zminus_mod, Ee, <- Zminus_mod. unfold INPUT_BUF.
      replace (in_r i + 128 - (in_r i + 1)) with 127 by lia. reflexivity. }
  assert (refines (commit_line i', [c], true) (ready i ++ line i ++ [c], [], [c], true)) as Hcommit.
  { destruct (commit_line_ok i c Hi Hroom) as (H1 & H2 & H3). split; cbn [fst snd]; [done|]. unfold i'. by rewrite H2, H3. }
  destruct ((c =? 10) || (c =? C 68)) eqn:Ec; cbn [orb]; [done|]. destruct (Nat.eqb _ 128); [done|].
  apply orb_false_iff in Ec as [Ec _]. apply Z.eqb_neq in Ec.
  split; cbn [fst snd]; [by apply store_ok|unfold i'; by rewrite Er, El].
Qed.

(** [edit] by cases. *)
Lemma edit_cases c i : edit c i =
  if c =? C 85 then let r := kill_line (Z.to_nat INPUT_BUF) i in (r.1, replicate r.2 BACKSPACE, false) else
  if (c =? C 72) || (c =? 0x7f) then
    if negb (in_e i =? in_w i) then (erase i, [BACKSPACE], false) else (i, [], false)
  else if negb (c =? 0) && (u32 (in_e i - in_r i) <? INPUT_BUF) then
    let c' := if c =? 13 then 10 else c in
    let i' := store (u8 c') i in
    if (c' =? 10) || (c' =? C 68) || (in_e i' =? u32 (in_r i' + INPUT_BUF))
    then (commit_line i', [c'], true) else (i', [c'], false)
  else (i, [], false).
Proof. reflexivity. Qed.

Lemma type_room i : input_ok i →
  (128 <=? length (ready i) + length (line i))%nat = negb (ready_len i + line_len i <? INPUT_BUF).
Proof.
  intros Hi. pose proof (lens i Hi). rewrite ready_length, line_length. unfold INPUT_BUF.
  destruct (Nat.leb_spec 128 (Z.to_nat (ready_len i) + Z.to_nat (line_len i))),
    (Z.ltb_spec (ready_len i + line_len i) 128); cbn [negb]; lia || done.
Qed.

Lemma erase_refines i : input_ok i → refines
  (if negb (in_e i =? in_w i) then (erase i, [BACKSPACE], false) else (i, [], false))
  (ready i, removelast (line i), replicate (Nat.min 1 (length (line i))) BACKSPACE, false).
Proof.
  intros Hi. pose proof (lens i Hi). rewrite (line_empty i Hi).
  destruct (Z.eqb_spec (line_len i) 0) as [E|E]; cbn [negb].
  - assert (line i = []) as El by (apply nil_length_inv; rewrite line_length; lia). rewrite El.
    split; cbn [fst snd]; [done|by rewrite El].
  - destruct (erase_ok i Hi ltac:(lia)) as (H1 & H2 & H3 & H4). rewrite H4, removelast_last, length_app, Nat.add_comm.
    split; cbn [fst snd]; [done|]. by rewrite H2.
Qed.

Lemma kill_refines fuel i : input_ok i → line_len i ≤ Z.of_nat fuel → refines
  (let r := kill_line fuel i in (r.1, replicate r.2 BACKSPACE, false))
  (ready i, [], replicate (length (line i)) BACKSPACE, false).
Proof.
  intros Hi Hf. destruct (kill_line_ok fuel i Hi Hf) as (H1 & H2 & H3 & H4).
  split; cbn [fst snd]; [done|]. by rewrite H2, H3, H4.
Qed.

(** C14: The line discipline: the circular buffer with its three wrapping indices
    refines two queues, the lines that can be read and the line being typed.
    For each character typed the buffer, the echo and the waking of readers
    are those of the terminal. *)
Theorem edit_refines c i : input_ok i → 0 ≤ c < 256 →
  ∃ i' echo wake, edit c i = (i', echo, wake) ∧ input_ok i' ∧
    type_char c (ready i, line i) = (ready i', line i', echo, wake).
Proof.
  intros Hi Hc. cut (refines (edit c i) (type_char c (ready i, line i))).
  { destruct (edit c i) as [[i' echo] wake]. intros [H1 H2]. exists i', echo, wake. split_and!; [done..|]. by rewrite <- H2. }
  rewrite edit_cases. unfold type_char. destruct (c =? C 85).
  { apply kill_refines; [done|]. pose proof (lens i Hi). unfold INPUT_BUF. lia. }
  destruct ((c =? C 72) || (c =? 0x7f)); [by apply erase_refines|].
  rewrite (used_len i Hi), (type_room i Hi). destruct (Z.eqb_spec c 0) as [E0|E0]; cbn [negb andb orb]; [by split|].
  destruct (Z.ltb_spec (ready_len i + line_len i) INPUT_BUF) as [Hr|Hr]; cbn [negb]; [|by split].
  set (c' := if c =? 13 then 10 else c). assert (0 ≤ c' < 256) as Hc' by (unfold c'; case_match; lia).
  clearbody c'. cbv zeta. rewrite (wrap_small 8) by lia. by apply store_refines.
Qed.

(** A buffer about to wrap around, with a line that is being typed. *)
Definition ex_input : input := mkInput (replicate 126 0 ++ [104; 105]) (2 ^ 32 - 2) (2 ^ 32 - 2) 0.

Lemma edit_refines_witness : ∃ i' echo wake, edit 13 ex_input = (i', echo, wake) ∧ input_ok i' ∧
  type_char 13 ([], [104; 105]) = (ready i', line i', echo, wake).
Proof.
  assert (input_ok ex_input) as Hi.
  { split; unfold ex_input; cbn [in_r in_w in_e]; [reflexivity|lia|lia|lia|vm_compute; discriminate|].
    apply (bool_decide_unpack _). vm_compute. exact I. }
  destruct (edit_refines 13 ex_input Hi ltac:(lia)) as (i' & echo & wake & H1 & H2 & H3). exists i', echo, wake.
  split_and!; [exact H1|exact H2|]. rewrite <- H3. vm_compute. reflexivity.
Defined.

(** ** Reading *)

Definition take_char (i : input) : input := mkInput (in_buf i) (u32 (in_r i + 1)) (in_w i) (in_e i).

Lemma ready_empty i : input_ok i → (in_r i =? in_w i) = bool_decide (ready i = []).
Proof.
  intros Hi. pose proof (lens i Hi). pose proof (io_r i Hi). pose proof (io_w i Hi).
  apply eq_bool_prop_intro. rewrite !Is_true_true, bool_decide_eq_true, Z.eqb_eq. unfold ready, ready_len in *. split.
  - intros ->. by rewrite Z.sub_diag.
  - intros E%(f_equal length). rewrite ring_length in E. cbn in E. unfold wrap in *.
    pose proof (Z.div_mod (in_w i - in_r i) (2 ^ 32)). assert ((in_w i - in_r i) mod 2 ^ 32 = 0) as E0 by lia.
    rewrite E0 in *. lia.
Qed.

Lemma take_char_ok i : input_ok i → ready i ≠ [] →
  input_ok (take_char i) ∧ ready i = in_at i (in_r i) :: ready (take_char i) ∧ line (take_char i) = line i.
Proof.
  intros Hi Hne. pose proof (lens i Hi) as Hl.
  assert (0 < ready_len i) as Hp.
  { destruct (decide (ready_len i = 0)) as [E|E]; [|lia]. destruct Hne. unfold ready. by rewrite E. }
  assert (ready_len (take_char i) = ready_len i - 1) as Er.
  { change (ready_len (take_char i)) with (u32 (in_w i - u32 (in_r i + 1))).
    rewrite <- (wrap_small 32 (ready_len i - 1)) by lia. unfold ready_len, wrap.
    rewrite Zminus_mod_idemp_l, Zminus_mod_idemp_r. f_equal. lia. }
  split_and!; [|unfold ready; rewrite Er|done].
  - destruct Hi. split; try done; [cbn; apply wrap_range; lia|]. rewrite Er.
    change (line_len (take_char i)) with (line_len i). unfold INPUT_BUF. lia.
  - replace (ready_len i) with (1 + (ready_len i - 1)) at 1 by lia. rewrite ring_app, ring_one by lia.
    unfold in_at. cbn [app take_char in_buf in_r]. f_equal. apply ring_ext. by rewrite u32_ring.
Qed.

(** What a reader of [n] characters takes from the queue and what it leaves;
    [None] when it has to wait.  [some] tells that it has characters already:
    Control-D then stays for the next reader. *)
Fixpoint read_line (n : nat) (some : bool) (q : list Z) : option (list Z * list Z) :=
  match n with
  | O => Some ([], q)
  | S n' =>
      match q with
      | [] => None
      | c :: q' =>
          if c =? C 68 then Some ([], if some then q else q')
          else if c =? 10 then Some ([c], q')
          else match read_line n' true q' with Some (l, q'') => Some (c :: l, q'') | None => None end
      end
  end.

Lemma bind_cong {S A B} (m m' : M S A) (k : A → M S B) s s' : m s = m' s' → bind m k s = bind m' k s'.
Proof. unfold bind. by intros ->. Qed.

Section reading.
Context {T : Type} `{TxnOps T} (ip : nat) (target : Z).
Implicit Types s : fs (con T).

Definition con_input s : input := cn_input (f_t s).
Definition with_input (i : input) s : fs (con T) := set_ft (set_input i (f_t s)) s.
(** The end of [consoleread]. *)
Definition read_done (l : list Z) : M (fs (con T)) (Z * list Z) :=
  fmachM (smpM (release L_input)) ;;; ilock ip ;;; ret (Z.of_nat (length l), l).

Lemma with_input_input i j s : with_input i (with_input j s) = with_input i s.
Proof. by destruct s as [[] ?]. Qed.

Lemma finish_loop {X} (v : Z * list Z) (k : X → M (fs (con T)) (Z * list Z)) s :
  bind (fmachM (smpM (release L_input)) ;;; ilock ip ;;; ret (inr v))
    (λ r, match r with inl x => k x | inr v => ret v end) s =
  (fmachM (smpM (release L_input)) ;;; ilock ip ;;; ret v) s.
Proof.
  unfold bind. destruct (fmachM _ s) as [a s1|]; [|done]. by destruct (ilock ip s1).
Qed.

Lemma take_run i s : lift f_t set_ft (modify (set_input i)) s = Ok tt (with_input i s).
Proof. done. Qed.

(** One turn, by the character at the head of the queue. *)
Lemma conread_turn_char n acc s c q : input_ok (con_input s) → 0 < n → ready (con_input s) = c :: q →
  conread_turn ip target (n, acc) s =
  (if c =? C 68 then
     fmachM (smpM (release L_input)) ;;; ilock ip ;;; ret (inr (i32 (target - n), acc))
   else if c =? 10 then
     fmachM (smpM (release L_input)) ;;; ilock ip ;;; ret (inr (i32 (target - (n - 1)), acc ++ [c]))
   else ret (inl (n - 1, acc ++ [c])))
  (if (c =? C 68) && (n <? target) then s else with_input (take_char (con_input s)) s).
Proof.
  intros Hi Hn Hq. destruct (take_char_ok _ Hi) as (_ & E & _); [by rewrite Hq|].
  rewrite Hq in E. injection E as -> _. unfold conread_turn. rewrite (proj2 (Z.leb_gt n 0)) by lia.
  erewrite bind_ok by reflexivity. fold (con_input s). rewrite (ready_empty _ Hi), bool_decide_eq_false_2 by (by rewrite Hq).
  fold (take_char (con_input s)). destruct (in_at (con_input s) (in_r (con_input s)) =? C 68); cbn [andb].
  - destruct (n <? target); cbn [negb whenM]; [done|]. by rewrite (bind_ok _ _ _ _ _ (take_run _ _)).
  - rewrite (bind_ok _ _ _ _ _ (take_run _ _)). by case_match.
Qed.

Lemma read_loop_done n fuel acc s l q : input_ok (con_input s) → (n < fuel)%nat →
  target = Z.of_nat (length acc + n) → target < 2 ^ 31 →
  read_line n (negb (length acc =? 0)%nat) (ready (con_input s)) = Some (l, q) →
  ∃ i, input_ok i ∧ ready i = q ∧ line i = line (con_input s) ∧
    loopM fuel (conread_turn ip target) (Z.of_nat n, acc) s = read_done (acc ++ l) (with_input i s).
Proof.
  revert fuel acc s l. induction n as [|n IH]; intros fuel acc s l Hi Hf Ht Hlt Hr; (destruct fuel as [|fuel]; [lia|]);
    cbn [read_line] in Hr; cbn [loopM].
  { injection Hr as <- <-. exists (con_input s). split_and!; try done.
    rewrite (bind_cong _ (fmachM (smpM (release L_input)) ;;; ilock ip ;;; ret (inr (i32 (target - 0), acc))) _ s s) by done.
    rewrite finish_loop, app_nil_r. unfold read_done. replace (i32 _) with (Z.of_nat (length acc)); [by destruct s as [[] ?]|].
    rewrite swrap_small; lia. }
  destruct (ready (con_input s)) as [|c q'] eqn:Eq; [done|].
  destruct (take_char_ok _ Hi) as (Hi' & E & El); [by rewrite Eq|]. rewrite Eq in E. injection E as Ec ->. clear Ec.
  assert (0 < Z.of_nat (S n)) as Hpos by lia.
  rewrite (bind_cong _ _ _ _ _ (conread_turn_char _ acc _ _ _ Hi Hpos Eq)).
  destruct (c =? C 68); cbn [andb].
  { rewrite finish_loop. assert (i32 (target - Z.of_nat (S n)) = Z.of_nat (length acc)) as -> by (rewrite swrap_small; lia).
    injection Hr as <- <-. rewrite app_nil_r.
    assert ((Z.of_nat (S n) <? target) = negb (length acc =? 0)%nat) as ->.
    { destruct (Z.ltb_spec (Z.of_nat (S n)) target), (Nat.eqb_spec (length acc) 0); cbn; lia || done. }
    destruct (length acc =? 0)%nat; cbn [negb].
    - by exists (take_char (con_input s)).
    - exists (con_input s). by destruct s as [[] ?]. }
  destruct (c =? 10).
  { rewrite finish_loop. injection Hr as <- <-. exists (take_char (con_input s)). split_and!; try done.
    unfold read_done. rewrite length_app. cbn [length].
    by replace (i32 _) with (Z.of_nat (length acc + 1)) by (rewrite swrap_small; lia). }
  destruct (read_line n true _) as [[l' q'']|] eqn:Er; [|done]. injection Hr as <- <-.
  change (bind (ret (inl ?x)) ?k ?s) with (k (inl x) s). cbv beta iota.
  replace (Z.of_nat (S n) - 1) with (Z.of_nat n) by lia.
  destruct (IH fuel (acc ++ [c]) (with_input (take_char (con_input s)) s) l') as (i & H1 & H2 & H3 & H4).
  - exact Hi'.
  - lia.
  - rewrite length_app. cbn. lia.
  - done.
  - rewrite length_app, Nat.add_comm. exact Er.
  - exists i. split_and!; [done..|by rewrite H3|]. rewrite H4, <- app_assoc, with_input_input. done.
Qed.
End reading.

(** [consoleread] takes characters from the queue of lines up to and with
    the next newline, or the number asked for; Control-D ends it without being
    returned, and if there are characters before it is kept so that the next
    read returns 0.  Then it gives up [input.lock], locks the inode again and
    returns the number of characters; the line being typed is not touched. *)
Theorem consoleread_line {T} `{TxnOps T} ip n (s : fs (con T)) l q :
  input_ok (con_input s) → (0 ≤ n < 2 ^ 31) → read_line (Z.to_nat n) false (ready (con_input s)) = Some (l, q) →
  ∃ i, input_ok i ∧ ready i = q ∧ line i = line (con_input s) ∧
    consoleread_locked ip n n [] s = read_done ip l (with_input i s).
Proof.
  intros Hi Hn Hr. unfold consoleread_locked.
  destruct (read_loop_done ip n (Z.to_nat n) (S (Z.to_nat n)) [] s l q) as (i & H1 & H2 & H3 & H4);
    [done|lia|cbn; lia|lia|done|]. exists i. rewrite Z2Nat.id in H4 by lia. by split_and!.
Qed.

(** Two lines in the queue, the first of which is read. *)
Definition ex_lines : input := mkInput ([104; 105; 10; 4] ++ replicate 124 0) 0 4 4.
Definition ex_con : fs (con (log bio)) :=
  mkFs (mkCon (mkLog (mkBio (mkMach (mkSmp 0 [] (λ _, free_lock)) [] 1 None) [] ∅ 0 []) 0 0 0 false 0 0 [])
    ex_lines (mkCga (replicate 2000 0) 0) true false false [] [] (0, [])) [].

Lemma consoleread_line_witness : ∃ i, input_ok i ∧ ready i = [4] ∧
  consoleread_locked 0 100 100 [] ex_con = read_done 0 [104; 105; 10] (with_input i ex_con).
Proof.
  assert (input_ok (con_input ex_con)) as Hi.
  { split; [reflexivity|split; vm_compute; [discriminate|reflexivity]..|vm_compute; discriminate|].
    apply (bool_decide_unpack _). vm_compute. exact I. }
  destruct (consoleread_line 0 100 ex_con [104; 105; 10] [4] Hi) as (i & H1 & H2 & _ & H4);
    [lia|vm_compute; reflexivity|]. exists i. split_and!; [exact H1|exact H2|exact H4].
Defined.
