(* ===== verification/Frame.v ===== *)
(** * Lock balance and frames of kernel code

    [frs] is a judgement on a piece of code started in a given state: when it
    returns, the CPUs and the locks are as they were at the start, except for
    the locks in a list, and the rest of the machine is related to the
    machine at the start by a relation [R].  The code may also stop (panic,
    sleep, spin); then nothing is claimed.  The rules follow the combinators
    of the Prelude, the lemmas of the functions are in the hint database
    [frame], and the tactic [frame] applies both. *)

From S2P Require Import Prelude Spinlock Sched.
From Stdlib Require Import FunctionalExtensionality.

(** ** Machines with a stack of locks acquired on top of a base *)

Definition lockeds (L : list lockid) (s : smp) : smp := foldr locked s L.

(** A base: the CPU is balanced and a lock that is not held has no owner. *)
Definition quiet (s : smp) : Prop :=
  bal s ∧ ∀ l, lk_locked (locks s l) = 0 → lk_cpu (locks s l) = None.

Fixpoint chain (L : list lockid) (s : smp) : Prop :=
  match L with
  | [] => True
  | l :: L' => locks (lockeds L' s) l = free_lock ∧ chain L' s
  end.

Lemma lockeds_bal L s : bal s → bal (lockeds L s).
Proof. intros. induction L; [done|]. by apply bal_locked. Qed.

Lemma lockeds_free L s l : quiet s → lk_locked (locks (lockeds L s) l) = 0 →
  locks (lockeds L s) l = free_lock.
Proof.
  intros [Hb Hq]. induction L as [|l' L IH].
  - cbn. intros H0. specialize (Hq l H0). destruct (locks s l); cbn in *. by subst.
  - change (locks (lockeds (l' :: L) s)) with
      (<[l' := mkLock 1 (Some (cur (lockeds L s)))]> (locks (lockeds L s))).
    destruct (decide (l' = l)) as [->|Hne]; [by rewrite fn_insert_same|].
    rewrite fn_lookup_insert_ne by done. exact IH.
Qed.

Lemma acquire_inv l s s' : bal s → acquire l s = Ok tt s' →
  s' = locked l s ∧ lk_locked (locks s l) = 0.
Proof.
  intros (c & Hc & _). unfold acquire. step (pushcli_ok s c Hc).
  unfold holding, xchg. go. cbn.
  destruct (Z.eqb_spec (lk_locked (locks s l)) 0) as [E|E]; cbn; intros Heq; cycle 1.
  { destruct (bool_decide (lk_cpu (locks s l) = Some (cur s))); [done|]. cbn in Heq.
    apply Z.eqb_neq in E. by rewrite E in Heq. }
  rewrite E in Heq. cbn in Heq.
  simplify_eq. split; [|done].
  unfold locked, set_lock. cbn. rewrite fn_insert_same. cbn. by rewrite fn_insert_insert.
Qed.

(** ** The judgement *)

(** What a relation on machines must allow: changes of the locks and, for
    code that uses it, [wakeup]. *)
Class FrameRel (R : mach → mach → Prop) : Prop :=
  rel_smp m0 m x : R m0 m → R m0 (set_smp x m).
Class WakeRel (R : mach → mach → Prop) : Prop := {
  wake_rel :: FrameRel R;
  rel_wake m0 m c : R m0 m → R m0 (set_ptable (wake c <$> ptable m) m)
}.

(** The only locks made while the kernel runs are those of pipes. *)
Definition reinit (s b : smp) : Prop :=
  cur b = cur s ∧ cpus b = cpus s ∧
  ∀ l, locks b l = locks s l ∨ (l.1 = "pipe" ∧ locks b l = free_lock).

Definition fr_at (R : mach → mach → Prop) (L : list lockid) (m0 m : mach) : Prop :=
  ∃ b, reinit (m_smp m0) b ∧ chain L b ∧ m_smp m = lockeds L b ∧ length (ptable m) = NPROC ∧ R m0 m.

Lemma reinit_refl s : reinit s s.
Proof. split_and!; auto. Qed.

Lemma reinit_quiet s b : reinit s b → quiet s → quiet b.
Proof.
  intros (Hc & Hp & Hl) [(c & Hb & Hcb) Hq]. split.
  - exists c. by rewrite Hc, Hp.
  - intros l. destruct (Hl l) as [->|[_ ->]]; [apply Hq|done].
Qed.

Lemma reinit_set s b l : l.1 = "pipe" → reinit s b → reinit s (set_lock l free_lock b).
Proof.
  intros He (Hc & Hp & Hl). split_and!; [done..|]. intros l'. cbn.
  destruct (decide (l = l')) as [->|Hne].
  - right. by rewrite fn_insert_same.
  - rewrite fn_lookup_insert_ne by done. apply Hl.
Qed.

Definition frs (R : mach → mach → Prop) {S A} (g : S → mach) (L : list lockid)
    (Q : A → list lockid) (m : M S A) (s : S) : Prop :=
  ∀ m0 a s', quiet (m_smp m0) → fr_at R L m0 (g s) → m s = Ok a s' → fr_at R (Q a) m0 (g s').

Definition fr (R : mach → mach → Prop) {S A} (g : S → mach) (L : list lockid)
    (Q : A → list lockid) (m : M S A) : Prop := ∀ s, frs R g L Q m s.

Create HintDb frame.
Create Rewrite HintDb frame.

Section rules.
Context {R : mach → mach → Prop}.
Context {S : Type} {g : S → mach}.

Lemma frs_ret {A} L (Q : A → list lockid) (a : A) s : L = Q a → frs R g L Q (ret a) s.
Proof. intros -> m0 ? ? _ Hat Hr. cbv in Hr. by simplify_eq. Qed.

(** The rules for code that keeps the locks, for a postcondition not yet known. *)
Lemma frs_ret_same {A} L (a : A) s : frs R g L (λ _, L) (ret a) s.
Proof. by apply frs_ret. Qed.

Lemma frs_halt {A} L (Q : A → list lockid) e s : frs R g L Q (halt e) s.
Proof. by intros m0 ? ? _ Hat Hr. Qed.

Lemma frs_panic {A} L (Q : A → list lockid) e s : frs R g L Q (panic e) s.
Proof. apply frs_halt. Qed.

Lemma frs_bind {A B} L (Q1 : A → list lockid) (Q : B → list lockid) (m : M S A) k s :
  frs R g L Q1 m s → (∀ a, fr R g (Q1 a) Q (k a)) → frs R g L Q (bind m k) s.
Proof.
  intros Hm Hk m0 b s2 Hq Hat Hr. apply bind_inv in Hr as (a & s1 & H1 & H2).
  eapply Hk; [done| |exact H2]. by eapply Hm.
Qed.

Lemma frs_get {A} L (Q : A → list lockid) (k : S → M S A) s :
  frs R g L Q (k s) s → frs R g L Q (bind get k) s.
Proof. done. Qed.

Lemma frs_modify L (Q : unit → list lockid) (f : S → S) s :
  g (f s) = g s → L = Q tt → frs R g L Q (modify f) s.
Proof. intros E -> m0 ? ? _ Hat Hr. cbv in Hr. simplify_eq. by rewrite E. Qed.

Lemma frs_put L (Q : unit → list lockid) x s :
  g x = g s → L = Q tt → frs R g L Q (put x) s.
Proof. intros E -> m0 ? ? _ Hat Hr. cbv in Hr. simplify_eq. by rewrite E. Qed.

Lemma frs_need {A} L (Q : A → list lockid) (o : option A) s :
  (∀ a, o = Some a → L = Q a) → frs R g L Q (need o) s.
Proof.
  intros E. destruct o as [a|]; [by apply frs_ret, E|apply frs_halt].
Qed.

Lemma frs_when L (Q : unit → list lockid) b (m : M S unit) s :
  frs R g L Q m s → L = Q tt → frs R g L Q (whenM b m) s.
Proof. intros Hm E. destruct b; [done|]. by apply frs_ret. Qed.

(** A search that leaves with fewer locks when it finds something. *)
Lemma fr_for_each_exit {X A} L L' (l : list X) (body : X → M S (option A)) :
  (∀ x, fr R g L (λ r, match r with Some _ => L' | None => L end) (body x)) →
  fr R g L (λ r, match r with Some _ => L' | None => L end) (for_each l body).
Proof.
  intros Hb. induction l as [|x l IH]; intros s; cbn [for_each]; [by apply frs_ret|].
  eapply frs_bind; [apply Hb|]. intros [v|]; [by intros ?; apply frs_ret|apply IH].
Qed.

Lemma frs_modify_same L (f : S → S) s : g (f s) = g s → frs R g L (λ _, L) (modify f) s.
Proof. intros. by apply frs_modify. Qed.

Lemma frs_put_same L x s : g x = g s → frs R g L (λ _, L) (put x) s.
Proof. intros. by apply frs_put. Qed.

Lemma frs_get_same L s : frs R g L (λ _, L) get s.
Proof. intros m0 a s' _ Hat Hr. cbv in Hr. by simplify_eq. Qed.

Lemma frs_need_same {A} L (o : option A) s : frs R g L (λ _, L) (need o) s.
Proof. by apply frs_need. Qed.

Lemma frs_when_same L b (m : M S unit) s :
  frs R g L (λ _, L) m s → frs R g L (λ _, L) (whenM b m) s.
Proof. intros. by apply frs_when. Qed.

Lemma fr_for_each {X A} L (l : list X) (body : X → M S (option A)) :
  (∀ x, fr R g L (λ _, L) (body x)) → fr R g L (λ _, L) (for_each l body).
Proof.
  intros Hb. induction l as [|x l IH]; intros s; cbn [for_each]; [by apply frs_ret|].
  eapply frs_bind; [apply Hb|]. intros [v|]; [by intros ?; apply frs_ret|apply IH].
Qed.

Lemma fr_for_all {X} L (l : list X) (body : X → M S unit) :
  (∀ x, fr R g L (λ _, L) (body x)) → fr R g L (λ _, L) (for_all l body).
Proof.
  intros Hb. induction l as [|x l IH]; intros s; cbn [for_all]; [by apply frs_ret|].
  eapply frs_bind; [apply Hb|]. intros []. apply IH.
Qed.

(** A loop may leave with fewer locks than it goes round with. *)
Lemma fr_loop {X A} L (Q : A → list lockid) (body : X → M S (X + A)) fuel x :
  (∀ x, fr R g L (λ r, match r with inl _ => L | inr v => Q v end) (body x)) →
  fr R g L Q (loopM fuel body x).
Proof.
  intros Hb. revert x. induction fuel as [|n IH]; intros x s; cbn [loopM]; [apply frs_halt|].
  eapply frs_bind; [apply Hb|]. intros [y|v]; [apply IH|]. intros ?. by apply frs_ret.
Qed.

Lemma fr_loop_same {X A} L (body : X → M S (X + A)) fuel x :
  (∀ x, fr R g L (λ _, L) (body x)) → fr R g L (λ _, L) (loopM fuel body x).
Proof. intros Hb. apply fr_loop. intros y s m0 [] s' Hq Hat Hr; exact (Hb y s m0 _ s' Hq Hat Hr). Qed.

Lemma frs_lift {T A} (g' : T → mach) L (Q : A → list lockid) (h : S → T) (p : T → S → S) (m : M T A) s :
  g s = g' (h s) → (∀ x, g (p x s) = g' x) → frs R g' L Q m (h s) → frs R g L Q (lift h p m) s.
Proof.
  intros E Ep Hm m0 a s' Hq Hat. unfold lift. destruct (m (h s)) as [b t|] eqn:Er; [|done].
  intros ?. simplify_eq. rewrite Ep. eapply Hm; [done| |done]. by rewrite <- E.
Qed.

Lemma frs_ext {A} L (Q : A → list lockid) (m m' : M S A) s :
  m s = m' s → frs R g L Q m' s → frs R g L Q m s.
Proof. intros E Hm m0 a s' Hq Hat. rewrite E. by apply Hm. Qed.

Lemma fr_run {A} L (Q : A → list lockid) (m : M S A) m0 s a s' :
  fr R g L Q m → quiet (m_smp m0) → fr_at R L m0 (g s) → m s = Ok a s' → fr_at R (Q a) m0 (g s').
Proof. intros Hm. apply Hm. Qed.
End rules.

(** ** The machine *)

Section machine.
Context {R : mach → mach → Prop} `{!FrameRel R}.
Abbreviation idm := (λ m : mach, m).

Lemma acquire_fr l L : fr R idm L (λ _, l :: L) (smpM (acquire l)).
Proof.
  intros m m0 [] m' Hq (b & Hi & Hc & Hs & Hl & HR). apply (reinit_quiet _ _ Hi) in Hq. unfold lift.
  destruct (acquire l (m_smp m)) as [[] s1|] eqn:E; [|done]. intros ?. simplify_eq.
  rewrite Hs in E. destruct (acquire_inv _ _ _ (lockeds_bal L _ (proj1 Hq)) E) as [-> H0].
  exists b. split_and!; [done| |done..|].
  - split; [by apply lockeds_free|done].
  - by apply rel_smp.
Qed.

Lemma release_fr l L : fr R idm (l :: L) (λ _, L) (smpM (release l)).
Proof.
  intros m m0 [] m' Hq (b & Hi & [Hf Hc] & Hs & Hl & HR). apply (reinit_quiet _ _ Hi) in Hq.
  unfold lift. rewrite Hs. cbn [lockeds foldr].
  rewrite release_ok; [|by apply lockeds_bal, Hq|done]. intros ?. simplify_eq.
  exists b. split_and!; [done..|]. by apply rel_smp.
Qed.

Lemma initlock_fr l : l.1 = "pipe" → fr R idm [] (λ _, []) (smpM (initlock l)).
Proof.
  intros He m m0 [] m' Hq (b & Hi & Hc & Hs & Hl & HR) Hr. cbv [lift initlock modify] in Hr. simplify_eq.
  exists (set_lock l free_lock b). cbn [m_smp set_smp ptable]. rewrite Hs.
  split_and!; [by apply reinit_set|done..|]. by apply rel_smp.
Qed.

Lemma wakeup1_fr `{!WakeRel R} c L : fr R idm L (λ _, L) (wakeup1 c).
Proof.
  intros m m0 [] m' Hq (b & Hi & Hc & Hs & Hl & HR). unfold wakeup1.
  rewrite (table_loop (wake c) NPROC 0) by done. intros ?. simplify_eq.
  exists b. split_and!; [done..| |].
  - cbn. by rewrite length_fmap.
  - by apply rel_wake.
Qed.

Lemma sched_stops m a m' : sched m ≠ Ok a m'.
Proof.
  unfold sched. intros Hr.
  repeat (apply bind_inv in Hr as (? & ? & ? & Hr); repeat case_match; try done).
Qed.

Lemma sched_fr L : fr R idm L (λ _, L) sched.
Proof. intros m m0 a m' _ _ Hr. by apply sched_stops in Hr. Qed.

Lemma mycpu_fr L : fr R idm L (λ _, L) (smpM mycpu).
Proof.
  intros m m0 c m' _ Hat. unfold lift, mycpu. go.
  destruct (cpus (m_smp m) !! _); [|done]. intros ?. simplify_eq. by destruct m.
Qed.

(** Reading the locks and CPUs. *)
Lemma get_smp_fr L : fr R idm L (λ _, L) (smpM get).
Proof. intros m m0 c m' _ Hat Hr. cbv in Hr. simplify_eq. by destruct m. Qed.
End machine.

Abbreviation idm := (λ m : mach, m).
#[export] Hint Resolve wake_rel : frame.
#[export] Hint Resolve acquire_fr release_fr wakeup1_fr sched_fr mycpu_fr get_smp_fr : frame.

(** [frame] proves a judgement by the rules and the hints. *)
Ltac frame_known :=
  match goal with
  | |- frs _ _ _ _ _ ?s => first
      [ solve [eauto 6 with frame nocore]
      | refine ((_ : fr _ _ _ _ _) s); solve [eauto 6 with frame nocore] ]
  end.
Ltac frame_eq := intros; first [reflexivity | autorewrite with frame; reflexivity].
(** The projections to the machine of the layers; extended by each layer. *)
Ltac frame_lift := apply (frs_lift idm).
Ltac frame1 :=
  match goal with
  | |- fr _ _ _ _ _ => intros ?; cbv beta
  | |- ∀ _, _ => intros ?
  | |- frs _ _ _ _ (let x := ?e in _) _ => cbv zeta
  | |- frs _ _ _ _ (bind get _) _ => apply frs_get
  | |- frs _ _ _ _ (bind _ _) _ => eapply frs_bind
  | |- frs _ _ _ _ (ret _) _ => first [apply frs_ret_same | apply frs_ret; reflexivity]
  | |- frs _ _ _ _ (halt _) _ => apply frs_halt
  | |- frs _ _ _ _ (panic _) _ => apply frs_panic
  | |- frs _ _ _ _ (need _) _ => first [apply frs_need_same | apply frs_need; intros; reflexivity]
  | |- frs _ _ _ _ get _ => apply frs_get_same
  | |- frs _ _ _ _ (modify _) _ => first [apply frs_modify_same; frame_eq | apply frs_modify; frame_eq]
  | |- frs _ _ _ _ (put _) _ => first [apply frs_put_same; frame_eq | apply frs_put; frame_eq]
  | |- frs _ _ _ _ (whenM _ _) _ => first [apply frs_when_same | apply frs_when; [|reflexivity]]
  | |- frs _ _ _ _ _ _ => frame_known
  | |- frs _ _ _ _ (for_each _ _) ?s => refine (fr_for_each _ _ _ _ s)
  | |- frs _ _ _ _ (for_all _ _) ?s => refine (fr_for_all _ _ _ _ s)
  | |- frs _ _ _ _ (loopM _ _ _) ?s => first [refine (fr_loop_same _ _ _ _ _ s) | refine (fr_loop _ _ _ _ _ _ s)]
  | |- frs _ _ _ _ (lift _ _ _) _ => frame_lift; [frame_eq|frame_eq|]
  | |- frs _ _ _ _ (if ?b then _ else _) _ => destruct b
  | |- frs _ _ _ _ (match ?x with _ => _ end) _ => destruct x
  end.
Ltac frame := repeat frame1.

Section machine_ops.
Context {R : mach → mach → Prop} `{!FrameRel R}.

Lemma wakeup_fr `{!WakeRel R} c L : fr R idm L (λ _, L) (wakeup c).
Proof. unfold wakeup. frame. Qed.

Lemma myproc_fr L : fr R idm L (λ _, L) myproc.
Proof. unfold myproc. frame. Qed.

Lemma curproc_fr L : fr R idm L (λ _, L) curproc.
Proof. unfold curproc. pose proof myproc_fr. frame. Qed.

Lemma getproc_fr i L : fr R idm L (λ _, L) (getproc i).
Proof. unfold getproc. frame. Qed.

Lemma sleep_fr c l L : fr R idm L (λ _, L) (sleep c l).
Proof.
  intros m m0 [] m' _ _ Hr. exfalso. unfold sleep in Hr.
  apply bind_inv in Hr as (o & m1 & _ & Hr). destruct o as [i|]; [|done].
  do 3 apply bind_inv in Hr as (? & ? & _ & Hr). by apply sched_stops in Hr.
Qed.

Lemma yield_fr L : fr R idm L (λ _, L) yield.
Proof.
  intros m m0 [] m' _ _ Hr. unfold yield in Hr.
  do 3 apply bind_inv in Hr as (? & ? & _ & Hr). by apply sched_stops in Hr.
Qed.
End machine_ops.

#[export] Hint Resolve wakeup_fr myproc_fr curproc_fr getproc_fr sleep_fr yield_fr : frame.
