(* ===== verification/FrameFs.v ===== *)
(** * Frames of the buffer cache, the log and the file system

    Every function of bio.c, log.c and fs.c that returns leaves the locks and
    CPUs as it found them and changes the process table at most by [wakeup].
    [BufFrame] and [TxnFrame] state this for the two interfaces, so the file
    system is proved against the interface and the cache and the log
    discharge it. *)

From S2P Require Import Prelude Bytes Spinlock Sched Dll Bio BioSpec BufLayer Ondisk Log LogSpec Txn CString Fs Dir Frame.

Class BufFrame (S : Type) `{BufOps S} := {
  bf_mach s m : bmach (set_bmach m s) = m;
  bf_bread R (_ : WakeRel R) dev bn L : fr R bmach L (λ _, L) (op_bread dev bn);
  bf_bwrite R (_ : WakeRel R) b L : fr R bmach L (λ _, L) (op_bwrite b);
  bf_brelse R (_ : WakeRel R) b L : fr R bmach L (λ _, L) (op_brelse b);
  bf_data R (_ : WakeRel R) b L : fr R bmach L (λ _, L) (op_data b);
  bf_set R (_ : WakeRel R) b d L : fr R bmach L (λ _, L) (op_set b d);
  bf_blockno R (_ : WakeRel R) b L : fr R bmach L (λ _, L) (op_blockno b);
  bf_dirty R (_ : WakeRel R) b L : fr R bmach L (λ _, L) (op_dirty b)
}.

Class TxnFrame (T : Type) `{TxnOps T} := {
  tf_mach t m : tmach (set_tmach m t) = m;
  tf_bread R (_ : WakeRel R) dev bn L : fr R tmach L (λ _, L) (t_bread dev bn);
  tf_brelse R (_ : WakeRel R) b L : fr R tmach L (λ _, L) (t_brelse b);
  tf_data R (_ : WakeRel R) b L : fr R tmach L (λ _, L) (t_data b);
  tf_set R (_ : WakeRel R) b d L : fr R tmach L (λ _, L) (t_set b d);
  tf_log_write R (_ : WakeRel R) b L : fr R tmach L (λ _, L) (t_log_write b);
  tf_begin_op R (_ : WakeRel R) L : fr R tmach L (λ _, L) t_begin_op;
  tf_end_op R (_ : WakeRel R) L : fr R tmach L (λ _, L) t_end_op
}.

#[export] Hint Rewrite @bf_mach @tf_mach using typeclasses eauto : frame.
#[export] Hint Resolve bf_bread bf_bwrite bf_brelse bf_data bf_set bf_blockno bf_dirty : frame.
#[export] Hint Resolve tf_bread tf_brelse tf_data tf_set tf_log_write tf_begin_op tf_end_op : frame.

(** ** bio.c *)

Section bio.
Context {R : mach → mach → Prop} `{!WakeRel R}.

Lemma getbuf_fr b L : fr R bio_m L (λ _, L) (getbuf b).
Proof. unfold getbuf. frame. Qed.
Lemma upd_fr b f L : fr R bio_m L (λ _, L) (upd b f).
Proof. unfold upd. frame. Qed.
#[local] Hint Resolve getbuf_fr upd_fr : frame.

Lemma iderw_fr b L : fr R bio_m L (λ _, L) (iderw b).
Proof. unfold iderw. frame. Qed.
Lemma link_front_fr b L : fr R bio_m L (λ _, L) (link_front b).
Proof. unfold link_front. frame. Qed.
Lemma unlink_buf_fr b L : fr R bio_m L (λ _, L) (unlink_buf b).
Proof. unfold unlink_buf. frame. Qed.
Lemma scan_fr nxt p b L : fr R bio_m L (λ _, L) (scan nxt p b).
Proof. unfold scan, scan_step. frame. Qed.
#[local] Hint Resolve iderw_fr link_front_fr unlink_buf_fr scan_fr : frame.

Lemma bget_fr dev bn L : fr R bio_m L (λ _, L) (bget dev bn).
Proof. unfold bget, bget_loop. frame. Qed.
#[local] Hint Resolve bget_fr : frame.

Lemma bread_fr dev bn L : fr R bio_m L (λ _, L) (bread dev bn).
Proof. unfold bread. frame. Qed.
Lemma bwrite_fr b L : fr R bio_m L (λ _, L) (bwrite b).
Proof. unfold bwrite. frame. Qed.
Lemma brelse_fr b L : fr R bio_m L (λ _, L) (brelse b).
Proof. unfold brelse. frame. Qed.
Lemma bdata_fr b L : fr R bio_m L (λ _, L) (bdata b).
Proof. unfold bdata. frame. Qed.
Lemma bset_fr b d L : fr R bio_m L (λ _, L) (bset b d).
Proof. unfold bset. frame. Qed.
Lemma bblockno_fr b L : fr R bio_m L (λ _, L) (bblockno b).
Proof. unfold bblockno. frame. Qed.
Lemma bdirty_fr b L : fr R bio_m L (λ _, L) (bdirty b).
Proof. unfold bdirty. frame. Qed.
End bio.

#[export] Instance bio_frame : BufFrame bio.
Proof.
  split; cbn; intros; auto using bread_fr, bwrite_fr, brelse_fr, bdata_fr, bset_fr, bblockno_fr, bdirty_fr.
Qed.

(** ** log.c *)

Section log.
Context {S : Type} `{BufFrame S} {R : mach → mach → Prop} `{!WakeRel R}.
Definition lmach (l : log S) : mach := bmach (l_buf l).

Lemma lift_buf_fr {A} (m : M S A) L : fr R bmach L (λ _, L) m → fr R lmach L (λ _, L) (bufM m).
Proof. intros Hm s. by apply (frs_lift bmach). Qed.
Lemma machM_fr {A} (m : M mach A) L (Q : A → list lockid) : fr R idm L Q m → fr R lmach L Q (machM m).
Proof.
  intros Hm s. apply (frs_lift bmach); [done..|]. apply (frs_lift idm); [done| |apply Hm].
  intros. apply bf_mach.
Qed.
#[local] Hint Resolve lift_buf_fr machM_fr : frame.

Lemma readsb_fr dev L : fr R bmach L (λ _, L) (readsb dev).
Proof. unfold readsb. frame. Qed.
Lemma lh_get_fr i L : fr R lmach L (λ _, L) (lh_get i).
Proof. unfold lh_get. frame. Qed.
Lemma lh_put_fr i x L : fr R lmach L (λ _, L) (lh_put i x).
Proof. unfold lh_put. frame. Qed.
#[local] Hint Resolve readsb_fr lh_get_fr lh_put_fr : frame.

Lemma install_trans_fr L : fr R lmach L (λ _, L) install_trans.
Proof. unfold install_trans, install_one. frame. Qed.
Lemma write_head_fr L : fr R lmach L (λ _, L) write_head.
Proof. unfold write_head, write_entry. frame. Qed.
Lemma write_log_fr L : fr R lmach L (λ _, L) write_log.
Proof. unfold write_log, write_log_one. frame. Qed.
#[local] Hint Resolve install_trans_fr write_head_fr write_log_fr : frame.
Lemma commit_fr L : fr R lmach L (λ _, L) commit.
Proof. unfold commit, clear_lh. frame. Qed.
#[local] Hint Resolve commit_fr : frame.
Lemma begin_op_fr L : fr R lmach L (λ _, L) begin_op.
Proof. unfold begin_op, begin_op_turn. frame. Qed.
Lemma end_op_fr L : fr R lmach L (λ _, L) end_op.
Proof. unfold end_op. frame. Qed.
Lemma log_write_fr b L : fr R lmach L (λ _, L) (log_write b).
Proof. unfold log_write. frame. Qed.
End log.

#[export] Instance log_frame {S} `{BufFrame S, !BufLaws S} : TxnFrame (log S).
Proof.
  split; cbn; intros.
  - apply bf_mach.
  - by apply lift_buf_fr, bf_bread.
  - by apply lift_buf_fr, bf_brelse.
  - by apply lift_buf_fr, bf_data.
  - by apply lift_buf_fr, bf_set.
  - by apply log_write_fr.
  - by apply begin_op_fr.
  - by apply end_op_fr.
Qed.

(** ** fs.c *)

Definition fmach {T} `{TxnOps T} (s : fs T) : mach := tmach (f_t s).

(** The drivers behind the device switch. *)
Class DevFrame (T : Type) `{TxnOps T} `{DevSw T} := {
  df_read R (_ : WakeRel R) major f i n L : dev_read major = Some f → fr R fmach L (λ _, L) (f i n);
  df_write R (_ : WakeRel R) major f i src n L :
    dev_write major = Some f → fr R fmach L (λ _, L) (f i src n)
}.

Section fs.
Context {T : Type} `{TxnFrame T} `{DevSw T} `{!DevFrame T} {R : mach → mach → Prop} `{!WakeRel R}.

Lemma tM_fr {A} (m : M T A) L (Q : A → list lockid) : fr R tmach L Q m → fr R fmach L Q (tM m).
Proof. intros Hm s. by apply (frs_lift tmach). Qed.
Lemma fmachM_fr {A} (m : M mach A) L (Q : A → list lockid) : fr R idm L Q m → fr R fmach L Q (fmachM m).
Proof.
  intros Hm. apply tM_fr. intros s. apply (frs_lift idm); [done| |apply Hm]. intros. apply tf_mach.
Qed.
#[local] Hint Resolve tM_fr fmachM_fr : frame.

Lemma inode_of_fr i L : fr R fmach L (λ _, L) (inode_of i).
Proof. unfold inode_of. frame. Qed.
Lemma set_inode_fr i f L : fr R fmach L (λ _, L) (set_inode i f).
Proof. unfold set_inode. frame. Qed.
Lemma treadsb_fr dev L : fr R tmach L (λ _, L) (treadsb dev).
Proof. unfold treadsb. frame. Qed.
Lemma bzero_fr dev b L : fr R tmach L (λ _, L) (bzero dev b).
Proof. unfold bzero. frame. Qed.
#[local] Hint Resolve inode_of_fr set_inode_fr treadsb_fr bzero_fr : frame.

Lemma balloc_fr dev L : fr R tmach L (λ _, L) (balloc dev).
Proof. unfold balloc, balloc_group. frame. Qed.
Lemma bfree_fr dev b L : fr R tmach L (λ _, L) (bfree dev b).
Proof. unfold bfree. frame. Qed.
Lemma iget_fr dev inum L : fr R fmach L (λ _, L) (iget dev inum).
Proof. unfold iget. frame. Qed.
Lemma iupdate_fr i L : fr R fmach L (λ _, L) (iupdate i).
Proof. unfold iupdate. frame. Qed.
Lemma idup_fr i L : fr R fmach L (λ _, L) (idup i).
Proof. unfold idup. frame. Qed.
Lemma ilock_fr i L : fr R fmach L (λ _, L) (ilock i).
Proof. unfold ilock, ilock_turn. frame. Qed.
Lemma iunlock_fr i L : fr R fmach L (λ _, L) (iunlock i).
Proof. unfold iunlock. frame. Qed.
#[local] Hint Resolve balloc_fr bfree_fr iget_fr iupdate_fr idup_fr ilock_fr iunlock_fr : frame.

Lemma ialloc_fr dev ty L : fr R fmach L (λ _, L) (ialloc dev ty).
Proof. unfold ialloc, ialloc_try. frame. Qed.
Lemma bmap_fr i bn L : fr R fmach L (λ _, L) (bmap i bn).
Proof. unfold bmap, addr_or_alloc, set_addr. frame. Qed.
Lemma itrunc_fr i L : fr R fmach L (λ _, L) (itrunc i).
Proof. unfold itrunc, trunc_direct, trunc_entry, set_addr. frame. Qed.
#[local] Hint Resolve ialloc_fr bmap_fr itrunc_fr : frame.

Lemma iput_fr i L : fr R fmach L (λ _, L) (iput i).
Proof. unfold iput. frame. Qed.
Lemma stati_fr i L : fr R fmach L (λ _, L) (stati i).
Proof. unfold stati. frame. Qed.
#[local] Hint Resolve iput_fr : frame.
Lemma iunlockput_fr i L : fr R fmach L (λ _, L) (iunlockput i).
Proof. unfold iunlockput. frame. Qed.

Lemma readi_fr i off n L : fr R fmach L (λ _, L) (readi i off n).
Proof.
  unfold readi, read_step. frame1. frame1; [frame|]. frame1. frame1. frame1; [|frame].
  frame1; [frame|]. destruct (dev_read _) eqn:E; [by eapply df_read|frame].
Qed.
Lemma writei_fr i src off n L : fr R fmach L (λ _, L) (writei i src off n).
Proof.
  unfold writei, write_step. frame1. frame1; [frame|]. frame1. frame1. frame1; [|frame].
  frame1; [frame|]. destruct (dev_write _) eqn:E; [by eapply df_write|frame].
Qed.
#[local] Hint Resolve iunlockput_fr readi_fr writei_fr : frame.

Lemma dirlookup_fr dp name L : fr R fmach L (λ _, L) (dirlookup dp name).
Proof. unfold dirlookup, lookup_step. frame. Qed.
#[local] Hint Resolve dirlookup_fr : frame.
Lemma dirlink_fr dp name inum L : fr R fmach L (λ _, L) (dirlink dp name inum).
Proof. unfold dirlink, empty_step. frame. Qed.
Lemma namex_fr path b name L : fr R fmach L (λ _, L) (namex path b name).
Proof. unfold namex, namex_step. frame. Qed.
#[local] Hint Resolve namex_fr : frame.
Lemma namei_fr path L : fr R fmach L (λ _, L) (namei path).
Proof. unfold namei. frame. Qed.
Lemma nameiparent_fr path name L : fr R fmach L (λ _, L) (nameiparent path name).
Proof. unfold nameiparent. frame. Qed.
End fs.

#[export] Hint Resolve inode_of_fr set_inode_fr iupdate_fr idup_fr ilock_fr iunlock_fr ialloc_fr
  iput_fr stati_fr iunlockput_fr readi_fr writei_fr dirlookup_fr dirlink_fr namei_fr nameiparent_fr
  tM_fr fmachM_fr : frame.
