(* ===== verification/FrameKer.v ===== *)
(** * Frames of memory management, pipes, files and system calls

    The frame lemmas of kalloc.c, vm.c, pipe.c, file.c and syscall.c hold for
    every relation; the functions that change process slots (proc.c, exec.c,
    sysfile.c, sysproc.c) are framed for the locks and CPUs alone.  The end
    of the file is the balance of every system call. *)

From S2P Require Import Prelude Bytes Spinlock Sched Bio BufLayer Ondisk Log Txn CString Fs Dir Kalloc Vm Pipe File Proc Syscall Exec Sysfile Trap Frame FrameFs.

(** ** kalloc.c and vm.c *)

Section mem.
Context {R : mach → mach → Prop} `{!FrameRel R}.

Lemma set_page_fr v p L : fr R ks_m L (λ _, L) (set_page v p).
Proof. unfold set_page. frame. Qed.
Lemma fill_page_fr v c L : fr R ks_m L (λ _, L) (fill_page v c).
Proof. apply set_page_fr. Qed.
#[local] Hint Resolve set_page_fr fill_page_fr : frame.

(** A section between two tests of [kmem.use_lock], which it does not change. *)
Lemma kmem_section_fr {A} (body : M kst A) L :
  (∀ L, fr R ks_m L (λ _, L) body) →
  (∀ s a s', body s = Ok a s' → use_lock (ks_k s') = use_lock (ks_k s)) →
  fr R ks_m L (λ _, L) (
    s ← get; whenM (use_lock (ks_k s)) (ksM (smpM (acquire L_kmem))) ;;;
    a ← body;
    s ← get; whenM (use_lock (ks_k s)) (ksM (smpM (release L_kmem))) ;;; ret a).
Proof.
  intros Hb Hu s m0 a s' Hq Hat. cbv beta iota delta [bind get].
  destruct (use_lock (ks_k s)) eqn:E; cbn [whenM].
  - unfold lift at 1. destruct (smpM (acquire L_kmem) (ks_m s)) as [[] m1|] eqn:E1; [|done].
    assert (fr_at R (L_kmem :: L) m0 m1) as H1 by (by eapply (acquire_fr _ _ _ m0 tt m1)).
    destruct (body (set_ksm m1 s)) as [b s2|] eqn:E2; [|done].
    rewrite (Hu _ _ _ E2). cbn [ks_k set_ksm]. rewrite E. cbn [whenM].
    apply (Hb _ (set_ksm m1 s) m0 b s2 Hq H1) in E2.
    unfold lift at 1. destruct (smpM (release L_kmem) (ks_m s2)) as [[] m3|] eqn:E3; [|done].
    unfold ret. intros ?. simplify_eq. exact (release_fr _ _ _ m0 tt m3 Hq E2 E3).
  - cbn. destruct (body s) as [b s2|] eqn:E2; [|done]. rewrite (Hu _ _ _ E2), E. cbn.
    unfold ret. intros ?. simplify_eq. exact (Hb _ _ m0 _ _ Hq Hat E2).
Qed.

Lemma kfree_fr kend v L : fr R ks_m L (λ _, L) (kfree kend v).
Proof.
  unfold kfree. frame1. frame1; [frame|]. eapply frs_bind; [frame|]. intros _ t.
  pose (body := s ← get;
    set_page v (put64 0 (freelist (ks_k s)) (pages (ks_k s) v)) ;;;
    modify (λ s, set_ksk (set_freelist v (ks_k s)) s)).
  refine (frs_ext _ _ _ _ _ _ (kmem_section_fr body L _ _ t)).
  - unfold body. cbv beta iota delta [bind get ret modify set_page].
    destruct (whenM _ _ t) as [[] t1|]; [|done]. destruct (whenM _ _ _) as [[]|]; done.
  - unfold body. intros. frame.
  - unfold body. intros t1 [] t2. cbv beta iota delta [bind get modify set_page]. intros. by simplify_eq.
Qed.

Lemma kalloc_fr L : fr R ks_m L (λ _, L) kalloc.
Proof.
  intros t.
  pose (body := s ← get;
    let r := freelist (ks_k s) in
    whenM (negb (r =? 0)) (modify (λ s, set_ksk (set_freelist (get64 0 (pages (ks_k s) r)) (ks_k s)) s)) ;;;
    ret r).
  refine (frs_ext _ _ _ _ _ _ (kmem_section_fr body L _ _ t)).
  - unfold body, kalloc. cbv beta iota zeta delta [bind get ret].
    destruct (whenM _ _ t) as [[] t1|]; [|done]. destruct (whenM _ _ t1) as [[]|]; done.
  - unfold body. intros. frame.
  - unfold body. intros t1 r t2. cbv beta iota zeta delta [bind get ret modify].
    destruct (freelist _ =? 0); cbn; intros; by simplify_eq.
Qed.
#[local] Hint Resolve kfree_fr kalloc_fr : frame.

Lemma getw_fr a i L : fr R ks_m L (λ _, L) (getw a i).
Proof. unfold getw. frame. Qed.
Lemma setw_fr a i x L : fr R ks_m L (λ _, L) (setw a i x).
Proof. unfold setw. frame. Qed.
#[local] Hint Resolve getw_fr setw_fr : frame.
Lemma walkpgdir_fr pgdir va b L : fr R ks_m L (λ _, L) (walkpgdir pgdir va b).
Proof. unfold walkpgdir. frame. Qed.
#[local] Hint Resolve walkpgdir_fr : frame.
Lemma mappages_fr pgdir va sz pa perm L : fr R ks_m L (λ _, L) (mappages pgdir va sz pa perm).
Proof. unfold mappages, map_step. frame. Qed.
Lemma setupkvm_fr kp L : fr R ks_m L (λ _, L) (setupkvm kp).
Proof. unfold setupkvm. frame. Qed.
Lemma deallocuvm_fr kend pgdir o n L : fr R ks_m L (λ _, L) (deallocuvm kend pgdir o n).
Proof. unfold deallocuvm, dealloc_step. frame. Qed.
#[local] Hint Resolve mappages_fr setupkvm_fr deallocuvm_fr : frame.
Lemma allocuvm_fr kend pgdir o n L : fr R ks_m L (λ _, L) (allocuvm kend pgdir o n).
Proof. unfold allocuvm, alloc_step. frame. Qed.
Lemma freevm_fr kend pgdir L : fr R ks_m L (λ _, L) (freevm kend pgdir).
Proof. unfold freevm. frame. Qed.
#[local] Hint Resolve allocuvm_fr freevm_fr : frame.
Lemma clearpteu_fr pgdir va L : fr R ks_m L (λ _, L) (clearpteu pgdir va).
Proof. unfold clearpteu. frame. Qed.
Lemma copyuvm_fr kend kp pgdir sz L : fr R ks_m L (λ _, L) (copyuvm kend kp pgdir sz).
Proof. unfold copyuvm, copy_step. frame. Qed.
Lemma uva2ka_fr pgdir va L : fr R ks_m L (λ _, L) (uva2ka pgdir va).
Proof. unfold uva2ka. frame. Qed.
#[local] Hint Resolve uva2ka_fr : frame.
Lemma copyout_fr pgdir va l L : fr R ks_m L (λ _, L) (copyout pgdir va l).
Proof. unfold copyout, copyout_step. frame. Qed.

(** ** User memory and arguments *)

Lemma kva_fr pgdir va L : fr R ks_m L (λ _, L) (kva pgdir va).
Proof. unfold kva. frame. Qed.
#[local] Hint Resolve kva_fr : frame.
Lemma loadb_fr pgdir va L : fr R ks_m L (λ _, L) (loadb pgdir va).
Proof. unfold loadb. frame. Qed.
Lemma storeb_fr pgdir va c L : fr R ks_m L (λ _, L) (storeb pgdir va c).
Proof. unfold storeb. frame. Qed.
#[local] Hint Resolve loadb_fr storeb_fr : frame.
Lemma uload_fr pgdir va n L : fr R ks_m L (λ _, L) (uload pgdir va n).
Proof. revert va. induction n as [|n IH]; intros va; cbn [uload]; frame. Qed.
Lemma ustore_fr pgdir va l L : fr R ks_m L (λ _, L) (ustore pgdir va l).
Proof. revert va. induction l as [|c l IH]; intros va; cbn [ustore]; frame. Qed.
Lemma thisproc_fr L : fr R ks_m L (λ _, L) thisproc.
Proof. unfold thisproc. frame. Qed.
#[local] Hint Resolve uload_fr ustore_fr thisproc_fr : frame.
Lemma fetchuintp_fr a L : fr R ks_m L (λ _, L) (fetchuintp a).
Proof. unfold fetchuintp. frame. Qed.
Lemma fetchstr_fr a L : fr R ks_m L (λ _, L) (fetchstr a).
Proof. unfold fetchstr, str_step. frame. Qed.
Lemma fetcharg_fr n L : fr R ks_m L (λ _, L) (fetcharg n).
Proof. unfold fetcharg. frame. Qed.
#[local] Hint Resolve fetchuintp_fr fetchstr_fr fetcharg_fr : frame.
Lemma argint_fr n L : fr R ks_m L (λ _, L) (argint n).
Proof. unfold argint. frame. Qed.
Lemma arguintp_fr n L : fr R ks_m L (λ _, L) (arguintp n).
Proof. apply fetcharg_fr. Qed.
#[local] Hint Resolve arguintp_fr : frame.
Lemma argptr_fr n sz L : fr R ks_m L (λ _, L) (argptr n sz).
Proof. unfold argptr. frame. Qed.
Lemma argstr_fr n L : fr R ks_m L (λ _, L) (argstr n).
Proof. unfold argstr. frame. Qed.
Lemma ustring_fr r L : fr R ks_m L (λ _, L) (ustring r).
Proof. unfold ustring. frame. Qed.
End mem.

#[export] Hint Resolve set_page_fr fill_page_fr kfree_fr kalloc_fr getw_fr walkpgdir_fr mappages_fr
  setupkvm_fr deallocuvm_fr allocuvm_fr freevm_fr clearpteu_fr copyuvm_fr copyout_fr uload_fr ustore_fr
  thisproc_fr fetchuintp_fr fetchstr_fr argint_fr arguintp_fr argptr_fr argstr_fr ustring_fr : frame.

(** ** pipe.c and file.c *)

Section files.
Context {T : Type} `{TxnFrame T} `{DevSw T} `{!DevFrame T} {R : mach → mach → Prop} `{!WakeRel R}.
Context (kend kpdpt : Z).

Lemma pmM_fr {A} (m : M mach A) L (Q : A → list lockid) : fr R idm L Q m → fr R pmach L Q (pmM m).
Proof. intros Hm s. by apply (frs_lift idm). Qed.
Lemma pkM_fr {A} (m : M kst A) L (Q : A → list lockid) : fr R ks_m L Q m → fr R pmach L Q (pkM m).
Proof. intros Hm s. by apply (frs_lift ks_m). Qed.
Lemma kfsM_fr {A} (m : M (fs T) A) L (Q : A → list lockid) : fr R fmach L Q m → fr R kmach L Q (kfsM m).
Proof. intros Hm s. by apply (frs_lift fmach). Qed.
Lemma kmM_fr {A} (m : M mach A) L (Q : A → list lockid) : fr R idm L Q m → fr R (@kmach T _) L Q (kmM m).
Proof. intros Hm s. apply (frs_lift idm); [done| |apply Hm]. intros. apply tf_mach. Qed.
Lemma kkM_fr {A} (m : M kst A) L (Q : A → list lockid) : fr R ks_m L Q m → fr R (@kmach T _) L Q (kkM m).
Proof. intros Hm s. apply (frs_lift ks_m); [done| |apply Hm]. intros. apply tf_mach. Qed.
Lemma ppM_fr {A} (m : M pst A) L (Q : A → list lockid) : fr R pmach L Q m → fr R (@kmach T _) L Q (ppM m).
Proof. intros Hm s. apply (frs_lift pmach); [done| |apply Hm]. intros. apply tf_mach. Qed.
Lemma kmach_set (m : mach) (k : ker T) : kmach (set_kmach m k) = m.
Proof. apply tf_mach. Qed.
#[local] Hint Resolve pmM_fr pkM_fr kfsM_fr kmM_fr kkM_fr ppM_fr : frame.

Lemma killed_fr L : fr R idm L (λ _, L) killed.
Proof. unfold killed. frame. Qed.
Lemma getpipe_fr a L : fr R pmach L (λ _, L) (getpipe a).
Proof. unfold getpipe. frame. Qed.
Lemma setpipe_fr a q L : fr R pmach L (λ _, L) (setpipe a q).
Proof. unfold setpipe. frame. Qed.
#[local] Hint Resolve killed_fr getpipe_fr setpipe_fr : frame.
Lemma pipeclose_fr a w L : fr R pmach L (λ _, L) (pipeclose kend a w).
Proof. unfold pipeclose. frame. Qed.
Lemma pipewrite_fr a l n L : fr R pmach L (λ _, L) (pipewrite a l n).
Proof. unfold pipewrite, pipewrite_loop, write_turn. frame. Qed.
Lemma piperead_fr a n L : fr R pmach L (λ _, L) (piperead a n).
Proof. unfold piperead, piperead_locked, read_turn. frame. Qed.
#[local] Hint Resolve pipeclose_fr pipewrite_fr piperead_fr : frame.

Abbreviation K := (@kmach T _).
Lemma begin_opK_fr L : fr R K L (λ _, L) begin_opK.
Proof. unfold begin_opK. frame. Qed.
Lemma end_opK_fr L : fr R K L (λ _, L) end_opK.
Proof. unfold end_opK. frame. Qed.
Lemma getfile_fr f L : fr R K L (λ _, L) (getfile f).
Proof. unfold getfile. frame. Qed.
Lemma setfile_fr f h L : fr R K L (λ _, L) (setfile f h).
Proof. unfold setfile. frame. Qed.
#[local] Hint Resolve begin_opK_fr end_opK_fr getfile_fr setfile_fr : frame.
Lemma filealloc_fr L : fr R K L (λ _, L) filealloc.
Proof. unfold filealloc. frame. Qed.
Lemma filedup_fr f L : fr R K L (λ _, L) (filedup f).
Proof. unfold filedup. frame. Qed.
Lemma fileclose_fr f L : fr R K L (λ _, L) (fileclose kend f).
Proof. unfold fileclose. frame. Qed.
Lemma filestat_fr f L : fr R K L (λ _, L) (filestat f).
Proof. unfold filestat. frame. Qed.
Lemma fileread_fr f n L : fr R K L (λ _, L) (fileread f n).
Proof. unfold fileread. frame. Qed.
Lemma filewrite_fr f l n L : fr R K L (λ _, L) (filewrite f l n).
Proof. unfold filewrite, write_chunk. frame. Qed.
#[local] Hint Resolve filealloc_fr fileclose_fr : frame.
Lemma pipealloc_fr : fr R K [] (λ _, []) (pipealloc kend).
Proof.
  unfold pipealloc. assert (∀ a, fr R idm [] (λ _, []) (smpM (initlock (L_pipe a)))) by (intros; by apply initlock_fr).
  frame.
Qed.
End files.

#[export] Hint Rewrite @kmach_set using typeclasses eauto : frame.
#[export] Hint Resolve pmM_fr pkM_fr kfsM_fr kmM_fr kkM_fr ppM_fr killed_fr begin_opK_fr end_opK_fr
  getfile_fr setfile_fr filealloc_fr filedup_fr fileclose_fr filestat_fr fileread_fr filewrite_fr
  pipealloc_fr : frame.

(** ** System calls that leave the process table alone *)

Section calls.
Context {T : Type} `{TxnFrame T} `{DevSw T} `{!DevFrame T} {R : mach → mach → Prop} `{!WakeRel R}.
Context (kend kpdpt : Z).
Abbreviation K := (@kmach T _).
Abbreviation frk := (fr R K [] (λ _, [])).

Lemma loaduvm_fr pgdir a ip off sz : frk (loaduvm pgdir a ip off sz).
Proof. unfold loaduvm, load_step. frame. Qed.
Lemma exec_bad_fr pgdir ip : frk (exec_bad kend pgdir ip).
Proof. unfold exec_bad. frame. Qed.
#[local] Hint Resolve loaduvm_fr exec_bad_fr : frame.
Lemma exec_segments_fr ip pgdir n sz off : frk (exec_segments kend ip pgdir n sz off).
Proof.
  revert sz off. induction n as [|n IH]; intros sz off; cbn [exec_segments]; unfold exec_segment; frame.
Qed.
Lemma exec_args_fr pgdir argv n sp l : frk (exec_args pgdir argv n sp l).
Proof. revert n sp l. induction argv as [|s argv IH]; intros n sp l; cbn [exec_args]; frame. Qed.
Lemma argfd_fr n : frk (argfd n).
Proof. unfold argfd, thisK. frame. Qed.
#[local] Hint Resolve exec_segments_fr exec_args_fr argfd_fr : frame.
Lemma sys_read_fr : frk sys_read.
Proof. unfold sys_read, arg_rw, thisK. frame. Qed.
Lemma sys_write_fr : frk sys_write.
Proof. unfold sys_write, arg_rw, thisK. frame. Qed.
Lemma put_stat_fr pgdir a st L : fr R ks_m L (λ _, L) (put_stat pgdir a st).
Proof. unfold put_stat. frame. Qed.
#[local] Hint Resolve sys_read_fr sys_write_fr put_stat_fr : frame.
Lemma sys_fstat_fr : frk sys_fstat.
Proof. unfold sys_fstat, thisK. frame. Qed.
Lemma link_bad_fr ip : frk (link_bad ip).
Proof. unfold link_bad. frame. Qed.
#[local] Hint Resolve sys_fstat_fr link_bad_fr : frame.
Lemma sys_link_fr : frk sys_link.
Proof. unfold sys_link, link. frame. Qed.
Lemma isdirempty_fr dp : fr R (@fmach T _) [] (λ _, []) (isdirempty dp).
Proof. unfold isdirempty, dirempty_step. frame. Qed.
Lemma unlink_bad_fr dp : frk (unlink_bad dp).
Proof. unfold unlink_bad. frame. Qed.
#[local] Hint Resolve sys_link_fr isdirempty_fr unlink_bad_fr : frame.
Lemma sys_unlink_fr : frk sys_unlink.
Proof. unfold sys_unlink, unlink. frame. Qed.
Lemma create_fr path ty maj min : fr R (@fmach T _) [] (λ _, []) (create path ty maj min).
Proof. unfold create. frame. Qed.
Lemma put_created_fr r : frk (put_created r).
Proof. unfold put_created. frame. Qed.
#[local] Hint Resolve sys_unlink_fr create_fr put_created_fr : frame.
Lemma open_inode_fr path omode : frk (open_inode path omode).
Proof. unfold open_inode. frame. Qed.
Lemma sys_mkdir_fr : frk sys_mkdir.
Proof. unfold sys_mkdir. frame. Qed.
Lemma sys_mknod_fr : frk sys_mknod.
Proof. unfold sys_mknod. frame. Qed.
Lemma exec_argv_fr n a L : fr R ks_m L (λ _, L) (exec_argv n a).
Proof. revert a. induction n as [|n IH]; intros a; cbn [exec_argv]; frame. Qed.
Lemma ustrings_fr l L : fr R ks_m L (λ _, L) (ustrings l).
Proof. induction l as [|r l IH]; cbn [ustrings]; frame. Qed.
Lemma sys_chmod_fr : frk sys_chmod.
Proof. unfold sys_chmod, chmod. frame. Qed.
Lemma sys_sleep_fr : frk sys_sleep.
Proof. unfold sys_sleep, sleep_turn. frame. Qed.
#[local] Hint Resolve open_inode_fr sys_mkdir_fr sys_mknod_fr exec_argv_fr ustrings_fr sys_chmod_fr sys_sleep_fr : frame.
End calls.

#[export] Hint Resolve loaduvm_fr exec_bad_fr exec_segments_fr exec_args_fr argfd_fr sys_read_fr sys_write_fr
  sys_fstat_fr sys_link_fr sys_unlink_fr create_fr put_created_fr open_inode_fr sys_mkdir_fr sys_mknod_fr
  exec_argv_fr ustrings_fr sys_chmod_fr sys_sleep_fr : frame.

(** ** Changes of a process slot

    A change is inert when it keeps the descriptors and whether the slot is
    in use; a relation that allows inert changes is a [SlotFrame]. *)

Definition dead (p : proc) : bool :=
  match p_state p with UNUSED | EMBRYO | ZOMBIE => true | _ => false end.
Definition inert (f : proc → proc) : Prop := ∀ p, p_ofile (f p) = p_ofile p ∧ dead (f p) = dead p.

#[export] Hint Extern 1 (inert _) => (intros ?; split; reflexivity) : frame.

Class SlotFrame (R : mach → mach → Prop) : Prop :=
  slot_fr i f L : inert f → fr R idm L (λ _, L) (setproc i f).
#[export] Hint Resolve slot_fr : frame.

Section slots.
Context {T : Type} `{TxnFrame T} `{DevSw T} `{!DevFrame T} {R : mach → mach → Prop} `{!WakeRel R} `{!SlotFrame R}.
Context (kend kpdpt : Z).
Abbreviation K := (@kmach T _).
Abbreviation frk := (fr R K [] (λ _, [])).

Lemma switchuvm_fr p L : fr R idm L (λ _, L) (switchuvm p).
Proof.
  intros m m0 [] m' Hq (b & Hi & Hc & Hs & Hl & HR). unfold switchuvm.
  destruct (lockeds_bal L b (proj1 (reinit_quiet _ _ Hi Hq))) as (c & Hcp & Hcb).
  rewrite <- Hs in Hcp. run (pushcli_ok (m_smp m) c Hcp). destruct (_ =? 0); [done|].
  unfold lift. cbn [m_smp set_smp]. rewrite (popcli_ok _ c Hcp Hcb). intros ?. simplify_eq.
  exists b. split_and!; [done..|]. by apply rel_smp, rel_smp.
Qed.
#[local] Hint Resolve switchuvm_fr : frame.
Lemma growproc_fr n L : fr R ks_m L (λ _, L) (growproc kend n).
Proof. unfold growproc, grow_size. frame. Qed.
Lemma exec_image_fr path argv pgdir sz e : frk (exec_image kend path argv pgdir sz e).
Proof. unfold exec_image. frame. Qed.
#[local] Hint Resolve growproc_fr exec_image_fr : frame.
Lemma exec_fr path argv : frk (exec kend kpdpt path argv).
Proof. unfold exec. frame. Qed.
#[local] Hint Resolve exec_fr : frame.
Lemma sys_exec_fr : frk (sys_exec kend kpdpt).
Proof. unfold sys_exec. frame. Qed.
Lemma sys_chdir_fr : frk sys_chdir.
Proof. unfold sys_chdir. frame. Qed.
Lemma set_eax_fr x : frk (set_eax x).
Proof. unfold set_eax. frame. Qed.
End slots.

#[export] Hint Resolve switchuvm_fr growproc_fr exec_fr sys_exec_fr sys_chdir_fr set_eax_fr : frame.

(** ** Code that uses process slots freely: only the locks and CPUs are framed *)

Definition Rtop (_ _ : mach) : Prop := True.
#[export] Instance Rtop_rel : WakeRel Rtop.
Proof. done. Qed.
#[export] Hint Resolve Rtop_rel : frame.

Lemma modify_mach_fr (f : mach → mach) L :
  (∀ m, m_smp (f m) = m_smp m ∧ length (ptable (f m)) = length (ptable m)) →
  fr Rtop idm L (λ _, L) (modify f).
Proof.
  intros Hf m m0 [] m' Hq (b & Hi & Hc & Hs & Hl & _) Hr. cbv [modify] in Hr. simplify_eq.
  destruct (Hf m) as [Es El]. exists b. rewrite Es, El. by split_and!.
Qed.

Lemma setproc_fr i f L : fr Rtop idm L (λ _, L) (setproc i f).
Proof.
  intros s. apply (frs_ext _ _ _ (modify (λ m, set_ptable (alter f i (ptable m)) m))); [done|].
  apply modify_mach_fr. intros m. split; [done|]. cbn. by rewrite length_alter.
Qed.
#[export] Hint Resolve setproc_fr : frame.

#[export] Instance Rtop_slot : SlotFrame Rtop.
Proof. intros i f L _. apply setproc_fr. Qed.
#[export] Hint Resolve Rtop_slot : frame.

(** The interrupt handlers of the drivers. *)
Class IrqFrame (T : Type) `{TxnOps T} `{IrqOps T} := {
  if_ide R `{!WakeRel R} L : fr R tmach L (λ _, L) ideintr;
  if_kbd R `{!WakeRel R} L : fr R tmach L (λ _, L) kbdintr;
  if_uart R `{!WakeRel R} L : fr R tmach L (λ _, L) uartintr
}.

Section procs.
Context {T : Type} `{TxnFrame T} `{DevSw T} `{!DevFrame T} `{IrqOps T}.
Context (kend kpdpt : Z).
Abbreviation K := (@kmach T _).
Abbreviation frk := (fr Rtop K [] (λ _, [])).

Lemma alloc_slot_fr L : fr Rtop idm L (λ _, L) alloc_slot.
Proof.
  unfold alloc_slot.
  assert (∀ L, fr Rtop idm L (λ _, L)
    (modify (λ m, mkMach (m_smp m) (ptable m) (i32 (nextpid m + 1)) (initproc m))))
    by (intros; by apply modify_mach_fr).
  frame.
Qed.
#[local] Hint Resolve alloc_slot_fr : frame.
Lemma allocproc_fr L : fr Rtop ks_m L (λ _, L) allocproc.
Proof. unfold allocproc. frame. Qed.
Lemma wait_fr L : fr Rtop ks_m L (λ _, L) (wait kend).
Proof. unfold wait, wait_locked, wait_turn. frame. Qed.
#[local] Hint Resolve allocproc_fr wait_fr : frame.

Lemma dup_fds_fr np l fd : frk (dup_fds np fd l).
Proof. revert fd. induction l as [|o l IH]; intros fd; cbn [dup_fds]; unfold dup_fd; frame. Qed.
#[local] Hint Resolve dup_fds_fr : frame.
Lemma fork_fr : frk (fork kend kpdpt).
Proof. unfold fork. frame. Qed.
Lemma exit_fr : frk (exit kend).
Proof. unfold exit, close_fd, exit_locked, orphan. frame. Qed.
#[local] Hint Resolve fork_fr exit_fr : frame.

Lemma kill_fr pid L : fr Rtop idm L (λ _, L) (kill pid).
Proof.
  unfold kill, kill_body. frame1. frame1; [frame|]. intros _ s1.
  eapply frs_bind; [apply (fr_for_each_exit (L_ptable :: L) L); frame|]. intros [v|]; frame.
Qed.
#[local] Hint Resolve kill_fr : frame.

Lemma fdalloc_fr f : frk (fdalloc f).
Proof. unfold fdalloc. frame. Qed.
#[local] Hint Resolve fdalloc_fr : frame.
Lemma sys_dup_fr : frk sys_dup.
Proof. unfold sys_dup. frame. Qed.
Lemma sys_close_fr : frk (sys_close kend).
Proof. unfold sys_close. frame. Qed.
Lemma sys_open_fr : frk (sys_open kend).
Proof. unfold sys_open, open. frame. Qed.
Lemma sys_pipe_fr : frk (sys_pipe kend).
Proof. unfold sys_pipe, thisK. frame. Qed.
#[local] Hint Resolve sys_dup_fr sys_close_fr sys_open_fr sys_pipe_fr : frame.

Lemma syscalls_fr : Forall (λ o, match o with Some h => frk h | None => True end) (syscalls kend kpdpt).
Proof.
  unfold syscalls, sys_fork, sys_exit, sys_wait, sys_kill, sys_getpid, sys_sbrk, sys_uptime.
  repeat apply Forall_cons_2; [done|frame..|apply Forall_nil_2].
Qed.

Lemma syscall_fr : frk (syscall kend kpdpt).
Proof.
  unfold syscall. frame1. frame1; [frame|]. intros p s1. cbv zeta.
  match goal with |- context [syscalls kend kpdpt !! ?n] =>
    destruct (syscalls kend kpdpt !! n) as [[h|]|] eqn:E end; [|destruct (_ && _); frame..].
  pose proof (Forall_lookup_1 _ _ _ _ syscalls_fr E) as Hh. cbn in Hh. destruct (_ && _); frame.
Qed.
#[local] Hint Resolve syscall_fr : frame.

Lemma exit_if_killed_fr : frk (exit_if_killed kend).
Proof. unfold exit_if_killed. frame. Qed.
Lemma exit_if_killed_user_fr tf : frk (exit_if_killed_user kend tf).
Proof. unfold exit_if_killed_user. frame. Qed.
#[local] Hint Resolve exit_if_killed_fr exit_if_killed_user_fr : frame.

Lemma trap_dispatch_fr tf : IrqFrame T → frk (trap_dispatch tf).
Proof.
  intros [Hi Hk Hu]. unfold trap_dispatch, timer_irq, irqM. cbv zeta. frame.
Qed.
#[local] Hint Resolve trap_dispatch_fr : frame.

Lemma yield_on_tick_fr tf : frk (yield_on_tick tf).
Proof. unfold yield_on_tick. frame. Qed.
#[local] Hint Resolve yield_on_tick_fr : frame.

Lemma trap_fr tf : IrqFrame T → frk (trap kend kpdpt tf).
Proof. intros Hi. unfold trap. frame. Qed.
End procs.
