(* ===== verification/FrameCon.v ===== *)
(** * Lock balance of the complete kernel

    The console discharges the frames of the device switch and of the
    interrupt handlers, which closes the tower bio.c, log.c, console.c, fs.c,
    file.c, proc.c, trap.c.  [kernel] is the state of that tower. *)

From S2P Require Import Prelude Bytes Spinlock Sched Bio BioSpec BufLayer Ondisk Log LogSpec Txn CString Fs Dir Kalloc Vm Pipe File Proc Syscall Exec Sysfile Trap Kbd Console Frame FrameFs FrameKer.

Section con.
Context {T : Type} `{TxnFrame T} {R : mach → mach → Prop} `{!WakeRel R}.
Abbreviation cmach := (@tmach (con T) _).

Lemma cntM_fr {A} (m : M T A) L (Q : A → list lockid) :
  fr R tmach L Q m → fr R cmach L Q (lift cn_t set_cnt m).
Proof. intros Hm s. by apply (frs_lift tmach). Qed.
Lemma cnmachM_fr {A} (m : M mach A) L (Q : A → list lockid) : fr R idm L Q m → fr R cmach L Q (cnmachM m).
Proof.
  intros Hm. apply cntM_fr. intros s. apply (frs_lift idm); [done| |apply Hm]. intros. apply tf_mach.
Qed.
End con.

#[export] Hint Resolve cntM_fr cnmachM_fr : frame.

#[export] Instance con_frame {T} `{TxnFrame T} : TxnFrame (con T).
Proof.
  split; cbn; intros; [apply tf_mach|apply cntM_fr..];
    auto using tf_bread, tf_brelse, tf_data, tf_set, tf_log_write, tf_begin_op, tf_end_op.
Qed.

#[export] Hint Resolve con_frame : frame.
Ltac frame_lift ::= first [apply (frs_lift idm) | apply (frs_lift tmach)].

Section con_ops.
Context {T : Type} `{TxnFrame T} (procdump : list Z) {R : mach → mach → Prop} `{!WakeRel R}.
Abbreviation cmach := (@tmach (con T) _).

Lemma uartputc_fr c L : fr R cmach L (λ _, L) (uartputc c).
Proof. unfold uartputc. frame. Qed.
#[local] Hint Resolve uartputc_fr : frame.
Lemma consputc_fr c L : fr R cmach L (λ _, L) (consputc c).
Proof.
  unfold consputc. frame1. frame1. frame1; [|frame]. intros m0 a s' _ _ Hr.
  by apply bind_inv in Hr as (? & ? & _ & ?).
Qed.
#[local] Hint Resolve consputc_fr : frame.
Lemma kbdgetcM_fr L : fr R cmach L (λ _, L) kbdgetcM.
Proof. unfold kbdgetcM. frame. Qed.
Lemma uartgetc_fr L : fr R cmach L (λ _, L) uartgetc.
Proof. unfold uartgetc. frame. Qed.
Lemma consoleintr_fr n getc L : (∀ L, fr R cmach L (λ _, L) getc) →
  fr R cmach L (λ _, L) (consoleintr procdump n getc).
Proof. intros Hg. unfold consoleintr, intr_turn. frame. Qed.

Abbreviation fcon := (@fmach (con T) _).
Lemma consoleread_fr ip n L : fr R fcon L (λ _, L) (consoleread ip n).
Proof. unfold consoleread, consoleread_locked, conread_turn. cbv zeta. frame. Qed.
Lemma consolewrite_fr ip buf n L : fr R fcon L (λ _, L) (consolewrite ip buf n).
Proof. unfold consolewrite. frame. Qed.
End con_ops.

#[export] Instance con_dev_frame {T} `{TxnFrame T} : DevFrame (con T).
Proof.
  split; cbn; intros; destruct (_ =? _); simplify_eq; auto using consoleread_fr, consolewrite_fr.
Qed.

Definition con_irq_frame {T} `{TxnFrame T} (procdump : list Z) :
  @IrqFrame (con T) _ (con_irq procdump).
Proof.
  split; cbn; intros.
  - intros s. apply frs_ret_same.
  - intros s. apply frs_get, consoleintr_fr; [apply _|]. intros. by apply kbdgetcM_fr.
  - intros s. apply frs_get, consoleintr_fr; [apply _|]. intros. by apply uartgetc_fr.
Qed.
