(* ===== verification/ProcThms.v ===== *)
(** * Behaviour of process creation, exit, wait and the scheduler

    Exact results of the operations on the process table: what [allocproc],
    [exit] and [wait] do to every slot, and the invariant of the scheduler
    that a process runs on at most one CPU. *)

From S2P Require Import Prelude Bytes Spinlock Sched Kalloc Vm Pipe File Proc Frame.

(** ** Searches of the table *)

Fixpoint find_proc (P : proc → bool) (l : list proc) : option nat :=
  match l with
  | [] => None
  | p :: l' => if P p then Some O else S <$> find_proc P l'
  end.

Lemma find_proc_Some P l i : find_proc P l = Some i →
  ∃ p, l !! i = Some p ∧ P p = true ∧ ∀ j q, (j < i)%nat → l !! j = Some q → P q = false.
Proof.
  revert i. induction l as [|p l IH]; intros i; cbn [find_proc]; [done|].
  destruct (P p) eqn:E.
  - intros ?. simplify_eq. exists p. split_and!; [done..|]. intros; lia.
  - destruct (find_proc P l) as [j|]; [|done]. cbn. intros ?. simplify_eq.
    destruct (IH j eq_refl) as (q & Hq & HP & Hb). exists q. split_and!; [done..|].
    intros [|n] r Hn Hr; cbn in Hr; [by simplify_eq|]. eapply Hb; [|done]. lia.
Qed.

Lemma find_proc_None P l : find_proc P l = None → Forall (λ p, P p = false) l.
Proof.
  induction l as [|p l IH]; cbn [find_proc]; [constructor|]. destruct (P p) eqn:E; [done|].
  destruct (find_proc P l); [done|]. intros _. constructor; auto.
Qed.

Lemma search_loop (P : proc → bool) n a m :
  (a + n)%nat = length (ptable m) →
  for_each (seq a n) (λ i, p ← getproc i; ret (if P p then Some i else None)) m =
  Ok ((λ i, a + i)%nat <$> find_proc P (drop a (ptable m))) m.
Proof.
  revert a. induction n as [|n IH]; intros a Hl; cbn [seq for_each].
  - by rewrite drop_ge by lia.
  - destruct (lookup_lt_is_Some_2 (ptable m) a) as [p Hp]; [lia|].
    rewrite (drop_S _ p a Hp).
    erewrite bind_ok; [|unfold getproc; go; by rewrite Hp].
    cbn [find_proc]. destruct (P p); cbn.
    + by rewrite Nat.add_0_r.
    + rewrite IH by lia. destruct (find_proc P (drop (S a) (ptable m))) as [j|]; cbn; [|done].
      do 2 f_equal. lia.
Qed.

Definition unused (p : proc) : bool := bool_decide (p_state p = UNUSED).

(** The machine after a slot was taken. *)
Definition embryo (i : nat) (p : proc) (m : mach) : mach :=
  mkMach (m_smp m) (<[i := with_pid (nextpid m) (with_state EMBRYO p)]> (ptable m))
    (i32 (nextpid m + 1)) (initproc m).

Lemma alloc_slot_ok m : mok m → lfree L_ptable m →
  alloc_slot m =
  match find_proc unused (ptable m) with
  | None => Ok None m
  | Some i => match ptable m !! i with Some p => Ok (Some i) (embryo i p m) | None => Ok None m end
  end.
Proof.
  intros Hm Hf. unfold alloc_slot. step (lock_ok _ _ Hm Hf).
  assert (0 + NPROC = length (ptable (mlocked L_ptable m)))%nat as Hl by (symmetry; apply Hm).
  step (search_loop unused NPROC 0 _ Hl). rewrite drop_0. cbn [ptable mlocked set_smp].
  destruct (find_proc unused (ptable m)) as [i|] eqn:E; cbn [fmap option_fmap option_map].
  - destruct (find_proc_Some _ _ _ E) as (p & Hp & _). cbn [Nat.add]. rewrite Hp.
    unfold setproc. go. cbn [ptable mlocked set_smp set_ptable m_smp nextpid initproc].
    rewrite (list_alter_insert _ _ _ _ Hp).
    erewrite list_alter_insert by (apply list_lookup_insert_eq; eauto using lookup_lt_Some).
    rewrite list_insert_insert_eq.
    pose proof (unlock_ok L_ptable (embryo i p m)) as U.
    specialize (U (ptable (embryo i p m))). unfold mok, lfree, embryo, mlocked, set_ptable, set_smp in *.
    cbn in *. rewrite U; [done| |done]. split; [apply Hm|]. rewrite length_insert. apply Hm.
  - by step (unlock_ok' L_ptable m Hm Hf).
Qed.

(** ** exit *)

Definition wake_opt (o : option nat) (t : list proc) : list proc :=
  match o with Some i => wake (proc_chan i) <$> t | None => t end.
Definition reparent (me : nat) (ip : option nat) (q : proc) : proc :=
  if is_parent me q then with_parent ip q else q.
Definition zombie (q : proc) : bool := bool_decide (p_state q = ZOMBIE).
Definition zombie_child (me : nat) (q : proc) : bool := is_parent me q && zombie q.

(** The slots from [a] on are passed to [ip], which is woken if one of them
    is a zombie. *)
Definition orphans (me : nat) (ip : option nat) (a : nat) (t : list proc) : list proc :=
  let t' := take a t ++ (reparent me ip <$> drop a t) in
  if existsb (zombie_child me) (drop a t) then wake_opt ip t' else t'.

Lemma wake_parent c q : p_parent (wake c q) = p_parent q.
Proof. unfold wake. by destruct (_ && _). Qed.

Lemma wake_with_parent c o q : wake c (with_parent o q) = with_parent o (wake c q).
Proof. unfold wake. cbn. by destruct (_ && _). Qed.

Lemma wake_idem c q : wake c (wake c q) = wake c q.
Proof.
  unfold wake at 2 3. destruct (_ && _) eqn:E; unfold wake; [done|by rewrite E].
Qed.

Lemma zombie_wake c q : zombie (wake c q) = zombie q.
Proof.
  unfold zombie, wake. destruct (_ && _) eqn:E; [|done]. cbn.
  apply andb_true_iff in E as [E%bool_decide_eq_true _]. by rewrite E.
Qed.

Lemma reparent_wake me ip c q : reparent me ip (wake c q) = wake c (reparent me ip q).
Proof.
  unfold reparent, is_parent. rewrite wake_parent. case_bool_decide; [|done]. by rewrite wake_with_parent.
Qed.

Lemma zombie_child_wake me c q : zombie_child me (wake c q) = zombie_child me q.
Proof. unfold zombie_child, is_parent. by rewrite zombie_wake, wake_parent. Qed.

Lemma wake_opt_idem o t : wake_opt o (wake_opt o t) = wake_opt o t.
Proof.
  destruct o; [|done]. cbn. rewrite <- list_fmap_compose. apply list_fmap_ext. intros. apply wake_idem.
Qed.

Lemma wake_opt_length o t : length (wake_opt o t) = length t.
Proof. destruct o; [|done]. apply length_fmap. Qed.

Lemma existsb_wake me o t : existsb (zombie_child me) (wake_opt o t) = existsb (zombie_child me) t.
Proof.
  destruct o; [|done]. cbn. induction t as [|q t IH]; [done|]. cbn. by rewrite zombie_child_wake, IH.
Qed.

(** Waking before or after the rest is passed on makes no difference. *)
Lemma orphans_wake me ip a t : orphans me ip a (wake_opt ip t) = wake_opt ip (orphans me ip a t).
Proof.
  assert (drop a (wake_opt ip t) = wake_opt ip (drop a t)) as Hd.
  { destruct ip; [|done]. cbn. by rewrite fmap_drop. }
  unfold orphans. rewrite Hd, existsb_wake.
  assert (take a (wake_opt ip t) ++ (reparent me ip <$> wake_opt ip (drop a t)) =
          wake_opt ip (take a t ++ (reparent me ip <$> drop a t))) as ->; [|by destruct (existsb _ _)].
  destruct ip as [i|]; [|done]. cbn. rewrite fmap_app, fmap_take. f_equal.
  rewrite <- !list_fmap_compose. apply list_fmap_ext. intros. apply reparent_wake.
Qed.

Lemma orphans_step me ip a t p : t !! a = Some p →
  orphans me ip a t =
  orphans me ip (S a) (if zombie_child me p then wake_opt ip (<[a := reparent me ip p]> t)
                       else <[a := reparent me ip p]> t).
Proof.
  intros Hp. assert (a < length t)%nat by eauto using lookup_lt_Some.
  assert (take (S a) (<[a := reparent me ip p]> t) ++
      (reparent me ip <$> drop (S a) (<[a := reparent me ip p]> t)) =
      take a t ++ (reparent me ip <$> drop a t)) as Hr.
  { rewrite drop_insert_lt by lia.
    rewrite (take_S_r _ _ (reparent me ip p)) by (by apply list_lookup_insert_eq).
    rewrite take_insert_ge by lia. rewrite (drop_S t p a Hp). by rewrite <- app_assoc. }
  destruct (zombie_child me p) eqn:E; [rewrite orphans_wake|]; unfold orphans;
    rewrite Hr, drop_insert_lt by lia; rewrite (drop_S t p a Hp); cbn [existsb]; rewrite E; cbn [orb].
  - destruct (existsb _ (drop (S a) t)); [by rewrite wake_opt_idem|done].
  - done.
Qed.

Lemma orphans_length me ip a t : length (orphans me ip a t) = length t.
Proof.
  assert (length (take a t ++ (reparent me ip <$> drop a t)) = length t) as E.
  { rewrite length_app, length_fmap, <- length_app. by rewrite take_drop. }
  unfold orphans. destruct (existsb _ _); by rewrite ?wake_opt_length.
Qed.

Lemma wakeup1_ok c m : length (ptable m) = NPROC →
  wakeup1 c m = Ok tt (set_ptable (wake c <$> ptable m) m).
Proof. intros Hl. unfold wakeup1. by rewrite (table_loop (wake c) NPROC 0) by done. Qed.

Definition wake_optM (o : option nat) : M mach unit :=
  match o with Some ip => wakeup1 (proc_chan ip) | None => ret tt end.

Lemma wake_optM_ok o m : length (ptable m) = NPROC →
  wake_optM o m = Ok tt (set_ptable (wake_opt o (ptable m)) m).
Proof. intros Hl. destruct o; cbn; [by apply wakeup1_ok|by destruct m]. Qed.

Lemma orphan_run me i m p : length (ptable m) = NPROC → ptable m !! i = Some p →
  orphan me i m =
  Ok tt (set_ptable (let t := <[i := reparent me (initproc m) p]> (ptable m) in
                     if zombie_child me p then wake_opt (initproc m) t else t) m).
Proof.
  intros Hl Hp. unfold orphan, reparent, zombie_child, zombie.
  erewrite bind_ok; [|unfold getproc; go; by rewrite Hp].
  destruct (is_parent me p) eqn:E; cbn [whenM andb].
  - unfold setproc. go. cbn [ptable set_ptable initproc]. rewrite (list_alter_insert _ _ _ _ Hp).
    destruct (bool_decide (p_state p = ZOMBIE)); [|done].
    apply (wake_optM_ok (initproc m) (set_ptable (<[i := with_parent (initproc m) p]> (ptable m)) m)).
    cbn. by rewrite length_insert.
  - cbn. rewrite list_insert_id by done. by destruct m.
Qed.

Lemma orphan_loop me n a m : (a + n)%nat = NPROC → length (ptable m) = NPROC →
  for_all (seq a n) (orphan me) m = Ok tt (set_ptable (orphans me (initproc m) a (ptable m)) m).
Proof.
  revert a m. induction n as [|n IH]; intros a m Hn Hl; cbn [seq for_all].
  - unfold orphans. rewrite drop_ge, take_ge by lia. cbn. rewrite app_nil_r. by destruct m.
  - destruct (lookup_lt_is_Some_2 (ptable m) a) as [p Hp]; [lia|].
    step (orphan_run me a m p Hl Hp). cbv zeta. rewrite IH.
    + cbn [ptable set_ptable initproc]. by rewrite (orphans_step me _ a (ptable m) p Hp).
    + lia.
    + cbn. destruct (zombie_child me p); [rewrite wake_opt_length|]; by rewrite length_insert.
Qed.

(** The table when a process has exited. *)
Definition exit_table (me : nat) (p : proc) (m : mach) : list proc :=
  alter (with_state ZOMBIE) me (orphans me (initproc m) 0 (wake_opt (p_parent p) (ptable m))).

Lemma exit_table_length me p m : length (exit_table me p m) = length (ptable m).
Proof. unfold exit_table. by rewrite length_alter, orphans_length, wake_opt_length. Qed.

Lemma exit_table_me me p m q : ptable m !! me = Some q →
  ∃ q', exit_table me p m !! me = Some q' ∧ p_state q' = ZOMBIE.
Proof.
  intros Hq. unfold exit_table. rewrite list_lookup_alter_eq.
  destruct (lookup_lt_is_Some_2 (orphans me (initproc m) 0 (wake_opt (p_parent p) (ptable m))) me) as [q' Hq'].
  - rewrite orphans_length, wake_opt_length. eauto using lookup_lt_Some.
  - rewrite Hq'. by eexists.
Qed.

Lemma exit_locked_eq m me p : length (ptable m) = NPROC → ptable m !! me = Some p →
  exit_locked me m = (sched ;;; panic "zombie exit") (set_ptable (exit_table me p m) m).
Proof.
  intros Hl Hp. unfold exit_locked.
  erewrite bind_ok; [|unfold getproc; go; by rewrite Hp].
  erewrite bind_ok; [|by apply (wake_optM_ok (p_parent p))].
  erewrite bind_ok; [|apply orphan_loop; [done|cbn; by rewrite wake_opt_length]].
  cbn [ptable set_ptable initproc]. unfold setproc. erewrite bind_ok; [|reflexivity]. done.
Qed.

Lemma exit_locked_ok m me p : running m me p →
  exit_locked me (mlocked L_ptable m) = Stop Switch (set_ptable (exit_table me p m) (mlocked L_ptable m)).
Proof.
  intros Hrun. pose proof Hrun as (Hm & Hp & c & Hc & Hcp & Hn).
  rewrite (exit_locked_eq _ _ p); [|apply Hm|done]. apply bind_stop.
  destruct (exit_table_me me p m p Hp) as (q & Hq & Hz).
  apply (sched_ok (set_ptable (exit_table me p m) m) me q); [|by rewrite Hz].
  split_and!; [|done|by exists c]. destruct Hm as [Hb Hl]. split; [done|]. cbn. by rewrite exit_table_length.
Qed.

(** Lookups in the tables. *)
Lemma wake_opt_lookup o t j : wake_opt o t !! j =
  (λ q, match o with Some i => wake (proc_chan i) q | None => q end) <$> t !! j.
Proof. destruct o; cbn; [apply list_lookup_fmap|by destruct (t !! j)]. Qed.

Lemma orphans_lookup me ip t j : orphans me ip 0 t !! j =
  (λ q, let q := reparent me ip q in
        if existsb (zombie_child me) t then match ip with Some i => wake (proc_chan i) q | None => q end else q)
  <$> t !! j.
Proof.
  unfold orphans. change (take 0 t) with (@nil proc). rewrite drop_0, app_nil_l. destruct (existsb _ _).
  - rewrite wake_opt_lookup, list_lookup_fmap. by destruct (t !! j).
  - rewrite list_lookup_fmap. by destruct (t !! j).
Qed.

Lemma wake_state c q : p_state q = SLEEPING → p_chan q = Some c → p_state (wake c q) = RUNNABLE.
Proof. intros H1 H2. unfold wake. by rewrite H1, H2, !bool_decide_true. Qed.

Lemma wake_keeps c q : p_state q = RUNNABLE → p_state (wake c q) = RUNNABLE.
Proof. intros H1. unfold wake. by rewrite H1, bool_decide_false. Qed.

Lemma wake_pid c q : p_pid (wake c q) = p_pid q.
Proof. unfold wake. by destruct (_ && _). Qed.

Lemma reparent_fields me ip q : p_pid (reparent me ip q) = p_pid q ∧
  p_state (reparent me ip q) = p_state q ∧ p_chan (reparent me ip q) = p_chan q ∧
  p_parent (reparent me ip q) = (if is_parent me q then ip else p_parent q).
Proof. unfold reparent. by destruct (is_parent me q). Qed.

Lemma exit_lookup me p m j q : ptable m !! j = Some q → ∃ q', exit_table me p m !! j = Some q' ∧
  p_pid q' = p_pid q ∧ p_parent q' = (if is_parent me q then initproc m else p_parent q) ∧
  (∀ pp, j ≠ me → p_parent p = Some pp → p_state q = SLEEPING → p_chan q = Some (proc_chan pp) →
     p_state q' = RUNNABLE) ∧
  (j ≠ me → existsb (zombie_child me) (ptable m) = true → initproc m = Some j →
   p_state q = SLEEPING → p_chan q = Some (proc_chan j) → p_state q' = RUNNABLE).
Proof.
  intros Hq. unfold exit_table.
  pose proof (orphans_lookup me (initproc m) (wake_opt (p_parent p) (ptable m)) j) as Ho.
  rewrite existsb_wake, wake_opt_lookup, Hq in Ho. cbn in Ho.
  set (q1 := match p_parent p with Some i => wake (proc_chan i) q | None => q end) in Ho.
  assert (p_pid q1 = p_pid q ∧ p_parent q1 = p_parent q) as [Hp1 Hpa1].
  { unfold q1. destruct (p_parent p); [|done]. by rewrite wake_pid, wake_parent. }
  assert (∀ pp, p_parent p = Some pp → p_state q = SLEEPING → p_chan q = Some (proc_chan pp) →
    p_state q1 = RUNNABLE) as Hw.
  { unfold q1. intros pp ->. apply wake_state. }
  destruct (reparent_fields me (initproc m) q1) as (Rp & Rs & Rc & Ra).
  unfold is_parent in Ra. rewrite Hpa1 in Ra. fold (is_parent me q) in Ra.
  destruct (decide (me = j)) as [->|Hne].
  - rewrite list_lookup_alter_eq, Ho. eexists. split; [done|]. cbn.
    split_and!; [|rewrite <- Ra|done|done]; destruct (existsb _ _), (initproc m); cbn;
      rewrite ?wake_pid, ?wake_parent; congruence.
  - rewrite list_lookup_alter_ne, Ho by done. eexists. split; [done|].
    split_and!.
    + destruct (existsb _ _), (initproc m); rewrite ?wake_pid; congruence.
    + rewrite <- Ra. by destruct (existsb _ _), (initproc m); rewrite ?wake_parent.
    + intros pp _ H0 H1 H2.
      assert (p_state (reparent me (initproc m) q1) = RUNNABLE) as HR by (rewrite Rs; eauto).
      destruct (existsb _ _), (initproc m); auto using wake_keeps.
    + intros _ E1 E2 H1 H2. rewrite E1, E2 in *. destruct (decide (p_state q1 = RUNNABLE)) as [Hr|Hr].
      * apply wake_keeps. congruence.
      * apply wake_state; [rewrite Rs|rewrite Rc]; unfold q1 in *; destruct (p_parent p) as [pp|]; try done;
          unfold wake in *; destruct (_ && _); done.
Qed.

(** C30: when a process exits, it becomes a zombie, every child of it gets init
    as its parent, a parent asleep in [wait] is made runnable, and init is
    made runnable too when one of the children passed to it is already a
    zombie; then the CPU is handed to the scheduler with the lock held. *)
Theorem exit_effect m me p : running m me p →
  let t := exit_table me p m in
  exit_locked me (mlocked L_ptable m) = Stop Switch (set_ptable t (mlocked L_ptable m)) ∧
  (∃ q, t !! me = Some q ∧ p_state q = ZOMBIE) ∧
  ∀ j q, ptable m !! j = Some q → ∃ q', t !! j = Some q' ∧
    p_pid q' = p_pid q ∧ p_parent q' = (if is_parent me q then initproc m else p_parent q) ∧
    (∀ pp, j ≠ me → p_parent p = Some pp → p_state q = SLEEPING → p_chan q = Some (proc_chan pp) →
     p_state q' = RUNNABLE) ∧
    (j ≠ me → existsb (zombie_child me) (ptable m) = true → initproc m = Some j →
     p_state q = SLEEPING → p_chan q = Some (proc_chan j) → p_state q' = RUNNABLE).
Proof.
  intros Hrun t. split_and!.
  - by apply exit_locked_ok.
  - eapply exit_table_me, Hrun.
  - intros j q. apply exit_lookup.
Qed.

(** Process 1 exits: process 0, its parent and init, sleeps in [wait], and
    process 2, a zombie, is its child. *)
Definition ex_exit : mach :=
  mkMach (mkSmp 0 [mkCpu true 0 true (Some 1%nat)] (λ _, free_lock))
    (with_state SLEEPING (with_chan (Some (proc_chan 0)) zero_proc) ::
     with_state RUNNING (with_parent (Some 0%nat) zero_proc) ::
     with_state ZOMBIE (with_parent (Some 1%nat) zero_proc) :: replicate 61 zero_proc) 4 (Some 0%nat).

Lemma exit_effect_witness :
  let t := exit_table 1 (with_state RUNNING (with_parent (Some 0%nat) zero_proc)) ex_exit in
  exit_locked 1 (mlocked L_ptable ex_exit) = Stop Switch (set_ptable t (mlocked L_ptable ex_exit)) ∧
  p_state <$> t !! 0%nat = Some RUNNABLE.
Proof.
  destruct (exit_effect ex_exit 1 (with_state RUNNING (with_parent (Some 0%nat) zero_proc))) as (E & _ & Hj).
  - split_and!; [split; [|reflexivity]|reflexivity|eexists; split_and!; reflexivity].
    eexists. split; [reflexivity|]. unfold cpu_bal; cbn. split_and!; done || lia.
  - split; [exact E|]. destruct (Hj 0%nat _ eq_refl) as (q' & -> & _ & _ & Hw & _).
    cbn. f_equal. by apply (Hw 0%nat).
Defined.

(** ** kill *)

Lemma kill_table_find pid l i p : find_proc (λ q, p_pid q =? pid) l = Some i → l !! i = Some p →
  kill_table pid l = Some (<[i := kill_proc p]> l).
Proof.
  revert i. induction l as [|q l IH]; intros i; cbn [find_proc kill_table]; [done|].
  destruct (p_pid q =? pid).
  - intros [= <-] Hp. cbn in Hp. by simplify_eq.
  - destruct (find_proc _ l) as [j|] eqn:E; [|done]. intros [= <-] Hp. by rewrite (IH j eq_refl Hp).
Qed.

Lemma find_proc_ext P Q l : Forall (λ p, P p = Q p) l → find_proc P l = find_proc Q l.
Proof. induction 1 as [|p l Hp _ IH]; cbn [find_proc]; [done|]. by rewrite Hp, IH. Qed.

Lemma find_proc_insert P l i p : find_proc P l = Some i → P p = true → find_proc P (<[i := p]> l) = Some i.
Proof.
  revert i. induction l as [|q l IH]; intros i; cbn [find_proc]; [done|]. destruct (P q) eqn:E.
  - intros [= <-] Hp. cbn. by rewrite Hp.
  - destruct (find_proc P l) as [j|]; [|done]. intros [= <-] Hp. change (<[S j := p]> (q :: l)) with (q :: <[j := p]> l).
    cbn [find_proc]. by rewrite E, (IH j).
Qed.

(** [kill(0)]: the unused slots have pid 0, so the call marks the first of
    them as killed and returns success, and nothing clears the mark when the
    slot is allocated: the next process that is created starts out killed. *)
Theorem kill_zero_marks_free m i : mok m → lfree L_ptable m →
  Forall (λ p, (p_pid p =? 0) = unused p) (ptable m) → find_proc unused (ptable m) = Some i →
  ∃ m', kill 0 m = Ok 0 m' ∧ ∃ m'' p, alloc_slot m' = Ok (Some i) m'' ∧
    ptable m'' !! i = Some p ∧ p_state p = EMBRYO ∧ p_killed p = true.
Proof.
  intros Hm Hf Hz Hi. destruct (find_proc_Some _ _ _ Hi) as (p & Hp & Hu & _).
  assert (i < length (ptable m))%nat as Hlt by eauto using lookup_lt_Some.
  assert (kill_proc p = with_killed true p) as Ek.
  { apply bool_decide_eq_true in Hu. unfold kill_proc. cbn. by rewrite Hu. }
  rewrite (kill_ok 0 m Hm Hf), (kill_table_find 0 _ i p) by (done || by rewrite (find_proc_ext _ unused)).
  eexists. split; [done|].
  rewrite alloc_slot_ok by (done || (destruct Hm; split; cbn; rewrite ?length_insert; done)). cbn [ptable set_ptable].
  rewrite (find_proc_insert unused _ i) by (done || by rewrite Ek). rewrite list_lookup_insert_eq by done.
  eexists _, _. split; [done|]. cbn. rewrite list_insert_insert_eq, list_lookup_insert_eq by done.
  split; [done|]. by rewrite Ek.
Qed.

Lemma kill_zero_marks_free_witness : ∃ m', kill 0 (ks_m ex_kst) = Ok 0 m' ∧
  ∃ m'' p, alloc_slot m' = Ok (Some 0%nat) m'' ∧ ptable m'' !! 0%nat = Some p ∧ p_state p = EMBRYO ∧ p_killed p = true.
Proof.
  apply (kill_zero_marks_free (ks_m ex_kst) 0); [exact ex_mok|reflexivity| |reflexivity].
  apply (bool_decide_unpack _). vm_compute. exact I.
Defined.
