(* ===== verification/SchedInv.v ===== *)
(** * The scheduler runs a process on at most one CPU

    Any number of CPUs execute the code of proc.c, interleaved at the points
    where [ptable.lock] is taken and given up.  A step is a piece of that
    code run on the current CPU; [Move] lets another CPU go on.  The
    invariant [single] is preserved by every step: a process that is RUNNING
    runs on exactly one CPU, no two CPUs have the same process, and a CPU
    whose process is not RUNNING holds [ptable.lock]. *)

From S2P Require Import Prelude Bytes Spinlock Sched Kalloc Vm Pipe File Proc Frame ProcThms.

(** ** What locking does not change *)

Definition cproc (s : smp) (x : nat) : option nat := cpus s !! x ≫= c_proc.

(** The CPUs differ in interrupt state and nesting only. *)
Definition same_procs (s s' : smp) : Prop :=
  cur s' = cur s ∧ length (cpus s') = length (cpus s) ∧ ∀ x, cproc s' x = cproc s x.

Lemma same_procs_trans s1 s2 s3 : same_procs s1 s2 → same_procs s2 s3 → same_procs s1 s3.
Proof. intros (A & B & C) (A' & B' & C'). split_and!; [congruence..|]. intros. by rewrite C', C. Qed.

Lemma set_cpu_procs f s : (∀ c, c_proc (f c) = c_proc c) → same_procs s (set_cpu f s).
Proof.
  intros Hf. split_and!; [done|cbn; apply length_alter|]. intros x. unfold cproc. cbn.
  destruct (decide (cur s = x)) as [<-|Hne].
  - rewrite list_lookup_alter_eq. destruct (cpus s !! cur s); cbn; [apply Hf|done].
  - by rewrite list_lookup_alter_ne.
Qed.

Lemma set_lock_procs l k s : same_procs s (set_lock l k s).
Proof. done. Qed.

Definition quietly {A} (m : M smp A) : Prop :=
  ∀ s a s', m s = Ok a s' → same_procs s s' ∧ locks s' = locks s.

Lemma quietly_bind {A B} (m : M smp A) (k : A → M smp B) :
  quietly m → (∀ a, quietly (k a)) → quietly (bind m k).
Proof.
  intros Hm Hk s b s2 Hr. apply bind_inv in Hr as (a & s1 & H1 & H2).
  apply Hm in H1 as [P1 L1]. apply Hk in H2 as [P2 L2].
  split; [by eapply same_procs_trans|congruence].
Qed.
Lemma quietly_ret {A} (a : A) : quietly (ret a).
Proof. intros s b s' Hr. cbv in Hr. by simplify_eq. Qed.
Lemma quietly_need {A} (o : option A) : quietly (need o).
Proof. destruct o; [apply quietly_ret|by intros ???]. Qed.
Lemma quietly_get : quietly get.
Proof. intros s b s' Hr. cbv in Hr. by simplify_eq. Qed.
Lemma quietly_cpu f : (∀ c, c_proc (f c) = c_proc c) → quietly (modify (set_cpu f)).
Proof. intros Hf s [] s' Hr. cbv [modify] in Hr. simplify_eq. split; [by apply set_cpu_procs|done]. Qed.
Lemma quietly_when b m : quietly m → quietly (whenM b m).
Proof. intros. destruct b; [done|apply quietly_ret]. Qed.

Ltac quiet := repeat first
  [ apply quietly_bind; [|intros ?] | apply quietly_ret | apply quietly_need | apply quietly_get
  | apply quietly_cpu; done | apply quietly_when
  | match goal with |- quietly (if ?b then _ else _) => destruct b end
  | by intros ? ? ? ?].

Lemma pushcli_quietly : quietly pushcli.
Proof. unfold pushcli, read_if, mycpu, cli. quiet. Qed.
Lemma popcli_quietly : quietly popcli.
Proof. unfold popcli, read_if, mycpu, sti. quiet. Qed.

Lemma acquire_run l s s' : acquire l s = Ok tt s' →
  same_procs s s' ∧ locks s' = <[l := mkLock 1 (Some (cur s))]> (locks s) ∧ lk_locked (locks s l) = 0.
Proof.
  unfold acquire. intros Hr. apply bind_inv in Hr as ([] & s1 & H1 & Hr).
  apply pushcli_quietly in H1 as [P1 L1]. apply bind_inv in Hr as (h & s2 & H2 & Hr).
  cbv [holding bind get ret] in H2. injection H2 as <- <-. case_match; [done|].
  apply bind_inv in Hr as (old & s3 & H3 & Hr). cbv [xchg bind get modify ret] in H3.
  injection H3 as <- <-. case_match eqn:E; [done|]. cbv [bind get modify] in Hr. injection Hr as <-.
  apply negb_false_iff, Z.eqb_eq in E. rewrite L1 in E. destruct P1 as (Pc & Pl & Pp).
  split; [exact (conj Pc (conj Pl Pp))|]. split; [|done].
  cbn. rewrite fn_insert_same. cbn. by rewrite fn_insert_insert, L1, Pc.
Qed.

Lemma release_run l s s' : release l s = Ok tt s' →
  same_procs s s' ∧ locks s' = <[l := free_lock]> (locks s) ∧ held s l = true.
Proof.
  unfold release. intros Hr. apply bind_inv in Hr as (h & s1 & H1 & Hr).
  cbv [holding bind get ret] in H1. injection H1 as <- <-. fold (held s l) in Hr.
  destruct (held s l) eqn:E; cbn [negb] in Hr; [|done].
  apply bind_inv in Hr as (s2 & s3 & H2 & Hr). cbv [get] in H2. injection H2 as <- <-.
  apply bind_inv in Hr as ([] & s4 & H4 & Hr). cbv [modify] in H4. injection H4 as <-.
  apply bind_inv in Hr as (old & s5 & H5 & Hr). cbv [xchg bind get modify ret] in H5. injection H5 as <- <-.
  apply popcli_quietly in Hr as [P L]. split_and!; [|by cbn in L; rewrite L, fn_insert_same, fn_insert_insert|done].
  exact P.
Qed.

(** ** The transition system *)

Definition owner (m : mach) : option nat :=
  let k := locks (m_smp m) L_ptable in if lk_locked k =? 0 then None else lk_cpu k.
Definition pcpu (m : mach) (x : nat) : option nat := cproc (m_smp m) x.
Definition is_running (m : mach) (j : nat) : Prop :=
  ∃ p, ptable m !! j = Some p ∧ p_state p = RUNNING.

(** The current CPU executes process [j]. *)
Definition executes (m : mach) (j : nat) : Prop := pcpu m (cur (m_smp m)) = Some j ∧ is_running m j.

(** The end of [fork]. *)
Definition make_runnable (np : nat) : M mach unit :=
  smpM (acquire L_ptable) ;;; setproc np (with_state RUNNABLE) ;;; smpM (release L_ptable).

Inductive pstep (m m' : mach) : Prop :=
  | Move x : m' = set_smp (mkSmp x (cpus (m_smp m)) (locks (m_smp m))) m → pstep m m'
  | Start : pcpu m (cur (m_smp m)) = None → scheduler_start m = Ok tt m' → pstep m m'
  | Pick a j : pcpu m (cur (m_smp m)) = None → owner m = Some (cur (m_smp m)) →
      scheduler_scan a m = Ok (Some j) m' → pstep m m'
  | NoPick a : scheduler_scan a m = Ok None m' → pstep m m'
  | End : pcpu m (cur (m_smp m)) = None → scheduler_end m = Ok tt m' → pstep m m'
  | Resume e j : executes m j → yield_resume e m = Ok tt m' → pstep m m'
  | Resume_sleep e lk j : executes m j → sleep_resume e lk m = Ok tt m' → pstep m m'
  | First j : executes m j → smpM (release L_ptable) m = Ok tt m' → pstep m m'
  | Yield j : executes m j → yield m = Stop Switch m' → pstep m m'
  | Sleep c lk j : executes m j → sleep c lk m = Stop Switch m' → pstep m m'
  | Exit j : executes m j → (smpM (acquire L_ptable) ;;; exit_locked j) m = Stop Switch m' → pstep m m'
  | Back j : pcpu m (cur (m_smp m)) = Some j → owner m = Some (cur (m_smp m)) → ¬ is_running m j →
      scheduler_back m = Ok tt m' → pstep m m'
  | Wakeup c : wakeup c m = Ok tt m' → pstep m m'
  | Kill pid r : kill pid m = Ok r m' → pstep m m'
  | Alloc r : alloc_slot m = Ok r m' → pstep m m'
  | Forked np p : ptable m !! np = Some p → p_state p = EMBRYO → make_runnable np m = Ok tt m' → pstep m m'.

Record single (m : mach) : Prop := {
  si_len : length (ptable m) = NPROC;
  si_inj x y j : pcpu m x = Some j → pcpu m y = Some j → x = y;
  si_held x j : pcpu m x = Some j → is_running m j ∨ owner m = Some x;
  si_cpu j : is_running m j → ∃ x, pcpu m x = Some j
}.

(** Steps that change no CPU's process and no RUNNING state. *)
Definition same_running (m m' : mach) : Prop :=
  length (ptable m') = length (ptable m) ∧ (∀ x, pcpu m' x = pcpu m x) ∧
  (∀ j, is_running m' j ↔ is_running m j).

Lemma single_same m m' : single m → same_running m m' →
  (∀ x j, pcpu m x = Some j → owner m = Some x → is_running m j ∨ owner m' = Some x) → single m'.
Proof.
  intros [Hl Hi Hh Hc] (El & Ep & Er) Ho. split.
  - congruence.
  - intros x y j. rewrite !Ep. apply Hi.
  - intros x j. rewrite Ep, Er. intros Hx. destruct (Hh x j Hx); eauto.
  - intros j. rewrite Er. intros Hj. destruct (Hc j Hj) as [x Hx]. exists x. by rewrite Ep.
Qed.

(** ** Effects of the code on CPUs, owner and table *)

Lemma bind_stop_inv {S A B} (m : M S A) (k : A → M S B) s e s' :
  (bind m k) s = Stop e s' → m s = Stop e s' ∨ ∃ a s1, m s = Ok a s1 ∧ k a s1 = Stop e s'.
Proof. unfold bind. destruct (m s); [eauto|]. intros ?. simplify_eq. auto. Qed.

Lemma lock_acquired l m m' : smpM (acquire l) m = Ok tt m' →
  ptable m' = ptable m ∧ cur (m_smp m') = cur (m_smp m) ∧ (∀ x, pcpu m' x = pcpu m x) ∧
  owner m' = (if decide (l = L_ptable) then Some (cur (m_smp m)) else owner m) ∧
  (l = L_ptable → owner m = None).
Proof.
  unfold lift. destruct (acquire l (m_smp m)) as [[] s1|] eqn:E; [|done]. intros ?. simplify_eq.
  apply acquire_run in E as ((Hc & _ & Hp) & Hl & H0). unfold owner, pcpu. cbn [m_smp set_smp]. rewrite Hl.
  split_and!; [done|done|done| |].
  - case_decide as D; [subst; by rewrite fn_insert_same|by rewrite fn_lookup_insert_ne].
  - intros ->. by rewrite H0.
Qed.

Lemma lock_released l m m' : smpM (release l) m = Ok tt m' →
  ptable m' = ptable m ∧ cur (m_smp m') = cur (m_smp m) ∧ (∀ x, pcpu m' x = pcpu m x) ∧
  owner m' = (if decide (l = L_ptable) then None else owner m) ∧
  (l = L_ptable → owner m = Some (cur (m_smp m))).
Proof.
  unfold lift. destruct (release l (m_smp m)) as [[] s1|] eqn:E; [|done]. intros ?. simplify_eq.
  apply release_run in E as ((Hc & _ & Hp) & Hl & Hh). unfold owner, pcpu. cbn [m_smp set_smp]. rewrite Hl.
  split_and!; [done|done|done| |].
  - case_decide as D; [subst; by rewrite fn_insert_same|by rewrite fn_lookup_insert_ne].
  - intros ->. unfold held in Hh. apply andb_true_iff in Hh as [->%negb_true_iff Hb].
    by apply bool_decide_eq_true in Hb.
Qed.

(** Code that does not reach [swtch]. *)
Definition no_switch {S A} (m : M S A) : Prop := ∀ s s', m s ≠ Stop Switch s'.

Lemma no_switch_bind {S A B} (m : M S A) (k : A → M S B) :
  no_switch m → (∀ a, no_switch (k a)) → no_switch (bind m k).
Proof. intros Hm Hk s s' Hr. apply bind_stop_inv in Hr as [Hr|(? & ? & _ & Hr)]; [by apply Hm in Hr|by apply Hk in Hr]. Qed.
Lemma no_switch_need {S A} (o : option A) : no_switch (S := S) (need o).
Proof. by destruct o. Qed.
Lemma no_switch_when {S} b (m : M S unit) : no_switch m → no_switch (whenM b m).
Proof. by destruct b. Qed.
Lemma no_switch_lift {S T A} (g : T → S) p (m : M S A) : no_switch m → no_switch (lift g p m).
Proof. intros Hm t t'. unfold lift. destruct (m (g t)) eqn:E; [done|]. intros ?. simplify_eq. by apply Hm in E. Qed.

Ltac no_switch := repeat first
  [ apply no_switch_bind; [|intros ?] | apply no_switch_need | apply no_switch_when | apply no_switch_lift
  | match goal with |- no_switch (if ?b then _ else _) => destruct b end
  | by intros ? ?].

Lemma acquire_no_switch l : no_switch (acquire l).
Proof. unfold acquire, pushcli, read_if, mycpu, cli, holding, xchg. no_switch. Qed.
Lemma release_no_switch l : no_switch (release l).
Proof. unfold release, popcli, read_if, mycpu, sti, holding, xchg. no_switch. Qed.

(** Code that only reads the state. *)
Definition reads {S A} (m : M S A) : Prop := ∀ s, match m s with Ok _ s' | Stop _ s' => s' = s end.

Lemma reads_bind {S A B} (m : M S A) (k : A → M S B) : reads m → (∀ a, reads (k a)) → reads (bind m k).
Proof.
  intros Hm Hk s. specialize (Hm s). unfold bind. destruct (m s); [|done]. subst. apply Hk.
Qed.
Lemma reads_need {S A} (o : option A) : reads (S := S) (need o).
Proof. by destruct o. Qed.
Lemma reads_smp {A} (m : M smp A) : reads m → reads (smpM m).
Proof. intros Hm s. specialize (Hm (m_smp s)). unfold lift. destruct (m _); subst; by destruct s. Qed.

Ltac reads := repeat first
  [ apply reads_bind; [|intros ?] | apply reads_need | apply reads_smp
  | match goal with |- reads (if ?b then _ else _) => destruct b end
  | by intros ?].

Lemma sched_reads : reads sched.
Proof. unfold sched, curproc, myproc, holding, mycpu, getproc. reads. Qed.

(** Changing one slot keeps who is running if it keeps the slot's RUNNING state. *)
Lemma same_running_alter m i f :
  (∀ p, ptable m !! i = Some p → p_state (f p) = RUNNING ↔ p_state p = RUNNING) →
  same_running m (set_ptable (alter f i (ptable m)) m).
Proof.
  intros Hf. split_and!; [cbn; apply length_alter|done|]. intros j. unfold is_running. cbn.
  destruct (decide (i = j)) as [<-|Hne]; [|by rewrite list_lookup_alter_ne].
  rewrite list_lookup_alter_eq. destruct (ptable m !! i) as [p|] eqn:E; cbn; [|naive_solver].
  specialize (Hf p eq_refl). naive_solver.
Qed.

Definition run_at (t : list proc) (j : nat) : Prop := ∃ p, t !! j = Some p ∧ p_state p = RUNNING.

Lemma run_at_fmap f t j : (∀ p, p_state (f p) = RUNNING ↔ p_state p = RUNNING) →
  run_at (f <$> t) j ↔ run_at t j.
Proof.
  intros Hf. unfold run_at. rewrite list_lookup_fmap. destruct (t !! j) as [p|]; cbn; [|naive_solver].
  specialize (Hf p). naive_solver.
Qed.

Lemma same_running_fmap m f : (∀ p, p_state (f p) = RUNNING ↔ p_state p = RUNNING) →
  same_running m (set_ptable (f <$> ptable m) m).
Proof.
  intros Hf. split_and!; [cbn; apply length_fmap|done|]. intros j. by apply run_at_fmap.
Qed.

Lemma wake_running c p : p_state (wake c p) = RUNNING ↔ p_state p = RUNNING.
Proof.
  unfold wake. destruct (_ && _) eqn:E; [|done]. apply andb_true_iff in E as [E%bool_decide_eq_true _].
  cbn. by rewrite E.
Qed.

Lemma run_at_wake o t j : run_at (wake_opt o t) j ↔ run_at t j.
Proof. destruct o; [|done]. apply run_at_fmap. intros. apply wake_running. Qed.

Lemma run_at_orphans me ip t j : run_at (orphans me ip 0 t) j ↔ run_at t j.
Proof.
  assert (run_at (reparent me ip <$> t) j ↔ run_at t j) as Hr.
  { apply run_at_fmap. intros q. unfold reparent. by destruct (is_parent me q). }
  unfold orphans. cbn [take app]. rewrite drop_0. destruct (existsb _ _); [by rewrite run_at_wake|done].
Qed.

Lemma same_running_trans m1 m2 m3 : same_running m1 m2 → same_running m2 m3 → same_running m1 m3.
Proof.
  intros (A & B & C) (A' & B' & C'). split_and!; [congruence|intros; by rewrite B', B|].
  intros j. by rewrite C', C.
Qed.

(** Only the locks differ. *)
Lemma same_running_locks m m' : ptable m' = ptable m → (∀ x, pcpu m' x = pcpu m x) → same_running m m'.
Proof. intros Ht Hp. unfold same_running, is_running. rewrite Ht. done. Qed.

(** ** The steps *)

(** Releasing is harmless when the process of the CPU, if any, is RUNNING. *)
Lemma single_release m m' : single m → (∀ j, pcpu m (cur (m_smp m)) = Some j → is_running m j) →
  smpM (release L_ptable) m = Ok tt m' → single m'.
Proof.
  intros Hs Hr Hm. apply lock_released in Hm as (Ht & Hc & Hp & Ho & Hown).
  apply (single_same m); [done|by apply same_running_locks|].
  intros x j Hx Hxo. rewrite (Hown eq_refl) in Hxo. simplify_eq. left. by apply Hr.
Qed.

Lemma single_acquire m m' l : single m → smpM (acquire l) m = Ok tt m' → single m'.
Proof.
  intros Hs Hm. apply lock_acquired in Hm as (Ht & Hc & Hp & Ho & Hown).
  apply (single_same m); [done|by apply same_running_locks|].
  intros x j Hx Hxo. right. rewrite Ho. case_decide; [|done]. subst. rewrite Hown in Hxo; done.
Qed.

(** A lock other than [ptable.lock]. *)
Lemma single_release_other m m' l : l ≠ L_ptable → single m → smpM (release l) m = Ok tt m' → single m'.
Proof.
  intros Hne Hs Hm. apply lock_released in Hm as (Ht & Hc & Hp & Ho & _).
  rewrite decide_False in Ho by done.
  apply (single_same m); [done|by apply same_running_locks|]. intros x j _ Hx. right. congruence.
Qed.

(** Changes of slots that keep the RUNNING states. *)
Lemma single_table m t : single m → same_running m (set_ptable t m) → single (set_ptable t m).
Proof. intros Hs Hr. apply (single_same m); auto. Qed.

(** The whole section of a thread that holds the lock in between only. *)
Lemma single_section m m1 m2 m' : single m → smpM (acquire L_ptable) m = Ok tt m1 →
  same_running m1 m2 → smpM (release L_ptable) m2 = Ok tt m' → single m'.
Proof.
  intros Hs Ha Hr Hm. apply lock_acquired in Ha as (Ht & Hc & Hp & Ho & Hown).
  apply lock_released in Hm as (Ht' & Hc' & Hp' & Ho' & _).
  apply (single_same m); [done| |].
  - eapply same_running_trans; [by apply same_running_locks|].
    eapply same_running_trans; [exact Hr|by apply same_running_locks].
  - intros x j _. by rewrite Hown.
Qed.

Lemma single_wakeup c m m' : single m → wakeup c m = Ok tt m' → single m'.
Proof.
  intros Hs Hm. unfold wakeup in Hm. apply bind_inv in Hm as ([] & m1 & H1 & Hm).
  apply bind_inv in Hm as ([] & m2 & H2 & Hm). rewrite wakeup1_ok in H2.
  - simplify_eq. eapply single_section; [done|done| |done]. apply same_running_fmap, wake_running.
  - apply lock_acquired in H1 as (-> & _). apply Hs.
Qed.

Lemma kill_each pid l m r m' : for_each l (kill_body pid) m = Ok r m' →
  match r with
  | None => m' = m
  | Some _ => ∃ m1, same_running m m1 ∧ smpM (release L_ptable) m1 = Ok tt m'
  end.
Proof.
  induction l as [|i l IH]; cbn [for_each].
  - intros Hr. cbv in Hr. by simplify_eq.
  - intros Hr. apply bind_inv in Hr as (o & m1 & H1 & Hr). unfold kill_body in H1.
    apply bind_inv in H1 as (p & m2 & H2 & H1). unfold getproc in H2.
    apply bind_inv in H2 as (m3 & m4 & H3 & H2). cbv [get] in H3. simplify_eq.
    destruct (ptable m4 !! i) as [p'|] eqn:Ep; [|done]. cbv [need ret] in H2. simplify_eq.
    destruct (p_pid p =? pid); [|cbv [ret] in H1; simplify_eq; by apply IH].
    apply bind_inv in H1 as ([] & m3 & H3 & H1). cbv [setproc bind get put] in H3. simplify_eq.
    apply bind_inv in H1 as ([] & m3 & H3 & H1). apply bind_inv in H1 as ([] & m4' & H4 & H1).
    cbv [ret] in H1. simplify_eq. cbv [ret] in Hr. simplify_eq. exists m3. split; [|done].
    eapply same_running_trans; [apply (same_running_alter m2 i (with_killed true)); done|].
    case_bool_decide as D; cbv [whenM ret setproc bind get put] in H3; simplify_eq; [|done].
    apply same_running_alter. cbn. intros q. rewrite list_lookup_alter_eq, Ep. cbn. intros ?. simplify_eq.
    cbn. by rewrite D.
Qed.

Lemma single_kill pid m r m' : single m → kill pid m = Ok r m' → single m'.
Proof.
  intros Hs Hm. unfold kill in Hm. apply bind_inv in Hm as ([] & m1 & H1 & Hm).
  apply bind_inv in Hm as (o & m2 & H2 & Hm). apply kill_each in H2. destruct o as [v|].
  - destruct H2 as (m3 & Hr & H3). cbv [ret] in Hm. simplify_eq. by eapply single_section.
  - subst. apply bind_inv in Hm as ([] & m3 & H3 & Hm). cbv [ret] in Hm. simplify_eq.
    by eapply single_section.
Qed.

Lemma single_alloc m r m' : single m → alloc_slot m = Ok r m' → single m'.
Proof.
  intros Hs Hm. unfold alloc_slot in Hm. apply bind_inv in Hm as ([] & m1 & H1 & Hm).
  assert (length (ptable m1) = NPROC) as Hl by (apply lock_acquired in H1 as (-> & _); apply Hs).
  apply bind_inv in Hm as (o & m2 & H2 & Hm). change (λ i : nat, _) with
    (λ i, p ← getproc i; ret (if unused p then Some i else None)) in H2.
  rewrite (search_loop unused NPROC 0 m1) in H2 by done. simplify_eq. rewrite drop_0 in Hm.
  destruct (find_proc unused (ptable m2)) as [i|] eqn:E; cbn in Hm.
  - destruct (find_proc_Some _ _ _ E) as (p & Hp & Hu & _). unfold unused in Hu.
    apply bool_decide_eq_true in Hu.
    apply bind_inv in Hm as ([] & m3 & H3 & Hm). cbv [ret] in Hm. simplify_eq.
    eapply (single_section m m2 _ m' Hs H1); [|exact H3].
    eapply same_running_trans; [apply (same_running_alter m2 i (with_state EMBRYO))|].
    { intros q Hq. cbn. rewrite Hp in Hq. simplify_eq. by rewrite Hu. }
    eapply same_running_trans; [apply (same_running_alter _ i (with_pid (nextpid m2))); done|].
    done.
  - apply bind_inv in Hm as ([] & m3 & H3 & Hm). cbv [ret] in Hm. simplify_eq.
    by eapply (single_section m m2 m2).
Qed.

Lemma single_forked np p m m' : single m → ptable m !! np = Some p → p_state p = EMBRYO →
  make_runnable np m = Ok tt m' → single m'.
Proof.
  intros Hs Hp He Hm. unfold make_runnable in Hm. apply bind_inv in Hm as ([] & m1 & H1 & Hm).
  apply bind_inv in Hm as ([] & m2 & H2 & Hm). cbv [setproc bind get put] in H2. simplify_eq.
  eapply (single_section m m1 _ m' Hs H1); [|exact Hm]. apply same_running_alter.
  apply lock_acquired in H1 as (-> & _). intros q Hq. rewrite Hp in Hq. simplify_eq. cbn. by rewrite He.
Qed.

(** The process of the CPU stops RUNNING while the CPU holds the lock. *)
Lemma single_gave_up m m1 j t : single m1 → cur (m_smp m1) = cur (m_smp m) →
  pcpu m1 (cur (m_smp m)) = Some j → owner m1 = Some (cur (m_smp m)) → length t = NPROC →
  (∀ i, is_running (set_ptable t m1) i ↔ is_running m1 i ∧ i ≠ j) →
  single (set_ptable t m1).
Proof.
  intros [Hl Hi Hh Hc] Ec Hj Ho Ht Hr. split; [done|exact Hi| |].
  - intros x i Hx. destruct (decide (i = j)) as [->|Hne].
    + right. change (owner m1 = Some x). by rewrite Ho, (Hi _ _ _ Hx Hj).
    + destruct (Hh x i Hx) as [Hri|Hown]; [left; by apply Hr|right; done].
  - intros i [Hri _]%Hr. by apply Hc.
Qed.

(** Setting the state of slot [j]. *)
Lemma stopped_alter m j f : (∀ p, p_state (f p) ≠ RUNNING) →
  ∀ i, is_running (set_ptable (alter f j (ptable m)) m) i ↔ is_running m i ∧ i ≠ j.
Proof.
  intros Hf i. unfold is_running. cbn. destruct (decide (j = i)) as [<-|Hne].
  - rewrite list_lookup_alter_eq. destruct (ptable m !! j); cbn; naive_solver.
  - rewrite list_lookup_alter_ne by done. naive_solver.
Qed.

Lemma sched_switch m m' : sched m = Stop Switch m' → m' = m.
Proof. intros Hr. pose proof (sched_reads m) as Hs. by rewrite Hr in Hs. Qed.

(** [sched] checks that the caller holds the lock. *)
Lemma sched_owner m m' : sched m = Stop Switch m' → owner m = Some (cur (m_smp m)).
Proof.
  unfold sched, holding, lift, owner. go. cbn.
  destruct (_ =? 0); cbn; [done|]. case_bool_decide; [done|done].
Qed.

Lemma curproc_ok m j : pcpu m (cur (m_smp m)) = Some j → curproc m = Ok j m ∧ myproc m = Ok (Some j) m.
Proof.
  unfold pcpu, cproc, curproc, myproc, mycpu. go. unfold lift. cbn.
  destruct (cpus (m_smp m) !! cur (m_smp m)) as [c|]; cbn; [|done]. intros ->. by destruct m.
Qed.

Lemma bind_switch {A B} (f : M mach A) (k : A → M mach B) m m' :
  no_switch f → (bind f k) m = Stop Switch m' → ∃ a m1, f m = Ok a m1 ∧ k a m1 = Stop Switch m'.
Proof. intros Hf Hr. apply bind_stop_inv in Hr as [Hr|]; [by apply Hf in Hr|done]. Qed.

Lemma acquireM_no_switch l : no_switch (smpM (acquire l)).
Proof. apply no_switch_lift, acquire_no_switch. Qed.
Lemma releaseM_no_switch l : no_switch (smpM (release l)).
Proof. apply no_switch_lift, release_no_switch. Qed.

Lemma single_yield j m m' : single m → executes m j → yield m = Stop Switch m' → single m'.
Proof.
  intros Hs [Hj Hrj] Hm. apply (bind_switch _ _ _ _ (acquireM_no_switch _)) in Hm as ([] & m1 & H1 & Hm).
  pose proof (single_acquire _ _ _ Hs H1) as Hs1.
  apply lock_acquired in H1 as (Ht & Hc & Hp & Ho & _). rewrite decide_True in Ho by done.
  rewrite (bind_ok _ _ _ j m1) in Hm by (apply curproc_ok; by rewrite Hc, Hp).
  rewrite (bind_ok _ _ _ tt (set_ptable (alter (with_state RUNNABLE) j (ptable m1)) m1)) in Hm by done.
  apply sched_switch in Hm as ->.
  apply (single_gave_up m _ j); [done..|by rewrite Hp|done|rewrite length_alter; apply Hs1|].
  by apply stopped_alter.
Qed.

Lemma single_exit j m m' : single m → executes m j →
  (smpM (acquire L_ptable) ;;; exit_locked j) m = Stop Switch m' → single m'.
Proof.
  intros Hs [Hj (p & Hp & Hrp)] Hm.
  apply (bind_switch _ _ _ _ (acquireM_no_switch _)) in Hm as ([] & m1 & H1 & Hm).
  pose proof (single_acquire _ _ _ Hs H1) as Hs1.
  apply lock_acquired in H1 as (Ht & Hc & Hpc & Ho & _). rewrite decide_True in Ho by done.
  rewrite (exit_locked_eq _ _ p) in Hm by (congruence || apply Hs1).
  apply bind_stop_inv in Hm as [->%sched_switch|([] & m2 & _ & Hm)]; [|done].
  apply (single_gave_up m _ j); [done..|by rewrite Hpc|done|by rewrite exit_table_length; apply Hs1|].
  intros i. unfold exit_table.
  rewrite (stopped_alter (set_ptable (orphans j (initproc m1) 0 (wake_opt (p_parent p) (ptable m1))) m1) j
    (with_state ZOMBIE)) by done.
  change (run_at (orphans j (initproc m1) 0 (wake_opt (p_parent p) (ptable m1))) i ∧ i ≠ j ↔
    run_at (ptable m1) i ∧ i ≠ j). by rewrite run_at_orphans, run_at_wake.
Qed.

Lemma single_sleep c lk j m m' : single m → executes m j → sleep c lk m = Stop Switch m' → single m'.
Proof.
  intros Hs [Hj Hrj] Hm. unfold sleep in Hm.
  rewrite (bind_ok _ _ _ (Some j) m) in Hm by (by apply curproc_ok).
  assert (∀ m1, single m1 → cur (m_smp m1) = cur (m_smp m) → pcpu m1 (cur (m_smp m)) = Some j →
    (setproc j (with_chan (Some c)) ;;; setproc j (with_state SLEEPING) ;;; sched) m1 = Stop Switch m' →
    single m') as Hend.
  { intros m1 Hs1 Hc1 Hp1 Hr. set (m2 := set_ptable (alter (with_chan (Some c)) j (ptable m1)) m1).
    change (sched (set_ptable (alter (with_state SLEEPING) j (ptable m2)) m2) = Stop Switch m') in Hr.
    pose proof (sched_owner _ _ Hr) as Ho. apply sched_switch in Hr as ->.
    apply (single_gave_up m m2 j); try done.
    - apply single_table; [done|]. by apply same_running_alter.
    - cbn in Ho. by rewrite <- Hc1.
    - cbn. rewrite !length_alter. apply Hs1.
    - by apply stopped_alter. }
  case_decide as D; [by apply (Hend m)|].
  apply bind_switch in Hm as ([] & m1 & H1 & Hm).
  - apply bind_inv in H1 as ([] & m2 & H2 & H1).
    assert (single m1) as Hs1.
    { eapply single_release_other; [done|by eapply single_acquire|done]. }
    apply lock_released in H1 as (_ & Hc1 & Hp1 & _). apply lock_acquired in H2 as (_ & Hc2 & Hp2 & _).
    apply (Hend m1); [done|congruence|by rewrite Hp1, Hp2|done].
  - apply no_switch_bind; [apply acquireM_no_switch|intros; apply releaseM_no_switch].
Qed.

(** ** Steps of the scheduler *)

Lemma single_move x m : single m → single (set_smp (mkSmp x (cpus (m_smp m)) (locks (m_smp m))) m).
Proof. intros Hs. apply (single_same m); [done|done|auto]. Qed.

Lemma quiet_single (f : M smp unit) m m' : quietly f → single m → smpM f m = Ok tt m' → single m'.
Proof.
  intros Hf Hs. unfold lift. destruct (f (m_smp m)) as [[] s1|] eqn:E; [|done]. intros ?. simplify_eq.
  apply Hf in E as [(_ & _ & Hp) Hl]. apply (single_same m); [done|by apply same_running_locks|].
  intros x j _ Ho. right. unfold owner in *. cbn. by rewrite Hl.
Qed.

Lemma single_start m m' : single m → scheduler_start m = Ok tt m' → single m'.
Proof.
  intros Hs Hm. apply bind_inv in Hm as ([] & m1 & H1 & Hm). eapply single_acquire; [|done].
  eapply quiet_single; [|done|done]. unfold sti. quiet.
Qed.

(** What [scheduler_scan] does when it finds a process. *)
Lemma scan_run a m r m' : scheduler_scan a m = Ok r m' →
  match r with
  | None => m' = m
  | Some j => ∃ p, ptable m !! j = Some p ∧ p_state p = RUNNABLE ∧
      ptable m' = <[j := with_state RUNNING p]> (ptable m) ∧ owner m' = owner m ∧
      pcpu m' (cur (m_smp m)) = Some j ∧ ∀ x, x ≠ cur (m_smp m) → pcpu m' x = pcpu m x
  end.
Proof.
  unfold scheduler_scan. generalize (seq a (NPROC - a)) as l. induction l as [|j l IH]; cbn [for_each].
  { intros Hr. cbv in Hr. by simplify_eq. }
  intros Hr. apply bind_inv in Hr as (o & m1 & H1 & Hr). unfold getproc in H1.
  apply bind_inv in H1 as (p & m2 & H2 & H1). apply bind_inv in H2 as (m3 & m4 & H3 & H2).
  cbv [get] in H3. simplify_eq. destruct (ptable m4 !! j) as [p'|] eqn:Ep; [|done].
  cbv [need ret] in H2. simplify_eq. case_bool_decide as D; cbn [negb] in H1.
  2:{ cbv [ret] in H1. simplify_eq. by apply IH. }
  apply bind_inv in H1 as ([] & m3 & H3 & H1). cbv [lift set_cpu_proc modify] in H3. simplify_eq.
  apply bind_inv in H1 as ([] & m4 & H4 & H1). apply bind_inv in H1 as ([] & m5 & H5 & H1).
  cbv [setproc bind get put] in H5. cbv [ret] in H1. simplify_eq. cbv [ret] in Hr. simplify_eq.
  exists p. unfold switchuvm in H4. apply bind_inv in H4 as ([] & m6 & H6 & H4).
  revert H6. unfold lift at 1. destruct (pushcli _) as [[] s1|] eqn:E1; [|done]. intros ?. simplify_eq.
  destruct (p_pgdir p =? 0); [done|]. revert H4. unfold lift. destruct (popcli _) as [[] s2|] eqn:E2; [|done].
  intros ?. simplify_eq. cbn in E2.
  assert (∃ c, cpus (m_smp m2) !! cur (m_smp m2) = Some c) as [c Hc].
  { unfold pushcli, read_if, mycpu in E1. cbn in E1. apply bind_inv in E1 as (? & ? & E1 & _).
    apply bind_inv in E1 as (c' & ? & E1 & _). cbv [bind get need] in E1. cbn in E1.
    rewrite list_lookup_alter_eq in E1. destruct (cpus (m_smp m2) !! cur (m_smp m2)); [by eexists|done]. }
  apply pushcli_quietly in E1 as [(_ & _ & P1) L1]. apply popcli_quietly in E2 as [(_ & _ & P2) L2].
  unfold pcpu, owner. cbn [m_smp set_ptable set_smp ptable]. rewrite L2, L1.
  split_and!; [done..|by rewrite (list_alter_insert _ _ _ _ Ep)|done| |].
  - rewrite P2, P1. unfold cproc. cbn. by rewrite list_lookup_alter_eq, Hc.
  - intros x Hx. rewrite P2, P1. unfold cproc. cbn. by rewrite list_lookup_alter_ne.
Qed.

Lemma single_pick a j m m' : single m → pcpu m (cur (m_smp m)) = None → owner m = Some (cur (m_smp m)) →
  scheduler_scan a m = Ok (Some j) m' → single m'.
Proof.
  intros [Hl Hi Hh Hc] Hn Ho Hm. apply scan_run in Hm as (p & Hp & Hr & Et & Eo & Ej & Ex).
  assert (∀ x, pcpu m x ≠ Some j) as Hfree.
  { intros x Hx. destruct (Hh x j Hx) as [(q & Hq & Hrq)|Hx']; [congruence|].
    rewrite Ho in Hx'. congruence. }
  assert (∀ i, is_running m' i ↔ is_running m i ∨ i = j) as Er.
  { intros i. unfold is_running. rewrite Et. destruct (decide (j = i)) as [<-|Hne].
    - rewrite list_lookup_insert_eq by eauto using lookup_lt_Some. naive_solver.
    - rewrite list_lookup_insert_ne by done. naive_solver. }
  assert (∀ x i, pcpu m' x = Some i → (x = cur (m_smp m) ∧ i = j) ∨ (x ≠ cur (m_smp m) ∧ pcpu m x = Some i)) as Hx.
  { intros x i Hxi. destruct (decide (x = cur (m_smp m))) as [->|Hne]; [left|right].
    - split; congruence.
    - by rewrite Ex in Hxi. }
  split.
  - by rewrite Et, length_insert.
  - intros x y i [[-> ->]|[Hx1 Hx2]]%Hx [[-> ?]|[Hy1 Hy2]]%Hx; simplify_eq; try done;
      [by apply Hfree in Hy2|by apply Hfree in Hx2|by eapply Hi].
  - intros x i [[-> ->]|[Hx1 Hx2]]%Hx; [left; apply Er; auto|].
    destruct (Hh x i Hx2); [left; apply Er; auto|right; congruence].
  - intros i [Hri| ->]%Er; [|eauto]. destruct (Hc i Hri) as [x Hxi]. exists x.
    rewrite Ex; [done|]. intros ->. congruence.
Qed.

Lemma single_back j m m' : single m → pcpu m (cur (m_smp m)) = Some j → ¬ is_running m j →
  scheduler_back m = Ok tt m' → single m'.
Proof.
  intros [Hl Hi Hh Hc] Hj Hnr Hm. cbv [scheduler_back lift set_cpu_proc modify] in Hm. simplify_eq.
  set (m' := set_smp _ m).
  assert (∀ x i, pcpu m' x = Some i → x ≠ cur (m_smp m) ∧ pcpu m x = Some i) as Hx.
  { intros x i. unfold pcpu, cproc, m'. cbn. destruct (decide (cur (m_smp m) = x)) as [<-|Hne].
    - rewrite list_lookup_alter_eq. by destruct (cpus (m_smp m) !! cur (m_smp m)).
    - rewrite list_lookup_alter_ne by done. auto. }
  assert (∀ x, x ≠ cur (m_smp m) → pcpu m' x = pcpu m x) as Hsame.
  { intros x Hne. unfold pcpu, cproc, m'. cbn. by rewrite list_lookup_alter_ne. }
  split.
  - done.
  - intros x y i [_ Hxi]%Hx [_ Hyi]%Hx. by eapply Hi.
  - intros x i [Hne Hxi]%Hx. by apply Hh.
  - intros i Hri. destruct (Hc i Hri) as [x Hxi]. exists x. rewrite Hsame; [done|].
    intros ->. rewrite Hj in Hxi. injection Hxi as ->. by apply Hnr.
Qed.

Lemma sched_resume_run e m : ∃ m1, sched_resume e m = Ok tt m1 ∧ (single m → single m1) ∧
  ptable m1 = ptable m ∧ cur (m_smp m1) = cur (m_smp m) ∧ ∀ x, pcpu m1 x = pcpu m x.
Proof.
  eexists. split; [reflexivity|].
  set (f := λ c, mkCpu (c_if c) (c_ncli c) e (c_proc c)).
  destruct (set_cpu_procs f (m_smp m)) as (_ & _ & Hp); [done|]. split_and!; [|done|done|exact Hp].
  intros Hs. apply (single_same m); [done|by apply same_running_locks|auto].
Qed.

Lemma executes_eq m m1 j : executes m j → ptable m1 = ptable m → cur (m_smp m1) = cur (m_smp m) →
  (∀ x, pcpu m1 x = pcpu m x) → ∀ i, pcpu m1 (cur (m_smp m1)) = Some i → is_running m1 i.
Proof. intros [Hj Hr] Ht Hc Hp i. rewrite Hc, Hp, Hj. intros ?. simplify_eq. unfold is_running. by rewrite Ht. Qed.

Lemma single_resume e j m m' : single m → executes m j → yield_resume e m = Ok tt m' → single m'.
Proof.
  intros Hs He Hm. destruct (sched_resume_run e m) as (m1 & H1 & Hs1 & Ht & Hc & Hp).
  unfold yield_resume in Hm. rewrite (bind_ok _ _ _ _ _ H1) in Hm.
  eapply single_release; [by apply Hs1| |done]. by eapply executes_eq.
Qed.

Lemma single_resume_sleep e lk j m m' : single m → executes m j → sleep_resume e lk m = Ok tt m' → single m'.
Proof.
  intros Hs He Hm. destruct (sched_resume_run e m) as (m1 & H1 & Hs1 & Ht & Hc & Hp).
  unfold sleep_resume in Hm. rewrite (bind_ok _ _ _ _ _ H1) in Hm.
  rewrite (bind_ok _ _ _ j m1) in Hm by (apply curproc_ok; rewrite Hc, Hp; apply He).
  set (m2 := set_ptable (alter (with_chan None) j (ptable m1)) m1) in *.
  rewrite (bind_ok _ _ _ tt m2) in Hm by done.
  assert (same_running m1 m2) as Hsr by (by apply same_running_alter).
  assert (single m2) as Hs2 by (apply single_table; auto).
  case_decide; [cbv [ret] in Hm; by simplify_eq|].
  apply bind_inv in Hm as ([] & m3 & H3 & Hm). eapply single_acquire; [|done].
  eapply single_release; [done| |done]. intros i Hi. apply Hsr.
  by eapply (executes_eq m m1 j He Ht Hc Hp).
Qed.

Lemma single_step m m' : single m → pstep m m' → single m'.
Proof.
  intros Hs [].
  - subst. by apply single_move.
  - by eapply single_start.
  - by eapply single_pick.
  - apply scan_run in H. by subst.
  - eapply single_release; [done| |done]. congruence.
  - by eapply single_resume.
  - by eapply single_resume_sleep.
  - eapply single_release; [done| |done]. by apply (executes_eq m m j).
  - by eapply single_yield.
  - by eapply single_sleep.
  - by eapply single_exit.
  - by eapply single_back.
  - by eapply single_wakeup.
  - by eapply single_kill.
  - by eapply single_alloc.
  - by eapply single_forked.
Qed.


(** The state in which the CPUs enter [scheduler]. *)
Lemma single_init m : length (ptable m) = NPROC → (∀ x, pcpu m x = None) →
  Forall (λ p, p_state p ≠ RUNNING) (ptable m) → single m.
Proof.
  intros Hl Hp Hr. split; [done|intros x y j; by rewrite Hp|intros x j; by rewrite Hp|].
  intros j (p & Hj & Hrun). by rewrite Forall_lookup in Hr; apply Hr in Hj.
Qed.

(** Two CPUs; process 0 is runnable and both want it. *)
Definition ex_two : mach :=
  mkMach (mkSmp 0 [mkCpu true 0 true None; mkCpu true 0 true None] (λ _, free_lock))
    (with_state RUNNABLE (with_pgdir 4096 zero_proc) :: replicate 63 zero_proc) 2 (Some 0%nat).

Definition on_cpu (x : nat) (m : mach) : mach := set_smp (mkSmp x (cpus (m_smp m)) (locks (m_smp m))) m.

(** CPU 0 picks the process and the process releases the lock; then CPU 1
    looks for work, finds none and releases the lock. *)
Definition ex_two_end : mach :=
  let m1 := after scheduler_start ex_two in
  let m2 := after (scheduler_scan 0) m1 in
  let m3 := after (smpM (release L_ptable)) m2 in
  let m4 := after scheduler_start (on_cpu 1 m3) in
  after scheduler_end m4.

