(* ===== verification/WaitThms.v ===== *)
(** * wait

    [wait_spec] gives the result of [wait] in each of its cases: a zombie
    child is collected, a process without children or one that was killed
    returns -1 at once, and otherwise the process sleeps on its own address,
    where [exit] of a child looks for it. *)

From S2P Require Import Prelude Bytes Spinlock Sched Kalloc Vm Pipe File Proc Frame ProcThms FrameKer.

(** Only the locks may differ. *)
Definition Rtab (m0 m : mach) : Prop :=
  ptable m = ptable m0 ∧ nextpid m = nextpid m0 ∧ initproc m = initproc m0.
#[export] Instance Rtab_rel : FrameRel Rtab.
Proof. intros m0 m x H. exact H. Qed.

(** The first zombie child, or whether there are children. *)
Lemma wait_scan_spec me l i b :
  match wait_scan me l i b with
  | inl j => ∃ n q, j = (i + n)%nat ∧ l !! n = Some q ∧ zombie_child me q = true ∧
      ∀ n' q', (n' < n)%nat → l !! n' = Some q' → zombie_child me q' = false
  | inr h => Forall (λ q, zombie_child me q = false) l ∧ h = b || existsb (is_parent me) l
  end.
Proof.
  revert i b. induction l as [|p l IH]; intros i b; cbn [wait_scan existsb].
  - split; [constructor|]. by rewrite orb_false_r.
  - assert (zombie_child me p = is_parent me p && zombie p) as Ez by done. unfold zombie in Ez.
    destruct (is_parent me p) eqn:E; cbn [negb andb orb] in *; [case_bool_decide as D|].
    + exists O, p. rewrite Nat.add_0_r. split_and!; [done..|]. intros; lia.
    + specialize (IH (S i) true). destruct (wait_scan me l (S i) true) as [j|h].
      * destruct IH as (n & q & -> & Hq & Hz & Hb). exists (S n), q. split_and!; [lia|done..|].
        intros [|n'] q' Hn Hq'; cbn in Hq'; [by simplify_eq|]. eapply Hb; [|done]. lia.
      * destruct IH as [Hf ->]. split; [by constructor|]. by rewrite orb_true_r.
    + specialize (IH (S i) b). destruct (wait_scan me l (S i) b) as [j|h].
      * destruct IH as (n & q & -> & Hq & Hz & Hb). exists (S n), q. split_and!; [lia|done..|].
        intros [|n'] q' Hn Hq'; cbn in Hq'; [by simplify_eq|]. eapply Hb; [|done]. lia.
      * destruct IH as [Hf ->]. split; [by constructor|]. done.
Qed.

(** [sleep] on [ptable.lock] itself. *)
Lemma sleep_ptable_ok m i p c : running m i p →
  sleep c L_ptable (mlocked L_ptable m) = Stop Switch (put_to_sleep c i p (mlocked L_ptable m)).
Proof.
  intros Hrun. pose proof Hrun as (Hm & Hp & cp & Hc & Hcp & Hn).
  unfold sleep. step (myproc_locked L_ptable m i p Hrun). rewrite decide_True by done.
  erewrite bind_ok; [|reflexivity]. erewrite bind_ok; [|reflexivity]. erewrite bind_ok; [|reflexivity].
  cbn [set_ptable ptable set_smp mlocked].
  rewrite (list_alter_insert _ _ _ _ Hp).
  erewrite list_alter_insert by (apply list_lookup_insert_eq; eauto using lookup_lt_Some).
  rewrite list_insert_insert_eq.
  pose proof (sched_ok (put_to_sleep c i p m) i (with_state SLEEPING (with_chan (Some c) p))) as E.
  unfold put_to_sleep, mlocked, set_smp, set_ptable in *. cbn in *. apply E; [|done].
  split_and!; [|by cbn; apply list_lookup_insert_eq; eauto using lookup_lt_Some|by exists cp].
  destruct Hm. split; [done|]. cbn. by rewrite length_insert.
Qed.

Definition slocked (l : lockid) (s : kst) : kst := set_ksm (mlocked l (ks_m s)) s.

(** What [wait] frees of a zombie. *)
Definition reap (kend : Z) (i : nat) (q : proc) : M kst unit :=
  kfree kend (p_kstack q) ;;; ksM (setproc i (with_kstack 0)) ;;; freevm kend (p_pgdir q).

Definition collected (kend : Z) (i : nat) (q : proc) (s s' : kst) : Prop :=
  ptable (ks_m s') = <[i := reap_proc (with_kstack 0 q)]> (ptable (ks_m s)) ∧
  reinit (m_smp (ks_m s)) (m_smp (ks_m s')) ∧
  ks_k s' = ks_k (after (reap kend i q) (slocked L_ptable s)).

Lemma release_at R `{!FrameRel R} l m0 m : quiet (m_smp m0) → fr_at R [l] m0 m →
  ∃ m', smpM (release l) m = Ok tt m' ∧ fr_at R [] m0 m' ∧ ptable m' = ptable m.
Proof.
  intros Hq Hat. pose proof Hat as (b & Hi & [Hf _] & Hs & Hl & HR).
  assert (smpM (release l) m = Ok tt (set_smp b m)) as E.
  { apply lift_ok. rewrite Hs. apply release_ok; [|done]. by apply (reinit_quiet _ _ Hi Hq). }
  eexists. split; [exact E|]. split; [|done].
  exact (release_fr l [] m m0 tt _ Hq Hat E).
Qed.

(** A change of the table made while a lock is held. *)
Lemma fr_at_table L m0 m t : length t = NPROC → fr_at Rtab L m0 m →
  fr_at Rtab L (set_ptable t m0) (set_ptable t m).
Proof.
  intros Ht (b & Hi & Hc & Hs & Hl & _ & Hn & Hip). exists b. by split_and!.
Qed.

Section wait.
Context (kend : Z) (s : kst) (me : nat) (p : proc).
Hypothesis Hrun : running (ks_m s) me p.
Hypothesis Hfree : lfree L_ptable (ks_m s).

Lemma wait_start : wait kend s = wait_locked kend me (slocked L_ptable s).
Proof.
  unfold wait. erewrite bind_ok; [|apply lift_ok; unfold curproc; erewrite bind_ok; [|by eapply myproc_ok]; done].
  run (lock_ok L_ptable (ks_m s) (proj1 Hrun) Hfree). by destruct s.
Qed.

Lemma wait_unlock s' : ks_m s' = mlocked L_ptable (ks_m s) →
  ksM (smpM (release L_ptable)) s' = Ok tt (set_ksm (ks_m s) s').
Proof.
  intros E. apply lift_ok. rewrite E. apply unlock_ok'; [apply Hrun|done].
Qed.

Lemma wait_returns h : wait_scan me (ptable (ks_m s)) 0 false = inr h →
  negb h || p_killed p = true → wait kend s = Ok (-1) s.
Proof.
  intros Hs Hk. rewrite wait_start. unfold wait_locked. cbn [loopM]. unfold wait_turn.
  cbv beta iota delta [bind get lift]. cbn [ks_m slocked set_ksm ptable mlocked set_smp]. rewrite Hs.
  unfold getproc. cbn. pose proof Hrun as (_ & Hp & _). rewrite Hp. cbn. rewrite Hk.
  pose proof (wait_unlock (slocked L_ptable s) eq_refl) as U. unfold lift, slocked, set_ksm in U.
  unfold set_ksm, slocked. cbn in *. rewrite U. cbn. by destruct s.
Qed.

Lemma wait_sleeps : wait_scan me (ptable (ks_m s)) 0 false = inr true → p_killed p = false →
  wait kend s = Stop Switch (set_ksm (put_to_sleep (proc_chan me) me p (mlocked L_ptable (ks_m s))) s).
Proof.
  intros Hs Hk. rewrite wait_start. unfold wait_locked. cbn [loopM]. apply bind_stop. unfold wait_turn.
  erewrite bind_ok; [|reflexivity]. cbn [ks_m slocked set_ksm ptable mlocked set_smp]. rewrite Hs.
  pose proof Hrun as (_ & Hp & _).
  rewrite (bind_ok _ _ _ p (slocked L_ptable s)).
  2:{ unfold getproc. cbv beta iota delta [lift bind get need]. cbn. by rewrite Hp. }
  rewrite Hk. cbn [negb orb]. apply bind_stop. unfold lift. cbn [ks_m slocked set_ksm].
  by rewrite (sleep_ptable_ok _ _ _ _ Hrun).
Qed.

(** The machine while the zombie is freed. *)
Lemma reap_at i q s1 : ptable (ks_m s) !! i = Some q → quiet (m_smp (ks_m s)) →
  reap kend i q (slocked L_ptable s) = Ok tt s1 →
  fr_at Rtab [L_ptable] (set_ptable (<[i := with_kstack 0 q]> (ptable (ks_m s))) (ks_m s)) (ks_m s1).
Proof.
  intros Hq Hqt Hre. unfold reap in Hre. apply bind_inv in Hre as ([] & s2 & H2 & Hre).
  apply bind_inv in Hre as ([] & s3 & H3 & Hre). cbv [lift setproc bind get put] in H3. simplify_eq.
  assert (length (ptable (ks_m s)) = NPROC) as Hl by apply Hrun.
  assert (fr_at Rtab [L_ptable] (ks_m s) (ks_m (slocked L_ptable s))) as H0.
  { exists (m_smp (ks_m s)). split_and!; try done. apply reinit_refl. }
  pose proof (kfree_fr kend (p_kstack q) [L_ptable] _ _ _ _ Hqt H0 H2) as H1.
  pose proof H1 as (_ & _ & _ & _ & _ & Et & _).
  refine (freevm_fr kend (p_pgdir q) [L_ptable] _ _ _ _ _ _ Hre); [exact Hqt|].
  cbn [ks_m set_ksm]. rewrite Et, (list_alter_insert _ _ _ _ Hq). apply fr_at_table; [|done].
  by rewrite length_insert.
Qed.

Lemma wait_collects i q s1 : wait_scan me (ptable (ks_m s)) 0 false = inl i →
  ptable (ks_m s) !! i = Some q → quiet (m_smp (ks_m s)) →
  reap kend i q (slocked L_ptable s) = Ok tt s1 →
  ∃ s', wait kend s = Ok (p_pid q) s' ∧ collected kend i q s s'.
Proof.
  intros Hs Hq Hqt Hre. rewrite wait_start. unfold wait_locked. cbn [loopM].
  pose proof (reap_at i q s1 Hq Hqt Hre) as Hat. pose proof Hat as (_ & _ & _ & _ & _ & Et & _). cbn in Et.
  assert (i < length (ptable (ks_m s)))%nat as Hi by eauto using lookup_lt_Some.
  set (t := <[i := reap_proc (with_kstack 0 q)]> (ptable (ks_m s))).
  assert (alter reap_proc i (ptable (ks_m s1)) = t) as Et'.
  { rewrite Et. erewrite list_alter_insert by (by apply list_lookup_insert_eq).
    by rewrite list_insert_insert_eq. }
  apply (fr_at_table _ _ _ t) in Hat; [|unfold t; rewrite length_insert; apply Hrun].
  destruct (λ Hq, release_at Rtab L_ptable _ _ Hq Hat) as (m' & Em & (b & Hb & _ & Hsm & _) & Hpt);
    [exact Hqt|].
  exists (set_ksm m' s1). split.
  - rewrite (bind_ok _ _ _ (inr (p_pid q)) (set_ksm m' s1)); [done|]. unfold wait_turn.
    erewrite bind_ok; [|reflexivity]. cbn [ks_m slocked set_ksm ptable mlocked set_smp]. rewrite Hs.
    rewrite (bind_ok _ _ _ q (slocked L_ptable s)).
    2:{ unfold getproc. cbv beta iota delta [lift bind get need]. cbn. by rewrite Hq. }
    unfold reap in Hre. apply bind_inv in Hre as ([] & s2 & H2 & Hre). step H2.
    apply bind_inv in Hre as ([] & s3 & H3 & Hre). step H3. step Hre.
    erewrite bind_ok; [|reflexivity].
    rewrite (bind_ok _ _ _ tt (set_ksm m' s1)); [done|].
    erewrite lift_ok; [reflexivity|]. cbn [ks_m set_ksm]. by rewrite Et', Em.
  - split_and!.
    + cbn. by rewrite Hpt.
    + cbn. cbn in Hsm. by rewrite Hsm.
    + by rewrite (after_ok _ _ _ _ Hre).
Qed.

(** What a call that returned did. *)
Lemma wait_inv z s' : quiet (m_smp (ks_m s)) → wait kend s = Ok z s' →
  s' = s ∨ ∃ i q, ptable (ks_m s) !! i = Some q ∧ p_state q = ZOMBIE ∧ collected kend i q s s'.
Proof.
  intros Hqt Hr. pose proof (wait_scan_spec me (ptable (ks_m s)) 0 false) as Hs.
  destruct (wait_scan me (ptable (ks_m s)) 0 false) as [i|h] eqn:E; [right|left].
  - destruct Hs as (n & q & -> & Hq & Hz & _). cbn in E. apply andb_true_iff in Hz as [_ Hz].
    apply bool_decide_eq_true in Hz. exists n, q. split_and!; [done..|].
    assert (∃ s1, reap kend n q (slocked L_ptable s) = Ok tt s1) as [s1 Hre].
    { rewrite wait_start in Hr. unfold wait_locked in Hr. cbn [loopM] in Hr.
      apply bind_inv in Hr as (o & s1 & Ht & _). unfold wait_turn in Ht.
      apply bind_inv in Ht as (m & s2 & E2 & Ht). cbv [lift get] in E2. injection E2 as <- <-.
      cbn [ks_m slocked set_ksm ptable mlocked set_smp] in Ht. rewrite E in Ht.
      apply bind_inv in Ht as (q' & s3 & E3 & Ht). unfold getproc in E3.
      cbv beta iota delta [lift bind get need] in E3. cbn in E3. rewrite Hq in E3. injection E3 as <- <-.
      apply bind_inv in Ht as ([] & s4 & E4 & Ht). apply bind_inv in Ht as ([] & s5 & E5 & Ht).
      apply bind_inv in Ht as ([] & s6 & E6 & _). exists s6. unfold reap. step E4. step E5. exact E6. }
    destruct (wait_collects n q s1 E Hq Hqt Hre) as (s2 & E2 & Hc). rewrite E2 in Hr. by injection Hr as <- <-.
  - destruct Hs as [_ ->]. destruct (negb (existsb (is_parent me) (ptable (ks_m s))) || p_killed p) eqn:Ek.
    + rewrite (wait_returns _ E Ek) in Hr. by injection Hr as <- <-.
    + apply orb_false_iff in Ek as [Eh Ek]. apply negb_false_iff in Eh. cbn in E. rewrite Eh in E.
      by rewrite (wait_sleeps E Ek) in Hr.
Qed.
End wait.


(** Process 1 has exited; process 0 waits for it. *)
Definition ex_wait : kst :=
  mkKst (mkMach (mkSmp 0 [mkCpu true 0 true (Some 0%nat)] (λ _, free_lock))
      (with_state RUNNING zero_proc ::
       with_pgdir ex_kend (with_kstack (ex_kend + 4096) (with_pid 7 (with_parent (Some 0%nat)
         (with_state ZOMBIE zero_proc)))) :: replicate 62 zero_proc) 8 None)
    (mkKmem (λ _, replicate PAGE 0) true 0).

