(* ===== verification/FdRefs.v ===== *)
(** * File descriptors and reference counts

    The number of references a file has in [ftable] is the number of
    descriptors, over all processes, that name it, and the slots of processes
    that do not run have no descriptors.  The invariant [fdinv] states this up
    to a surplus [δ], which is not zero in the middle of a system call: a file
    that was just allocated has a reference and no descriptor yet.  Every
    system call that returns restores it. *)

From S2P Require Import Prelude Bytes Spinlock Sched Bio BufLayer Ondisk Log Txn CString Fs Dir Kalloc Vm Pipe File Proc Syscall Exec Sysfile Trap Frame FrameFs FrameKer ProcThms WaitThms.

(** ** Counting descriptors *)

Definition ind (f : nat) (o : option nat) : Z := if decide (o = Some f) then 1 else 0.
Fixpoint cnt (f : nat) (l : list (option nat)) : Z :=
  match l with [] => 0 | o :: l' => ind f o + cnt f l' end.
Fixpoint total (f : nat) (t : list (list (option nat))) : Z :=
  match t with [] => 0 | l :: t' => cnt f l + total f t' end.

Lemma cnt_insert f l i o o' : l !! i = Some o → cnt f (<[i := o']> l) = cnt f l - ind f o + ind f o'.
Proof.
  revert i. induction l as [|x l IH]; intros [|i] Hi; [done|done|cbn in *; simplify_eq; lia|].
  change (<[S i := o']> (x :: l)) with (x :: <[i := o']> l). cbn [cnt]. rewrite (IH _ Hi). lia.
Qed.

Lemma total_insert f t i l l' : t !! i = Some l → total f (<[i := l']> t) = total f t - cnt f l + cnt f l'.
Proof.
  revert i. induction t as [|x t IH]; intros [|i] Hi; [done|done|cbn in *; simplify_eq; lia|].
  change (<[S i := l']> (x :: t)) with (x :: <[i := l']> t). cbn [total]. rewrite (IH _ Hi). lia.
Qed.

Definition bump (f : nat) (z : Z) (δ : nat → Z) : nat → Z := λ g, if decide (g = f) then δ g + z else δ g.

(** ** The part of a slot that matters *)

Definition slotv (p : proc) : list (option nat) * bool := (p_ofile p, dead p).
Definition Rof (m0 m : mach) : Prop := slotv <$> ptable m = slotv <$> ptable m0.

Lemma ofiles_slotv (t : list proc) : p_ofile <$> t = fst <$> (slotv <$> t).
Proof. by rewrite <- list_fmap_compose. Qed.

Lemma slotv_wake c p : slotv (wake c p) = slotv p.
Proof.
  unfold wake. destruct (_ && _) eqn:E; [|done]. apply andb_true_iff in E as [E%bool_decide_eq_true _].
  unfold slotv, dead. cbn. by rewrite E.
Qed.

#[export] Instance Rof_rel : WakeRel Rof.
Proof.
  split; [intros m0 m x H; exact H|]. unfold Rof. intros m0 m c <-. cbn. rewrite <- list_fmap_compose.
  apply list_fmap_ext. intros. apply slotv_wake.
Qed.

Lemma slotv_alter (t : list proc) i f : (∀ p, t !! i = Some p → slotv (f p) = slotv p) →
  slotv <$> alter f i t = slotv <$> t.
Proof.
  intros Hf. apply list_eq. intros j. rewrite !list_lookup_fmap.
  destruct (decide (i = j)) as [<-|Hne]; [|by rewrite list_lookup_alter_ne].
  rewrite list_lookup_alter_eq. destruct (t !! i) as [p|] eqn:E; [|done]. cbn. by rewrite Hf.
Qed.

#[export] Instance Rof_slot : SlotFrame Rof.
Proof.
  intros i f L Hf m m0 [] m' Hq (b & Hi & Hc & Hs & Hl & HR) Hr. cbv [setproc bind get put] in Hr. simplify_eq.
  exists b. split_and!; [done..|cbn; by rewrite length_alter|]. unfold Rof in *. cbn. rewrite <- HR.
  apply slotv_alter. intros p _. unfold slotv. by destruct (Hf p) as [-> ->].
Qed.
#[export] Hint Resolve Rof_rel Rof_slot : frame.

(** ** The invariant *)

Section inv.
Context {T : Type} `{TxnFrame T} `{DevSw T} `{!DevFrame T} `{IrqOps T}.
Context (kend kpdpt : Z).
Implicit Types (k : ker T) (δ : nat → Z).
Abbreviation K := (@kmach T _).
Abbreviation frof := (fr Rof K [] (λ _, [])).

Definition frefs k : list Z := fl_ref <$> k_files k.

(** The current process of a machine outside critical sections. *)
Definition current (m : mach) (me : nat) : Prop :=
  ∃ c, cpus (m_smp m) !! cur (m_smp m) = Some c ∧ c_proc c = Some me ∧ c_ncli c = 0.

(** [x] is a slot that is being filled by [fork]. *)
Record fdinv (δ : nat → Z) (x : option nat) k : Prop := {
  fi_quiet : quiet (m_smp (K k));
  fi_len : length (ptable (K k)) = NPROC;
  fi_cur : ∃ me p, current (K k) me ∧ ptable (K k) !! me = Some p ∧ dead p = false ∧ x ≠ Some me;
  fi_slots i p : ptable (K k) !! i = Some p →
    length (p_ofile p) = NOFILE ∧ (dead p = true → x ≠ Some i → p_ofile p = replicate NOFILE None);
  fi_refs f r : frefs k !! f = Some r → r = total f (p_ofile <$> ptable (K k)) + δ f
}.

(** A change of the machine that keeps the slots, and of the counts. *)
Lemma fdinv_change δ δ' x k k' : fdinv δ x k → fr_at Rof [] (K k) (K k') →
  (∀ f r', frefs k' !! f = Some r' → ∃ r, frefs k !! f = Some r ∧ r' = r + (δ' f - δ f)) →
  fdinv δ' x k'.
Proof.
  intros [Hq Hl (me & p & Hc & Hp & Hd & Hx) Hs Hr] (b & Hi & _ & Hsm & Hl' & HR) Hf.
  cbn in Hsm. unfold Rof in HR.
  assert (p_ofile <$> ptable (K k') = p_ofile <$> ptable (K k)) as Eo.
  { by rewrite !ofiles_slotv, HR. }
  assert (∀ i p', ptable (K k') !! i = Some p' → ∃ p, ptable (K k) !! i = Some p ∧ slotv p' = slotv p) as Hsl.
  { intros i p' Hp'. apply (f_equal (lookup i)) in HR. rewrite !list_lookup_fmap, Hp' in HR. cbn in HR.
    destruct (ptable (K k) !! i) as [p0|]; [|done]. exists p0. split; [done|].
    exact (f_equal (default (slotv p')) HR). }
  pose proof Hi as (Ec & Ecp & _). split.
  - rewrite Hsm. by eapply reinit_quiet.
  - done.
  - destruct (lookup_lt_is_Some_2 (ptable (K k')) me) as [p' Hp'].
    { rewrite Hl', <- Hl. by eapply lookup_lt_Some. }
    destruct (Hsl _ _ Hp') as (p0 & Hp0 & E). rewrite Hp in Hp0. injection Hp0 as <-.
    apply (f_equal snd) in E. cbn in E.
    exists me, p'. split_and!; [|done|congruence|done].
    unfold current. rewrite Hsm, Ec, Ecp. exact Hc.
  - intros i p' (p0 & Hp0 & E)%Hsl.
    assert (p_ofile p' = p_ofile p0 ∧ dead p' = dead p0) as [-> ->] by (by inversion E). by apply Hs.
  - intros f r' (r & Hr0 & ->)%Hf. rewrite Eo, (Hr f r Hr0). lia.
Qed.

Lemma fdinv_at δ x k : fdinv δ x k → fr_at Rof [] (K k) (K k).
Proof. intros Hi. exists (m_smp (K k)). split_and!; try done; [apply reinit_refl|apply Hi]. Qed.

(** Code that leaves the slots and the counts alone. *)
Definition rk {A} (m : M (ker T) A) : Prop := ∀ k a k', m k = Ok a k' → frefs k' = frefs k.

Lemma fdinv_keep {A} δ x k k' (m : M (ker T) A) a :
  frof m → rk m → fdinv δ x k → m k = Ok a k' → fdinv δ x k'.
Proof.
  intros Hm Hk Hi Hr. apply (fdinv_change δ δ x k); [done| |].
  - eapply (Hm k); [apply Hi|by eapply fdinv_at|done].
  - intros f r'. rewrite (Hk _ _ _ Hr). intros. exists r'. split; [done|lia].
Qed.

Lemma rk_bind {A B} (m : M (ker T) A) (f : A → M (ker T) B) : rk m → (∀ a, rk (f a)) → rk (bind m f).
Proof.
  intros Hm Hf k b k' Hr. apply bind_inv in Hr as (a & k1 & H1' & H2'). by rewrite (Hf _ _ _ _ H2'), (Hm _ _ _ H1').
Qed.
Lemma rk_ret {A} (a : A) : rk (ret a).
Proof. intros k b k' Hr. cbv in Hr. by simplify_eq. Qed.
Lemma rk_get : rk get.
Proof. intros k b k' Hr. cbv in Hr. by simplify_eq. Qed.
Lemma rk_halt {A} e : rk (A := A) (halt e).
Proof. by intros k b k'. Qed.
Lemma rk_need {A} (o : option A) : rk (need o).
Proof. destruct o; [apply rk_ret|apply rk_halt]. Qed.
Lemma rk_when b m : rk m → rk (whenM b m).
Proof. intros. destruct b; [done|apply rk_ret]. Qed.
Lemma rk_lift {S A} (g : ker T → S) (p : S → ker T → ker T) (m : M S A) :
  (∀ x k, k_files (p x k) = k_files k) → rk (lift g p m).
Proof.
  intros Hp k a k'. unfold lift. destruct (m (g k)); [|done]. intros ?. simplify_eq. unfold frefs. by rewrite Hp.
Qed.
Lemma rk_setfile f h : (∀ x, fl_ref (h x) = fl_ref x) → rk (setfile f h).
Proof.
  intros Hh k a k' Hr. cbv [setfile modify] in Hr. simplify_eq. unfold frefs. cbn.
  apply list_eq. intros i. rewrite !list_lookup_fmap.
  destruct (decide (f = i)) as [<-|Hne]; [|by rewrite list_lookup_alter_ne].
  rewrite list_lookup_alter_eq. destruct (k_files k !! f); [|done]. cbn. by rewrite Hh.
Qed.
Lemma rk_modify g : (∀ k, k_files (g k) = k_files k) → rk (modify g).
Proof. intros Hg k a k' Hr. cbv [modify] in Hr. simplify_eq. unfold frefs. by rewrite Hg. Qed.
Lemma rk_for_all {X} (l : list X) (body : X → M (ker T) unit) : (∀ x, rk (body x)) → rk (for_all l body).
Proof. intros Hb. induction l as [|x l IH]; cbn [for_all]; [apply rk_ret|]. apply rk_bind; [apply Hb|auto]. Qed.
Lemma rk_loop {X A} (body : X → M (ker T) (X + A)) n x : (∀ x, rk (body x)) → rk (loopM n body x).
Proof.
  intros Hb. revert x. induction n as [|n IH]; intros x; cbn [loopM]; [apply rk_halt|].
  apply rk_bind; [apply Hb|]. intros [y|v]; [apply IH|apply rk_ret].
Qed.
End inv.

Ltac rkeep := repeat first
  [ match goal with IH : context [rk _] |- _ => apply IH end
  | apply rk_bind; [|intros ?] | apply rk_ret | apply rk_get | apply rk_halt | apply rk_need | apply rk_when
  | apply rk_lift; done | apply rk_setfile; done | apply rk_modify; done | apply rk_loop; intros ?
  | apply rk_for_all; intros ?
  | match goal with
    | |- rk (let x := _ in _) => cbv zeta
    | |- rk (if ?b then _ else _) => destruct b
    | |- rk (match ?x with _ => _ end) => destruct x
    end].

(** ** Reading, and calls that do not touch descriptors *)

Section keeps.
Context {T : Type} `{TxnFrame T} `{DevSw T} `{!DevFrame T} `{IrqOps T}.
Context (kend kpdpt : Z).

Lemma argfd_rk n : rk (argfd n).
Proof. unfold argfd, thisK. rkeep. Qed.
Lemma arg_rw_rk : rk arg_rw.
Proof. pose proof argfd_rk. unfold arg_rw. rkeep. Qed.
Lemma fileread_rk f n : rk (fileread f n).
Proof. unfold fileread, getfile. rkeep. Qed.
Lemma filewrite_rk f l n : rk (filewrite f l n).
Proof. unfold filewrite, write_chunk, getfile, begin_opK, end_opK. rkeep. Qed.
Lemma sys_read_rk : rk sys_read.
Proof. pose proof arg_rw_rk. pose proof fileread_rk. unfold sys_read, thisK. rkeep. Qed.
Lemma sys_write_rk : rk sys_write.
Proof. pose proof arg_rw_rk. pose proof filewrite_rk. unfold sys_write, thisK. rkeep. Qed.
Lemma sys_fstat_rk : rk sys_fstat.
Proof. pose proof argfd_rk. unfold sys_fstat, filestat, getfile, thisK. rkeep. Qed.
Lemma sys_link_rk : rk sys_link.
Proof. unfold sys_link, link, link_bad, begin_opK, end_opK. rkeep. Qed.
Lemma sys_unlink_rk : rk sys_unlink.
Proof. unfold sys_unlink, unlink, unlink_bad, begin_opK, end_opK. rkeep. Qed.
Lemma open_inode_rk path omode : rk (open_inode path omode).
Proof. unfold open_inode, end_opK. rkeep. Qed.
Lemma sys_mkdir_rk : rk sys_mkdir.
Proof. unfold sys_mkdir, put_created, begin_opK, end_opK. rkeep. Qed.
Lemma sys_mknod_rk : rk sys_mknod.
Proof. unfold sys_mknod, put_created, begin_opK, end_opK. rkeep. Qed.
Lemma sys_chdir_rk : rk sys_chdir.
Proof. unfold sys_chdir, begin_opK, end_opK. rkeep. Qed.
Lemma sys_chmod_rk : rk sys_chmod.
Proof. unfold sys_chmod, chmod, begin_opK, end_opK. rkeep. Qed.
Lemma sys_sleep_rk : rk sys_sleep.
Proof. unfold sys_sleep, sleep_turn. rkeep. Qed.
Lemma exec_bad_rk pgdir ip : rk (exec_bad kend pgdir ip).
Proof. unfold exec_bad, end_opK. rkeep. Qed.
Lemma exec_segments_rk ip pgdir n sz off : rk (exec_segments kend ip pgdir n sz off).
Proof.
  revert sz off. induction n as [|n IH]; intros sz off; cbn [exec_segments];
    unfold exec_segment, loaduvm, load_step; rkeep.
Qed.
Lemma exec_args_rk pgdir argv n sp l : rk (exec_args pgdir argv n sp l).
Proof. revert n sp l. induction argv as [|s argv IH]; intros n sp l; cbn [exec_args]; rkeep. Qed.
Lemma sys_exec_rk : rk (sys_exec kend kpdpt).
Proof.
  pose proof exec_bad_rk. pose proof exec_segments_rk. pose proof exec_args_rk.
  unfold sys_exec, exec, exec_image, begin_opK, end_opK. rkeep.
Qed.
Lemma set_eax_rk x : rk (set_eax x).
Proof. unfold set_eax. rkeep. Qed.
End keeps.

(** ** The operations that change counts or descriptors *)

Section ops.
Context {T : Type} `{TxnFrame T} `{DevSw T} `{!DevFrame T} `{IrqOps T}.
Context (kend kpdpt : Z).
Implicit Types (k : ker T) (δ : nat → Z).
Abbreviation K := (@kmach T _).
Abbreviation frof := (fr Rof K [] (λ _, [])).

Lemma setfile_refs f h k a k' x : setfile f h k = Ok a k' → k_files k !! f = Some x →
  frefs k' = <[f := fl_ref (h x)]> (frefs k).
Proof.
  intros Hr Hx. cbv [setfile modify] in Hr. simplify_eq. unfold frefs. cbn.
  rewrite (list_alter_insert _ _ _ _ Hx). by rewrite list_fmap_insert.
Qed.

Lemma frefs_lookup k f x : k_files k !! f = Some x → frefs k !! f = Some (fl_ref x).
Proof. intros Hx. unfold frefs. by rewrite list_lookup_fmap, Hx. Qed.

(** The code under [ftable.lock] runs in a state with the same file table. *)
Lemma kmM_files {A} (m : M mach A) k a k' : kmM m k = Ok a k' → k_files k' = k_files k.
Proof. unfold lift. destruct (m (kmach k)); [|done]. intros ?. by simplify_eq. Qed.

Lemma getfile_run f k x k' : getfile f k = Ok x k' → k' = k ∧ k_files k !! f = Some x.
Proof.
  unfold getfile. intros Hr. apply bind_inv in Hr as (k1 & k2 & H1' & H2'). cbv [get] in H1'. simplify_eq.
  destruct (k_files k2 !! f); [|done]. cbv [need ret] in H2'. by simplify_eq.
Qed.

Lemma filedup_refs f k g k' : filedup f k = Ok g k' →
  g = f ∧ ∃ r, frefs k !! f = Some r ∧ frefs k' = <[f := r + 1]> (frefs k).
Proof.
  unfold filedup. intros Hr. apply bind_inv in Hr as ([] & k1 & E1%kmM_files & Hr).
  apply bind_inv in Hr as (x & k2 & [-> Hx]%getfile_run & Hr). case_match; [done|].
  apply bind_inv in Hr as ([] & k3 & E3 & Hr). apply bind_inv in Hr as ([] & k4 & E4%kmM_files & Hr).
  cbv [ret] in Hr. injection Hr as <- <-. split; [done|]. exists (fl_ref x).
  apply (setfile_refs _ _ _ _ _ x) in E3; [|done]. cbn in E3.
  unfold frefs in *. rewrite E4, E3, E1. rewrite E1 in Hx. by rewrite list_lookup_fmap, Hx.
Qed.

Lemma filealloc_loop l k r k' :
  for_each l (λ f, x ← getfile f;
    if fl_ref x =? 0 then setfile f (fl_set_ref 1) ;;; ret (Some f) else ret None) k = Ok r k' →
  match r with
  | None => k' = k
  | Some f => frefs k !! f = Some 0 ∧ frefs k' = <[f := 1]> (frefs k)
  end.
Proof.
  induction l as [|f l IH]; cbn [for_each].
  - intros Hr. cbv in Hr. by simplify_eq.
  - intros Hr. apply bind_inv in Hr as (o & k1 & Hb & Hr).
    apply bind_inv in Hb as (x & k2 & [-> Hx]%getfile_run & Hb).
    destruct (Z.eqb_spec (fl_ref x) 0) as [Ez|].
    + apply bind_inv in Hb as ([] & k3 & E3 & Hb). cbv [ret] in Hb. simplify_eq. cbv [ret] in Hr. simplify_eq.
      split; [rewrite (frefs_lookup _ _ _ Hx); by rewrite Ez|]. exact (setfile_refs _ _ _ _ _ _ E3 Hx).
    + cbv [ret] in Hb. simplify_eq. by apply IH.
Qed.

Lemma filealloc_refs k r k' : filealloc k = Ok r k' →
  match r with
  | None => frefs k' = frefs k
  | Some f => frefs k !! f = Some 0 ∧ frefs k' = <[f := 1]> (frefs k)
  end.
Proof.
  unfold filealloc. intros Hr. apply bind_inv in Hr as ([] & k1 & E1%kmM_files & Hr).
  apply bind_inv in Hr as (o & k2 & E2%filealloc_loop & Hr).
  apply bind_inv in Hr as ([] & k3 & E3%kmM_files & Hr). cbv [ret] in Hr. simplify_eq.
  unfold frefs in *. rewrite E3. destruct r; [by rewrite <- E1|]. by subst; rewrite E1.
Qed.

Lemma fileclose_refs f k a k' : fileclose kend f k = Ok a k' →
  ∃ r, frefs k !! f = Some r ∧ frefs k' = <[f := r - 1]> (frefs k).
Proof.
  unfold fileclose. intros Hr. apply bind_inv in Hr as ([] & k1 & E1%kmM_files & Hr).
  apply bind_inv in Hr as (x & k2 & [-> Hx]%getfile_run & Hr). case_match eqn:Er; [done|].
  apply bind_inv in Hr as ([] & k3 & E3 & Hr).
  pose proof (setfile_refs _ _ _ _ _ _ E3 Hx) as R3. cbn in R3.
  assert (frefs k = frefs k1) as Ek by (unfold frefs; by rewrite E1).
  exists (fl_ref x). split; [rewrite Ek; by apply frefs_lookup|]. rewrite Ek, <- R3.
  destruct (Z.ltb_spec 0 (fl_ref x - 1)).
  - unfold frefs. apply kmM_files in Hr. by rewrite Hr.
  - apply Z.ltb_ge in Er. assert (fl_ref x = 1) as Ef by lia.
    apply bind_inv in Hr as (ff & k4 & [-> Hff]%getfile_run & Hr).
    apply bind_inv in Hr as ([] & k5 & E5 & Hr). apply bind_inv in Hr as ([] & k6 & E6 & Hr).
    apply bind_inv in Hr as ([] & k7 & E7%kmM_files & Hr).
    assert (frefs k' = frefs k7) as ->.
    { refine ((_ : rk _) _ _ _ Hr). unfold begin_opK, end_opK. rkeep. }
    assert (fl_ref ff = 0) as Eff.
    { apply frefs_lookup in Hff. rewrite R3, list_lookup_insert_eq in Hff.
      - injection Hff as <-. lia.
      - unfold frefs. rewrite length_fmap. by eapply lookup_lt_Some. }
    apply (rk_setfile f (fl_set_type FD_NONE)) in E6; [|done].
    apply (setfile_refs _ _ _ _ _ ff) in E5; [|done]. cbn in E5.
    unfold frefs in *. rewrite E7, E6, E5. apply list_insert_id. rewrite R3, Ef.
    rewrite list_lookup_insert_eq; [done|]. rewrite length_fmap. by eapply lookup_lt_Some.
Qed.

Lemma bump_same f z δ : bump f z δ f = δ f + z.
Proof. unfold bump. by rewrite decide_True. Qed.
Lemma bump_ne f g z δ : g ≠ f → bump f z δ g = δ g.
Proof. intros. unfold bump. by rewrite decide_False. Qed.

(** A count of one file changes by [z]. *)
Lemma fdinv_count δ x k k' f z r : fdinv δ x k → fr_at Rof [] (K k) (K k') →
  frefs k !! f = Some r → frefs k' = <[f := r + z]> (frefs k) → fdinv (bump f z δ) x k'.
Proof.
  intros Hi Hat Hr E. apply (fdinv_change δ _ x k); [done..|]. intros g r'. rewrite E.
  destruct (decide (g = f)) as [->|Hne].
  - rewrite list_lookup_insert_eq by (by eapply lookup_lt_Some). intros ?. simplify_eq.
    exists r. rewrite bump_same. split; [done|lia].
  - rewrite list_lookup_insert_ne by done. intros. exists r'. rewrite bump_ne by done. split; [done|lia].
Qed.

Lemma filedup_inv δ x k f g k' : fdinv δ x k → filedup f k = Ok g k' → fdinv (bump f 1 δ) x k'.
Proof.
  intros Hi Hr. destruct (filedup_refs _ _ _ _ Hr) as (-> & r & Hf & E). eapply fdinv_count; [done| |done..].
  eapply (filedup_fr (R := Rof)); [apply Hi|by eapply fdinv_at|done].
Qed.

Lemma filealloc_inv δ x k r k' : fdinv δ x k → filealloc k = Ok r k' →
  fdinv (match r with Some f => bump f 1 δ | None => δ end) x k'.
Proof.
  intros Hi Hr. pose proof (filealloc_refs _ _ _ Hr) as E.
  assert (fr_at Rof [] (K k) (K k')) as Hat.
  { eapply (filealloc_fr (R := Rof)); [apply Hi|by eapply fdinv_at|done]. }
  destruct r as [f|].
  - destruct E as [E0 E1]. by eapply fdinv_count.
  - apply (fdinv_change δ _ x k); [done..|]. rewrite E. intros g r Hg. exists r. split; [done|lia].
Qed.

Lemma fileclose_inv δ x k f a k' : fdinv δ x k → fileclose kend f k = Ok a k' → fdinv (bump f (-1) δ) x k'.
Proof.
  intros Hi Hr. destruct (fileclose_refs _ _ _ _ Hr) as (r & Hf & E).
  eapply (fdinv_count _ _ _ _ _ _ r); [done| |done|done].
  eapply (fileclose_fr (R := Rof)); [apply Hi|by eapply fdinv_at|done].
Qed.

(** A change of one slot. *)
Lemma setprocK i f k a k' : kmM (setproc i f) k = Ok a k' →
  K k' = set_ptable (alter f i (ptable (K k))) (K k) ∧ frefs k' = frefs k.
Proof.
  unfold lift. cbv [setproc bind get put]. intros ?. simplify_eq. by rewrite kmach_set.
Qed.

Lemma fdinv_slot δ δ' x x' k k' i p p' : fdinv δ x k → ptable (K k) !! i = Some p →
  ptable (K k') = <[i := p']> (ptable (K k)) → reinit (m_smp (K k)) (m_smp (K k')) → frefs k' = frefs k →
  (∀ g, δ' g = δ g + cnt g (p_ofile p) - cnt g (p_ofile p')) →
  length (p_ofile p') = NOFILE →
  (dead p' = true → x' ≠ Some i → p_ofile p' = replicate NOFILE None) →
  (∀ me, current (K k) me → x' ≠ Some me ∧ (i = me → dead p' = false)) →
  (∀ j, x' ≠ Some j → x ≠ Some j ∨ j = i) →
  fdinv δ' x' k'.
Proof.
  intros [Hq Hl (me & q & Hc & Hme & Hd & Hx) Hs Hr] Hp EK Hre Ef Hδ Hlen Hdead Hcur Hxx.
  assert (i < length (ptable (K k)))%nat as Hi by eauto using lookup_lt_Some.
  assert (current (K k') me) as Hc' by (unfold current; destruct Hre as (-> & -> & _); exact Hc).
  split; rewrite ?EK.
  - by eapply reinit_quiet.
  - by rewrite length_insert.
  - destruct (Hcur me Hc) as [Hx' Hdi]. destruct (decide (i = me)) as [->|Hne].
    + exists me, p'. split_and!; [done|by apply list_lookup_insert_eq|auto|done].
    + exists me, q. split_and!; [done|by rewrite list_lookup_insert_ne|done|done].
  - intros j pj. destruct (decide (i = j)) as [<-|Hne].
    + rewrite list_lookup_insert_eq by done. intros ?. simplify_eq. auto.
    + rewrite list_lookup_insert_ne by done. intros Hj. destruct (Hs j pj Hj) as [H1' H2']. split; [done|].
      intros Hdj Hxj. destruct (Hxx j Hxj) as [?| ->]; [auto|done].
  - intros f r. rewrite Ef, list_fmap_insert. intros Hf.
    rewrite (total_insert f _ i (p_ofile p)) by (by rewrite list_lookup_fmap, Hp).
    rewrite Hδ. specialize (Hr f r Hf). lia.
Qed.

Lemma ind_none g : ind g None = 0.
Proof. done. Qed.
Lemma ind_bump f z δ : (∀ g, bump f z δ g = δ g + z * ind g (Some f)).
Proof.
  intros g. unfold bump, ind. destruct (decide (g = f)) as [->|Hne].
  - rewrite decide_True by done. lia.
  - rewrite decide_False by congruence. lia.
Qed.

(** A descriptor of the current process is set or cleared. *)
Lemma fd_set δ x k me p fd o o' f k' : fdinv δ x k → current (K k) me → ptable (K k) !! me = Some p →
  p_ofile p !! fd = Some o → f p = with_ofile (<[fd := o']> (p_ofile p)) p →
  kmM (setproc me f) k = Ok tt k' → fdinv (λ g, δ g + ind g o - ind g o') x k'.
Proof.
  intros Hi Hc Hp Ho Ef Hr. apply setprocK in Hr as [EK Ek].
  rewrite (list_alter_insert _ _ _ _ Hp), Ef in EK. pose proof Hi as [_ _ (me' & q & Hc' & Hme & Hd & Hx) Hs _].
  assert (me' = me) as -> by (destruct Hc as (c & ? & ? & _), Hc' as (c' & ? & ? & _); congruence).
  simplify_eq.
  eapply (fdinv_slot δ _ x x k k' me p); [done|done|by rewrite EK|rewrite EK; apply reinit_refl|done|..].
  - intros g. cbn [p_ofile with_ofile]. rewrite (cnt_insert _ _ _ _ _ Ho). lia.
  - cbn. rewrite length_insert. by apply (Hs me p).
  - cbn. change (dead (with_ofile (<[fd:=o']> (p_ofile p)) p)) with (dead p). congruence.
  - intros me' Hc2. assert (me' = me) as ->; [|split; [done|by intros _]].
    destruct Hc as (c & ? & ? & _), Hc2 as (c' & ? & ? & _); congruence.
  - intros. by left.
Qed.

(** Who runs is read without changing anything. *)
Lemma curprocK k me k' : kmM curproc k = Ok me k' → K k' = K k ∧ frefs k' = frefs k ∧
  ∃ c, cpus (m_smp (K k)) !! cur (m_smp (K k)) = Some c ∧ c_proc c = Some me.
Proof.
  unfold lift, curproc, myproc, mycpu. go. unfold lift. cbn.
  destruct (cpus (m_smp (kmach k)) !! cur (m_smp (kmach k))) as [c|] eqn:Ec; cbn; [|done].
  destruct (c_proc c) as [i|] eqn:Ep; cbn; [|done]. intros ?. simplify_eq. rewrite kmach_set.
  split_and!; [by destruct (kmach k)|done|by exists c].
Qed.

Lemma getprocK i k p k' : kmM (getproc i) k = Ok p k' → K k' = K k ∧ frefs k' = frefs k ∧ ptable (K k) !! i = Some p.
Proof.
  unfold lift, getproc. go. destruct (ptable (kmach k) !! i) as [q|]; [|done].
  intros ?. simplify_eq. by rewrite kmach_set.
Qed.

(** The invariant speaks of the machine and the counts only. *)
Lemma fdinv_eq δ x k k' : K k' = K k → frefs k' = frefs k → fdinv δ x k → fdinv δ x k'.
Proof. intros EK Ef [H1' H2' H3' H4' H5']. split; rewrite ?EK, ?Ef; done. Qed.

Lemma fdinv_ext δ δ' x k : (∀ g, δ g = δ' g) → fdinv δ x k → fdinv δ' x k.
Proof. intros E [H1' H2' H3' H4' H5']. split; try done. intros f r Hf. rewrite <- E. auto. Qed.

Lemma current_eq m me me' : current m me → (∃ c, cpus (m_smp m) !! cur (m_smp m) = Some c ∧ c_proc c = Some me') →
  me' = me.
Proof. intros (c & ? & ? & _) (c' & ? & ?). congruence. Qed.

Lemma free_fd_spec l n fd : free_fd l n = Some fd → (n ≤ fd)%nat ∧ l !! (fd - n)%nat = Some None.
Proof.
  revert n. induction l as [|[f|] l IH]; intros n; cbn [free_fd]; [done| |].
  - intros [Hle Hl]%IH. split; [lia|]. replace (fd - n)%nat with (S (fd - S n)) by lia. done.
  - intros ?. simplify_eq. split; [done|]. by rewrite Nat.sub_diag.
Qed.

Lemma fdalloc_inv δ x k f fd k' : fdinv δ x k → fdalloc f k = Ok fd k' →
  (fd < 0 ∧ fdinv δ x k' ∧ K k' = K k) ∨
  (0 ≤ fd ∧ fdinv (bump f (-1) δ) x k' ∧ ∃ me p, current (K k') me ∧ ptable (K k') !! me = Some p ∧
     p_ofile p !! Z.to_nat fd = Some (Some f)).
Proof.
  intros Hi Hr. unfold fdalloc in Hr. apply bind_inv in Hr as (me & k1 & (E1 & F1 & Hme)%curprocK & Hr).
  apply bind_inv in Hr as (p & k2 & (E2 & F2 & Hp)%getprocK & Hr).
  assert (fdinv δ x k2) as Hi2 by (apply (fdinv_eq δ x k); [congruence|congruence|done]).
  pose proof (fi_cur _ _ _ Hi2) as (me' & q & Hc & Hq & Hd & Hx).
  assert (me' = me) as -> by (symmetry; eapply current_eq; [exact Hc|]; by rewrite E2, E1).
  rewrite <- E2, Hq in Hp. injection Hp as ->.
  destruct (free_fd (p_ofile p) 0) as [n|] eqn:En; [right|left].
  - apply free_fd_spec in En as [_ En]. rewrite Nat.sub_0_r in En.
    apply bind_inv in Hr as ([] & k3 & H3' & Hr). cbv [ret] in Hr. simplify_eq. split; [lia|].
    assert (fdinv (λ g, δ g + ind g None - ind g (Some f)) x k') as Hi3.
    { refine (fd_set δ x k2 me p n None (Some f) _ k' Hi2 Hc Hq En _ H3'). done. }
    split.
    + eapply fdinv_ext; [|exact Hi3]. intros g. rewrite ind_bump, ind_none. lia.
    + apply setprocK in H3' as [EK _]. rewrite EK, (list_alter_insert _ _ _ _ Hq). cbn [ptable set_ptable].
      eexists me, _. split_and!; [exact Hc|apply list_lookup_insert_eq; by eapply lookup_lt_Some|].
      cbn. rewrite Nat2Z.id. apply list_lookup_insert_eq. by eapply lookup_lt_Some.
  - cbv [ret] in Hr. simplify_eq. split_and!; [lia|done|congruence].
Qed.
End ops.

(** ** The process table under its lock *)

(** What a call that starts by taking a lock shows when it returns. *)
Lemma lock_inv {A} l (f : unit → M mach A) m a m' : quiet (m_smp m) →
  bind (smpM (acquire l)) f m = Ok a m' → lfree l m.
Proof.
  intros Hq Hr. apply bind_inv in Hr as ([] & m1 & E & _). unfold lift in E.
  destruct (acquire l (m_smp m)) as [[] s'|] eqn:Ea; [|done].
  destruct (acquire_inv _ _ _ (proj1 Hq) Ea) as [_ H0]. unfold lfree.
  pose proof (lockeds_free [] _ l Hq H0) as Hf. exact Hf.
Qed.

Lemma mok_quiet m : quiet (m_smp m) → length (ptable m) = NPROC → mok m.
Proof. intros [Hb _] Hl. by split. Qed.

Lemma alter_insert_eq {X} (l : list X) i f x : (i < length l)%nat → alter f i (<[i := x]> l) = <[i := f x]> l.
Proof.
  intros Hi. erewrite list_alter_insert by (by apply list_lookup_insert_eq). by rewrite list_insert_insert_eq.
Qed.

Lemma allocproc_inv s r s' : quiet (m_smp (ks_m s)) → length (ptable (ks_m s)) = NPROC →
  allocproc s = Ok r s' → reinit (m_smp (ks_m s)) (m_smp (ks_m s')) ∧
  (r = None ∧ ptable (ks_m s') = ptable (ks_m s) ∨
   ∃ i p v, ptable (ks_m s) !! i = Some p ∧ p_state p = UNUSED ∧
     ptable (ks_m s') = <[i := with_kstack v (with_pid (nextpid (ks_m s)) (with_state (match r with Some _ => EMBRYO | None => UNUSED end) p))]>
                          (ptable (ks_m s)) ∧ (r = Some i ∨ r = None)).
Proof.
  intros Hq Hl Hr. unfold allocproc in Hr. apply bind_inv in Hr as (o & s1 & E1 & Hr).
  unfold lift in E1. destruct (alloc_slot (ks_m s)) as [o' m1|] eqn:Ea; [|done]. simplify_eq.
  pose proof (lock_inv _ _ _ _ _ Hq Ea) as Hf. rewrite (alloc_slot_ok _ (mok_quiet _ Hq Hl) Hf) in Ea.
  destruct (find_proc unused (ptable (ks_m s))) as [i|] eqn:Ei.
  2:{ simplify_eq. cbv [ret] in Hr. simplify_eq. split; [apply reinit_refl|by left]. }
  destruct (find_proc_Some _ _ _ Ei) as (p & Hp & Hu & _). rewrite Hp in Ea. simplify_eq.
  apply bind_inv in Hr as (v & s2 & E2 & Hr). apply bool_decide_eq_true in Hu.
  set (s1 := set_ksm (embryo i p (ks_m s)) s) in *.
  assert (fr_at Rtab [] (ks_m s1) (ks_m s2)) as (b & Hre & _ & Hs & _ & Ht & _).
  { eapply (kalloc_fr (R := Rtab)); [exact Hq| |exact E2]. exists (m_smp (ks_m s)). split_and!; try done.
    - apply reinit_refl.
    - cbn. by rewrite length_insert. }
  cbn in Hs. rewrite <- Hs in Hre. assert (i < length (ptable (ks_m s)))%nat as Hi by eauto using lookup_lt_Some.
  apply bind_inv in Hr as ([] & s3 & E3 & Hr). cbv [lift setproc bind get put] in E3. injection E3 as <-.
  cbn in Ht. destruct (v =? 0); cbv [lift setproc bind get put ret] in Hr; injection Hr as <- <-; cbn;
    (split; [exact Hre|]; right; exists i, p, v; split_and!; [done..| |auto]); rewrite Ht;
    by rewrite !alter_insert_eq by done.
Qed.

(** ** The system calls *)

Section calls.
Context {T : Type} `{TxnFrame T} `{DevSw T} `{!DevFrame T} `{IrqOps T}.
Context (kend kpdpt : Z).
Implicit Types (k : ker T) (δ : nat → Z).
Abbreviation K := (@kmach T _).

(** A handler restores the invariant. *)
Definition restores {A} (m : M (ker T) A) : Prop := ∀ δ k a k', fdinv δ None k → m k = Ok a k' → fdinv δ None k'.

Lemma restores_keep {A} (m : M (ker T) A) : fr Rof K [] (λ _, []) m → rk m → restores m.
Proof. intros Hf Hk δ k a k'. by apply fdinv_keep. Qed.

Lemma restores_bind {A B} (m : M (ker T) A) (f : A → M (ker T) B) :
  restores m → (∀ a, restores (f a)) → restores (bind m f).
Proof. intros Hm Hf δ k b k' Hi Hr. apply bind_inv in Hr as (a & k1 & H1' & H2'). by eapply Hf, H2'; eapply Hm. Qed.

Lemma thisprocK k p k' : kkM thisproc k = Ok p k' →
  K k' = K k ∧ frefs k' = frefs k ∧ ∃ me, ptable (K k) !! me = Some p ∧
  ∃ c, cpus (m_smp (K k)) !! cur (m_smp (K k)) = Some c ∧ c_proc c = Some me.
Proof.
  unfold lift, thisproc, curproc, myproc, mycpu, getproc. go. unfold lift. cbn.
  destruct (cpus (m_smp (kmach k)) !! cur (m_smp (kmach k))) as [c|] eqn:Ec; cbn; [|done].
  destruct (c_proc c) as [i|] eqn:Ep; cbn; [|done].
  destruct (ptable (kmach k) !! i) as [q|] eqn:Eq; cbn; [|done]. intros ?. simplify_eq.
  split_and!; [|done|by eauto 6].
  unfold set_kkst, set_kmem. cbn. unfold kmach at 1. cbn. rewrite tf_mach. by destruct (kmach k).
Qed.

Lemma argfdK n δ x k fd f k' : fdinv δ x k → argfd n k = Ok (Some (fd, f)) k' →
  fdinv δ x k' ∧ ∃ me p, current (K k') me ∧ ptable (K k') !! me = Some p ∧ p_ofile p !! fd = Some (Some f).
Proof.
  intros Hi Hr. assert (fdinv δ x k') as Hi' by (eapply fdinv_keep; [apply argfd_fr| |done..]; apply argfd_rk).
  split; [done|]. unfold argfd in Hr. apply bind_inv in Hr as (z & k1 & _ & Hr). case_match; [done|].
  apply bind_inv in Hr as (p & k2 & (EK & EF & me & Hp & Hc)%thisprocK & Hr).
  destruct (p_ofile p !! Z.to_nat z) as [o|] eqn:Eo; [|done].
  destruct o; [|done]. cbv [bind need ret] in Hr. simplify_eq.
  pose proof (fi_cur _ _ _ Hi') as (me' & q & Hc' & _). exists me, p. rewrite EK.
  split_and!; [|done..]. rewrite EK in Hc'. by rewrite (current_eq _ _ _ Hc' Hc).
Qed.

Lemma sys_dup_restores : restores sys_dup.
Proof.
  intros δ k a k' Hi Hr. unfold sys_dup in Hr. apply bind_inv in Hr as (r & k1 & H1' & Hr).
  assert (fdinv δ None k1) as Hi1 by (eapply fdinv_keep; [apply argfd_fr|apply argfd_rk|done..]).
  destruct r as [[fd f]|]; [|cbv [ret] in Hr; by simplify_eq].
  apply bind_inv in Hr as (z & k2 & H2' & Hr).
  destruct (fdalloc_inv _ _ _ _ _ _ Hi1 H2') as [(Hz & Hi2 & _)|(Hz & Hi2 & _)]; case_match; try lia.
  - cbv [ret] in Hr. by simplify_eq.
  - apply bind_inv in Hr as (g & k3 & H3' & Hr). cbv [ret] in Hr. simplify_eq.
    apply (filedup_inv _ _ _ _ _ _ Hi2) in H3'. eapply fdinv_ext; [|exact H3'].
    intros h. rewrite !ind_bump. lia.
Qed.

Lemma sys_close_restores : restores (sys_close kend).
Proof.
  intros δ k a k' Hi Hr. unfold sys_close in Hr. apply bind_inv in Hr as (r & k1 & H1' & Hr).
  destruct r as [[fd f]|].
  2:{ cbv [ret] in Hr. simplify_eq. eapply fdinv_keep; [apply argfd_fr|apply argfd_rk|done..]. }
  destruct (argfdK _ _ _ _ _ _ _ Hi H1') as (Hi1 & me & p & Hc & Hp & Ho).
  apply bind_inv in Hr as (me' & k2 & (E2 & F2 & Hme)%curprocK & Hr).
  assert (me' = me) as -> by (eapply current_eq; [exact Hc|done]).
  apply bind_inv in Hr as ([] & k3 & H3' & Hr). apply bind_inv in Hr as ([] & k4 & H4' & Hr).
  cbv [ret] in Hr. simplify_eq.
  assert (fdinv (λ g, δ g + ind g (Some f) - ind g None) None k3) as Hi3.
  { refine (fd_set δ None k2 me p fd (Some f) None _ k3 _ _ _ Ho _ H3'); [|by rewrite E2..|done].
    by apply (fdinv_eq δ None k1). }
  apply (fileclose_inv _ _ _ _ _ _ _ Hi3) in H4'. eapply fdinv_ext; [|exact H4'].
  intros h. rewrite ind_bump, ind_none. lia.
Qed.

(** Opening: the reference of the new file passes to the descriptor. *)
Lemma open_restores path omode : restores (open kend path omode).
Proof.
  intros δ k a k' Hi Hr. unfold open in Hr. apply bind_inv in Hr as ([] & k1 & H1' & Hr).
  assert (fdinv δ None k1) as Hi1.
  { eapply fdinv_keep; [apply begin_opK_fr| |done..]. unfold begin_opK. rkeep. }
  apply bind_inv in Hr as (r & k2 & H2' & Hr).
  assert (fdinv δ None k2) as Hi2 by (eapply fdinv_keep; [apply open_inode_fr|apply open_inode_rk|done..]).
  destruct r as [ip|]; [|cbv [ret] in Hr; by simplify_eq].
  apply bind_inv in Hr as (f & k3 & H3' & Hr). apply (filealloc_inv _ _ _ _ _ Hi2) in H3'.
  apply bind_inv in Hr as (fd & k4 & H4' & Hr). destruct f as [f|].
  - destruct (fdalloc_inv _ _ _ _ _ _ H3' H4') as [(Hz & Hi4 & _)|(Hz & Hi4 & _)]; case_match; try lia.
    + apply bind_inv in Hr as ([] & k5 & H5' & Hr). apply (fileclose_inv _ _ _ _ _ _ _ Hi4) in H5'.
      apply (fdinv_ext _ δ) in H5'; [|intros h; rewrite !ind_bump; lia].
      eapply fdinv_keep; [| |exact H5'|exact Hr]; [frame|unfold end_opK; rkeep].
    + apply (fdinv_ext _ δ) in Hi4; [|intros h; rewrite !ind_bump; lia].
      eapply fdinv_keep; [| |exact Hi4|exact Hr]; [frame|unfold end_opK; rkeep].
  - cbv [ret] in H4'. simplify_eq. eapply fdinv_keep; [| |exact H3'|exact Hr]; [frame|unfold end_opK; rkeep].
Qed.

Lemma sys_open_restores : restores (sys_open kend).
Proof.
  unfold sys_open. apply restores_bind; [apply restores_keep; [frame|rkeep]|]. intros [r|].
  - apply restores_bind; [apply restores_keep; [frame|rkeep]|]. intros omode.
    apply restores_bind; [apply restores_keep; [frame|rkeep]|]. intros path. apply open_restores.
  - apply restores_keep; [frame|rkeep].
Qed.

#[local] Hint Resolve setpipe_fr : frame.

(** The two files of a pipe have a reference each, and no descriptor yet. *)
Lemma pipealloc_inv δ k r k' : fdinv δ None k → pipealloc kend k = Ok r k' →
  fdinv (match r with Some (f0, f1) => bump f1 1 (bump f0 1 δ) | None => δ end) None k'.
Proof.
  intros Hi Hr. unfold pipealloc in Hr. apply bind_inv in Hr as (o0 & k1 & E1 & Hr).
  apply (filealloc_inv _ _ _ _ _ Hi) in E1. apply bind_inv in Hr as (o1 & k2 & E2 & Hr).
  destruct o0 as [f0|].
  2:{ cbv [ret] in E2. simplify_eq. cbv [bind ret] in Hr. by simplify_eq. }
  apply (filealloc_inv _ _ _ _ _ E1) in E2. apply bind_inv in Hr as (p & k3 & E3 & Hr).
  destruct o1 as [f1|].
  - assert (fdinv (bump f1 1 (bump f0 1 δ)) None k3) as Hi3.
    { eapply fdinv_keep; [| |exact E2|exact E3]; [frame|rkeep]. }
    case_match.
    + apply bind_inv in Hr as ([] & k4 & E4 & Hr). apply (fileclose_inv _ _ _ _ _ _ _ Hi3) in E4.
      apply bind_inv in Hr as ([] & k5 & E5 & Hr). apply (fileclose_inv _ _ _ _ _ _ _ E4) in E5.
      cbv [ret] in Hr. simplify_eq. eapply fdinv_ext; [|exact E5]. intros g. rewrite !ind_bump. lia.
    + assert (fdinv (bump f1 1 (bump f0 1 δ)) None k') as Hi'.
      { assert (∀ a, fr Rof idm [] (λ _, []) (smpM (initlock (L_pipe a)))) by (intros; by apply initlock_fr).
        eapply fdinv_keep; [| |exact Hi3|exact Hr]; [frame|rkeep]. }
      repeat (apply bind_inv in Hr as (? & ? & _ & Hr)). cbv [ret] in Hr. by simplify_eq.
  - cbv [ret] in E3. simplify_eq. apply bind_inv in Hr as ([] & k4 & E4 & Hr).
    apply (fileclose_inv _ _ _ _ _ _ _ E2) in E4. cbv [bind ret] in Hr. simplify_eq.
    eapply fdinv_ext; [|exact E4]. intros g. rewrite !ind_bump. lia.
Qed.

Lemma close_both δ f g k z k' : fdinv δ None k →
  (fileclose kend f ;;; fileclose kend g ;;; ret (-1)) k = Ok z k' → fdinv (bump g (-1) (bump f (-1) δ)) None k'.
Proof.
  intros Hi Hr. apply bind_inv in Hr as ([] & k1 & E1 & Hr). apply (fileclose_inv _ _ _ _ _ _ _ Hi) in E1.
  apply bind_inv in Hr as ([] & k2 & E2 & Hr). apply (fileclose_inv _ _ _ _ _ _ _ E1) in E2.
  cbv [ret] in Hr. by simplify_eq.
Qed.

Lemma sys_pipe_restores : restores (sys_pipe kend).
Proof.
  unfold sys_pipe. apply restores_bind; [apply restores_keep; [frame|rkeep]|]. intros [a|].
  2: apply restores_keep; [frame|rkeep].
  intros δ k r k' Hi Hr. apply bind_inv in Hr as (o & k1 & E1 & Hr). apply (pipealloc_inv _ _ _ _ Hi) in E1.
  destruct o as [[rf wf]|]; [|cbv [ret] in Hr; by simplify_eq].
  apply bind_inv in Hr as (fd0 & k2 & E2 & Hr). apply bind_inv in Hr as (fd1 & k3 & E3 & Hr).
  apply bind_inv in Hr as (me & k4 & (E4 & F4 & Hme)%curprocK & Hr).
  assert (∀ δ', fdinv δ' None k3 → fdinv δ' None k4) as Hk by (intros; by apply (fdinv_eq _ _ k3)).
  destruct (fdalloc_inv _ _ _ _ _ _ E1 E2) as [(Hz & Hi2 & _)|(Hz & Hi2 & me' & p & Hc & Hp & Ho)];
    destruct (Z.ltb_spec fd0 0) as [Hlt|Hge]; try lia.
  - cbv [ret] in E3. simplify_eq. cbn [orb] in Hr. rewrite (proj2 (Z.leb_gt _ _)) in Hr by lia.
    apply bind_inv in Hr as ([] & k5 & E5 & Hr). cbv [whenM ret] in E5. simplify_eq.
    apply Hk in Hi2. apply (close_both _ _ _ _ _ _ Hi2) in Hr.
    eapply fdinv_ext; [|exact Hr]. intros g. rewrite !ind_bump. lia.
  - cbn [orb] in Hr. destruct (fdalloc_inv _ _ _ _ _ _ Hi2 E3) as [(Hz1 & Hi3 & E3K)|(Hz1 & Hi3 & _)];
      destruct (Z.ltb_spec fd1 0) as [Hlt1|Hge1]; try lia.
    + rewrite (proj2 (Z.leb_le _ _)) in Hr by lia. apply bind_inv in Hr as ([] & k5 & E5 & Hr).
      rewrite <- E3K in Hc, Hp. assert (me = me') as -> by (by eapply current_eq).
      rewrite <- E4 in Hc, Hp. apply Hk in Hi3.
      eapply (fd_set _ _ _ _ _ _ (Some rf) None _ _ Hi3 Hc Hp Ho) in E5 as Hi5; [|reflexivity].
      apply (close_both _ _ _ _ _ _ Hi5) in Hr. eapply fdinv_ext; [|exact Hr].
      intros g. rewrite !ind_bump, ind_none. lia.
    + apply Hk in Hi3. apply (fdinv_ext _ δ) in Hi3; [|intros g; rewrite !ind_bump; lia].
      eapply fdinv_keep; [| |exact Hi3|exact Hr]; [frame|rkeep].
Qed.

(** ** fork *)

Lemma kkM_run {A} (m : M kst A) k a k' : kkM m k = Ok a k' →
  ∃ s', m (kkst k) = Ok a s' ∧ K k' = ks_m s' ∧ frefs k' = frefs k.
Proof.
  unfold lift. destruct (m (kkst k)) as [b s'|]; [|done]. intros ?. simplify_eq. exists s'. split_and!; [done| |done].
  unfold set_kkst, set_kmem. cbn. unfold kmach. cbn. by rewrite tf_mach.
Qed.

Lemma slot_at m m' i p : ptable m !! i = Some p → fr_at Rof [] m m' →
  ∃ p', ptable m' !! i = Some p' ∧ slotv p' = slotv p.
Proof.
  intros Hp (b & _ & _ & _ & _ & HR). apply (f_equal (lookup i)) in HR. rewrite !list_lookup_fmap, Hp in HR. cbn in HR.
  destruct (ptable m' !! i) as [p'|]; [|done]. exists p'. split; [done|]. exact (f_equal (default (slotv p)) HR).
Qed.

(** The child is in slot [np], still an embryo, with descriptors [c]. *)
Definition forking (np : nat) (c : list (option nat)) δ k : Prop :=
  fdinv δ (Some np) k ∧ ∃ q, ptable (K k) !! np = Some q ∧ slotv q = (c, true).

Lemma forking_keep {A} np c δ k k' (m : M (ker T) A) a :
  fr Rof K [] (λ _, []) m → rk m → forking np c δ k → m k = Ok a k' → forking np c δ k'.
Proof.
  intros Hm Hk [Hi (q & Hq & Es)] Hr. split; [by eapply fdinv_keep|].
  assert (fr_at Rof [] (K k) (K k')) as Hat by (eapply (Hm k); [apply Hi|by eapply fdinv_at|done]).
  destruct (slot_at _ _ _ _ Hq Hat) as (q' & Hq' & E). exists q'. by rewrite E.
Qed.

Lemma allocproc_fork δ k r k' : fdinv δ None k → kkM allocproc k = Ok r k' →
  match r with Some np => forking np (replicate NOFILE None) δ k' | None => fdinv δ None k' end.
Proof.
  intros Hi (s' & Hr & EK & Ef)%kkM_run. pose proof (fi_len _ _ _ Hi) as Hl.
  destruct (allocproc_inv (kkst k) r s' (fi_quiet _ _ _ Hi) Hl Hr) as [Hre [[-> Ht]|(i & p & v & Hp & Hu & Ht & Ho)]].
  - cbn in *. apply (fdinv_change δ δ None k); [done| |].
    + exists (m_smp (K k')). rewrite EK. split_and!; [done..|by rewrite Ht|]. unfold Rof. by rewrite Ht.
    + rewrite Ef. intros f r' Hf. exists r'. split; [done|lia].
  - cbn in Hp, Ht, Hre. rewrite <- EK in Ht, Hre.
    destruct (fi_slots _ _ _ Hi i p Hp) as [Hn Hd].
    assert (dead p = true) as Hdp by (unfold dead; by rewrite Hu). specialize (Hd Hdp (ltac:(done))).
    assert (∀ me, current (K k) me → i ≠ me) as Hne.
    { intros me Hc ->. destruct (fi_cur _ _ _ Hi) as (me' & q & Hc' & Hq & Hdq & _).
      assert (me = me') as ->; [|congruence].
      destruct Hc as (c & ? & ? & _), Hc' as (c' & ? & ? & _). congruence. }
    assert (fdinv δ r k') as Hi'.
    { eapply (fdinv_slot δ δ None r k k' i p); [done|done|exact Ht|done|done|..].
      - intros g. cbn. lia.
      - done.
      - done.
      - intros me Hc. split; [|intros E; by destruct (Hne me Hc)].
        destruct Ho as [->| ->]; [|done]. intros [= E]. by destruct (Hne me Hc).
      - by left. }
    destruct Ho as [->| ->]; [|done]. split; [done|]. rewrite Ht.
    eexists. split; [apply list_lookup_insert_eq; by eapply lookup_lt_Some|]. unfold slotv. cbn. by rewrite Hd.
Qed.

(** A change of the child's slot. *)
Lemma forking_set np c c' f δ δ' k k' : forking np c δ k → kmM (setproc np f) k = Ok tt k' →
  (∀ q, p_ofile q = c → dead q = true → p_ofile (f q) = c' ∧ dead (f q) = true) → length c' = NOFILE →
  (∀ g, δ' g = δ g + cnt g c - cnt g c') → forking np c' δ' k'.
Proof.
  intros [Hi (q & Hq & Es)] [EK Ef]%setprocK Hf Hl Hδ. rewrite (list_alter_insert _ _ _ _ Hq) in EK.
  assert (p_ofile q = c ∧ dead q = true) as [Ec Ed] by (by inversion Es). destruct (Hf q Ec Ed) as [Ec' Ed'].
  split.
  - eapply (fdinv_slot δ δ' (Some np) (Some np) k k' np q (f q)); [done|done|by rewrite EK|
      rewrite EK; apply reinit_refl|done|by rewrite Ec, Ec'|by rewrite Ec'|done| |by left].
    intros me Hc. assert (Some np ≠ Some me) as Hne; [|split; [done|intros ->; done]].
    destruct (fi_cur _ _ _ Hi) as (me' & ? & Hc' & _ & _ & Hx). 
    destruct Hc as (? & ? & ? & _), Hc' as (? & ? & ? & _). congruence.
  - rewrite EK. exists (f q). split; [apply list_lookup_insert_eq; by eapply lookup_lt_Some|].
    unfold slotv. by rewrite Ec', Ed'.
Qed.

Lemma dup_fd_fork np fd o c δ k k' : forking np c δ k → c !! fd = Some None →
  dup_fd np fd o k = Ok tt k' → forking np (<[fd := o]> c) δ k'.
Proof.
  intros Hk Hc Hr. destruct o as [f|]; cbn in Hr.
  2:{ cbv [ret] in Hr. simplify_eq. by rewrite list_insert_id. }
  apply bind_inv in Hr as (g & k1 & E1 & Hr). destruct (filedup_refs _ _ _ _ E1) as (-> & _).
  assert (forking np c (bump f 1 δ) k1) as Hk1.
  { destruct Hk as [Hi (q & Hq & Es)]. split; [by eapply filedup_inv|].
    assert (fr_at Rof [] (K k) (K k1)) as Hat by (eapply (filedup_fr (R := Rof)); [apply Hi|by eapply fdinv_at|done]).
    eapply slot_at in Hat as (q' & Hq' & E); [|exact Hq]. exists q'. by rewrite E. }
  eapply forking_set; [exact Hk1|exact Hr|intros q <- Hd; by split| |].
  - rewrite length_insert. destruct Hk as [Hi (q & Hq & Es)].
    assert (p_ofile q = c) as <- by (by inversion Es). by eapply (fi_slots _ _ _ Hi).
  - intros h. rewrite ind_bump, (cnt_insert _ _ _ _ _ Hc), ind_none. lia.
Qed.

Lemma dup_fds_fork np l fd c δ k k' : forking np c δ k →
  (∀ j, (fd ≤ j < fd + length l)%nat → c !! j = Some None) →
  dup_fds np fd l k = Ok tt k' → ∃ c', forking np c' δ k'.
Proof.
  revert fd c k. induction l as [|o l IH]; intros fd c k Hk Hc Hr; cbn in Hr.
  { cbv [ret] in Hr. simplify_eq. by exists c. }
  apply bind_inv in Hr as ([] & k1 & E1 & Hr). cbn [length] in Hc.
  eapply dup_fd_fork in E1; [|exact Hk|apply Hc; lia]. eapply IH; [exact E1| |exact Hr].
  intros j Hj. rewrite list_lookup_insert_ne by lia. apply Hc. lia.
Qed.

(** The child starts, or its slot is given back. *)
Lemma forking_end np c f δ k k' q : forking np c δ k → ptable (K k) !! np = Some q →
  p_ofile (f q) = p_ofile q → dead (f q) = false ∨ c = replicate NOFILE None →
  ptable (K k') = <[np := f q]> (ptable (K k)) → reinit (m_smp (K k)) (m_smp (K k')) → frefs k' = frefs k →
  fdinv δ None k'.
Proof.
  intros [Hi (q' & Hq' & Es)] Hq Ef Hd Ht Hre Hfr. simplify_eq.
  assert (p_ofile q' = c) as Ec by (by inversion Es).
  eapply (fdinv_slot δ δ (Some np) None k k' np q' (f q')); [done|done|exact Ht|done|done|..].
  - intros g. rewrite Ef. lia.
  - rewrite Ef. by eapply (fi_slots _ _ _ Hi).
  - intros Hdf _. rewrite Ef, Ec. destruct Hd; congruence.
  - intros me Hc. split; [done|]. intros <-. destruct (fi_cur _ _ _ Hi) as (me' & ? & Hc' & _ & _ & Hx).
    destruct Hc as (? & ? & ? & _), Hc' as (? & ? & ? & _). congruence.
  - intros j _. destruct (decide (j = np)) as [->|Hne]; [by right|left; congruence].
Qed.

Ltac fork_step Hr k1 Hk :=
  let a := fresh in let E := fresh in
  apply bind_inv in Hr as (a & k1 & E & Hr);
  eapply forking_keep in E; [|by frame|by rkeep|exact Hk]; clear Hk; rename E into Hk; try match type of a with unit => destruct a end.

Lemma forking_get np c δ k q k' : forking np c δ k → kmM (getproc np) k = Ok q k' →
  forking np c δ k' ∧ ptable (K k') !! np = Some q.
Proof.
  intros Hk Hr. split; [refine (forking_keep _ _ _ _ _ _ _ _ _ Hk Hr); [frame|rkeep]|].
  apply getprocK in Hr as (-> & _ & Hq). done.
Qed.

Lemma start_child np c δ k k' (z : Z) : forking np c δ k →
  (kmM (smpM (acquire L_ptable)) ;;; kmM (setproc np (with_state RUNNABLE)) ;;;
   kmM (smpM (release L_ptable)) ;;; ret z) k = Ok z k' → fdinv δ None k'.
Proof.
  intros Hk Hr. pose proof Hk as [Hi (q & Hq & Es)].
  pose proof (mok_quiet _ (fi_quiet _ _ _ Hi) (fi_len _ _ _ Hi)) as Hm.
  apply bind_inv in Hr as ([] & k1 & E1 & Hr). unfold lift in E1 at 1.
  destruct (smpM (acquire L_ptable) (K k)) as [[] m1|] eqn:Ea; [|done].
  assert (lfree L_ptable (K k)) as Hf.
  { apply (lock_inv _ ret _ tt m1 (fi_quiet _ _ _ Hi)). unfold bind. by rewrite Ea. }
  rewrite (lock_ok _ _ Hm Hf) in Ea. injection Ea as <-. injection E1 as <-.
  apply bind_inv in Hr as ([] & k2 & [E2 F2]%setprocK & Hr). rewrite kmach_set in E2.
  apply bind_inv in Hr as ([] & k3 & E3 & Hr). unfold lift in E3 at 1. rewrite E2, (unlock_ok _ _ _ Hm Hf) in E3.
  injection E3 as <-. cbv [ret] in Hr. simplify_eq.
  eapply (forking_end np c (with_state RUNNABLE)); [exact Hk|exact Hq|done|by left|..].
  - rewrite kmach_set. cbn. by rewrite (list_alter_insert _ _ _ _ Hq).
  - rewrite kmach_set. apply reinit_refl.
  - done.
Qed.

Lemma give_back np δ k k' q : forking np (replicate NOFILE None) δ k → ptable (K k) !! np = Some q →
  (kkM (kfree kend (p_kstack q)) ;;; kmM (setproc np (with_kstack 0)) ;;;
   kmM (setproc np (with_state UNUSED)) ;;; ret (-1)) k = Ok (-1) k' → fdinv δ None k'.
Proof.
  intros Hk Hq Hr. fork_step Hr k1 Hk. fork_step Hr k2 Hk. pose proof Hk as [_ (q' & Hq' & _)].
  apply bind_inv in Hr as ([] & k3 & [E3 F3]%setprocK & Hr). cbv [ret] in Hr. simplify_eq.
  eapply (forking_end np _ (with_state UNUSED)); [exact Hk|exact Hq'|done|by right|..].
  - rewrite E3. cbn. by rewrite (list_alter_insert _ _ _ _ Hq').
  - rewrite E3. apply reinit_refl.
  - done.
Qed.

Lemma fork_restores : restores (fork kend kpdpt).
Proof.
  intros δ k z k' Hi Hr. unfold fork in Hr. apply bind_inv in Hr as (o & k1 & E1 & Hr).
  apply (allocproc_fork _ _ _ _ Hi) in E1 as Hk. destruct o as [np|]; [|cbv [ret] in Hr; by simplify_eq].
  clear E1 Hi. apply bind_inv in Hr as (me & k2 & E2 & Hr).
  eapply forking_keep in E2; [|by frame|by rkeep|exact Hk]. clear Hk. rename E2 into Hk.
  apply bind_inv in Hr as (p & k3 & E3 & Hr). pose proof (getprocK _ _ _ _ E3) as (EK & _ & Hp).
  assert (length (p_ofile p) = NOFILE) as Hl by (by eapply (fi_slots _ _ _ (proj1 Hk))).
  eapply forking_keep in E3; [|by frame|by rkeep|exact Hk]. clear Hk. rename E3 into Hk.
  fork_step Hr k4 Hk. fork_step Hr k5 Hk. case_match.
  - apply bind_inv in Hr as (q & k6 & E6 & Hr). destruct (forking_get _ _ _ _ _ _ Hk E6) as [Hk6 Hq].
    assert (z = -1) as -> by (repeat (apply bind_inv in Hr as (? & ? & _ & Hr)); cbv [ret] in Hr; by simplify_eq).
    by eapply give_back.
  - fork_step Hr k6 Hk. fork_step Hr k7 Hk. fork_step Hr k8 Hk.
    apply bind_inv in Hr as ([] & k9 & E9 & Hr). eapply dup_fds_fork in E9 as [c Hk9]; [|exact Hk|].
    2:{ intros j Hj. apply lookup_replicate_2. lia. }
    clear Hk. fork_step Hr k10 Hk9. fork_step Hr k11 Hk9. fork_step Hr k12 Hk9. fork_step Hr k13 Hk9.
    apply bind_inv in Hr as (q & k14 & E14 & Hr). destruct (forking_get _ _ _ _ _ _ Hk9 E14) as [Hk14 _].
    assert (z = p_pid q) as -> by (repeat (apply bind_inv in Hr as (? & ? & _ & Hr)); cbv [ret] in Hr; by simplify_eq).
    by eapply start_child.
Qed.

(** ** wait and kill *)

Lemma fdinv_running δ x k : fdinv δ x k → ∃ me p, running (K k) me p ∧ dead p = false.
Proof.
  intros [Hq Hl (me & p & Hc & Hp & Hd & _) _ _]. exists me, p.
  split; [split_and!; [by apply mok_quiet|done|exact Hc]|done].
Qed.

Lemma wait_restores : restores (kkM (wait kend)).
Proof.
  intros δ k z k' Hi (s' & Hr & EK & Ef)%kkM_run.
  destruct (fdinv_running _ _ _ Hi) as (me & p & Hrun & Hd). pose proof (fi_quiet _ _ _ Hi) as Hq.
  assert (lfree L_ptable (K k)) as Hf.
  { unfold wait in Hr. apply bind_inv in Hr as (me' & s1 & E1 & Hr). unfold lift in E1 at 1. unfold curproc in E1.
    erewrite bind_ok in E1 by (by eapply myproc_ok). cbv [need ret bind] in E1. injection E1 as <- <-.
    apply bind_inv in Hr as ([] & s1 & E1 & _). unfold lift in E1 at 1. cbn [ks_m set_ksm kkst] in E1.
    destruct (smpM (acquire L_ptable) (K k)) as [[] m1|] eqn:Ea; [|done].
    apply (lock_inv _ ret _ tt m1 Hq). unfold bind. by rewrite Ea. }
  destruct (wait_inv kend (kkst k) me p Hrun Hf z s' Hq Hr) as [->|(i & q & Hp & Hz & Ht & Hre & _)].
  { by apply (fdinv_eq _ _ k). }
  cbn in Hp, Ht, Hre. rewrite <- EK in Ht, Hre.
  destruct (fi_slots _ _ _ Hi i q Hp) as [Hl Hdq].
  eapply (fdinv_slot δ δ None None k k' i q); [done|done|exact Ht|done|done|intros; cbn; lia|done|..].
  - intros _ _. apply Hdq; [|done]. unfold dead. by rewrite Hz.
  - intros me' Hc. split; [done|]. intros ->. destruct Hrun as (_ & Hme & Hc').
    assert (me' = me) as ->; [|unfold dead in Hd; simplify_eq; by rewrite Hz in Hd].
    destruct Hc as (? & ? & ? & _), Hc' as (? & ? & ? & _). congruence.
  - by left.
Qed.

Lemma kill_table_slotv pid l t : kill_table pid l = Some t → slotv <$> t = slotv <$> l.
Proof.
  revert t. induction l as [|p l IH]; intros t; cbn [kill_table]; [done|].
  case_match.
  - intros [= <-]. rewrite !fmap_cons. f_equal. unfold kill_proc, slotv, dead. cbv zeta. case_match eqn:Es; [|done].
    apply bool_decide_eq_true in Es. cbn in Es |- *. by rewrite Es.
  - destruct (kill_table pid l); [|done]. intros [= <-]. rewrite !fmap_cons. f_equal. by apply IH.
Qed.

Lemma kill_restores pid : restores (kmM (kill pid)).
Proof.
  intros δ k z k' Hi Hr. unfold lift in Hr. destruct (kill pid (K k)) as [z' m'|] eqn:E; [|done]. simplify_eq.
  pose proof (lock_inv _ _ _ _ _ (fi_quiet _ _ _ Hi) E) as Hf.
  rewrite (kill_ok _ _ (mok_quiet _ (fi_quiet _ _ _ Hi) (fi_len _ _ _ Hi)) Hf) in E.
  apply (fdinv_change δ δ None k); [done| |].
  2:{ intros f r' Hr. exists r'. split; [done|lia]. }
  rewrite kmach_set. destruct (kill_table pid (ptable (K k))) as [t|] eqn:Et; simplify_eq; [|by eapply fdinv_at].
  apply kill_table_slotv in Et. exists (m_smp (K k)). split_and!; try done; [apply reinit_refl|].
  cbn. apply (f_equal length) in Et. rewrite !length_fmap in Et. rewrite Et. apply Hi.
Qed.

(** ** Every call of the table *)

Lemma exit_never k a k' : exit kend k ≠ Ok a k'.
Proof.
  intros Hr. unfold exit in Hr. apply bind_inv in Hr as (me & k1 & _ & Hr).
  apply bind_inv in Hr as (m & k2 & _ & Hr). case_match; [done|].
  repeat (apply bind_inv in Hr as (? & ? & _ & Hr)).
  unfold lift in Hr at 1. destruct (exit_locked me _) as [u m'|] eqn:E; [|done]. clear Hr. unfold exit_locked in E.
  by repeat (apply bind_inv in E as (? & ? & _ & E)).
Qed.

Lemma syscalls_restore : Forall (λ o, match o with Some h => restores h | None => True end) (syscalls kend kpdpt).
Proof.
  unfold syscalls. repeat apply Forall_cons_2; [exact I|..|apply Forall_nil_2].
  - apply fork_restores.
  - intros δ k z k' _ Hr. unfold sys_exit in Hr. apply bind_inv in Hr as (a & k1 & E & _). by apply exit_never in E.
  - apply wait_restores.
  - apply sys_pipe_restores.
  - apply restores_keep; [frame|apply sys_read_rk].
  - unfold sys_kill. apply restores_bind; [apply restores_keep; [frame|rkeep]|intros; apply kill_restores].
  - apply restores_keep; [frame|apply sys_exec_rk].
  - apply restores_keep; [frame|apply sys_fstat_rk].
  - apply restores_keep; [frame|apply sys_chdir_rk].
  - apply sys_dup_restores.
  - unfold sys_getpid. apply restores_keep; [frame|rkeep].
  - unfold sys_sbrk. apply restores_keep; [frame|rkeep].
  - apply restores_keep; [frame|apply sys_sleep_rk].
  - unfold sys_uptime. apply restores_keep; [frame|rkeep].
  - apply sys_open_restores.
  - apply restores_keep; [frame|apply sys_write_rk].
  - apply restores_keep; [frame|apply sys_mknod_rk].
  - apply restores_keep; [frame|apply sys_unlink_rk].
  - apply restores_keep; [frame|apply sys_link_rk].
  - apply restores_keep; [frame|apply sys_mkdir_rk].
  - apply sys_close_restores.
  - apply restores_keep; [frame|apply sys_chmod_rk].
Qed.

Lemma syscall_restores : restores (syscall kend kpdpt).
Proof.
  unfold syscall. apply restores_bind; [apply restores_keep; [frame|rkeep]|]. intros p. cbv zeta.
  assert (∀ x, restores (set_eax x)) as He by (intros; apply restores_keep; [frame|apply set_eax_rk]).
  destruct (_ && _); [|apply He]. destruct (syscalls kend kpdpt !! _) as [[h|]|] eqn:E; [|apply He..].
  apply restores_bind; [|intros; apply He].
  exact (proj1 (Forall_lookup _ _) syscalls_restore _ _ E).
Qed.

(** ** Traps *)

Lemma restores_exit_when b : restores (whenM b (exit kend)).
Proof.
  destruct b; cbn [whenM]; [|apply restores_keep; [frame|rkeep]]. intros δ k a k' _ Hr. by apply exit_never in Hr.
Qed.

Lemma exit_if_killed_restores : restores (exit_if_killed kend).
Proof.
  unfold exit_if_killed. apply restores_bind; [apply restores_keep; [frame|rkeep]|]. intros. apply restores_exit_when.
Qed.

Lemma exit_if_killed_user_restores tf : restores (exit_if_killed_user kend tf).
Proof.
  unfold exit_if_killed_user. apply restores_bind; [apply restores_keep; [frame|rkeep]|].
  intros [i|]; [|apply restores_keep; [frame|rkeep]].
  apply restores_bind; [apply restores_keep; [frame|rkeep]|]. intros. apply restores_exit_when.
Qed.

Lemma trap_restores tf : IrqFrame T → restores (trap kend kpdpt tf).
Proof.
  intros [Hi Hk Hu]. unfold trap. case_match.
  - apply restores_bind; [apply exit_if_killed_restores|intros _].
    apply restores_bind; [apply restores_keep; [frame|rkeep]|intros me].
    apply restores_bind; [apply restores_keep; [frame|rkeep]|intros _].
    apply restores_bind; [apply syscall_restores|intros _; apply exit_if_killed_restores].
  - apply restores_bind.
    { apply restores_keep; unfold trap_dispatch, timer_irq, irqM; cbv zeta; [frame|rkeep]. }
    intros _. apply restores_bind; [apply exit_if_killed_user_restores|intros _].
    apply restores_bind; [|intros _; apply exit_if_killed_user_restores].
    unfold yield_on_tick. apply restores_keep; [frame|rkeep].
Qed.
End calls.
