(* ===== verification/Kernel.v ===== *)
(** * The kernel put together

    The layers of the library at the types the kernel has: the console over
    the log over the buffer cache, under files, processes and traps.  The
    theorems are about [trap] as a whole, the one entry of the kernel after
    booting: for every system call and every interrupt. *)

From S2P Require Import Prelude Bytes Spinlock Sched Bio BufLayer Ondisk Log Txn CString Fs Dir Kalloc Vm Pipe File Proc Syscall Exec Sysfile Trap Kbd Console Frame FrameFs FrameKer FrameCon ProcThms WaitThms FdRefs.

Definition kernel : Type := ker (con (log bio)).

(** [procdump] prints the table, which is in [dump]. *)
Definition ktrap (kend kpdpt : Z) (dump : list Z) (tf : trapframe) : M kernel unit :=
  @trap (con (log bio)) con_ops con_dev (con_irq dump) kend kpdpt tf.

(** ** A process that duplicates its only descriptor *)

Definition ex_ker_proc : proc := with_ofile (Some 0%nat :: replicate 15 None) (with_pid 1 (with_state RUNNING zero_proc)).
Definition ex_ker_mach : mach :=
  mkMach (mkSmp 0 [mkCpu true 0 true (Some 0%nat)] (λ _, free_lock)) (ex_ker_proc :: replicate 63 zero_proc) 2 (Some 0%nat).
Definition ex_kernel : kernel :=
  mkKer (mkFs (mkCon (mkLog (mkBio ex_ker_mach [] ∅ 0 []) 0 0 0 false 0 0 [])
                (mkInput (replicate 128 0) 0 0 0) (mkCga (replicate 2000 0) 0) true false false [] [] (0, [])) [])
    (ks_k ex_kst) (λ _, mkPipe (replicate 512 0) 0 0 false false)
    (mkFile FD_INODE 1 true false 0 0 0 :: replicate 99 (mkFile FD_NONE 0 false false 0 0 0)) 0 false.
(** [dup(0)] *)
Definition ex_dup_tf : trapframe := mkTf 10 0 0 0 0 0 0 0 0 0 0 0 0 0 0 64 0 0 0 0 0 0.

Lemma ex_kernel_quiet : quiet (m_smp (kmach ex_kernel)).
Proof. split; [|done]. eexists. split; [reflexivity|]. unfold cpu_bal. cbn. split_and!; lia || done. Qed.

Lemma ex_kernel_inv : fdinv (λ _, 0) None ex_kernel.
Proof.
  split; [exact ex_kernel_quiet|reflexivity|..].
  - exists 0%nat, ex_ker_proc. split_and!; [|reflexivity..|done]. eexists. split_and!; reflexivity.
  - assert (Forall (λ p, length (p_ofile p) = NOFILE ∧
      (dead p = false ∨ p_ofile p = replicate NOFILE None)) (ptable (kmach ex_kernel))) as Hf.
    { apply (bool_decide_unpack _). vm_compute. exact I. }
    intros i p Hp. destruct (proj1 (Forall_lookup _ _) Hf i p Hp) as [Hl Hd]. split; [done|].
    intros Hdp _. destruct Hd; congruence.
  - intros f r Hf. destruct f as [|f].
    + by injection Hf as <-.
    + assert (r = 0) as ->.
      { change (frefs ex_kernel !! S f) with (replicate 99 0 !! f) in Hf. by apply lookup_replicate in Hf as [-> _]. }
      reflexivity.
Qed.




