(* ===== verification/Grep.v ===== *)
(** * grep (user/grep.c)

    Strings are lists of bytes without the terminating null.  [matchhere]
    follows the pattern and [matchstar] the text, so the C recursion is
    structural.  [grep] is run on the results of its [read] calls, a list of
    chunks, and returns what it writes. *)

From S2P Require Import Prelude Bytes CString.

(** [do ... while( *text != 0 && ( *text++ == c || c == '.'))]; [here] is
    [matchhere] of the rest of the pattern. *)
Fixpoint matchstar (c : Z) (here : list Z → bool) (text : list Z) : bool :=
  here text ||
  match text with
  | [] => false
  | t :: text' => if (t =? c) || (c =? 46) then matchstar c here text' else false
  end.

Fixpoint matchhere (re text : list Z) {struct re} : bool :=
  match re with
  | [] => true
  | c :: re1 =>
      match re1 with
      | s :: re2 => if s =? 42 then matchstar c (matchhere re2) text else
          match text with
          | t :: text' => if (c =? 46) || (c =? t) then matchhere re1 text' else false
          | [] => false
          end
      | [] =>
          if c =? 36 then bool_decide (text = []) else
          match text with
          | t :: text' => if (c =? 46) || (c =? t) then matchhere re1 text' else false
          | [] => false
          end
      end
  end.

(** [do ... while( *text++ != 0)]. *)
Fixpoint search (re text : list Z) : bool :=
  matchhere re text || match text with [] => false | _ :: text' => search re text' end.

Definition _match (re text : list Z) : bool :=
  match re with
  | c :: re' => if c =? 94 then matchhere re' text else search re text
  | [] => search re text
  end.

(** [while((q = strchr(p, '\n')) != 0)] from [p] on: what is written and where
    [p] ends.  Every turn moves [p] forward. *)
Fixpoint grep_lines (fuel : nat) (pattern p : list Z) : list Z * list Z :=
  match fuel with
  | O => ([], p)
  | S fuel' =>
      match strchr (p ++ [0]) 10 with
      | None => ([], p)
      | Some q =>
          let r := grep_lines fuel' pattern (drop (S q) p) in
          ((if _match pattern (take q p) then take (S q) p else []) ++ r.1, r.2)
      end
  end.

Definition BUFSIZE : nat := 1024.

(** One iteration of the outer loop, on the bytes kept and the bytes read. *)
Definition grep_turn (pattern kept chunk : list Z) : list Z * list Z :=
  let buf := kept ++ chunk in
  let r := grep_lines (length buf) pattern buf in
  (r.1, if (length r.2 =? length buf)%nat then [] else r.2).

(** [read] returns at most the bytes asked for; an empty chunk stands for a
    result that is not positive. *)
Fixpoint grep (pattern kept : list Z) (reads : list (list Z)) : option (list Z) :=
  match reads with
  | [] => Some []
  | chunk :: reads' =>
      if (BUFSIZE - length kept - 1 <? length chunk)%nat then None else
      match chunk with
      | [] => Some []
      | _ => let r := grep_turn pattern kept chunk in app r.1 <$> grep pattern r.2 reads'
      end
  end.

(** ** What a pattern means *)

Inductive item := One (c : Z) | Many (c : Z).

(** A dot stands for any character. *)
Definition admits (c t : Z) : Prop := c = 46 ∨ c = t.

(** The items of a pattern, and whether it ends with [$]. *)
Fixpoint items (re : list Z) : list item * bool :=
  match re with
  | [] => ([], false)
  | c :: re1 =>
      match re1 with
      | [] => if c =? 36 then ([], true) else ([One c], false)
      | s :: re2 => if s =? 42 then (Many c :: (items re2).1, (items re2).2)
                    else (One c :: (items re1).1, (items re1).2)
      end
  end.

Inductive lang : list item → list Z → Prop :=
  | lang_nil : lang [] []
  | lang_one c t its w : admits c t → lang its w → lang (One c :: its) (t :: w)
  | lang_many c ts its w : Forall (admits c) ts → lang its w → lang (Many c :: its) (ts ++ w).

Create HintDb regexp.
#[export] Hint Constructors lang : regexp.

Lemma lang_nil_inv w : lang [] w → w = [].
Proof. by inversion 1. Qed.
Lemma lang_one_inv c its w : lang (One c :: its) w → ∃ t w', w = t :: w' ∧ admits c t ∧ lang its w'.
Proof. inversion 1; subst; eauto. Qed.
Lemma lang_many_inv c its w : lang (Many c :: its) w → ∃ ts w', w = ts ++ w' ∧ Forall (admits c) ts ∧ lang its w'.
Proof. inversion 1; subst; eauto. Qed.

(** A prefix of the text that has the items, up to the end if it must. *)
Definition prefix_of (p : list item * bool) (text : list Z) : Prop :=
  ∃ mid post, text = mid ++ post ∧ lang p.1 mid ∧ (p.2 = true → post = []).

Lemma admits_bool c t : (c =? 46) || (c =? t) = true ↔ admits c t.
Proof. unfold admits. rewrite orb_true_iff, !Z.eqb_eq. done. Qed.

Lemma matchstar_spec c (here : list Z → bool) (P : list Z → Prop) text :
  (∀ t, here t = true ↔ P t) →
  matchstar c here text = true ↔ ∃ ts rest, text = ts ++ rest ∧ Forall (admits c) ts ∧ P rest.
Proof.
  intros HP. induction text as [|t text IH]; cbn [matchstar].
  - rewrite orb_false_r, HP. split; [intros; by exists [], []|].
    intros (ts & rest & E & _ & Hr). by apply eq_sym, app_nil in E as [-> ->].
  - rewrite orb_true_iff, HP. split.
    + intros [Hh|Hs]; [by exists [], (t :: text)|].
      destruct ((t =? c) || (c =? 46)) eqn:Ea; [|done]. apply IH in Hs as (ts & rest & -> & Hf & Hr).
      exists (t :: ts), rest. split_and!; [done| |done]. constructor; [|done].
      apply admits_bool. rewrite orb_comm, (Z.eqb_sym c t). by rewrite orb_comm in Ea; rewrite orb_comm.
    + intros ([|t' ts] & rest & E & Hf & Hr); [left; cbn in E; by subst|right].
      cbn in E. injection E as <- E. apply Forall_cons_1 in Hf as [Ha Hf].
      apply admits_bool in Ha. rewrite (Z.eqb_sym t c), orb_comm, Ha. apply IH. by exists ts, rest.
Qed.

Lemma prefix_one c its b text :
  (match text with t :: text' => admits c t ∧ prefix_of (its, b) text' | [] => False end) ↔
  prefix_of (One c :: its, b) text.
Proof.
  unfold prefix_of. cbn [fst snd]. split.
  - destruct text as [|t text]; [done|]. intros (Ha & mid & post & -> & Hl & Hb).
    exists (t :: mid), post. eauto with regexp.
  - intros (mid & post & -> & (t & w & -> & Ha & Hl)%lang_one_inv & Hb). cbn. split; [done|]. by exists w, post.
Qed.

Lemma prefix_many c its b text :
  (∃ ts rest, text = ts ++ rest ∧ Forall (admits c) ts ∧ prefix_of (its, b) rest) ↔
  prefix_of (Many c :: its, b) text.
Proof.
  unfold prefix_of. cbn [fst snd]. split.
  - intros (ts & rest & -> & Hf & mid & post & -> & Hl & Hb). exists (ts ++ mid), post.
    rewrite app_assoc. eauto with regexp.
  - intros (mid & post & -> & (ts & w & -> & Hf & Hl)%lang_many_inv & Hb). exists ts, (w ++ post).
    rewrite app_assoc. split_and!; [done..|]. by exists w, post.
Qed.

Lemma matchhere_spec re text : matchhere re text = true ↔ prefix_of (items re) text.
Proof.
  revert text. induction (Nat.lt_wf_0_projected (@length Z) re) as [re _ IH]. intros text.
  destruct re as [|c re1]; cbn [matchhere items].
  { split; [intros _; by exists [], text; split_and!; [|constructor|]|done]. }
  assert (∀ its b, items re1 = (its, b) → match text with
    | t :: text' => if (c =? 46) || (c =? t) then matchhere re1 text' else false
    | [] => false end = true ↔ prefix_of (One c :: its, b) text) as Hone.
  { intros its b Ei. rewrite <- prefix_one. destruct text as [|t text']; [done|].
    rewrite <- admits_bool, <- Ei, <- IH by (cbn; lia). destruct ((c =? 46) || (c =? t)); naive_solver. }
  destruct re1 as [|s re2].
  - destruct (Z.eqb_spec c 36) as [->|Hc]; [|by apply Hone]. rewrite bool_decide_eq_true. unfold prefix_of; cbn [fst snd].
    split; [intros ->; by exists [], []; split_and!; [|constructor|]|].
    intros (mid & post & -> & ->%lang_nil_inv & Hb). by rewrite Hb.
  - destruct (Z.eqb_spec s 42) as [->|Hs]; [|exact (Hone _ _ (surjective_pairing _))].
    rewrite <- prefix_many, <- surjective_pairing. apply matchstar_spec. intros t. apply IH. cbn. lia.
Qed.

(** Whether a pattern is anchored, and the rest of it. *)
Definition anchor (re : list Z) : bool * list Z :=
  match re with c :: re' => if c =? 94 then (true, re') else (false, re) | [] => (false, re) end.

Lemma search_spec re text : search re text = true ↔ ∃ pre rest, text = pre ++ rest ∧ prefix_of (items re) rest.
Proof.
  induction text as [|t text IH]; cbn [search].
  - rewrite orb_false_r, matchhere_spec. split; [by exists [], []|].
    intros (pre & rest & E & Hr). by apply eq_sym, app_nil in E as [-> ->].
  - rewrite orb_true_iff, matchhere_spec, IH. split.
    + intros [Hh|(pre & rest & -> & Hr)]; [by exists [], (t :: text)|by exists (t :: pre), rest].
    + intros ([|t' pre] & rest & E & Hr); cbn in E; [left; by subst|right]. injection E as -> ->. by exists pre, rest.
Qed.

(** C16: The matcher of grep decides the language of its patterns: [match] is
    true when some part of the text, at its beginning if the pattern starts
    with a caret and at its end if it ends with a dollar, consists of the items
    of the pattern, where a dot is any character and a star any number of the
    character before it. *)
Theorem match_spec re text : _match re text = true ↔
  ∃ pre mid post, text = pre ++ mid ++ post ∧ lang (items (anchor re).2).1 mid ∧
    ((anchor re).1 = true → pre = []) ∧ ((items (anchor re).2).2 = true → post = []).
Proof.
  assert (search re text = true ↔ ∃ pre mid post, text = pre ++ mid ++ post ∧ lang (items re).1 mid ∧
    (false = true → pre = []) ∧ ((items re).2 = true → post = [])) as Hs.
  { rewrite search_spec. unfold prefix_of. naive_solver. }
  unfold _match, anchor. destruct re as [|c re']; [exact Hs|]. destruct (c =? 94); [|exact Hs].
  cbn [fst snd]. rewrite matchhere_spec. unfold prefix_of. split.
  - intros (mid & post & -> & Hl & Hb). by exists [], mid, post.
  - intros (pre & mid & post & -> & Hl & Hp & Hb). rewrite Hp by done. by exists mid, post.
Qed.

(** ** Lines *)

(** The complete lines of a text, each with its newline, and the rest. *)
Fixpoint split_lines (text line : list Z) : list (list Z) * list Z :=
  match text with
  | [] => ([], line)
  | c :: text' =>
      if c =? 10 then let r := split_lines text' [] in ((line ++ [10]) :: r.1, r.2)
      else split_lines text' (line ++ [c])
  end.
Definition lines (text : list Z) : list (list Z) := (split_lines text []).1.
Definition rest_of (text : list Z) : list Z := (split_lines text []).2.
Definition selected (pattern : list Z) (ls : list (list Z)) : list Z :=
  mjoin (filter (λ l, _match pattern (take (length l - 1) l) = true) ls).

Lemma split_none l acc : 10 ∉ l → split_lines l acc = ([], acc ++ l).
Proof.
  revert acc. induction l as [|c l IH]; intros acc Hn; cbn [split_lines]; [by rewrite app_nil_r|].
  apply not_elem_of_cons in Hn as [Hc Hn]. destruct (Z.eqb_spec c 10); [done|].
  rewrite IH by done. by rewrite <- app_assoc.
Qed.

Lemma split_at l p acc : 10 ∉ l →
  split_lines (l ++ 10 :: p) acc = ((acc ++ l ++ [10]) :: lines p, rest_of p).
Proof.
  revert acc. induction l as [|c l IH]; intros acc Hn; cbn [app split_lines].
  - by rewrite Z.eqb_refl.
  - apply not_elem_of_cons in Hn as [Hc Hn]. destruct (Z.eqb_spec c 10); [done|].
    rewrite IH by done. by rewrite <- app_assoc.
Qed.

(** Every text has a first line or no newline. *)
Lemma line_cases (p : list Z) : 10 ∉ p ∨ ∃ l p', p = l ++ 10 :: p' ∧ 10 ∉ l.
Proof.
  induction p as [|c p [Hn|(l & p' & -> & Hl)]].
  - left. apply not_elem_of_nil.
  - destruct (decide (c = 10)) as [->|Hc].
    + right. exists [], p. split; [done|apply not_elem_of_nil].
    + left. apply not_elem_of_cons. split; congruence.
  - right. destruct (decide (c = 10)) as [->|Hc].
    + exists [], (l ++ 10 :: p'). split; [done|apply not_elem_of_nil].
    + exists (c :: l), p'. split; [done|]. apply not_elem_of_cons. split; congruence.
Qed.

Lemma strchr_line l p : 10 ∉ l → Forall (λ c, c ≠ 0) l → strchr (l ++ 10 :: p) 10 = Some (length l).
Proof.
  induction l as [|c l IH]; intros Hn Hz; cbn [app strchr length]; [by rewrite Z.eqb_refl|].
  apply not_elem_of_cons in Hn as [Hc Hn]. apply Forall_cons_1 in Hz as [H0 Hz].
  destruct (Z.eqb_spec c 0); [done|]. destruct (Z.eqb_spec c 10); [done|]. by rewrite IH.
Qed.

Lemma strchr_no_line p : 10 ∉ p → strchr (p ++ [0]) 10 = None.
Proof.
  induction p as [|c p IH]; intros Hn; cbn [app strchr]; [done|].
  apply not_elem_of_cons in Hn as [Hc Hn]. destruct (c =? 0); [done|]. destruct (Z.eqb_spec c 10); [done|].
  by rewrite IH.
Qed.

Lemma grep_lines_spec fuel pattern p : (length p ≤ fuel)%nat → Forall (λ c, c ≠ 0) p →
  grep_lines fuel pattern p = (selected pattern (lines p), rest_of p).
Proof.
  revert p. induction fuel as [|fuel IH]; intros p Hf Hz.
  { apply Nat.le_0_r, nil_length_inv in Hf as ->. done. }
  cbn [grep_lines]. destruct (line_cases p) as [Hn|(l & p' & -> & Hl)].
  - rewrite strchr_no_line by done. unfold lines, rest_of. by rewrite split_none.
  - assert (lines (l ++ 10 :: p') = (l ++ [10]) :: lines p' ∧ rest_of (l ++ 10 :: p') = rest_of p') as [-> ->].
    { unfold lines at 1, rest_of at 1. by rewrite split_at. }
    apply Forall_app in Hz as [Hzl Hz]. rewrite <- app_assoc. cbn [app]. rewrite strchr_line by done.
    rewrite take_app_length. replace (l ++ 10 :: p') with ((l ++ [10]) ++ p') by (by rewrite <- app_assoc).
    assert (S (length l) = length (l ++ [10])) as -> by (rewrite length_app; cbn; lia).
    rewrite drop_app_length, take_app_length.
    rewrite length_app in Hf. cbn in Hf. rewrite IH by (lia || by apply Forall_cons_1 in Hz as [_ Hz]).
    cbn [fst snd]. unfold selected. rewrite filter_cons, length_app, Nat.add_sub, take_app_length.
    by destruct (_match pattern l); cbn.
Qed.

Lemma split_app a b acc :
  split_lines (a ++ b) acc =
  ((split_lines a acc).1 ++ (split_lines b (split_lines a acc).2).1, (split_lines b (split_lines a acc).2).2).
Proof.
  revert acc. induction a as [|c a IH]; intros acc; cbn [app split_lines].
  - apply surjective_pairing.
  - destruct (c =? 10); rewrite IH; done.
Qed.

Lemma split_rest_free a acc : 10 ∉ acc → 10 ∉ (split_lines a acc).2.
Proof.
  revert acc. induction a as [|c a IH]; intros acc Hn; cbn [split_lines]; [done|].
  destruct (Z.eqb_spec c 10); cbn; apply IH; [apply not_elem_of_nil|].
  rewrite elem_of_app, list_elem_of_singleton. naive_solver.
Qed.

Lemma lines_app a b : lines (a ++ b) = lines a ++ lines (rest_of a ++ b).
Proof.
  assert (10 ∉ (split_lines a []).2) as Hn by (apply split_rest_free, not_elem_of_nil).
  unfold lines, rest_of. rewrite (split_app a), (split_app _ b []). cbn [fst].
  by rewrite (split_none (split_lines a []).2 [] Hn).
Qed.

Lemma rest_length p : 10 ∈ p → (length (rest_of p) < length p)%nat.
Proof.
  destruct (line_cases p) as [Hn|(l & p' & -> & Hl)]; [done|]. intros _. unfold rest_of. rewrite split_at by done.
  cbn [snd]. assert (∀ q acc, (length (split_lines q acc).2 ≤ length acc + length q)%nat) as Hle.
  { intros q. induction q as [|c q IH]; intros acc; cbn [split_lines length]; [cbn; lia|].
    destruct (c =? 10); cbn; [specialize (IH []); cbn in IH; lia|]. specialize (IH (acc ++ [c])).
    rewrite length_app in IH. cbn in IH. lia. }
  specialize (Hle p' []). cbn in Hle. rewrite length_app. unfold rest_of. cbn. lia.
Qed.

Lemma rest_nonzero p : Forall (λ c, c ≠ 0) p → Forall (λ c, c ≠ 0) (rest_of p).
Proof.
  unfold rest_of. assert (∀ acc, Forall (λ c, c ≠ 0) acc → Forall (λ c, c ≠ 0) p →
    Forall (λ c, c ≠ 0) (split_lines p acc).2) as Hr; [|by apply Hr].
  induction p as [|c p IH]; intros acc Ha Hz; cbn [split_lines]; [done|].
  apply Forall_cons_1 in Hz as [Hc Hz]. destruct (c =? 10); cbn; apply IH; try done.
  apply Forall_app. by repeat constructor.
Qed.

(** Each read fits the room left in the buffer and contains a newline. *)
Fixpoint fits (kept : list Z) (reads : list (list Z)) : Prop :=
  match reads with
  | [] => True
  | chunk :: reads' =>
      (length kept + length chunk < BUFSIZE)%nat ∧ 10 ∈ chunk ∧ Forall (λ c, c ≠ 0) chunk ∧
      fits (rest_of (kept ++ chunk)) reads'
  end.

Lemma grep_from pattern kept reads : Forall (λ c, c ≠ 0) kept → 10 ∉ kept → fits kept reads →
  grep pattern kept reads = Some (selected pattern (lines (kept ++ mjoin reads))).
Proof.
  revert kept. induction reads as [|chunk reads IH]; intros kept Hk Hn Hf; cbn [grep mjoin list_join].
  - rewrite app_nil_r. unfold lines. by rewrite split_none.
  - destruct Hf as (Hlen & Hnl & Hz & Hf). rewrite (proj2 (Nat.ltb_ge _ _)) by (unfold BUFSIZE in *; lia).
    destruct chunk as [|c chunk]; [by apply elem_of_nil in Hnl|]. set (ch := c :: chunk) in *.
    assert (Forall (λ c, c ≠ 0) (kept ++ ch)) as Hb by (by apply Forall_app).
    unfold grep_turn. rewrite grep_lines_spec by done. cbn [fst snd].
    assert (10 ∈ kept ++ ch) as Hin by (apply elem_of_app; by right).
    rewrite (proj2 (Nat.eqb_neq _ _)) by (pose proof (rest_length _ Hin); lia).
    rewrite IH; [|by apply rest_nonzero|apply split_rest_free, not_elem_of_nil|done]. cbn [fmap option_fmap option_map].
    rewrite (app_assoc kept ch), (lines_app (kept ++ ch)). unfold selected. by rewrite filter_app, join_app.
Qed.

(** C37: grep writes exactly the complete lines of its input that match, in
    order, however the input is cut into reads, provided every read brings at
    least one newline. *)
Theorem grep_selects pattern reads : fits [] reads →
  grep pattern [] reads = Some (selected pattern (lines (mjoin reads))).
Proof. intros Hf. apply (grep_from pattern [] reads); [constructor|apply not_elem_of_nil|done]. Qed.

Lemma grep_selects_witness : grep [97] [] [[97; 10; 98]; [98; 10; 99; 97; 10]] = Some [97; 10; 99; 97; 10].
Proof.
  transitivity (Some (selected [97] (lines (mjoin [[97; 10; 98]; [98; 10; 99; 97; 10]])))); [|reflexivity].
  apply (grep_selects [97]). cbn. split_and!; try (apply (bool_decide_unpack _); vm_compute; exact I); lia.
Defined.

(** A line that arrives in two reads is lost: when a read brings no newline
    grep drops what it has of the line, so a match in it is not found. *)
Theorem grep_drops_partial pattern kept a reads :
  a ≠ [] → 10 ∉ kept ++ a → Forall (λ c, c ≠ 0) (kept ++ a) → (length (kept ++ a) < BUFSIZE)%nat →
  grep pattern kept (a :: reads) = grep pattern [] reads.
Proof.
  intros Ha Hn Hz Hl. rewrite length_app in Hl. cbn [grep].
  rewrite (proj2 (Nat.ltb_ge _ (length a))) by (unfold BUFSIZE in *; lia). destruct a as [|c a]; [done|].
  unfold grep_turn. rewrite grep_lines_spec by done. unfold lines, rest_of. rewrite split_none by done.
  cbn [fst snd app]. rewrite Nat.eqb_refl. by destruct (grep pattern [] reads).
Qed.

Lemma grep_drops_partial_witness : grep [97] [] [[97; 98]; [99; 10]] = Some [] ∧ _match [97] [97; 98; 99] = true.
Proof.
  split; [|reflexivity]. transitivity (grep [97] [] [[99; 10]]); [|reflexivity].
  apply (grep_drops_partial [97] [] [97; 98] [[99; 10]]); [done| | |unfold BUFSIZE; cbn [app length]; lia];
    apply (bool_decide_unpack _); vm_compute; exact I.
Defined.
