(* ===== verification/Umalloc.v ===== *)
(** * The user memory allocator (ulib/umalloc.c)

    Headers are in a store from addresses to a pair of [s.ptr] and [s.size];
    an address counts bytes and a header takes [UNIT] of them.  The system
    call [sbrk] is a parameter that moves the end of the heap, [brk], or
    fails; its argument is an [int].  The two loops go round a circular list,
    and take the number of turns as fuel. *)

From S2P Require Import Prelude Bytes.
From Stdlib Require Import Sorted.

Definition UNIT : Z := 16.

Record uheap := mkHeap {
  hdr : Z → Z * Z;           (* s.ptr and s.size *)
  freep : Z;
  brk : Z
}.

Definition set_hdr (p : Z) (x : Z * Z) (h : uheap) : uheap := mkHeap (<[p := x]> (hdr h)) (freep h) (brk h).
Definition set_freep (p : Z) (h : uheap) : uheap := mkHeap (hdr h) p (brk h).
Definition set_brk (b : Z) (h : uheap) : uheap := mkHeap (hdr h) (freep h) b.

(** [p->s.ptr] and [p->s.size]. *)
Definition s_ptr (p : Z) : M uheap Z := h ← get; ret (hdr h p).1.
Definition s_size (p : Z) : M uheap Z := h ← get; ret (hdr h p).2.
Definition set_ptr (p x : Z) : M uheap unit := modify (λ h, set_hdr p (x, (hdr h p).2) h).
Definition set_size (p x : Z) : M uheap unit := modify (λ h, set_hdr p ((hdr h p).1, u32 x) h).

Section code.
Context (sbrk : Z → M uheap Z) (base : Z).

(** The condition that leaves [for(p = freep; ...)]. *)
Definition between (bp p n : Z) : bool :=
  ((p <? bp) && (bp <? n)) || ((n <=? p) && ((p <? bp) || (bp <? n))).

Definition free_step (bp p : Z) : M uheap (Z + Z) :=
  n ← s_ptr p;
  ret (if between bp p n then inr p else inl n).

(** [bp] is joined to the free block after it, or linked to it. *)
Definition join_upper (bp p : Z) : M uheap unit :=
  n ← s_ptr p;
  bs ← s_size bp;
  if bp + UNIT * bs =? n then
    ns ← s_size n; set_size bp (bs + ns) ;;;
    nn ← s_ptr n; set_ptr bp nn
  else set_ptr bp n.

(** The free block before [bp] is joined to it, or linked to it. *)
Definition join_lower (bp p : Z) : M uheap unit :=
  ps ← s_size p;
  if p + UNIT * ps =? bp then
    bs ← s_size bp; set_size p (ps + bs) ;;;
    bn ← s_ptr bp; set_ptr p bn
  else set_ptr p bp.

Definition free (fuel : nat) (ap : Z) : M uheap unit :=
  let bp := ap - UNIT in
  h ← get;
  p ← loopM fuel (free_step bp) (freep h);
  join_upper bp p ;;;
  join_lower bp p ;;;
  modify (set_freep p).

Definition morecore (fuel : nat) (nu : Z) : M uheap Z :=
  let nu := if nu <? 4096 then 4096 else nu in
  p ← sbrk (i32 (nu * UNIT));
  if p =? -1 then ret 0 else
  set_size p nu ;;;
  free fuel (p + UNIT) ;;;
  h ← get;
  ret (freep h).

Definition units (nbytes : Z) : Z := u32 ((nbytes + UNIT - 1) / UNIT + 1).

(** A block that is large enough: all of it, or its end. *)
Definition take_block (nunits prevp p : Z) : M uheap Z :=
  s ← s_size p;
  q ← (if s =? nunits then
         n ← s_ptr p; set_ptr prevp n ;;; ret p
       else
         set_size p (s - nunits) ;;;
         let q := p + UNIT * (s - nunits) in
         set_size q nunits ;;; ret q);
  modify (set_freep prevp) ;;;
  ret (q + UNIT).

Definition malloc_step (fuel : nat) (nunits : Z) (pp : Z * Z) : M uheap (Z * Z + Z) :=
  let '(prevp, p) := pp in
  s ← s_size p;
  if nunits <=? s then r ← take_block nunits prevp p; ret (inr r)
  else
    h ← get;
    if p =? freep h then
      r ← morecore fuel nunits;
      if r =? 0 then ret (inr 0) else n ← s_ptr r; ret (inl (r, n))
    else n ← s_ptr p; ret (inl (p, n)).

Definition malloc (fuel : nat) (nbytes : Z) : M uheap Z :=
  let nunits := units nbytes in
  h ← get;
  whenM (freep h =? 0) (set_ptr base base ;;; modify (set_freep base) ;;; set_size base 0) ;;;
  h ← get;
  let prevp := freep h in
  p ← s_ptr prevp;
  loopM fuel (malloc_step fuel nunits) (prevp, p).
End code.

(** ** Linked lists *)

(** From [x] the links go through [l] and end at [e]. *)
Fixpoint path (f : Z → Z * Z) (x : Z) (l : list Z) (e : Z) : Prop :=
  match l with
  | [] => (f x).1 = e
  | y :: l' => (f x).1 = y ∧ path f y l' e
  end.
Definition inner (f : Z → Z * Z) (l : list Z) (e : Z) : Prop :=
  match l with [] => True | y :: l' => path f y l' e end.

Lemma path_hd f x l e : path f x l e ↔ (f x).1 = hd e l ∧ inner f l e.
Proof. destruct l; cbn; naive_solver. Qed.

Lemma path_app f x l1 y l2 e : path f x (l1 ++ y :: l2) e ↔ path f x l1 y ∧ path f y l2 e.
Proof. revert x. induction l1 as [|z l1 IH]; intros x; cbn; [done|]. rewrite IH. naive_solver. Qed.

Lemma path_split f x l1 l2 e : path f x (l1 ++ l2) e ↔ path f x l1 (hd e l2) ∧ inner f l2 e.
Proof. destruct l2 as [|y l2]; [rewrite app_nil_r; cbn; naive_solver|apply path_app]. Qed.

Lemma path_other f x l e p v : p ∉ x :: l → path (<[p := v]> f) x l e ↔ path f x l e.
Proof.
  revert x. induction l as [|y l IH]; intros x Hp; apply not_elem_of_cons in Hp as [Hx Hl]; cbn;
    rewrite fn_lookup_insert_ne by done; [done|]. by rewrite IH.
Qed.

Lemma inner_other f l e p v : p ∉ l → inner (<[p := v]> f) l e ↔ inner f l e.
Proof. destruct l as [|y l]; cbn; [done|]. apply path_other. Qed.

(** A new end for a list whose last cell is [p]. *)
Lemma path_relink f x l e p l1 e' z : x :: l = l1 ++ [p] → p ∉ l1 → path f x l e → path (<[p := (e', z)]> f) x l e'.
Proof.
  revert x l1. induction l as [|y l IH]; intros x l1 El Hp Hpath.
  - assert (x = p) as ->; [|cbn; by rewrite fn_lookup_insert].
    destruct l1 as [|? [|??]]; [by injection El|done|done].
  - destruct l1 as [|x' l1]; [done|]. injection El as <- El. apply not_elem_of_cons in Hp as [Hx Hp].
    destruct Hpath as [Ey Hpath]. cbn. rewrite fn_lookup_insert_ne by done. split; [done|]. by apply (IH y l1).
Qed.

(** The links do not depend on where a ring is entered. *)
Lemma path_rotate f x l y l1 l2 : path f x l x → x :: l = l1 ++ y :: l2 → path f y (l2 ++ l1) y.
Proof.
  intros Hp El. destruct l1 as [|x' l1]; [injection El as -> ->; by rewrite app_nil_r|].
  injection El as <- ->. apply path_app in Hp as [H1 H2]. apply path_app. done.
Qed.

(** ** Blocks *)

(** The address and size of a block, and whether it is in use. *)
Definition blk : Type := Z * Z * bool.

Fixpoint tile (lo : Z) (B : list blk) (hi : Z) : Prop :=
  match B with
  | [] => lo = hi
  | (a, s, _) :: B' => a = lo ∧ 0 < s ∧ tile (lo + UNIT * s) B' hi
  end.
Fixpoint frees (B : list blk) : list Z :=
  match B with [] => [] | (a, _, u) :: B' => if u : bool then frees B' else a :: frees B' end.
Fixpoint used (B : list blk) : list (Z * Z) :=
  match B with [] => [] | (a, s, u) :: B' => if u : bool then (a, s) :: used B' else used B' end.
(** No two free blocks are next to each other. *)
Definition head_used (B : list blk) : bool := match B with (_, _, u) :: _ => u | [] => true end.
Fixpoint coalesced (B : list blk) : Prop :=
  match B with [] => True | (_, _, u) :: B' => (u = true ∨ head_used B' = true) ∧ coalesced B' end.

Lemma tile_app lo B1 B2 hi : tile lo (B1 ++ B2) hi ↔ ∃ mid, tile lo B1 mid ∧ tile mid B2 hi.
Proof.
  revert lo. induction B1 as [|[[a s] u] B1 IH]; intros lo; cbn; [naive_solver|]. rewrite IH. naive_solver.
Qed.

Lemma frees_app B1 B2 : frees (B1 ++ B2) = frees B1 ++ frees B2.
Proof. induction B1 as [|[[a s] []] B1 IH]; cbn; by rewrite ?IH. Qed.
Lemma used_app B1 B2 : used (B1 ++ B2) = used B1 ++ used B2.
Proof. induction B1 as [|[[a s] []] B1 IH]; cbn; by rewrite ?IH. Qed.

Lemma tile_le lo B hi : tile lo B hi → lo ≤ hi.
Proof.
  revert lo. induction B as [|[[a s] u] B IH]; intros lo; cbn; [lia|]. intros (-> & Hs & Ht%IH). unfold UNIT in *. lia.
Qed.

Lemma tile_elem lo B hi a s u : tile lo B hi → (a, s, u) ∈ B → lo ≤ a ∧ 0 < s ∧ a + UNIT * s ≤ hi.
Proof.
  revert lo. induction B as [|[[a' s'] u'] B IH]; intros lo Ht Hin; [by apply elem_of_nil in Hin|].
  destruct Ht as (-> & Hs & Ht). apply elem_of_cons in Hin as [E|Hin].
  - simplify_eq. apply tile_le in Ht. lia.
  - destruct (IH _ Ht Hin) as (H1 & H2 & H3). unfold UNIT in *. lia.
Qed.

Lemma frees_elem a B : a ∈ frees B ↔ ∃ s, (a, s, false) ∈ B.
Proof.
  induction B as [|[[a' s'] u'] B IH]; cbn.
  - split; [by intros ?%elem_of_nil|intros [s ?%elem_of_nil]; done].
  - destruct u'; rewrite ?elem_of_cons, IH; split.
    + intros [s Hs]. exists s. apply elem_of_cons. by right.
    + intros [s [E|Hs]%elem_of_cons]; [done|by exists s].
    + intros [->|[s Hs]]; [exists s'; apply elem_of_cons; by left|exists s; apply elem_of_cons; by right].
    + intros [s [E|Hs]%elem_of_cons]; [left; by simplify_eq|right; by exists s].
Qed.

Lemma frees_range lo B hi a : tile lo B hi → a ∈ frees B → lo ≤ a < hi.
Proof.
  intros Ht [s Hs]%frees_elem. destruct (tile_elem _ _ _ _ _ _ Ht Hs) as (H1 & H2 & H3). unfold UNIT in *. lia.
Qed.

Lemma frees_sorted lo B hi : tile lo B hi → StronglySorted Z.lt (frees B).
Proof.
  revert lo. induction B as [|[[a s] u] B IH]; intros lo; cbn; [constructor|]. intros (-> & Hs & Ht).
  destruct u; [by eapply IH|]. constructor; [by eapply IH|]. apply Forall_forall. intros x Hx.
  pose proof (frees_range _ _ _ _ Ht Hx). unfold UNIT in *. lia.
Qed.

(** ** The invariant *)

Section proofs.
Context (sbrk : Z → M uheap Z) (base lo : Z).
Hypothesis Hbase : 0 < base ∧ base + UNIT ≤ lo.

Record heap_ok (h : uheap) (B : list blk) : Prop := {
  ok_tile : tile lo B (brk h);
  ok_bound : brk h - lo ≤ 2 ^ 35;
  ok_coal : coalesced B;
  ok_ring : path (hdr h) base (frees B) base;
  ok_zero : (hdr h base).2 = 0;
  ok_sizes a s u : (a, s, u) ∈ B → (hdr h a).2 = s;
  ok_freep : freep h ∈ base :: frees B
}.

Lemma ring_sorted h B : heap_ok h B → StronglySorted Z.lt (base :: frees B).
Proof.
  intros Hh. pose proof (ok_tile _ _ Hh) as Ht. constructor; [by eapply frees_sorted|].
  apply Forall_forall. intros x Hx. pose proof (frees_range _ _ _ _ Ht Hx). unfold UNIT in *. lia.
Qed.

Lemma sorted_split (l1 : list Z) x l2 : StronglySorted Z.lt (l1 ++ x :: l2) →
  Forall (λ y, y < x) l1 ∧ Forall (λ y, x < y) l2.
Proof.
  induction l1 as [|y l1 IH]; cbn; intros Hs; apply StronglySorted_inv in Hs as [Hs Hf].
  - split; [constructor|done].
  - destruct (IH Hs) as [H1 H2]. split; [|done]. constructor; [|done].
    apply Forall_app in Hf as [_ Hf]. by apply Forall_cons_1 in Hf as [Hf _].
Qed.

Lemma ring_next f F U y V : path f base F base → base :: F = U ++ y :: V → (f y).1 = hd base V.
Proof.
  intros Hp E. destruct U as [|x U].
  - injection E as <- ->. by apply path_hd in Hp as [-> _].
  - injection E as <- ->. apply path_app in Hp as [_ Hp]. by apply path_hd in Hp as [-> _].
Qed.

(** The place of [bp] in the list is recognised at [p] and nowhere else. *)
Lemma between_ring f F l1 p l2 bp y : path f base F base → base :: F = l1 ++ p :: l2 →
  StronglySorted Z.lt (base :: F) → p < bp → base < bp → Forall (λ y, bp < y) l2 → y ∈ base :: F →
  between bp y (f y).1 = bool_decide (y = p).
Proof.
  intros Hp E Hs Hpb Hbb Hl2 Hy. pose proof Hs as Hs'. rewrite E in Hs'.
  apply sorted_split in Hs' as [Hl1 Hl2p]. rewrite Forall_forall in Hl1, Hl2p, Hl2.
  assert (∀ z, z ∈ base :: F → p < z → bp < z) as Habove.
  { intros z Hz Hlt. rewrite E, elem_of_app, elem_of_cons in Hz. destruct Hz as [Hz%Hl1|[->|Hz%Hl2]]; lia. }
  apply list_elem_of_split in Hy as (U & V & Ey). rewrite (ring_next f F U y V) by done.
  pose proof Hs as Hs'. rewrite Ey in Hs'. apply sorted_split in Hs' as [HU HV]. rewrite Forall_forall in HU, HV.
  assert (y ∈ base :: F) as Hy by (rewrite Ey; apply elem_of_app; right; by left).
  assert (base ≤ y) as Hby.
  { apply StronglySorted_inv in Hs as [_ Hs]. rewrite Forall_forall in Hs.
    apply elem_of_cons in Hy as [->|Hy%Hs]; lia. }
  assert (p ∈ U ∨ p = y ∨ p ∈ V) as Hpin.
  { assert (p ∈ base :: F) as Hpin by (rewrite E; apply elem_of_app; right; by left).
    by rewrite Ey, elem_of_app, elem_of_cons in Hpin. }
  unfold between. destruct V as [|z V]; cbn [hd].
  - destruct Hpin as [Hpin%HU|[<-|Hpin%elem_of_nil]]; [| |done].
    + pose proof (Habove y Hy Hpin). rewrite bool_decide_eq_false_2 by lia. lia.
    + rewrite bool_decide_eq_true_2 by done. lia.
  - assert (z ∈ base :: F) as Hz by (rewrite Ey; apply elem_of_app; do 2 right; by left).
    assert (y < z) as Hyz by (apply HV; by left). destruct Hpin as [Hpin%HU|[<-|Hpin]].
    + pose proof (Habove y Hy Hpin). rewrite bool_decide_eq_false_2 by lia. lia.
    + pose proof (Habove z Hz Hyz). rewrite bool_decide_eq_true_2 by done. lia.
    + pose proof (HV _ Hpin). rewrite bool_decide_eq_false_2 by lia.
      assert (z ≤ p); [|lia]. apply elem_of_cons in Hpin as [->|Hpin]; [lia|].
      assert (StronglySorted Z.lt (z :: V)) as Hzv.
      { rewrite Ey in Hs. clear -Hs. induction U as [|u U IH]; cbn in Hs; apply StronglySorted_inv in Hs as [Hs _]; auto. }
      apply StronglySorted_inv in Hzv as [_ Hzv]. rewrite Forall_forall in Hzv. specialize (Hzv _ Hpin). lia.
Qed.

(** A loop along a list ends at the first cell that stops it. *)
Lemma search_path h bp p x l e fuel : path (hdr h) x l e → p ∈ x :: l → (length l < fuel)%nat →
  (∀ y, y ∈ x :: l → between bp y (hdr h y).1 = bool_decide (y = p)) →
  loopM fuel (free_step bp) x h = Ok p h.
Proof.
  revert x fuel. induction l as [|z l IH]; intros x fuel Hp Hin Hf Hb; (destruct fuel as [|fuel]; [cbn in Hf; lia|]);
    cbn [loopM]; unfold free_step, s_ptr; go; rewrite Hb by (by left).
  - apply elem_of_cons in Hin as [->|Hin%elem_of_nil]; [|done]. by rewrite bool_decide_eq_true_2.
  - destruct Hp as [-> Hp]. case_bool_decide as Hx; [by subst|].
    apply (IH z fuel); [done| |cbn in Hf; lia|].
    + apply elem_of_cons in Hin as [->|Hin]; done.
    + intros y Hy. apply Hb. by right.
Qed.

(** The search of [free]. *)
Lemma free_search h B1 a s B2 l1 p fuel : heap_ok h (B1 ++ (a, s, true) :: B2) →
  base :: frees B1 = l1 ++ [p] → (length (frees (B1 ++ B2)) < fuel)%nat →
  loopM fuel (free_step a) (freep h) h = Ok p h.
Proof.
  intros Hh El Hf. pose proof (ok_tile _ _ Hh) as Ht. apply tile_app in Ht as (mid & Ht1 & Ht2).
  destruct Ht2 as (-> & Hs & Ht2).
  pose proof (ok_ring _ _ Hh) as Hr. pose proof (ring_sorted _ _ Hh) as Hsort. pose proof (ok_freep _ _ Hh) as Hfp.
  rewrite frees_app in Hr, Hsort, Hfp, Hf. cbn [frees] in Hr, Hsort, Hfp. set (F := frees B1 ++ frees B2) in *.
  assert (base :: F = l1 ++ p :: frees B2) as E.
  { unfold F. rewrite app_comm_cons, El, <- app_assoc. done. }
  assert (∀ y, y ∈ base :: F → between mid y (hdr h y).1 = bool_decide (y = p)) as Hb.
  { intros y. apply (between_ring (hdr h) F l1 p (frees B2)); try done.
    - assert (p ∈ base :: frees B1) as Hp by (rewrite El; apply elem_of_app; right; by left).
      pose proof (tile_le _ _ _ Ht1). apply elem_of_cons in Hp as [->|Hp]; [unfold UNIT in *; lia|].
      apply (frees_range lo B1 mid p) in Hp; [lia|done].
    - pose proof (tile_le _ _ _ Ht1). unfold UNIT in *. lia.
    - apply Forall_forall. intros z Hz. pose proof (frees_range _ _ _ _ Ht2 Hz). unfold UNIT in *. lia. }
  pose proof Hfp as Hfp'. apply list_elem_of_split in Hfp' as (U & V & Ef).
  pose proof (path_rotate _ _ _ _ _ _ Hr Ef) as Hpath.
  assert (freep h :: V ++ U ≡ₚ base :: F) as Hperm.
  { rewrite Ef. rewrite (Permutation_app_comm U). done. }
  eapply search_path; [exact Hpath| | |].
  - rewrite Hperm, E. apply elem_of_app. right. by left.
  - apply Permutation_length in Hperm. cbn in Hperm. lia.
  - intros y Hy. apply Hb. by rewrite <- Hperm.
Qed.

Lemma coalesced_app B1 b B2 : coalesced (B1 ++ b :: B2) ↔
  coalesced (B1 ++ [b]) ∧ (b.2 = true ∨ head_used B2 = true) ∧ coalesced B2.
Proof.
  induction B1 as [|[[a1 s1] u1] B1 IH]; cbn [app].
  - destruct b as [[a s] u]. cbn. naive_solver.
  - cbn [coalesced]. rewrite IH. assert (head_used (B1 ++ b :: B2) = head_used (B1 ++ [b])) as ->; [|naive_solver].
    by destruct B1.
Qed.

Lemma coalesced_flag B1 a s a' s' u : coalesced (B1 ++ [(a, s, u)]) → coalesced (B1 ++ [(a', s', u)]).
Proof.
  induction B1 as [|[[a1 s1] u1] B1 IH]; cbn [app coalesced]; [done|]. intros [H1 H2]. split; [|by apply IH].
  destruct B1 as [|[[??]?]?]; done.
Qed.

(** What the blocks around a used block [(a, s)] give; [p] is the free cell
    before it. *)
Record around (h : uheap) (B1 : list blk) (a s : Z) (B2 : list blk) (l1 : list Z) (p : Z) : Prop := {
  ar_ok : heap_ok h (B1 ++ (a, s, true) :: B2);
  ar_last : base :: frees B1 = l1 ++ [p];
  ar_t1 : tile lo B1 a;
  ar_s : 0 < s;
  ar_t2 : tile (a + UNIT * s) B2 (brk h);
  ar_lo : path (hdr h) base (frees B1) (hd base (frees B2));
  ar_hi : inner (hdr h) (frees B2) base;
  ar_next : (hdr h p).1 = hd base (frees B2)
}.

Lemma around_intro h B1 a s B2 : heap_ok h (B1 ++ (a, s, true) :: B2) → ∃ l1 p, around h B1 a s B2 l1 p.
Proof.
  intros Hh. destruct (exists_last (l := base :: frees B1) ltac:(done)) as (l1 & p & El). exists l1, p.
  pose proof (ok_tile _ _ Hh) as Ht. apply tile_app in Ht as (mid & Ht1 & -> & Hs & Ht2).
  pose proof (ok_ring _ _ Hh) as Hr. rewrite frees_app in Hr. cbn [frees] in Hr.
  split; try done; try (by apply path_split in Hr as [? ?]).
  eapply ring_next; [exact Hr|]. rewrite app_comm_cons, El, <- app_assoc. done.
Qed.


Lemma small h B1 a s B2 x y u : heap_ok h (B1 ++ (a, s, true) :: B2) → (x, y, u) ∈ B1 ++ (a, s, true) :: B2 → 0 < y < 2 ^ 32.
Proof.
  intros Hh Hin. pose proof (ok_bound _ _ Hh).
  destruct (tile_elem _ _ _ _ _ _ (ok_tile _ _ Hh) Hin). unfold UNIT in *. lia.
Qed.

Lemma a_lo h B1 a s B2 l1 p : around h B1 a s B2 l1 p → lo ≤ a.
Proof. intros Har. eapply tile_le, (ar_t1 _ _ _ _ _ _ _ Har). Qed.

Lemma p_cases h B1 a s B2 l1 p : around h B1 a s B2 l1 p →
  (p = base ∧ frees B1 = []) ∨ ∃ y, (p, y, false) ∈ B1.
Proof.
  intros Har. destruct (decide (frees B1 = [])) as [E|E].
  - left. pose proof (ar_last _ _ _ _ _ _ _ Har) as El. rewrite E in El.
    destruct l1 as [|? [|??]]; [by injection El|done|done].
  - right. apply frees_elem. pose proof (ar_last _ _ _ _ _ _ _ Har) as El.
    destruct l1 as [|x l]; [injection El as _ El; done|]. injection El as _ ->. apply elem_of_app. right. by left.
Qed.

Lemma p_lt h B1 a s B2 l1 p : around h B1 a s B2 l1 p → p < a.
Proof.
  intros Har. pose proof (a_lo _ _ _ _ _ _ _ Har).
  destruct (p_cases _ _ _ _ _ _ _ Har) as [[-> _]|[y Hy]]; [unfold UNIT in *; lia|].
  destruct (tile_elem _ _ _ _ _ _ (ar_t1 _ _ _ _ _ _ _ Har) Hy) as (? & ? & ?). unfold UNIT in *. lia.
Qed.

(** The block with its upper neighbour, if that is free. *)
Definition upper (s : Z) (B2 : list blk) : Z * list blk :=
  match B2 with (_, s2, false) :: B2' => (s + s2, B2') | _ => (s, B2) end.

Lemma upper_ok h B1 a s B2 l1 p : around h B1 a s B2 l1 p →
  let s' := (upper s B2).1 in let B2' := (upper s B2).2 in
  0 < s' < 2 ^ 32 ∧ tile (a + UNIT * s') B2' (brk h) ∧ used B2' = used B2 ∧ head_used B2' = true ∧ coalesced B2' ∧
  inner (hdr h) (frees B2') base ∧ (∀ b, b ∈ B2' → b ∈ B2) ∧
  join_upper a p h = Ok tt (set_hdr a (hd base (frees B2'), s') h).
Proof.
  intros Har. pose proof (ok_sizes _ _ (ar_ok _ _ _ _ _ _ _ Har)) as Hsz.
  pose proof (ok_coal _ _ (ar_ok _ _ _ _ _ _ _ Har)) as Hc. apply coalesced_app in Hc as (_ & _ & Hc).
  assert ((hdr h a).2 = s) as Ea by (apply (Hsz a s true); apply elem_of_app; right; by left).
  pose proof (ar_t2 _ _ _ _ _ _ _ Har) as Ht2. pose proof (ar_hi _ _ _ _ _ _ _ Har) as Hi.
  pose proof (ar_next _ _ _ _ _ _ _ Har) as Hn. pose proof (ar_s _ _ _ _ _ _ _ Har) as Hs. pose proof (a_lo _ _ _ _ _ _ _ Har) as Hlo.
  pose proof (ok_bound _ _ (ar_ok _ _ _ _ _ _ _ Har)) as Hbd.
  assert (∀ s' B, B2 = B → tile (a + UNIT * s) B (brk h) → s' = s → head_used B = true → coalesced B →
    inner (hdr h) (frees B) base → a + UNIT * s ≠ hd base (frees B) →
    0 < s' < 2 ^ 32 ∧ tile (a + UNIT * s') B (brk h) ∧ used B = used B2 ∧ head_used B = true ∧ coalesced B ∧
    inner (hdr h) (frees B) base ∧ (∀ b, b ∈ B → b ∈ B2) ∧
    join_upper a p h = Ok tt (set_hdr a (hd base (frees B), s') h)) as Hlink.
  { intros s' B <- HtB -> HuB HcB HiB Hne. pose proof (tile_le _ _ _ HtB). split_and!; try done; [unfold UNIT in *; lia|].
    unfold join_upper, s_ptr, s_size, set_ptr. go. rewrite Hn, Ea, (proj2 (Z.eqb_neq _ _) Hne). by rewrite <- Ea. }
  unfold upper. destruct B2 as [|[[a2 s2] u2] B2'] eqn:EB; [apply Hlink; try done; cbn; unfold UNIT in *; lia|].
  pose proof Ht2 as HtB. pose proof Hc as HcB. destruct Ht2 as (-> & Hs2 & Ht2). destruct Hc as [Hu2 Hc]. destruct u2.
  - apply Hlink; try done. cbn [snd frees]. destruct (frees B2') as [|z F] eqn:EF; cbn [hd]; [unfold UNIT in *; lia|].
    assert (z ∈ frees B2') as Hz by (rewrite EF; by left). pose proof (frees_range _ _ _ _ Ht2 Hz). unfold UNIT in *. lia.
  - cbn [frees] in Hi, Hn. cbn [hd] in Hn. destruct Hu2 as [?|Hu2]; [done|].
    apply path_hd in Hi as [Hnn Hi]. pose proof (tile_le _ _ _ Ht2). cbn [fst snd].
    assert ((hdr h (a + UNIT * s)).2 = s2) as E2.
    { apply (Hsz _ s2 false). apply elem_of_app. do 2 right. by left. }
    split_and!; try done; try (unfold UNIT in *; lia); [|intros b Hb; by right|].
    { by replace (a + UNIT * (s + s2)) with (a + UNIT * s + UNIT * s2) by lia. }
    unfold join_upper, s_ptr, s_size, set_ptr, set_size. go. rewrite Hn, Ea, Z.eqb_refl, E2.
    unfold set_hdr. cbn [hdr freep brk]. rewrite fn_lookup_insert, fn_insert_insert, fn_lookup_insert_ne by (unfold UNIT in *; lia).
    cbn [snd]. rewrite Hnn, wrap_small by (unfold UNIT in *; lia). done.
Qed.

(** The blocks below [a] and the lower half of the ring. *)
Section lower.
Context (h : uheap) (B1 : list blk) (a s s' : Z) (B2 B2' : list blk) (l1 : list Z) (p : Z).
Hypothesis Har : around h B1 a s B2 l1 p.
Hypothesis Hs' : 0 < s' < 2 ^ 32.
Hypothesis Ht2 : tile (a + UNIT * s') B2' (brk h).
Hypothesis Hu2 : head_used B2' = true.
Hypothesis Hc2 : coalesced B2'.
Hypothesis Hi2 : inner (hdr h) (frees B2') base.
Hypothesis Hsub : ∀ b, b ∈ B2' → b ∈ B2.
Abbreviation h1 := (set_hdr a (hd base (frees B2'), s') h).

Lemma p_fresh : (p ∉ l1) ∧ (p ∉ frees B2') ∧ (a ∉ base :: frees B1) ∧ (a ∉ frees B2').
Proof.
  pose proof (ring_sorted _ _ (ar_ok _ _ _ _ _ _ _ Har)) as Hs. rewrite frees_app, app_comm_cons in Hs.
  rewrite (ar_last _ _ _ _ _ _ _ Har), <- app_assoc in Hs. apply sorted_split in Hs as [Hl _].
  rewrite Forall_forall in Hl. pose proof (p_lt _ _ _ _ _ _ _ Har) as Hp.
  pose proof (ar_t1 _ _ _ _ _ _ _ Har) as Ht1. pose proof (tile_le _ _ _ Ht1). split_and!.
  - intros Hin%Hl. lia.
  - intros Hin. pose proof (frees_range _ _ _ _ Ht2 Hin). unfold UNIT in *. lia.
  - intros [->|Hin]%elem_of_cons; [unfold UNIT in *; lia|]. pose proof (frees_range _ _ _ _ Ht1 Hin). lia.
  - intros Hin. pose proof (frees_range _ _ _ _ Ht2 Hin). unfold UNIT in *. lia.
Qed.

(** The sizes of the blocks that do not change. *)
Lemma sizes_keep x y u v w : (x, y, u) ∈ B1 ∨ (x, y, u) ∈ B2' → x ≠ p → x ≠ a →
  ((<[p := v]> (<[a := w]> (hdr h)) : Z → Z * Z) x).2 = y.
Proof.
  intros Hin Hp Ha. rewrite !fn_lookup_insert_ne by done. apply (ok_sizes _ _ (ar_ok _ _ _ _ _ _ _ Har) x y u).
  apply elem_of_app. destruct Hin as [?|?%Hsub]; [by left|do 2 right; done].
Qed.

Lemma p_size_lt y : (p, y, false) ∈ B1 → 0 < y ∧ p + UNIT * y ≤ a ∧ lo ≤ p.
Proof. intros Hy. destruct (tile_elem _ _ _ _ _ _ (ar_t1 _ _ _ _ _ _ _ Har) Hy) as (? & ? & ?). by split_and!. Qed.

Lemma p_size : (p = base ∧ (hdr h p).2 = 0) ∨ (p, (hdr h p).2, false) ∈ B1.
Proof.
  destruct (p_cases _ _ _ _ _ _ _ Har) as [[-> _]|[y Hy]]; [left; split; [done|apply (ar_ok _ _ _ _ _ _ _ Har)]|right].
  rewrite (ok_sizes _ _ (ar_ok _ _ _ _ _ _ _ Har) p y false); [done|]. apply elem_of_app. by left.
Qed.

(** The ring with the new cell [a] behind [p]. *)
Lemma ring_link v : path (<[p := (a, v)]> (<[a := (hd base (frees B2'), s')]> (hdr h))) base (frees B1 ++ a :: frees B2') base.
Proof.
  destruct p_fresh as (F1 & F2 & F3 & F4). pose proof (p_lt _ _ _ _ _ _ _ Har) as Hp. apply path_app. split.
  - eapply path_relink; [apply Har|done|]. apply path_other; [done|]. apply Har.
  - apply path_hd. rewrite fn_lookup_insert_ne by lia. rewrite fn_lookup_insert. split; [done|].
    by rewrite !inner_other.
Qed.

(** The ring with [p] grown to the end of the block. *)
Lemma ring_grow v w : path (<[p := (hd base (frees B2'), v)]> (<[a := w]> (hdr h))) base (frees B1 ++ frees B2') base.
Proof.
  destruct p_fresh as (F1 & F2 & F3 & F4). apply path_split. split.
  - eapply path_relink; [apply Har|done|]. apply path_other; [done|]. apply Har.
  - by rewrite !inner_other.
Qed.

Lemma addr_lower x y u : (x, y, u) ∈ B1 → x < a.
Proof.
  intros Hin. destruct (tile_elem _ _ _ _ _ _ (ar_t1 _ _ _ _ _ _ _ Har) Hin) as (? & ? & ?). unfold UNIT in *. lia.
Qed.
Lemma addr_upper x y u : (x, y, u) ∈ B2' → a < x.
Proof. intros Hin. destruct (tile_elem _ _ _ _ _ _ Ht2 Hin) as (? & ? & ?). unfold UNIT in *. lia. Qed.

Lemma coal_lower : coalesced B1.
Proof.
  pose proof (ok_coal _ _ (ar_ok _ _ _ _ _ _ _ Har)) as Hc. clear -Hc. revert Hc.
  induction B1 as [|[[x y] u] B IH]; [done|]. cbn [app coalesced]. intros [Hu Hc]. split; [|by apply IH].
  destruct B as [|[[??]?]?]; [by right|done].
Qed.

(** [p] is not next to [a]: the block becomes a free block of its own. *)
Lemma link_ok : coalesced (B1 ++ [(a, s', false)]) →
  heap_ok (set_freep p (set_hdr p (a, (hdr h p).2) h1)) (B1 ++ (a, s', false) :: B2').
Proof.
  intros Hc. pose proof (ar_ok _ _ _ _ _ _ _ Har) as Hh. pose proof (p_lt _ _ _ _ _ _ _ Har) as Hp.
  split; cbn [brk hdr freep set_freep set_hdr].
  - apply tile_app. exists a. split; [apply Har|]. cbn. split_and!; [done|lia|done].
  - apply Hh.
  - apply coalesced_app. cbn. split_and!; [done|by right|done].
  - rewrite frees_app. apply ring_link.
  - destruct p_size as [[E E0]|Hin].
    + rewrite <- E, fn_lookup_insert. done.
    + pose proof (p_size_lt _ Hin) as (? & ? & ?). pose proof (a_lo _ _ _ _ _ _ _ Har).
      rewrite !fn_lookup_insert_ne by (unfold UNIT in *; lia). apply Hh.
  - intros x y u Hin. apply elem_of_app in Hin as [Hin|[E|Hin]%elem_of_cons].
    + pose proof (addr_lower _ _ _ Hin). destruct (decide (x = p)) as [->|Hne].
      * rewrite fn_lookup_insert. cbn. apply (ok_sizes _ _ Hh p y u). apply elem_of_app. by left.
      * apply (sizes_keep x y u); [by left|done|lia].
    + simplify_eq. rewrite fn_lookup_insert_ne, fn_lookup_insert by lia. done.
    + pose proof (addr_upper _ _ _ Hin). apply (sizes_keep x y u); [by right|lia|lia].
  - rewrite frees_app, app_comm_cons, (ar_last _ _ _ _ _ _ _ Har). apply elem_of_app. left.
    apply elem_of_app. right. by left.
Qed.

(** [p] is the block before [a] and grows. *)
Lemma grow_ok B0 y : B1 = B0 ++ [(p, y, false)] →
  heap_ok (set_freep p (set_hdr p (hd base (frees B2'), y + s') h1)) (B0 ++ (p, y + s', false) :: B2').
Proof.
  intros EB. pose proof (ar_ok _ _ _ _ _ _ _ Har) as Hh. pose proof (p_lt _ _ _ _ _ _ _ Har) as Hp.
  assert ((p, y, false) ∈ B1) as Hpin by (rewrite EB; apply elem_of_app; right; by left).
  pose proof (p_size_lt _ Hpin) as (Hy & _ & Hpl).
  pose proof (ar_t1 _ _ _ _ _ _ _ Har) as Ht1. rewrite EB in Ht1. apply tile_app in Ht1 as (mid & Ht0 & Em & _ & Ea).
  subst mid. cbn in Ea. split; cbn [brk hdr freep set_freep set_hdr].
  - apply tile_app. exists p. split; [done|]. cbn. split_and!; [done|lia|].
    by replace (p + UNIT * (y + s')) with (a + UNIT * s') by lia.
  - apply Hh.
  - apply coalesced_app. cbn. split_and!; [|by right|done]. apply (coalesced_flag _ p y). rewrite <- EB. apply coal_lower.
  - assert (frees (B0 ++ (p, y + s', false) :: B2') = frees B1 ++ frees B2') as ->; [|apply ring_grow].
    rewrite EB, !frees_app. cbn. by rewrite <- app_assoc.
  - rewrite !fn_lookup_insert_ne by (unfold UNIT in *; lia). apply Hh.
  - intros x z u Hin. apply elem_of_app in Hin as [Hin|[E|Hin]%elem_of_cons].
    + pose proof (tile_elem _ _ _ _ _ _ Ht0 Hin) as (? & ? & ?). unfold UNIT in *.
      apply (sizes_keep x z u); [left; rewrite EB; apply elem_of_app; by left|lia|lia].
    + simplify_eq. by rewrite fn_lookup_insert.
    + pose proof (addr_upper _ _ _ Hin). apply (sizes_keep x z u); [by right|lia|lia].
  - rewrite frees_app. right. apply elem_of_app. right. by left.
Qed.
End lower.

(** [join_lower] after [join_upper]. *)
Lemma lower_run h B1 a s s' B2 l1 p n : around h B1 a s B2 l1 p → 0 < s' < 2 ^ 32 →
  tile (a + UNIT * s') n (brk h) →
  let h1 := set_hdr a (hd base (frees n), s') h in
  join_lower a p h1 =
  Ok tt (if p + UNIT * (hdr h p).2 =? a then set_hdr p (hd base (frees n), (hdr h p).2 + s') h1
         else set_hdr p (a, (hdr h p).2) h1).
Proof.
  intros Har Hs' Ht h1. pose proof (p_lt _ _ _ _ _ _ _ Har) as Hp.
  pose proof (ok_bound _ _ (ar_ok _ _ _ _ _ _ _ Har)) as Hb. pose proof (tile_le _ _ _ Ht) as Hle.
  unfold join_lower, s_size, s_ptr, set_ptr, set_size. go. unfold h1, set_hdr. cbn [hdr freep brk].
  rewrite (fn_lookup_insert_ne _ a p) by lia. destruct (Z.eqb_spec (p + UNIT * (hdr h p).2) a) as [E|E]; cbn [hdr freep brk];
    rewrite ?(fn_lookup_insert_ne _ a p) by lia; [|done].
  rewrite (fn_lookup_insert_ne _ p a), !fn_lookup_insert, fn_insert_insert by lia. cbn [fst snd].
  assert (lo ≤ p ∨ p = base) as Hlo.
  { destruct (p_size _ _ _ _ _ _ _ Har) as [[-> _]|Hin]; [by right|left]. by eapply p_size_lt. }
  pose proof (a_lo _ _ _ _ _ _ _ Har). destruct (p_size _ _ _ _ _ _ _ Har) as [[Ep E0]|Hin].
  { rewrite E0 in E. unfold UNIT in *. lia. }
  destruct (p_size_lt _ _ _ _ _ _ _ Har _ Hin) as (? & ? & ?).
  by rewrite wrap_small by (unfold UNIT in *; lia).
Qed.

(** A free block that ends at [a] is the last one below it. *)
Lemma last_cases h B1 a s B2 l1 p : around h B1 a s B2 l1 p →
  (∃ B0 y, B1 = B0 ++ [(p, y, false)] ∧ (hdr h p).2 = y ∧ p + UNIT * y = a) ∨
  (p + UNIT * (hdr h p).2 ≠ a ∧ ∀ x, coalesced (B1 ++ [(a, x, false)])).
Proof.
  intros Har. pose proof (a_lo _ _ _ _ _ _ _ Har) as Hlo. pose proof (ar_t1 _ _ _ _ _ _ _ Har) as Ht1.
  pose proof (coal_lower _ _ _ _ _ _ _ Har) as Hc. pose proof (ar_last _ _ _ _ _ _ _ Har) as El.
  pose proof (ok_sizes _ _ (ar_ok _ _ _ _ _ _ _ Har)) as Hsz. pose proof (p_size _ _ _ _ _ _ _ Har) as Hps.
  destruct (decide (B1 = [])) as [->|Hne].
  { right. destruct Hps as [[-> ->]|Hin%elem_of_nil]; [|done]. split; [unfold UNIT in *; lia|]. intros x. cbn. naive_solver. }
  destruct (exists_last Hne) as (B0 & [[x y] u] & ->). apply tile_app in Ht1 as (mid & Ht0 & -> & Hy & Ea). cbn in Ea.
  destruct u; [right|left].
  - split.
    + destruct Hps as [[-> ->]|[Hin|[[=]|Hin%elem_of_nil]%elem_of_cons]%elem_of_app]; [unfold UNIT in *; lia| |done].
      destruct (tile_elem _ _ _ _ _ _ Ht0 Hin) as (? & ? & ?). unfold UNIT in *. lia.
    + intros x. rewrite <- app_assoc. apply coalesced_app. cbn. split_and!; [done|by left|by right|done].
  - rewrite frees_app, app_comm_cons in El. apply app_inj_tail in El as [_ <-]. exists B0, y.
    split_and!; [done| |done]. apply (Hsz mid y false). apply elem_of_app. left. apply elem_of_app. right. by left.
Qed.

Lemma free_ok h B1 a s B2 fuel : heap_ok h (B1 ++ (a, s, true) :: B2) → (length (frees (B1 ++ B2)) < fuel)%nat →
  ∃ h' B', free fuel (a + UNIT) h = Ok tt h' ∧ heap_ok h' B' ∧ used B' = used B1 ++ used B2 ∧ brk h' = brk h ∧
    (length (frees B') ≤ S (length (frees (B1 ++ B2))))%nat ∧ ∃ x y, (x, y, false) ∈ B' ∧ s ≤ y.
Proof.
  intros Hh Hf. destruct (around_intro _ _ _ _ _ Hh) as (l1 & p & Har).
  destruct (upper_ok _ _ _ _ _ _ _ Har) as (Hs' & Ht2 & Eu & Hu2 & Hc2 & Hi2 & Hsub & Eup).
  set (s' := (upper s B2).1) in *. set (B2' := (upper s B2).2) in *.
  assert (s ≤ s' ∧ (length (frees B2') ≤ length (frees B2))%nat) as [Hss Hlen].
  { pose proof (ar_t2 _ _ _ _ _ _ _ Har) as Ht. unfold s', B2', upper. destruct B2 as [|[[??][]]?]; cbn; try lia.
    destruct Ht as (_ & ? & _). lia. }
  assert (∀ h' B', join_lower a p (set_hdr a (hd base (frees B2'), s') h) = Ok tt h' →
    heap_ok (set_freep p h') B' → used B' = used B1 ++ used B2 → brk h' = brk h →
    (length (frees B') ≤ S (length (frees (B1 ++ B2))))%nat → (∃ x y, (x, y, false) ∈ B' ∧ s ≤ y) →
    ∃ h'' B'', free fuel (a + UNIT) h = Ok tt h'' ∧ heap_ok h'' B'' ∧ used B'' = used B1 ++ used B2 ∧ brk h'' = brk h ∧
    (length (frees B'') ≤ S (length (frees (B1 ++ B2))))%nat ∧ ∃ x y, (x, y, false) ∈ B'' ∧ s ≤ y) as Hrun.
  { intros h' B' El Hok Hu Hb Hl Hx. exists (set_freep p h'), B'. split_and!; try done.
    unfold free. rewrite Z.add_simpl_r. erewrite bind_ok by reflexivity.
    rewrite (bind_ok _ _ _ _ _ (free_search _ _ _ _ _ _ _ _ Hh (ar_last _ _ _ _ _ _ _ Har) Hf)).
    by rewrite (bind_ok _ _ _ _ _ Eup), (bind_ok _ _ _ _ _ El). }
  pose proof (lower_run _ _ _ _ _ _ _ _ _ Har Hs' Ht2) as El. cbv zeta in El.
  rewrite !frees_app, !length_app in *.
  destruct (last_cases _ _ _ _ _ _ _ Har) as [(B0 & y & EB & Ey & Ea)|[Hne Hc]].
  - rewrite Ey, Ea, Z.eqb_refl in El. eapply Hrun; [exact El|by eapply grow_ok|..].
    + rewrite EB, !used_app. cbn. by rewrite Eu, app_nil_r.
    + done.
    + rewrite EB, !frees_app, !length_app. cbn. lia.
    + exists p, (y + s'). split; [apply elem_of_app; right; by left|]. 
      assert ((p, y, false) ∈ B1) as Hin by (rewrite EB; apply elem_of_app; right; by left).
      pose proof (p_size_lt _ _ _ _ _ _ _ Har _ Hin). lia.
  - rewrite (proj2 (Z.eqb_neq _ _) Hne) in El. eapply Hrun; [exact El|by eapply link_ok|..].
    + rewrite !used_app. cbn. by rewrite Eu.
    + done.
    + rewrite !frees_app, !length_app. cbn. lia.
    + exists a, s'. split; [apply elem_of_app; right; by left|done].
Qed.

(** ** Allocation *)

Lemma path_ext f g x l e : (∀ y, (f y).1 = (g y).1) → path f x l e → path g x l e.
Proof. intros E. revert x. induction l as [|y l IH]; intros x; cbn; rewrite E; [done|]. intros [-> ?]. auto. Qed.

Lemma coalesced_use B1 a s s' B2 : coalesced (B1 ++ (a, s, false) :: B2) → coalesced (B1 ++ (a, s', true) :: B2).
Proof.
  induction B1 as [|[[x y] u] B1 IH]; cbn [app coalesced]; [naive_solver|]. intros [H1 H2]. split; [|by apply IH].
  destruct B1 as [|[[??]?]?]; cbn in *; naive_solver.
Qed.

Lemma coalesced_end B a s : coalesced B → coalesced (B ++ [(a, s, true)]).
Proof.
  induction B as [|[[x y] u] B IH]; cbn [app coalesced]; [naive_solver|]. intros [H1 H2]. split; [|by apply IH].
  destruct B as [|[[??]?]?]; cbn in *; naive_solver.
Qed.

Lemma app_cons_inj (q : Z) l1 l2 m1 m2 : (q ∉ l1) → (q ∉ l2) → l1 ++ q :: m1 = l2 ++ q :: m2 → l1 = l2 ∧ m1 = m2.
Proof.
  revert l2. induction l1 as [|x l1 IH]; intros [|y l2] N1 N2 E; cbn in E.
  - by injection E.
  - injection E as -> _. destruct N2. by left.
  - injection E as -> _. destruct N1. by left.
  - injection E as <- E. apply not_elem_of_cons in N1 as [_ N1], N2 as [_ N2].
    by destruct (IH l2 N1 N2 E) as [-> ->].
Qed.

(** The links before and after a free block. *)
Lemma split_ring h B1 q s B2 r : heap_ok h (B1 ++ (q, s, false) :: B2) → r ∈ base :: frees (B1 ++ (q, s, false) :: B2) →
  (hdr h r).1 = q → ∃ U, base :: frees B1 = U ++ [r] ∧ (r ∉ U) ∧ r ≠ q ∧ (r ∉ q :: frees B2) ∧ q ≠ base.
Proof.
  intros Hh Hr Eq. pose proof (ring_sorted _ _ Hh) as Hs. pose proof (ok_ring _ _ Hh) as Hp.
  rewrite frees_app in *. cbn [frees] in *. set (F := frees B1 ++ q :: frees B2) in *.
  apply list_elem_of_split in Hr as (U & V & E). pose proof (ring_next _ _ _ _ _ Hp E) as En. rewrite Eq in En.
  assert (q ≠ base) as Hqb.
  { intros ->. unfold F in Hs. rewrite app_comm_cons in Hs. apply sorted_split in Hs as [Hs _].
    apply Forall_cons_1 in Hs as [Hs _]. lia. }
  destruct V as [|v V]; [done|]. cbn in En. subst v.
  pose proof Hs as Hs1. rewrite E in Hs1. pose proof Hs1 as Hs2. apply sorted_split in Hs2 as [HU HV].
  replace (U ++ r :: q :: V) with ((U ++ [r]) ++ q :: V) in Hs1, E by (by rewrite <- app_assoc).
  apply sorted_split in Hs1 as [HUr _].
  assert (base :: frees B1 = U ++ [r] ∧ frees B2 = V) as [EU EV].
  { unfold F in Hs, E. rewrite app_comm_cons in Hs, E. apply sorted_split in Hs as [HF _].
    rewrite Forall_forall in HF, HUr.
    assert (q ∉ base :: frees B1) as N1 by (intros Hin%HF; lia).
    assert (q ∉ U ++ [r]) as N2 by (intros Hin%HUr; lia).
    by apply (app_cons_inj q). }
  rewrite Forall_forall in HU, HV. assert (r < q) by (apply HV; by left).
  exists U. split_and!; [done|intros Hin%HU; lia|lia| |done].
  rewrite EV. intros Hin. specialize (HV _ Hin). lia.
Qed.

Lemma take_all h B1 q s B2 r : heap_ok h (B1 ++ (q, s, false) :: B2) →
  r ∈ base :: frees (B1 ++ (q, s, false) :: B2) → (hdr h r).1 = q →
  heap_ok (set_freep r (set_hdr r ((hdr h q).1, (hdr h r).2) h)) (B1 ++ (q, s, true) :: B2).
Proof.
  intros Hh Hr Eq. destruct (split_ring _ _ _ _ _ _ Hh Hr Eq) as (U & EU & NU & Nq & N2 & Nb).
  pose proof (ok_ring _ _ Hh) as Hp. rewrite frees_app in Hp. cbn [frees] in Hp. apply path_app in Hp as [Hp1 Hp2].
  apply path_hd in Hp2 as [En Hp2]. apply not_elem_of_cons in N2 as [_ N2]. split; cbn [brk hdr freep set_freep set_hdr].
  - pose proof (ok_tile _ _ Hh) as Ht. apply tile_app in Ht as (mid & Ht1 & Ht2). apply tile_app. by exists mid.
  - apply Hh.
  - eapply coalesced_use, Hh.
  - rewrite frees_app. cbn [frees]. apply path_split. rewrite En. split; [by eapply path_relink|by rewrite inner_other].
  - destruct (decide (r = base)) as [->|Hne]; [rewrite fn_lookup_insert|rewrite fn_lookup_insert_ne by done]; apply Hh.
  - intros a z u Hin. assert (∃ u', (a, z, u') ∈ B1 ++ (q, s, false) :: B2) as [u' Hin'].
    { apply elem_of_app in Hin as [?|[E|?]%elem_of_cons]; [exists u; apply elem_of_app; by left| |
        exists u; apply elem_of_app; do 2 right; done]. simplify_eq. exists false. apply elem_of_app. right. by left. }
    destruct (decide (a = r)) as [->|Hne]; [rewrite fn_lookup_insert|rewrite fn_lookup_insert_ne by done];
      by eapply (ok_sizes _ _ Hh).
  - rewrite frees_app. cbn [frees]. rewrite app_comm_cons, EU. apply elem_of_app. left. apply elem_of_app. right. by left.
Qed.

Lemma take_end h B1 q s B2 r n : heap_ok h (B1 ++ (q, s, false) :: B2) →
  r ∈ base :: frees (B1 ++ (q, s, false) :: B2) → 0 < n < s → let q' := q + UNIT * (s - n) in
  heap_ok (set_freep r (set_hdr q' ((hdr h q').1, n) (set_hdr q ((hdr h q).1, s - n) h)))
    (B1 ++ (q, s - n, false) :: (q', n, true) :: B2).
Proof.
  intros Hh Hr Hn q'. pose proof (ok_tile _ _ Hh) as Ht. apply tile_app in Ht as (mid & Ht1 & Em & Hs & Ht2). subst mid.
  pose proof (tile_le _ _ _ Ht1) as Hlo. assert (q < q') as Hqq by (unfold q', UNIT; lia).
  split; cbn [brk hdr freep set_freep set_hdr].
  - apply tile_app. exists q. split; [done|]. cbn. split_and!; [done|lia|done|lia|].
    by replace (q + UNIT * (s - n) + UNIT * n) with (q + UNIT * s) by lia.
  - apply Hh.
  - pose proof (ok_coal _ _ Hh) as Hc. apply coalesced_app in Hc as (Hc1 & _ & Hc2). apply coalesced_app. cbn.
    split_and!; [by eapply coalesced_flag|by right|by left|done].
  - rewrite frees_app. cbn [frees]. pose proof (ok_ring _ _ Hh) as Hp. rewrite frees_app in Hp.
    eapply path_ext; [|exact Hp]. intros y. destruct (decide (y = q')) as [->|H1]; [by rewrite fn_lookup_insert|].
    rewrite fn_lookup_insert_ne by done.
    destruct (decide (y = q)) as [->|H2]; [by rewrite fn_lookup_insert|by rewrite fn_lookup_insert_ne].
  - rewrite !fn_lookup_insert_ne by (unfold UNIT in *; lia). apply Hh.
  - intros a z u Hin. apply elem_of_app in Hin as [Hin|[E|[E|Hin]%elem_of_cons]%elem_of_cons].
    + destruct (tile_elem _ _ _ _ _ _ Ht1 Hin) as (? & ? & ?). rewrite !fn_lookup_insert_ne by (unfold UNIT in *; lia).
      eapply (ok_sizes _ _ Hh). apply elem_of_app. by left.
    + simplify_eq. rewrite fn_lookup_insert_ne by lia. by rewrite fn_lookup_insert.
    + simplify_eq. by rewrite fn_lookup_insert.
    + destruct (tile_elem _ _ _ _ _ _ Ht2 Hin) as (? & ? & ?).
      rewrite !fn_lookup_insert_ne by (unfold q', UNIT in *; lia).
      eapply (ok_sizes _ _ Hh). apply elem_of_app. do 2 right. done.
  - rewrite frees_app in Hr |- *. exact Hr.
Qed.

Lemma take_ok h B q s r n : heap_ok h B → (q, s, false) ∈ B → r ∈ base :: frees B → (hdr h r).1 = q → 0 < n ≤ s →
  ∃ a h' B', take_block n r q h = Ok (a + UNIT) h' ∧ heap_ok h' B' ∧ used B' ≡ₚ (a, n) :: used B ∧
    brk h' = brk h ∧ lo ≤ a.
Proof.
  intros Hh Hin Hr Eq Hn. pose proof (ok_sizes _ _ Hh _ _ _ Hin) as Es.
  pose proof (tile_elem _ _ _ _ _ _ (ok_tile _ _ Hh) Hin) as (Hlo & _ & Hhi). pose proof (ok_bound _ _ Hh) as Hb.
  apply list_elem_of_split in Hin as (B1 & B2 & ->).
  unfold take_block, s_size, s_ptr, set_ptr, set_size. go. rewrite Es.
  destruct (Z.eqb_spec s n) as [->|Hne].
  - eexists q, _, _. split; [reflexivity|]. split; [by eapply take_all|].
    split_and!; [|done|done]. rewrite !used_app. cbn. by rewrite Permutation_middle.
  - cbn [hdr freep brk set_hdr]. rewrite (fn_lookup_insert_ne _ q) by (unfold UNIT; lia).
    rewrite !wrap_small by (unfold UNIT in *; lia).
    eexists (q + UNIT * (s - n)), _, _. split; [reflexivity|].
    split; [apply (take_end _ _ _ _ _ _ _ Hh Hr); lia|].
    split_and!; [|done|unfold UNIT in *; lia]. rewrite !used_app. cbn. by rewrite Permutation_middle.
Qed.

(** What [sbrk] promises: it fails without effect, or moves the end of the
    heap, which stays below a limit, and returns where it was. *)
Hypothesis sbrk_spec : ∀ n h, 0 < n → sbrk n h = Ok (-1) h ∨
  (sbrk n h = Ok (brk h) (set_brk (brk h + n) h) ∧ brk h + n - lo ≤ 2 ^ 35).

Lemma grown_ok h B n x : heap_ok h B → 0 < n → brk h + UNIT * n - lo ≤ 2 ^ 35 →
  heap_ok (set_hdr (brk h) (x, n) (set_brk (brk h + UNIT * n) h)) (B ++ [(brk h, n, true)]).
Proof.
  intros Hh Hn Hb. pose proof (ok_tile _ _ Hh) as Ht. pose proof (tile_le _ _ _ Ht) as Hle.
  assert (brk h ∉ base :: frees B) as Hfresh.
  { intros [E|Hin]%elem_of_cons; [unfold UNIT in *; lia|]. pose proof (frees_range _ _ _ _ Ht Hin). lia. }
  assert (frees (B ++ [(brk h, n, true)]) = frees B) as Ef by (rewrite frees_app; cbn; apply app_nil_r).
  split; cbn [brk hdr freep set_hdr set_brk]; rewrite ?Ef.
  - apply tile_app. exists (brk h). by cbn.
  - done.
  - apply coalesced_end, Hh.
  - apply path_other; [done|apply Hh].
  - rewrite fn_lookup_insert_ne by (intros E; apply Hfresh; rewrite E; by left). apply Hh.
  - intros a z u [Hin|[E|Hin%elem_of_nil]%elem_of_cons]%elem_of_app; [| |done].
    + destruct (tile_elem _ _ _ _ _ _ Ht Hin) as (? & ? & ?). rewrite fn_lookup_insert_ne by (unfold UNIT in *; lia).
      by eapply (ok_sizes _ _ Hh).
    + simplify_eq. by rewrite fn_lookup_insert.
  - apply Hh.
Qed.

Lemma freep_pos h B : heap_ok h B → 0 < freep h.
Proof.
  intros Hh. pose proof (ok_freep _ _ Hh) as [E|Hin]%elem_of_cons; [lia|].
  pose proof (frees_range _ _ _ _ (ok_tile _ _ Hh) Hin). unfold UNIT in *. lia.
Qed.

Lemma morecore_ok h B fuel n : heap_ok h B → 0 < n < 2 ^ 27 → (length (frees B) < fuel)%nat →
  morecore sbrk fuel n h = Ok 0 h ∨
  ∃ h' B', morecore sbrk fuel n h = Ok (freep h') h' ∧ heap_ok h' B' ∧ used B' = used B ∧ brk h < brk h' ∧
    (length (frees B') ≤ S (length (frees B)))%nat ∧ ∃ x y, (x, y, false) ∈ B' ∧ n ≤ y.
Proof.
  intros Hh Hn Hf. unfold morecore. set (nu := if n <? 4096 then 4096 else n).
  assert (n ≤ nu < 2 ^ 27) as Hnu by (unfold nu; destruct (Z.ltb_spec n 4096); lia). clearbody nu.
  assert (i32 (nu * UNIT) = UNIT * nu) as -> by (rewrite swrap_small; unfold UNIT; lia).
  pose proof (tile_le _ _ _ (ok_tile _ _ Hh)) as Hle.
  destruct (sbrk_spec (UNIT * nu) h) as [E|[E Hb]]; [unfold UNIT; lia|left; by rewrite (bind_ok _ _ _ _ _ E)|right].
  rewrite (bind_ok _ _ _ _ _ E). rewrite (proj2 (Z.eqb_neq (brk h) (-1))) by (unfold UNIT in *; lia).
  unfold set_size. erewrite bind_ok by reflexivity. cbn [hdr set_brk]. rewrite wrap_small by lia.
  pose proof (grown_ok h B nu (hdr h (brk h)).1 Hh ltac:(lia) Hb) as Hg.
  destruct (free_ok _ B (brk h) nu [] fuel Hg) as (h' & B' & Ef & Hh' & Hu & Hb' & Hl & x & y & Hin & Hy).
  { by rewrite app_nil_r. }
  rewrite (bind_ok _ _ _ _ _ Ef). rewrite app_nil_r in Hl, Hu. cbn in Hu.
  exists h', B'. split_and!; try done; [rewrite Hb'; cbn; unfold UNIT; lia|].
  exists x, y. split; [done|lia].
Qed.

(** [p] has a block that is large enough. *)
Definition fits_at (h : uheap) (n p : Z) : Prop := n ≤ (hdr h p).2.

Lemma scan_ok h n L prevp fuel m : path (hdr h) prevp L (freep h) → (freep h ∉ L) →
  (∃ r q, fits_at h n q ∧ (hdr h r).1 = q ∧ r ∈ prevp :: L ∧ q ∈ L ++ [freep h] ∧
     loopM (length L + S fuel) (malloc_step sbrk m n) (prevp, hd (freep h) L) h =
     take_block n r q h) ∨
  ((∀ q, q ∈ L ++ [freep h] → ¬ fits_at h n q) ∧ ∃ r, 
     loopM (length L + S fuel) (malloc_step sbrk m n) (prevp, hd (freep h) L) h =
     loopM (S fuel) (malloc_step sbrk m n) (r, freep h) h).
Proof.
  assert (∀ k prevp q, fits_at h n q →
    loopM (S k) (malloc_step sbrk m n) (prevp, q) h = take_block n prevp q h) as Htake.
  { intros k pr q Hq. cbn [loopM]. unfold malloc_step, s_size. go. rewrite (proj2 (Z.leb_le _ _) Hq).
    cbv [bind ret]. by destruct (take_block n pr q h). }
  revert prevp. induction L as [|p L IH]; intros prevp Hp Hn; cbn [length Nat.add hd app].
  - destruct (decide (n ≤ (hdr h (freep h)).2)) as [Hq|Hq].
    + left. exists prevp, (freep h). split_and!; [done|done|by left|by left|by apply Htake].
    + right. split; [intros q [->|?%elem_of_nil]%elem_of_cons; done|]. by exists prevp.
  - destruct Hp as [E Hp]. apply not_elem_of_cons in Hn as [Hne Hn]. destruct (decide (n ≤ (hdr h p).2)) as [Hq|Hq].
    + left. exists prevp, p. split_and!; [done|done|by left|by left|]. rewrite Nat.add_succ_r. by apply Htake.
    + assert (loopM (S (length L + S fuel)) (malloc_step sbrk m n) (prevp, p) h =
        loopM (length L + S fuel) (malloc_step sbrk m n) (p, hd (freep h) L) h) as Estep.
      { cbn [loopM]. unfold malloc_step at 1, s_size, s_ptr. go. rewrite (proj2 (Z.leb_gt _ _)) by lia.
        rewrite (proj2 (Z.eqb_neq p (freep h))) by done. apply path_hd in Hp as [-> _]. done. }
      rewrite Estep. destruct (IH p Hp Hn) as [(r & q & H1 & H2 & H3 & H4 & H5)|(H1 & r & H2)].
      * left. exists r, q. split_and!; [done|done|by right|by right|done].
      * right. split; [|by exists r]. intros q [->|Hin]%elem_of_cons; [done|by apply H1].
Qed.

Lemma sorted_notin (U : list Z) r V : StronglySorted Z.lt (U ++ r :: V) → r ∉ V ++ U.
Proof.
  intros [HU HV]%sorted_split. rewrite Forall_forall in HU, HV.
  intros [Hin%HV|Hin%HU]%elem_of_app; lia.
Qed.

(** A turn round the list from [freep]. *)
Lemma ring_scan h B n fuel m : heap_ok h B → 0 < n →
  let run k := loopM k (malloc_step sbrk m n) in
  (∃ a h' B', run (length (frees B) + S fuel)%nat (freep h, (hdr h (freep h)).1) h = Ok (a + UNIT) h' ∧
     heap_ok h' B' ∧ used B' ≡ₚ (a, n) :: used B ∧ lo ≤ a) ∨
  ((∀ x y, (x, y, false) ∈ B → y < n) ∧ ∃ r,
     run (length (frees B) + S fuel)%nat (freep h, (hdr h (freep h)).1) h = run (S fuel) (r, freep h) h).
Proof.
  intros Hh Hn run. pose proof (ok_freep _ _ Hh) as Hfp. apply list_elem_of_split in Hfp as (U & V & E).
  pose proof (path_rotate _ _ _ _ _ _ (ok_ring _ _ Hh) E) as Hp.
  pose proof (ring_sorted _ _ Hh) as Hs. rewrite E in Hs. apply sorted_notin in Hs.
  assert (freep h :: V ++ U ≡ₚ base :: frees B) as Hperm by (rewrite E, (Permutation_app_comm U); done).
  assert (V ++ U ++ [freep h] ≡ₚ base :: frees B) as Hperm2.
  { rewrite <- Hperm, app_assoc. by rewrite Permutation_app_comm. }
  assert (length (frees B) = length (V ++ U)) as ->.
  { apply Permutation_length in Hperm. cbn in Hperm. lia. }
  assert ((hdr h (freep h)).1 = hd (freep h) (V ++ U)) as -> by (by apply path_hd in Hp as [? _]).
  destruct (scan_ok h n (V ++ U) (freep h) fuel m Hp Hs) as [(r & q & Hq & Er & Hr & Hqin & Erun)|(Hno & r & Erun)].
  - left. rewrite <- app_assoc, Hperm2 in Hqin. rewrite Hperm in Hr.
    apply elem_of_cons in Hqin as [->|[y Hy]%frees_elem].
    { unfold fits_at in Hq. rewrite (ok_zero _ _ Hh) in Hq. lia. }
    assert (0 < n ≤ y) as Hny by (unfold fits_at in Hq; rewrite (ok_sizes _ _ Hh _ _ _ Hy) in Hq; lia).
    destruct (take_ok _ _ _ _ _ _ Hh Hy Hr Er Hny) as (a & h' & B' & E1 & E2 & E3 & _ & E4).
    exists a, h', B'. unfold run. by rewrite Erun.
  - right. split; [|exists r; exact Erun]. intros x y Hin.
    assert (x ∈ (V ++ U) ++ [freep h]) as Hx.
    { rewrite <- app_assoc, Hperm2. right. apply frees_elem. by exists y. }
    apply Hno in Hx. unfold fits_at in Hx. rewrite (ok_sizes _ _ Hh _ _ _ Hin) in Hx. lia.
Qed.

Definition enough (B : list blk) (fuel : nat) : Prop := (2 * length (frees B) + 4 ≤ fuel)%nat.

Lemma malloc_loop h B n fuel : heap_ok h B → 0 < n < 2 ^ 27 → enough B fuel →
  let run := loopM fuel (malloc_step sbrk fuel n) (freep h, (hdr h (freep h)).1) h in
  (run = Ok 0 h ∧ ∀ x y, (x, y, false) ∈ B → y < n) ∨
  ∃ a h' B', run = Ok (a + UNIT) h' ∧ heap_ok h' B' ∧ used B' ≡ₚ (a, n) :: used B ∧ lo ≤ a.
Proof.
  intros Hh Hn Hf run. unfold enough in Hf. remember (length (frees B)) as k eqn:Ek.
  pose proof (ring_scan h B n (fuel - S k) fuel Hh ltac:(lia)) as Hscan. cbv zeta in Hscan. rewrite <- Ek in Hscan.
  replace (k + S (fuel - S k))%nat with fuel in Hscan by lia. destruct Hscan as [Hdone|(Hno & r & Erun)]; [by right|].
  assert ((hdr h (freep h)).2 < n) as Hlt.
  { pose proof (ok_freep _ _ Hh) as [Efp|[y Hy]%frees_elem]%elem_of_cons.
    - rewrite Efp, (ok_zero _ _ Hh). lia.
    - rewrite (ok_sizes _ _ Hh _ _ _ Hy). by eapply Hno. }
  unfold run. rewrite Erun. clear run Erun. cbn [loopM]. unfold malloc_step at 1 3, s_size, s_ptr. go.
  rewrite (proj2 (Z.leb_gt _ _) Hlt), Z.eqb_refl.
  destruct (morecore_ok h B fuel n Hh Hn ltac:(lia)) as [Em|(h1 & B1 & Em & Hh1 & Hu1 & _ & Hl1 & x & y & Hin & Hy)];
    rewrite Em; cbn [Z.eqb]; [by left|right].
  rewrite (proj2 (Z.eqb_neq (freep h1) 0)) by (pose proof (freep_pos _ _ Hh1); lia).
  destruct (ring_scan h1 B1 n (fuel - S k - S (length (frees B1))) fuel Hh1 ltac:(lia)) as [Hdone|(Hno1 & _)].
  - cbv zeta in Hdone. rewrite <- Ek in Hl1.
    replace (length (frees B1) + S (fuel - S k - S (length (frees B1))))%nat with (fuel - S k)%nat in Hdone by lia.
    destruct Hdone as (a & h' & B' & E1 & E2 & E3 & E4). exists a, h', B'. rewrite <- Hu1. by split_and!.
  - specialize (Hno1 _ _ Hin). lia.
Qed.

(** The heap of a program that has not allocated yet. *)
Definition fresh_heap (h : uheap) : Prop := freep h = 0 ∧ brk h = lo.
Definition usable (h : uheap) (B : list blk) : Prop := heap_ok h B ∨ (fresh_heap h ∧ B = []).

Lemma init_ok h : fresh_heap h →
  heap_ok (set_hdr base (base, 0) (set_freep base (set_hdr base (base, (hdr h base).2) h))) [].
Proof.
  intros [Ef Eb]. split; cbn [brk hdr freep set_hdr set_freep]; rewrite ?fn_lookup_insert; try done.
  - rewrite Eb. lia.
  - by rewrite path_hd, fn_lookup_insert.
  - intros a s u Hin%elem_of_nil. done.
  - by left.
Qed.

Lemma units_range nbytes : 0 ≤ nbytes < 2 ^ 31 - 4096 → 0 < units nbytes < 2 ^ 27 ∧ nbytes ≤ UNIT * (units nbytes - 1).
Proof.
  intros Hn. unfold units, UNIT. pose proof (Z.div_mod (nbytes + 16 - 1) 16 ltac:(lia)).
  pose proof (Z.mod_pos_bound (nbytes + 16 - 1) 16 ltac:(lia)). rewrite wrap_small by lia. lia.
Qed.

Lemma malloc_run h B nbytes fuel : usable h B → 0 ≤ nbytes < 2 ^ 31 - 4096 → enough B fuel →
  ∃ r h', malloc sbrk base fuel nbytes h = Ok r h' ∧
    ((r = 0 ∧ heap_ok h' B ∧ ∀ x y, (x, y, false) ∈ B → y < units nbytes) ∨
     (lo < r ∧ ∃ B', heap_ok h' B' ∧ used B' ≡ₚ (r - UNIT, units nbytes) :: used B)).
Proof.
  intros Hus Hn Hf. destruct (units_range _ Hn) as [Hu _].
  assert (∃ h0, heap_ok h0 B ∧ malloc sbrk base fuel nbytes h =
    loopM fuel (malloc_step sbrk fuel (units nbytes)) (freep h0, (hdr h0 (freep h0)).1) h0) as (h0 & Hh0 & E).
  { destruct Hus as [Hh|[Hi ->]].
    - exists h. split; [done|]. unfold malloc, s_ptr. go.
      rewrite (proj2 (Z.eqb_neq (freep h) 0)) by (pose proof (freep_pos _ _ Hh); lia). done.
    - eexists. split; [by apply init_ok|]. destruct Hi as [Ef _]. unfold malloc, s_ptr, set_ptr, set_size. go.
      rewrite Ef. cbn [Z.eqb whenM]. cbn [freep hdr set_hdr set_freep]. rewrite !fn_lookup_insert. done. }
  rewrite E. destruct (malloc_loop h0 B (units nbytes) fuel Hh0 Hu Hf) as [[E0 Hno]|(a & h' & B' & E1 & Hh' & Hp & Ha)].
  - exists 0, h0. split; [done|]. by left.
  - exists (a + UNIT), h'. split; [done|]. right. split; [unfold UNIT in *; lia|]. exists B'. by rewrite Z.add_simpl_r.
Qed.

(** ** Histories *)

(** The result of a call, given enough fuel. *)
Definition returns {A} (m : nat → M uheap A) (h : uheap) (r : A) (h' : uheap) : Prop :=
  ∃ N, ∀ fuel, (N ≤ fuel)%nat → m fuel h = Ok r h'.

(** A program allocates and frees; [live] are the blocks it holds. *)
Inductive uses : uheap → list (Z * Z) → Prop :=
  | uses_start h : fresh_heap h → uses h []
  | uses_malloc h live nbytes r h' : uses h live → 0 ≤ nbytes < 2 ^ 31 - 4096 → r ≠ 0 →
      returns (λ fuel, malloc sbrk base fuel nbytes) h r h' → uses h' ((r - UNIT, units nbytes) :: live)
  | uses_none h live nbytes h' : uses h live → 0 ≤ nbytes < 2 ^ 31 - 4096 →
      returns (λ fuel, malloc sbrk base fuel nbytes) h 0 h' → uses h' live
  | uses_free h live live' a s h' : uses h live → live ≡ₚ (a, s) :: live' →
      returns (λ fuel, free fuel (a + UNIT)) h tt h' → uses h' live'.

Lemma used_elem a s B : (a, s) ∈ used B → ∃ B1 B2, B = B1 ++ (a, s, true) :: B2.
Proof.
  induction B as [|[[x y] u] B IH]; cbn; [by intros ?%elem_of_nil|]. destruct u.
  - intros [E|Hin]%elem_of_cons.
    + simplify_eq. by exists [], B.
    + destruct (IH Hin) as (B1 & B2 & ->). by exists ((x, y, true) :: B1), B2.
  - intros Hin. destruct (IH Hin) as (B1 & B2 & ->). by exists ((x, y, false) :: B1), B2.
Qed.

Lemma malloc_uses h B nbytes r h' : usable h B → 0 ≤ nbytes < 2 ^ 31 - 4096 →
  returns (λ fuel, malloc sbrk base fuel nbytes) h r h' →
  (r = 0 ∧ heap_ok h' B) ∨ (r ≠ 0 ∧ ∃ B', heap_ok h' B' ∧ used B' ≡ₚ (r - UNIT, units nbytes) :: used B).
Proof.
  intros Hus Hn [N Hret]. set (fuel := (N + (2 * length (frees B) + 4))%nat).
  destruct (malloc_run h B nbytes fuel Hus Hn) as (r1 & h1 & E & Hr); [unfold enough, fuel; lia|].
  rewrite (Hret fuel ltac:(unfold fuel; lia)) in E. injection E as <- <-.
  destruct Hr as [(-> & Hh & _)|(Hr & HB)]; [by left|right]. split; [unfold UNIT in *; lia|done].
Qed.

Lemma uses_ok h live : uses h live → ∃ B, usable h B ∧ used B ≡ₚ live.
Proof.
  induction 1 as [h Hf|h live nbytes r h' _ (B & Hus & Hp) Hn Hr Hret|h live nbytes h' _ (B & Hus & Hp) Hn Hret|
    h live live' a s h' _ (B & Hus & Hp) Hl [N Hret]].
  - exists []. split; [by right|done].
  - destruct (malloc_uses _ _ _ _ _ Hus Hn Hret) as [[? _]|(_ & B' & Hh & Hp')]; [done|].
    exists B'. split; [by left|]. by rewrite Hp', Hp.
  - destruct (malloc_uses _ _ _ _ _ Hus Hn Hret) as [[_ Hh]|(? & _)]; [|done]. exists B. split; [by left|done].
  - assert ((a, s) ∈ used B) as Hin by (rewrite Hp, Hl; by left).
    destruct (used_elem _ _ _ Hin) as (B1 & B2 & ->). destruct Hus as [Hh|[_ ?]]; [|by destruct B1].
    destruct (free_ok h B1 a s B2 (N + S (length (frees (B1 ++ B2)))) Hh) as (h1 & B' & E & Hh' & Hu & _); [lia|].
    rewrite Hret in E by lia. injection E as <-. exists B'. split; [by left|]. rewrite Hu.
    rewrite used_app in Hp. cbn in Hp. rewrite Hl, <- Permutation_middle in Hp. by apply Permutation_cons_inv in Hp.
Qed.

Definition apart (x y : Z * Z) : Prop := x.1 + UNIT * x.2 ≤ y.1 ∨ y.1 + UNIT * y.2 ≤ x.1.

Lemma used_apart B i j x y : ∀ l hi, tile l B hi → i ≠ j → used B !! i = Some x → used B !! j = Some y → apart x y.
Proof.
  revert i j. induction B as [|[[a s] u] B IH]; intros i j l hi Ht Hij Hx Hy; cbn in Hx; [done|].
  destruct Ht as (-> & Hs & Ht).
  assert (∀ k z, used B !! k = Some z → l + UNIT * s ≤ z.1) as Hlow.
  { intros k [z t] Hz. apply list_elem_of_lookup_2 in Hz. apply used_elem in Hz as (B1 & B2 & ->).
    apply tile_app in Ht as (mid & Ht1 & -> & _). by apply tile_le in Ht1. }
  destruct u; [|by eapply IH]. destruct i as [|i], j as [|j]; cbn in Hx, Hy; [done| | |].
  - injection Hx as <-. left. by eapply Hlow.
  - injection Hy as <-. right. by eapply Hlow.
  - eapply IH; [exact Ht| |done|done]. lia.
Qed.


(** C27: Whatever was allocated and freed before, [malloc] returns and so does
    [free] of a block the program holds: the loops round the free list end. *)
Theorem malloc_terminates h live nbytes : uses h live → 0 ≤ nbytes < 2 ^ 31 - 4096 →
  ∃ N, ∀ fuel, (N ≤ fuel)%nat →
    (∃ r h', malloc sbrk base fuel nbytes h = Ok r h') ∧
    ∀ a s, (a, s) ∈ live → ∃ h', free fuel (a + UNIT) h = Ok tt h'.
Proof.
  intros (B & Hus & Hp)%uses_ok Hn. exists (2 * length (frees B) + 4)%nat. intros fuel Hf. split.
  - destruct (malloc_run h B nbytes fuel Hus Hn Hf) as (r & h' & E & _). by exists r, h'.
  - intros a s Hin. rewrite <- Hp in Hin. destruct (used_elem _ _ _ Hin) as (B1 & B2 & ->).
    destruct Hus as [Hh|[_ ?]]; [|by destruct B1].
    destruct (free_ok h B1 a s B2 fuel Hh) as (h' & B' & E & _); [|by exists h'].
    rewrite !frees_app, !length_app in *. cbn in Hf. lia.
Qed.
End proofs.

(** ** A heap of a megabyte *)

Definition ex_base : Z := 0x1000.
Definition ex_lo : Z := 0x2000.
Definition ex_sbrk (n : Z) : M uheap Z :=
  h ← get;
  if brk h + n <=? ex_lo + 0x100000 then put (set_brk (brk h + n) h) ;;; ret (brk h) else ret (-1).
Definition ex_heap : uheap := mkHeap (λ _, (0, 0)) 0 ex_lo.

Lemma ex_sbrk_spec n h : 0 < n → ex_sbrk n h = Ok (-1) h ∨
  (ex_sbrk n h = Ok (brk h) (set_brk (brk h + n) h) ∧ brk h + n - ex_lo ≤ 2 ^ 35).
Proof.
  intros _. unfold ex_sbrk. go. destruct (Z.leb_spec (brk h + n) (ex_lo + 0x100000)); [right|by left].
  split; [done|]. unfold ex_lo in *. lia.
Qed.

Lemma ex_base_ok : 0 < ex_base ∧ ex_base + UNIT ≤ ex_lo.
Proof. by vm_compute. Qed.
Lemma ex_fresh : fresh_heap ex_lo ex_heap.
Proof. by split. Qed.

Lemma malloc_terminates_witness : ∃ N, ∀ fuel, (N ≤ fuel)%nat →
  (∃ r h', malloc ex_sbrk ex_base fuel 100 ex_heap = Ok r h') ∧
  ∀ a s, (a, s) ∈ ([] : list (Z * Z)) → ∃ h', free fuel (a + UNIT) ex_heap = Ok tt h'.
Proof.
  apply (malloc_terminates ex_sbrk ex_base ex_lo ex_base_ok ex_sbrk_spec ex_heap [] 100); [|lia].
  apply uses_start, ex_fresh.
Defined.

(** The program holds 100 bytes at the end of the first 65536. *)
Definition ex_held : uheap := after (malloc ex_sbrk ex_base 8 100) ex_heap.

