(* ===== verification/Sh.v ===== *)
(** * The shell's parser (user/sh.c)

    A command line is a list of bytes [s] without its null, a pointer into it
    an index; [es] is the end.  The parser functions run in the monad with the
    index [*ps] as their state: a call of the shell's [panic] stops with its
    message.  [parseline], [parsepipe], [parseexec] and [parseblock] call each
    other and take fuel.  The node that [parseexec] keeps a pointer to while
    redirections are wrapped around it is filled in at the end ([fill]). *)

From S2P Require Import Prelude Bytes CString.

Definition MAXARGS : nat := 10.
Definition O_RDONLY : Z := 0.
Definition O_WRONLY : Z := 1.
Definition O_CREATE : Z := 0x200.

(** A counted string: its start and its end in the line. *)
Definition span : Type := nat * nat.

(** Commands, over what stands for a string. *)
Inductive cmd_of (W : Type) :=
  | Exec (argv : list W)
  | Redir (c : cmd_of W) (file : W) (mode fd : Z)
  | Pipe (left right : cmd_of W)
  | List (left right : cmd_of W)
  | Back (c : cmd_of W).
Arguments Exec {W}.
Arguments Redir {W}.
Arguments Pipe {W}.
Arguments List {W}.
Arguments Back {W}.
Definition cmd : Type := cmd_of span.

Definition whitespace : list Z := [32; 9; 13; 10; 11].
Definition symbols : list Z := [60; 124; 62; 38; 59; 40; 41].

(** [strchr(set, c) != 0]. *)
Definition in_set (set : list Z) (c : Z) : bool :=
  match strchr (set ++ [0]) c with Some _ => true | None => false end.
Definition blank (c : Z) : bool := in_set whitespace c.
Definition word_char (c : Z) : bool := negb (blank c) && negb (in_set symbols c).

(** The innermost command of a chain of redirections. *)
Fixpoint fill (argv : list span) (c : cmd) : cmd :=
  match c with
  | Exec _ => Exec argv
  | Redir c' f m fd => Redir (fill argv c') f m fd
  | _ => c
  end.

Section parser.
Context (s : list Z).

Definition char_at (i : nat) : Z := nth i s 0.

(** [while(s < es && P( *s)) s++] with at most [n] turns. *)
Fixpoint skip (P : Z → bool) (n i : nat) : nat :=
  match n with
  | O => i
  | S n' => if (i <? length s)%nat && P (char_at i) then skip P n' (S i) else i
  end.
Definition skip_all (P : Z → bool) (i : nat) : nat := skip P (length s - i) i.

(** The token kind, its start and its end. *)
Definition gettoken : M nat (Z * span) :=
  i ← get;
  let q := skip_all blank i in
  let c := char_at q in
  let '(ret_, e) :=
    if c =? 0 then (c, q)
    else if (c =? 124) || (c =? 40) || (c =? 41) || (c =? 59) || (c =? 38) || (c =? 60) then (c, S q)
    else if c =? 62 then if char_at (S q) =? 62 then (43, S (S q)) else (c, S q)
    else (97, skip_all word_char q) in
  put (skip_all blank e) ;;;
  ret (ret_, (q, e)).

Definition peek (toks : list Z) : M nat bool :=
  i ← get;
  let p := skip_all blank i in
  put p ;;;
  ret (negb (char_at p =? 0) && in_set toks (char_at p)).

(** One turn of the loop of [parseredirs]. *)
Definition redir_step (c : cmd) : M nat (cmd + cmd) :=
  b ← peek [60; 62];
  if (b : bool) then
    t ← gettoken;
    f ← gettoken;
    if negb (f.1 =? 97) then panic "missing file for redirection" else
    ret (inl (if t.1 =? 60 then Redir c f.2 O_RDONLY 0
              else if (t.1 =? 62) || (t.1 =? 43) then Redir c f.2 (Z.lor O_WRONLY O_CREATE) 1
              else c))
  else ret (inr c).
Definition parseredirs (fuel : nat) (c : cmd) : M nat cmd := loopM fuel redir_step c.

(** One turn of the loop of [parseexec]: the arguments so far and [ret]. *)
Definition arg_step (fuel : nat) (st : list span * cmd) : M nat (list span * cmd + list span * cmd) :=
  let '(argv, r) := st in
  b ← peek [124; 41; 38; 59];
  if (b : bool) then ret (inr st) else
  t ← gettoken;
  if t.1 =? 0 then ret (inr st) else
  if negb (t.1 =? 97) then panic "syntax" else
  let argv := argv ++ [t.2] in
  if (MAXARGS <=? length argv)%nat then panic "too many args" else
  r ← parseredirs fuel r;
  ret (inl (argv, r)).

Definition back_step (c : cmd) : M nat (cmd + cmd) :=
  b ← peek [38];
  if (b : bool) then gettoken ;;; ret (inl (Back c)) else ret (inr c).

(** The mutually recursive functions, by what is being parsed. *)
Inductive level := Line | PipeLine | Simple | Block.

Fixpoint parse (fuel : nat) (l : level) : M nat cmd :=
  match fuel with
  | O => halt NoFuel
  | S k =>
      match l with
      | Line =>
          c ← parse k PipeLine;
          c ← loopM k back_step c;
          b ← peek [59];
          if (b : bool) then gettoken ;;; r ← parse k Line; ret (List c r) else ret c
      | PipeLine =>
          c ← parse k Simple;
          b ← peek [124];
          if (b : bool) then gettoken ;;; r ← parse k PipeLine; ret (Pipe c r) else ret c
      | Simple =>
          b ← peek [40];
          if (b : bool) then parse k Block else
          r ← parseredirs k (Exec []);
          st ← loopM k (arg_step k) ([], r);
          ret (fill st.1 st.2)
      | Block =>
          b ← peek [40];
          if negb b then panic "parseblock" else
          gettoken ;;;
          c ← parse k Line;
          b ← peek [41];
          if negb b then panic "syntax - missing )" else
          gettoken ;;;
          parseredirs k c
      end
  end.

(** [*e = 0] in the line, whose last byte is its null. *)
Definition cut (e : nat) (buf : list Z) : list Z := <[e := 0]> buf.

Fixpoint nulterminate (c : cmd) (buf : list Z) : list Z :=
  match c with
  | Exec argv => foldl (λ b sp, cut sp.2 b) buf argv
  | Redir c' f _ _ => cut f.2 (nulterminate c' buf)
  | Pipe l r => nulterminate r (nulterminate l buf)
  | List l r => nulterminate r (nulterminate l buf)
  | Back c' => nulterminate c' buf
  end.

(** The command, with the line after its strings were terminated. *)
Definition parsecmd (fuel : nat) : M nat (cmd * list Z) :=
  c ← parse fuel Line;
  peek [] ;;;
  i ← get;
  if (i =? length s)%nat then ret (c, nulterminate c (s ++ [0])) else panic "syntax".
End parser.

(** Membership in a set of characters. *)
Lemma in_set_true set c : Forall (λ c, c ≠ 0) set → c ≠ 0 → in_set set c = bool_decide (c ∈ set).
Proof.
  unfold in_set. intros Hset Hc. induction Hset as [|x set Hx _ IH]; cbn [app strchr].
  { rewrite bool_decide_eq_false_2 by set_solver. by destruct (Z.eqb_spec 0 0). }
  destruct (Z.eqb_spec x 0) as [|_]; [done|]. destruct (Z.eqb_spec x c) as [->|Hne].
  { by rewrite bool_decide_eq_true_2 by set_solver. }
  destruct (strchr (set ++ [0]) c); cbn in *; rewrite IH;
    apply bool_decide_ext; set_solver.
Qed.

Lemma symbols_eqb c : c ≠ 0 → in_set symbols c =
  ((c =? 124) || (c =? 40) || (c =? 41) || (c =? 59) || (c =? 38) || (c =? 60)) || (c =? 62).
Proof.
  intros Hc. rewrite in_set_true by (done || by repeat constructor).
  apply eq_bool_prop_intro. rewrite bool_decide_spec.
  unfold symbols. rewrite !elem_of_cons, elem_of_nil, !orb_True, !Is_true_true, !Z.eqb_eq. tauto.
Qed.

(** ** Positions only go forward *)

Section progress.
Context (s : list Z).
Abbreviation len := (length s).

Lemma skip_spec P n i : (i ≤ len)%nat → (len - i ≤ n)%nat → let j := skip s P n i in
  (i ≤ j ≤ len)%nat ∧ (∀ k, (i ≤ k < j)%nat → P (char_at s k) = true) ∧
  ((j < len)%nat → P (char_at s j) = false).
Proof.
  revert i. induction n as [|n IH]; intros i Hi Hn; cbn [skip].
  { split_and!; [lia|lia|intros; lia|intros; lia]. }
  destruct (Nat.ltb_spec i len) as [Hl|Hl]; cbn [andb]; [|split_and!; [lia|lia|intros; lia|intros; lia]].
  destruct (P (char_at s i)) eqn:E; [|split_and!; [lia|lia|intros; lia|done]].
  destruct (IH (S i)) as (H1 & H2 & H3); [lia|lia|]. split_and!; [lia|lia| |done].
  intros k Hk. destruct (decide (k = i)) as [->|]; [done|]. apply H2. lia.
Qed.

Lemma skip_all_spec P i : (i ≤ len)%nat → let j := skip_all s P i in
  (i ≤ j ≤ len)%nat ∧ (∀ k, (i ≤ k < j)%nat → P (char_at s k) = true) ∧
  ((j < len)%nat → P (char_at s j) = false).
Proof. intros Hi. by apply skip_spec. Qed.

(** A word of the line: characters up to one that is not of a word. *)
Definition word_at (sp : span) : Prop :=
  (sp.1 < sp.2 ≤ len)%nat ∧ (∀ k, (sp.1 ≤ k < sp.2)%nat → word_char (char_at s k) = true) ∧
  ((sp.2 < len)%nat → word_char (char_at s sp.2) = false).

Hypothesis Hs : Forall (λ c, c ≠ 0) s.

Lemma char_zero i : char_at s i = 0 ↔ (len ≤ i)%nat.
Proof.
  unfold char_at. rewrite nth_lookup. split.
  - intros E. destruct (s !! i) as [c|] eqn:El; [|by apply lookup_ge_None in El].
    cbn in E. subst c. by apply (proj1 (Forall_lookup _ _) Hs) in El.
  - intros Hge. by rewrite lookup_ge_None_2.
Qed.

(** The kind and the length of a token by its first character. *)
Definition token_kind (q : nat) : Z :=
  let c := char_at s q in
  if c =? 0 then 0 else if (c =? 62) && (char_at s (S q) =? 62) then 43
  else if in_set symbols c then c else 97.
Definition token_end (q : nat) : nat :=
  let c := char_at s q in
  if c =? 0 then q else if (c =? 62) && (char_at s (S q) =? 62) then S (S q)
  else if in_set symbols c then S q else skip_all s word_char q.

Lemma gettoken_eq i : let q := skip_all s blank i in
  gettoken s i = Ok (token_kind q, (q, token_end q)) (skip_all s blank (token_end q)).
Proof.
  intros q. unfold token_kind, token_end, gettoken, bind, put, get, ret. fold q.
  destruct (Z.eqb_spec (char_at s q) 0) as [->|Hz]; [done|]. rewrite symbols_eqb by done.
  destruct (Z.eqb_spec (char_at s q) 62) as [->|Hn]; cbn [andb].
  - cbn [orb Z.eqb Pos.eqb]. by destruct (_ =? 62).
  - rewrite orb_false_r. by destruct (_ || _).
Qed.

Lemma token_spec q : (q ≤ len)%nat → ((q < len)%nat → blank (char_at s q) = false) →
  (q ≤ token_end q ≤ len)%nat ∧ (token_kind q = 0 ↔ q = len) ∧
  (token_kind q ≠ 0 → (q < token_end q)%nat) ∧ (token_kind q = 97 → word_at (q, token_end q)).
Proof.
  intros Hq Hnb. unfold token_kind, token_end.
  destruct (Z.eqb_spec (char_at s q) 0) as [Hz|Hz].
  { apply char_zero in Hz. split_and!; [lia|lia|split; [lia|done]|done|done]. }
  assert (q < len)%nat as Hlt by (rewrite char_zero in Hz; lia).
  destruct (_ && _) eqn:E2.
  { assert (char_at s (S q) ≠ 0) as Hz' by (destruct (Z.eqb_spec (char_at s (S q)) 62); [lia|by rewrite andb_false_r in E2]).
    rewrite char_zero in Hz'. split_and!; [lia|lia|lia|lia|done]. }
  destruct (in_set symbols _) eqn:Hsym.
  { split_and!; [lia|lia|lia|lia|]. intros E. by rewrite E in Hsym. }
  destruct (skip_all_spec word_char q) as (He & Hw & Hne); [lia|].
  assert (word_char (char_at s q) = true) as Hwq by (unfold word_char; by rewrite Hsym, Hnb).
  assert (q < skip_all s word_char q)%nat as Hqe.
  { destruct (decide (skip_all s word_char q = q)) as [E|]; [|lia].
    rewrite E in Hne. rewrite Hne in Hwq by done. done. }
  split_and!; [lia|lia|lia|done|]. intros _. split_and!; cbn [fst snd]; [lia|lia|done|done].
Qed.

(** A token read forward: nothing is taken only at the end of the line. *)
Lemma gettoken_spec i : (i ≤ len)%nat → ∃ t i', gettoken s i = Ok t i' ∧ (i ≤ i' ≤ len)%nat ∧
  (t.1 ≠ 0 → (i < i')%nat) ∧ (t.1 = 0 ↔ skip_all s blank i = len) ∧ (t.1 = 97 → word_at t.2).
Proof.
  intros Hi. rewrite gettoken_eq. eexists _, _. split; [done|].
  destruct (skip_all_spec blank i Hi) as (Hq & _ & Hnb).
  destruct (token_spec (skip_all s blank i)) as (H1 & H2 & H3 & H4); [lia|done|].
  destruct (skip_all_spec blank (token_end (skip_all s blank i))) as (H5 & _); [lia|].
  cbn [fst snd]. split_and!; [lia|lia| |done|done]. intros Hk. specialize (H3 Hk). lia.
Qed.

Lemma peek_spec toks i : (i ≤ len)%nat → ∃ b i', peek s toks i = Ok b i' ∧ (i ≤ i' ≤ len)%nat ∧
  (b = true → (i' < len)%nat ∧ skip_all s blank i' = i').
Proof.
  intros Hi. destruct (skip_all_spec blank i Hi) as (Hq & _ & Hnb).
  set (p := skip_all s blank i) in *.
  exists (negb (char_at s p =? 0) && in_set toks (char_at s p)), p. split; [reflexivity|]. split; [lia|].
  intros Hb. apply andb_true_iff in Hb as [Hz _].
  apply negb_true_iff, Z.eqb_neq in Hz. rewrite char_zero in Hz.
  split; [lia|]. unfold skip_all. destruct (len - p)%nat eqn:E; [lia|]. cbn [skip].
  by rewrite Hnb, andb_false_r by lia.
Qed.

(** *** The parser is safe and returns

    A parse that starts at a position of the line ends at a later one with a
    command whose strings are words of the line, or panics. *)

Fixpoint spans {W} (c : cmd_of W) : list W :=
  match c with
  | Exec argv => argv
  | Redir c' f _ _ => spans c' ++ [f]
  | Pipe l r | List l r => spans l ++ spans r
  | Back c' => spans c'
  end.

Definition safe {A} (m : M nat A) (i : nat) (Q : A → nat → Prop) : Prop :=
  wp m (λ a i', (i ≤ i' ≤ len)%nat ∧ Q a i') (λ e _, ∃ msg, e = Panic msg) i.

Lemma safe_bind {A B} (m : M nat A) (k : A → M nat B) i Q Q' :
  safe m i Q' → (∀ a i', (i ≤ i' ≤ len)%nat → Q' a i' → safe (k a) i' Q) → safe (bind m k) i Q.
Proof.
  intros Hm Hk. apply wp_bind. eapply wp_mono; [exact Hm| |done]. cbn. intros a i' [Hi Ha].
  eapply wp_mono; [exact (Hk a i' Hi Ha)| |done]. cbn. intros b j [Hj Hb]. split; [lia|done].
Qed.
Lemma safe_ret {A} (a : A) i (Q : A → nat → Prop) : (i ≤ len)%nat → Q a i → safe (ret a) i Q.
Proof. intros. by apply wp_ret. Qed.
Lemma safe_panic {A} msg i (Q : A → nat → Prop) : safe (panic msg) i Q.
Proof. unfold safe, wp. cbn. eauto. Qed.
Lemma safe_mono {A} (m : M nat A) i Q Q' :
  safe m i Q' → (∀ a i', (i ≤ i' ≤ len)%nat → Q' a i' → Q a i') → safe m i Q.
Proof. intros Hm HQ. eapply wp_mono; [exact Hm| |done]. cbn. intros a i' []. auto. Qed.

(** Code after a test of the next character. *)
Lemma safe_peek {A} toks (k : bool → M nat A) i Q : (i ≤ len)%nat →
  (∀ i', (i ≤ i' ≤ len)%nat → safe (k false) i' Q) →
  (∀ i', (i ≤ i' < len)%nat → skip_all s blank i' = i' → safe (k true) i' Q) →
  safe (bind (peek s toks) k) i Q.
Proof.
  intros Hi Hf Ht. destruct (peek_spec toks i Hi) as (b & i' & Hp & Hi' & Hb).
  apply safe_bind with (λ b' j, b' = b ∧ j = i').
  { apply (wp_ok _ b _ i'); [done|]. split; [lia|done]. }
  intros ? ? _ [-> ->]. destruct b; [|by apply Hf]. destruct Hb as [? ?]; [done|]. apply Ht; [lia|done].
Qed.

(** Code after a token: it is not empty where the position is of a character. *)
Lemma safe_token {A} (k : Z * span → M nat A) i Q : (i ≤ len)%nat →
  (∀ t i', (i ≤ i' ≤ len)%nat → (t.1 = 0 ∨ (i < i')%nat) →
     ((i < len)%nat ∧ skip_all s blank i = i → (i < i')%nat) →
     (t.1 = 97 → word_at t.2) → safe (k t) i' Q) →
  safe (bind (gettoken s) k) i Q.
Proof.
  intros Hi Hk. destruct (gettoken_spec i Hi) as (t & i' & Hg & Hi' & Ht & Hz & Hw).
  apply safe_bind with (λ t' j, t' = t ∧ j = i').
  { apply (wp_ok _ t _ i'); [done|]. split; [lia|done]. }
  intros ? ? _ [-> ->]. apply Hk; [lia| | |done].
  - destruct (decide (t.1 = 0)); [by left|right; auto].
  - intros [H1 H2]. apply Ht. rewrite Hz, H2. lia.
Qed.

Lemma safe_loop {X B} (body : X → M nat (X + B)) (I : X → Prop) (Q : B → Prop) fuel i x :
  (∀ x j, (i ≤ j ≤ len)%nat → I x →
     safe (body x) j (λ r i', match r with inl x' => I x' ∧ (j < i')%nat | inr b => Q b end)) →
  (i ≤ len)%nat → I x → (len - i < fuel)%nat → safe (loopM fuel body x) i (λ b _, Q b).
Proof.
  intros Hb. cut (∀ j x, (i ≤ j ≤ len)%nat → I x → (len - j < fuel)%nat →
    safe (loopM fuel body x) j (λ b _, Q b)); [intros H; intros; by apply H|].
  induction fuel as [|n IH]; intros j y Hj Hy Hf; [lia|].
  cbn [loopM]. eapply safe_bind; [by apply Hb|]. intros [x'|b] i' Hi' HQ.
  - destruct HQ as [Hx' Hlt]. apply IH; [lia|done|lia].
  - apply safe_ret; [lia|done].
Qed.

Abbreviation words := (λ c, Forall word_at (spans c)).

Lemma fill_words argv c : Forall word_at argv → words c → words (fill argv c).
Proof.
  intros Ha. induction c; cbn; [done| |done|done|done].
  rewrite !Forall_app. naive_solver.
Qed.

Lemma parseredirs_safe fuel c i : (i ≤ len)%nat → words c → (len - i < fuel)%nat →
  safe (parseredirs s fuel c) i (λ c' _, words c').
Proof.
  intros Hi Hc Hf. apply (safe_loop _ words words); [|done|done|done].
  clear c Hc. intros c j Hj Hc. apply safe_peek; [lia| |].
  { intros i' Hi'. apply safe_ret; [lia|done]. }
  intros i1 Hi1 Hs1. apply safe_token; [lia|]. intros t i2 Hi2 _ Hlt _.
  apply safe_token; [lia|]. intros f i3 Hi3 _ _ Hw.
  destruct (Z.eqb_spec f.1 97) as [Hk|]; [|apply safe_panic]. cbn [negb].
  apply safe_ret; [lia|]. split; [|lia].
  repeat case_match; cbn; rewrite ?Forall_app; auto.
Qed.

Lemma back_safe fuel c i : (i ≤ len)%nat → words c → (len - i < fuel)%nat →
  safe (loopM fuel (back_step s) c) i (λ c' _, words c').
Proof.
  intros Hi Hc Hf. apply (safe_loop _ words words); [|done|done|done].
  clear c Hc. intros c j Hj Hc. apply safe_peek; [lia| |].
  { intros i' Hi'. apply safe_ret; [lia|done]. }
  intros i1 Hi1 Hs1. apply safe_token; [lia|]. intros t i2 Hi2 _ Hlt _.
  apply safe_ret; [lia|]. split; [done|]. lia.
Qed.

Lemma args_safe fuel st i : (i ≤ len)%nat → Forall word_at st.1 ∧ words st.2 → (len - i < fuel)%nat →
  safe (loopM fuel (arg_step s fuel) st) i (λ st' _, Forall word_at st'.1 ∧ words st'.2).
Proof.
  set (I := λ st : list span * cmd, Forall word_at st.1 ∧ words st.2).
  intros Hi Hst Hf. apply (safe_loop _ I I); [|done|done|done].
  clear st Hst. intros [argv r] j Hj [Ha Hr]. apply safe_peek; [lia| |].
  2: { intros i' Hi' _. apply safe_ret; [lia|done]. }
  intros i1 Hi1. apply safe_token; [lia|]. intros t i2 Hi2 Hz _ Hw.
  destruct (Z.eqb_spec t.1 0) as [|Hnz]; [apply safe_ret; [lia|done]|].
  destruct (Z.eqb_spec t.1 97) as [Hk|]; [|apply safe_panic]. cbn [negb]. cbv zeta.
  destruct (_ <=? _)%nat; [apply safe_panic|].
  eapply safe_bind; [apply parseredirs_safe; [lia|exact Hr|lia]|].
  intros r' i3 Hi3 Hr'. apply safe_ret; [lia|]. split; [|lia].
  split; [|done]. apply Forall_app. auto.
Qed.

(** With enough fuel every level of the grammar returns or panics. *)
Definition rank (l : level) : nat :=
  match l with Line => 4 | PipeLine => 3 | Simple => 2 | Block => 1 end.

Lemma parse_safe fuel l i : (i ≤ len)%nat → (4 * (len - i) + rank l ≤ fuel)%nat →
  safe (parse s fuel l) i (λ c _, words c).
Proof.
  revert l i. induction fuel as [|k IH]; intros l i Hi Hf; [destruct l; cbn in Hf; lia|].
  assert (∀ l' j, (i ≤ j ≤ len)%nat → (4 * (len - j) + rank l' ≤ k)%nat →
    safe (parse s k l') j (λ c _, words c)) as IH' by (intros; apply IH; lia).
  destruct l; cbn [rank] in Hf; cbn [parse].
  - eapply safe_bind; [apply IH'; cbn; lia|]. intros c i1 Hi1 Hc.
    eapply safe_bind; [apply back_safe; [lia|exact Hc|lia]|]. intros c' i2 Hi2 Hc'.
    apply safe_peek; [lia|intros; apply safe_ret; [lia|done]|]. intros i3 Hi3 Hs3.
    apply safe_token; [lia|]. intros t i4 Hi4 _ Hlt _.
    eapply safe_bind; [apply IH'; cbn; lia|]. intros r i5 Hi5 Hr. apply safe_ret; [lia|].
    by apply Forall_app.
  - eapply safe_bind; [apply IH'; cbn; lia|]. intros c i1 Hi1 Hc.
    apply safe_peek; [lia|intros; apply safe_ret; [lia|done]|]. intros i3 Hi3 Hs3.
    apply safe_token; [lia|]. intros t i4 Hi4 _ Hlt _.
    eapply safe_bind; [apply IH'; cbn; lia|]. intros r i5 Hi5 Hr. apply safe_ret; [lia|].
    by apply Forall_app.
  - apply safe_peek; [lia| |intros; apply IH'; cbn; lia]. intros i1 Hi1.
    eapply safe_bind; [apply parseredirs_safe; [lia|by apply Forall_nil|lia]|]. intros r i2 Hi2 Hr.
    eapply safe_bind; [apply args_safe; [lia|by split|lia]|]. intros [argv r'] i3 Hi3 [Ha Hr'].
    apply safe_ret; [lia|]. by apply fill_words.
  - apply safe_peek; [lia|intros; apply safe_panic|]. intros i1 Hi1 Hs1. cbn [negb].
    apply safe_token; [lia|]. intros t i2 Hi2 _ Hlt _.
    eapply safe_bind; [apply IH'; cbn; lia|]. intros c i3 Hi3 Hc.
    apply safe_peek; [lia|intros; apply safe_panic|]. intros i4 Hi4 Hs4. cbn [negb].
    apply safe_token; [lia|]. intros t' i5 Hi5 _ _ _. apply parseredirs_safe; [lia|done|lia].
Qed.

(** *** Terminated strings *)

Lemma cut_lookup_ne e buf k : k ≠ e → cut e buf !! k = buf !! k.
Proof. intros. unfold cut. by rewrite list_lookup_insert_ne. Qed.

Lemma cut_length e buf : length (cut e buf) = length buf.
Proof. apply length_insert. Qed.

Lemma nulterminate_cuts c buf : nulterminate c buf = foldl (λ b sp, cut sp.2 b) buf (spans c).
Proof.
  revert buf. induction c as [argv|c IHc f m fd|l IHl r IHr|l IHl r IHr|c IHc]; intros buf; cbn;
    rewrite ?foldl_app, ?IHc, ?IHl, ?IHr; done.
Qed.

Lemma cuts_lookup l buf k : Forall (λ sp : span, (sp.2 < length buf)%nat) l →
  foldl (λ b sp, cut sp.2 b) buf l !! k = if decide (k ∈ l.*2) then Some 0 else buf !! k.
Proof.
  revert buf. induction l as [|sp l IH]; intros buf Hl; cbn; [done|].
  apply Forall_cons in Hl as [Hsp Hl]. rewrite IH by (by rewrite cut_length).
  destruct (decide (k ∈ l.*2)); [by rewrite decide_True by set_solver|].
  destruct (decide (k = sp.2)) as [->|Hne].
  - rewrite decide_True by set_solver. by apply list_lookup_insert_eq.
  - rewrite decide_False by set_solver. by apply cut_lookup_ne.
Qed.

(** Reading a string up to its null. *)
Lemma cstr_upto l (n : nat) : l !! n = Some 0 → (∀ k, (k < n)%nat → l !! k ≠ Some 0) →
  cstr l = take n l.
Proof.
  revert l. induction n as [|n IH]; intros [|x l] Hn Hk; try done; cbn in *.
  { by simplify_eq. }
  destruct (Z.eqb_spec x 0) as [->|]; [by destruct (Hk 0%nat); [lia|]|].
  f_equal. apply IH; [done|]. intros k Hlt. apply (Hk (S k)). lia.
Qed.

(** The bytes of a span of the line. *)
Definition slice (sp : span) : list Z := take (sp.2 - sp.1) (drop sp.1 s).

Lemma nulterminate_strings c sp : words c → sp ∈ spans c →
  cstr (drop sp.1 (nulterminate c (s ++ [0]))) = slice sp.
Proof.
  intros Hc Hin. rewrite nulterminate_cuts.
  assert (Forall (λ sp : span, (sp.2 < length (s ++ [0%Z]))%nat) (spans c)) as Hb.
  { rewrite length_app. cbn. eapply Forall_impl; [exact Hc|]. intros x (H & _). lia. }
  destruct (proj1 (Forall_forall _ _) Hc sp Hin) as (Hsp & Hw & _).
  assert (∀ k, (sp.1 ≤ k < sp.2)%nat → k ∉ (spans c).*2) as Hno.
  { intros k Hk ((q & e) & -> & Hin')%list_elem_of_fmap. cbn in Hk.
    destruct (proj1 (Forall_forall _ _) Hc _ Hin') as (Hsp' & _ & Hend). cbn [fst snd] in *.
    specialize (Hw e Hk). rewrite Hend in Hw by lia. done. }
  assert (∀ k, (sp.1 ≤ k < sp.2)%nat →
    foldl (λ b sp, cut sp.2 b) (s ++ [0]) (spans c) !! k = s !! k) as Hsame.
  { intros k Hk. rewrite cuts_lookup, decide_False by auto. apply lookup_app_l. lia. }
  rewrite (cstr_upto _ (sp.2 - sp.1)).
  - apply list_eq. intros k. unfold slice. destruct (decide (k < sp.2 - sp.1)%nat).
    + rewrite !lookup_take_lt, !lookup_drop, Hsame by lia. done.
    + rewrite !lookup_take_ge by lia. done.
  - rewrite lookup_drop, cuts_lookup, decide_True; [done| |done].
    replace (sp.1 + (sp.2 - sp.1))%nat with sp.2 by lia. by apply list_elem_of_fmap_2.
  - intros k Hk. rewrite lookup_drop, Hsame by lia. intros E.
    by apply (proj1 (Forall_lookup _ _) Hs) in E.
Qed.
End progress.

(** Whatever the line, the parser returns or gives up with a message; what it
    returns are words of the line. *)
Lemma parsecmd_safe s fuel : Forall (λ c, c ≠ 0) s → (4 * length s + 4 ≤ fuel)%nat →
  safe s (parsecmd s fuel) 0 (λ r _, Forall (word_at s) (spans r.1) ∧
    r.2 = nulterminate r.1 (s ++ [0])).
Proof.
  intros Hs Hf. unfold parsecmd. eapply safe_bind; [apply parse_safe; [done|lia|cbn; lia]|].
  intros c i Hi Hc. destruct (peek_spec s Hs [] i) as (b & j & Hp & Hj & _); [lia|].
  eapply wp_bind, wp_ok; [exact Hp|]. unfold wp, bind, get. cbn.
  destruct (_ =? _)%nat; cbn; [split; [lia|done]|eauto].
Qed.
