(* ===== verification/ShThms.v ===== *)
(** * What the shell reads (user/sh.c)

    The parser always answers, the strings of what it returns are the words of
    the line, and it reads back every command it can be given: [layout] writes
    a command down as tokens, with parentheses where the grammar wants them,
    [render] writes tokens as text, and [parsecmd] on the text returns the
    command. *)

From S2P Require Import Prelude Bytes CString Sh.

(** ** Commands as tokens *)

Ltac subsyms := unfold symbols; set_solver.

Inductive token (W : Type) := Sym (c : Z) | Word (w : W).
Arguments Sym {W}.
Arguments Word {W}.

Definition paren {W} (l : list (token W)) : list (token W) := Sym 40 :: l ++ [Sym 41].

(** How a command is written where the grammar wants a simple command, a
    pipeline, a command that [&] may follow, or a whole line. *)
Record layout_of (W : Type) :=
  { as_simple : list (token W); as_pipe : list (token W); as_back : list (token W); as_line : list (token W) }.
Arguments as_simple {W}.
Arguments as_pipe {W}.
Arguments as_back {W}.
Arguments as_line {W}.

Definition redir_sym (fd : Z) : Z := if fd =? 0 then 60 else 62.

Fixpoint layout {W} (c : cmd_of W) : layout_of W :=
  match c with
  | Exec argv => let e := Word <$> argv in {| as_simple := e; as_pipe := e; as_back := e; as_line := e |}
  | Redir c' f _ fd =>
      let e := as_simple (layout c') ++ [Sym (redir_sym fd); Word f] in
      {| as_simple := e; as_pipe := e; as_back := e; as_line := e |}
  | Pipe l r =>
      let p := as_simple (layout l) ++ Sym 124 :: as_pipe (layout r) in
      {| as_simple := paren p; as_pipe := p; as_back := p; as_line := p |}
  | Back c' =>
      let b := as_back (layout c') ++ [Sym 38] in
      {| as_simple := paren b; as_pipe := paren b; as_back := b; as_line := b |}
  | List l r =>
      let n := as_back (layout l) ++ Sym 59 :: as_line (layout r) in
      {| as_simple := paren n; as_pipe := paren n; as_back := paren n; as_line := n |}
  end.

(** The commands a line can spell. *)
Fixpoint spelled {W} (c : cmd_of W) : Prop :=
  match c with
  | Exec argv => (length argv < MAXARGS)%nat
  | Redir c' _ mode fd =>
      spelled c' ∧ ((mode, fd) = (O_RDONLY, 0) ∨ (mode, fd) = (Z.lor O_WRONLY O_CREATE, 1))
  | Pipe l r | List l r => spelled l ∧ spelled r
  | Back c' => spelled c'
  end.

(** ** The parser on a stream of tokens *)

Section stream.
Context (s : list Z) (Hs : Forall (λ c, c ≠ 0) s).

Definition token_of (t : Z * span) : token span := if t.1 =? 97 then Word t.2 else Sym t.1.

(** The tokens from a position on, of which none is [>>]. *)
Inductive stream : nat → list (token span) → Prop :=
  | stream_end i : (i ≤ length s)%nat → skip_all s blank i = length s → stream i []
  | stream_token i t i' l : (i ≤ length s)%nat → gettoken s i = Ok t i' → t.1 ≠ 0 → t.1 ≠ 43 →
      stream i' l → stream i (token_of t :: l).

(** Whether the next token is one of some symbols. *)
Definition next_in (toks : list Z) (l : list (token span)) : bool :=
  match l with Sym c :: _ => bool_decide (c ∈ toks) | _ => false end.

Lemma skip_all_idem i : (i ≤ length s)%nat →
  skip_all s blank (skip_all s blank i) = skip_all s blank i.
Proof.
  intros Hi. destruct (skip_all_spec s blank i Hi) as (Hq & _ & Hnb).
  set (p := skip_all s blank i) in *. unfold skip_all.
  destruct (length s - p)%nat eqn:E; [done|]. cbn [skip]. by rewrite Hnb, andb_false_r by lia.
Qed.

Lemma peek_run toks i : let p := skip_all s blank i in
  peek s toks i = Ok (negb (char_at s p =? 0) && in_set toks (char_at s p)) p.
Proof. done. Qed.

Lemma kind_char toks q : toks ⊆ symbols → token_kind s q ≠ 0 → token_kind s q ≠ 43 →
  negb (char_at s q =? 0) && in_set toks (char_at s q) =
  next_in toks [token_of (token_kind s q, (q, token_end s q))].
Proof.
  intros Hsub. unfold token_kind. destruct (Z.eqb_spec (char_at s q) 0) as [|Hz]; [done|].
  destruct (_ && _); [done|]. intros _ _. cbn [negb andb].
  assert (Forall (λ c, c ≠ 0) toks) as Ht.
  { apply Forall_forall. intros x Hx%Hsub. unfold symbols in Hx.
    rewrite !elem_of_cons, elem_of_nil in Hx. lia. }
  rewrite in_set_true by done. destruct (in_set symbols (char_at s q)) eqn:Hsym.
  - unfold token_of. cbn [fst snd]. destruct (Z.eqb_spec (char_at s q) 97) as [E|]; [|done].
    by rewrite E in Hsym.
  - cbn. rewrite in_set_true in Hsym by (done || by repeat constructor).
    apply bool_decide_eq_false in Hsym. apply bool_decide_eq_false. auto.
Qed.

Lemma peek_stream toks i l : stream i l → toks ⊆ symbols →
  ∃ i', peek s toks i = Ok (next_in toks l) i' ∧ stream i' l.
Proof.
  intros Hst Hsub. rewrite peek_run. eexists. split; [f_equal|].
  - destruct Hst as [i Hi He|i t i' l Hi Hg Hz H43 Hl].
    + rewrite He, (proj2 (char_zero s Hs (length s))); done.
    + rewrite gettoken_eq in Hg. injection Hg as <- <-. by apply kind_char.
  - destruct Hst as [i Hi He|i t i' l Hi Hg Hz H43 Hl];
      pose proof (skip_all_spec s blank i Hi) as (Hq & _).
    + apply stream_end; [lia|]. rewrite skip_all_idem by done. done.
    + eapply stream_token; [lia| |done|done|done].
      rewrite gettoken_eq in Hg |- *. by rewrite skip_all_idem.
Qed.

Lemma gettoken_stream i t l : stream i (t :: l) →
  ∃ t' i', gettoken s i = Ok t' i' ∧ token_of t' = t ∧ t'.1 ≠ 0 ∧ stream i' l.
Proof. inversion 1; subst; eauto 10. Qed.

Lemma gettoken_stream_end i : stream i [] → ∃ sp i', gettoken s i = Ok (0, sp) i' ∧ stream i' [].
Proof.
  inversion 1 as [? Hi He|]; subst. rewrite gettoken_eq, He.
  unfold token_kind, token_end. rewrite (proj2 (char_zero s Hs (length s))) by done.
  cbn. eexists _, _. split; [done|].
  assert (skip_all s blank (length s) = length s) as E.
  { unfold skip_all. by rewrite Nat.sub_diag. }
  rewrite E. apply stream_end; done.
Qed.

(** Tests and tokens, in a run. *)
Lemma peek_then {A} toks (k : bool → M nat A) i l : stream i l → toks ⊆ symbols →
  ∃ i', bind (peek s toks) k i = k (next_in toks l) i' ∧ stream i' l.
Proof.
  intros Hst Hsub. destruct (peek_stream toks i l Hst Hsub) as (i' & Hp & Hst').
  exists i'. split; [|done]. unfold bind at 1. by rewrite Hp.
Qed.
Lemma sym_then {A} (k : Z * span → M nat A) i c l : stream i (Sym c :: l) →
  ∃ sp i', bind (gettoken s) k i = k (c, sp) i' ∧ stream i' l.
Proof.
  intros (t & i' & Hg & Ht & _ & Hst)%gettoken_stream. exists t.2, i'. split; [|done].
  unfold bind at 1. rewrite Hg. unfold token_of in Ht.
  destruct (_ =? 97); [done|]. injection Ht as <-. by destruct t.
Qed.
Lemma word_then {A} (k : Z * span → M nat A) i w l : stream i (Word w :: l) →
  ∃ i', bind (gettoken s) k i = k (97, w) i' ∧ stream i' l.
Proof.
  intros (t & i' & Hg & Ht & _ & Hst)%gettoken_stream. exists i'. split; [|done].
  unfold bind at 1. rewrite Hg. unfold token_of in Ht.
  destruct (Z.eqb_spec t.1 97) as [E|]; [|done]. injection Ht as <-. destruct t. cbn in *. by subst.
Qed.

(** [m] reads [a] and leaves [rest]. *)
Definition reads {A} (m : M nat A) (i : nat) (a : A) (rest : list (token span)) : Prop :=
  ∃ i', m i = Ok a i' ∧ stream i' rest.

Lemma words_bind {A B} (m : M nat A) (k : A → M nat B) i a l b rest :
  reads m i a l → (∀ i', stream i' l → reads (k a) i' b rest) → reads (bind m k) i b rest.
Proof.
  intros (i' & Hm & Hst) Hk. destruct (Hk i' Hst) as (j & Hj & Hst'). exists j. split; [|done].
  unfold bind. by rewrite Hm.
Qed.
Lemma reads_ret {A} (a : A) i rest : stream i rest → reads (ret a) i a rest.
Proof. intros. by exists i. Qed.
Lemma reads_peek {A} toks (k : bool → M nat A) i l a rest : stream i l → toks ⊆ symbols →
  (∀ i', stream i' l → reads (k (next_in toks l)) i' a rest) → reads (bind (peek s toks) k) i a rest.
Proof.
  intros Hst Hsub Hk. destruct (peek_then toks k i l Hst Hsub) as (i' & Hp & Hst').
  unfold reads. rewrite Hp. by apply Hk.
Qed.
Lemma reads_sym {A} (k : Z * span → M nat A) i c l a rest : stream i (Sym c :: l) →
  (∀ sp i', stream i' l → reads (k (c, sp)) i' a rest) → reads (bind (gettoken s) k) i a rest.
Proof.
  intros Hst Hk. destruct (sym_then k i c l Hst) as (sp & i' & Hp & Hst').
  unfold reads. rewrite Hp. by apply Hk.
Qed.
Lemma reads_word {A} (k : Z * span → M nat A) i w l a rest : stream i (Word w :: l) →
  (∀ i', stream i' l → reads (k (97, w)) i' a rest) → reads (bind (gettoken s) k) i a rest.
Proof.
  intros Hst Hk. destruct (word_then k i w l Hst) as (i' & Hp & Hst').
  unfold reads. rewrite Hp. by apply Hk.
Qed.

(** What may follow: the end, or one of some symbols. *)
Definition ends (toks : list Z) (rest : list (token span)) : Prop :=
  rest = [] ∨ next_in toks rest = true.

Lemma ends_not toks toks' rest : ends toks rest → bool_decide (Forall (λ c, c ∉ toks') toks) = true →
  next_in toks' rest = false.
Proof.
  intros [->|Hn] Hd%bool_decide_eq_true; [done|]. destruct rest as [|[c|w] rest]; [done| |done]. cbn in *.
  apply bool_decide_eq_true in Hn. apply bool_decide_eq_false.
  exact (proj1 (Forall_forall _ _) Hd c Hn).
Qed.
Lemma ends_more toks toks' rest : ends toks rest → toks ⊆ toks' → ends toks' rest.
Proof.
  intros [->|Hn] Hd; [by left|]. right. destruct rest as [|[c|w] rest]; [done| |done]. cbn in *.
  apply bool_decide_eq_true in Hn. apply bool_decide_eq_true. auto.
Qed.

(** *** Redirections *)

Definition redir_to (c : cmd) (r : span * bool) : cmd :=
  if r.2 then Redir c r.1 (Z.lor O_WRONLY O_CREATE) 1 else Redir c r.1 O_RDONLY 0.
Definition redir_toks (R : list (span * bool)) : list (token span) :=
  R ≫= λ r : span * bool, [Sym (if r.2 then 62 else 60); Word r.1].
Abbreviation redirs := (foldl redir_to).

Lemma redirs_read R c i rest fuel : stream i (redir_toks R ++ rest) → next_in [60; 62] rest = false →
  (length R < fuel)%nat → reads (parseredirs s fuel c) i (redirs c R) rest.
Proof.
  revert c i fuel. induction R as [|[f b] R IH]; intros c i [|fuel] Hst Hn Hf; cbn in Hf; try lia;
    unfold parseredirs; cbn [loopM].
  - apply words_bind with (inr c) rest; [|intros i' Hst'; apply reads_ret, Hst'].
    eapply reads_peek; [exact Hst|subsyms|]. intros i' Hst'. cbn [redir_toks mbind list_bind app] in *.
    rewrite Hn. by apply reads_ret.
  - apply words_bind with (inl (redir_to c (f, b))) (redir_toks R ++ rest);
      [|intros i' Hst'; apply IH; [exact Hst'|done|lia]].
    eapply reads_peek; [exact Hst|subsyms|]. intros i1 Hst1.
    cbn [redir_toks mbind list_bind app fst snd] in Hst1 |- *.
    replace (next_in [60; 62] _) with true by (by destruct b).
    eapply reads_sym; [exact Hst1|]. intros sp i2 Hst2.
    eapply reads_word; [exact Hst2|]. intros i3 Hst3. cbn [fst snd Z.eqb Pos.eqb negb].
    destruct b; by apply reads_ret.
Qed.

(** *** Simple commands *)

Lemma fill_redirs argv R : fill argv (redirs (Exec []) R) = redirs (Exec argv) R.
Proof.
  induction R as [|[f b] R IH] using rev_ind; [done|].
  rewrite !foldl_app. unfold redir_to at 1 3. cbn. destruct b; cbn; by rewrite IH.
Qed.

Lemma args_done k st i rest : stream i rest → ends [124; 41; 38; 59] rest →
  reads (arg_step s k st) i (inr st) rest.
Proof.
  intros Hst He. destruct st as [argv r]. unfold arg_step.
  eapply reads_peek; [exact Hst|subsyms|]. intros i' Hst'. destruct He as [->|He].
  - cbn. destruct (gettoken_stream_end i' Hst') as (sp & j & Hg & Hst''). exists j.
    unfold bind. by rewrite Hg.
  - rewrite He. by apply reads_ret.
Qed.

Lemma arg_read w R argv r i l k : stream i (Word w :: redir_toks R ++ l) → next_in [60; 62] l = false →
  (S (length argv) < MAXARGS)%nat → (length R < k)%nat →
  reads (arg_step s k (argv, r)) i (inl (argv ++ [w], redirs r R)) l.
Proof.
  intros Hst Hl Hmax Hk. unfold arg_step.
  eapply reads_peek; [exact Hst|subsyms|]. intros i1 Hst1. cbn [next_in].
  eapply reads_word; [exact Hst1|]. intros i2 Hst2. cbn [fst snd Z.eqb Pos.eqb negb]. cbv zeta.
  replace (MAXARGS <=? length (argv ++ [w]))%nat with false
    by (symmetry; apply Nat.leb_gt; rewrite length_app; cbn; lia).
  eapply words_bind; [by apply redirs_read|]. intros i3 Hst3. by apply reads_ret.
Qed.

Lemma args_read ws R argv i rest n k :
  stream i ((Word <$> ws) ++ redir_toks R ++ rest) → ends [124; 41; 38; 59] rest →
  (ws = [] → R = []) → (length argv + length ws < MAXARGS)%nat →
  (length ws < n)%nat → (length R < k)%nat →
  reads (loopM n (arg_step s k) (argv, Exec [])) i (argv ++ ws, redirs (Exec []) R) rest.
Proof.
  revert argv i n. induction ws as [|w ws IH];
    intros argv i [|n] Hst He HR Hmax Hn Hk; cbn in Hn, Hmax; try lia; cbn [loopM].
  { rewrite HR by done. rewrite HR in Hst by done. rewrite app_nil_r.
    eapply words_bind; [apply args_done; [exact Hst|done]|]. intros i' Hst'. by apply reads_ret. }
  replace (argv ++ w :: ws) with ((argv ++ [w]) ++ ws) by (by rewrite <- app_assoc).
  destruct ws as [|w' ws].
  - eapply words_bind; [apply arg_read; [exact Hst|by apply (ends_not _ _ _ He)|lia|done]|].
    intros i' Hst'. destruct n as [|n]; [cbn in Hn; lia|]. cbn [loopM]. rewrite app_nil_r.
    eapply words_bind; [by apply args_done|]. intros. by apply reads_ret.
  - eapply words_bind; [apply (arg_read w []); [exact Hst|done|lia|cbn; lia]|]. intros i' Hst'.
    apply IH; [done|done|done|rewrite length_app; cbn in *; lia|lia|done].
Qed.

Abbreviation simple_ends := (ends [124; 41; 38; 59]).
Abbreviation pipe_ends := (ends [41; 38; 59]).
Abbreviation back_ends := (ends [41; 59]).
Abbreviation line_ends := (ends [41]).

(** [l] is a way to write [c] at each level. *)
Definition reads_simple (c : cmd) (l : list (token span)) : Prop := ∀ R rest i k,
  stream i (l ++ redir_toks R ++ rest) → simple_ends rest →
  (4 * (length l + length (redir_toks R)) + 2 ≤ k)%nat →
  reads (parse s k Simple) i (redirs c R) rest.
Definition reads_pipe (c : cmd) (l : list (token span)) : Prop := ∀ rest i k,
  stream i (l ++ rest) → pipe_ends rest → (4 * length l + 3 ≤ k)%nat →
  reads (parse s k PipeLine) i c rest.
Definition reads_back (c : cmd) (a : nat) (l : list (token span)) : Prop := ∀ rest i k n,
  stream i (l ++ rest) → pipe_ends rest → (4 * length l + 3 ≤ k)%nat →
  ∃ i', bind (parse s k PipeLine) (loopM (a + n) (back_step s)) i = loopM n (back_step s) c i' ∧
    stream i' rest.
Definition reads_line (c : cmd) (l : list (token span)) : Prop := ∀ rest i k,
  stream i (l ++ rest) → line_ends rest → (4 * length l + 4 ≤ k)%nat →
  reads (parse s k Line) i c rest.

Lemma redir_toks_length R : length (redir_toks R) = (2 * length R)%nat.
Proof. induction R as [|r R IH]; [done|]. cbn. unfold redir_toks in IH. lia. Qed.

Lemma exec_simple argv : (length argv < MAXARGS)%nat → reads_simple (Exec argv) (Word <$> argv).
Proof.
  intros Hmax R rest i k Hst He Hk. rewrite length_fmap, redir_toks_length in Hk.
  destruct k as [|k]; [lia|]. cbn [parse].
  eapply reads_peek; [exact Hst|subsyms|]. intros i1 Hst1.
  assert (next_in [60; 62] rest = false) as Hnr by (apply (ends_not _ _ _ He); reflexivity).
  replace (next_in [40] _) with false.
  2: { destruct argv as [|w argv]; [|done]. destruct R as [|[f b] R]; [|by destruct b].
       symmetry. by apply (ends_not _ _ _ He). }
  rewrite <- fill_redirs. destruct (decide (argv = [])) as [->|Hne].
  - eapply words_bind; [apply (redirs_read R); [exact Hst1|done|lia]|]. intros i2 Hst2.
    destruct k as [|k]; [lia|]. cbn [loopM].
    eapply words_bind; [eapply words_bind; [by apply args_done|]; intros; by apply reads_ret|].
    intros i3 Hst3. by apply reads_ret.
  - eapply words_bind; [apply (redirs_read []); [exact Hst1|by destruct argv|cbn; lia]|]. intros i2 Hst2.
    eapply words_bind; [apply (args_read argv R []); [exact Hst2|done|done|cbn; lia|lia|lia]|].
    intros i3 Hst3. by apply reads_ret.
Qed.

(** *** From one level of the grammar to the next *)

Lemma simple_pipe c l : reads_simple c l → reads_pipe c l.
Proof.
  intros Hc rest i [|k] Hst He Hk; [lia|]. cbn [parse].
  eapply words_bind; [apply (Hc [] rest); [exact Hst| |cbn; lia]|].
  { eapply ends_more; [exact He|set_solver]. }
  intros i1 Hst1. eapply reads_peek; [exact Hst1|subsyms|]. intros i2 Hst2.
  replace (next_in [124] rest) with false by (symmetry; by apply (ends_not _ _ _ He)).
  by apply reads_ret.
Qed.

Lemma pipe_pipe c1 c2 l1 l2 : reads_simple c1 l1 → reads_pipe c2 l2 →
  reads_pipe (Pipe c1 c2) (l1 ++ Sym 124 :: l2).
Proof.
  intros H1 H2 rest i [|k] Hst He Hk; [lia|]. rewrite length_app in Hk. cbn [length] in Hk. cbn [parse].
  rewrite <- app_assoc in Hst.
  eapply words_bind; [apply (H1 [] (Sym 124 :: l2 ++ rest)); [exact Hst|by right|cbn; lia]|].
  intros i1 Hst1. eapply reads_peek; [exact Hst1|subsyms|]. intros i2 Hst2. cbn [next_in].
  eapply reads_sym; [exact Hst2|]. intros sp i3 Hst3.
  eapply words_bind; [apply H2; [exact Hst3|done|lia]|]. intros. by apply reads_ret.
Qed.

Lemma pipe_back c l : reads_pipe c l → reads_back c 0 l.
Proof.
  intros Hc rest i k n Hst He Hk. destruct (Hc rest i k Hst He Hk) as (i' & Hp & Hst').
  exists i'. split; [|done]. unfold bind. by rewrite Hp.
Qed.

Lemma back_back c a l : reads_back c a l → reads_back (Back c) (S a) (l ++ [Sym 38]).
Proof.
  intros Hc rest i k n Hst He Hk. rewrite length_app in Hk. cbn [length] in Hk.
  rewrite <- app_assoc in Hst.
  destruct (Hc (Sym 38 :: rest) i k (S n) Hst) as (i1 & H1 & Hst1); [by right|lia|].
  assert (reads (back_step s c) i1 (inl (Back c)) rest) as (i2 & H2 & Hst2).
  { unfold back_step. eapply reads_peek; [exact Hst1|subsyms|]. intros i2 Hst2. cbn [next_in].
    eapply reads_sym; [exact Hst2|]. intros. by apply reads_ret. }
  exists i2. split; [|done]. replace (S a + n)%nat with (a + S n)%nat by lia. rewrite H1.
  cbn [loopM]. unfold bind at 1. by rewrite H2.
Qed.

Lemma back_stop c a l rest i k : reads_back c a l → stream i (l ++ rest) → back_ends rest →
  (a ≤ length l)%nat → (4 * length l + 3 ≤ k)%nat →
  reads (bind (parse s k PipeLine) (loopM k (back_step s))) i c rest.
Proof.
  intros Hc Hst He Ha Hk.
  destruct (Hc rest i k (S (k - a - 1))) with (1 := Hst) as (i1 & H1 & Hst1); [|lia|].
  { eapply ends_more; [exact He|set_solver]. }
  replace (a + S (k - a - 1))%nat with k in H1 by lia. unfold reads. rewrite H1. cbn [loopM].
  apply (words_bind _ _ _ (inr c) rest); [|intros; by apply reads_ret].
  eapply reads_peek; [exact Hst1|subsyms|]. intros i2 Hst2.
  replace (next_in [38] rest) with false by (symmetry; by apply (ends_not _ _ _ He)).
  by apply reads_ret.
Qed.

(** [parseline] up to its last test. *)
Lemma line_reads k i c rest :
  reads (bind (bind (parse s k PipeLine) (loopM k (back_step s))) (λ c,
    b ← peek s [59];
    if (b : bool) then gettoken s ;;; r ← parse s k Line; ret (List c r) else ret c)) i c rest →
  reads (parse s (S k) Line) i c rest.
Proof. unfold reads. cbn [parse]. unfold bind at 1 2 6. by destruct (parse s k PipeLine i). Qed.

Lemma back_line c a l : reads_back c a l → (a ≤ length l)%nat → reads_line c l.
Proof.
  intros Hc Ha rest i [|k] Hst He Hk; [lia|]. apply line_reads.
  eapply words_bind; [eapply back_stop; [exact Hc|exact Hst| |done|lia]|].
  { eapply ends_more; [exact He|set_solver]. }
  intros i1 Hst1. eapply reads_peek; [exact Hst1|subsyms|]. intros i2 Hst2.
  replace (next_in [59] rest) with false by (symmetry; by apply (ends_not _ _ _ He)).
  by apply reads_ret.
Qed.

Lemma list_line c1 c2 a l1 l2 : reads_back c1 a l1 → (a ≤ length l1)%nat → reads_line c2 l2 →
  reads_line (List c1 c2) (l1 ++ Sym 59 :: l2).
Proof.
  intros H1 Ha H2 rest i [|k] Hst He Hk; [lia|]. rewrite length_app in Hk. cbn [length] in Hk.
  rewrite <- app_assoc in Hst. apply line_reads.
  eapply words_bind; [eapply back_stop; [exact H1|exact Hst|by right|done|lia]|].
  intros i1 Hst1. eapply reads_peek; [exact Hst1|subsyms|]. intros i2 Hst2. cbn [next_in].
  eapply reads_sym; [exact Hst2|]. intros sp i3 Hst3.
  eapply words_bind; [apply H2; [exact Hst3|done|lia]|]. intros. by apply reads_ret.
Qed.

Lemma paren_simple c l : reads_line c l → reads_simple c (paren l).
Proof.
  intros Hc R rest i k Hst He Hk. unfold paren in Hk. cbn [length] in Hk.
  rewrite length_app, redir_toks_length in Hk. cbn [length] in Hk.
  destruct k as [|[|k]]; [lia|lia|]. cbn [parse].
  unfold paren in Hst. cbn [app] in Hst. rewrite <- app_assoc in Hst.
  eapply reads_peek; [exact Hst|subsyms|]. intros i1 Hst1. cbn [next_in].
  eapply reads_peek; [exact Hst1|subsyms|]. intros i2 Hst2. cbn [next_in].
  eapply reads_sym; [exact Hst2|]. intros sp i3 Hst3.
  eapply words_bind; [apply Hc; [exact Hst3|by right|lia]|]. intros i4 Hst4.
  eapply reads_peek; [exact Hst4|subsyms|]. intros i5 Hst5. cbn [next_in].
  eapply reads_sym; [exact Hst5|]. intros sp' i6 Hst6.
  apply redirs_read; [exact Hst6|by apply (ends_not _ _ _ He)|lia].
Qed.

Lemma redir_simple c l f b : reads_simple c l →
  reads_simple (redir_to c (f, b)) (l ++ [Sym (if b then 62 else 60); Word f]).
Proof.
  intros Hc R rest i k Hst He Hk. rewrite <- app_assoc in Hst.
  apply (Hc ((f, b) :: R) rest); [exact Hst|done|].
  rewrite length_app in Hk. rewrite redir_toks_length in *. cbn [length] in *. lia.
Qed.

(** *** Every command is read back from its tokens *)

Fixpoint amps (c : cmd) : nat := match c with Back c' => S (amps c') | _ => 0 end.

Lemma layout_reads (c : cmd) : spelled c →
  reads_simple c (as_simple (layout c)) ∧ reads_pipe c (as_pipe (layout c)) ∧
  (reads_back c (amps c) (as_back (layout c)) ∧ (amps c ≤ length (as_back (layout c)))%nat) ∧
  reads_line c (as_line (layout c)).
Proof.
  assert (∀ c l, reads_pipe c l → reads_line c l) as Hpl
    by (intros; eapply back_line; [by apply pipe_back|lia]).
  induction c as [argv|c IH f m fd|l IHl r IHr|l IHl r IHr|c IH]; cbn [spelled layout amps as_simple as_pipe as_back as_line].
  - intros Hmax. pose proof (exec_simple argv Hmax) as H.
    split_and!; [done| | |lia|]; auto using simple_pipe, pipe_back.
  - intros [Hc Hm]. destruct (IH Hc) as (H & _).
    assert (reads_simple (Redir c f m fd) (as_simple (layout c) ++ [Sym (redir_sym fd); Word f])) as H'.
    { destruct Hm as [[= -> ->]|[= -> ->]];
        [apply (redir_simple c _ f false H)|apply (redir_simple c _ f true H)]. }
    split_and!; [done| | |lia|]; auto using simple_pipe, pipe_back.
  - intros [Hl Hr]. destruct (IHl Hl) as (H1 & _), (IHr Hr) as (_ & H2 & _).
    pose proof (pipe_pipe l r _ _ H1 H2) as H.
    split_and!; [|done| |lia|]; auto using pipe_back, paren_simple.
  - intros [Hl Hr]. destruct (IHl Hl) as (_ & _ & [H1 Ha] & _), (IHr Hr) as (_ & _ & _ & H2).
    pose proof (list_line l r _ _ _ H1 Ha H2) as H.
    split_and!; [| | |lia|done]; auto using pipe_back, simple_pipe, paren_simple.
  - intros Hc. destruct (IH Hc) as (_ & _ & [H1 Ha] & _). pose proof (back_back c _ _ H1) as H.
    assert (S (amps c) ≤ length (as_back (layout c) ++ [Sym 38]))%nat as Ha' by (rewrite length_app; cbn; lia).
    pose proof (back_line _ _ _ H Ha') as Hl.
    split_and!; auto using simple_pipe, paren_simple.
Qed.
End stream.

(** ** Tokens as text *)

Definition text (t : token (list Z)) : list Z := match t with Sym c => [c] | Word w => w end.
Definition render (ts : list (token (list Z))) : list Z := ts ≫= λ t, text t ++ [32].

(** What a word may hold, and what may be in the tokens of a command. *)
Definition word_text (w : list Z) : Prop := w ≠ [] ∧ Forall (λ c, c ≠ 0 ∧ word_char c = true) w.
Definition plain (t : token (list Z)) : Prop :=
  match t with Sym c => c ∈ symbols | Word w => word_text w end.

Definition kind (t : token (list Z)) : Z := match t with Sym c => c | Word _ => 97 end.

Section lexer.
Context (s : list Z).

Lemma skip_all_unique P i j : (i ≤ j ≤ length s)%nat →
  (∀ k, (i ≤ k < j)%nat → P (char_at s k) = true) →
  ((j < length s)%nat → P (char_at s j) = false) → skip_all s P i = j.
Proof.
  intros Hj H1 H2. destruct (skip_all_spec s P i) as (Hq & H3 & H4); [lia|].
  destruct (Nat.lt_trichotomy (skip_all s P i) j) as [Hlt|[E|Hgt]]; [|done|].
  - rewrite H1 in H4 by lia. specialize (H4 ltac:(lia)). done.
  - specialize (H3 j ltac:(lia)). rewrite H2 in H3 by lia. done.
Qed.

Lemma char_at_app pre l k : s = pre ++ l → char_at s (length pre + k) = nth k l 0.
Proof. intros ->. unfold char_at. rewrite app_nth2 by lia. f_equal. lia. Qed.

Lemma symbol_not_blank c : c ∈ symbols → blank c = false.
Proof.
  unfold symbols. rewrite !elem_of_cons, elem_of_nil. intros H. destruct_or?; by subst.
Qed.
Lemma word_not_blank c : word_char c = true → blank c = false ∧ in_set symbols c = false.
Proof. unfold word_char. intros [H1 H2]%andb_true_iff. by rewrite !negb_true_iff in *. Qed.

Lemma plain_head t : plain t → ∃ c l, text t = c :: l ∧ c ≠ 0 ∧ blank c = false.
Proof.
  destruct t as [c|[|c w]]; cbn.
  - intros Hc. exists c, []. split_and!; [done| |by apply symbol_not_blank]. intros ->.
    unfold symbols in Hc. rewrite !elem_of_cons, elem_of_nil in Hc. lia.
  - by intros [? _].
  - intros [_ [[? ?] ?]%Forall_cons]. exists c, w. split_and!; [done|done|by apply word_not_blank].
Qed.

Lemma lex_kind pre t tail : s = pre ++ text t ++ 32 :: tail → plain t →
  token_kind s (length pre) = kind t ∧ token_end s (length pre) = (length pre + length (text t))%nat.
Proof.
  intros Es Hp. assert (∀ k, char_at s (length pre + k) = nth k (text t ++ 32 :: tail) 0) as Hch
    by (intros; by apply char_at_app).
  assert (length s = length pre + (length (text t) + S (length tail)))%nat as Hlen
    by (rewrite Es, !length_app; cbn; lia).
  pose proof (Hch 0%nat) as H0. rewrite Nat.add_0_r in H0.
  unfold token_kind, token_end. rewrite H0. destruct t as [c|w]; cbn [text app length nth plain kind] in *.
  - pose proof (Hch 1%nat) as H1. rewrite Nat.add_1_r in H1. cbn in H1. rewrite H1, andb_false_r.
    destruct (Z.eqb_spec c 0) as [->|Hz]; [unfold symbols in Hp; set_solver|].
    rewrite in_set_true, bool_decide_eq_true_2 by (done || by repeat constructor).
    split; [done|lia].
  - destruct Hp as [Hne Hw]. destruct w as [|c w]; [done|]. cbn [app nth].
    assert (skip_all s word_char (length pre) = length pre + length (c :: w))%nat as ->.
    { apply skip_all_unique; [lia| |].
      - intros k Hk. replace k with (length pre + (k - length pre))%nat by lia. rewrite Hch, app_nth1 by lia.
        apply (proj1 (Forall_forall _ _) Hw). apply list_elem_of_In, nth_In. lia.
      - intros _. rewrite Hch, app_nth2, Nat.sub_diag by lia. done. }
    apply Forall_cons in Hw as [[Hz Hc] Hw]. apply word_not_blank in Hc as [_ Hc].
    destruct (Z.eqb_spec c 0) as [->|_]; [done|].
    destruct (Z.eqb_spec c 62) as [->|_]; [done|]. cbn [andb]. by rewrite Hc.
Qed.

Lemma lex_token pre t tail : s = pre ++ text t ++ 32 :: tail → plain t →
  (∀ c l, tail = c :: l → blank c = false) →
  gettoken s (length pre) = Ok (kind t, (length pre, (length pre + length (text t))%nat))
    (length (pre ++ text t ++ [32])).
Proof.
  intros Es Hp Htail. assert (∀ k, char_at s (length pre + k) = nth k (text t ++ 32 :: tail) 0) as Hch
    by (intros; by apply char_at_app).
  assert (length s = length pre + (length (text t) + S (length tail)))%nat as Hlen
    by (rewrite Es, !length_app; cbn; lia).
  destruct (plain_head t Hp) as (c & l & Et & _ & Hb).
  assert (skip_all s blank (length pre) = length pre) as Hq.
  { apply skip_all_unique; [lia|intros; lia|]. intros _. pose proof (Hch 0%nat) as H0.
    rewrite Nat.add_0_r in H0. rewrite H0, Et. done. }
  rewrite gettoken_eq, Hq. destruct (lex_kind pre t tail Es Hp) as [-> ->]. f_equal.
  rewrite !length_app. cbn [length]. apply skip_all_unique; [lia| |].
  - intros k Hk. replace k with (length pre + length (text t))%nat by lia.
    rewrite Hch, app_nth2, Nat.sub_diag by lia. done.
  - intros Hk. rewrite Hch, app_nth2 by lia.
    replace (length (text t) + 1 - length (text t))%nat with 1%nat by lia. cbn.
    destruct tail as [|c' tail]; [cbn in Hlen; lia|]. by apply (Htail c' tail).
Qed.

Definition tmap {A B} (g : A → B) (t : token A) : token B :=
  match t with Sym c => Sym c | Word w => Word (g w) end.

Lemma render_head ts c l : Forall plain ts → render ts = c :: l → blank c = false.
Proof.
  intros Hts E. destruct ts as [|t ts]; [done|]. apply Forall_cons in Hts as [Ht _].
  destruct (plain_head t Ht) as (c' & l' & Et & _ & Hb). cbn in E. rewrite Et in E. by simplify_eq/=.
Qed.

(** The text of some tokens is lexed to them. *)
Lemma render_stream ts pre : s = pre ++ render ts → Forall plain ts →
  ∃ ts', stream s (length pre) ts' ∧ tmap (slice s) <$> ts' = ts.
Proof.
  revert pre. induction ts as [|t ts IH]; intros pre Es Hts.
  { exists []. split; [|done]. assert (length pre = length s) as E by (rewrite Es, app_nil_r; done).
    apply stream_end; [lia|]. apply skip_all_unique; [lia|intros; lia|lia]. }
  apply Forall_cons in Hts as [Ht Hts].
  assert (s = pre ++ text t ++ 32 :: render ts) as Es'.
  { rewrite Es. cbn. by rewrite <- app_assoc. }
  destruct (IH (pre ++ text t ++ [32])) as (ts' & Hst & Em); [|done|].
  { rewrite Es'. by rewrite <- !app_assoc. }
  pose proof (lex_token pre t (render ts) Es' Ht (λ c l, render_head ts c l Hts)) as Hg.
  eexists. split; [eapply stream_token; [|exact Hg| | |exact Hst]|].
  - rewrite Es', length_app. lia.
  - destruct t as [c|w]; cbn; [|done]. intros ->. cbn in Ht. unfold symbols in Ht. set_solver.
  - destruct t as [c|w]; cbn; [|done]. intros ->. cbn in Ht. unfold symbols in Ht. set_solver.
  - rewrite fmap_cons, Em. f_equal. destruct t as [c|w]; unfold token_of; cbn [fst snd kind].
    + destruct (Z.eqb_spec c 97) as [->|]; [|done]. cbn in Ht. unfold symbols in Ht. set_solver.
    + cbn. unfold slice. cbn [fst snd text]. rewrite Es'. f_equal.
      rewrite drop_app_length. replace (_ + _ - _)%nat with (length w) by lia. by apply take_app_length.
Qed.
End lexer.

(** ** Commands over other strings *)

Fixpoint cmap {A B} (g : A → B) (c : cmd_of A) : cmd_of B :=
  match c with
  | Exec argv => Exec (g <$> argv)
  | Redir c' f m fd => Redir (cmap g c') (g f) m fd
  | Pipe l r => Pipe (cmap g l) (cmap g r)
  | List l r => List (cmap g l) (cmap g r)
  | Back c' => Back (cmap g c')
  end.

Lemma spelled_cmap {A B} (g : A → B) c : spelled (cmap g c) ↔ spelled c.
Proof. induction c; cbn; rewrite ?length_fmap; tauto. Qed.

Lemma cmap_ext {A B} (f g : A → B) c : Forall (λ w, f w = g w) (spans c) → cmap f c = cmap g c.
Proof.
  induction c as [argv|c IH x m fd|l IHl r IHr|l IHl r IHr|c IH]; cbn; rewrite ?Forall_app, ?Forall_singleton.
  - intros H. f_equal. induction H; cbn; congruence.
  - intros [H1 H2]. rewrite IH, H2; done.
  - intros [H1 H2]. rewrite IHl, IHr; done.
  - intros [H1 H2]. rewrite IHl, IHr; done.
  - intros H. by rewrite IH.
Qed.

Section relabel.
Context {A B : Type} (g : B → A).

Lemma words_inv (argv : list A) (ts : list (token B)) : tmap g <$> ts = Word <$> argv →
  ∃ ws : list B, g <$> ws = argv ∧ ts = Word <$> ws.
Proof.
  revert ts. induction argv as [|w argv IH]; intros [|t ts] E; try done; [by exists []|].
  injection E as E1 E2. destruct (IH ts E2) as (ws & <- & ->). destruct t as [|w']; [done|].
  injection E1 as <-. by exists (w' :: ws).
Qed.
Lemma sym_inv c t : tmap g t = Sym c → t = Sym c.
Proof. destruct t; [|done]. intros [=]. by subst. Qed.
Lemma app_sym_inv l1 c l2 (ts : list (token B)) : tmap g <$> ts = l1 ++ Sym c :: l2 →
  ∃ t1 t2, ts = t1 ++ Sym c :: t2 ∧ tmap g <$> t1 = l1 ∧ tmap g <$> t2 = l2.
Proof.
  intros (t1 & t2 & E1 & E2 & ->)%fmap_app_inv. symmetry in E2.
  apply fmap_cons_inv in E2 as (t & t2' & E3 & E4 & ->). symmetry in E3.
  apply sym_inv in E3 as ->. eauto.
Qed.
Lemma paren_inv l (ts : list (token B)) : tmap g <$> ts = paren l → ∃ t, ts = paren t ∧ tmap g <$> t = l.
Proof.
  unfold paren. intros (t0 & t1 & E0 & E1 & ->)%fmap_cons_inv. symmetry in E0, E1.
  apply sym_inv in E0 as ->. apply app_sym_inv in E1 as (t & t2 & -> & E & E2).
  apply fmap_nil_inv in E2 as ->. eauto.
Qed.

(** Tokens over other strings are those of a command over them. *)
Definition lifts (P : ∀ W, layout_of W → list (token W)) (c : cmd_of A) : Prop :=
  ∀ ts : list (token B), tmap g <$> ts = P A (layout c) → ∃ c', cmap g c' = c ∧ P B (layout c') = ts.

Lemma lifts_paren (P Q : ∀ W, layout_of W → list (token W)) c :
  lifts Q c → P A (layout c) = paren (Q A (layout c)) →
  (∀ c', cmap g c' = c → P B (layout c') = paren (Q B (layout c'))) → lifts P c.
Proof.
  intros HQ E HP ts Hts. rewrite E in Hts. apply paren_inv in Hts as (t & -> & Ht).
  destruct (HQ t Ht) as (c' & Hc & <-). exists c'. split; [done|]. by apply HP.
Qed.

Lemma layout_lifts (c : cmd_of A) :
  lifts (@as_simple) c ∧ lifts (@as_pipe) c ∧ lifts (@as_back) c ∧ lifts (@as_line) c.
Proof.
  induction c as [argv|c IH f m fd|l IHl r IHr|l IHl r IHr|c IH].
  - assert (∀ ts : list (token B), tmap g <$> ts = Word <$> argv → ∃ ws : list B,
      cmap g (Exec ws) = Exec argv ∧ Word <$> ws = ts) as H.
    { intros ts (ws & <- & ->)%words_inv. by exists ws. }
    split_and!; intros ts Hts; destruct (H ts Hts) as (ws & ? & ?); by exists (Exec ws).
  - destruct IH as (IH & _).
    assert (∀ ts : list (token B), tmap g <$> ts = as_simple (layout c) ++ [Sym (redir_sym fd); Word f] →
      ∃ c' f', cmap g (Redir c' f' m fd) = Redir c f m fd ∧
        as_simple (layout c') ++ [Sym (redir_sym fd); Word f'] = ts) as H.
    { intros ts (t1 & t2 & -> & E1 & E2)%app_sym_inv. destruct (IH _ E1) as (c' & <- & <-).
      destruct t2 as [|[|f'] [|]]; try done. injection E2 as <-. by exists c', f'. }
    split_and!; intros ts Hts; destruct (H ts Hts) as (c' & f' & ? & ?); by exists (Redir c' f' m fd).
  - destruct IHl as (IHl & _), IHr as (_ & IHr & _).
    assert (lifts (@as_pipe) (Pipe l r)) as H.
    { intros ts (t1 & t2 & -> & E1 & E2)%app_sym_inv. destruct (IHl _ E1) as (l' & <- & <-).
      destruct (IHr _ E2) as (r' & <- & <-). by exists (Pipe l' r'). }
    assert (∀ ts, tmap g <$> ts = as_pipe (layout (Pipe l r)) → ∃ l' r',
      cmap g (Pipe l' r') = Pipe l r ∧ as_pipe (layout (Pipe l' r')) = ts) as H'.
    { intros ts Hts. destruct (H ts Hts) as ([] & Hc & Ht); try done. eauto. }
    split_and!; [|done| |];
      [apply (lifts_paren _ (@as_pipe)); [done|done|by intros []]| |];
      intros ts Hts; destruct (H' ts Hts) as (l' & r' & ? & ?); by exists (Pipe l' r').
  - destruct IHl as (_ & _ & IHl & _), IHr as (_ & _ & _ & IHr).
    assert (lifts (@as_line) (List l r)) as H.
    { intros ts (t1 & t2 & -> & E1 & E2)%app_sym_inv. destruct (IHl _ E1) as (l' & <- & <-).
      destruct (IHr _ E2) as (r' & <- & <-). by exists (List l' r'). }
    split_and!; [| | |done]; (apply (lifts_paren _ (@as_line)); [done|done|by intros []]).
  - destruct IH as (_ & _ & IH & _).
    assert (∀ ts, tmap g <$> ts = as_back (layout (Back c)) → ∃ c',
      cmap g (Back c') = Back c ∧ as_back (layout (Back c')) = ts) as H.
    { intros ts (t1 & t2 & -> & E1 & E2)%app_sym_inv. destruct (IH _ E1) as (c' & <- & <-).
      apply fmap_nil_inv in E2 as ->. by exists c'. }
    assert (lifts (@as_back) (Back c)) as Hb.
    { intros ts Hts. destruct (H ts Hts) as (c' & ? & ?). by exists (Back c'). }
    split_and!; [| |done|]; [| |intros ts Hts; destruct (H ts Hts) as (c' & ? & ?); by exists (Back c')];
      (apply (lifts_paren _ (@as_back)); [done|done|by intros []]).
Qed.
End relabel.

(** ** Lines *)

Lemma paren_plain l : Forall plain l → Forall plain (paren l).
Proof.
  intros Hl. unfold paren. apply Forall_cons. split; [cbn; subsyms|].
  apply Forall_app. split; [done|]. apply Forall_singleton. cbn. subsyms.
Qed.

Lemma layout_plain (c : cmd_of (list Z)) : Forall word_text (spans c) →
  Forall plain (as_simple (layout c)) ∧ Forall plain (as_pipe (layout c)) ∧
  Forall plain (as_back (layout c)) ∧ Forall plain (as_line (layout c)).
Proof.
  assert (∀ x, x ∈ symbols → plain (Sym x)) as Hsym by done.
  assert (∀ a b x, Forall plain a → Forall plain b → x ∈ symbols → Forall plain (a ++ Sym x :: b)) as Happ.
  { intros. apply Forall_app. split; [done|]. by apply Forall_cons. }
  induction c as [argv|c IH f m fd|l IHl r IHr|l IHl r IHr|c IH];
    cbn [spans layout as_simple as_pipe as_back as_line]; intros Hw.
  - assert (Forall plain (Word <$> argv)) by (apply Forall_fmap; exact Hw). done.
  - apply Forall_app in Hw as [H1 H2]. destruct (IH H1) as (H & _). apply (proj1 (Forall_singleton _ _)) in H2.
    assert (Forall plain (as_simple (layout c) ++ [Sym (redir_sym fd); Word f])) as H'.
    { apply (Happ _ [Word f]); [done|apply Forall_singleton; exact H2|]. unfold redir_sym. destruct (_ =? 0); subsyms. }
    done.
  - apply Forall_app in Hw as [H1 H2]. destruct (IHl H1) as (Hl & _), (IHr H2) as (_ & Hr & _).
    assert (124 ∈ symbols) by subsyms. split_and!; auto using paren_plain.
  - apply Forall_app in Hw as [H1 H2]. destruct (IHl H1) as (_ & _ & Hl & _), (IHr H2) as (_ & _ & _ & Hr).
    assert (59 ∈ symbols) by subsyms. split_and!; auto using paren_plain.
  - destruct (IH Hw) as (_ & _ & H & _). assert (38 ∈ symbols) by subsyms.
    split_and!; auto using paren_plain.
Qed.

Lemma render_nonzero ts : Forall plain ts → Forall (λ c, c ≠ 0) (render ts) ∧ (length ts ≤ length (render ts))%nat.
Proof.
  induction 1 as [|t ts Ht _ [IH1 IH2]]; [done|].
  change (render (t :: ts)) with ((text t ++ [32]) ++ render ts).
  rewrite !length_app. cbn [length]. split; [|lia].
  apply Forall_app. split; [|done]. apply Forall_app. split; [|by apply Forall_singleton].
  destruct t as [c|w]; cbn in *.
  - apply Forall_singleton. intros ->. unfold symbols in Ht. set_solver.
  - destruct Ht as [_ Ht]. eapply Forall_impl; [exact Ht|]. by intros ? [].
Qed.

Lemma parsecmd_stream s fuel c : Forall (λ c, c ≠ 0) s → spelled c → stream s 0 (as_line (layout c)) →
  (4 * length (as_line (layout c)) + 4 ≤ fuel)%nat →
  ∃ i, parsecmd s fuel 0%nat = Ok (c, nulterminate c (s ++ [0])) i.
Proof.
  intros Hs Hc Hst Hf. destruct (layout_reads s Hs c Hc) as (_ & _ & _ & Hl).
  destruct (Hl [] 0%nat fuel) as (i & Hp & Hst'); [by rewrite app_nil_r|by left|done|].
  exists (length s). unfold parsecmd, bind at 1. rewrite Hp. unfold bind. rewrite peek_run.
  inversion Hst' as [? Hi He|]; subst. rewrite He. cbn. by rewrite Nat.eqb_refl.
Qed.

(** ** The claims *)

(** Every command tree is read back from the line that spells it: the
    parser accepts the text that [layout] and [render] write for a tree of
    simple commands, redirections, pipes, lists and background commands, and
    the strings left in the terminated line are those of the tree. *)
Theorem parsecmd_render (c : cmd_of (list Z)) (fuel : nat) :
  let s := render (as_line (layout c)) in
  spelled c → Forall word_text (spans c) → (4 * length s + 4 ≤ fuel)%nat →
  ∃ c' buf i, parsecmd s fuel 0%nat = Ok (c', buf) i ∧
    cmap (λ sp, cstr (drop sp.1 buf)) c' = c.
Proof.
  intros s Hc Hw Hf. destruct (layout_plain c Hw) as (_ & _ & _ & Hp).
  destruct (render_nonzero _ Hp) as [Hs Hlen].
  destruct (render_stream s (as_line (layout c)) []) as (ts & Hst & Em); [done|done|].
  destruct (layout_lifts (slice s) c) as (_ & _ & _ & Hl).
  destruct (Hl ts Em) as (c' & Ec & <-).
  destruct (parsecmd_stream s fuel c' Hs) as (i & Hrun); [|exact Hst| |].
  { by rewrite <- Ec, spelled_cmap in Hc. }
  { apply (f_equal length) in Em. rewrite length_fmap in Em. fold s in Hlen. cbn beta in *. lia. }
  eexists _, _, i. split; [exact Hrun|]. rewrite <- Ec. apply cmap_ext.
  pose proof (parsecmd_safe s fuel Hs Hf) as Hsafe. unfold safe, wp in Hsafe.
  rewrite Hrun in Hsafe. destruct Hsafe as (_ & Hwords & _). apply Forall_forall.
  intros sp Hsp. by apply nulterminate_strings.
Qed.

(** C23: the parser always answers: for a line of any bytes it returns a command
    or panics with a message, with fuel linear in the length of the line for
    the mutual recursion and its loops. *)
Theorem parsecmd_terminates (s : list Z) (fuel : nat) :
  Forall (λ c, c ≠ 0) s → (4 * length s + 4 ≤ fuel)%nat →
  (∃ r i, parsecmd s fuel 0%nat = Ok r i) ∨ (∃ msg i, parsecmd s fuel 0%nat = Stop (Panic msg) i).
Proof.
  intros Hs Hf. destruct (wp_run _ _ _ _ (parsecmd_safe s fuel Hs Hf)) as [(r & i & E & _)|(e & i & E & msg & ->)];
    eauto.
Qed.

(** The strings of a parsed command are words of the line: terminating the
    strings in place damages none of them, and each is a nonempty, maximal run
    of characters that are neither blanks nor symbols. *)
Theorem parsecmd_strings (s : list Z) (fuel : nat) c buf i sp :
  Forall (λ c, c ≠ 0) s → (4 * length s + 4 ≤ fuel)%nat →
  parsecmd s fuel 0%nat = Ok (c, buf) i → sp ∈ spans c →
  word_at s sp ∧ cstr (drop sp.1 buf) = slice s sp.
Proof.
  intros Hs Hf Hrun Hsp. pose proof (parsecmd_safe s fuel Hs Hf) as Hsafe. unfold safe, wp in Hsafe.
  rewrite Hrun in Hsafe. destruct Hsafe as (_ & Hwords & Hbuf). cbn [fst snd] in *. subst buf. split.
  - by apply (proj1 (Forall_forall _ _) Hwords).
  - by apply nulterminate_strings.
Qed.

(** [(a b; c | d) < e > f &; g] *)
Definition ex_cmd : cmd_of (list Z) :=
  List (Back (Redir (Redir (List (Exec [[97]; [98]]) (Pipe (Exec [[99]]) (Exec [[100]])))
                           [101] O_RDONLY 0) [102] (Z.lor O_WRONLY O_CREATE) 1))
       (Exec [[103]]).

Lemma parsecmd_render_witness : ∃ c' buf i,
  parsecmd (render (as_line (layout ex_cmd))) 200 0%nat = Ok (c', buf) i ∧
  cmap (λ sp, cstr (drop sp.1 buf)) c' = ex_cmd.
Proof.
  apply (parsecmd_render ex_cmd 200).
  - cbn. unfold MAXARGS. split_and!; try lia; [by left|by right].
  - cbn. repeat constructor; done.
  - vm_compute. lia.
Defined.

Lemma parsecmd_terminates_witness :
  (∃ r i, parsecmd [40; 40] 12 0%nat = Ok r i) ∨ (∃ msg i, parsecmd [40; 40] 12 0%nat = Stop (Panic msg) i).
Proof. apply parsecmd_terminates; [by repeat constructor|cbn; lia]. Defined.

Lemma parsecmd_strings_witness :
  word_at [108; 115; 62; 102] (3, 4)%nat ∧
  cstr (drop 3 [108; 115; 0; 102; 0]) = slice [108; 115; 62; 102] (3, 4)%nat.
Proof.
  apply (parsecmd_strings [108; 115; 62; 102] 20
    (Redir (Exec [(0, 2)%nat]) (3, 4)%nat (Z.lor O_WRONLY O_CREATE) 1) _ 4).
  - by repeat constructor.
  - cbn. lia.
  - vm_compute. reflexivity.
  - cbn. set_solver.
Defined.
