(* ===== verification/ShRun.v ===== *)
(** * The shell runs commands ([runcmd] and [main] of user/sh.c)

    A user program is a tree of system calls ([prog]): each node is a call, with
    a continuation that takes its result.  [runcmd], [getcmd] and [main] are
    such programs.

    A system call acts on the file descriptors of its process; [fork] copies
    them, so that processes share nothing but the files themselves.  The
    relation [eval] runs a program with its descriptors and collects the tree
    of processes it makes: the programs that run, each with its arguments and
    descriptors, the forks, and the descriptors held while waiting.  A call
    that may fail does so in some of the runs.

    [does] says what a command means, on the three standard files only.
    [shell_runs] shows that the line that spells a command does what the
    command means; in particular no descriptor leaks to a program, and the
    shell holds neither end of a pipe while it waits. *)

From S2P Require Import Prelude Bytes CString Sh ShThms.

Definition O_RDWR : Z := 2.
Definition NOFILE : nat := 16.
Definition str : Type := list Z.

Inductive prog :=
  | Exit
  | ExecP (path : str) (argv : list str) (k : prog)
  | Close (fd : Z) (k : prog)
  | Dup (fd : Z) (k : Z → prog)
  | Open (file : str) (mode : Z) (k : Z → prog)
  | PipeP (k : option (Z * Z) → prog)
  | Fork (k : Z → prog)
  | Wait (k : Z → prog)
  | Chdir (path : str) (k : Z → prog)
  | Mknod (path : str) (major minor : Z) (k : Z → prog)
  | Gets (max : nat) (k : str → prog)
  | Print (fd : Z) (text : str) (k : prog).

(** Text of messages. *)
Definition text (s : string) : str := (λ c, Z.of_nat (Ascii.nat_of_ascii c)) <$> String.list_ascii_of_string s.

(** ** The program *)

Definition sh_panic (s : string) : prog := Print 2 (text s ++ [10]) Exit.

Definition fork1 (k : Z → prog) : prog := Fork (λ pid, if pid =? -1 then sh_panic "fork" else k pid).

Fixpoint runcmd (c : cmd_of str) : prog :=
  match c with
  | Exec argv =>
      match argv with
      | [] => Exit
      | a :: _ => ExecP a argv (Print 2 (text "exec " ++ a ++ text " failed" ++ [10]) Exit)
      end
  | Redir c' file mode fd =>
      Close fd (Open file mode (λ r,
        if r <? 0 then Print 2 (text "open " ++ file ++ text " failed" ++ [10]) Exit else runcmd c'))
  | List l r =>
      fork1 (λ pid, if pid =? 0 then runcmd l else Wait (λ _, runcmd r))
  | Pipe l r =>
      PipeP (λ p,
        match p with
        | None => sh_panic "pipe"
        | Some (p0, p1) =>
            fork1 (λ pid,
              if pid =? 0 then Close 1 (Dup p1 (λ _, Close p0 (Close p1 (runcmd l)))) else
              fork1 (λ pid,
                if pid =? 0 then Close 0 (Dup p0 (λ _, Close p0 (Close p1 (runcmd r)))) else
                Close p0 (Close p1 (Wait (λ _, Wait (λ _, Exit))))))
        end)
  | Back c' => fork1 (λ pid, if pid =? 0 then runcmd c' else Exit)
  end.

(** [runcmd(parsecmd(buf))]; the fuel is enough for every line. *)
Definition run_line (s : str) : prog :=
  match parsecmd s (4 * length s + 4) 0%nat with
  | Ok (c, buf) _ => runcmd (cmap (λ sp, cstr (drop sp.1 buf)) c)
  | Stop (Panic msg) _ => sh_panic msg
  | Stop _ _ => Exit
  end.

(** [cd] with the last byte of the line removed. *)
Definition is_cd (buf : str) : bool := bool_decide (take 3 buf = [99; 100; 32]).
Definition cd_path (buf : str) : str := drop 3 (take (length buf - 1) buf).

(** The next line, or [None] at the end of the input; the buffer has room for
    99 bytes and a null. *)
Definition getcmd (k : option str → prog) : prog :=
  Print 2 (text "$ ") (Gets 100 (λ s,
    match cstr (s ++ [0]) with
    | [] => k None
    | buf => k (Some buf)
    end)).

(** The loop over the lines, for at most [n] of them. *)
Fixpoint sh_loop (n : nat) : prog :=
  match n with
  | O => Exit
  | S n =>
      getcmd (λ r,
        match r with
        | None => Exit
        | Some buf =>
            if is_cd buf then
              Chdir (cd_path buf) (λ r,
                if r <? 0 then Print 2 (text "cannot cd " ++ cd_path buf ++ [10]) (sh_loop n) else sh_loop n)
            else fork1 (λ pid, if pid =? 0 then run_line buf else Wait (λ _, sh_loop n))
        end)
  end.

(** The shell opens the console until it has three descriptors. *)
Fixpoint sh_open (n : nat) (k : prog) : prog :=
  match n with
  | O => k
  | S n => Open (text "console") O_RDWR (λ fd, if fd <? 0 then k else if 3 <=? fd then Close fd k else sh_open n k)
  end.

Definition sh_main (n : nat) : prog := sh_open 4 (sh_loop n).

(** user/init.c: [init] waits for at most [m] processes before each of at most
    [n] shells it starts. *)
Definition CPUID : Z := 2.

Fixpoint init_wait (m : nat) (pid : Z) (k : prog) : prog :=
  match m with
  | O => Exit
  | S m => Wait (λ wpid, if (0 <=? wpid) && negb (wpid =? pid) then Print 1 (text "zombie!" ++ [10]) (init_wait m pid k) else k)
  end.

Fixpoint init_loop (m n : nat) : prog :=
  match n with
  | O => Exit
  | S n =>
      Print 1 (text "init: starting sh" ++ [10]) (Fork (λ pid,
        if pid <? 0 then Print 1 (text "init: fork failed" ++ [10]) Exit
        else if pid =? 0 then ExecP (text "sh") [text "sh"] (Print 1 (text "init: exec sh failed" ++ [10]) Exit)
        else init_wait m pid (init_loop m n)))
  end.

Definition init_main (m n : nat) : prog :=
  let rest := Dup 0 (λ _, Dup 0 (λ _, Mknod (text "cpuid") CPUID 1 (λ _, init_loop m n))) in
  Open (text "console") O_RDWR (λ r,
    if r <? 0 then Mknod (text "console") 1 1 (λ _, Open (text "console") O_RDWR (λ _, rest)) else rest).

(** ** What system calls do *)

Inductive ofile :=
  | Opened (name : str) (mode : Z)
  | ReadEnd (n : nat)
  | WriteEnd (n : nat)
  | Inherited (n : nat).

Definition fdtable : Type := list (option ofile).

(** The lowest free descriptor. *)
Fixpoint lowest (f : fdtable) : option nat :=
  match f with
  | [] => None
  | None :: _ => Some 0%nat
  | Some _ :: f' => S <$> lowest f'
  end.
Definition at_fd (f : fdtable) (fd : Z) : option ofile := if fd <? 0 then None else default None (f !! Z.to_nat fd).
Definition clear (fd : Z) (f : fdtable) : fdtable := if fd <? 0 then f else <[Z.to_nat fd := None]> f.

(** The processes a run makes. *)
Inductive tree :=
  | TExit
  | TRun (path : str) (argv : list str) (f : fdtable)
  | TFork (child parent : tree)
  | TWait (f : fdtable) (t : tree).

Inductive eval : prog → fdtable → nat → tree → nat → Prop :=
  | ev_exit f n : eval Exit f n TExit n
  | ev_exec p argv k f n : eval (ExecP p argv k) f n (TRun p argv f) n
  | ev_exec_fails p argv k f n t n' : eval k f n t n' → eval (ExecP p argv k) f n t n'
  | ev_close fd k f n t n' : eval k (clear fd f) n t n' → eval (Close fd k) f n t n'
  | ev_dup fd k f x i n t n' : at_fd f fd = Some x → lowest f = Some i →
      eval (k (Z.of_nat i)) (<[i := Some x]> f) n t n' → eval (Dup fd k) f n t n'
  | ev_dup_fails fd k f n t n' : at_fd f fd = None ∨ lowest f = None → eval (k (-1)) f n t n' → eval (Dup fd k) f n t n'
  | ev_open file mode k f i n t n' : lowest f = Some i →
      eval (k (Z.of_nat i)) (<[i := Some (Opened file mode)]> f) n t n' → eval (Open file mode k) f n t n'
  | ev_open_fails file mode k f n t n' : eval (k (-1)) f n t n' → eval (Open file mode k) f n t n'
  | ev_pipe k f i j n t n' : lowest f = Some i → lowest (<[i := Some (ReadEnd n)]> f) = Some j →
      eval (k (Some (Z.of_nat i, Z.of_nat j))) (<[j := Some (WriteEnd n)]> (<[i := Some (ReadEnd n)]> f)) (S n) t n' →
      eval (PipeP k) f n t n'
  | ev_pipe_fails k f n t n' : eval (k None) f n t n' → eval (PipeP k) f n t n'
  | ev_fork k f pid n t1 n1 t2 n2 : 0 < pid → eval (k 0) f n t1 n1 → eval (k pid) f n1 t2 n2 → eval (Fork k) f n (TFork t1 t2) n2
  | ev_fork_fails k f n t n' : eval (k (-1)) f n t n' → eval (Fork k) f n t n'
  | ev_wait k f r n t n' : eval (k r) f n t n' → eval (Wait k) f n (TWait f t) n'
  | ev_chdir path k f r n t n' : eval (k r) f n t n' → eval (Chdir path k) f n t n'
  | ev_mknod path a b k f r n t n' : eval (k r) f n t n' → eval (Mknod path a b k) f n t n'
  | ev_gets max k f s n t n' : (length s < max)%nat → eval (k s) f n t n' → eval (Gets max k) f n t n'
  | ev_print fd s k f n t n' : eval k f n t n' → eval (Print fd s k) f n t n'.

(** ** What commands mean *)

(** The files a program has as its input, output and error output. *)
Definition std : Type := ofile * ofile * ofile.
Definition table (s : std) : fdtable :=
  let '(i, o, e) := s in [Some i; Some o; Some e] ++ replicate 13 None.

Definition redirect (fd : Z) (x : ofile) (s : std) : std :=
  let '(i, o, e) := s in if fd =? 0 then (x, o, e) else (i, x, e).

(** [does c s n t n']: with the files [s], and the pipes from number [n] on
    unused, [c] can lead to the processes [t], which use the pipes up to [n']. *)
Inductive does : cmd_of str → std → nat → tree → nat → Prop :=
  | does_run a argv s n : does (Exec (a :: argv)) s n (TRun a (a :: argv) (table s)) n
  | does_nothing argv s n : does (Exec argv) s n TExit n
  | does_redir c file mode fd s n t n' :
      does c (redirect fd (Opened file mode) s) n t n' → does (Redir c file mode fd) s n t n'
  | does_redir_fails c file mode fd s n : does (Redir c file mode fd) s n TExit n
  | does_list l r s n t1 n1 t2 n2 : does l s n t1 n1 → does r s n1 t2 n2 →
      does (List l r) s n (TFork t1 (TWait (table s) t2)) n2
  | does_list_fails l r s n : does (List l r) s n TExit n
  | does_pipe l r i o e n t1 n1 t2 n2 : does l (i, WriteEnd n, e) (S n) t1 n1 → does r (ReadEnd n, o, e) n1 t2 n2 →
      does (Pipe l r) (i, o, e) n (TFork t1 (TFork t2 (TWait (table (i, o, e)) (TWait (table (i, o, e)) TExit)))) n2
  | does_pipe_half l r i o e n t1 n1 : does l (i, WriteEnd n, e) (S n) t1 n1 → does (Pipe l r) (i, o, e) n (TFork t1 TExit) n1
  | does_pipe_fails l r s n n' : n' = n ∨ n' = S n → does (Pipe l r) s n TExit n'
  | does_back c s n t n' : does c s n t n' → does (Back c) s n (TFork t TExit) n'
  | does_back_fails c s n : does (Back c) s n TExit n.

(** Redirections go to the input or the output. *)
Fixpoint plumbed (c : cmd_of str) : Prop :=
  match c with
  | Exec _ => True
  | Redir c' _ _ fd => (fd = 0 ∨ fd = 1) ∧ plumbed c'
  | Pipe l r | List l r => plumbed l ∧ plumbed r
  | Back c' => plumbed c'
  end.

#[local] Opaque text.

(** ** Runs, call by call *)

Section calls.
Implicit Types (f : fdtable) (t : tree) (n : nat).

Lemma eval_exit f n t n' : eval Exit f n t n' ↔ t = TExit ∧ n' = n.
Proof. split; [by inversion 1|intros [-> ->]; constructor]. Qed.
Lemma eval_print fd s k f n t n' : eval (Print fd s k) f n t n' ↔ eval k f n t n'.
Proof. split; [by inversion 1|by constructor]. Qed.
Lemma eval_panic s f n t n' : eval (sh_panic s) f n t n' ↔ t = TExit ∧ n' = n.
Proof. unfold sh_panic. by rewrite eval_print, eval_exit. Qed.
Lemma eval_close fd k f n t n' : eval (Close fd k) f n t n' ↔ eval k (clear fd f) n t n'.
Proof. split; [by inversion 1|by constructor]. Qed.
Lemma eval_wait k f n t n' : eval (Wait k) f n t n' ↔ ∃ r t', t = TWait f t' ∧ eval (k r) f n t' n'.
Proof. split; [inversion 1; subst; eauto|intros (r & t' & -> & H); by eapply ev_wait]. Qed.
Lemma eval_exec p argv k f n t n' :
  eval (ExecP p argv k) f n t n' ↔ (t = TRun p argv f ∧ n' = n) ∨ eval k f n t n'.
Proof. split; [inversion 1; subst; auto|intros [[-> ->]|H]; [constructor|by apply ev_exec_fails]]. Qed.
Lemma eval_open file mode k f i n t n' : lowest f = Some i →
  eval (Open file mode k) f n t n' ↔ eval (k (Z.of_nat i)) (<[i := Some (Opened file mode)]> f) n t n' ∨ eval (k (-1)) f n t n'.
Proof.
  intros Hi. split; [inversion 1; simplify_eq; auto|intros [H|H]; [by eapply ev_open|by apply ev_open_fails]].
Qed.
Lemma eval_dup fd k f x i n t n' : at_fd f fd = Some x → lowest f = Some i →
  eval (Dup fd k) f n t n' ↔ eval (k (Z.of_nat i)) (<[i := Some x]> f) n t n'.
Proof.
  intros Hx Hi. split; [inversion 1; simplify_eq; [done|naive_solver]|intros H; by eapply ev_dup].
Qed.
Lemma eval_pipe k f i j n t n' : lowest f = Some i → lowest (<[i := Some (ReadEnd n)]> f) = Some j →
  eval (PipeP k) f n t n' ↔
    eval (k (Some (Z.of_nat i, Z.of_nat j))) (<[j := Some (WriteEnd n)]> (<[i := Some (ReadEnd n)]> f)) (S n) t n' ∨
    eval (k None) f n t n'.
Proof.
  intros Hi Hj. split; [inversion 1; simplify_eq; auto|intros [H|H]; [by eapply ev_pipe|by apply ev_pipe_fails]].
Qed.
Lemma eval_fork1 k f n t n' : (∀ pid, 0 < pid → k pid = k 1) →
  eval (fork1 k) f n t n' ↔
    (∃ t1 n1 t2, t = TFork t1 t2 ∧ eval (k 0) f n t1 n1 ∧ eval (k 1) f n1 t2 n') ∨ (t = TExit ∧ n' = n).
Proof.
  intros Hk. unfold fork1. split.
  - inversion 1 as [| | | | | | | | | |? ? pid ? t1 n1 t2 n2 Hpid H1 H2|? ? ? ? ? H1| | | | |]; subst.
    + cbn in H1. rewrite (proj2 (Z.eqb_neq pid (-1))), Hk in H2 by lia. left. by exists t1, n1, t2.
    + right. by apply eval_panic in H1.
  - intros [(t1 & n1 & t2 & -> & H1 & H2)|[-> ->]].
    + by apply (ev_fork _ _ 1 _ _ n1).
    + apply ev_fork_fails. by apply eval_panic.
Qed.
End calls.

(** The descriptors of the two sides of a pipe, and of the shell between them. *)
Section plumbing.
Context (i o e : ofile) (n : nat).
Definition both : fdtable := [Some i; Some o; Some e; Some (ReadEnd n); Some (WriteEnd n)] ++ replicate 11 None.

Lemma left_table : clear 4 (clear 3 (<[1%nat := Some (WriteEnd n)]> (clear 1 both))) = table (i, WriteEnd n, e).
Proof. done. Qed.
Lemma right_table : clear 4 (clear 3 (<[0%nat := Some (ReadEnd n)]> (clear 0 both))) = table (ReadEnd n, o, e).
Proof. done. Qed.
Lemma shell_table : clear 4 (clear 3 both) = table (i, o, e).
Proof. done. Qed.

Lemma left_child k m t m' : eval (Close 1 (Dup 4 (λ _, Close 3 (Close 4 k)))) both m t m' ↔
  eval k (table (i, WriteEnd n, e)) m t m'.
Proof. rewrite eval_close, (eval_dup _ _ _ (WriteEnd n) 1), !eval_close by done. by rewrite left_table. Qed.
Lemma right_child k m t m' : eval (Close 0 (Dup 3 (λ _, Close 3 (Close 4 k)))) both m t m' ↔
  eval k (table (ReadEnd n, o, e)) m t m'.
Proof. rewrite eval_close, (eval_dup _ _ _ (ReadEnd n) 0), !eval_close by done. by rewrite right_table. Qed.
Lemma shell_waits m t m' : eval (Close 3 (Close 4 (Wait (λ _, Wait (λ _, Exit))))) both m t m' ↔
  t = TWait (table (i, o, e)) (TWait (table (i, o, e)) TExit) ∧ m' = m.
Proof.
  rewrite !eval_close, shell_table, eval_wait. split.
  - intros (_ & t1 & -> & H). apply eval_wait in H as (_ & t2 & -> & H). by apply eval_exit in H as [-> ->].
  - intros [-> ->]. exists 0. eexists. split; [done|]. apply eval_wait. exists 0. eexists. split; [done|]. by apply eval_exit.
Qed.
End plumbing.

Lemma eval_pipe_sides l r i o e n t n' :
  eval (runcmd (Pipe l r)) (table (i, o, e)) n t n' ↔
    (t = TExit ∧ (n' = n ∨ n' = S n)) ∨
    (∃ t1, eval (runcmd l) (table (i, WriteEnd n, e)) (S n) t1 n' ∧ t = TFork t1 TExit) ∨
    (∃ t1 n1 t2, eval (runcmd l) (table (i, WriteEnd n, e)) (S n) t1 n1 ∧
       eval (runcmd r) (table (ReadEnd n, o, e)) n1 t2 n' ∧
       t = TFork t1 (TFork t2 (TWait (table (i, o, e)) (TWait (table (i, o, e)) TExit)))).
Proof.
  cbn [runcmd]. rewrite (eval_pipe _ _ 3 4) by done. rewrite eval_panic.
  change (<[4%nat := _]> _) with (both i o e n). change (Z.of_nat 3) with 3. change (Z.of_nat 4) with 4.
  rewrite eval_fork1 by (intros pid Hp; by rewrite (proj2 (Z.eqb_neq pid 0)) by lia). cbn [Z.eqb].
  setoid_rewrite left_child. setoid_rewrite eval_fork1; [|intros pid Hp; by rewrite (proj2 (Z.eqb_neq pid 0)) by lia].
  cbn [Z.eqb]. setoid_rewrite right_child. setoid_rewrite shell_waits. naive_solver.
Qed.

(** A command runs as it means, and every meaning is one of its runs. *)
Lemma eval_runcmd c : plumbed c → ∀ s n t n', eval (runcmd c) (table s) n t n' ↔ does c s n t n'.
Proof.
  induction c as [argv|c IH file mode fd|l IHl r IHr|l IHl r IHr|c IH]; cbn [plumbed]; intros Hp [[i o] e] n t n'.
  - cbn [runcmd]. destruct argv as [|a argv].
    + rewrite eval_exit. split; [intros [-> ->]; constructor|by inversion 1].
    + rewrite eval_exec, eval_print, eval_exit. split.
      * intros [[-> ->]|[-> ->]]; constructor.
      * inversion 1; auto.
  - destruct Hp as [Hfd Hp]. cbn [runcmd]. rewrite eval_close, (eval_open _ _ _ _ (Z.to_nat fd)) by (by destruct Hfd as [-> | ->]).
    rewrite (proj2 (Z.ltb_ge _ 0)) by lia. change (-1 <? 0) with true. cbn iota. rewrite eval_print, eval_exit.
    replace (<[Z.to_nat fd := _]> (clear fd _)) with (table (redirect fd (Opened file mode) (i, o, e)))
      by (by destruct Hfd as [-> | ->]).
    rewrite (IH Hp). split.
    + intros [H|[-> ->]]; by constructor.
    + inversion 1; auto.
  - destruct Hp as [Hl Hr]. rewrite eval_pipe_sides. setoid_rewrite (IHl Hl). setoid_rewrite (IHr Hr). split.
    + intros [[-> H]|[(t1 & H & ->)|(t1 & n1 & t2 & H1 & H2 & ->)]]; econstructor; eauto.
    + inversion 1; subst; eauto 10.
  - destruct Hp as [Hl Hr]. cbn [runcmd].
    rewrite eval_fork1 by (intros pid Hp; by rewrite (proj2 (Z.eqb_neq pid 0)) by lia). cbn [Z.eqb].
    setoid_rewrite eval_wait. setoid_rewrite (IHl Hl). setoid_rewrite (IHr Hr). split.
    + intros [(t1 & n1 & t2 & -> & H1 & r0 & t3 & -> & H2)|[-> ->]]; econstructor; eauto.
    + inversion 1; subst; [|auto]. left. do 3 eexists. split; [done|]. split; [done|]. exists 0. eauto.
  - cbn [runcmd]. rewrite eval_fork1 by (intros pid Hp'; by rewrite (proj2 (Z.eqb_neq pid 0)) by lia). cbn [Z.eqb].
    setoid_rewrite (IH Hp). setoid_rewrite eval_exit. split.
    + intros [(t1 & n1 & t2 & -> & H1 & -> & ->)|[-> ->]]; econstructor; eauto.
    + inversion 1; subst; [|auto]. left. eauto 10.
Qed.

(** ** The line that spells a command *)

Lemma spelled_plumbed c : spelled c → plumbed c.
Proof.
  induction c as [argv|c IH file mode fd|l IHl r IHr|l IHl r IHr|c IH]; cbn [spelled plumbed]; try tauto.
  intros [Hc [[= _ ->]|[= _ ->]]]; auto.
Qed.

(** C15: the line that spells a command does what the command means.  Reading
    the line, forking, and moving descriptors around with [close], [dup],
    [pipe] and [open] leads to exactly the processes that [does] allows for the
    command tree: the same programs with the same arguments, each with its
    input, output and error output and no other descriptor, in the same order
    of forks and waits. *)
Theorem shell_runs (c : cmd_of str) s n t n' : spelled c → Forall word_text (spans c) →
  eval (run_line (render (as_line (layout c)))) (table s) n t n' ↔ does c s n t n'.
Proof.
  intros Hc Hw. unfold run_line. set (l := render _).
  destruct (parsecmd_render c (4 * length l + 4) Hc Hw (le_n _)) as (c' & buf & i & E & Ec).
  change (parsecmd l (4 * length l + 4) 0%nat = Ok (c', buf) i) in E. rewrite E, Ec. by apply eval_runcmd, spelled_plumbed.
Qed.

(** ** Descriptors *)

(** The tables of the processes of a tree, while they run or wait. *)
Fixpoint tables (t : tree) : list fdtable :=
  match t with
  | TExit => []
  | TRun _ _ f => [f]
  | TFork t1 t2 => tables t1 ++ tables t2
  | TWait f t => f :: tables t
  end.

(** The pipe a file belongs to, if any. *)
Definition pipe_of (x : ofile) : option nat := match x with ReadEnd n | WriteEnd n => Some n | _ => None end.
Definition below (n : nat) (s : std) : Prop := let '(i, o, e) := s in ∀ x k, x = i ∨ x = o ∨ x = e → pipe_of x = Some k → (k < n)%nat.
Definition holds_file (f : fdtable) (x : ofile) : Prop := Some x ∈ f.

Lemma holds_table i o e x : holds_file (table (i, o, e)) x ↔ x = i ∨ x = o ∨ x = e.
Proof.
  unfold holds_file, table. rewrite elem_of_app, !elem_of_cons, elem_of_nil, elem_of_replicate. split.
  - intros [H|H]; [naive_solver|by destruct H].
  - naive_solver.
Qed.

Lemma does_grows c s n t n' : does c s n t n' → (n ≤ n')%nat.
Proof. induction 1; lia. Qed.

(** A table of exactly three descriptors, which are files of [s], opened by
    name, or pipes from [n] to [n']. *)
Definition fits (s : std) (n n' : nat) (f : fdtable) : Prop :=
  ∃ s', f = table s' ∧ ∀ x, holds_file f x →
    holds_file (table s) x ∨ (∃ name mode, x = Opened name mode) ∨ ∃ k, pipe_of x = Some k ∧ (n ≤ k < n')%nat.

Lemma fits_self s n n' : fits s n n' (table s).
Proof. exists s. auto. Qed.

Lemma fits_mono s s0 n n0 n' n0' l : (n0 ≤ n)%nat → (n' ≤ n0')%nat →
  (∀ x, holds_file (table s) x → holds_file (table s0) x ∨ (∃ name mode, x = Opened name mode) ∨
    ∃ k, pipe_of x = Some k ∧ (n0 ≤ k < n0')%nat) →
  Forall (fits s n n') l → Forall (fits s0 n0 n0') l.
Proof.
  intros Hn Hn' Hs Hl. eapply Forall_impl; [exact Hl|]. intros f (s' & -> & H). exists s'. split; [done|]. intros x Hx.
  destruct (H x Hx) as [Hx'|[Hx'|(k & Ek & Hk)]]; [auto|auto|]. right. right. exists k. split; [done|lia].
Qed.

Lemma does_fits c s n t n' : does c s n t n' → Forall (fits s n n') (tables t).
Proof.
  induction 1 as [a argv s n|argv s n|c file mode fd [[i o] e] n t n' _ IH| |l r s n t1 n1 t2 n2 H1 IH1 H2 IH2|
    |l r i o e n t1 n1 t2 n2 H1 IH1 H2 IH2|l r i o e n t1 n1 H1 IH1| |c s n t n' _ IH|]; cbn [tables]; try apply Forall_nil_2.
  - apply Forall_singleton, fits_self.
  - revert IH. apply fits_mono; [done|done|]. intros x Hx.
    unfold redirect in Hx. destruct (fd =? 0); rewrite holds_table in *; naive_solver.
  - apply does_grows in H1, H2. apply Forall_app. split; [|apply Forall_cons; split; [apply fits_self|]].
    + revert IH1. apply fits_mono; [lia|lia|auto].
    + revert IH2. apply fits_mono; [lia|lia|auto].
  - apply does_grows in H1, H2. rewrite !Forall_app, !Forall_cons. split_and!; try apply fits_self; [| |apply Forall_nil_2].
    + revert IH1. apply fits_mono; [lia|lia|]. intros x. rewrite !holds_table.
      intros [-> | [-> | ->]]; [auto| |auto]. right. right. exists n. split; [done|lia].
    + revert IH2. apply fits_mono; [lia|lia|]. intros x. rewrite !holds_table.
      intros [-> | [-> | ->]]; [|auto|auto]. right. right. exists n. split; [done|lia].
  - apply does_grows in H1. rewrite app_nil_r. revert IH1. apply fits_mono; [lia|lia|]. intros x. rewrite !holds_table.
    intros [-> | [-> | ->]]; [auto| |auto]. right. right. exists n. split; [done|lia].
  - by rewrite app_nil_r.
Qed.

(** No table of [l] has [x]. *)
Definition nowhere (x : ofile) (l : list fdtable) : Prop := Forall (λ f, ¬ holds_file f x) l.

Lemma fits_nowhere s n n' l x : Forall (fits s n n') l → ¬ holds_file (table s) x → (∃ k, pipe_of x = Some k ∧ (k < n)%nat) →
  nowhere x l.
Proof.
  intros Hl Hs (k & Ek & Hk). eapply Forall_impl; [exact Hl|]. intros f (s' & -> & H) Hx.
  destruct (H x Hx) as [?|[(? & ? & ->)|(k' & Ek' & ?)]]; [done|done|]. rewrite Ek in Ek'. simplify_eq. lia.
Qed.

(** C21: a pipeline can end.  Every program and every waiting shell of a run has
    exactly three descriptors.  Of the pipe the command makes, the left side
    never has the read end, the right side never the write end, and the shell
    that waits for both has neither: the reader sees end of file when the left
    side is done. *)
Theorem pipeline_ends l r i o e n t n' : plumbed (Pipe l r) → below n (i, o, e) →
  eval (runcmd (Pipe l r)) (table (i, o, e)) n t n' →
  Forall (fits (i, o, e) n n') (tables t) ∧
  ((t = TExit) ∨ (∃ t1, t = TFork t1 TExit ∧ nowhere (ReadEnd n) (tables t1)) ∨
   ∃ t1 t2 w, t = TFork t1 (TFork t2 w) ∧ nowhere (ReadEnd n) (tables t1) ∧ nowhere (WriteEnd n) (tables t2) ∧
     nowhere (ReadEnd n) (tables w) ∧ nowhere (WriteEnd n) (tables w)).
Proof.
  intros Hp Hb H. apply (eval_runcmd _ Hp) in H. split; [by apply does_fits in H|].
  assert (∀ x, pipe_of x = Some n → x ≠ i ∧ x ≠ o ∧ x ≠ e) as Hn.
  { intros x Ex. split_and!; intros ->; apply (Hb _ n) in Ex; auto; lia. }
  destruct (Hn (ReadEnd n) eq_refl) as (R1 & R2 & R3), (Hn (WriteEnd n) eq_refl) as (W1 & W2 & W3).
  assert (∀ t1 n1, does l (i, WriteEnd n, e) (S n) t1 n1 → nowhere (ReadEnd n) (tables t1)) as Left.
  { intros t1 n1 H1. eapply fits_nowhere; [by eapply does_fits| |exists n; split; [done|lia]].
    intros [?|[?|?]]%holds_table; done. }
  inversion H as [| | | | | |? ? ? ? ? ? t1 n1 t2 n2 H1 H2|? ? ? ? ? ? t1 n1 H1|? ? ? ? ? Hn'| |]; subst; [| |by left]; right.
  - right. exists t1, t2. eexists. split; [done|]. pose proof (does_grows _ _ _ _ _ H1). cbn [tables].
    split_and!; [by eapply Left| | |].
    + eapply fits_nowhere; [by eapply does_fits| |exists n; split; [done|lia]]. intros [?|[?|?]]%holds_table; done.
    + do 2 (apply Forall_cons; split; [intros [?|[?|?]]%holds_table; done|]). apply Forall_nil_2.
    + do 2 (apply Forall_cons; split; [intros [?|[?|?]]%holds_table; done|]). apply Forall_nil_2.
  - left. exists t1. split; [done|]. by eapply Left.
Qed.

(** ** The shell's own loop *)

(** The descriptors above the standard ones stay closed when the shell opens
    the console. *)
Lemma sh_open_three k a b c n t n' : eval (sh_open 4 k) ([a; b; c] ++ replicate 13 None) n t n' →
  ∃ a' b' c', eval k ([a'; b'; c'] ++ replicate 13 None) n t n'.
Proof.
  unfold sh_open. intros H.
  destruct a, b, c; repeat (eapply eval_open in H; [|reflexivity]; cbn in H; destruct H as [H|H]; [|do 3 eexists; exact H]);
    apply eval_close in H; do 3 eexists; exact H.
Qed.

(** [cd] takes the line without its last byte, be it a newline or not. *)
Theorem cd_chops p x : cd_path ([99; 100; 32] ++ p ++ [x]) = p.
Proof.
  unfold cd_path. rewrite !app_assoc, length_app. cbn [length]. rewrite Nat.add_sub.
  by rewrite take_app_length.
Qed.

(** ** The first process *)

(** The programs that run in a tree, with their descriptors. *)
Fixpoint programs (t : tree) : list (str * list str * fdtable) :=
  match t with
  | TExit => []
  | TRun p argv f => [(p, argv, f)]
  | TFork t1 t2 => programs t1 ++ programs t2
  | TWait _ t => programs t
  end.

Definition starts_sh (f : fdtable) (t : tree) : Prop := Forall (λ r, r = (text "sh", [text "sh"], f)) (programs t).

Lemma init_wait_starts m pid k f : (∀ n t n', eval k f n t n' → starts_sh f t) →
  ∀ n t n', eval (init_wait m pid k) f n t n' → starts_sh f t.
Proof.
  intros Hk. induction m as [|m IH]; intros n t n' H; cbn [init_wait] in H.
  - apply eval_exit in H as [-> _]. apply Forall_nil_2.
  - apply eval_wait in H as (r & t' & -> & H). destruct (_ && _); [|by apply Hk in H].
    apply eval_print in H. by apply IH in H.
Qed.

Lemma init_loop_starts m n f : ∀ k t k', eval (init_loop m n) f k t k' → starts_sh f t.
Proof.
  induction n as [|n IH]; intros k t k' H; cbn [init_loop] in H.
  - apply eval_exit in H as [-> _]. apply Forall_nil_2.
  - apply eval_print in H. inversion H as [| | | | | | | | | |? ? pid ? t1 n1 t2 n2 Hpid H1 H2|? ? ? ? ? H1| | | | |]; subst.
    + rewrite (proj2 (Z.ltb_ge pid 0)), (proj2 (Z.eqb_neq pid 0)) in H2 by lia. cbn [Z.ltb Z.eqb] in H1.
      unfold starts_sh. cbn [programs]. apply Forall_app. split; [|by eapply init_wait_starts].
      apply eval_exec in H1 as [[-> _]|H1]; [by apply Forall_singleton|].
      apply eval_print, eval_exit in H1 as [-> _]. apply Forall_nil_2.
    + cbn [Z.ltb] in H1. apply eval_print, eval_exit in H1 as [-> _]. apply Forall_nil_2.
Qed.

(** Every shell [init] starts has the console as its three descriptors, or no
    descriptor at all when the console cannot be opened. *)
Theorem init_starts m n k t k' : eval (init_main m n) (replicate NOFILE None) k t k' →
  let c := Opened (text "console") O_RDWR in starts_sh (table (c, c, c)) t ∨ starts_sh (replicate NOFILE None) t.
Proof.
  intros H c. unfold init_main in H. set (rest := Dup 0 _) in H.
  assert (∀ k t k', eval rest (Some c :: replicate 15 None) k t k' → starts_sh (table (c, c, c)) t) as Good.
  { intros k0 t0 k0' H0. unfold rest in H0.
    eapply eval_dup in H0; [|reflexivity..]. eapply eval_dup in H0; [|reflexivity..].
    inversion H0; subst. by eapply init_loop_starts. }
  assert (∀ k t k', eval rest (replicate NOFILE None) k t k' → starts_sh (replicate NOFILE None) t) as Bad.
  { intros k0 t0 k0' H0. unfold rest in H0. inversion H0; subst; [done|].
    match goal with H : eval (Dup _ _) _ _ _ _ |- _ => inversion H; subst; [done|] end.
    match goal with H : eval (Mknod _ _ _ _) _ _ _ _ |- _ => inversion H; subst end. by eapply init_loop_starts. }
  eapply eval_open in H; [|reflexivity]. destruct H as [H|H]; [left; by eapply Good|].
  change (-1 <? 0) with true in H. cbn iota in H. inversion H; subst.
  match goal with H : eval (Open _ _ _) _ _ _ _ |- _ => eapply eval_open in H; [|reflexivity]; destruct H as [H|H] end.
  - left. by eapply Good.
  - right. by eapply Bad.
Qed.

(** [a | b > f &] *)
Definition ex_line : cmd_of str := Back (Pipe (Exec [[97]]) (Redir (Exec [[98]]) [102] (Z.lor O_WRONLY O_CREATE) 1)).
Definition ex_std : std := (Inherited 0, Inherited 1, Inherited 2).

Lemma shell_runs_witness : ∃ t, eval (run_line (render (as_line (layout ex_line)))) (table ex_std) 0 t 1 ∧
  TRun [98] [[98]] (table (ReadEnd 0, Opened [102] (Z.lor O_WRONLY O_CREATE), Inherited 2)) = 
    match t with TFork (TFork _ (TFork r _)) _ => r | _ => TExit end.
Proof.
  eexists. split.
  - apply shell_runs.
    + cbn. unfold MAXARGS. split_and!; try lia. by right.
    + cbn. repeat constructor; done.
    + apply does_back. eapply does_pipe; [apply does_run|apply does_redir, does_run].
  - reflexivity.
Defined.

Lemma pipeline_ends_witness : ∃ t, eval (runcmd (Pipe (Exec [[97]]) (Exec [[98]]))) (table ex_std) 0 t 1 ∧
  Forall (fits ex_std 0 1) (tables t).
Proof.
  assert (eval (runcmd (Pipe (Exec [[97]]) (Exec [[98]]))) (table ex_std) 0
    (TFork (TRun [97] [[97]] (table (Inherited 0, WriteEnd 0, Inherited 2)))
      (TFork (TRun [98] [[98]] (table (ReadEnd 0, Inherited 1, Inherited 2)))
        (TWait (table ex_std) (TWait (table ex_std) TExit)))) 1) as H.
  { apply eval_runcmd; [done|]. apply does_pipe with (n1 := 1%nat); apply does_run. }
  eexists. split; [exact H|]. refine (proj1 (pipeline_ends _ _ _ _ _ _ _ _ _ _ H)); [done|].
  intros x k [-> | [-> | ->]]; done.
Defined.
