(* ===== verification/Libfs.v ===== *)
(** * File system images on the host (tools/libfs.c)

    The image file is mapped into memory: [im_blk] are its blocks and [im_top]
    their number.  Access outside the mapping is undefined.  An [inode_t]
    points into the inode blocks and is represented by the number of the
    inode; a field assignment replaces the [struct dinode] in its block.
    [fatal] and a failed [assert] stop with a message; the debugging messages
    are left out.  An out parameter is returned next to the result. *)

From S2P Require Import Prelude Bytes Spinlock Sched Bio BioSpec BufLayer Ondisk Log Txn CString Fs.

Module Libfs.

Record image := mkImage { im_blk : Z → block; im_top : Z }.

Definition rd (b : Z) : M image block :=
  i ← get;
  if (0 <=? b) && (b <? im_top i) then ret (im_blk i b) else halt Undef.
Definition wr (b : Z) (d : block) : M image unit :=
  i ← get;
  if (0 <=? b) && (b <? im_top i) then put (mkImage (<[b := d]> (im_blk i)) (im_top i)) else halt Undef.

Definition sblk : M image superblock := d ← rd 1; ret (sb_dec d).

(** ** Arithmetic, on [int] *)

Definition min (x y : Z) : Z := if x <? y then x else y.
Definition max (x y : Z) : Z := if x >? y then x else y.
Definition divceil (x y : Z) : Z := if x =? 0 then 0 else Z.quot (x - 1) y + 1.

Definition bitcount (x : Z) : Z :=
  let x := u32 (x - Z.land (Z.shiftr x 1) 0x55555555) in
  let x := u32 (Z.land x 0x33333333 + Z.land (Z.shiftr x 2) 0x33333333) in
  let x := Z.land (u32 (x + Z.shiftr x 4)) 0x0f0f0f0f in
  let x := u32 (x + Z.shiftr x 8) in
  let x := u32 (x + Z.shiftr x 16) in
  Z.land x 0x3f.

(** ** Blocks *)

Definition first_data (sb : superblock) : Z :=
  let Ni := u32 (sb_ninodes sb / IPB + 1) in
  let Nm := u32 (sb_size sb / (Z.of_nat BSIZE * 8) + 1) in
  u32 (2 + Ni + Nm).

Definition valid_data_block (b : Z) : M image bool :=
  sb ← sblk;
  let d := first_data sb in
  ret ((d <=? b) && (b <=? u32 (d + sb_nblocks sb - 1))).

Definition balloc_group (sb : superblock) (b : Z) : M image (option Z) :=
  bp ← rd (BBLOCK b (sb_ninodes sb));
  match free_bit (Z.to_nat BPB) 0 b (sb_size sb) bp with
  | Some bi =>
      wr (BBLOCK b (sb_ninodes sb)) (bit_on bp bi) ;;;
      v ← valid_data_block (b + bi);
      if negb v then panic "balloc: invalid data block number" else
      wr (b + bi) zero_block ;;;
      ret (Some (b + bi))
  | None => ret None
  end.

Definition balloc : M image Z :=
  sb ← sblk;
  r ← for_each (groups (sb_size sb)) (balloc_group sb);
  match r with
  | Some b => ret b
  | None => panic "balloc: no free blocks"
  end.

Definition bfree (b : Z) : M image Z :=
  v ← valid_data_block b;
  if negb v then ret (-1) else
  sb ← sblk;
  bp ← rd (BBLOCK b (sb_ninodes sb));
  wr (BBLOCK b (sb_ninodes sb)) (bit_off bp (b mod BPB)) ;;;
  ret 0.

(** ** Inodes *)

Definition root_inode_number : Z := 1.

Definition iload (ip : Z) : M image dinode := d ← rd (IBLOCK ip); ret (get_dinode ip d).
Definition istore (ip : Z) (di : dinode) : M image unit :=
  d ← rd (IBLOCK ip);
  wr (IBLOCK ip) (put_dinode ip di d).

Definition with_type (x : Z) (d : dinode) : dinode :=
  mkDinode (i16 x) (di_major d) (di_minor d) (di_nlink d) (di_ownerid d) (di_groupid d) (di_mode d)
    (di_size d) (di_addrs d).
Definition with_nlink (x : Z) (d : dinode) : dinode :=
  mkDinode (di_type d) (di_major d) (di_minor d) (i16 x) (di_ownerid d) (di_groupid d) (di_mode d)
    (di_size d) (di_addrs d).
Definition with_size (x : Z) (d : dinode) : dinode :=
  mkDinode (di_type d) (di_major d) (di_minor d) (di_nlink d) (di_ownerid d) (di_groupid d) (di_mode d)
    x (di_addrs d).
Definition with_addrs (x : list Z) (d : dinode) : dinode :=
  mkDinode (di_type d) (di_major d) (di_minor d) (di_nlink d) (di_ownerid d) (di_groupid d) (di_mode d)
    (di_size d) x.

(** An assignment to fields of [*ip]. *)
Definition iset (ip : Z) (f : dinode → dinode) : M image unit :=
  di ← iload ip;
  istore ip (f di).

Definition iget (inum : Z) : M image (option Z) :=
  sb ← sblk;
  ret (if (0 <? inum) && (inum <? sb_ninodes sb) then Some inum else None).

(** [bp <= ip && ip < bp + IPB] for the [i]th inode block. *)
Definition geti (ip : Z) : M image Z :=
  sb ← sblk;
  r ← for_each (seq 0 (Z.to_nat (sb_ninodes sb / IPB + 1))) (λ i,
    let bp := Z.of_nat i * IPB in
    ret (if (bp <=? ip) && (ip <? bp + IPB) then Some (ip - bp + Z.of_nat i * IPB) else None));
  ret (default 0 r).

Definition ialloc (type : Z) : M image Z :=
  sb ← sblk;
  r ← for_each (seqZ 1 (sb_ninodes sb - 1)) (λ inum,
    di ← iload inum;
    if di_type di =? 0 then
      istore inum (with_type type zero_dinode) ;;;
      ret (Some inum)
    else ret None);
  match r with
  | Some ip => ret ip
  | None => panic "ialloc: cannot allocate"
  end.

Definition ifree (inum : Z) : M image Z :=
  r ← iget inum;
  match r with
  | None => ret (-1)
  | Some ip => iset ip (with_type 0) ;;; ret 0
  end.

(** [if (ip->addrs[n] == 0) ip->addrs[n] = balloc(img)]. *)
Definition addr_of (ip : Z) (n : nat) : M image Z :=
  di ← iload ip;
  a ← need (di_addrs di !! n);
  if a =? 0 then
    a ← balloc;
    iset ip (λ d, with_addrs (<[n := a]> (di_addrs d)) d) ;;;
    ret a
  else ret a.

Definition bmap (ip n : Z) : M image Z :=
  if n <? Z.of_nat NDIRECT then addr_of ip (Z.to_nat n) else
  let k := n - Z.of_nat NDIRECT in
  if Z.of_nat NINDIRECT <=? k then ret 0 else
  iaddr ← addr_of ip NDIRECT;
  iblock ← rd iaddr;
  let o := (4 * Z.to_nat k)%nat in
  if get32 o iblock =? 0 then
    a ← balloc;
    iblock ← rd iaddr;
    wr iaddr (put32 o a iblock) ;;;
    ret a
  else ret (get32 o iblock).

Abbreviation BS := (Z.of_nat BSIZE).

(** The bytes one turn copies; the arguments of [min] are [int]. *)
Definition turn_len (n t off : Z) : Z := u32 (min (i32 (n - t)) (BS - off mod BS)).

Definition read_turn (ip n : Z) (st : Z * Z * list Z) : M image (Z * Z * list Z + Z * list Z) :=
  let '(t, off, acc) := st in
  if t <? n then
    b ← bmap ip (off / BS);
    v ← valid_data_block b;
    if negb v then ret (inr (t, acc)) else
    let m := turn_len n t off in
    if BS - off mod BS <? m then halt Undef else
    d ← rd b;
    ret (inl (u32 (t + m), u32 (off + m), acc ++ slice (Z.to_nat (off mod BS)) (Z.to_nat m) d))
  else ret (inr (t, acc)).

(** The result and the bytes stored at [buf]. *)
Definition iread (ip n off : Z) : M image (Z * list Z) :=
  di ← iload ip;
  if di_type di =? T_DEV then ret (-1, []) else
  if (off >? di_size di) || (u32 (off + n) <? off) then ret (-1, []) else
  let n := if u32 (off + n) >? di_size di then u32 (di_size di - off) else n in
  r ← loopM (S (Z.to_nat n)) (read_turn ip n) (0, off, []);
  ret (i32 r.1, r.2).

Definition write_turn (ip : Z) (buf : list Z) (n : Z) (st : Z * Z) : M image (Z * Z + Z * Z) :=
  let '(t, off) := st in
  if t <? n then
    b ← bmap ip (off / BS);
    v ← valid_data_block b;
    if negb v then ret (inr (t, off)) else
    let m := turn_len n t off in
    if BS - off mod BS <? m then halt Undef else
    d ← rd b;
    wr b (splice (Z.to_nat (off mod BS)) (slice (Z.to_nat t) (Z.to_nat m) buf) d) ;;;
    ret (inl (u32 (t + m), u32 (off + m)))
  else ret (inr (t, off)).

(** [n] is the length of [buf]. *)
Definition iwrite (ip : Z) (buf : list Z) (off : Z) : M image Z :=
  let n := Z.of_nat (length buf) in
  di ← iload ip;
  if di_type di =? T_DEV then ret (-1) else
  if (off >? di_size di) || (u32 (off + n) <? off) || (u32 (off + n) >? MAXBYTES) then ret (-1) else
  r ← loopM (S (length buf)) (write_turn ip buf n) (0, off);
  let '(t, off) := r in
  di ← iload ip;
  whenM ((0 <? t) && (off >? di_size di)) (iset ip (with_size off)) ;;;
  ret (i32 t).

(** [bfree(img, ip->addrs[i]); ip->addrs[i] = 0]. *)
Definition free_addr (ip : Z) (i : nat) : M image unit :=
  di ← iload ip;
  a ← need (di_addrs di !! i);
  bfree a ;;;
  iset ip (λ d, with_addrs (<[i := 0]> (di_addrs d)) d).
Definition free_entry (iaddr : Z) (i : nat) : M image unit :=
  iblock ← rd iaddr;
  if (NINDIRECT <=? i)%nat then halt Undef else
  bfree (get32 (4 * i) iblock) ;;;
  iblock ← rd iaddr;
  wr iaddr (put32 (4 * i) 0 iblock).

(** The blocks from [k] up to [n] of a file that has [n]. *)
Definition shrink (ip n k : Z) : M image unit :=
  let nd := Z.to_nat (min n (Z.of_nat NDIRECT)) in
  let kd := Z.to_nat (min k (Z.of_nat NDIRECT)) in
  for_all (seq kd (nd - kd)) (free_addr ip) ;;;
  whenM (n >? Z.of_nat NDIRECT) (
    di ← iload ip;
    iaddr ← need (di_addrs di !! NDIRECT);
    if iaddr =? 0 then panic "assert" else
    let ni := Z.to_nat (max (n - Z.of_nat NDIRECT) 0) in
    let ki := Z.to_nat (max (k - Z.of_nat NDIRECT) 0) in
    for_all (seq ki (ni - ki)) (free_entry iaddr) ;;;
    whenM (ki =? 0)%nat (
      bfree iaddr ;;;
      iset ip (λ d, with_addrs (<[NDIRECT := 0]> (di_addrs d)) d))).

Definition fill_turn (ip n : Z) (st : Z * Z) : M image (Z * Z + unit) :=
  let '(t, off) := st in
  if t <? n then
    b ← bmap ip (off / BS);
    let m := turn_len n t off in
    d ← rd b;
    wr b (splice (Z.to_nat (off mod BS)) (replicate (Z.to_nat m) 0) d) ;;;
    ret (inl (u32 (t + m), u32 (off + m)))
  else ret (inr tt).

Definition itruncate (ip size : Z) : M image Z :=
  di ← iload ip;
  if di_type di =? T_DEV then ret (-1) else
  if size >? MAXBYTES then ret (-1) else
  (if size <? di_size di then shrink ip (divceil (i32 (di_size di)) BS) (divceil (i32 size) BS)
   else
     let n := size - di_size di in
     loopM (S (Z.to_nat n)) (fill_turn ip n) (0, di_size di)) ;;;
  iset ip (with_size size) ;;;
  ret 0.

(** ** Paths *)

Definition is_empty (s : list Z) : bool := peek s 0 =? 0.
Definition is_sep (c : Z) : bool := c =? 47.

Fixpoint skip_seps (path : list Z) : list Z :=
  match path with
  | c :: path' => if is_sep c then skip_seps path' else path
  | [] => []
  end.

(** The characters up to a separator or the end, and what follows. *)
Fixpoint element (path : list Z) : list Z * list Z :=
  match path with
  | c :: path' =>
      if (c =? 0) || is_sep c then ([], path)
      else let '(e, rest) := element path' in (c :: e, rest)
  | [] => ([], [])
  end.

(** The rest of the path and the string in [name], whose byte [DIRSIZ] is null. *)
Definition skipelem (path : list Z) : list Z * list Z :=
  let '(e, rest) := element (skip_seps path) in
  (rest, take DIRSIZ e).

(** The last element, and the number of characters before it; the loop takes
    at least one character in a turn. *)
Fixpoint split_loop (fuel : nat) (path s : list Z) : list Z :=
  match fuel with
  | O => s
  | S k => if is_empty path then s
           else let p := skip_seps path in split_loop k (element p).2 p
  end.
Definition splitpath (path : list Z) (size : Z) : list Z * list Z :=
  let s := split_loop (S (length path)) path path in
  let n := min (Z.of_nat (length path - length s)) (size - 1) in
  (s, take (Z.to_nat n) path).

(** ** Directories *)

Definition DE : Z := Z.of_nat DIRENT.

Definition dlookup_turn (dp : Z) (name : list Z) (off : Z)
    : M image (Z + option Z * option Z) :=
  di ← iload dp;
  if off <? di_size di then
    r ← iread dp DE off;
    if negb (r.1 =? DE) then ret (inr (None, None)) else
    let de := dirent_dec r.2 in
    if strncmp name (de_name de) DIRSIZ =? 0 then
      ip ← iget (de_inum de);
      ret (inr (ip, Some off))
    else ret (inl (u32 (off + DE)))
  else ret (inr (None, None)).

(** The inode found, and the offset of the entry if a name matched. *)
Definition dlookup (dp : Z) (name : list Z) : M image (option Z * option Z) :=
  di ← iload dp;
  if negb (di_type di =? T_DIR) then panic "assert" else
  loopM (S (Z.to_nat (di_size di))) (dlookup_turn dp name) 0.

Definition daddent_turn (dp : Z) (name : list Z) (off : Z) : M image (Z + option Z) :=
  di ← iload dp;
  if off <? di_size di then
    r ← iread dp DE off;
    if negb (r.1 =? DE) then ret (inr None) else
    let de := dirent_dec r.2 in
    if de_inum de =? 0 then ret (inr (Some off)) else
    if strncmp (de_name de) name DIRSIZ =? 0 then ret (inr None) else
    ret (inl (u32 (off + DE)))
  else ret (inr (Some off)).

Definition DOT : list Z := [46].
Definition DOTDOT : list Z := [46; 46].

Definition daddent (dp : Z) (name : list Z) (ip : Z) : M image Z :=
  di ← iload dp;
  r ← loopM (S (Z.to_nat (di_size di))) (daddent_turn dp name) 0;
  match r with
  | None => ret (-1)
  | Some off =>
      inum ← geti ip;
      w ← iwrite dp (dirent_enc (mkDirent (u16 inum) (strncpy name DIRSIZ))) off;
      if negb (w =? DE) then ret (-1) else
      whenM (negb (strncmp name DOT DIRSIZ =? 0)) (iset ip (λ d, with_nlink (di_nlink d + 1) d)) ;;;
      ret 0
  end.

Definition dmkparlink (pip cip : Z) : M image Z :=
  pd ← iload pip;
  if negb (di_type pd =? T_DIR) then ret (-1) else
  cd ← iload cip;
  if negb (di_type cd =? T_DIR) then ret (-1) else
  r ← dlookup cip DOTDOT;
  off ← need r.2;
  inum ← geti pip;
  w ← iwrite cip (dirent_enc (mkDirent (u16 inum) (strncpy DOTDOT DIRSIZ))) off;
  if negb (w =? DE) then ret (-1) else
  iset pip (λ d, with_nlink (di_nlink d + 1) d) ;;;
  ret 0.

(** [assert(path != NULL && rp != NULL && rp->type == T_DIR)]. *)
Definition assert_dir (rp : Z) : M image unit :=
  di ← iload rp;
  if di_type di =? T_DIR then ret tt else panic "assert".

Definition ilookup_turn (st : Z * list Z) : M image (Z * list Z + option Z) :=
  let '(rp, path) := st in
  assert_dir rp ;;;
  let '(path, name) := skipelem path in
  if is_empty name then ret (inr (Some rp)) else
  r ← dlookup rp name;
  match r.1 with
  | None => ret (inr None)
  | Some ip =>
      if is_empty path then ret (inr (Some ip)) else
      di ← iload ip;
      if negb (di_type di =? T_DIR) then ret (inr None) else ret (inl (ip, path))
  end.
Definition ilookup (rp : Z) (path : list Z) : M image (option Z) :=
  loopM (S (length path)) ilookup_turn (rp, path).

(** The new file in the directory [rp]. *)
Definition create_in (rp : Z) (name : list Z) (type : Z) : M image Z :=
  ip ← ialloc type;
  daddent rp name ip ;;;
  di ← iload ip;
  whenM (di_type di =? T_DIR) (daddent ip DOT ip ;;; daddent ip DOTDOT rp ;;; ret tt) ;;;
  ret ip.

Definition icreat_turn (type : Z) (st : Z * list Z) : M image (Z * list Z + option (Z * Z)) :=
  let '(rp, path) := st in
  assert_dir rp ;;;
  let '(path, name) := skipelem path in
  if is_empty name then ret (inr None) else
  r ← dlookup rp name;
  if is_empty path then
    match r.1 with
    | Some _ => ret (inr None)
    | None => ip ← create_in rp name type; ret (inr (Some (ip, rp)))
    end
  else
    match r.1 with
    | None => ret (inr None)
    | Some ip =>
        di ← iload ip;
        if negb (di_type di =? T_DIR) then ret (inr None) else ret (inl (ip, path))
    end.
(** The file and the directory it is in. *)
Definition icreat (rp : Z) (path : list Z) (type : Z) : M image (option (Z * Z)) :=
  loopM (S (length path)) (icreat_turn type) (rp, path).

(** A read that fails leaves the rest of [de] as it was. *)
Definition emptydir_turn (dp : Z) (st : Z * Z * list Z) : M image (Z * Z * list Z + bool) :=
  let '(nent, off, de) := st in
  di ← iload dp;
  if off <? di_size di then
    r ← iread dp DE off;
    let de := r.2 ++ drop (length r.2) de in
    if (length de <? 2)%nat then halt Undef else
    ret (inl (if negb (get16 0 de =? 0) then nent + 1 else nent, u32 (off + DE), de))
  else ret (inr (nent =? 2)).
Definition emptydir (dp : Z) : M image bool :=
  di ← iload dp;
  loopM (S (Z.to_nat (di_size di))) (emptydir_turn dp) (0, 0, []).

(** Erasing the entry at [off] of [rp], which names [ip]. *)
Definition unlink_at (rp ip off : Z) (name : list Z) : M image Z :=
  if (strncmp name DOT DIRSIZ =? 0) || (strncmp name DOTDOT DIRSIZ =? 0) then ret (-1) else
  w ← iwrite rp (replicate DIRENT 0) off;
  if negb (w =? DE) then ret (-1) else
  di ← iload ip;
  (if di_type di =? T_DIR then
     r ← dlookup ip DOTDOT;
     whenM (bool_decide (r.1 = Some rp)) (iset rp (λ d, with_nlink (di_nlink d - 1) d))
   else ret tt) ;;;
  iset ip (λ d, with_nlink (di_nlink d - 1) d) ;;;
  di ← iload ip;
  whenM (di_nlink di =? 0) (
    whenM (negb (di_type di =? T_DEV)) (itruncate ip 0 ;;; ret tt) ;;;
    inum ← geti ip;
    ifree inum ;;; ret tt) ;;;
  ret 0.

Definition iunlink_turn (st : Z * list Z) : M image (Z * list Z + Z) :=
  let '(rp, path) := st in
  assert_dir rp ;;;
  let '(path, name) := skipelem path in
  if is_empty name then ret (inr (-1)) else
  r ← dlookup rp name;
  match r.1 with
  | None => ret (inr (-1))
  | Some ip =>
      if is_empty path then
        off ← need r.2;
        v ← unlink_at rp ip off name;
        ret (inr v)
      else
        di ← iload ip;
        if negb (di_type di =? T_DIR) then ret (inr (-1)) else ret (inl (ip, path))
  end.
Definition iunlink (rp : Z) (path : list Z) : M image Z :=
  loopM (S (length path)) iunlink_turn (rp, path).
End Libfs.
