(* ===== verification/Opfs.v ===== *)
(** * Commands on file system images (tools/opfs.c)

    A command is a function of the image that returns its exit status.  What
    [do_get] writes to the standard output and the numbers that [do_diskinfo],
    [do_info] and [do_ls] print are returned; the results of the successive
    [read]s of the standard input are an argument of [do_put], with [None] for
    an error.  Usage and error messages are left out, and [main] starts from
    the mapped image. *)

From S2P Require Import Prelude Bytes Spinlock Sched Bio BioSpec BufLayer Ondisk Log Txn CString Fs Libfs Mkfs.

Module Opfs.
Import Libfs.

Definition SUCCESS : Z := 0.
Definition FAILURE : Z := 1.
Definition BUFSIZE : Z := 1024.

Definition root : Z := root_inode_number.

(** ** Reports *)

(** A sum over some block numbers. *)
Fixpoint sum_over {A} (l : list A) (f : A → M image Z) : M image Z :=
  match l with
  | [] => ret 0
  | x :: l' => a ← f x; b ← sum_over l' f; ret (a + b)
  end.

Definition Zsum (l : list Z) : Z := foldr Z.add 0 l.

(** The number of blocks marked in the bitmap. *)
Definition used_blocks (Ni Nm : Z) : M image Z :=
  sum_over (seqZ (Ni + 2) Nm) (λ b, d ← rd b; ret (Zsum (bitcount <$> d))).

(** The inodes of a type in the inode blocks. *)
Definition inodes_of (Ni type : Z) : M image Z :=
  sum_over (seqZ 2 Ni) (λ b,
    d ← rd b;
    ret (Zsum ((λ i, if di_type (get_dinode (Z.of_nat i) d) =? type then 1 else 0) <$> seq 0 8))).

Record diskinfo := mkInfo {
  dk_blocks : Z; dk_ni : Z; dk_ninodes : Z; dk_nm : Z; dk_nd : Z; dk_nl : Z;
  dk_used : Z; dk_dirs : Z; dk_files : Z; dk_devs : Z
}.

Definition do_diskinfo : M image diskinfo :=
  sb ← sblk;
  let N := sb_size sb in
  let Ni := u32 (sb_ninodes sb / IPB + 1) in
  let Nm := u32 (N / (BS * 8) + 1) in
  nblocks ← used_blocks Ni Nm;
  n_dirs ← inodes_of Ni T_DIR;
  n_files ← inodes_of Ni T_FILE;
  n_devs ← inodes_of Ni T_DEV;
  ret (mkInfo N Ni (sb_ninodes sb) Nm (sb_nblocks sb) (sb_nlog sb) nblocks n_dirs n_files n_devs).

(** The addresses up to the first null. *)
Fixpoint nonzero (l : list Z) : list Z :=
  match l with
  | a :: l' => if a =? 0 then [] else a :: nonzero l'
  | [] => []
  end.

(** The inode number, the inode and its block numbers. *)
Definition do_info (path : list Z) : M image (option (Z * dinode * list Z)) :=
  r ← ilookup root path;
  match r with
  | None => ret None
  | Some ip =>
      inum ← geti ip;
      di ← iload ip;
      if negb (di_size di >? 0) then ret (Some (inum, di, [])) else
      let direct := nonzero (take NDIRECT (di_addrs di)) in
      iaddr ← need (di_addrs di !! NDIRECT);
      if iaddr =? 0 then ret (Some (inum, di, direct)) else
      iblock ← rd iaddr;
      ret (Some (inum, di, direct ++ iaddr :: nonzero ((λ i, get32 (4 * i) iblock) <$> seq 0 NINDIRECT)))
  end.

(** A line of [ls]: name, type, number and size. *)
Definition ls_turn (ip : Z) (st : Z * list (list Z * Z * Z * Z))
    : M image (Z * list (list Z * Z * Z * Z) + Z * list (list Z * Z * Z * Z)) :=
  let '(off, acc) := st in
  di ← iload ip;
  if off <? di_size di then
    r ← iread ip DE off;
    if negb (r.1 =? DE) then ret (inr (FAILURE, acc)) else
    let de := dirent_dec r.2 in
    if de_inum de =? 0 then ret (inl (u32 (off + DE), acc)) else
    p ← iget (de_inum de);
    p ← need p;
    pd ← iload p;
    ret (inl (u32 (off + DE), acc ++ [(cstr (de_name de), di_type pd, de_inum de, di_size pd)]))
  else ret (inr (SUCCESS, acc)).

Definition do_ls (path : list Z) : M image (Z * list (list Z * Z * Z * Z)) :=
  r ← ilookup root path;
  match r with
  | None => ret (FAILURE, [])
  | Some ip =>
      di ← iload ip;
      if di_type di =? T_DIR then loopM (S (Z.to_nat (di_size di))) (ls_turn ip) (0, [])
      else inum ← geti ip; ret (SUCCESS, [(path, di_type di, inum, di_size di)])
  end.

(** ** Copying in and out *)

Definition get_turn (ip : Z) (st : Z * list Z) : M image (Z * list Z + Z * list Z) :=
  let '(off, out) := st in
  di ← iload ip;
  if off <? di_size di then
    r ← iread ip BUFSIZE off;
    if r.1 <? 0 then ret (inr (FAILURE, out)) else
    ret (inl (u32 (off + BUFSIZE), out ++ r.2))
  else ret (inr (SUCCESS, out)).

Definition do_get (path : list Z) : M image (Z * list Z) :=
  r ← ilookup root path;
  match r with
  | None => ret (FAILURE, [])
  | Some ip =>
      di ← iload ip;
      loopM (S (Z.to_nat (di_size di))) (get_turn ip) (0, [])
  end.

(** The destination of [do_put]. *)
Definition put_dest (path : list Z) : M image (option Z) :=
  r ← ilookup root path;
  match r with
  | None =>
      c ← icreat root path T_FILE;
      ret (match c with Some (ip, _) => Some ip | None => None end)
  | Some ip =>
      di ← iload ip;
      if negb (di_type di =? T_FILE) then ret None else
      itruncate ip 0 ;;; ret (Some ip)
  end.

(** A read at the end of the input brings no bytes. *)
Definition put_turn (ip : Z) (st : Z * list (option (list Z))) : M image (Z * list (option (list Z)) + Z) :=
  let '(off, reads) := st in
  if off <? MAXBYTES then
    match default (Some []) (head reads) with
    | None => ret (inr FAILURE)
    | Some buf =>
        w ← iwrite ip buf off;
        if negb (w =? Z.of_nat (length buf)) then ret (inr FAILURE) else
        if Z.of_nat (length buf) <? BUFSIZE then ret (inr SUCCESS) else
        ret (inl (u32 (off + BUFSIZE), tail reads))
    end
  else ret (inr SUCCESS).

Definition do_put (path : list Z) (reads : list (option (list Z))) : M image Z :=
  r ← put_dest path;
  match r with
  | None => ret FAILURE
  | Some ip => loopM (S (Z.to_nat MAXBYTES)) (put_turn ip) (0, reads)
  end.

Definition do_rm (path : list Z) : M image Z :=
  r ← ilookup root path;
  match r with
  | None => ret FAILURE
  | Some ip =>
      di ← iload ip;
      if di_type di =? T_DIR then ret FAILURE else
      u ← iunlink root path;
      ret (if u <? 0 then FAILURE else SUCCESS)
  end.

(** The destination of [do_cp]. *)
Definition cp_dest (spath dpath : list Z) : M image (option Z) :=
  d ← ilookup root dpath;
  let '(dname, ddir) := splitpath dpath BUFSIZE in
  match d with
  | None =>
      if is_empty dname then ret None else
      dd ← ilookup root ddir;
      match dd with
      | None => ret None
      | Some ddip =>
          di ← iload ddip;
          if negb (di_type di =? T_DIR) then ret None else
          c ← icreat ddip dname T_FILE;
          ret (fst <$> c)
      end
  | Some dip =>
      di ← iload dip;
      if di_type di =? T_DIR then
        let '(sname, _) := splitpath spath BUFSIZE in
        c ← icreat dip sname T_FILE;
        ret (fst <$> c)
      else if di_type di =? T_FILE then itruncate dip 0 ;;; ret (Some dip)
      else if di_type di =? T_DEV then ret None
      else ret (Some dip)
  end.

Definition cp_turn (sip dip : Z) (off : Z) : M image (Z + Z) :=
  di ← iload sip;
  if off <? di_size di then
    r ← iread sip BUFSIZE off;
    if r.1 <? 0 then ret (inr FAILURE) else
    w ← iwrite dip r.2 off;
    if negb (w =? r.1) then ret (inr FAILURE) else
    ret (inl (u32 (off + BUFSIZE)))
  else ret (inr SUCCESS).

Definition do_cp (spath dpath : list Z) : M image Z :=
  r ← ilookup root spath;
  match r with
  | None => ret FAILURE
  | Some sip =>
      di ← iload sip;
      if negb (di_type di =? T_FILE) then ret FAILURE else
      d ← cp_dest spath dpath;
      match d with
      | None => ret FAILURE
      | Some dip =>
          di ← iload sip;
          loopM (S (Z.to_nat (di_size di))) (cp_turn sip dip) 0
      end
  end.

(** ** Names *)

(** [mv] onto the entry [ip] that the directory [dip] has under the name. *)
Definition mv_over (dip ip sip : Z) (sname spath : list Z) : M image Z :=
  di ← iload ip;
  sd ← iload sip;
  if di_type di =? T_DIR then
    if negb (di_type sd =? T_DIR) then ret FAILURE else
    e ← emptydir ip;
    if negb e then ret FAILURE else
    iunlink dip sname ;;;
    daddent dip sname sip ;;;
    iunlink root spath ;;;
    dmkparlink dip sip ;;;
    ret SUCCESS
  else if di_type di =? T_FILE then
    if negb (di_type sd =? T_FILE) then ret FAILURE else
    iunlink dip sname ;;;
    daddent dip sname sip ;;;
    iunlink root spath ;;;
    ret SUCCESS
  else ret FAILURE.

(** The new entry, the removal of the old one, and the new parent of a directory. *)
Definition mv_into (dp sip : Z) (name spath : list Z) : M image Z :=
  daddent dp name sip ;;;
  iunlink root spath ;;;
  sd ← iload sip;
  whenM (di_type sd =? T_DIR) (dmkparlink dp sip ;;; ret tt) ;;;
  ret SUCCESS.

Definition do_mv (spath dpath : list Z) : M image Z :=
  r ← ilookup root spath;
  match r with
  | None => ret FAILURE
  | Some sip =>
      if sip =? root then ret FAILURE else
      d ← ilookup root dpath;
      let '(dname, ddir) := splitpath dpath BUFSIZE in
      match d with
      | Some dip =>
          di ← iload dip;
          if di_type di =? T_DIR then
            let '(sname, _) := splitpath spath BUFSIZE in
            r ← dlookup dip sname;
            match r.1 with
            | Some ip => mv_over dip ip sip sname spath
            | None => mv_into dip sip sname spath
            end
          else if di_type di =? T_FILE then
            sd ← iload sip;
            if negb (di_type sd =? T_FILE) then ret FAILURE else
            iunlink root dpath ;;;
            p ← ilookup root ddir;
            match p with
            | None => panic "assert"
            | Some ip => assert_dir ip ;;; daddent ip dname sip ;;; iunlink root spath ;;; ret SUCCESS
            end
          else ret FAILURE
      | None =>
          if is_empty dname then ret FAILURE else
          p ← ilookup root ddir;
          match p with
          | None => ret FAILURE
          | Some ip =>
              pd ← iload ip;
              if negb (di_type pd =? T_DIR) then ret FAILURE else mv_into ip sip dname spath
          end
      end
  end.

(** The directory and the name of a new link. *)
Definition ln_dest (dip : Z) (dname spath : list Z) : M image (option (Z * list Z)) :=
  let '(sname, _) := splitpath spath BUFSIZE in
  if is_empty dname then
    r ← dlookup dip sname;
    ret (match r.1 with Some _ => None | None => Some (dip, sname) end)
  else
    r ← dlookup dip dname;
    match r.1 with
    | None => ret (Some (dip, dname))
    | Some ip =>
        di ← iload ip;
        ret (if negb (di_type di =? T_DIR) then None else Some (ip, sname))
    end.

Definition do_ln (spath dpath : list Z) : M image Z :=
  r ← ilookup root spath;
  match r with
  | None => ret FAILURE
  | Some sip =>
      sd ← iload sip;
      if negb (di_type sd =? T_FILE) then ret FAILURE else
      let '(dname, ddir) := splitpath dpath BUFSIZE in
      d ← ilookup root ddir;
      match d with
      | None => ret FAILURE
      | Some dip =>
          di ← iload dip;
          if negb (di_type di =? T_DIR) then ret FAILURE else
          t ← ln_dest dip dname spath;
          match t with
          | None => ret FAILURE
          | Some (dip, dname) =>
              a ← daddent dip dname sip;
              ret (if a <? 0 then FAILURE else SUCCESS)
          end
      end
  end.

Definition do_mkdir (path : list Z) : M image Z :=
  r ← ilookup root path;
  match r with
  | Some _ => ret FAILURE
  | None =>
      c ← icreat root path T_DIR;
      ret (match c with Some _ => SUCCESS | None => FAILURE end)
  end.

Definition do_rmdir (path : list Z) : M image Z :=
  r ← ilookup root path;
  match r with
  | None => ret FAILURE
  | Some ip =>
      di ← iload ip;
      if negb (di_type di =? T_DIR) then ret FAILURE else
      e ← emptydir ip;
      if negb e then ret FAILURE else
      u ← iunlink root path;
      ret (if u <? 0 then FAILURE else SUCCESS)
  end.

(** ** The command line *)

(** What a command writes to the standard output. *)
Inductive report :=
  | Silent
  | Disk (d : diskinfo)
  | Inode (i : Z * dinode * list Z)
  | Lines (l : list (list Z * Z * Z * Z))
  | Raw (l : list Z).

Definition silent (m : M image Z) : M image (Z * report) := r ← m; ret (r, Silent).

(** The entry of [cmd_table] for the name; each function checks [argc]. *)
Definition exec_cmd (reads : list (option (list Z))) (cmd : list Z) (argv : list (list Z))
    : M image (Z * report) :=
  let named s := bool_decide (cmd = Mkfs.chars s) in
  let none (f : M image (Z * report)) := match argv with [] => f | _ => ret (FAILURE, Silent) end in
  let one (f : list Z → M image (Z * report)) :=
    match argv with [path] => f path | _ => ret (FAILURE, Silent) end in
  let two (f : list Z → list Z → M image (Z * report)) :=
    match argv with [spath; dpath] => f spath dpath | _ => ret (FAILURE, Silent) end in
  if named "diskinfo" then none (d ← do_diskinfo; ret (SUCCESS, Disk d)) else
  if named "info" then
    one (λ p, i ← do_info p; ret (match i with Some i => (SUCCESS, Inode i) | None => (FAILURE, Silent) end)) else
  if named "ls" then one (λ p, r ← do_ls p; ret (r.1, Lines r.2)) else
  if named "get" then one (λ p, r ← do_get p; ret (r.1, Raw r.2)) else
  if named "put" then one (λ p, silent (do_put p reads)) else
  if named "rm" then one (λ p, silent (do_rm p)) else
  if named "cp" then two (λ s d, silent (do_cp s d)) else
  if named "mv" then two (λ s d, silent (do_mv s d)) else
  if named "ln" then two (λ s d, silent (do_ln s d)) else
  if named "mkdir" then one (λ p, silent (do_mkdir p)) else
  if named "rmdir" then one (λ p, silent (do_rmdir p)) else
  ret (FAILURE, Silent).

(** [fatal] jumps back to [main] with the image as it is then; a failed
    [assert] ends the program. *)
Definition main (reads : list (option (list Z))) (argv : list (list Z)) : M image (Z * report) :=
  match argv with
  | _ :: _ :: cmd :: args => λ im,
      match exec_cmd reads cmd args im with
      | Stop (Panic msg) im' =>
          if bool_decide (msg = "assert"%string) then Stop (Panic msg) im' else Ok (FAILURE, Silent) im'
      | r => r
      end
  | _ => ret (FAILURE, Silent)
  end.
End Opfs.
