(* ===== verification/LibfsThms.v ===== *)
(** * File system images on the host: correctness (tools/libfs.c)

    [bitcount] counts bits.  On an image with a well-formed file, [bmap],
    [iread] and [iwrite] implement the same file as the kernel's [bmap],
    [readi] and [writei]: both are described by the bytes [fbytes] of the
    file, so what the tool writes is what the kernel reads. *)

From S2P Require Import Prelude Bytes Spinlock Sched Bio BioSpec BufLayer Ondisk Log Txn CString Fs FsAlloc FsMap FsFile FsRw Boot FsThms Libfs.

From Stdlib Require Import FunctionalExtensionality.

Import Libfs.

(** ** Counting bits *)

(** The sum of the [n] low binary digits. *)
Fixpoint ones (n : nat) (x : Z) : Z :=
  match n with O => 0 | S k => x mod 2 + ones k (x / 2) end.

Section bits.
Implicit Types (b m : Z) (l : list Z).

Lemma land_join b y m M : is_byte b → is_byte m →
  Z.land (b + 256 * y) (m + 256 * M) = Z.land b m + 256 * Z.land y M.
Proof.
  intros Hb Hm. unfold is_byte in *.
  assert (∀ a z n, 0 ≤ a < 256 → 0 ≤ n → Z.testbit (a + 256 * z) n =
    if n <? 8 then Z.testbit a n else Z.testbit z (n - 8)) as Hj.
  { intros a z n Ha Hn. destruct (Z.ltb_spec n 8).
    - rewrite <- (Z.mod_pow2_bits_low (a + 256 * z) 8 n) by lia. change (2 ^ 8) with 256.
      rewrite (Z.mul_comm 256), Z.mod_add, Z.mod_small by lia. done.
    - rewrite <- (Z.sub_add 8 n) at 1. rewrite <- Z.div_pow2_bits by lia. change (2 ^ 8) with 256.
      rewrite (Z.mul_comm 256), Z.div_add, Z.div_small by lia. done. }
  assert (0 ≤ Z.land b m < 256) as Hbm.
  { replace (Z.land b m) with (Z.land b m mod 2 ^ 8); [by apply Z.mod_pos_bound|].
    rewrite <- Z.land_ones, <- Z.land_assoc, (Z.land_comm m), Z.land_assoc by lia. f_equal.
    rewrite Z.land_ones by lia. by apply Z.mod_small. }
  apply Z.bits_inj'. intros n Hn. rewrite Z.land_spec, !Hj by lia.
  destruct (n <? 8); by rewrite Z.land_spec.
Qed.

(** A shift inside a byte, with the bits that come down from the next one. *)
Lemma shiftr_join b y (k c : Z) : 0 ≤ k ≤ 8 → c = 2 ^ k →
  Z.shiftr (b + 256 * y) k = (b / c + 2 ^ (8 - k) * (y mod c)) + 256 * Z.shiftr y k.
Proof.
  intros Hk ->. rewrite !Z.shiftr_div_pow2 by lia.
  assert (256 = 2 ^ (8 - k) * 2 ^ k) as E by (rewrite <- Z.pow_add_r by lia; by replace (8 - k + k) with 8 by lia).
  pose proof (Z.pow_pos_nonneg 2 k). pose proof (Z.div_mod y (2 ^ k)).
  rewrite E at 1. replace (b + 2 ^ (8 - k) * 2 ^ k * y) with (b + (2 ^ (8 - k) * y) * 2 ^ k) by lia.
  rewrite Z.div_add by lia. rewrite E at 1. nia.
Qed.

Lemma land_shift b y k c m M : is_byte b → is_byte m → 0 ≤ k ≤ 8 → c = 2 ^ k →
  Z.land (Z.shiftr (b + 256 * y) k) (m + 256 * M) =
  Z.land (b / c + 2 ^ (8 - k) * (y mod c)) m + 256 * Z.land (Z.shiftr y k) M.
Proof.
  intros Hb Hm Hk Hc. rewrite (shiftr_join b y k c) by done. apply land_join; [|done].
  unfold is_byte in *. subst c.
  assert (2 ^ k * 2 ^ (8 - k) = 256) as E by (rewrite <- Z.pow_add_r by lia; by replace (k + (8 - k)) with 8 by lia).
  pose proof (Z.pow_pos_nonneg 2 k). pose proof (Z.pow_pos_nonneg 2 (8 - k)).
  pose proof (Z.mod_pos_bound y (2 ^ k)). pose proof (Z.div_pos b (2 ^ k)).
  assert (b / 2 ^ k < 2 ^ (8 - k)) by (apply Z.div_lt_upper_bound; lia). nia.
Qed.

Lemma byte_cases (P : Z → bool) : forallb P (seqZ 0 256) = true → ∀ b, is_byte b → P b = true.
Proof.
  rewrite forallb_forall. intros H b Hb. apply H, list_elem_of_In, elem_of_seqZ. unfold is_byte in Hb. lia.
Qed.

(** The stages of [bitcount] on the bytes of a word. *)
Definition stage1 b : Z := b - Z.land (b / 2) 0x55.
Definition stage2 b : Z := Z.land b 0x33 + Z.land (b / 4) 0x33.
Definition stage3 b : Z := b mod 16 + b / 16.

(** The mask hides the bits of the next byte. *)
Lemma hidden c m k : (c, m, k) ∈ [(2, 0x55, 128); (4, 0x33, 64)] → ∀ b r, is_byte b → 0 ≤ r < c →
  Z.land (b / c + k * r) m = Z.land (b / c) m.
Proof.
  intros Hin. assert (forallb (λ b, forallb (λ r, Z.land (b / c + k * r) m =? Z.land (b / c) m) (seqZ 0 c))
    (seqZ 0 256) = true) as Hall.
  { rewrite !elem_of_cons, elem_of_nil in Hin. destruct Hin as [[= -> -> ->]|[[= -> -> ->]|[]]]; by vm_compute. }
  intros b r Hb Hr. pose proof (byte_cases _ Hall b Hb) as H. cbn beta in H.
  rewrite forallb_forall in H. apply Z.eqb_eq, H, list_elem_of_In, elem_of_seqZ. lia.
Qed.

Lemma word_stage1 l : bytes l →
  le_val l - Z.land (Z.shiftr (le_val l) 1) (le_val (replicate (length l) 0x55)) = le_val (stage1 <$> l).
Proof.
  induction 1 as [|b l Hb Hl IH]; [done|]. cbn [le_val length replicate fmap list_fmap].
  rewrite (land_shift b _ 1 2) by done. change (2 ^ (8 - 1)) with 128.
  rewrite (hidden 2 0x55 128) by first [done|by apply Z.mod_pos_bound|set_solver].
  unfold stage1 at 1. lia.
Qed.

Lemma word_stage2 l : bytes l →
  Z.land (le_val l) (le_val (replicate (length l) 0x33)) +
  Z.land (Z.shiftr (le_val l) 2) (le_val (replicate (length l) 0x33)) = le_val (stage2 <$> l).
Proof.
  induction 1 as [|b l Hb Hl IH]; [done|]. cbn [le_val length replicate fmap list_fmap].
  rewrite (land_shift b _ 2 4), land_join by done. change (2 ^ (8 - 2)) with 64.
  rewrite (hidden 4 0x33 64) by first [done|by apply Z.mod_pos_bound|set_solver].
  unfold stage2 at 1. lia.
Qed.

(** Two counts of at most four in a byte. *)
Definition nibbles b : Prop := 0 ≤ b ∧ b mod 16 ≤ 4 ∧ b / 16 ≤ 4.

Lemma word_stage3 l : Forall nibbles l →
  Z.land (le_val l + Z.shiftr (le_val l) 4) (le_val (replicate (length l) 0x0f)) = le_val (stage3 <$> l).
Proof.
  induction 1 as [|b l Hb Hl IH]; [done|]. cbn [le_val length replicate fmap list_fmap].
  rewrite (shiftr_join b _ 4 16) by done. change (2 ^ (8 - 4)) with 16.
  assert (0 ≤ le_val l mod 16 ≤ 4) as Hr.
  { destruct Hl as [|b' l [H0 [H1 _]] Hl]; [done|]. cbn [le_val].
    replace (256 * le_val l) with ((16 * le_val l) * 16) by lia. rewrite Z.mod_add by lia.
    pose proof (Z.mod_pos_bound b' 16). lia. }
  destruct Hb as (H0 & H1 & H2). pose proof (Z.div_mod b 16). pose proof (Z.mod_pos_bound b 16).
  pose proof (Z.div_pos b 16).
  replace (b + 256 * le_val l + (b / 16 + 16 * (le_val l mod 16) + 256 * Z.shiftr (le_val l) 4))
    with ((b + b / 16 + 16 * (le_val l mod 16)) + 256 * (le_val l + Z.shiftr (le_val l) 4)) by lia.
  rewrite land_join, IH by (unfold is_byte; lia). f_equal.
  change 15 with (Z.ones 4). rewrite Z.land_ones by lia. change (2 ^ 4) with 16. unfold stage3.
  replace (b + b / 16 + 16 * (le_val l mod 16)) with (b mod 16 + b / 16 + (b / 16 + le_val l mod 16) * 16) by lia.
  rewrite Z.mod_add, Z.mod_small by lia. done.
Qed.

Lemma ones_join (k n : nat) b y : 0 ≤ b < 2 ^ Z.of_nat k →
  ones (k + n) (b + 2 ^ Z.of_nat k * y) = ones k b + ones n y.
Proof.
  revert b. induction k as [|k IH]; intros b Hb.
  { change (2 ^ Z.of_nat 0) with 1 in *. replace b with 0 by lia. by rewrite Z.add_0_l, Z.mul_1_l. }
  rewrite Nat2Z.inj_succ, Z.pow_succ_r in * by lia. cbn [Nat.add ones].
  replace (b + 2 * 2 ^ Z.of_nat k * y) with (b + (2 ^ Z.of_nat k * y) * 2) by lia.
  rewrite Z.mod_add, Z.div_add by lia. rewrite IH; [lia|].
  pose proof (Z.div_pos b 2). split; [lia|]. apply Z.div_lt_upper_bound; lia.
Qed.

Lemma ones_bytes l : bytes l → ones (8 * length l) (le_val l) = foldr Z.add 0 (ones 8 <$> l).
Proof.
  induction 1 as [|b l Hb Hl IH]; [done|]. cbn [length fmap list_fmap foldr le_val].
  replace (8 * S (length l))%nat with (8 + 8 * length l)%nat by lia.
  change 256 with (2 ^ Z.of_nat 8). rewrite ones_join, IH; [done|exact Hb].
Qed.

(** What the stages make of one byte. *)
Lemma stages b : is_byte b →
  is_byte (stage1 b) ∧ is_byte (stage2 (stage1 b)) ∧ nibbles (stage2 (stage1 b)) ∧
  stage3 (stage2 (stage1 b)) = ones 8 b ∧ 0 ≤ ones 8 b ≤ 8.
Proof.
  intros Hb. pose (P b := let b2 := stage2 (stage1 b) in
    (0 <=? stage1 b) && (stage1 b <? 256) && (0 <=? b2) && (b2 <? 256) && (b2 mod 16 <=? 4) &&
    (b2 / 16 <=? 4) && (stage3 b2 =? ones 8 b) && (0 <=? ones 8 b) && (ones 8 b <=? 8)).
  pose proof (byte_cases P ltac:(by vm_compute) b Hb) as H. unfold P in H.
  rewrite !andb_true_iff, !Z.leb_le, !Z.ltb_lt, Z.eqb_eq in H. unfold is_byte, nibbles. lia.
Qed.

Lemma Forall_stage (f : Z → Z) (P Q : Z → Prop) l : (∀ b, P b → Q (f b)) → Forall P l → Forall Q (f <$> l).
Proof. intros Hf Hl. apply Forall_fmap. by eapply Forall_impl. Qed.

(** The last stages add the four counts. *)
Lemma add_counts s0 s1 s2 s3 : 0 ≤ s0 ≤ 8 → 0 ≤ s1 ≤ 8 → 0 ≤ s2 ≤ 8 → 0 ≤ s3 ≤ 8 →
  let v := le_val [s0; s1; s2; s3] in
  let w := u32 (v + Z.shiftr v 8) in
  Z.land (u32 (w + Z.shiftr w 16)) 0x3f = s0 + s1 + s2 + s3.
Proof.
  intros H0 H1 H2 H3. cbn [le_val]. cbv zeta.
  assert (Z.shiftr (s0 + 256 * (s1 + 256 * (s2 + 256 * (s3 + 256 * 0)))) 8 = s1 + 256 * (s2 + 256 * s3)) as ->.
  { rewrite Z.shiftr_div_pow2 by lia. change (2 ^ 8) with 256. Z.to_euclidean_division_equations. lia. }
  rewrite (wrap_small 32 (_ + (_ + 256 * (s2 + _)))) by lia.
  match goal with |- context [Z.shiftr ?w 16] => assert (Z.shiftr w 16 = s2 + s3 + 256 * s3) as -> end.
  { rewrite Z.shiftr_div_pow2 by lia. change (2 ^ 16) with 65536. Z.to_euclidean_division_equations. lia. }
  rewrite wrap_small by lia. change 0x3f with (Z.ones 6). rewrite Z.land_ones by lia.
  change (2 ^ 6) with 64. Z.to_euclidean_division_equations. lia.
Qed.

(** C32: [bitcount], which adds the bits of a word in parallel, returns the
    number of ones of every 32-bit word. *)
Theorem bitcount_spec x : 0 ≤ x < 2 ^ 32 → bitcount x = ones 32 x.
Proof.
  intros Hx. pose proof (le_bytes_bytes 4 x) as Hl. pose proof (le_val_bytes 4 x) as Ex.
  change (8 * Z.of_nat 4) with 32 in Ex. rewrite Z.mod_small in Ex by done. symmetry in Ex.
  pose proof (le_bytes_length 4 x) as Hlen. remember (le_bytes 4 x) as l. clear Heql. subst x.
  destruct l as [|b0 [|b1 [|b2 [|b3 [|]]]]]; try done. clear Hlen.
  assert (Forall is_byte (stage1 <$> [b0; b1; b2; b3])) as Hl1
    by (eapply Forall_stage; [|exact Hl]; intros; by apply stages).
  assert (Forall nibbles (stage2 <$> (stage1 <$> [b0; b1; b2; b3]))) as Hn.
  { rewrite <- list_fmap_compose. eapply Forall_stage; [|exact Hl]. intros; by apply stages. }
  pose proof (le_val_range _ Hl1) as R1.
  pose proof (word_stage1 _ Hl) as E1. pose proof (word_stage2 _ Hl1) as E2. pose proof (word_stage3 _ Hn) as E3.
  change (le_val (replicate _ 85)) with 0x55555555 in E1.
  change (le_val (replicate _ 51)) with 0x33333333 in E2.
  change (le_val (replicate _ 15)) with 0x0f0f0f0f in E3.
  pose proof (ones_bytes _ Hl) as Eo. change (8 * length _)%nat with 32%nat in Eo.
  assert (0 ≤ le_val (stage2 <$> (stage1 <$> [b0; b1; b2; b3])) ≤ 0x44444444) as R2.
  { cbn [fmap list_fmap le_val] in Hn |- *. rewrite !Forall_cons in Hn. unfold nibbles in Hn.
    Z.to_euclidean_division_equations. lia. }
  unfold bitcount. cbv zeta. rewrite E1, (wrap_small 32 (le_val (stage1 <$> _))), E2 by exact R1.
  rewrite (wrap_small 32 (le_val (stage2 <$> _))) by lia.
  rewrite (wrap_small 32 (_ + Z.shiftr _ 4)), E3.
  - rewrite !Forall_cons in Hl. destruct Hl as (H0 & H1 & H2 & H3 & _). cbn [fmap list_fmap].
    destruct (stages b0 H0) as (_ & _ & _ & -> & ?), (stages b1 H1) as (_ & _ & _ & -> & ?),
      (stages b2 H2) as (_ & _ & _ & -> & ?), (stages b3 H3) as (_ & _ & _ & -> & ?).
    rewrite add_counts, Eo by done. cbn [fmap list_fmap foldr]. lia.
  - rewrite Z.shiftr_div_pow2 by lia. change (2 ^ 4) with 16. Z.to_euclidean_division_equations. lia.
Qed.

Lemma bitcount_spec_witness : bitcount 0xF0F0F001 = ones 32 0xF0F0F001.
Proof. apply bitcount_spec. lia. Defined.
End bits.

(** ** Images *)

Section image.
Context (sb : superblock).
Implicit Types (im : image) (m : Z → block) (b : Z) (di : dinode) (ad : list Z).

(** The first data block and the first block after them, without wrap-around. *)
Definition fdata : Z := 4 + sb_ninodes sb / IPB + sb_size sb / BPB.
Definition lim : Z := fdata + sb_nblocks sb.

(** The image without the inode blocks, in which [ip->addrs] is kept up to date. *)
Definition dm m : Z → block := λ b, if bool_decide (2 ≤ b < BBLOCK 0 (sb_ninodes sb)) then zero_block else m b.

Definition iok im : Prop :=
  geo (dm (im_blk im)) lim sb ∧ blocks_ok (im_blk im) ∧ sb_size sb ≤ im_top im ∧
  sb_size sb < 2 ^ 31 ∧ 0 ≤ sb_nblocks sb ∧ (∀ b, 0 ≤ b < fdata → used (dm (im_blk im)) sb b = true).

Lemma dm_data m b : BBLOCK 0 (sb_ninodes sb) ≤ b → dm m b = m b.
Proof. intros Hb. unfold dm. by rewrite bool_decide_eq_false_2 by lia. Qed.
Lemma dm_low m b : b < 2 → dm m b = m b.
Proof. intros Hb. unfold dm. by rewrite bool_decide_eq_false_2 by lia. Qed.
Lemma dm_insert_data m b d : BBLOCK 0 (sb_ninodes sb) ≤ b → dm (<[b := d]> m) = <[b := d]> (dm m).
Proof.
  intros Hb. extensionality x. unfold dm, insert, fn_insert. case_bool_decide; case_decide; (done || lia).
Qed.
Lemma dm_insert_inode m b d : 2 ≤ b < BBLOCK 0 (sb_ninodes sb) → dm (<[b := d]> m) = dm m.
Proof.
  intros Hb. extensionality x. unfold dm, insert, fn_insert. case_bool_decide; [done|]. case_decide; [lia|done].
Qed.
Lemma dm_ok m : blocks_ok m → blocks_ok (dm m).
Proof. intros Hm x. unfold dm. by case_bool_decide. Qed.

(** The geometry of a good image. *)
Lemma iok_geo im : iok im → 3 ≤ BBLOCK 0 (sb_ninodes sb) < dstart sb ∧ dstart sb ≤ fdata ∧
  fdata ≤ lim ≤ sb_size sb ∧ sb_size sb ≤ im_top im ∧ sb_size sb < 2 ^ 31 ∧ 0 ≤ sb_ninodes sb.
Proof.
  intros (Hg & _ & Ht & Hs & Hn & _). pose proof Hg as (_ & Hni & Hsz & Hd & _).
  pose proof (BBLOCK_range 0 sb Hni ltac:(lia)). split; [lia|]. split.
  - unfold dstart, fdata, BBLOCK, BPB. pose proof (Z.div_le_mono (sb_size sb - 1) (sb_size sb) 4096). lia.
  - unfold lim in *. lia.
Qed.

Lemma rd_ok im b : 0 ≤ b < im_top im → rd b im = Ok (im_blk im b) im.
Proof. intros Hb. unfold rd. go. by rewrite (proj2 (Z.leb_le _ _)), (proj2 (Z.ltb_lt _ _)) by lia. Qed.
Lemma wr_ok im b d : 0 ≤ b < im_top im → wr b d im = Ok tt (mkImage (<[b := d]> (im_blk im)) (im_top im)).
Proof. intros Hb. unfold wr. go. by rewrite (proj2 (Z.leb_le _ _)), (proj2 (Z.ltb_lt _ _)) by lia. Qed.

Lemma sblk_ok im : iok im → sblk im = Ok sb im.
Proof.
  intros Hi. destruct (iok_geo im Hi) as (? & ? & ? & ? & ? & ?). destruct Hi as ((E & _) & _).
  unfold sblk. step (rd_ok im 1 ltac:(lia)). rewrite dm_low in E by lia. by rewrite E.
Qed.

Lemma first_data_ok im : iok im → first_data sb = fdata ∧ u32 (first_data sb + sb_nblocks sb - 1) = lim - 1.
Proof.
  intros Hi. destruct (iok_geo im Hi) as (? & ? & ? & ? & ? & ?). unfold first_data, lim, fdata in *.
  change (Z.of_nat BSIZE * 8) with BPB. unfold IPB, BPB in *.
  pose proof (Z.div_pos (sb_ninodes sb) 8). pose proof (Z.div_pos (sb_size sb) 4096).
  rewrite (wrap_small 32 (_ / 8 + 1)), (wrap_small 32 (_ / 4096 + 1)) by lia.
  rewrite (wrap_small 32 (2 + _ + _)) by lia. rewrite wrap_small by lia. lia.
Qed.

Lemma valid_ok im b : iok im → valid_data_block b im = Ok (bool_decide (fdata ≤ b < lim)) im.
Proof.
  intros Hi. destruct (first_data_ok im Hi) as [E1 E2]. unfold valid_data_block. step (sblk_ok im Hi).
  cbv zeta. rewrite E2, E1. unfold ret. f_equal. case_bool_decide; lia.
Qed.

(** *** Allocation *)

Definition alloc im b : image := mkImage (alloc_mem (im_blk im) sb b) (im_top im).

Lemma dm_alloc im b : iok im → fdata ≤ b < lim → dm (im_blk (alloc im b)) = alloc_mem (dm (im_blk im)) sb b.
Proof.
  intros Hi Hb. destruct (iok_geo im Hi) as (? & ? & ? & ? & ? & ?).
  pose proof (BBLOCK_ge b (sb_ninodes sb) ltac:(lia)).
  unfold alloc, alloc_mem, mark. cbn [im_blk]. rewrite !dm_insert_data by lia.
  by rewrite dm_data by lia.
Qed.

Lemma used_data_block im b : iok im → 0 ≤ b → used (dm (im_blk im)) sb b = false → fdata ≤ b.
Proof.
  intros (_ & _ & _ & _ & _ & Hu) Hb Hf. destruct (decide (b < fdata)); [|lia]. rewrite Hu in Hf by lia. done.
Qed.

Lemma alloc_iok im b : iok im → fdata ≤ b < lim → used (dm (im_blk im)) sb b = false → iok (alloc im b).
Proof.
  intros Hi Hb Hu. destruct (iok_geo im Hi) as (? & ? & ? & ? & ? & ?). pose proof Hi as (Hg & Hl & ? & ? & ? & Hall).
  assert (dstart sb ≤ b < lim) as Hb' by lia.
  split_and!; try done.
  - rewrite dm_alloc by done. eapply frame_geo; [done|]. eapply (frame_alloc _ lim); try done. by apply dm_ok.
  - intros x. by apply alloc_length.
  - intros x Hx. rewrite dm_alloc, (used_alloc _ lim) by (done || lia || by apply dm_ok).
    by rewrite Hall, orb_true_r by lia.
Qed.

Lemma bits_of im k j : iok im → 0 ≤ j < BPB →
  used (dm (im_blk im)) sb (BPB * Z.of_nat k + j) =
  bit (im_blk im (BBLOCK (BPB * Z.of_nat k) (sb_ninodes sb))) j.
Proof.
  intros Hi Hj. unfold used. destruct (BBLOCK_split (Z.of_nat k) j (sb_ninodes sb) Hj) as [-> ->].
  rewrite dm_data; [done|]. apply BBLOCK_ge. unfold BPB. lia.
Qed.

(** One bitmap block: the first clear bit is taken. *)
Lemma balloc_group_run im k : iok im → BPB * Z.of_nat k < sb_size sb →
  match free_bit (Z.to_nat BPB) 0 (BPB * Z.of_nat k) (sb_size sb)
    (im_blk im (BBLOCK (BPB * Z.of_nat k) (sb_ninodes sb))) with
  | Some bi => BPB * Z.of_nat k + bi < lim →
      balloc_group sb (BPB * Z.of_nat k) im =
        Ok (Some (BPB * Z.of_nat k + bi)) (alloc im (BPB * Z.of_nat k + bi))
  | None => balloc_group sb (BPB * Z.of_nat k) im = Ok None im
  end.
Proof.
  intros Hi Hk. destruct (iok_geo im Hi) as (? & ? & ? & ? & ? & ?).
  assert (0 ≤ BPB * Z.of_nat k) by (unfold BPB; lia).
  pose proof (BBLOCK_range (BPB * Z.of_nat k) sb ltac:(lia) ltac:(lia)) as Hbb.
  unfold balloc_group. set (bb := BBLOCK (BPB * Z.of_nat k) (sb_ninodes sb)) in *.
  step (rd_ok im bb ltac:(lia)). destruct (free_bit _ _ _ _ _) as [bi|] eqn:Ef; [|done]. intros Hlim.
  destruct (free_bit_some _ _ _ _ _ _ Ef) as (Hbi & Hsz & Hbit & _).
  rewrite Z2Nat.id in Hbi by (unfold BPB; lia). rewrite Z.add_0_l in Hbi.
  set (b := BPB * Z.of_nat k + bi) in *.
  assert (used (dm (im_blk im)) sb b = false) as Hu by (unfold b; rewrite bits_of; done).
  pose proof (used_data_block im b Hi ltac:(lia) Hu) as Hfd.
  destruct (BBLOCK_split (Z.of_nat k) bi (sb_ninodes sb)) as [EB EM]; [lia|]. fold b bb in EB, EM.
  step (wr_ok im bb (bit_on (im_blk im bb) bi) ltac:(lia)).
  set (im1 := mkImage _ _).
  assert (sblk im1 = Ok sb im1) as E1.
  { unfold sblk. step (rd_ok im1 1 ltac:(cbn; lia)). cbn [im_blk im1]. rewrite fn_lookup_insert_ne by lia.
    pose proof (sblk_ok im Hi) as E. unfold sblk in E. rewrite (bind_ok _ _ _ _ _ (rd_ok im 1 ltac:(lia))) in E.
    unfold ret in *. injection E as E. by rewrite E. }
  destruct (first_data_ok im Hi) as [E2 E3].
  assert (valid_data_block b im1 = Ok true im1) as Ev.
  { unfold valid_data_block. step E1. cbv zeta. rewrite E3, E2. unfold ret. f_equal.
    rewrite (proj2 (Z.leb_le _ _)), (proj2 (Z.leb_le _ _)) by lia. done. }
  step Ev. cbn [negb]. step (wr_ok im1 b zero_block ltac:(cbn; lia)).
  unfold alloc, alloc_mem, mark. rewrite EB, EM. done.
Qed.

Lemma balloc_loop_run im n k b0 : iok im → BPB * Z.of_nat k ≤ b0 < lim → used (dm (im_blk im)) sb b0 = false →
  (∀ b, 0 ≤ b < BPB * Z.of_nat k → used (dm (im_blk im)) sb b = true) → sb_size sb ≤ BPB * Z.of_nat (k + n) →
  ∃ b, for_each ((λ k, BPB * Z.of_nat k) <$> seq k n) (balloc_group sb) im = Ok (Some b) (alloc im b) ∧
    used (dm (im_blk im)) sb b = false ∧ 0 ≤ b ≤ b0.
Proof.
  intros Hi. destruct (iok_geo im Hi) as (? & ? & ? & ? & ? & ?).
  revert k. induction n as [|n IH]; intros k Hb0 Hu Hall Hsz; [rewrite Nat.add_0_r in Hsz; lia|].
  cbn [seq fmap list_fmap for_each]. pose proof (balloc_group_run im k Hi ltac:(lia)) as Hrun.
  assert (∀ j, 0 ≤ j < BPB → used (dm (im_blk im)) sb (BPB * Z.of_nat k + j) =
    bit (im_blk im (BBLOCK (BPB * Z.of_nat k) (sb_ninodes sb))) j) as Hbits by (intros; by apply bits_of).
  destruct (free_bit _ _ _ _ _) as [bi|] eqn:Ef.
  - destruct (free_bit_some _ _ _ _ _ _ Ef) as (Hbi & Hlt & Hbit & Hbefore).
    rewrite Z2Nat.id in Hbi by (unfold BPB; lia).
    assert (BPB * Z.of_nat k + bi ≤ b0) as Hle.
    { destruct (decide (BPB * Z.of_nat k + bi ≤ b0)); [done|]. exfalso.
      replace b0 with (BPB * Z.of_nat k + (b0 - BPB * Z.of_nat k)) in Hu by lia.
      rewrite Hbits, Hbefore in Hu by lia. done. }
    specialize (Hrun ltac:(lia)). step Hrun. exists (BPB * Z.of_nat k + bi).
    split_and!; [done|by rewrite Hbits by lia|unfold BPB in *; lia|lia].
  - step Hrun.
    assert (∀ j, 0 ≤ j < BPB → BPB * Z.of_nat k + j < sb_size sb →
      used (dm (im_blk im)) sb (BPB * Z.of_nat k + j) = true) as Hfull.
    { intros j Hj Hjs. rewrite Hbits by done. eapply free_bit_none; [exact Ef| |done].
      rewrite Z2Nat.id by (unfold BPB; lia). lia. }
    assert (BPB * Z.of_nat (S k) ≤ b0) as Hb0'.
    { destruct (decide (b0 < BPB * Z.of_nat (S k))); [|lia]. exfalso.
      replace b0 with (BPB * Z.of_nat k + (b0 - BPB * Z.of_nat k)) in Hu by lia.
      rewrite Hfull in Hu by lia. done. }
    apply IH; [lia|done| |by replace (S k + n)%nat with (k + S n)%nat by lia].
    intros b Hb. destruct (decide (b < BPB * Z.of_nat k)); [apply Hall; lia|].
    replace b with (BPB * Z.of_nat k + (b - BPB * Z.of_nat k)) by lia. apply Hfull; lia.
Qed.

(** [balloc] takes a free data block. *)
Lemma balloc_run im b0 : iok im → 0 ≤ b0 < lim → used (dm (im_blk im)) sb b0 = false →
  ∃ b, Libfs.balloc im = Ok b (alloc im b) ∧ used (dm (im_blk im)) sb b = false ∧ fdata ≤ b < lim ∧
    iok (alloc im b).
Proof.
  intros Hi Hb0 Hu. destruct (iok_geo im Hi) as (? & ? & ? & ? & ? & ?).
  unfold Libfs.balloc. step (sblk_ok im Hi). unfold groups.
  destruct (balloc_loop_run im (Z.to_nat ((sb_size sb + BPB - 1) / BPB)) 0 b0) as (b & E & Hub & Hb); try done.
  { lia. } { apply groups_cover. lia. }
  step E. pose proof (used_data_block im b Hi ltac:(lia) Hub).
  exists b. split_and!; try done; try lia. apply alloc_iok; [done|lia|done].
Qed.

(** *** Inodes in the image *)

Definition inode_at im ip : dinode := get_dinode ip (im_blk im (IBLOCK ip)).
Definition store im ip di : image :=
  mkImage (<[IBLOCK ip := put_dinode ip di (im_blk im (IBLOCK ip))]> (im_blk im)) (im_top im).

Lemma dinode_dec_wf l : dinode_wf (dinode_dec l).
Proof.
  unfold dinode_wf, dinode_dec. cbn [di_type di_major di_minor di_nlink di_ownerid di_groupid di_mode di_size di_addrs].
  split_and!; try apply getS_short; try apply get32_range. { by rewrite length_fmap, length_seq. }
  apply Forall_fmap, Forall_forall. intros i _. apply get32_range.
Qed.

Lemma inode_at_wf im ip : dinode_wf (inode_at im ip).
Proof. apply dinode_dec_wf. Qed.

Lemma store_inode im ip di ip' : blocks_ok (im_blk im) → dinode_wf di → 0 ≤ ip → 0 ≤ ip' →
  inode_at (store im ip di) ip' = if decide (ip' = ip) then di else inode_at im ip'.
Proof.
  intros Hl Hwf Hip Hip'. unfold inode_at, store. cbn [im_blk].
  destruct (decide (IBLOCK ip' = IBLOCK ip)) as [E|E].
  - rewrite E, fn_lookup_insert. case_decide as Hd; [subst; by apply get_put_dinode|].
    apply get_put_dinode_other; [done|by apply Hwf|]. intros Em. apply Hd.
    unfold IBLOCK, IPB in *. rewrite (Z.div_mod ip' 8), (Z.div_mod ip 8) by lia. lia.
  - rewrite fn_lookup_insert_ne by done. rewrite decide_False by congruence. done.
Qed.

Lemma store_iok im ip di : iok im → dinode_wf di → 0 ≤ ip < sb_ninodes sb →
  iok (store im ip di) ∧ dm (im_blk (store im ip di)) = dm (im_blk im).
Proof.
  intros Hi Hwf Hip. pose proof (IBLOCK_range sb ip Hip).
  assert (dm (im_blk (store im ip di)) = dm (im_blk im)) as E by (by apply dm_insert_inode).
  split; [|done]. destruct Hi as (Hg & Hl & ? & ? & ? & Hall).
  split_and!; rewrite ?E; try done. intros x. unfold store, insert, fn_insert. cbn [im_blk].
  case_decide; [|apply Hl]. unfold put_dinode. rewrite splice_length; [apply Hl|].
  rewrite dinode_enc_length by apply Hwf. apply dip_off_fits, Hl.
Qed.

Lemma iload_ok im ip : iok im → 0 ≤ ip < sb_ninodes sb → iload ip im = Ok (inode_at im ip) im.
Proof.
  intros Hi Hip. destruct (iok_geo im Hi) as (? & ? & ? & ? & ? & ?). pose proof (IBLOCK_range sb ip Hip).
  unfold iload. by step (rd_ok im (IBLOCK ip) ltac:(lia)).
Qed.
Lemma iset_ok im ip f : iok im → 0 ≤ ip < sb_ninodes sb →
  iset ip f im = Ok tt (store im ip (f (inode_at im ip))).
Proof.
  intros Hi Hip. destruct (iok_geo im Hi) as (? & ? & ? & ? & ? & ?). pose proof (IBLOCK_range sb ip Hip).
  unfold iset. step (iload_ok im ip Hi Hip). unfold istore. step (rd_ok im (IBLOCK ip) ltac:(lia)).
  apply wr_ok. lia.
Qed.

Lemma alloc_inode im b ip : iok im → fdata ≤ b < lim → 0 ≤ ip < sb_ninodes sb →
  inode_at (alloc im b) ip = inode_at im ip.
Proof.
  intros Hi Hb Hip. destruct (iok_geo im Hi) as (? & ? & ? & ? & ? & ?). pose proof (IBLOCK_range sb ip Hip).
  pose proof (BBLOCK_ge b (sb_ninodes sb) ltac:(lia)).
  unfold inode_at, alloc, alloc_mem, mark. cbn [im_blk]. by rewrite !fn_lookup_insert_ne by lia.
Qed.

(** The image [im'] with the file [ip] extended to the addresses [ad]. *)
Definition grows im ip im' ad : Prop :=
  iok im' ∧ im_top im' = im_top im ∧ ext sb lim (dm (im_blk im)) (di_addrs (inode_at im ip)) (dm (im_blk im')) ad ∧
  inode_at im' ip = with_addrs ad (inode_at im ip) ∧
  ∀ ip', 0 ≤ ip' < sb_ninodes sb → ip' ≠ ip → inode_at im' ip' = inode_at im ip'.

Definition free_blocks im : nat := nfree (dm (im_blk im)) sb lim.

Lemma balloc_free im : iok im → (0 < free_blocks im)%nat →
  ∃ b, Libfs.balloc im = Ok b (alloc im b) ∧ used (dm (im_blk im)) sb b = false ∧ fdata ≤ b < lim ∧
    iok (alloc im b) ∧ (free_blocks im ≤ S (free_blocks (alloc im b)))%nat.
Proof.
  intros Hi Hn. destruct (nfree_pos _ _ _ Hn) as (b0 & Hb0 & Hu).
  destruct (balloc_run im b0 Hi Hb0 Hu) as (b & E & Hub & Hb & Hi'). exists b. split_and!; try done; try lia.
  unfold free_blocks. rewrite dm_alloc by done. destruct (iok_geo im Hi) as (? & ? & ? & ? & ? & ?).
  pose proof Hi as (Hg & Hl & _). apply nfree_alloc; [done|by apply dm_ok|lia].
Qed.

Lemma with_addrs_wf di ad : dinode_wf di → length ad = S NDIRECT → Forall (λ a, 0 ≤ a < 2 ^ 32) ad →
  dinode_wf (with_addrs ad di).
Proof. unfold dinode_wf. cbn. tauto. Qed.

Lemma addr_of_hit im ip k : iok im → 0 ≤ ip < sb_ninodes sb → (k < S NDIRECT)%nat →
  addr_at (di_addrs (inode_at im ip)) k ≠ 0 →
  addr_of ip k im = Ok (addr_at (di_addrs (inode_at im ip)) k) im.
Proof.
  intros Hi Hip Hk Hz. unfold addr_of. step (iload_ok im ip Hi Hip).
  destruct (inode_at_wf im ip) as (_ & _ & _ & _ & _ & _ & _ & _ & Hl & _).
  rewrite addr_lookup by lia. go. by rewrite (proj2 (Z.eqb_neq _ 0)).
Qed.

(** A new block in slot [k] of [ip->addrs]. *)
Definition with_block im ip k b : image :=
  store (alloc im b) ip (with_addrs (<[k := b]> (di_addrs (inode_at im ip))) (inode_at im ip)).

Lemma addr_of_miss im ip k : iok im → 0 ≤ ip < sb_ninodes sb → (k < S NDIRECT)%nat →
  addr_at (di_addrs (inode_at im ip)) k = 0 → (0 < free_blocks im)%nat →
  ∃ b, addr_of ip k im = Ok b (with_block im ip k b) ∧ used (dm (im_blk im)) sb b = false ∧ fdata ≤ b < lim ∧
    iok (with_block im ip k b) ∧ dm (im_blk (with_block im ip k b)) = alloc_mem (dm (im_blk im)) sb b ∧
    (free_blocks im ≤ S (free_blocks (with_block im ip k b)))%nat ∧
    inode_at (with_block im ip k b) ip = with_addrs (<[k := b]> (di_addrs (inode_at im ip))) (inode_at im ip) ∧
    ∀ ip', 0 ≤ ip' < sb_ninodes sb → ip' ≠ ip → inode_at (with_block im ip k b) ip' = inode_at im ip'.
Proof.
  intros Hi Hip Hk Hz Hn. destruct (balloc_free im Hi Hn) as (b & E & Hu & Hb & Hi1 & Hn1).
  destruct (iok_geo im Hi) as (? & ? & ? & ? & ? & ?).
  pose proof (inode_at_wf im ip) as Hwf. pose proof Hwf as (_ & _ & _ & _ & _ & _ & _ & _ & Hl & Ha).
  set (di := with_addrs (<[k := b]> (di_addrs (inode_at im ip))) (inode_at im ip)).
  assert (dinode_wf di) as Hwf'.
  { apply with_addrs_wf; [done|by rewrite length_insert|]. apply Forall_insert; [done|lia]. }
  destruct (store_iok (alloc im b) ip di Hi1 Hwf' Hip) as [Hi2 Ed].
  assert (blocks_ok (im_blk (alloc im b))) as Hl1 by apply Hi1.
  exists b. unfold with_block. fold di. split_and!; try done; try lia.
  - unfold addr_of. step (iload_ok im ip Hi Hip). rewrite addr_lookup by lia. unfold need. erewrite bind_ok; [|reflexivity].
    rewrite Hz. cbn [Z.eqb]. step E. step (iset_ok (alloc im b) ip (λ d, with_addrs (<[k := b]> (di_addrs d)) d) Hi1 Hip).
    by rewrite alloc_inode.
  - rewrite Ed. by apply dm_alloc.
  - unfold free_blocks in *. by rewrite Ed.
  - rewrite store_inode by (done || lia). by rewrite decide_True.
  - intros ip' Hip' Hne. rewrite store_inode by (done || lia). rewrite decide_False by done. by apply alloc_inode.
Qed.

(** *** Blocks of a file *)

Abbreviation addrs im ip := (di_addrs (inode_at im ip)).
Abbreviation file_wf im ip := (fwf sb lim (dm (im_blk im)) (addrs im ip)).

Lemma dinode_same_addrs di : with_addrs (di_addrs di) di = di.
Proof. by destruct di. Qed.

Lemma grows_refl im ip : iok im → file_wf im ip → grows im ip im (addrs im ip).
Proof.
  intros Hi Hf. pose proof Hi as (Hg & Hl & _).
  split; [done|]. split; [done|]. split; [|by rewrite dinode_same_addrs].
  apply ext_refl; [done|done|by apply dm_ok].
Qed.

Lemma data_rd im b : iok im → dstart sb ≤ b < lim → rd b im = Ok (dm (im_blk im) b) im.
Proof.
  intros Hi Hb. destruct (iok_geo im Hi) as (? & ? & ? & ? & ? & ?). rewrite dm_data by lia. apply rd_ok. lia.
Qed.

(** A block that is mapped is found, and the image stays as it is. *)
Lemma bmap_present im ip n : iok im → 0 ≤ ip < sb_ninodes sb → file_wf im ip → (n < MAXFILE)%nat →
  baddr (dm (im_blk im)) (addrs im ip) n ≠ 0 →
  Libfs.bmap ip (Z.of_nat n) im = Ok (baddr (dm (im_blk im)) (addrs im ip) n) im.
Proof.
  intros Hi Hip Hf Hn Hz. pose proof Hf as (_ & _ & Hind & _). unfold Libfs.bmap.
  unfold baddr in *. unfold NDIRECT, NINDIRECT, MAXFILE in *. destruct (Nat.ltb_spec n 10) as [Hlt|Hge].
  - rewrite (proj2 (Z.ltb_lt _ _)) by lia. rewrite Nat2Z.id. apply addr_of_hit; try done. unfold NDIRECT. lia.
  - rewrite (proj2 (Z.ltb_ge _ _)) by lia. cbv zeta. rewrite (proj2 (Z.leb_gt _ _)) by lia.
    destruct (Z.eqb_spec (addr_at (addrs im ip) 10) 0) as [|Hiz]; [done|].
    step (addr_of_hit im ip 10 Hi Hip ltac:(unfold NDIRECT; lia) Hiz).
    destruct (Hind Hiz) as [Hr _]. step (data_rd im _ Hi Hr).
    replace (Z.to_nat (Z.of_nat n - Z.of_nat 10)) with (n - 10)%nat by lia.
    by rewrite (proj2 (Z.eqb_neq _ 0)).
Qed.

Definition bmaps im ip n : Prop := ∃ a im' ad,
  Libfs.bmap ip (Z.of_nat n) im = Ok a im' ∧ grows im ip im' ad ∧ a = baddr (dm (im_blk im')) ad n ∧ a ≠ 0 ∧
  (free_blocks im ≤ free_blocks im' + 2)%nat.

Lemma bmap_new_direct im ip n : iok im → 0 ≤ ip < sb_ninodes sb → file_wf im ip → (n < NDIRECT)%nat →
  baddr (dm (im_blk im)) (addrs im ip) n = 0 → (1 < free_blocks im)%nat → bmaps im ip n.
Proof.
  intros Hi Hip Hf Hn Hz Hfr. pose proof Hi as (Hg & Hl & _). destruct (iok_geo im Hi) as (? & ? & ? & ? & ? & ?).
  pose proof Hz as Hz'. unfold baddr in Hz'. rewrite (proj2 (Nat.ltb_lt _ _) Hn) in Hz'.
  destruct (addr_of_miss im ip n) as (b & E & Hu & Hb & Hi' & Ed & Hfr' & Eip & Eother); try done; try lia.
  assert (dstart sb ≤ b < lim) as Hb' by lia.
  pose proof (grown_direct sb lim (dm (im_blk im)) (addrs im ip) n b Hg Hf (dm_ok _ Hl) Hb' Hu Hn) as Hgr.
  assert (n < MAXFILE)%nat as Hn' by (unfold NDIRECT, MAXFILE in *; lia).
  exists b, (with_block im ip n b), (<[n := b]> (addrs im ip)). split_and!.
  - unfold Libfs.bmap. unfold NDIRECT in *. rewrite (proj2 (Z.ltb_lt _ _)) by lia. by rewrite Nat2Z.id.
  - split; [done|]. split; [done|]. split; [|done].
    rewrite Ed. eapply grown_ext; try done. by apply dm_ok.
  - rewrite Ed. destruct Hgr as (_ & _ & Eb & _). rewrite Eb. by rewrite decide_True.
  - lia.
  - lia.
Qed.

Definition with_entry im a k b : image :=
  let im1 := alloc im b in
  mkImage (<[a := put32 (4 * k) b (im_blk im1 a)]> (im_blk im1)) (im_top im1).

Lemma bmap_new_entry im ip n : iok im → 0 ≤ ip < sb_ninodes sb → file_wf im ip → (NDIRECT ≤ n < MAXFILE)%nat →
  addr_at (addrs im ip) NDIRECT ≠ 0 → baddr (dm (im_blk im)) (addrs im ip) n = 0 → (0 < free_blocks im)%nat →
  ∃ b im', Libfs.bmap ip (Z.of_nat n) im = Ok b im' ∧ grows im ip im' (addrs im ip) ∧
    b = baddr (dm (im_blk im')) (addrs im ip) n ∧ b ≠ 0 ∧ (free_blocks im ≤ S (free_blocks im'))%nat.
Proof.
  intros Hi Hip Hf Hn Hiz Hz Hfr. pose proof Hi as (Hg & Hl & Ht & _).
  destruct (iok_geo im Hi) as (? & ? & ? & ? & ? & ?).
  pose proof Hf as (_ & _ & Hind & _). destruct (Hind Hiz) as [Har Hau].
  set (a := addr_at (addrs im ip) NDIRECT) in *. set (k := (n - NDIRECT)%nat).
  pose proof Hz as Hz'. unfold baddr in Hz'. rewrite (proj2 (Nat.ltb_ge _ _)) in Hz' by lia.
  fold a k in Hz'. rewrite (proj2 (Z.eqb_neq a 0)) in Hz' by done.
  destruct (balloc_free im Hi Hfr) as (b & E & Hu & Hb & Hi1 & Hfr1).
  assert (dstart sb ≤ b < lim) as Hb' by lia.
  pose proof (grown_indirect sb lim (dm (im_blk im)) (addrs im ip) n b Hg Hf (dm_ok _ Hl) Hb' Hu ltac:(lia) Hn Hiz) as Hgr.
  cbv zeta in Hgr. fold a k in Hgr.
  assert (dm (im_blk (with_entry im a k b)) =
    <[a := put32 (4 * k) b (alloc_mem (dm (im_blk im)) sb b a)]> (alloc_mem (dm (im_blk im)) sb b)) as Ed.
  { unfold with_entry. cbn [im_blk]. rewrite dm_insert_data, dm_alloc by (done || lia). do 2 f_equal.
    rewrite <- dm_alloc by done. by rewrite dm_data by lia. }
  rewrite <- Ed in Hgr.
  pose proof (grown_ext sb lim _ _ _ _ n b Hg Hf (dm_ok _ Hl) Hb' Hu ltac:(lia) Hz Hgr) as Hext.
  pose proof Hext as (_ & Hg' & _).
  destruct Hgr as (_ & _ & Eb & _ & _ & _ & Eu & _).
  exists b, (with_entry im a k b). split_and!.
  - unfold Libfs.bmap. unfold NDIRECT, NINDIRECT, MAXFILE in *. rewrite (proj2 (Z.ltb_ge _ _)) by lia.
    cbv zeta. rewrite (proj2 (Z.leb_gt _ _)) by lia.
    step (addr_of_hit im ip 10 Hi Hip ltac:(unfold NDIRECT; lia) Hiz). fold a. step (data_rd im a Hi Har).
    replace (Z.to_nat (Z.of_nat n - Z.of_nat 10)) with k by lia. rewrite Hz'. cbn [Z.eqb]. step E.
    step (rd_ok (alloc im b) a ltac:(cbn [im_top alloc]; lia)).
    step (wr_ok (alloc im b) a (put32 (4 * k) b (im_blk (alloc im b) a)) ltac:(cbn [im_top alloc]; lia)).
    done.
  - split; [|split; [done|split; [done|split]]].
    + split_and!; try done; try lia.
      * intros x. unfold with_entry, insert, fn_insert. cbn [im_blk]. case_decide; [|apply Hi1].
        rewrite put32_length; [apply Hi1|]. rewrite (proj1 (proj2 Hi1)). unfold k, NDIRECT, MAXFILE, BSIZE in *. lia.
      * by destruct Hi as (_ & _ & _ & _ & ? & _).
      * intros x Hx. rewrite Eu by lia. destruct Hi as (_ & _ & _ & _ & _ & Hall). by rewrite Hall, orb_true_r.
    + rewrite dinode_same_addrs. unfold inode_at, with_entry. cbn [im_blk]. pose proof (IBLOCK_range sb ip Hip).
      rewrite fn_lookup_insert_ne by lia. by apply alloc_inode.
    + intros ip' Hip' _. unfold inode_at, with_entry. cbn [im_blk]. pose proof (IBLOCK_range sb ip' Hip').
      rewrite fn_lookup_insert_ne by lia. by apply alloc_inode.
  - rewrite Eb. by rewrite decide_True.
  - lia.
  - unfold free_blocks in *. rewrite dm_alloc in Hfr1 by done. rewrite Ed.
    rewrite (nfree_same sb lim (alloc_mem (dm (im_blk im)) sb b) (<[a := put32 (4 * k) b _]> _)); [exact Hfr1|lia|].
    intros x Hx. by rewrite used_data by (done || lia).
Qed.

Lemma grows_trans im ip im1 ad1 im2 ad2 : 0 ≤ ip < sb_ninodes sb →
  grows im ip im1 ad1 → grows im1 ip im2 ad2 → grows im ip im2 ad2.
Proof.
  intros Hip (I1 & T1 & X1 & E1 & O1) (I2 & T2 & X2 & E2 & O2). rewrite E1 in X2. cbn [di_addrs with_addrs] in X2.
  split; [done|]. split; [congruence|]. split; [by eapply ext_trans|]. split.
  - rewrite E2, E1. done.
  - intros ip' Hip' Hne. rewrite O2, O1; done.
Qed.

(** The indirect block has to be allocated first. *)
Lemma bmap_new_indirect im ip n : iok im → 0 ≤ ip < sb_ninodes sb → file_wf im ip → (NDIRECT ≤ n < MAXFILE)%nat →
  addr_at (addrs im ip) NDIRECT = 0 → (1 < free_blocks im)%nat → bmaps im ip n.
Proof.
  intros Hi Hip Hf Hn Hiz Hfr. pose proof Hi as (Hg & Hl & _). destruct (iok_geo im Hi) as (? & ? & ? & ? & ? & ?).
  pose proof Hf as (Hlen & _).
  destruct (addr_of_miss im ip NDIRECT) as (b & E & Hu & Hb & Hi' & Ed & Hfr' & Eip & Eother); try done; try lia.
  set (im1 := with_block im ip NDIRECT b) in *. set (ad1 := <[NDIRECT := b]> (addrs im ip)) in *.
  assert (dstart sb ≤ b < lim) as Hb' by lia.
  assert (grows im ip im1 ad1) as G1.
  { split; [done|]. split; [done|]. split; [|done]. rewrite Ed. apply ext_new_indirect; try done. by apply dm_ok. }
  assert (addrs im1 ip = ad1) as Ead by (by rewrite Eip).
  assert (addr_at ad1 NDIRECT = b) as Hi1.
  { unfold ad1. rewrite addr_at_insert by lia. by rewrite decide_True. }
  destruct (bmap_new_entry im1 ip n Hi' Hip) as (a & im2 & E2 & G2 & Ea & Haz & Hfr2); rewrite ?Ead.
  - by destruct G1 as (_ & _ & (Hf1 & _) & _).
  - lia.
  - rewrite Hi1. lia.
  - rewrite Ed. unfold ad1. rewrite baddr_new_indirect by (done || lia).
    unfold baddr. rewrite (proj2 (Nat.ltb_ge _ _)) by lia. by rewrite Hiz.
  - lia.
  - rewrite Ead in *. exists a, im2, ad1.
    split; [|split; [by eapply grows_trans|split; [exact Ea|split; [exact Haz|lia]]]].
    rewrite <- E2. unfold Libfs.bmap. unfold NDIRECT, NINDIRECT, MAXFILE in *.
    rewrite (proj2 (Z.ltb_ge _ _)) by lia. cbv zeta. rewrite (proj2 (Z.leb_gt _ _)) by lia.
    step E. symmetry. erewrite bind_ok; [reflexivity|].
    rewrite <- Hi1 at 1. rewrite <- Ead at 1. apply addr_of_hit; try done; [unfold NDIRECT; lia|].
    rewrite Ead. unfold NDIRECT. rewrite Hi1. lia.
Qed.

(** [bmap] finds or allocates the block and keeps the contents of the file. *)
Lemma bmap_run im ip n : iok im → 0 ≤ ip < sb_ninodes sb → file_wf im ip → (n < MAXFILE)%nat →
  (1 < free_blocks im)%nat → bmaps im ip n.
Proof.
  intros Hi Hip Hf Hn Hfr. destruct (decide (baddr (dm (im_blk im)) (addrs im ip) n = 0)) as [Hz|Hz].
  - destruct (decide (n < NDIRECT)%nat); [by apply bmap_new_direct|].
    destruct (decide (addr_at (addrs im ip) NDIRECT = 0)); [apply bmap_new_indirect; done || lia|].
    destruct (bmap_new_entry im ip n) as (b & im' & E & G & Eb & Hbz & Hfr'); try done; try lia.
    exists b, im', (addrs im ip). split_and!; try done. lia.
  - eexists _, im, (addrs im ip). split_and!; [by apply bmap_present|by apply grows_refl|done|done|lia].
Qed.

(** *** Reading *)

(** The blocks of the file are ones [valid_data_block] accepts. *)
Definition inner im ip : Prop := ∀ n, (n < MAXFILE)%nat → baddr (dm (im_blk im)) (addrs im ip) n ≠ 0 →
  fdata ≤ baddr (dm (im_blk im)) (addrs im ip) n.

Definition file_img im ip : Prop :=
  iok im ∧ 0 ≤ ip < sb_ninodes sb ∧ file_wf im ip ∧ inner im ip ∧ di_size (inode_at im ip) ≤ MAXBYTES.

(** The bytes of the file, also beyond its size. *)
Definition fcontent im ip : list Z := fbytes (dm (im_blk im)) (addrs im ip).

(** No holes below the size. *)
Definition no_holes im ip : Prop := ∀ k, (k < MAXFILE)%nat → Z.of_nat k * BS < di_size (inode_at im ip) →
  baddr (dm (im_blk im)) (addrs im ip) k ≠ 0.

Lemma min_min x y : Libfs.min x y = Z.min x y.
Proof. unfold Libfs.min. destruct (Z.ltb_spec x y); lia. Qed.

Lemma turn_len_ok n t off : 0 ≤ off → 0 ≤ t < n → n ≤ MAXBYTES → turn_len n t off = chunk n t off.
Proof.
  intros Ho Ht Hn. unfold MAXBYTES in Hn. destruct (chunk_range n t off Ho ltac:(lia)) as [Hc1 Hc2].
  unfold turn_len. rewrite min_min, swrap_small by lia. fold (chunk n t off). apply wrap_small. lia.
Qed.

Lemma read_turn_ok im ip n t off acc : file_img im ip → no_holes im ip →
  0 ≤ off → 0 ≤ t < n → n ≤ MAXBYTES → off + (n - t) ≤ di_size (inode_at im ip) →
  let m := chunk n t off in
  read_turn ip n (t, off, acc) im =
    Ok (inl (t + m, off + m, acc ++ slice (Z.to_nat off) (Z.to_nat m) (fcontent im ip))) im.
Proof.
  intros (Hi & Hip & Hf & Hin & Hsz) Hmap Ho Ht Hn Hle m. unfold MAXBYTES in *.
  destruct (chunk_range n t off Ho ltac:(lia)) as [Hm1 Hm2]. fold m in Hm1, Hm2.
  destruct (off_split off Ho) as (Eo & Hmod & Hdiv).
  pose proof (off_block off ltac:(unfold MAXBYTES; lia)) as Hk. set (k := Z.to_nat (off / BS)) in *.
  assert (baddr (dm (im_blk im)) (addrs im ip) k ≠ 0) as Hz by (apply Hmap; [done|lia]).
  pose proof Hf as (_ & F1 & _). destruct (F1 k Hk Hz) as [Hrg _].
  unfold read_turn. rewrite (proj2 (Z.ltb_lt t n)) by lia.
  replace (off / BS) with (Z.of_nat k) by lia. step (bmap_present im ip k Hi Hip Hf Hk Hz).
  step (valid_ok im (baddr (dm (im_blk im)) (addrs im ip) k) Hi).
  rewrite bool_decide_eq_true_2 by (pose proof (Hin k Hk Hz); lia). cbn [negb]. cbv zeta.
  rewrite turn_len_ok by (done || unfold MAXBYTES; lia). fold m.
  rewrite (proj2 (Z.ltb_ge _ _)) by lia. step (data_rd im _ Hi Hrg).
  rewrite !(wrap_small 32) by lia. unfold ret. do 3 f_equal.
  replace (Z.to_nat off) with (BSIZE * k + Z.to_nat (off mod BS))%nat by lia. unfold fcontent, fbytes.
  rewrite (slice_concat BSIZE _ k (fblock (dm (im_blk im)) (addrs im ip) k)).
  - unfold fblock. by rewrite (proj2 (Z.eqb_neq _ 0)).
  - apply fblocks_len, dm_ok, Hi.
  - by apply fblocks_lookup.
  - lia.
Qed.

Lemma read_loop_ok fuel im ip n t off acc : file_img im ip → no_holes im ip →
  0 ≤ off → 0 ≤ t ≤ n → n ≤ MAXBYTES → off + (n - t) ≤ di_size (inode_at im ip) → (Z.to_nat (n - t) < fuel)%nat →
  loopM fuel (read_turn ip n) (t, off, acc) im =
    Ok (n, acc ++ slice (Z.to_nat off) (Z.to_nat (n - t)) (fcontent im ip)) im.
Proof.
  intros Hf Hmap. revert t off acc. induction fuel as [|fuel IH]; intros t off acc Ho Ht Hn Hle Hfu; [lia|].
  cbn [loopM]. destruct (decide (t = n)) as [->|Hne].
  - unfold read_turn. rewrite Z.ltb_irrefl. go. rewrite Z.sub_diag. cbn. by rewrite app_nil_r.
  - step (read_turn_ok im ip n t off acc Hf Hmap Ho ltac:(lia) Hn Hle).
    destruct (chunk_range n t off Ho ltac:(lia)) as [Hm1 _]. set (m := chunk n t off) in *.
    rewrite IH by lia. f_equal. f_equal. rewrite <- app_assoc. f_equal.
    replace (Z.to_nat (n - t)) with (Z.to_nat m + Z.to_nat (n - (t + m)))%nat by lia.
    rewrite slice_app_split. do 2 f_equal. lia.
Qed.

(** [iread] returns the bytes from [off] on, as many as there are. *)
Lemma iread_run im ip n off : file_img im ip → no_holes im ip → di_type (inode_at im ip) ≠ T_DEV →
  0 ≤ off ≤ di_size (inode_at im ip) → 0 ≤ n → off + n < 2 ^ 32 →
  let n' := Z.min n (di_size (inode_at im ip) - off) in
  iread ip n off im = Ok (n', slice (Z.to_nat off) (Z.to_nat n') (fcontent im ip)) im.
Proof.
  intros Hf Hmap Hty Ho Hn Hov n'. pose proof Hf as (Hi & Hip & _ & _ & Hsz). unfold MAXBYTES in Hsz.
  unfold iread. step (iload_ok im ip Hi Hip). rewrite (proj2 (Z.eqb_neq _ _)) by done.
  rewrite !Z.gtb_ltb. rewrite (proj2 (Z.ltb_ge _ off)) by lia. rewrite (wrap_small 32 (off + n)) by lia.
  rewrite (proj2 (Z.ltb_ge (off + n) off)) by lia. cbn [orb].
  assert ((if di_size (inode_at im ip) <? off + n then u32 (di_size (inode_at im ip) - off) else n) = n') as ->.
  { unfold n'. rewrite wrap_small by lia. destruct (Z.ltb_spec (di_size (inode_at im ip)) (off + n)); lia. }
  erewrite bind_ok; [|apply read_loop_ok; [done|done|lia|lia|unfold MAXBYTES; lia|lia|lia]].
  rewrite Z.sub_0_r. cbn [fst snd app]. unfold ret. f_equal. f_equal. apply swrap_small; lia.
Qed.

(** *** Writing *)

(** From [m] and [ad] to [m'] and [ad'] the bytes [data] were written at [off]
    and at most [c] blocks allocated; no block of another file changed. *)
Definition mwrote m ad m' ad' (off : Z) (data : list Z) (c : nat) : Prop :=
  fwf sb lim m' ad' ∧ fbytes m' ad' = splice (Z.to_nat off) data (fbytes m ad) ∧
  frame m m' sb (owned m ad) ∧
  (∀ b, owned m' ad' b → used m sb b = true → owned m ad b) ∧
  (∀ n, (n < MAXFILE)%nat → baddr m ad n ≠ 0 → baddr m' ad' n = baddr m ad n) ∧
  (∀ n, (n < MAXFILE)%nat → data ≠ [] → off / BS ≤ Z.of_nat n →
     Z.of_nat n * BS < off + Z.of_nat (length data) → baddr m' ad' n ≠ 0) ∧
  (∀ n, (n < MAXFILE)%nat → baddr m ad n = 0 → baddr m' ad' n ≠ 0 → used m sb (baddr m' ad' n) = false) ∧
  (nfree m sb lim ≤ nfree m' sb lim + c)%nat.

Lemma mwrote_nil m ad off : fwf sb lim m ad → mwrote m ad m ad off [] 0.
Proof. intros Hf. split_and!; try done; try lia. by rewrite splice_nil. Qed.

Lemma mwrote_trans m ad m1 ad1 m2 ad2 off d1 d2 c1 c2 : 0 ≤ off → blocks_ok m → geo m lim sb →
  off + Z.of_nat (length d1 + length d2) ≤ MAXBYTES →
  mwrote m ad m1 ad1 off d1 c1 → mwrote m1 ad1 m2 ad2 (off + Z.of_nat (length d1)) d2 c2 →
  mwrote m ad m2 ad2 off (d1 ++ d2) (c1 + c2).
Proof.
  intros Ho Hl Hg Hlen (A1 & A2 & A3 & A4 & A5 & A6 & A7 & A8) (B1 & B2 & B3 & B4 & B5 & B6 & B7 & B8).
  pose proof (dstart_pos _ _ _ Hg). pose proof Hg as (_ & _ & _ & Hd & _).
  assert (∀ b, dstart sb ≤ b < lim → used m sb b = true → used m1 sb b = true) as Hmon
    by (intros; apply A3; [lia|done]).
  split; [done|]. split; [|split; [|split; [|split; [|split; [|split]]]]].
  - rewrite B2, A2. replace (Z.to_nat (off + Z.of_nat (length d1))) with (Z.to_nat off + length d1)%nat by lia.
    apply splice_app. rewrite fbytes_length by done. apply bytes_bound. lia.
  - eapply frame_trans; [exact A3|exact B3|]. auto.
  - intros b Hb Hu. apply A4; [|done]. apply B4; [done|]. apply Hmon; [|done]. by eapply owned_range.
  - intros n Hn Hz. rewrite B5 by (done || by rewrite A5). by apply A5.
  - intros n Hn Hne H1' H2'. rewrite length_app in H2'. destruct d1 as [|x d1].
    { cbn [length app] in *. apply B6; try done; [by rewrite Z.add_0_r|lia]. }
    destruct (decide (Z.of_nat n * BS < off + Z.of_nat (length (x :: d1)))).
    { rewrite B5; [|done|]; by apply A6. }
    apply B6; [done| | |lia]; [intros ->; cbn [length] in *; lia|].
    apply Z.div_le_upper_bound; [unfold BSIZE; lia|]. lia.
  - intros n Hn Hz Hnz. destruct (decide (baddr m1 ad1 n = 0)) as [E|E].
    + pose proof (B7 n Hn E Hnz) as Hu. destruct (used m sb (baddr m2 ad2 n)) eqn:Eu; [|done].
      rewrite Hmon in Hu; [done| |done]. destruct B1 as (_ & F1 & _). by apply F1.
    + rewrite B5 by done. by apply A7.
  - lia.
Qed.

(** Extending the file and then changing one of its blocks. *)
Lemma mwrote_block m ad m1 ad1 k o data off c : ext sb lim m ad m1 ad1 → geo m1 lim sb → (k < MAXFILE)%nat →
  baddr m1 ad1 k ≠ 0 → (o + length data ≤ BSIZE)%nat → off = BS * Z.of_nat k + Z.of_nat o →
  (nfree m sb lim ≤ nfree m1 sb lim + c)%nat →
  let a := baddr m1 ad1 k in
  mwrote m ad (<[a := splice o data (m1 a)]> m1) ad1 off data c.
Proof.
  intros X1 Hg1 Hk Haz Ho Eoff Hn a. pose proof X1 as (W1 & _ & L1 & _ & Hsame & _ & Fr1 & _ & Hnew).
  destruct (fwf_write sb lim m1 ad1 k (splice o data (m1 a))) as (Eb & W5 & Fr5 & Eu); try done.
  destruct (fbytes_write sb lim m1 ad1 k o data) as (Ef & _); try done. fold a in Eb, W5, Fr5, Eu, Ef.
  split; [done|]. split; [|split; [|split; [|split; [|split; [|split]]]]].
  - rewrite Ef, (fbytes_ext sb lim _ _ _ _ X1). f_equal. lia.
  - eapply frame_trans; [by eapply frame_owned|exact Fr5|]. cbn. intros b Hu Hb'. by eapply owned_ext.
  - intros b [Hz Hb'] Hu. eapply owned_ext; [exact X1| |done]. split; [done|].
    destruct Hb' as [->|(n' & Hn' & ->)]; [by left|right; exists n']. split; [done|]. by rewrite Eb.
  - intros n' Hn' Hz. rewrite Eb. by apply Hsame.
  - intros n' Hn' Hne H1' H2'. rewrite Eb.
    assert (off / BS = Z.of_nat k) as Ek.
    { rewrite Eoff, Z.mul_comm, Z.div_add_l by (unfold BSIZE; lia). rewrite Z.div_small; [lia|].
      destruct data; [done|]. cbn [length] in Ho. lia. }
    assert (Z.of_nat n' < Z.of_nat k + 1) as Hlt by (apply (Z.mul_lt_mono_pos_r BS); unfold BSIZE in *; lia).
    assert (n' = k) as -> by lia. done.
  - intros n' Hn' Hz Hnz. rewrite Eb in Hnz |- *. by apply Hnew.
  - rewrite (nfree_same sb lim m1 (<[a := splice o data (m1 a)]> m1)); [exact Hn| |exact Eu].
    pose proof (dstart_pos _ _ _ Hg1). destruct Hg1 as (_ & _ & _ & ? & _). lia.
Qed.

Definition wrote_img im im' ip ad' (off : Z) (data : list Z) (c : nat) : Prop :=
  iok im' ∧ im_top im' = im_top im ∧ inode_at im' ip = with_addrs ad' (inode_at im ip) ∧
  (∀ ip', 0 ≤ ip' < sb_ninodes sb → ip' ≠ ip → inode_at im' ip' = inode_at im ip') ∧
  mwrote (dm (im_blk im)) (addrs im ip) (dm (im_blk im')) ad' off data c.

(** Overwriting a data block. *)
Lemma data_wr im a d : iok im → dstart sb ≤ a < lim → length d = BSIZE →
  let im' := mkImage (<[a := d]> (im_blk im)) (im_top im) in
  wr a d im = Ok tt im' ∧ iok im' ∧ dm (im_blk im') = <[a := d]> (dm (im_blk im)) ∧
  ∀ ip, 0 ≤ ip < sb_ninodes sb → inode_at im' ip = inode_at im ip.
Proof.
  intros Hi Ha Hd im'. destruct (iok_geo im Hi) as (? & ? & ? & ? & ? & ?). pose proof Hi as (Hg & Hl & ? & ? & ? & Hall).
  assert (dm (im_blk im') = <[a := d]> (dm (im_blk im))) as Ed by (apply dm_insert_data; lia).
  split; [apply wr_ok; lia|]. split; [|split; [done|]].
  - split; [|split; [|split; [done|split; [done|split; [done|]]]]].
    + rewrite Ed. eapply frame_geo; [exact Hg|]. apply (frame_data _ lim sb a d (λ b, b = a)); [done|lia|done].
    + intros x. unfold im', insert, fn_insert. cbn [im_blk]. case_decide; [done|apply Hl].
    + intros b Hb. rewrite Ed, used_data by lia. by apply Hall.
  - intros ip Hip. pose proof (IBLOCK_range sb ip Hip). unfold inode_at, im'. cbn [im_blk].
    by rewrite fn_lookup_insert_ne by lia.
Qed.

Lemma inner_wrote im im' ip ad' off data c : iok im → inner im ip → wrote_img im im' ip ad' off data c →
  inner im' ip.
Proof.
  intros Hi Hin (Hi' & _ & Ei & _ & (W & _ & _ & _ & A5 & _ & A7 & _)) n Hn Hz. rewrite Ei in *. cbn [di_addrs with_addrs] in *.
  destruct (decide (baddr (dm (im_blk im)) (addrs im ip) n = 0)) as [E|E].
  - apply (used_data_block im _ Hi); [|by apply A7]. destruct W as (_ & F1 & _). destruct (F1 n Hn Hz) as [Hr _].
    destruct (iok_geo im Hi) as (? & ? & ? & ? & ? & ?). lia.
  - rewrite A5 by done. by apply Hin.
Qed.

Lemma wrote_file im im' ip ad' off data c : file_img im ip → wrote_img im im' ip ad' off data c → file_img im' ip.
Proof.
  intros (Hi & Hip & Hf & Hin & Hsz) Hw. pose proof Hw as (Hi' & _ & Ei & _ & (W & _)).
  split; [done|]. split; [done|]. split; [by rewrite Ei|]. split; [exact (inner_wrote _ _ _ _ _ _ _ Hi Hin Hw)|]. by rewrite Ei.
Qed.

Lemma write_turn_ok im ip buf n t off : file_img im ip → 0 ≤ off → 0 ≤ t < n → n ≤ MAXBYTES →
  off + (n - t) ≤ MAXBYTES → n ≤ Z.of_nat (length buf) → (1 < free_blocks im)%nat →
  let m := chunk n t off in
  ∃ im' ad', write_turn ip buf n (t, off) im = Ok (inl (t + m, off + m)) im' ∧
    wrote_img im im' ip ad' off (slice (Z.to_nat t) (Z.to_nat m) buf) 2.
Proof.
  intros (Hi & Hip & Hf & Hin & Hsz) Ho Ht Hn Hle Hbuf Hfr m. unfold MAXBYTES in *.
  destruct (chunk_range n t off Ho ltac:(lia)) as [Hm1 Hm2]. fold m in Hm1, Hm2.
  destruct (off_split off Ho) as (Eo & Hmod & Hdiv).
  pose proof (off_block off ltac:(unfold MAXBYTES; lia)) as Hk. set (k := Z.to_nat (off / BS)) in *.
  destruct (bmap_run im ip k Hi Hip Hf Hk Hfr) as (a & im1 & ad' & E1 & (I1 & T1 & X1 & Ei1 & O1) & Ea & Haz & Hfr1).
  pose proof X1 as ((_ & F1 & _) & G1 & L1 & _ & Hsame & _ & _ & _ & Hnew).
  rewrite Ea in Haz. destruct (F1 k Hk Haz) as [Har _]. rewrite <- Ea in Har.
  assert (fdata ≤ a) as Hfa.
  { destruct (decide (baddr (dm (im_blk im)) (addrs im ip) k = 0)) as [E|E].
    - apply (used_data_block im _ Hi); [|rewrite Ea; by apply Hnew].
      destruct (iok_geo im Hi) as (? & ? & ? & ? & ? & ?). lia.
    - rewrite Ea, Hsame by done. by apply Hin. }
  set (o := Z.to_nat (off mod BS)). set (data := slice (Z.to_nat t) (Z.to_nat m) buf).
  assert (length data = Z.to_nat m) as Hdl by (apply slice_length; lia).
  assert (o + length data ≤ BSIZE)%nat as Hod by lia.
  assert (length (splice o data (dm (im_blk im1) a)) = BSIZE) as Hlen by (rewrite splice_length; [apply L1|by rewrite L1]).
  destruct (data_wr im1 a _ I1 Har Hlen) as (E2 & I2 & D2 & O2).
  eexists _, ad'. split.
  - unfold write_turn. rewrite (proj2 (Z.ltb_lt t n)) by lia. replace (off / BS) with (Z.of_nat k) by lia.
    step E1. step (valid_ok im1 a I1). rewrite bool_decide_eq_true_2 by lia. cbn [negb]. cbv zeta.
    rewrite turn_len_ok by (done || unfold MAXBYTES; lia). fold m.
    rewrite (proj2 (Z.ltb_ge _ _)) by lia. step (data_rd im1 a I1 Har). fold o data. step E2.
    rewrite !(wrap_small 32) by lia. reflexivity.
  - split; [exact I2|]. split; [exact T1|]. split; [by rewrite O2|]. split; [intros ip' Hip' Hne'; rewrite O2 by done; by apply O1|].
    rewrite D2, Ea. apply mwrote_block; try done; lia.
Qed.

Lemma write_loop_ok fuel im ip buf n t off : file_img im ip → 0 ≤ off → 0 ≤ t ≤ n → n ≤ MAXBYTES →
  off + (n - t) ≤ MAXBYTES → n ≤ Z.of_nat (length buf) → (2 * iters off (n - t) ≤ free_blocks im)%nat →
  (Z.to_nat (n - t) < fuel)%nat →
  ∃ im' ad', loopM fuel (write_turn ip buf n) (t, off) im = Ok (n, off + (n - t)) im' ∧
    wrote_img im im' ip ad' off (slice (Z.to_nat t) (Z.to_nat (n - t)) buf) (2 * iters off (n - t)).
Proof.
  revert im t off. induction fuel as [|fuel IH]; intros im t off Hf Ho Ht Hn Hle Hbuf Hfr Hfu; [lia|].
  cbn [loopM]. destruct (decide (t = n)) as [->|Hne].
  - exists im, (addrs im ip). unfold write_turn. rewrite Z.ltb_irrefl. go. rewrite Z.sub_diag, Z.add_0_r. split; [done|].
    pose proof Hf as (Hi & Hip & Hfw & _). split; [done|]. split; [done|]. split; [by rewrite dinode_same_addrs|].
    split; [done|]. by apply mwrote_nil.
  - pose proof (iters_chunk n t off Ho ltac:(lia)) as Hit. pose proof Hf as (Hi & Hip & Hfw & _).
    destruct (chunk_range n t off Ho ltac:(lia)) as [Hm1 Hm2].
    destruct (write_turn_ok im ip buf n t off Hf Ho ltac:(lia) Hn Hle Hbuf ltac:(lia)) as (im1 & ad1 & E1 & W1).
    set (m := chunk n t off) in *. clearbody m.
    remember (iters (off + m) (n - (t + m))) as c' eqn:Ec'.
    pose proof (wrote_file im im1 ip ad1 _ _ _ Hf W1) as Hf1.
    pose proof W1 as (I1 & T1 & Ei1 & O1 & MW1). pose proof MW1 as (_ & _ & _ & _ & _ & _ & _ & N1).
    destruct (IH im1 (t + m) (off + m) Hf1) as (im2 & ad2 & E2 & W2); try lia.
    { rewrite <- Ec'. unfold free_blocks in *. lia. }
    rewrite <- Ec' in W2. pose proof W2 as (I2 & T2 & Ei2 & O2 & MW2). rewrite Ei1 in Ei2, MW2.
    cbn [di_addrs with_addrs] in MW2.
    exists im2, ad2. step E1. split; [rewrite E2; f_equal; f_equal; lia|].
    split; [done|]. split; [congruence|]. split; [by rewrite Ei2|]. split; [intros ip' Hip' Hne'; rewrite O2 by done; by apply O1|].
    assert (length (slice (Z.to_nat t) (Z.to_nat m) buf) = Z.to_nat m) as Hl1 by (apply slice_length; lia).
    assert (length (slice (Z.to_nat (t + m)) (Z.to_nat (n - (t + m))) buf) = Z.to_nat (n - (t + m)))
      as Hl2 by (apply slice_length; lia).
    replace (Z.to_nat (n - t)) with (Z.to_nat m + Z.to_nat (n - (t + m)))%nat by lia.
    rewrite slice_app_split. replace (Z.to_nat t + Z.to_nat m)%nat with (Z.to_nat (t + m)) by lia.
    assert (mwrote (dm (im_blk im)) (addrs im ip) (dm (im_blk im2)) ad2 off
      (slice (Z.to_nat t) (Z.to_nat m) buf ++ slice (Z.to_nat (t + m)) (Z.to_nat (n - (t + m))) buf) (2 + 2 * c')) as MW.
    { eapply mwrote_trans; [done|apply dm_ok, Hi|apply Hi|rewrite Hl1, Hl2; lia|exact MW1|].
      rewrite Hl1. replace (off + Z.of_nat (Z.to_nat m)) with (off + m) by lia. exact MW2. }
    destruct MW as (A1 & A2 & A3 & A4 & A5 & A6 & A7 & A8).
    split; [done|]. do 6 (split; [assumption|]). lia.
Qed.

(** The image after [iwrite]: the inode with its new size. *)
Definition sized im ip (x : Z) : image := store im ip (with_size x (inode_at im ip)).

Lemma sized_ok im ip x : file_img im ip → 0 ≤ x ≤ MAXBYTES →
  file_img (sized im ip x) ip ∧ dm (im_blk (sized im ip x)) = dm (im_blk im) ∧
  inode_at (sized im ip x) ip = with_size x (inode_at im ip) ∧
  ∀ ip', 0 ≤ ip' < sb_ninodes sb → ip' ≠ ip → inode_at (sized im ip x) ip' = inode_at im ip'.
Proof.
  intros (Hi & Hip & Hf & Hin & Hsz) Hx. unfold MAXBYTES in *.
  assert (dinode_wf (with_size x (inode_at im ip))) as Hwf.
  { pose proof (inode_at_wf im ip) as Hwf. unfold dinode_wf in *. cbn [di_type di_major di_minor di_nlink
      di_ownerid di_groupid di_mode di_size di_addrs with_size]. split_and!; try apply Hwf; lia. }
  destruct (store_iok im ip _ Hi Hwf Hip) as [Hi' Ed].
  assert (inode_at (sized im ip x) ip = with_size x (inode_at im ip)) as Ei.
  { unfold sized. rewrite store_inode by (done || apply Hi || lia). by rewrite decide_True. }
  split; [|split; [done|split; [done|]]].
  - split; [done|]. split; [done|]. unfold inner. rewrite Ei. change (dm (im_blk (sized im ip x))) with
      (dm (im_blk (store im ip (with_size x (inode_at im ip))))). rewrite Ed. split; [done|]. split; [done|].
    cbn [di_size with_size]. unfold MAXBYTES. lia.
  - intros ip' Hip' Hne. unfold sized. rewrite store_inode by (done || apply Hi || lia). by rewrite decide_False.
Qed.

(** Another file that shares no block with the one written. *)
Definition untouched im im' ip' : Prop :=
  inode_at im' ip' = inode_at im ip' ∧ file_img im' ip' ∧ fcontent im' ip' = fcontent im ip' ∧
  (no_holes im ip' → no_holes im' ip').

Lemma wrote_others im im' ip ad' off data c ip' : iok im → wrote_img im im' ip ad' off data c →
  ip' ≠ ip → file_img im ip' → apart (dm (im_blk im)) (addrs im ip) (addrs im ip') → untouched im im' ip'.
Proof.
  intros Hi (I1 & _ & _ & O1 & (A1 & _ & A3 & A4 & _)) Hne (_ & Hip' & Hf' & Hin' & Hsz') Hap.
  pose proof (O1 ip' Hip' Hne) as E.
  destruct (frame_apart sb lim (dm (im_blk im)) (dm (im_blk im')) (addrs im ip) ad' (addrs im ip')
    (proj1 Hi) Hf' Hap A3 A4) as (Hf & Hc & _ & Eb).
  split; [done|]. unfold file_img, inner, fcontent, no_holes. rewrite E. split; [|split; [done|]].
  - split; [done|]. split; [done|]. split; [done|]. split; [|done]. intros n Hn. rewrite Eb by done. by apply Hin'.
  - intros Hm k Hk. rewrite Eb by done. by apply Hm.
Qed.

(** [iwrite] up to the update of the size. *)
Lemma iwrite_data im ip buf off : let n := Z.of_nat (length buf) in
  file_img im ip → di_type (inode_at im ip) ≠ T_DEV → 0 ≤ off ≤ di_size (inode_at im ip) → off + n ≤ MAXBYTES →
  (2 * iters off n ≤ free_blocks im)%nat →
  ∃ im1 ad1, wrote_img im im1 ip ad1 off buf (2 * iters off n) ∧
    iwrite ip buf off im = (whenM ((0 <? n) && (di_size (inode_at im ip) <? off + n))
      (iset ip (with_size (off + n))) ;;; ret n) im1.
Proof.
  intros n Hf Hty Ho Hmax Hfr. pose proof Hf as (Hi & Hip & _ & _ & Hsz).
  assert (0 ≤ n) as Hn by (unfold n; lia).
  destruct (write_loop_ok (S (length buf)) im ip buf n 0 off Hf) as (im1 & ad1 & E1 & W1); rewrite ?Z.sub_0_r; try lia.
  rewrite Z.sub_0_r in E1, W1.
  assert (slice (Z.to_nat 0) (Z.to_nat n) buf = buf) as Es by (unfold n; rewrite Nat2Z.id; apply slice_all).
  rewrite Es in W1. pose proof W1 as (I1 & _ & Ei1 & _). exists im1, ad1. split; [exact W1|].
  unfold iwrite. cbv zeta. fold n. step (iload_ok im ip Hi Hip). unfold MAXBYTES in Hmax.
  rewrite (proj2 (Z.eqb_neq _ _)) by done. rewrite !Z.gtb_ltb. rewrite (proj2 (Z.ltb_ge _ off)) by lia.
  rewrite (wrap_small 32 (off + n)) by lia. rewrite (proj2 (Z.ltb_ge (off + n) off)) by lia. cbn [orb].
  rewrite (proj2 (Z.ltb_ge MAXBYTES (off + n))) by (unfold MAXBYTES; lia). step E1.
  step (iload_ok im1 ip I1 Hip). rewrite Z.gtb_ltb, Ei1. cbn [di_size with_addrs].
  by rewrite swrap_small by lia.
Qed.

(** [iwrite] stores all bytes, keeps the file well formed, extends its size and
    leaves the inodes and contents of the other files alone. *)
Definition iwritten im im' ip buf (off : Z) : Prop :=
  file_img im' ip ∧ fcontent im' ip = splice (Z.to_nat off) buf (fcontent im ip) ∧
  di_size (inode_at im' ip) =
    Z.max (di_size (inode_at im ip)) (if decide (buf = []) then 0 else off + Z.of_nat (length buf)) ∧
  di_type (inode_at im' ip) = di_type (inode_at im ip) ∧ (no_holes im ip → no_holes im' ip) ∧
  (∀ ip', ip' ≠ ip → file_img im ip' → apart (dm (im_blk im)) (addrs im ip) (addrs im ip') → untouched im im' ip').

Lemma iwritten_grow im im1 ip ad1 buf off c : let x := off + Z.of_nat (length buf) in
  file_img im ip → wrote_img im im1 ip ad1 off buf c → 0 ≤ off ≤ di_size (inode_at im ip) →
  buf ≠ [] → di_size (inode_at im ip) < x ≤ MAXBYTES → iwritten im (sized im1 ip x) ip buf off.
Proof.
  intros x Hf W1 Ho Hb Hx. pose proof (wrote_file _ _ _ _ _ _ _ Hf W1) as Hf1.
  pose proof W1 as (I1 & _ & Ei1 & O1 & (_ & A2 & _ & _ & A5 & A6 & _)).
  destruct (sized_ok im1 ip x Hf1) as (F2 & D2 & Ei2 & O2); [lia|]. rewrite Ei1 in Ei2.
  split; [exact F2|]. split; [|split; [|split; [|split]]].
  - unfold fcontent. rewrite D2, Ei2. cbn [di_addrs with_size with_addrs]. exact A2.
  - rewrite Ei2. cbn [di_size with_size]. rewrite decide_False by done. fold x. lia.
  - by rewrite Ei2.
  - intros Hm k Hk Hks. rewrite D2, Ei2 in *. cbn [di_size with_size di_addrs with_addrs] in *.
    destruct (decide (Z.of_nat k * BS < di_size (inode_at im ip))) as [Hlt|Hge].
    { rewrite A5; [by apply Hm|done|by apply Hm]. }
    apply A6; [done|done| |exact Hks]. apply Z.div_le_upper_bound; [unfold BSIZE; lia|]. lia.
  - intros ip' Hne Hf' Hap.
    destruct (wrote_others im im1 ip ad1 off buf c ip' (proj1 Hf) W1 Hne Hf' Hap) as (E & G & C & N).
    pose proof Hf' as (_ & Hip' & _). pose proof (O2 ip' Hip' Hne) as E2. destruct G as (_ & _ & G).
    unfold untouched, file_img, inner, fcontent, no_holes in *. rewrite D2, E2.
    split; [done|]. split; [|done]. split; [apply F2|done].
Qed.

Lemma iwritten_same im im1 ip ad1 buf off c :
  file_img im ip → wrote_img im im1 ip ad1 off buf c →
  buf = [] ∨ off + Z.of_nat (length buf) ≤ di_size (inode_at im ip) → iwritten im im1 ip buf off.
Proof.
  intros Hf W1 Hx. pose proof (wrote_file _ _ _ _ _ _ _ Hf W1) as Hf1. pose proof (inode_at_wf im ip) as Hwf.
  pose proof W1 as (I1 & _ & Ei1 & O1 & (_ & A2 & _ & _ & A5 & _)).
  split; [exact Hf1|]. split; [|split; [|split; [|split]]].
  - unfold fcontent. rewrite Ei1. exact A2.
  - rewrite Ei1. cbn [di_size with_addrs]. assert (0 ≤ di_size (inode_at im ip)) by apply Hwf.
    case_decide as Hb; [lia|]. destruct Hx; [done|]. lia.
  - by rewrite Ei1.
  - intros Hm k Hk Hks. rewrite Ei1 in *. cbn [di_size with_size di_addrs with_addrs] in *.
    rewrite A5; [by apply Hm|done|by apply Hm].
  - intros ip' Hne Hf' Hap. eapply wrote_others; [apply Hf|exact W1|exact Hne|exact Hf'|exact Hap].
Qed.

Lemma iwrite_run im ip buf off : file_img im ip → di_type (inode_at im ip) ≠ T_DEV →
  0 ≤ off ≤ di_size (inode_at im ip) → off + Z.of_nat (length buf) ≤ MAXBYTES →
  (2 * iters off (Z.of_nat (length buf)) ≤ free_blocks im)%nat →
  ∃ im', iwrite ip buf off im = Ok (Z.of_nat (length buf)) im' ∧ iwritten im im' ip buf off.
Proof.
  intros Hf Hty Ho Hmax Hfr. pose proof Hf as (_ & Hip & _).
  destruct (iwrite_data im ip buf off Hf Hty Ho Hmax Hfr) as (im1 & ad1 & W1 & Ew). rewrite Ew.
  pose proof W1 as (I1 & _). set (x := off + Z.of_nat (length buf)) in *.
  destruct (decide (buf = [] ∨ x ≤ di_size (inode_at im ip))) as [Hs|Hg].
  - assert ((0 <? Z.of_nat (length buf)) && (di_size (inode_at im ip) <? x) = false) as ->.
    { destruct Hs as [->|Hs]; [done|]. rewrite (proj2 (Z.ltb_ge _ x)) by lia. apply andb_false_r. }
    exists im1. split; [done|]. by eapply iwritten_same.
  - assert (buf ≠ []) as Hb by tauto. assert (0 < length buf)%nat by (destruct buf; [done|cbn; lia]).
    rewrite (proj2 (Z.ltb_lt 0 _)), (proj2 (Z.ltb_lt _ x)) by lia. cbn [andb whenM].
    exists (sized im1 ip x). step (iset_ok im1 ip (with_size x) I1 Hip). split; [done|].
    eapply iwritten_grow; [done|exact W1|done|done|]. fold x. lia.
Qed.
End image.

(** ** The tool and the kernel *)

Section thms.
Context (sb : superblock).
Implicit Types (im : image).

(** C13: what [iwrite] stores is what [iread] returns: a write at any offset of
    a file, with block allocation, succeeds when the disk has room, is read
    back, and leaves what is read from every other file as it was. *)
Theorem iwrite_iread im ip buf off : let n := Z.of_nat (length buf) in
  file_img sb im ip → no_holes sb im ip → di_type (inode_at im ip) ≠ T_DEV →
  0 ≤ off ≤ di_size (inode_at im ip) → off + n ≤ MAXBYTES → (2 * iters off n ≤ free_blocks sb im)%nat →
  ∃ im', iwrite ip buf off im = Ok n im' ∧ iread ip n off im' = Ok (n, buf) im' ∧
    ∀ ip' n' off', ip' ≠ ip → file_img sb im ip' → no_holes sb im ip' → di_type (inode_at im ip') ≠ T_DEV →
      apart (dm sb (im_blk im)) (di_addrs (inode_at im ip)) (di_addrs (inode_at im ip')) →
      0 ≤ off' ≤ di_size (inode_at im ip') → 0 ≤ n' → off' + n' < 2 ^ 32 →
      ∃ r, iread ip' n' off' im = Ok r im ∧ iread ip' n' off' im' = Ok r im'.
Proof.
  intros n Hf Hm Hty Ho Hmax Hfr. pose proof Hf as ((_ & Hl & _) & _).
  destruct (iwrite_run sb im ip buf off Hf Hty Ho Hmax Hfr) as (im' & E & F' & C' & S' & T' & M' & O').
  fold n in S'. exists im'. split; [exact E|]. split.
  - rewrite (iread_run sb im' ip n off F' (M' Hm)); rewrite ?T', ?S'; try done; try (unfold MAXBYTES in *; lia).
    assert (Z.min n (Z.max (di_size (inode_at im ip)) (if decide (buf = []) then 0 else off + n) - off) = n) as ->.
    { case_decide as Hb; [|lia]. assert (n = 0) as -> by (unfold n; by rewrite Hb). lia. }
    rewrite C'. unfold n at 2. rewrite Nat2Z.id. do 2 f_equal. apply slice_splice_same.
    unfold fcontent. rewrite fbytes_length by (by apply dm_ok). apply bytes_bound. unfold n in Hmax. lia.
  - intros ip' n' off' Hne Hf' Hm' Hty' Hap Ho' Hn' Hov. destruct (O' ip' Hne Hf' Hap) as (Ei & G & C & N).
    eexists. split; [by apply (iread_run sb im ip')|].
    rewrite (iread_run sb im' ip'); rewrite ?Ei; try done; [by rewrite C|by apply N].
Qed.

(** A file of the image is one of a kernel that has the image as its disk. *)
Lemma same_file im ip (m : Z → block) : file_img sb im ip → (∀ b, 0 ≤ b < sb_size sb → m b = im_blk im b) →
  let ad := di_addrs (inode_at im ip) in
  (∀ k, baddr m ad k = baddr (dm sb (im_blk im)) ad k) ∧ fwf sb (lim sb) m ad ∧ fbytes m ad = fcontent sb im ip.
Proof.
  intros (Hi & Hip & Hf & _ & _) Hm ad. destruct (iok_geo sb im Hi) as (? & ? & ? & ? & ? & ?).
  apply same_map; [|done|].
  - intros b [Hb _] _. rewrite dm_data by lia. apply Hm. lia.
  - intros b [Hb Hu]. split; [done|]. rewrite <- Hu. unfold used.
    pose proof (BBLOCK_range b sb ltac:(lia) ltac:(lia)). pose proof (BBLOCK_ge b (sb_ninodes sb) ltac:(lia)).
    rewrite dm_data by lia. by rewrite Hm by lia.
Qed.

Lemma fwf_limit m l l' ad : fwf sb l m ad → l ≤ l' → fwf sb l' m ad.
Proof.
  intros (H1 & H2 & H3 & H4) Hl. assert (∀ b, dblk sb l m b → dblk sb l' m b) as Hd.
  { intros b [Hb Hu]. split; [lia|done]. }
  split; [done|]. split; [intros; by apply Hd, H2|]. split; [intros; by apply Hd, H3|done].
Qed.

(** C12: the tool and the kernel agree on the format: for a file of an image,
    [iread] on the host and [readi] in a kernel that has the image as its disk
    return the same bytes. *)
Theorem iread_readi {T : Type} `{TxnLaws T} `{DevSw T} (s : fs T) im ip i e n off :
  file_img sb im ip → no_holes sb im ip → di_type (inode_at im ip) ≠ T_DEV →
  fsok s sb → (∀ b, 0 ≤ b < sb_size sb → v_mem (tview (f_t s)) b = im_blk im b) → lim sb ≤ tlimit (f_t s) →
  icache s !! i = Some e → i_dev e = ROOTDEV → i_load (inode_at im ip) e = e → (0 < v_avail (tview (f_t s)))%nat →
  0 ≤ off ≤ di_size (inode_at im ip) → 0 ≤ n → off + n < 2 ^ 32 →
  ∃ r s', iread ip n off im = Ok r im ∧ readi i off n s = Ok r s'.
Proof.
  intros Hf Hm Hty Hok Hmem Hlim He Hd Hld Hav Ho Hn Hov. pose proof Hf as (_ & _ & _ & _ & Hsz).
  destruct (same_file im ip _ Hf Hmem) as (Eb & Hw & Ec). set (di := inode_at im ip) in *.
  assert (i_addrs e = di_addrs di ∧ i_size e = di_size di ∧ i_type e = di_type di) as (Ea & Es & Et)
    by (rewrite <- Hld; done).
  destruct (readi_ok s sb i e off n) as (t' & E & _); rewrite ?Es, ?Et; try done.
  - split; [done|]. split; [done|]. rewrite Ea, Es. split; [by eapply fwf_limit|]. lia.
  - intros k Hk. rewrite Ea, Es, Eb. by apply Hm.
  - eexists _, _. split; [by apply (iread_run sb im ip)|]. rewrite E, Es. unfold content. rewrite Ea, Ec. reflexivity.
Qed.
End thms.

(** ** The image mkfs makes *)

#[local] Instance host_devices : DevSw (log bio) := {| dev_read := λ _, None; dev_write := λ _, None |}.

Definition boot_img : image := mkImage boot_mem 1000.

Lemma boot_img_ok : iok boot_sb boot_img.
Proof.
  destruct boot_fs_ok as (Hok & _ & _ & Hm & _). pose proof (fs_blocks_ok _ _ Hok) as Hl. rewrite Hm in Hl.
  assert (forallb (used (dm boot_sb boot_mem) boot_sb) (seqZ 0 29) = true) as Hf by (vm_compute; reflexivity).
  assert (∀ b, 0 ≤ b < 29 → used (dm boot_sb boot_mem) boot_sb b = true) as Hu.
  { intros b Hb. rewrite forallb_forall in Hf. apply Hf. by apply list_elem_of_In, elem_of_seqZ. }
  split; [|split; [exact Hl|]].
  - split; [vm_compute; reflexivity|]. split; [done|]. split; [done|]. split; [vm_compute; split; done|exact Hu].
  - cbn [im_top im_blk boot_img sb_size sb_nblocks boot_sb]. split; [lia|]. split; [lia|]. split; [lia|exact Hu].
Qed.

Lemma boot_inode : inode_at boot_img 2 = mkDinode T_FILE 0 0 1 99 1 0x700 5 (30 :: replicate 10 0).
Proof. vm_compute. reflexivity. Qed.

Lemma boot_file : file_img boot_sb boot_img 2 ∧ no_holes boot_sb boot_img 2.
Proof.
  unfold file_img, inner, no_holes. rewrite boot_inode. cbn [di_addrs di_size]. split.
  - split; [exact boot_img_ok|]. split; [cbn; lia|]. split; [|split; [|unfold MAXBYTES; lia]].
    + apply fwf_one. intros _. split; [vm_compute; split; done|vm_compute; reflexivity].
    + intros n _. rewrite baddr_one. destruct (n =? 0)%nat; [|done]. intros _. by vm_compute.
  - intros k _ Hk. rewrite baddr_one. unfold BSIZE in Hk. destruct (Nat.eqb_spec k 0); [done|lia].
Qed.

Lemma boot_img_free : (100 ≤ free_blocks boot_sb boot_img)%nat.
Proof. apply Nat.leb_le. vm_compute. reflexivity. Qed.

Lemma iwrite_iread_witness : ∃ im', iwrite 2 [104; 105] 3 boot_img = Ok 2 im' ∧
  iread 2 2 3 im' = Ok (2, [104; 105]) im'.
Proof.
  destruct boot_file as [Hf Hm]. pose proof boot_img_free as Hfr.
  destruct (iwrite_iread boot_sb boot_img 2 [104; 105] 3) as (im' & E1 & E2 & _).
  - exact Hf.
  - exact Hm.
  - rewrite boot_inode. discriminate.
  - rewrite boot_inode. cbn. lia.
  - cbn. unfold MAXBYTES. lia.
  - eapply Nat.le_trans; [|exact Hfr]. vm_compute. lia.
  - exists im'. split; [exact E1|exact E2].
Defined.

Lemma iread_readi_witness : ∃ r s', iread 2 5 0 boot_img = Ok r boot_img ∧ readi 1 0 5 boot_fs = Ok r s'.
Proof.
  destruct boot_file as [Hf Hm]. destruct boot_fs_ok as (Hok & _ & Hb & Hmem & Hlim).
  destruct readme_ok as ((He & Hd & _) & _).
  apply (iread_readi boot_sb boot_fs boot_img 2 1 readme).
  - exact Hf.
  - exact Hm.
  - rewrite boot_inode. discriminate.
  - exact Hok.
  - intros b _. change (im_blk boot_img b) with (boot_mem b). exact (f_equal (λ m, m b) Hmem).
  - rewrite Hlim. by vm_compute.
  - exact He.
  - exact Hd.
  - rewrite boot_inode. reflexivity.
  - destruct Hb. lia.
  - rewrite boot_inode. cbn. lia.
  - lia.
  - lia.
Defined.
