(* ===== verification/User.v ===== *)
(** * The user library's [printf] and small user programs (ulib/printf.c,
    user/wc.c, user/cat.c, user/ls.c, user/echo.c)

    [printf] is a function from the format and the arguments to the bytes it
    writes; [None] is an argument that is missing or has the wrong type, which
    C does not define.  A file that is read is the sequence of what [read]
    returns, with how it ends.  Output is the list of writes, each to a
    descriptor. *)

From S2P Require Import Prelude Bytes CString Ondisk Fs Console ConsoleThms.

(** ** ulib/printf.c *)

Module Printf.

Definition udigits : list Z := [48; 49; 50; 51; 52; 53; 54; 55; 56; 57; 65; 66; 67; 68; 69; 70].

Inductive arg := AInt (x : Z) | AStr (s : option (list Z)).

Definition printint (xx base : Z) (sgn : bool) : list Z :=
  let neg := sgn && (xx <? 0) in
  let x := if neg then u32 (- xx) else u32 xx in
  rev (digit_loop udigits 32 x base ++ (if neg then [45] else [])).

(** The loop over the format; [state] is set behind a percent sign. *)
Fixpoint fmt_loop (state : bool) (fmt : list Z) (args : list arg) : option (list Z) :=
  match fmt with
  | [] => Some []
  | c :: fmt =>
      if c =? 0 then Some [] else
      if negb state then
        if c =? 37 then fmt_loop true fmt args else cons (u8 c) <$> fmt_loop false fmt args
      else if c =? 100 then
        match args with AInt x :: args => app (printint x 10 true) <$> fmt_loop false fmt args | _ => None end
      else if (c =? 120) || (c =? 112) then
        match args with AInt x :: args => app (printint x 16 false) <$> fmt_loop false fmt args | _ => None end
      else if c =? 115 then
        match args with
        | AStr s :: args => app (cstr (default [40; 110; 117; 108; 108; 41] s)) <$> fmt_loop false fmt args
        | _ => None
        end
      else if c =? 99 then
        match args with AInt x :: args => cons (u8 x) <$> fmt_loop false fmt args | _ => None end
      else if c =? 37 then cons 37 <$> fmt_loop false fmt args
      else app [37; u8 c] <$> fmt_loop false fmt args
  end.

Definition printf (fmt : list Z) (args : list arg) : option (list Z) := fmt_loop false fmt args.

(** *** What is printed *)

(** The value of a string of digits. *)
Definition digit_val (c : Z) : Z := if c <=? 57 then c - 48 else c - 55.
Definition value (base : Z) (s : list Z) : Z := foldl (λ v c, base * v + digit_val c) 0 s.

Definition is_digit (base c : Z) : Prop := (48 ≤ c ≤ 57 ∨ 65 ≤ c ≤ 70) ∧ 0 ≤ digit_val c < base.

(** A numeral: digits of the base, at least one, none of them a leading zero. *)
Definition numeral (base : Z) (s : list Z) : Prop :=
  s ≠ [] ∧ Forall (is_digit base) s ∧ (head s = Some 48 → s = [48]).

Lemma udigit_val d : 0 ≤ d < 16 → digit_val (nth (Z.to_nat d) udigits 0) = d ∧ is_digit 16 (nth (Z.to_nat d) udigits 0).
Proof.
  intros Hd. assert (Z.to_nat d < 16)%nat as Hn by lia. replace d with (Z.of_nat (Z.to_nat d)) at 2 by lia.
  generalize (Z.to_nat d), Hn. clear. intros n Hn.
  do 16 (destruct n as [|n]; [split; [reflexivity|split; cbn; lia]|]). lia.
Qed.

Lemma digit_base base d : 2 ≤ base ≤ 16 → 0 ≤ d < base → is_digit base (nth (Z.to_nat d) udigits 0).
Proof. intros Hb Hd. destruct (udigit_val d) as [E [H _]]; [lia|]. split; [done|]. by rewrite E. Qed.

Lemma value_app base s c : value base (s ++ [c]) = base * value base s + digit_val c.
Proof. unfold value. by rewrite foldl_app. Qed.

Lemma digits_numeral base k x : 2 ≤ base ≤ 16 → 0 ≤ x < base ^ Z.of_nat k → (0 < k)%nat →
  value base (rev (digit_loop udigits k x base)) = x ∧ numeral base (rev (digit_loop udigits k x base)).
Proof.
  intros Hb. revert x. induction k as [|k IH]; intros x Hx Hk; [lia|].
  pose proof (Z.div_mod x base ltac:(lia)) as Ex. pose proof (Z.mod_pos_bound x base ltac:(lia)) as Hm.
  assert (0 ≤ x / base) as Hq by (apply Z.div_pos; lia).
  destruct (udigit_val (x mod base)) as [Ed _]; [lia|]. pose proof (digit_base base (x mod base) Hb Hm) as Hd.
  cbn [digit_loop rev]. rewrite value_app, Ed. destruct (Z.eqb_spec (x / base) 0) as [E|E].
  - cbn [rev app]. split; [cbn; lia|]. split; [done|]. split; [by apply Forall_singleton|]. cbn. by intros [= ->].
  - destruct k as [|k]; [change (Z.of_nat 1) with 1 in Hx; rewrite Z.pow_1_r in Hx; pose proof (Z.div_small x base); lia|].
    destruct (IH (x / base)) as [V (N1 & N2 & N3)]; [|lia|].
    { split; [done|]. apply Z.div_lt_upper_bound; [lia|].
      replace (Z.of_nat (S (S k))) with (Z.succ (Z.of_nat (S k))) in Hx by lia. rewrite Z.pow_succ_r in Hx; lia. }
    rewrite V. split; [lia|]. split; [by destruct (rev _)|]. split; [apply Forall_app; split; [done|by apply Forall_singleton]|].
    destruct (rev (digit_loop udigits (S k) (x / base) base)) as [|c s] eqn:Es; [done|]. cbn. intros Hc.
    rewrite (N3 Hc) in V. cbn in V. lia.
Qed.

(** The pieces a format is made of, with their arguments. *)
Inductive piece :=
  | Lit (c : Z)
  | PInt (x : Z)
  | PHex (x : Z)
  | PStr (s : option (list Z))
  | PChar (x : Z)
  | PPercent.

Definition fmt_of (p : piece) : list Z :=
  match p with Lit c => [c] | PInt _ => [37; 100] | PHex _ => [37; 120] | PStr _ => [37; 115] | PChar _ => [37; 99] | PPercent => [37; 37] end.
Definition args_of (p : piece) : list arg :=
  match p with PInt x | PHex x | PChar x => [AInt x] | PStr s => [AStr s] | _ => [] end.

(** Arguments are C integers and strings; a literal byte is neither the
    percent sign nor the end of the format. *)
Definition wf_piece (p : piece) : Prop :=
  match p with Lit c => 0 < c < 256 ∧ c ≠ 37 | PInt x | PHex x | PChar x => - 2 ^ 31 ≤ x < 2 ^ 31 | _ => True end.

(** What a piece prints. *)
Definition prints (p : piece) (s : list Z) : Prop :=
  match p with
  | Lit c => s = [c]
  | PInt x => if x <? 0 then ∃ s', s = 45 :: s' ∧ numeral 10 s' ∧ value 10 s' = - x else numeral 10 s ∧ value 10 s = x
  | PHex x => numeral 16 s ∧ value 16 s = x mod 2 ^ 32
  | PStr (Some l) => s = cstr l
  | PStr None => s = [40; 110; 117; 108; 108; 41]
  | PChar x => s = [x mod 256]
  | PPercent => s = [37]
  end.

Lemma prints_int x : - 2 ^ 31 ≤ x < 2 ^ 31 → prints (PInt x) (printint x 10 true).
Proof.
  intros Hx. unfold prints, printint. destruct (Z.ltb_spec x 0) as [L|L]; cbn [andb].
  - exists (rev (digit_loop udigits 32 (- x) 10)). rewrite wrap_small, rev_app_distr by lia. split; [done|].
    apply and_comm, digits_numeral; [lia| |lia]. split; [lia|]. apply (Z.le_lt_trans _ (2 ^ 31)); [lia|reflexivity].
  - rewrite wrap_small, app_nil_r by lia.
    apply and_comm, digits_numeral; [lia| |lia]. split; [lia|]. apply (Z.lt_trans _ (2 ^ 31)); [lia|reflexivity].
Qed.

Lemma prints_hex x : prints (PHex x) (printint x 16 false).
Proof.
  unfold prints, printint. cbn [andb]. rewrite app_nil_r. pose proof (wrap_range 32 x ltac:(lia)).
  apply and_comm, digits_numeral; [lia| |lia]. split; [lia|]. apply (Z.lt_le_trans _ (2 ^ 32)); [lia|by apply Z.leb_le].
Qed.

Lemma fmt_piece p fmt args r : wf_piece p → fmt_loop false fmt args = Some r →
  ∃ s, fmt_loop false (fmt_of p ++ fmt) (args_of p ++ args) = Some (s ++ r) ∧ prints p s.
Proof.
  intros Hw Hr. destruct p as [c|x|x|l|x|]; cbn [fmt_of args_of app] in *.
  - destruct Hw as [Hc Hp]. exists [c]. cbn [fmt_loop negb]. rewrite (proj2 (Z.eqb_neq c 0)), (proj2 (Z.eqb_neq c 37)) by lia.
    rewrite Hr, wrap_small by lia. done.
  - exists (printint x 10 true). cbn. rewrite Hr. split; [done|]. by apply prints_int.
  - exists (printint x 16 false). cbn. rewrite Hr. split; [done|]. apply prints_hex.
  - exists (cstr (default [40; 110; 117; 108; 108; 41] l)). cbn. rewrite Hr. split; [done|]. by destruct l.
  - exists [u8 x]. cbn. by rewrite Hr.
  - exists [37]. cbn. by rewrite Hr.
Qed.

(** C38: a format is printed piece by piece: literal bytes as they are, a
    percent sign for two, strings and characters as given, every [int] as its
    decimal numeral with a minus sign when it is negative, and in hexadecimal
    as the numeral of its 32 bits, without leading zeros. *)
Theorem printf_prints ps : Forall wf_piece ps →
  ∃ ss, printf (concat (fmt_of <$> ps)) (concat (args_of <$> ps)) = Some (concat ss) ∧ Forall2 prints ps ss.
Proof.
  induction 1 as [|p ps Hp _ (ss & E & Hs)]; [by exists []|]. cbn [fmap list_fmap concat].
  destruct (fmt_piece p _ _ _ Hp E) as (s & E' & Hp'). exists (s :: ss). split; [exact E'|]. by constructor.
Qed.

Lemma printf_prints_witness : ∃ ss,
  printf [37; 100; 32; 37; 120; 10] [AInt (- 2 ^ 31); AInt (-1)] = Some (concat ss) ∧
  Forall2 prints [PInt (- 2 ^ 31); Lit 32; PHex (-1); Lit 10] ss.
Proof.
  apply (printf_prints [PInt (- 2 ^ 31); Lit 32; PHex (-1); Lit 10]). repeat (apply Forall_cons; split; [cbn; lia|]). apply Forall_nil_2.
Defined.
End Printf.

(** ** user/wc.c *)

Module Wc.
Import Printf.

Record wcst := mkWc { wl : Z; ww : Z; wch : Z; inword : bool }.

Definition separators : list Z := [32; 13; 9; 10; 11].
Definition sep (c : Z) : bool := match strchr (separators ++ [0]) c with Some _ => true | None => false end.

Definition wc_byte (s : wcst) (b : Z) : wcst :=
  let l := if b =? 10 then i32 (wl s + 1) else wl s in
  let c := i32 (wch s + 1) in
  if sep b then mkWc l (ww s) c false
  else if inword s then mkWc l (ww s) c true
  else mkWc l (i32 (ww s + 1)) c true.

(** What [read] returns: bytes, none at the end of the file, [None] for an
    error.  The result is the counts and whether the end was reached. *)
Fixpoint wc_loop (s : wcst) (reads : list (option (list Z))) : wcst * bool :=
  match reads with
  | Some (b :: chunk) :: reads => wc_loop (foldl wc_byte s (b :: chunk)) reads
  | None :: _ => (s, false)
  | _ => (s, true)
  end.

(** The bytes written to the standard output. *)
Definition wc (reads : list (option (list Z))) (name : list Z) : option (list Z) :=
  let '(s, ok) := wc_loop (mkWc 0 0 0 false) reads in
  if ok then printf [37; 100; 32; 37; 100; 32; 37; 100; 32; 37; 115; 10] [AInt (wl s); AInt (ww s); AInt (wch s); AStr (Some name)]
  else printf [119; 99; 58; 32; 114; 101; 97; 100; 32; 101; 114; 114; 111; 114; 10] [].

(** [main], with the files it can open and its standard input. *)
Fixpoint wc_args (open : list Z → option (list (option (list Z)))) (args : list (list Z)) : option (list Z) :=
  match args with
  | [] => Some []
  | a :: args =>
      match open a with
      | None => printf [119; 99; 58; 32; 99; 97; 110; 110; 111; 116; 32; 111; 112; 101; 110; 32; 37; 115; 10] [AStr (Some a)]
      | Some reads =>
          match wc reads a with
          | Some o => if (wc_loop (mkWc 0 0 0 false) reads).2 then app o <$> wc_args open args else Some o
          | None => None
          end
      end
  end.
Definition wc_main (open : list Z → option (list (option (list Z)))) (stdin : list (option (list Z))) (args : list (list Z)) :
  option (list Z) := match args with [] => wc stdin [] | _ => wc_args open args end.

(** *** The counts *)

Definition ws_char (c : Z) : bool := bool_decide (c ∈ separators).

Lemma sep_spec c : sep c = ws_char c.
Proof.
  unfold sep, ws_char, separators. cbn [strchr app].
  destruct (Z.eqb_spec 32 c) as [<-|]; [done|]. destruct (Z.eqb_spec 13 c) as [<-|]; [done|].
  destruct (Z.eqb_spec 9 c) as [<-|]; [done|]. destruct (Z.eqb_spec 10 c) as [<-|]; [done|].
  destruct (Z.eqb_spec 11 c) as [<-|]; [done|]. cbn. rewrite bool_decide_eq_false_2; [done|].
  rewrite !elem_of_cons, elem_of_nil. intuition congruence.
Qed.

(** A word starts at [i]: no separator, behind a separator or at the start. *)
Definition starts_word (s : list Z) (i : nat) : bool :=
  match s !! i with
  | Some c => negb (ws_char c) && match i with O => true | S j => default true (ws_char <$> s !! j) end
  | None => false
  end.

Definition words (s : list Z) : nat := length (filter (λ i, starts_word s i = true) (seq 0 (length s))).
Definition newlines (s : list Z) : nat := length (filter (λ c, c = 10) s).

Lemma filter_same {A} (P Q : A → Prop) `{∀ x, Decision (P x), ∀ x, Decision (Q x)} (l : list A) :
  (∀ x, x ∈ l → P x ↔ Q x) → filter P l = filter Q l.
Proof.
  induction l as [|x l IH]; intros H1; [done|]. rewrite !filter_cons, IH by (intros y Hy; apply H1; by right).
  pose proof (H1 x ltac:(by left)). destruct (decide (P x)), (decide (Q x)); tauto || done.
Qed.

Lemma words_snoc s b : words (s ++ [b]) =
  (words s + if negb (ws_char b) && default true (ws_char <$> last s) then 1 else 0)%nat.
Proof.
  unfold words. rewrite length_app. cbn [length]. rewrite seq_app, filter_app, length_app. f_equal.
  - f_equal. apply filter_same. intros i Hi%elem_of_seq. unfold starts_word.
    rewrite lookup_app_l by lia. destruct i as [|j]; [done|]. by rewrite lookup_app_l by lia.
  - cbn [seq Nat.add]. rewrite filter_cons, filter_nil.
    assert (starts_word (s ++ [b]) (length s) = negb (ws_char b) && default true (ws_char <$> last s)) as ->.
    { unfold starts_word. rewrite lookup_app_r, Nat.sub_diag by lia. cbn. f_equal. rewrite last_lookup.
      destruct (length s) as [|j] eqn:El; cbn.
      - apply length_zero_iff_nil in El as ->. done.
      - by rewrite lookup_app_l by lia. }
    by destruct (negb (ws_char b) && _).
Qed.

Lemma newlines_snoc s b : newlines (s ++ [b]) = (newlines s + if (b =? 10)%Z then 1 else 0)%nat.
Proof.
  unfold newlines. rewrite filter_app, length_app, filter_cons, filter_nil. f_equal.
  by destruct (Z.eqb_spec b 10), (decide (b = 10)).
Qed.

Definition counts (s : list Z) : wcst :=
  mkWc (Z.of_nat (newlines s)) (Z.of_nat (words s)) (Z.of_nat (length s)) (default false ((λ c, negb (ws_char c)) <$> last s)).

Lemma words_le s : (words s ≤ length s)%nat.
Proof. unfold words. etrans; [apply length_filter|]. by rewrite length_seq. Qed.

Lemma wc_byte_counts s b : Z.of_nat (length s) < 2 ^ 31 - 1 → wc_byte (counts s) b = counts (s ++ [b]).
Proof.
  intros Hs. pose proof (words_le s). assert (newlines s ≤ length s)%nat by apply length_filter.
  unfold wc_byte, counts. cbn [wl ww wch inword]. rewrite sep_spec, words_snoc, newlines_snoc, length_app, last_snoc.
  cbn [length fmap option_fmap option_map default]. rewrite !swrap_small by lia.
  destruct (ws_char b), (last s) as [c|]; cbn; try destruct (ws_char c); cbn; f_equal; try lia;
    destruct (b =? 10); lia.
Qed.

Lemma wc_bytes_counts s x : Z.of_nat (length (s ++ x)) < 2 ^ 31 → foldl wc_byte (counts s) x = counts (s ++ x).
Proof.
  revert s. induction x as [|b x IH]; intros s Hs; cbn [foldl]; [by rewrite app_nil_r|].
  rewrite length_app in Hs. cbn [length] in Hs. rewrite wc_byte_counts by lia.
  rewrite IH; [by rewrite <- app_assoc|]. rewrite !length_app. cbn [length]. lia.
Qed.

Lemma wc_loop_counts chunks s : Forall (λ c, c ≠ []) chunks → Z.of_nat (length (s ++ concat chunks)) < 2 ^ 31 →
  wc_loop (counts s) ((Some <$> chunks) ++ [Some []]) = (counts (s ++ concat chunks), true).
Proof.
  intros Hc. revert s. induction Hc as [|c chunks Hc _ IH]; intros s Hs; cbn [fmap list_fmap app concat wc_loop];
    [by rewrite app_nil_r|].
  destruct c as [|b c]; [done|]. cbn [concat] in Hs. rewrite app_assoc in Hs. rewrite length_app in Hs.
  rewrite wc_bytes_counts by lia. rewrite IH by (rewrite length_app; lia). by rewrite <- app_assoc.
Qed.

(** The counts are those of the whole input, however it is cut into reads. *)
Theorem wc_counts chunks name : Forall (λ c, c ≠ []) chunks → Z.of_nat (length (concat chunks)) < 2 ^ 31 →
  let s := concat chunks in
  wc ((Some <$> chunks) ++ [Some []]) name =
    printf [37; 100; 32; 37; 100; 32; 37; 100; 32; 37; 115; 10]
      [AInt (Z.of_nat (newlines s)); AInt (Z.of_nat (words s)); AInt (Z.of_nat (length s)); AStr (Some name)].
Proof. intros Hc Hl. unfold wc. change (mkWc 0 0 0 false) with (counts []). by rewrite (wc_loop_counts chunks [] Hc Hl). Qed.

Lemma wc_counts_witness :
  wc (Some <$> [[97; 32; 98]; [99; 10]] ++ [[]]) [102] = Some [49; 32; 50; 32; 53; 32; 102; 10].
Proof.
  etrans; [apply (wc_counts [[97; 32; 98]; [99; 10]] [102]); [|reflexivity]|vm_compute; reflexivity].
  repeat (apply Forall_cons; split; [done|]). apply Forall_nil_2.
Defined.
End Wc.

(** ** user/cat.c *)

Module Cat.
Import Printf.

(** What is copied, and whether the end of the file was reached. *)
Fixpoint cat_loop (reads : list (option (list Z))) : list Z * bool :=
  match reads with
  | Some (b :: chunk) :: reads => let r := cat_loop reads in (b :: chunk ++ r.1, r.2)
  | None :: _ => ([], false)
  | _ => ([], true)
  end.

Definition cat (reads : list (option (list Z))) : option (list Z) :=
  let '(out, ok) := cat_loop reads in
  if ok then Some out
  else app out <$> printf [99; 97; 116; 58; 32; 114; 101; 97; 100; 32; 101; 114; 114; 111; 114; 10] [].

Fixpoint cat_args (open : list Z → option (list (option (list Z)))) (args : list (list Z)) : option (list Z) :=
  match args with
  | [] => Some []
  | a :: args =>
      match open a with
      | None => printf [99; 97; 116; 58; 32; 99; 97; 110; 110; 111; 116; 32; 111; 112; 101; 110; 32; 37; 115; 10] [AStr (Some a)]
      | Some reads =>
          match cat reads with
          | Some o => if (cat_loop reads).2 then app o <$> cat_args open args else Some o
          | None => None
          end
      end
  end.
Definition cat_main (open : list Z → option (list (option (list Z)))) (stdin : list (option (list Z))) (args : list (list Z)) :
  option (list Z) := match args with [] => cat stdin | _ => cat_args open args end.

(** The reads of a file with the given contents, cut in some way. *)
Definition reads_of (s : list Z) (reads : list (option (list Z))) : Prop :=
  ∃ chunks, reads = (Some <$> chunks) ++ [Some []] ∧ Forall (λ c, c ≠ []) chunks ∧ concat chunks = s.

Lemma cat_loop_reads s reads : reads_of s reads → cat_loop reads = (s, true).
Proof.
  intros (chunks & -> & Hc & <-). induction Hc as [|c chunks Hc _ IH]; [done|].
  cbn [fmap list_fmap app concat]. destruct c as [|b c]; [done|]. cbn [cat_loop]. by rewrite IH.
Qed.

(** [cat] writes the files one behind the other, however they are read. *)
Theorem cat_concat open stdin (args : list (list Z)) (contents : list (list Z)) : args ≠ [] →
  Forall2 (λ a s, ∃ reads, open a = Some reads ∧ reads_of s reads) args contents →
  cat_main open stdin args = Some (concat contents).
Proof.
  intros Hne H. assert (cat_args open args = Some (concat contents)) as E; [|by destruct args].
  clear Hne. induction H as [|a s args contents (reads & Ho & Hr) _ IH]; [done|]. cbn [cat_args concat].
  unfold cat. by rewrite Ho, (cat_loop_reads s reads Hr), IH.
Qed.
End Cat.

(** ** user/ls.c *)

Module Ls.
Import Printf.

(** [for(p = path + k - 1; p >= path && *p != '/'; p--) ; p++], as an offset. *)
Fixpoint rscan (path : list Z) (k : nat) : nat :=
  match k with
  | O => O
  | S p => if nth p path 0 =? 47 then k else rscan path p
  end.

Definition fmtname (path : list Z) : list Z :=
  let p := drop (rscan path (S (strlen path))) path in
  if (DIRSIZ <=? strlen p)%nat then cstr p else take (strlen p) p ++ replicate (DIRSIZ - strlen p) 32.

Record stat := mkStat { st_type : Z; st_ownerid : Z; st_groupid : Z; st_mode : Z; st_ino : Z; st_size : Z }.

Definition ls_line (sep : list Z) (path : list Z) (st : stat) : option (list Z) :=
  printf ([37; 115; 32] ++ sep ++ [37; 100; 32; 37; 100; 32; 37; 100; 32; 37; 120; 32; 37; 100; 32; 37; 100; 10])
    [AStr (Some (fmtname path)); AInt (st_type st); AInt (st_ownerid st); AInt (st_groupid st); AInt (st_mode st);
     AInt (st_ino st); AInt (st_size st)].

(** The name an entry of the directory [path] is looked up by. *)
Definition full (path : list Z) (de : dirent) : list Z := cstr (path ++ [47] ++ de_name de ++ [0]).

(** The loop over the directory: [reads] are the results of [read]. *)
Fixpoint ls_dir (stat_of : list Z → option stat) (path : list Z) (reads : list (list Z)) : option (list Z) :=
  match reads with
  | [] => Some []
  | r :: reads =>
      if negb (length r =? 16)%nat then Some [] else
      let de := dirent_dec r in
      if de_inum de =? 0 then ls_dir stat_of path reads else
      let out :=
        match stat_of (full path de) with
        | None => printf [108; 115; 58; 32; 99; 97; 110; 110; 111; 116; 32; 115; 116; 97; 116; 32; 37; 115; 10] [AStr (Some (full path de))]
        | Some st => ls_line [32] (full path de) st
        end in
      match out with Some o => app o <$> ls_dir stat_of path reads | None => None end
  end.

(** The output for one path: the descriptor and the bytes. *)
Definition ls (can_open : list Z → bool) (stat_of : list Z → option stat) (dir : list Z → list (list Z)) (path : list Z) :
  option (Z * list Z) :=
  if negb (can_open path) then
    pair 2 <$> printf [108; 115; 58; 32; 99; 97; 110; 110; 111; 116; 32; 111; 112; 101; 110; 32; 37; 115; 10] [AStr (Some path)]
  else
    match stat_of path with
    | None => pair 2 <$> printf [108; 115; 58; 32; 99; 97; 110; 110; 111; 116; 32; 115; 116; 97; 116; 32; 37; 115; 10] [AStr (Some path)]
    | Some st =>
        if st_type st =? T_FILE then pair 1 <$> ls_line [] path st
        else if st_type st =? T_DIR then
          if 512 <? Z.of_nat (strlen path) + 1 + Z.of_nat DIRSIZ + 1
          then pair 1 <$> printf [108; 115; 58; 32; 112; 97; 116; 104; 32; 116; 111; 111; 32; 108; 111; 110; 103; 10] []
          else pair 1 <$> ls_dir stat_of path (dir path)
        else Some (1, [])
    end.

Definition ls_main (can_open : list Z → bool) (stat_of : list Z → option stat) (dir : list Z → list (list Z)) (args : list (list Z)) :
  list (option (Z * list Z)) :=
  match args with [] => [ls can_open stat_of dir [46]] | _ => ls can_open stat_of dir <$> args end.

Lemma rscan_name dir name : 47 ∉ name → ∀ k, (k ≤ length name)%nat →
  rscan (dir ++ [47] ++ name) (S (length dir) + k) = S (length dir).
Proof.
  intros Hn. induction k as [|k IH]; intros Hk.
  - rewrite Nat.add_0_r. cbn [rscan]. rewrite app_nth2, Nat.sub_diag by lia. done.
  - rewrite Nat.add_succ_r. cbn [rscan]. rewrite app_nth2 by lia.
    replace (S (length dir) + k - length dir)%nat with (S k) by lia. cbn [app nth].
    destruct (Z.eqb_spec (nth k name 0) 47) as [E|_]; [|apply IH; lia].
    exfalso. apply Hn. rewrite <- E. apply list_elem_of_In, nth_In. lia.
Qed.

Lemma rscan_plain name : 47 ∉ name → ∀ k, (k ≤ length name)%nat → rscan name k = O.
Proof.
  intros Hn. induction k as [|k IH]; intros Hk; [done|]. cbn [rscan].
  destruct (Z.eqb_spec (nth k name 0) 47) as [E|_]; [|apply IH; lia].
  exfalso. apply Hn. rewrite <- E. apply list_elem_of_In, nth_In. lia.
Qed.

Lemma strlen_nz s : Forall (λ c, c ≠ 0) s → strlen s = length s.
Proof. intros H. rewrite strlen_spec. rewrite <- (app_nil_r s) at 1. rewrite cstr_app_nz by done. by rewrite app_nil_r. Qed.

Lemma rscan_end path : rscan path (S (length path)) = rscan path (length path).
Proof. cbn [rscan]. by rewrite nth_overflow by lia. Qed.

(** The name shown is the last component of the path, padded with blanks to
    the length of a directory entry. *)
Theorem fmtname_spec (dir : option (list Z)) name :
  let path := match dir with Some d => d ++ [47] ++ name | None => name end in
  Forall (λ c, c ≠ 0) path → 47 ∉ name → fmtname path = name ++ replicate (DIRSIZ - length name) 32.
Proof.
  intros path Hp Hn. assert (Forall (λ c, c ≠ 0) name) as Hz.
  { destruct dir as [d|]; [|done]. by apply Forall_app in Hp as [_ [_ Hp]%Forall_app]. }
  unfold fmtname. rewrite (strlen_nz path Hp), rscan_end.
  assert (drop (rscan path (length path)) path = name) as ->.
  { unfold path. destruct dir as [d|]; [|by rewrite rscan_plain].
    rewrite !length_app. cbn [length]. replace (length d + (1 + length name))%nat with (S (length d) + length name)%nat by lia.
    rewrite rscan_name by done. rewrite app_assoc. rewrite <- (drop_app_length (d ++ [47]) name) at 2. f_equal.
    rewrite length_app. cbn. lia. }
  rewrite (strlen_nz name Hz), take_ge by done. destruct (Nat.leb_spec DIRSIZ (length name)) as [L|L]; [|done].
  rewrite <- (app_nil_r name) at 1. rewrite cstr_app_nz by done. f_equal. by replace (DIRSIZ - length name)%nat with O by lia.
Qed.
End Ls.

(** ** user/echo.c and user/chmod.c *)

Module Small.
Import Printf.

(** [echo]: its arguments, without its own name. *)
Fixpoint echo (args : list (list Z)) : option (list Z) :=
  match args with
  | [] => Some []
  | a :: args =>
      match printf [37; 115; 37; 115] [AStr (Some a); AStr (Some (match args with [] => [10] | _ => [32] end))] with
      | Some o => app o <$> echo args
      | None => None
      end
  end.

(** Words separated by blanks, ended by a newline. *)
Fixpoint joined (args : list (list Z)) : list Z :=
  match args with [] => [] | [a] => a ++ [10] | a :: args => a ++ [32] ++ joined args end.

Theorem echo_joined args : Forall (Forall (λ c, c ≠ 0)) args → echo args = Some (joined args).
Proof.
  induction 1 as [|a args Ha Hargs IH]; [done|]. cbn [echo]. rewrite IH. unfold printf. cbn.
  assert (cstr a = a) as -> by (rewrite <- (app_nil_r a) at 1; rewrite cstr_app_nz, app_nil_r; done).
  by destruct args; cbn; rewrite <- ?app_assoc.
Qed.

(** The mode [chmod] asks for, from its option and the mode of the file. *)
Definition chmod_mode (opt : list Z) (mode : Z) : option Z :=
  if strcmp opt [45; 120] =? 0 then Some (Z.land 0x677 mode)
  else if strcmp opt [43; 120] =? 0 then Some (Z.land 0x777 mode)
  else None.

(** [chmod +x] sets no bit that was not set. *)
Theorem chmod_adds_nothing opt mode mode' : 0 ≤ mode → chmod_mode opt mode = Some mode' → Z.land mode' mode = mode'.
Proof.
  intros Hm. unfold chmod_mode. destruct (_ =? 0); [|destruct (_ =? 0); [|done]]; intros [= <-];
    by rewrite <- Z.land_assoc, Z.land_diag.
Qed.
End Small.
